(* ===== verification/_CoqProject ===== *)
-Q . S2P
Prelude.v
DataNode.v
DataNodeAlloc.v
MasterData.v
SheetFile.v
SheetFileSpec.v
SheetFileRefine.v
SheetFileProps.v
JournalEntry.v
CommonJournal.v
FileMgr.v
Replay.v
FileMgrProps.v
MasterReplica.v
MasterServer.v
FsClient.v
EndToEnd.v
FsCalls.v
SheetRead.v
FileSystem.v
Bitset.v
Linearizability.v
LinSpec.v
LinList.v
LinProof.v
LinCheck.v
LinLocal.v
GoStd.v
Election.v
TakeOver.v
LabRpc.v
RaftConfig.v
KvConfig.v
MapReduce.v
MapReduceProps.v
Schedule.v
ScheduleProps.v
PhaseFiles.v
Distributed.v
WordCount.v
Locks.v
GdocModel.v
GdocFs.v
GdocHandler.v
GdocLocks.v
GdocProps.v
GdocFiles.v
GdocDemo.v
GdocRange.v
GdocLoad.v
GdocControllers.v
RaftAgree.v
LabGob.v
RandString.v
ShardClerk.v
ShardConfig.v
SmConfig.v
RpcLoops.v
NodeRun.v
ZkLocks.v
