(* ===== verification/Prelude.v ===== *)
(** * A verification of the Go programs of cloud-computing-lab

    The repository holds three Go programs; paths are relative to src/code.

    - [sheetfs] (lab5 gDoc/sheetfs): a replicated file system for spreadsheets.
      A file is a grid of cells; a cell is a slot of a chunk.  The master keeps
      the directory and which chunk holds which cell, data nodes keep the bytes
      of chunks, clients ask the master for a slot and talk to the data node.
      Masters and data nodes replicate through a Kafka journal.
    - the gDoc backend (lab5 gDoc/gDoc_backend): a collaborative spreadsheet
      on top of sheetfs, with a log of edits and a list of files in MongoDB.
    - lab4-mapreduce: a MapReduce library with two applications, the
      linearizability checker of the raft labs, and the simulated network and
      test harnesses of these labs (whose servers are left as exercises).

    ** What models what

    Go code that can panic or block runs in [GoM S A := S -> option (A * S)]
    (this file): [None] is a panic or waiting for ever.  Errors are values of
    [result].  Machine integers are integers of Z with their wrap-around written
    out ([u32], [u64], [i64], ...), byte slices are lists of bytes.

    sheetfs:
    - DataNode.v: datanode/server/server.go, datanode/utils, datanode/journal.
      Chunk files with their version word, the three handlers, the replay.
    - DataNodeAlloc.v: master/datanode_alloc.
    - MasterData.v: records of the master, its database (class [MetaDB]).
    - SheetFile.v: master/sheetfile, with pointers and shared slices.
      SheetFileSpec.v is the contract (values, no pointers), SheetFileRefine.v
      the simulation, SheetFileProps.v the theorems.
    - JournalEntry.v, CommonJournal.v: the journal (class [Kafka]).
    - FileMgr.v: master/filemgr; FileMgrProps.v the contract of the directory;
      Replay.v and MasterReplica.v a secondary that follows the journal.
    - MasterServer.v: master/server; FsClient.v: fsclient.
    - EndToEnd.v: client, master and data nodes composed, with the invariant
      [sys_ok]; FsCalls.v and SheetRead.v: each call of a client in that system
      (Create, Open, WriteAt, ReadAt; Read of a whole sheet); FileSystem.v: runs
      of several clients.  The contract [fs_step] is a map from cells to bytes.
      DeleteSheet is not implemented by the master (its handler panics), so that
      the contract has no deletion.
    - Election.v: election/election.go (class [ZooKeeper]) and a group of nodes
      as a transition system; TakeOver.v: RunAsSecondary of datanode/node and
      master/node with master/journal/listener.go; NodeRun.v: the constructors of
      the nodes, Run and RunAsPrimary, on top of the group of Election.v.

    linearizability checker (lab4-mapreduce/src/linearizability):
    - Bitset.v, Linearizability.v: the code; LinSpec.v: the definition;
      LinList.v, LinProof.v, LinCheck.v: the linked list, the search, the result;
      LinLocal.v: partitions by key, and the key-value store as a whole.

    MapReduce (lab4-mapreduce/src/mapreduce and main):
    - GoStd.v: strconv, strings; MapReduce.v, MapReduceProps.v: tasks, merge,
      the master with [run], sequential jobs, and the tasks split into their actions
      on files; Schedule.v, ScheduleProps.v: the scheduler and its workers as a
      transition system in which the executions of tasks take one file action at a
      time, those whose reply was lost go on, and they outlive the phase;
      PhaseFiles.v: the files that a phase leaves; Distributed.v: a whole job;
      WordCount.v: wc.go, ii.go; RpcLoops.v: the accept loops of worker.go and
      master_rpc.go (Modules [WorkerLoop], [MasterLoop]).

    raft labs (lab4-mapreduce/src):
    - LabRpc.v: labrpc, calls and servers as a transition system whose labels are
      the random choices, timers and the scheduling; RaftConfig.v: raft/config.go
      and raft/persister.go; KvConfig.v: kvraft/config.go; SmConfig.v:
      shardmaster/config.go, its simulation by KvConfig.v, runs of both; RaftAgree.v: the
      skeleton of raft/raft.go and wait, one, begin and end of the harness;
      ShardClerk.v: the clerks of shardmaster and shardkv (their servers are a
      parameter, and may lag behind the configuration); ShardConfig.v: shardkv/config.go; LabGob.v: labgob;
      RandString.v: randstring of the harnesses, with base64.

    gDoc backend:
    - Locks.v: lock/lock.go as interleaved goroutines; ZkLocks.v: lock/zkConn.go
      (class [ZkMutex]), which nothing calls yet; GdocModel.v: model;
      GdocFs.v: fs/api.go over the interface [SheetFs], which FileSystem.v
      discharges; GdocHandler.v: handler; GdocLocks.v, GdocProps.v, GdocFiles.v:
      its theorems; GdocRange.v: edits of a range and of the calculation chain;
      GdocLoad.v: sessions of messages, and the document as LoadSheet decodes it;
      GdocDemo.v: concrete instances and examples;
      GdocControllers.v: controllers, with the connections and the broadcaster
      as a transition system.

    ** What the theorems show

    - Refinement: a client of the file system sees a map from cells to bytes,
      also when it reads a whole sheet (file_system_refines); a sheet file with pointers implements its value
      (write_cell_refines, reads_refine); a data node implements versioned slots
      (write_chunk_refines); a secondary that replays the journal agrees with the
      primary (secondary_agrees, replica_converges), and one that is elected ends
      with the whole journal applied (data_node_takes_over, master_takes_over);
      the directory is a map, so is the list of files of the backend behind HTTP
      (directory_refines, http_file_requests).
    - Invariants and safety: slots never overlap, snapshots survive later writes,
      descriptors are unique, versions are consecutive; a worker runs one task at
      a time; a cell and a file are used by one goroutine at a time; a group has
      one leader at most (one_leader) and one node serves (serves_alone); all clients of the backend see messages in
      one order (same_order); the handler of a simulated call runs once at most
      (call_outcome) and a deleted server answers no one (deleted_server_silent);
      the simulated network is the one the harness records (partition_matrix),
      a call arrives at a running instance exactly when the partition lets it
      (partition_splits; whatever ran before, leader_cut_off), a restarted server gets what its
      last instance had saved (restart_keeps_state), the leader that checkOneLeader returns is the
      only one of the latest term (one_leader_found), and committed commands agree (committed_agree); in
      the shard harness a server that is up is reached over exactly its own ends
      (shard_routes); an answer that a clerk accepts comes from a leader of the
      group that owns the shard (clerk_asks_owner).
    - Round trips: journal delivery, write then read, lift and unlift, an edit
      read back (edit_read_back, range_read_back); a document is loaded with the cells
      and the common part that any session of messages left (load_after_session,
      over the interface [SheetFs], so also over the whole of sheetfs); undoing the log restores the values (undo_restores).
    - Equivalence with a definition: the checker decides linearizability
      (checker_decides, kv_store_check), popcnt counts; a distributed job
      computes the reference result (distributed_job, tasks_compute_job), word
      count and inverted index their specifications; the files of a phase are those of
      the sequential one, however the executions interleave (phase_executes_all); the checks of labgob report
      what their definitions say (check_types_once, default_check).
    - Termination and liveness: checkSingle always returns (checker_decides gives
      enough fuel), schedule ends (schedule_terminates), the
      oldest node of a group becomes the leader (oldest_takes_over), a call on a
      reliable network succeeds (reliable_call), a clerk with an old configuration
      reaches the leader of the owning group (clerk_reaches_owner), requests for ZooKeeper
      locks do not deadlock (zk_no_deadlock), a worker stops after its quota and a
      master after Shutdown (worker_quota, shutdown_ends), one returns the index
      of an agreement (one_agreement).
    - Errors: what a call on the master comes to when it times out, ZooKeeper
      cannot be reached or another goroutine reconnects (master_failover).

    Theorems named in a finding (for instance first_use_race, map_task_rerun)
    show where the code does not do what it means to.

    ** Bounds and fuel

    Versions are 64-bit: the theorems on the file system ask that fewer than
    2^64 - 1 operations were made.  The loop of [checkSingle] takes fuel; it
    returns for all fuel above a bound computed from the history.  The client
    repeats a read or write that finds the version not there yet: one attempt is
    enough when the replica is up to date.  A lock request takes at most 8
    actions when it runs alone.  [schedule] is a relation on labels: every run
    with as many failures as one likes is finite once failures stop.  [check_type]
    runs with one more than the number of types as fuel, which is enough for every
    type graph.  The clerks' loops take their rounds as fuel: two rounds are enough
    when one master and one server of the owning group answer, and one more for
    every time that a server which lags behind answers ErrWrongGroup.  The sequence
    numbers of ZooKeeper are signed and have 32 bits: the theorems on elections ask
    for fewer than 2^31 proposals, beyond which their order is not that of creation.

    ** Parameters

    Kafka, gorm with sqlite, protobuf, ZooKeeper, gRPC, encoding/json, MongoDB,
    the sort order among equal keys and the order of map iteration are classes or
    arguments, with their documented behaviour as laws and an instance in each
    case.  Faults are part of them:

    - [Weather] (EndToEnd.v) decides which dials, RPCs, requests to ZooKeeper and
      disk operations fail and when a context ends; [Calm] says that none of them does and
      is a hypothesis of the theorems that need it, file_system_refines among them
      (failed_write_blocks_cell shows what a failing disk does).  [OsFaults]
      (DataNode.v) are the faults of the files of a data node.
    - MongoDB answers an operation with an error before or after it was executed;
      [Bson] is what a value and a time become in the database: times keep
      milliseconds, objects come back as lists of pairs.
    - ZooKeeper's Children may be stale by any number of earlier states; a
      creation may be executed and reported as failed.
    - [PtrEq] (TakeOver.v): whether two pointers to the empty struct
      NoMoreMessageError are equal, which Go leaves open and on which a take-over
      depends.
    - A WebSocket write may fail for any connection at any time.
    - Handlers of the simulated network run in one step between the request and
      the reply; one that blocks is a step that is not taken, and a panic of a
      handler is not represented.

    ** Not modelled

    Command lines and start-up, sockets, TLS and dialling, logging and wall-clock
    time outs; the servers of the raft labs (exercises without an implementation);
    the types of charts and images (opaque values of the sheet);
    generated protobuf code; labs 1 and 2 (C, C++) and the user interface
    (JavaScript).  The second copy of the sources under lab5 gDoc/gdocs-docuwire
    is the same code. *)
From Stdlib Require Import ZArith Lia Permutation Strings.Byte.
From stdpp Require Import gmap strings list fin_maps sorting.

Open Scope Z_scope.

(** ** Machine integers

    A Go integer is a [Z] kept in range by the wrap-around of its type. *)
Definition u32 (z : Z) : Z := z mod 2 ^ 32.
Definition u64 (z : Z) : Z := z mod 2 ^ 64.
Definition i64 (z : Z) : Z := (z + 2 ^ 63) mod 2 ^ 64 - 2 ^ 63.

Definition is_u32 (z : Z) : Prop := 0 <= z < 2 ^ 32.
Definition is_u64 (z : Z) : Prop := 0 <= z < 2 ^ 64.
Definition is_i64 (z : Z) : Prop := - 2 ^ 63 <= z < 2 ^ 63.

Lemma u64_range z : is_u64 (u64 z).
Proof. apply Z.mod_pos_bound. lia. Qed.

Lemma u64_small z : is_u64 z → u64 z = z.
Proof. intros H. unfold u64. apply Z.mod_small. exact H. Qed.

Lemma i64_range z : is_i64 (i64 z).
Proof.
  unfold i64, is_i64. pose proof (Z.mod_pos_bound (z + 2 ^ 63) (2 ^ 64)). lia.
Qed.

Lemma i64_small z : is_i64 z → i64 z = z.
Proof.
  unfold i64, is_i64. intros H. rewrite Z.mod_small by lia. lia.
Qed.

(** ** Panics and effects

    [GoM S A] is a Go function body: it reads and writes the state [S] and
    returns an [A]; [None] is a run-time panic (nil dereference, index out of
    range).  Errors that Go code returns are values of the result type. *)
Definition GoM (S A : Type) : Type := S → option (A * S).

#[export] Instance GoM_ret S : MRet (GoM S) := λ A a s, Some (a, s).
#[export] Instance GoM_bind S : MBind (GoM S) :=
  λ A B f m s, match m s with Some (a, s') => f a s' | None => None end.

Definition go_get {S} : GoM S S := λ s, Some (s, s).
Definition go_put {S} (s : S) : GoM S () := λ _, Some ((), s).
Definition go_modify {S} (f : S → S) : GoM S () := λ s, Some ((), f s).
Definition go_panic {S A} : GoM S A := λ _, None.

(** Dereference of a possibly nil pointer, or an index expression. *)
Definition go_deref {S A} (o : option A) : GoM S A :=
  match o with Some a => mret a | None => go_panic end.

Lemma GoM_bind_Some {S A B} (m : GoM S A) (f : A → GoM S B) s a s' :
  m s = Some (a, s') → (m ≫= f) s = f a s'.
Proof. unfold mbind, GoM_bind. by intros ->. Qed.

(** Run [f] over a list, left to right, as a Go [for range] loop does. *)
Fixpoint go_for {S A} (l : list A) (f : A → GoM S ()) : GoM S () :=
  match l with
  | [] => mret ()
  | x :: l' => f x ≫= λ _, go_for l' f
  end.

(** ** Error values *)
Inductive result (E A : Type) : Type :=
| Ok (a : A)
| Err (e : E).
Arguments Ok {E A} _.
Arguments Err {E A} _.

Definition is_ok {E A} (r : result E A) : bool :=
  match r with Ok _ => true | Err _ => false end.

(** ** Iteration order of Go maps

    [for k, v := range m] visits the entries in an order the language leaves
    open.  A [range_order] is a choice of that order; every theorem about a
    loop over a map holds for all of them. *)
Class RangeOrder : Type := {
  range_order : ∀ {A : Type}, list A → list A;
  range_order_perm : ∀ A (l : list A), range_order l ≡ₚ l
}.

Definition go_range `{RangeOrder} `{Countable K} {V} (m : gmap K V) : list (K * V) :=
  range_order (map_to_list m).

Lemma go_range_perm `{RangeOrder} `{Countable K} {V} (m : gmap K V) :
  go_range m ≡ₚ map_to_list m.
Proof. apply range_order_perm. Qed.

Lemma elem_of_go_range `{RangeOrder} `{Countable K} {V} (m : gmap K V) k v :
  (k, v) ∈ go_range m ↔ m !! k = Some v.
Proof. by rewrite go_range_perm, elem_of_map_to_list. Qed.

Lemma NoDup_go_range_fst `{RangeOrder} `{Countable K} {V} (m : gmap K V) :
  NoDup (go_range m).*1.
Proof. rewrite go_range_perm. apply NoDup_fst_map_to_list. Qed.

(** The order a sorted traversal would give: the instance the concrete
    examples use. *)
Definition source_order : RangeOrder := {|
  range_order := λ _ l, l;
  range_order_perm := λ _ l, Permutation_refl l
|}.

(** ** Maps related entry by entry *)
Lemma map_Forall2_lookup_l `{Countable K} {A B} (R : K → A → B → Prop) (m1 : gmap K A) (m2 : gmap K B) k x :
  map_Forall2 R m1 m2 → m1 !! k = Some x → ∃ y, m2 !! k = Some y ∧ R k x y.
Proof. intros Hm E. specialize (Hm k). rewrite E in Hm. destruct (m2 !! k); inversion Hm; eauto. Qed.

Lemma map_Forall2_lookup_r `{Countable K} {A B} (R : K → A → B → Prop) (m1 : gmap K A) (m2 : gmap K B) k y :
  map_Forall2 R m1 m2 → m2 !! k = Some y → ∃ x, m1 !! k = Some x ∧ R k x y.
Proof. intros Hm E. specialize (Hm k). rewrite E in Hm. destruct (m1 !! k); inversion Hm; eauto. Qed.

Lemma map_Forall2_lookup_None `{Countable K} {A B} (R : K → A → B → Prop) (m1 : gmap K A) (m2 : gmap K B) k :
  map_Forall2 R m1 m2 → m1 !! k = None ↔ m2 !! k = None.
Proof.
  intros Hm. specialize (Hm k). destruct (m1 !! k), (m2 !! k); inversion Hm; naive_solver.
Qed.

(** Update of one entry on both sides, the others being kept. *)
Lemma map_Forall2_update `{Countable K} {A B} (R R' : K → A → B → Prop) (m1 : gmap K A) (m2 : gmap K B) k x y :
  map_Forall2 R m1 m2 → R' k x y →
  (∀ j a b, j ≠ k → m1 !! j = Some a → R j a b → R' j a b) →
  map_Forall2 R' (<[k := x]> m1) (<[k := y]> m2).
Proof.
  intros Hm Hk Ho j. destruct (decide (k = j)) as [<-|Hj].
  - rewrite !lookup_insert_eq. by constructor.
  - rewrite !lookup_insert_ne by done. specialize (Hm j).
    destruct (m1 !! j) as [a|] eqn:Ea, (m2 !! j) as [b|]; inversion Hm; subst; constructor.
    eapply Ho; eauto.
Qed.

(** ** Bytes and big-endian words *)
#[export] Instance byte_eq_decision : EqDecision byte := Byte.byte_eq_dec.

Definition byte_of_Z (z : Z) : byte :=
  default x00 (Byte.of_N (Z.to_N (z mod 256))).
Definition Z_of_byte (b : byte) : Z := Z.of_N (Byte.to_N b).

(** [encoding/binary.BigEndian.PutUintN]: the most significant byte first. *)
Fixpoint be_encode (n : nat) (z : Z) : list byte :=
  match n with
  | O => []
  | S n' => byte_of_Z (Z.shiftr z (8 * Z.of_nat n')) :: be_encode n' z
  end.

(** [encoding/binary.BigEndian.UintN]. *)
Definition be_decode (l : list byte) : Z :=
  foldl (λ acc b, Z.lor (Z.shiftl acc 8) (Z_of_byte b)) 0 l.

Lemma Z_of_byte_range b : 0 <= Z_of_byte b < 256.
Proof. unfold Z_of_byte. pose proof (Byte.to_N_bounded b). lia. Qed.

Lemma Z_of_byte_of_Z z : Z_of_byte (byte_of_Z z) = z mod 256.
Proof.
  unfold Z_of_byte, byte_of_Z.
  pose proof (Z.mod_pos_bound z 256 ltac:(lia)) as Hr.
  destruct (Byte.of_N (Z.to_N (z mod 256))) as [b|] eqn:E.
  - apply Byte.to_of_N in E. simpl. rewrite E. lia.
  - apply Byte.of_N_None_iff in E. lia.
Qed.

Lemma byte_of_Z_of_byte b : byte_of_Z (Z_of_byte b) = b.
Proof. destruct b; reflexivity. Qed.

Lemma length_be_encode n z : length (be_encode n z) = n.
Proof. induction n; simpl; congruence. Qed.

Lemma land_shift8 a b : 0 <= b < 256 → Z.land (Z.shiftl a 8) b = 0.
Proof.
  intros Hb. apply Z.bits_inj'. intros k Hk. rewrite Z.land_spec, Z.bits_0.
  destruct (Z.ltb_spec k 8); [by rewrite Z.shiftl_spec_low by lia|].
  replace b with (b mod 2 ^ 8) by (apply Z.mod_small; lia).
  rewrite Z.mod_pow2_bits_high by lia. apply andb_false_r.
Qed.

Lemma lor_shift8 a b : 0 <= b < 256 → Z.lor (Z.shiftl a 8) b = a * 256 + b.
Proof.
  intros Hb. pose proof (land_shift8 a b Hb) as Hl.
  rewrite <- Z.lxor_lor, <- Z.add_nocarry_lxor by exact Hl.
  rewrite Z.shiftl_mul_pow2 by lia. reflexivity.
Qed.

Lemma be_decode_acc l acc :
  foldl (λ a b, Z.lor (Z.shiftl a 8) (Z_of_byte b)) acc l
  = acc * 256 ^ Z.of_nat (length l) + be_decode l.
Proof.
  unfold be_decode. revert acc. induction l as [|b l IH]; intros acc; [simpl; lia|].
  cbn [foldl length]. rewrite IH, (IH (Z.lor (Z.shiftl 0 8) _)).
  rewrite !lor_shift8 by apply Z_of_byte_range.
  rewrite Nat2Z.inj_succ, Z.pow_succ_r by lia. ring.
Qed.

Lemma be_decode_cons b l :
  be_decode (b :: l) = Z_of_byte b * 256 ^ Z.of_nat (length l) + be_decode l.
Proof. unfold be_decode at 1. simpl. by rewrite be_decode_acc. Qed.

(** Decoding what was encoded gives the value back, modulo its width. *)
Lemma be_decode_encode n z : be_decode (be_encode n z) = z mod 256 ^ Z.of_nat n.
Proof.
  induction n as [|n IH]; [by rewrite Z.mod_1_r|].
  cbn [be_encode]. rewrite be_decode_cons, IH, length_be_encode, Z_of_byte_of_Z.
  rewrite Z.shiftr_div_pow2 by lia.
  replace (2 ^ (8 * Z.of_nat n)) with (256 ^ Z.of_nat n)
    by (rewrite Z.pow_mul_r by lia; reflexivity).
  rewrite Nat2Z.inj_succ, Z.pow_succ_r by lia.
  rewrite (Z.mul_comm 256), Z.rem_mul_r by lia. ring.
Qed.

Lemma be_decode_range l : 0 <= be_decode l < 256 ^ Z.of_nat (length l).
Proof.
  induction l as [|b l IH]; [done|].
  rewrite be_decode_cons. cbn [length].
  rewrite Nat2Z.inj_succ, Z.pow_succ_r by lia.
  pose proof (Z_of_byte_range b). nia.
Qed.

Lemma be_decode_encode64 z : is_u64 z → be_decode (be_encode 8 z) = z.
Proof. intros H. rewrite be_decode_encode. apply Z.mod_small. exact H. Qed.

Lemma be_decode_encode32 z : is_u32 z → be_decode (be_encode 4 z) = z.
Proof. intros H. rewrite be_decode_encode. apply Z.mod_small. exact H. Qed.

#[global] Arguments be_encode : simpl never.
#[global] Arguments replicate {_} _ _ : simpl never.
#[global] Arguments Z.to_nat : simpl never.
#[global] Arguments Z.mul : simpl never.
#[global] Arguments Z.pow : simpl never.

(** ** Byte slices *)

(** Overwrite [dst] with [src] from position [off]. *)
Definition splice {A} (off : nat) (src dst : list A) : list A :=
  take off dst ++ src ++ drop (off + length src) dst.

(** [copy(dst[lo:hi], src)]: as many elements as both the window and the
    source have.  The caller checks [lo <= hi <= len dst]. *)
Definition copy_at {A} (lo hi : nat) (dst src : list A) : list A :=
  splice lo (take (hi - lo) src) dst.

Section splice.
Context {A : Type}.
Implicit Types (src dst : list A).

Lemma length_splice off src dst :
  (off + length src ≤ length dst)%nat → length (splice off src dst) = length dst.
Proof.
  intros H. unfold splice. rewrite !length_app, length_take, length_drop. lia.
Qed.

Lemma lookup_splice off src dst i :
  (off + length src ≤ length dst)%nat →
  splice off src dst !! i =
    if decide (off ≤ i < off + length src)%nat then src !! (i - off)%nat else dst !! i.
Proof.
  intros H. unfold splice. case_decide as Hi.
  - rewrite lookup_app_r by (rewrite length_take; lia).
    rewrite length_take, lookup_app_l by lia. f_equal. lia.
  - destruct (decide (i < off)%nat).
    + rewrite lookup_app_l by (rewrite length_take; lia). by rewrite lookup_take_lt by lia.
    + rewrite lookup_app_r by (rewrite length_take; lia).
      rewrite length_take, lookup_app_r by lia.
      rewrite lookup_drop. f_equal. lia.
Qed.

(** Reading back exactly the window that was written. *)
Lemma take_drop_splice off src dst :
  (off + length src ≤ length dst)%nat →
  take (length src) (drop off (splice off src dst)) = src.
Proof.
  intros H. unfold splice.
  rewrite drop_app_length' by (rewrite length_take; lia).
  by rewrite take_app_length.
Qed.

(** A window disjoint from the write is unchanged. *)
Lemma take_drop_splice_ne off src dst off' n :
  (off + length src ≤ length dst)%nat →
  (off' + n ≤ off ∨ off + length src ≤ off')%nat →
  take n (drop off' (splice off src dst)) = take n (drop off' dst).
Proof.
  intros H Hd. apply list_eq. intros i.
  destruct (decide (i < n)%nat) as [Hi|Hi].
  - rewrite !lookup_take_lt, !lookup_drop, lookup_splice by lia.
    rewrite decide_False by lia. done.
  - by rewrite !lookup_take_ge by lia.
Qed.

Lemma splice_comm off1 src1 off2 src2 dst :
  (off1 + length src1 ≤ length dst)%nat → (off2 + length src2 ≤ length dst)%nat →
  (off1 + length src1 ≤ off2 ∨ off2 + length src2 ≤ off1)%nat →
  splice off1 src1 (splice off2 src2 dst) = splice off2 src2 (splice off1 src1 dst).
Proof.
  intros H1 H2 Hd. apply list_eq. intros i.
  rewrite !lookup_splice by (rewrite ?length_splice; lia).
  repeat case_decide; (done || lia).
Qed.

Lemma splice_splice_same off src1 src2 dst :
  length src1 = length src2 → (off + length src1 ≤ length dst)%nat →
  splice off src1 (splice off src2 dst) = splice off src1 dst.
Proof.
  intros Hl H. apply list_eq. intros i.
  rewrite !lookup_splice by (rewrite ?length_splice; lia).
  repeat case_decide; (done || lia).
Qed.

Lemma splice_self off n dst :
  (off + n ≤ length dst)%nat → splice off (take n (drop off dst)) dst = dst.
Proof.
  intros H. apply list_eq. intros i.
  rewrite lookup_splice by (rewrite length_take, length_drop; lia).
  case_decide as Hi; [|done]. rewrite length_take, length_drop in Hi.
  rewrite lookup_take_lt, lookup_drop by lia. f_equal. lia.
Qed.

(** A write into an area filled with one byte, from a source that is itself
    filled up with that byte, only shows the significant part. *)
Lemma splice_replicate off n m src (b : A) :
  (off + n ≤ m)%nat → (length src ≤ n)%nat →
  splice off (src ++ replicate (n - length src) b) (replicate m b)
  = splice off src (replicate m b).
Proof.
  intros H Hl. apply list_eq. intros i.
  rewrite !lookup_splice by (rewrite ?length_app, ?length_replicate; lia).
  rewrite length_app, length_replicate.
  destruct (decide (off ≤ i < off + length src)%nat) as [Hi|Hi].
  - rewrite decide_True by lia. rewrite lookup_app_l by lia. done.
  - case_decide as Hj; [|done].
    rewrite lookup_app_r by lia. rewrite !lookup_replicate_2 by lia. done.
Qed.
End splice.

Lemma length_copy_at {A} lo hi (dst src : list A) :
  (lo ≤ hi)%nat → (hi ≤ length dst)%nat →
  length (copy_at lo hi dst src) = length dst.
Proof.
  intros H1 H2. apply length_splice. rewrite length_take. lia.
Qed.

(** The sub-slice [l[lo:hi]]; [None] when the bounds are out of range. *)
Definition slice_of {A} (lo hi : nat) (l : list A) : option (list A) :=
  if decide (lo ≤ hi ∧ hi ≤ length l)%nat then Some (take (hi - lo) (drop lo l)) else None.

(** ** Lists *)
Lemma list_filter_fmap {A B} (f : A → B) (P : B → Prop) `{!∀ x, Decision (P x)} (l : list A) :
  filter P (f <$> l) = f <$> filter (λ x, P (f x)) l.
Proof.
  induction l as [|x l IH]; [done|]. rewrite fmap_cons, !filter_cons, IH. by case_decide.
Qed.

Lemma list_filter_ext_in {A} (P Q : A → Prop) `{!∀ x, Decision (P x)} `{!∀ x, Decision (Q x)} (l : list A) :
  (∀ x, x ∈ l → P x ↔ Q x) → filter P l = filter Q l.
Proof.
  induction l as [|x l IH]; intros Hiff; [done|]. rewrite !filter_cons, IH.
  - specialize (Hiff x ltac:(left)). repeat case_decide; tauto.
  - intros y Hy. apply Hiff. by right.
Qed.

Lemma list_filter_all {A} (P : A → Prop) `{!∀ x, Decision (P x)} (l : list A) :
  (∀ x, x ∈ l → P x) → filter P l = l.
Proof.
  induction l as [|x l IH]; intros Hall; [done|]. rewrite filter_cons_True by (apply Hall; left).
  f_equal. apply IH. intros y Hy. apply Hall. by right.
Qed.

Lemma list_filter_none {A} (P : A → Prop) `{!∀ x, Decision (P x)} (l : list A) :
  (∀ x, x ∈ l → ¬ P x) → filter P l = [].
Proof.
  induction l as [|x l IH]; intros Hall; [done|]. rewrite filter_cons_False by (apply Hall; left).
  apply IH. intros y Hy. apply Hall. by right.
Qed.

(** A sum over a list of which one element is replaced. *)
Lemma sum_list_with_insert {A} (f : A → nat) (l : list A) i x y : l !! i = Some x →
  (sum_list_with f (<[i := y]> l) + f x = sum_list_with f l + f y)%nat.
Proof.
  intros E. rewrite (insert_take_drop l i y) by (by eapply lookup_lt_Some).
  rewrite <- (take_drop_middle l i x E) at 3. rewrite !sum_list_with_app. cbn [sum_list_with]. lia.
Qed.

Lemma sum_list_with_ge {A} (f : A → nat) (l : list A) i x : l !! i = Some x → (f x ≤ sum_list_with f l)%nat.
Proof.
  intros E. rewrite <- (take_drop_middle l i x E). rewrite sum_list_with_app. cbn [sum_list_with]. lia.
Qed.

(** Two elements that count are the same when the sum is at most one. *)
Lemma sum_list_with_unique {A} (f : A → nat) (l : list A) i j x y :
  l !! i = Some x → l !! j = Some y → (0 < f x)%nat → (0 < f y)%nat → (sum_list_with f l ≤ 1)%nat → i = j.
Proof.
  revert i j. induction l as [|a l IH]; intros i j Ei Ej Hx Hy Hs; [done|]. cbn [sum_list_with] in Hs.
  destruct i as [|i], j as [|j]; simpl in Ei, Ej; simplify_eq; [done| | |].
  - pose proof (sum_list_with_ge f l j y Ej). lia.
  - pose proof (sum_list_with_ge f l i x Ei). lia.
  - f_equal. apply (IH i j); (done || lia).
Qed.

(** ** Tactics and hints *)
Create HintDb go discriminated.
Create Rewrite HintDb go_len.
#[export] Hint Resolve u64_range i64_range : go.
#[export] Hint Rewrite @length_app @length_take @length_drop @length_replicate
  @length_be_encode : go_len.

(** Break every [match] or [if] in sight and close the contradictory cases. *)
Ltac go_cases :=
  repeat (case_match || case_decide); simplify_eq/=; try done.

(** Linear arithmetic over the length of byte slices. *)
Ltac len_solver := autorewrite with go_len in *; simpl in *; try lia.

(** Use a conjunction or existential hypothesis. *)
Ltac destr :=
  repeat match goal with
  | H : _ ∧ _ |- _ => destruct H
  | H : ∃ _, _ |- _ => destruct H
  end.

(** Membership in lists written with [++] and [::], looking at the goal only. *)
Ltac elem_tac :=
  repeat (rewrite elem_of_app || rewrite elem_of_cons); by intuition.
