(* ===== verification/DataNode.v ===== *)
(** DataNode: the chunk files of a data node, its three RPC handlers, the
    journal entries it writes and the replay of those entries on a secondary.

    Source: sheetfs/datanode/{server/server.go, utils/utils.go,
    buffmgr/bufferManager.go, journal/journal.go} and sheetfs/config/const.go.

    A data directory is a map from chunk id to the content of the file
    [chunk_<id>]: 8192 bytes of data followed by the 8-byte big-endian version.
    A handler receives the outcomes of the operations it cannot decide itself:
    how often the Kafka commit fails ([commit_errs]) and which file operations
    of the operating system fail ([OsFaults]). *)
From Stdlib Require Import ZArith Lia Permutation Strings.Byte.
From stdpp Require Import gmap strings list fin_maps.
From S2P Require Import Prelude.
Open Scope Z_scope.

(** ** Constants *)
Definition BLOCK_SIZE : Z := Z.shiftl 2 10.
Definition FILE_SIZE : Z := Z.shiftl BLOCK_SIZE 2.
Definition VERSION_START_LOCATION : Z := Z.shiftl BLOCK_SIZE 2.
Definition ACK_MOST_TIMES : nat := 5.
Definition WRITE_LOG_FLAG : Z := 1.
Definition DELETE_LOG_FLAG : Z := 2.

(** ** CRC-32 with the polynomial of [config.Crc32q] (hash/crc32, reflected) *)
Definition crc_poly : Z := 0xD5828281.

Definition crc_bit (c : Z) : Z :=
  if Z.testbit c 0 then Z.lxor (Z.shiftr c 1) crc_poly else Z.shiftr c 1.

Definition crc_table_entry (i : Z) : Z := Nat.iter 8 crc_bit i.

Definition crc_step (crc : Z) (b : byte) : Z :=
  Z.lxor (crc_table_entry (Z.land (Z.lxor crc (Z_of_byte b)) 255)) (Z.shiftr crc 8).

Definition Crc32q (data : list byte) : Z :=
  u32 (Z.lxor (foldl crc_step (2 ^ 32 - 1) data) (2 ^ 32 - 1)).

Lemma Crc32q_range data : is_u32 (Crc32q data).
Proof. unfold Crc32q, is_u32, u32. apply Z.mod_pos_bound. lia. Qed.

(** ** utils.go *)
Definition MIN (a b : Z) : Z := if a <? b then a else b.

Definition TargetSizeWrapper (targetSize : Z) : Z :=
  if targetSize =? 0 then BLOCK_SIZE else targetSize.

Definition Uint64ToBytes (i : Z) : list byte := be_encode 8 i.
Definition Uint32ToBytes (i : Z) : list byte := be_encode 4 i.

(** [binary.BigEndian.Uint64(buf)] indexes [buf[7]]: a shorter slice panics. *)
Definition BytesToUint64 (buf : list byte) : option Z :=
  if decide (8 ≤ length buf)%nat then Some (be_decode (take 8 buf)) else None.
Definition BytesToUint32 (buf : list byte) : option Z :=
  if decide (4 ≤ length buf)%nat then Some (be_decode (take 4 buf)) else None.

(** [make([]byte, n)] panics when [n] is larger than the address space of the
    runtime (2^48 bytes). *)
Definition maxAlloc : Z := 2 ^ 48.

(** [buffmgr.GetPaddedBytes]: [size] copies of the first byte of [s]; an empty
    [s] panics, and so does a size [make] refuses. *)
Definition GetPaddedBytes (s : list byte) (size : Z) : option (list byte) :=
  match s with
  | [] => None
  | padByte :: _ =>
      if maxAlloc <? size then None else Some (replicate (Z.to_nat size) padByte)
  end.

Definition GetPaddedData (data : list byte) (size targetSize : Z) (padding : list byte)
  : option (list byte) :=
  let writtenSize := MIN size (TargetSizeWrapper targetSize) in
  paddedData ← GetPaddedBytes padding (TargetSizeWrapper targetSize);
  if decide (Z.to_nat writtenSize ≤ length paddedData)%nat
  then Some (copy_at 0 (Z.to_nat writtenSize) paddedData data)
  else None.

(** [paddedData[offset:offset+writtenSize]] panics outside the 8192 bytes (the
    sum wraps at 64 bits, and then the bounds are inverted). *)
Definition GetPaddedFile (data : list byte) (size targetSize : Z) (padding : list byte)
  (offset : Z) : option (list byte) :=
  paddedData ← GetPaddedBytes padding FILE_SIZE;
  let targetSize := if targetSize =? 0 then BLOCK_SIZE else targetSize in
  let writtenSize := MIN size targetSize in
  let hi := u64 (offset + writtenSize) in
  if (offset <=? hi) && (hi <=? FILE_SIZE)
  then Some (copy_at (Z.to_nat offset) (Z.to_nat hi) paddedData data)
  else None.

(** ** Files of the operating system (package os) *)

(** [file.WriteAt(data, off)]: a gap past the end is filled with zero bytes.
    A negative offset is an error. *)
Definition WriteAt (content data : list byte) (off : Z) : option (list byte) :=
  if off <? 0 then None else
  if decide (data = []) then Some content else
  let off := Z.to_nat off in
  Some (splice off data (content ++ replicate (off - length content) x00)).

(** [file.ReadAt(buf, off)] with [len(buf) = n]: an error unless all [n] bytes
    are there (EOF) or the offset is negative. *)
Definition ReadAt (content : list byte) (n off : Z) : option (list byte) :=
  if (off <? 0) then None else
  let l := take (Z.to_nat n) (drop (Z.to_nat off) content) in
  if (Z.of_nat (length l) =? n) then Some l else None.

(** Failures of the operating system during one handler call. *)
Record OsFaults := {
  open_err : bool;          (** [os.Open], [os.OpenFile] fail although the file exists *)
  create_err : bool;        (** [os.Create] fails *)
  remove_err : bool;        (** [os.Remove] fails *)
  read_err : bool;          (** [file.ReadAt] of the data fails *)
  write_err : option nat;   (** [file.WriteAt] of the data fails after that many bytes *)
  version_read_err : bool;  (** [file.ReadAt] of the version fails *)
  version_write_err : bool  (** [file.WriteAt] of the version fails *)
}.
Definition no_faults : OsFaults :=
  {| open_err := false; create_err := false; remove_err := false; read_err := false;
     write_err := None; version_read_err := false; version_write_err := false |}.

(** [utils.GetVersion] ignores the error of [ReadAt]: what was read is copied
    over an all-zero buffer. *)
Definition GetVersion (os : OsFaults) (content : list byte) : Z :=
  if version_read_err os then 0 else
  be_decode (copy_at 0 8 (replicate 8 x00)
               (take 8 (drop (Z.to_nat VERSION_START_LOCATION) content))).

(** [utils.SyncAndUpdateVersion] ignores the error of [WriteAt]. *)
Definition SyncAndUpdateVersion (os : OsFaults) (content : list byte) (version : Z)
  : list byte :=
  if version_write_err os then content else
  default content (WriteAt content (Uint64ToBytes version) VERSION_START_LOCATION).

(** ** journal.go *)
Record WriteChunkRequest := {
  wr_Id : Z; wr_Offset : Z; wr_Size : Z; wr_Version : Z;
  wr_TargetSize : Z; wr_Padding : list byte; wr_Data : list byte
}.
Record ReadChunkRequest := { rr_Id : Z; rr_Offset : Z; rr_Size : Z; rr_Version : Z }.
Record DeleteChunkRequest := { dr_Id : Z }.

Definition ConstructWriteEntry (request : WriteChunkRequest) (paddedData : list byte)
  : list byte :=
  Uint64ToBytes WRITE_LOG_FLAG ++ Uint64ToBytes (wr_Version request)
  ++ Uint64ToBytes (wr_Id request) ++ Uint64ToBytes (wr_Offset request)
  ++ Uint64ToBytes (Z.of_nat (length paddedData))
  ++ Uint32ToBytes (Crc32q paddedData) ++ paddedData.

Definition ConstructDeleteEntry (request : DeleteChunkRequest) : list byte :=
  Uint64ToBytes DELETE_LOG_FLAG ++ Uint64ToBytes (dr_Id request).

(** ** server.go: the primary *)
Inductive Status :=
| Status_OK | Status_NotFound | Status_WrongVersion | Status_Unavailable
| Status_Exist | Status_Invalid.

#[export] Instance Status_eq_decision : EqDecision Status.
Proof. solve_decision. Defined.

(** The data directory: chunk id to file content, and the journal written. *)
Record Server := { files : gmap Z (list byte); log : list (list byte) }.

Definition set_file (s : Server) (id : Z) (c : list byte) : Server :=
  {| files := <[id := c]> (files s); log := log s |}.
Definition del_file (s : Server) (id : Z) : Server :=
  {| files := delete id (files s); log := log s |}.

(** The retry loop around [writer.CommitEntry]: at most [ACK_MOST_TIMES]
    attempts; [commit_errs] attempts fail.  [Some s'] when one succeeded. *)
Fixpoint CommitEntryRetry (attempts commit_errs : nat) (s : Server) (entry : list byte)
  : option Server :=
  match attempts with
  | O => None
  | S attempts' =>
      match commit_errs with
      | O => Some {| files := files s; log := log s ++ [entry] |}
      | S errs' => CommitEntryRetry attempts' errs' s entry
      end
  end.

(** [ReadChunk]: [None] is the panic of [make] when the size is out of range. *)
Definition ReadChunk (os : OsFaults) (s : Server) (request : ReadChunkRequest)
  : option (Status * list byte) :=
  match (if open_err os then None else files s !! rr_Id request) with
  | None => Some (Status_NotFound, [])
  | Some file =>
      let curVersion := GetVersion os file in
      if rr_Version request <=? curVersion then
        if maxAlloc <? rr_Size request then None else
        match (if read_err os then None
               else ReadAt file (rr_Size request) (i64 (rr_Offset request))) with
        | None => Some (Status_NotFound, [])
        | Some data => Some (Status_OK, data)
        end
      else Some (Status_WrongVersion, [])
  end.

(** [file.WriteAt] of the data, when it can fail after some bytes: the error
    flag and the content the file is left with. *)
Definition write_data (os : OsFaults) (content data : list byte) (off : Z)
  : bool * list byte :=
  match write_err os with
  | Some n => (true, default content (WriteAt content (take n data) off))
  | None =>
      match WriteAt content data off with
      | Some content' => (false, content')
      | None => (true, content)
      end
  end.

(** [WriteChunk]: the journal entry is committed before the version is
    checked.  [None] is a panic of the padding helpers. *)
Definition WriteChunk (os : OsFaults) (commit_errs : nat) (s : Server)
  (request : WriteChunkRequest) : option (Status * Server) :=
  PaddedData ← GetPaddedData (wr_Data request) (wr_Size request)
                 (wr_TargetSize request) (wr_Padding request);
  let entry := ConstructWriteEntry request PaddedData in
  match CommitEntryRetry ACK_MOST_TIMES commit_errs s entry with
  | None => Some (Status_Unavailable, s)
  | Some s =>
      match files s !! wr_Id request with
      | None =>
          if negb (wr_Version request =? 1) then Some (Status_WrongVersion, s)
          else if create_err os then Some (Status_Unavailable, s)
          else
            padded ← GetPaddedFile (wr_Data request) (wr_Size request)
                       (wr_TargetSize request) (wr_Padding request) (wr_Offset request);
            let '(err, file) := write_data os [] padded 0 in
            if (err : bool) then Some (Status_Unavailable, set_file s (wr_Id request) file)
            else
              Some (Status_OK, set_file s (wr_Id request)
                                 (SyncAndUpdateVersion os file (wr_Version request)))
      | Some file =>
          if open_err os then Some (Status_Unavailable, s) else
          if u64 (GetVersion os file + 1) =? wr_Version request then
            let '(err, file') := write_data os file PaddedData (i64 (wr_Offset request)) in
            if (err : bool) then Some (Status_NotFound, set_file s (wr_Id request) file')
            else
              Some (Status_OK, set_file s (wr_Id request)
                                 (SyncAndUpdateVersion os file' (wr_Version request)))
          else Some (Status_WrongVersion, s)
      end
  end.

(** [DeleteChunk] answers [OK] also when [os.Remove] fails. *)
Definition DeleteChunk (os : OsFaults) (commit_errs : nat) (s : Server)
  (request : DeleteChunkRequest) : Status * Server :=
  match CommitEntryRetry ACK_MOST_TIMES commit_errs s (ConstructDeleteEntry request) with
  | None => (Status_Unavailable, s)
  | Some s => (Status_OK, if remove_err os then s else del_file s (dr_Id request))
  end.

(** ** server.go: replay on a secondary *)

(** [None] is a panic (a message shorter than its header, a size [make]
    refuses) or one of the retry loops running forever, [Some (Err _)] the
    error [HandleWriteMsg] returns when the old data cannot be read.  Any
    failure to open the file makes the handler create (and truncate) it.  The
    loops around [os.Create] and [file.WriteAt] repeat the call until it
    succeeds, so that a failed attempt leaves no trace. *)
Definition HandleWriteMsg (os : OsFaults) (s : Server) (msg : list byte)
  : option (result unit Server) :=
  version ← BytesToUint64 (take 8 msg);
  chunkid ← BytesToUint64 (take 8 (drop 8 msg));
  offset ← BytesToUint64 (take 8 (drop 16 msg));
  size ← BytesToUint64 (take 8 (drop 24 msg));
  match (if open_err os then None else files s !! chunkid) with
  | None =>
      data ← slice_of 36 (length msg) msg;
      padded ← GetPaddedFile data size size [byte_of_Z 32] offset;
      Some (Ok (set_file s chunkid (SyncAndUpdateVersion os padded version)))
  | Some file =>
      if maxAlloc <? size then None else
      match (if read_err os then None else ReadAt file size (i64 offset)) with
      | None => Some (Err tt)
      | Some oldData =>
          cks ← BytesToUint32 (take 4 (drop 32 msg));
          if negb (cks =? Crc32q oldData) || negb (version =? GetVersion os file) then
            file' ← WriteAt file (drop 36 msg) (i64 offset);
            Some (Ok (set_file s chunkid (SyncAndUpdateVersion os file' version)))
          else Some (Ok s)
      end
  end.

Definition HandleDeleteMsg (os : OsFaults) (s : Server) (msg : list byte)
  : option (result unit Server) :=
  chunkid ← BytesToUint64 (take 8 msg);
  Some (Ok (if remove_err os then s else del_file s chunkid)).

Definition HandleMsg (os : OsFaults) (s : Server) (msg : list byte) : option (result unit Server) :=
  logType ← BytesToUint64 (take 8 msg);
  if logType =? WRITE_LOG_FLAG then HandleWriteMsg os s (drop 8 msg)
  else if logType =? DELETE_LOG_FLAG then HandleDeleteMsg os s (drop 8 msg)
  else Some (Ok s).

(** ** Chunk files in normal form

    A chunk file is 8192 bytes of data followed by its version. *)
Definition mkfile (bv : list byte * Z) : list byte := bv.1 ++ be_encode 8 bv.2.
Definition good_chunk (bv : list byte * Z) : Prop :=
  length bv.1 = Z.to_nat FILE_SIZE ∧ is_u64 bv.2.

#[global] Arguments mkfile : simpl never.

Lemma FILE_SIZE_nat : Z.to_nat FILE_SIZE = Z.to_nat 8192.
Proof. reflexivity. Qed.
Lemma FILE_SIZE_val : FILE_SIZE = 8192.
Proof. reflexivity. Qed.
Lemma VERSION_START_val : VERSION_START_LOCATION = 8192.
Proof. reflexivity. Qed.
Lemma BLOCK_SIZE_val : BLOCK_SIZE = 2048.
Proof. reflexivity. Qed.

Lemma GetVersion_mkfile bv : good_chunk bv → GetVersion no_faults (mkfile bv) = bv.2.
Proof.
  intros [Hl Hv]. unfold GetVersion, mkfile. rewrite VERSION_START_val.
  rewrite drop_app_length' by (rewrite Hl; reflexivity).
  assert (take 8 (be_encode 8 bv.2) = be_encode 8 bv.2) as Ht
    by (apply take_ge; by rewrite length_be_encode).
  unfold copy_at, splice. change (8 - 0)%nat with 8%nat. rewrite !Ht, length_be_encode. simpl take. simpl drop.
  rewrite app_nil_r. by apply be_decode_encode64.
Qed.

Lemma WriteAt_inside content data off :
  0 <= off → (Z.to_nat off + length data ≤ length content)%nat →
  WriteAt content data off = Some (splice (Z.to_nat off) data content).
Proof.
  intros Ho Hl. unfold WriteAt. rewrite (proj2 (Z.ltb_ge off 0)) by lia.
  case_decide as Hd.
  - subst. simpl in Hl. unfold splice. simpl. rewrite Nat.add_0_r.
    by rewrite take_drop.
  - do 2 f_equal. rewrite (proj2 (Nat.sub_0_le (Z.to_nat off) (length content))) by lia.
    by rewrite app_nil_r.
Qed.

Lemma WriteAt_new data : WriteAt [] data 0 = Some data.
Proof.
  unfold WriteAt. change (0 <? 0) with false. cbn iota. case_decide as Hd; [by subst|].
  unfold splice. simpl. rewrite drop_ge by (simpl; lia). by rewrite app_nil_r.
Qed.

Lemma SyncAndUpdateVersion_file body tail v :
  length body = Z.to_nat FILE_SIZE → (length tail ≤ 8)%nat →
  SyncAndUpdateVersion no_faults (body ++ tail) v = mkfile (body, v).
Proof.
  intros Hl Ht. unfold SyncAndUpdateVersion, WriteAt, mkfile.
  rewrite VERSION_START_val. unfold Uint64ToBytes. case_decide as Hd.
  { by apply (f_equal length) in Hd; rewrite length_be_encode in Hd. }
  simpl. rewrite FILE_SIZE_nat in Hl.
  assert (Z.to_nat 8192 - length (body ++ tail) = 0)%nat as ->
    by (rewrite length_app; lia).
  rewrite app_nil_r. unfold splice.
  rewrite take_app_length' by lia. f_equal.
  rewrite drop_ge; [by rewrite app_nil_r|].
  rewrite length_app, length_be_encode. lia.
Qed.

(** A write inside the data area, followed by the version update. *)
Lemma write_mkfile body v0 data off v :
  length body = Z.to_nat FILE_SIZE → 0 <= off →
  (Z.to_nat off + length data ≤ Z.to_nat FILE_SIZE)%nat →
  ∃ c, WriteAt (mkfile (body, v0)) data off = Some c ∧
       SyncAndUpdateVersion no_faults c v = mkfile (splice (Z.to_nat off) data body, v).
Proof.
  intros Hl Ho Hd. eexists. split.
  { apply WriteAt_inside; [done|]. unfold mkfile. rewrite length_app, length_be_encode.
    simpl. lia. }
  assert (splice (Z.to_nat off) data (mkfile (body, v0))
          = splice (Z.to_nat off) data body ++ be_encode 8 v0) as ->.
  { unfold mkfile, splice. simpl. rewrite take_app_le by lia.
    rewrite drop_app_le by lia. by rewrite !app_assoc. }
  apply SyncAndUpdateVersion_file; [rewrite length_splice; lia|].
  rewrite length_be_encode. lia.
Qed.

Lemma ReadAt_mkfile body v n off :
  length body = Z.to_nat FILE_SIZE → 0 <= n → 0 <= off → off + n <= FILE_SIZE →
  ReadAt (mkfile (body, v)) n off = Some (take (Z.to_nat n) (drop (Z.to_nat off) body)).
Proof.
  intros Hl Hn Ho H. unfold ReadAt, mkfile. rewrite (proj2 (Z.ltb_ge off 0)) by lia.
  rewrite FILE_SIZE_val in H. rewrite FILE_SIZE_nat in Hl. cbn [fst].
  rewrite drop_app_le by lia. rewrite take_app_le by (rewrite length_drop; lia).
  rewrite length_take, length_drop.
  assert (Z.of_nat (Z.to_nat n `min` (length body - Z.to_nat off)) = n) as -> by lia.
  by rewrite Z.eqb_refl.
Qed.

(** ** Well-formed requests *)

(** What [fsclient.File.WriteAt] sends: a non-empty padding string and a
    target area inside the chunk. *)
Record area_ok (r : WriteChunkRequest) : Prop := {
  wok_version : is_u64 (wr_Version r);
  wok_offset : 0 <= wr_Offset r;
  wok_size : 0 <= wr_Size r;
  wok_target : 0 <= wr_TargetSize r;
  wok_area : wr_Offset r + TargetSizeWrapper (wr_TargetSize r) <= FILE_SIZE;
  wok_padding : wr_Padding r ≠ []
}.

(** The identifier also fits the journal entry. *)
Record write_ok (r : WriteChunkRequest) : Prop := {
  wok_id : is_u64 (wr_Id r);
  wok_request : area_ok r
}.
Coercion wok_request : write_ok >-> area_ok.

Definition pad_byte (r : WriteChunkRequest) : byte := default x00 (head (wr_Padding r)).

(** The bytes a well-formed request stores: its data, truncated to the target
    size and filled up with the padding byte. *)
Definition stored_bytes (r : WriteChunkRequest) : list byte :=
  let tw := Z.to_nat (TargetSizeWrapper (wr_TargetSize r)) in
  let d := take (Nat.min (Z.to_nat (wr_Size r)) tw) (wr_Data r) in
  d ++ replicate (tw - length d) (pad_byte r).

Lemma TargetSizeWrapper_pos t : 0 <= t → 0 < TargetSizeWrapper t.
Proof.
  unfold TargetSizeWrapper. intros H. destruct (Z.eqb_spec t 0); [|lia].
  rewrite BLOCK_SIZE_val. lia.
Qed.

Lemma MIN_min a b : MIN a b = Z.min a b.
Proof. unfold MIN. destruct (Z.ltb_spec a b); lia. Qed.

Lemma length_stored_bytes r :
  area_ok r → length (stored_bytes r) = Z.to_nat (TargetSizeWrapper (wr_TargetSize r)).
Proof.
  intros H. unfold stored_bytes. rewrite length_app, length_replicate, length_take. lia.
Qed.

Lemma size_allowed n : n <= FILE_SIZE → (maxAlloc <? n) = false.
Proof. rewrite FILE_SIZE_val. intros H. apply Z.ltb_ge. unfold maxAlloc. lia. Qed.

Lemma GetPaddedBytes_ok r n :
  area_ok r → n <= FILE_SIZE →
  GetPaddedBytes (wr_Padding r) n = Some (replicate (Z.to_nat n) (pad_byte r)).
Proof.
  intros H Hn. pose proof (wok_padding r H). unfold GetPaddedBytes, pad_byte.
  destruct (wr_Padding r); [done|]. rewrite size_allowed; [done|]. done.
Qed.

Lemma splice_0_replicate {A} (src : list A) n b :
  (length src ≤ n)%nat →
  splice 0 src (replicate n b) = src ++ replicate (n - length src) b.
Proof.
  intros H. unfold splice. simpl. f_equal. by rewrite drop_replicate.
Qed.

Lemma GetPaddedData_ok r :
  area_ok r →
  GetPaddedData (wr_Data r) (wr_Size r) (wr_TargetSize r) (wr_Padding r)
  = Some (stored_bytes r).
Proof.
  intros H. pose proof (wok_size r H) as Hs.
  pose proof (TargetSizeWrapper_pos _ (wok_target r H)) as Ht.
  pose proof (wok_offset r H). pose proof (wok_area r H).
  unfold GetPaddedData. rewrite GetPaddedBytes_ok by (done || lia). simpl.
  rewrite MIN_min, length_replicate, decide_True by lia.
  unfold copy_at. rewrite Nat.sub_0_r, splice_0_replicate by (rewrite length_take; lia).
  unfold stored_bytes. replace (Z.to_nat (wr_Size r `min` TargetSizeWrapper (wr_TargetSize r)))
    with (Nat.min (Z.to_nat (wr_Size r)) (Z.to_nat (TargetSizeWrapper (wr_TargetSize r)))) by lia.
  done.
Qed.

Lemma GetPaddedFile_ok r :
  area_ok r →
  GetPaddedFile (wr_Data r) (wr_Size r) (wr_TargetSize r) (wr_Padding r) (wr_Offset r)
  = Some (splice (Z.to_nat (wr_Offset r)) (stored_bytes r)
            (replicate (Z.to_nat FILE_SIZE) (pad_byte r))).
Proof.
  intros H. pose proof H as [Hver Ho Hs Ht Ha Hp].
  pose proof (TargetSizeWrapper_pos _ Ht) as Hw. rewrite FILE_SIZE_val in Ha.
  unfold GetPaddedFile. rewrite GetPaddedBytes_ok by (done || lia). simpl.
  fold (TargetSizeWrapper (wr_TargetSize r)). rewrite MIN_min, u64_small.
  2:{ split; lia. }
  rewrite FILE_SIZE_val, (proj2 (Z.leb_le _ _)), (proj2 (Z.leb_le _ _)) by lia.
  simpl. f_equal. unfold copy_at, stored_bytes.
  set (tw := Z.to_nat (TargetSizeWrapper (wr_TargetSize r))).
  replace (Z.to_nat (wr_Offset r + _) - Z.to_nat (wr_Offset r))%nat
    with (Nat.min (Z.to_nat (wr_Size r)) tw) by lia.
  symmetry. apply splice_replicate; [lia|]. rewrite length_take. lia.
Qed.

(** ** Abstract specification: a versioned chunk store *)
Module ChunkSpec.

(** The store maps a chunk id to its 8192 bytes and its version. *)
Abbreviation store := (gmap Z (list byte * Z)).

Definition good (st : store) : Prop := map_Forall (λ _ bv, good_chunk bv) st.

(** A write is accepted iff its version is the successor of the stored one (1
    for a chunk that does not exist yet); it then replaces its target area. *)
Definition write (st : store) (r : WriteChunkRequest) : option store :=
  match st !! wr_Id r with
  | None =>
      if wr_Version r =? 1 then
        Some (<[wr_Id r := (splice (Z.to_nat (wr_Offset r)) (stored_bytes r)
                 (replicate (Z.to_nat FILE_SIZE) (pad_byte r)), 1)]> st)
      else None
  | Some (body, v) =>
      if u64 (v + 1) =? wr_Version r then
        Some (<[wr_Id r := (splice (Z.to_nat (wr_Offset r)) (stored_bytes r) body,
                            wr_Version r)]> st)
      else None
  end.

Definition read (st : store) (r : ReadChunkRequest) : Status * list byte :=
  match st !! rr_Id r with
  | None => (Status_NotFound, [])
  | Some (body, v) =>
      if rr_Version r <=? v
      then (Status_OK, take (Z.to_nat (rr_Size r)) (drop (Z.to_nat (rr_Offset r)) body))
      else (Status_WrongVersion, [])
  end.

(** The directory that holds a store. *)
Definition dir (st : store) : gmap Z (list byte) := mkfile <$> st.

End ChunkSpec.

Lemma stored_area r :
  area_ok r →
  (Z.to_nat (wr_Offset r) + length (stored_bytes r) ≤ Z.to_nat FILE_SIZE)%nat.
Proof.
  intros H. rewrite length_stored_bytes by done.
  pose proof (wok_area r H) as Ha. pose proof (wok_offset r H).
  pose proof (TargetSizeWrapper_pos _ (wok_target r H)).
  rewrite FILE_SIZE_val in Ha. rewrite FILE_SIZE_nat. lia.
Qed.

Lemma write_good st r st' :
  ChunkSpec.good st → area_ok r → ChunkSpec.write st r = Some st' → ChunkSpec.good st'.
Proof.
  intros Hg Hr Hw. pose proof (stored_area r Hr) as Ha.
  unfold ChunkSpec.write in Hw. destruct (st !! wr_Id r) as [[body v]|] eqn:E.
  - case_match eqn:Hv; [|done]. simplify_eq.
    pose proof (Hg _ _ E) as [Hl _]. simpl in Hl.
    apply map_Forall_insert_2; [|done]. split; simpl; [|apply (wok_version r Hr)].
    by rewrite length_splice by lia.
  - case_match; [|done]. simplify_eq.
    apply map_Forall_insert_2; [|done]. split; simpl; [|unfold is_u64; lia].
    by rewrite length_splice, length_replicate by (rewrite length_replicate; lia).
Qed.

Lemma i64_offset o : 0 <= o <= FILE_SIZE → i64 o = o.
Proof. rewrite FILE_SIZE_val. intros H. apply i64_small. unfold is_i64. lia. Qed.

Lemma commit_retry_ok n k s e :
  (k < n)%nat →
  CommitEntryRetry n k s e = Some {| files := files s; log := log s ++ [e] |}.
Proof.
  revert k. induction n as [|n IH]; intros k H; [lia|].
  destruct k; [done|]. simpl. apply IH. lia.
Qed.

Lemma commit_retry_fail n k s e : (n ≤ k)%nat → CommitEntryRetry n k s e = None.
Proof.
  revert k. induction n as [|n IH]; intros k H; [done|].
  destruct k; [lia|]. simpl. apply IH. lia.
Qed.

Definition write_status (st : ChunkSpec.store) (r : WriteChunkRequest) : Status :=
  match ChunkSpec.write st r with
  | Some _ => Status_OK
  | None => Status_WrongVersion
  end.

(** The handler against the specification, when the file system does not fail. *)
Lemma WriteChunk_spec st s r k :
  ChunkSpec.good st → files s = ChunkSpec.dir st → area_ok r → (k < ACK_MOST_TIMES)%nat →
  WriteChunk no_faults k s r =
  Some (write_status st r,
        {| files := ChunkSpec.dir (default st (ChunkSpec.write st r));
           log := log s ++ [ConstructWriteEntry r (stored_bytes r)] |}).
Proof.
  intros Hg Hs Hr Hk. pose proof (stored_area r Hr) as Ha.
  pose proof (wok_offset r Hr) as Ho.
  assert (wr_Offset r <= FILE_SIZE) as Hof.
  { pose proof (wok_area r Hr). pose proof (TargetSizeWrapper_pos _ (wok_target r Hr)). lia. }
  unfold WriteChunk. rewrite GetPaddedData_ok by done. cbn [mbind option_bind].
  rewrite commit_retry_ok by done. cbn [files log].
  unfold write_status, ChunkSpec.write. rewrite Hs. unfold ChunkSpec.dir at 1.
  rewrite lookup_fmap. destruct (st !! wr_Id r) as [[body v]|] eqn:E; cbn [fmap option_map option_fmap].
  - pose proof (Hg _ _ E) as Hgc. simpl. rewrite GetVersion_mkfile by done. simpl.
    destruct (Z.eqb_spec (u64 (v + 1)) (wr_Version r)); [|done].
    rewrite i64_offset by lia. unfold write_data. cbn [write_err no_faults].
    destruct (write_mkfile body v (stored_bytes r) (wr_Offset r) (wr_Version r))
      as (c & -> & Hc); [apply Hgc|done|done|].
    unfold set_file. simpl. rewrite Hc. unfold ChunkSpec.dir. by rewrite fmap_insert.
  - destruct (Z.eqb_spec (wr_Version r) 1) as [Hv|Hv]; simpl; [|done].
    rewrite GetPaddedFile_ok by done. simpl. unfold write_data. cbn [write_err no_faults].
    rewrite WriteAt_new.
    rewrite <- (app_nil_r (splice _ _ _)), SyncAndUpdateVersion_file.
    + unfold set_file, ChunkSpec.dir. simpl. rewrite fmap_insert, Hv, app_nil_r. done.
    + rewrite length_splice, length_replicate by (rewrite length_replicate; lia). done.
    + simpl. lia.
Qed.

(** ** Replay of the journal *)
Definition space : byte := byte_of_Z 32.

(** What replaying the entry of [r] does to a store. *)
Definition replay_spec (st : ChunkSpec.store) (r : WriteChunkRequest) : ChunkSpec.store :=
  let off := Z.to_nat (wr_Offset r) in
  match st !! wr_Id r with
  | None =>
      <[wr_Id r := (splice off (stored_bytes r) (replicate (Z.to_nat FILE_SIZE) space),
                    wr_Version r)]> st
  | Some (body, v) =>
      let old := take (length (stored_bytes r)) (drop off body) in
      if negb (Crc32q (stored_bytes r) =? Crc32q old) || negb (wr_Version r =? v)
      then <[wr_Id r := (splice off (stored_bytes r) body, wr_Version r)]> st
      else st
  end.

Lemma take_be n z rest : take n (be_encode n z ++ rest) = be_encode n z.
Proof. apply take_app_length'. by rewrite length_be_encode. Qed.
Lemma drop_be n z rest : drop n (be_encode n z ++ rest) = rest.
Proof. apply drop_app_length'. by rewrite length_be_encode. Qed.
Lemma drop_be_add n m z rest : drop (n + m) (be_encode n z ++ rest) = drop m rest.
Proof. by rewrite <- drop_drop, drop_be. Qed.

Lemma BytesToUint64_be z : is_u64 z → BytesToUint64 (be_encode 8 z) = Some z.
Proof.
  intros H. unfold BytesToUint64. rewrite length_be_encode, decide_True by lia.
  rewrite take_ge by (rewrite length_be_encode; lia). by rewrite be_decode_encode64.
Qed.
Lemma BytesToUint32_be z : is_u32 z → BytesToUint32 (be_encode 4 z) = Some z.
Proof.
  intros H. unfold BytesToUint32. rewrite length_be_encode, decide_True by lia.
  rewrite take_ge by (rewrite length_be_encode; lia). by rewrite be_decode_encode32.
Qed.

(** The fields of a write message, as [HandleWriteMsg] slices them. *)
Section write_msg.
Context (v id off n crc : Z) (data : list byte).
Let msg := be_encode 8 v ++ be_encode 8 id ++ be_encode 8 off ++ be_encode 8 n
           ++ be_encode 4 crc ++ data.

Lemma msg_version : take 8 msg = be_encode 8 v.
Proof. apply take_be. Qed.
Lemma msg_id : take 8 (drop 8 msg) = be_encode 8 id.
Proof. unfold msg. by rewrite drop_be, take_be. Qed.
Lemma msg_offset : take 8 (drop 16 msg) = be_encode 8 off.
Proof.
  unfold msg. rewrite (drop_be_add 8 8), drop_be. apply take_be.
Qed.
Lemma msg_size : take 8 (drop 24 msg) = be_encode 8 n.
Proof.
  unfold msg. rewrite (drop_be_add 8 16), (drop_be_add 8 8), drop_be. apply take_be.
Qed.
Lemma msg_crc : take 4 (drop 32 msg) = be_encode 4 crc.
Proof.
  unfold msg. rewrite (drop_be_add 8 24), (drop_be_add 8 16), (drop_be_add 8 8), drop_be.
  apply take_be.
Qed.
Lemma msg_data : drop 36 msg = data.
Proof.
  unfold msg. rewrite (drop_be_add 8 28), (drop_be_add 8 20), (drop_be_add 8 12),
    (drop_be_add 8 4), drop_be. done.
Qed.
Lemma msg_slice : slice_of 36 (length msg) msg = Some data.
Proof.
  unfold slice_of. rewrite msg_data, decide_True.
  - rewrite take_ge; [done|]. rewrite <- msg_data at 1. by rewrite length_drop.
  - unfold msg. rewrite !length_app, !length_be_encode. lia.
Qed.
End write_msg.

Lemma write_ok_ranges r :
  area_ok r →
  is_u64 (wr_Offset r) ∧ is_u64 (Z.of_nat (length (stored_bytes r)))
  ∧ i64 (wr_Offset r) = wr_Offset r
  ∧ wr_Offset r + Z.of_nat (length (stored_bytes r)) <= FILE_SIZE
  ∧ (0 < length (stored_bytes r))%nat.
Proof.
  intros H. rewrite length_stored_bytes by done.
  pose proof (wok_area r H) as Ha. pose proof (wok_offset r H) as Ho.
  pose proof (TargetSizeWrapper_pos _ (wok_target r H)) as Ht.
  rewrite FILE_SIZE_val in *. unfold is_u64.
  repeat split; try lia. apply i64_offset. rewrite FILE_SIZE_val. lia.
Qed.

(** Creating a chunk from a replayed entry: the data fills the whole area. *)
Lemma GetPaddedFile_replay r :
  area_ok r →
  GetPaddedFile (stored_bytes r) (Z.of_nat (length (stored_bytes r)))
    (Z.of_nat (length (stored_bytes r))) [space] (wr_Offset r)
  = Some (splice (Z.to_nat (wr_Offset r)) (stored_bytes r)
            (replicate (Z.to_nat FILE_SIZE) space)).
Proof.
  intros H. destruct (write_ok_ranges r H) as (Ho & Hn & _ & Ha & Hp).
  unfold GetPaddedFile, GetPaddedBytes. rewrite size_allowed by lia. cbn [mbind option_bind].
  destruct (Z.eqb_spec (Z.of_nat (length (stored_bytes r))) 0); [lia|].
  rewrite MIN_min, Z.min_id. rewrite FILE_SIZE_val in *.
  unfold is_u64 in *. rewrite u64_small by (unfold is_u64; lia).
  rewrite (proj2 (Z.leb_le _ _)), (proj2 (Z.leb_le _ _)) by lia. simpl.
  f_equal. unfold copy_at. f_equal. apply take_ge. lia.
Qed.

Lemma HandleMsg_write st s r :
  ChunkSpec.good st → files s = ChunkSpec.dir st → write_ok r →
  HandleMsg no_faults s (ConstructWriteEntry r (stored_bytes r)) =
  Some (Ok {| files := ChunkSpec.dir (replay_spec st r); log := log s |}).
Proof.
  intros Hg Hs Hr. pose proof (wok_request _ Hr) as Hra.
  destruct (write_ok_ranges r Hr) as (Ho & Hn & Hi & Ha & Hp).
  unfold HandleMsg, ConstructWriteEntry, Uint64ToBytes, Uint32ToBytes.
  rewrite take_be, drop_be, BytesToUint64_be by (unfold is_u64, WRITE_LOG_FLAG; lia).
  cbn [mbind option_bind]. change (WRITE_LOG_FLAG =? WRITE_LOG_FLAG) with true.
  cbn iota. unfold HandleWriteMsg.
  rewrite msg_version, msg_id, msg_offset, msg_size, msg_crc, msg_data, msg_slice.
  rewrite !BytesToUint64_be by (done || apply Hr).
  rewrite BytesToUint32_be by apply Crc32q_range. cbn [mbind option_bind open_err no_faults].
  rewrite Hs. unfold ChunkSpec.dir at 1. rewrite lookup_fmap. unfold replay_spec.
  destruct (st !! wr_Id r) as [[body v]|] eqn:E; simpl.
  - pose proof (Hg _ _ E) as Hgc. rewrite Hi, GetVersion_mkfile by done. simpl.
    pose proof Hgc as [Hlen _]. simpl in Hlen.
    rewrite ReadAt_mkfile by (done || apply Hr || lia). rewrite Nat2Z.id.
    rewrite size_allowed by (pose proof (wok_offset r Hr); lia).
    case_match; [|by destruct s; simpl in *; subst].
    destruct (write_mkfile body v (stored_bytes r) (wr_Offset r) (wr_Version r))
      as (c & -> & Hc); [done|apply Hr|by apply stored_area|].
    simpl. unfold set_file. simpl. rewrite Hc, Hs. unfold ChunkSpec.dir. by rewrite fmap_insert.
  - change [byte_of_Z 32] with [space]. rewrite GetPaddedFile_replay by done. simpl.
    rewrite <- (app_nil_r (splice _ _ _)), SyncAndUpdateVersion_file; [|..].
    + unfold set_file, ChunkSpec.dir. simpl. by rewrite fmap_insert, app_nil_r, Hs.
    + rewrite length_splice, length_replicate; [done|].
      rewrite length_replicate. by apply stored_area.
    + simpl. lia.
Qed.

(** An accepted write is replayed to the same store, provided a chunk it
    creates was padded with spaces, the byte the replay pads with. *)
Lemma replay_accepted st r st' :
  ChunkSpec.good st → write_ok r → ChunkSpec.write st r = Some st' →
  (st !! wr_Id r = None → pad_byte r = space) → replay_spec st r = st'.
Proof.
  intros Hg Hr Hw Hp. pose proof (wok_request _ Hr) as Hra. unfold ChunkSpec.write, replay_spec in *.
  destruct (st !! wr_Id r) as [[body v]|] eqn:E.
  - destruct (Z.eqb_spec (u64 (v + 1)) (wr_Version r)) as [Hv|]; [|done]. simplify_eq.
    destruct (Hg _ _ E) as [_ Hvr]. simpl in Hvr. unfold is_u64 in Hvr.
    assert (wr_Version r ≠ v) as Hne.
    { rewrite <- Hv. unfold u64. intros Heq.
      destruct (Z.eq_dec v (2 ^ 64 - 1)) as [->|];
        [rewrite Z.sub_add, Z.mod_same in Heq by lia; lia|].
      rewrite Z.mod_small in Heq by lia. lia. }
    rewrite (proj2 (Z.eqb_neq _ _) Hne), orb_true_r. done.
  - destruct (Z.eqb_spec (wr_Version r) 1) as [Hv|]; [|done]. simplify_eq.
    by rewrite Hv, Hp.
Qed.

(** ** Histories of a data node group *)
Inductive ChunkOp :=
| OpWrite (r : WriteChunkRequest)
| OpDelete (r : DeleteChunkRequest).

Definition serve (s : Server) (op : ChunkOp) : option (Status * Server) :=
  match op with
  | OpWrite r => WriteChunk no_faults 0 s r
  | OpDelete r => Some (DeleteChunk no_faults 0 s r)
  end.

Fixpoint serve_all (s : Server) (ops : list ChunkOp) : option (list Status * Server) :=
  match ops with
  | [] => Some ([], s)
  | op :: ops' =>
      '(st, s1) ← serve s op;
      '(sts, s2) ← serve_all s1 ops';
      Some (st :: sts, s2)
  end.

(** The secondary: handle the entries one by one, stop at the first error. *)
Fixpoint replay_log (s : Server) (entries : list (list byte)) : option (result unit Server) :=
  match entries with
  | [] => Some (Ok s)
  | e :: entries' =>
      r ← HandleMsg no_faults s e;
      match r with
      | Ok s' => replay_log s' entries'
      | Err x => Some (Err x)
      end
  end.

Definition op_ok (op : ChunkOp) : Prop :=
  match op with
  | OpWrite r => write_ok r ∧ pad_byte r = space
  | OpDelete r => is_u64 (dr_Id r)
  end.

Definition spec_op (st : ChunkSpec.store) (op : ChunkOp) : ChunkSpec.store :=
  match op with
  | OpWrite r => default st (ChunkSpec.write st r)
  | OpDelete r => delete (dr_Id r) st
  end.

Definition op_entry (op : ChunkOp) : list byte :=
  match op with
  | OpWrite r => ConstructWriteEntry r (stored_bytes r)
  | OpDelete r => ConstructDeleteEntry r
  end.

Definition op_status (st : ChunkSpec.store) (op : ChunkOp) : Status :=
  match op with OpWrite r => write_status st r | OpDelete _ => Status_OK end.

Lemma spec_op_good st op : ChunkSpec.good st → op_ok op → ChunkSpec.good (spec_op st op).
Proof.
  intros Hg Ho. destruct op as [r|r]; simpl in *.
  - destruct (ChunkSpec.write st r) eqn:E; [|done]. destruct Ho as [Hr _].
    by apply (write_good st r); [|apply Hr|].
  - by apply map_Forall_delete.
Qed.

Lemma serve_spec st s op :
  ChunkSpec.good st → files s = ChunkSpec.dir st → op_ok op →
  serve s op = Some (op_status st op,
    {| files := ChunkSpec.dir (spec_op st op); log := log s ++ [op_entry op] |}).
Proof.
  intros Hg Hs Ho. destruct op as [r|r]; simpl in *.
  - apply WriteChunk_spec; try done; [apply Ho|unfold ACK_MOST_TIMES; lia].
  - unfold DeleteChunk. rewrite commit_retry_ok by (unfold ACK_MOST_TIMES; lia).
    unfold del_file. simpl. rewrite Hs. unfold ChunkSpec.dir. by rewrite fmap_delete.
Qed.

Lemma HandleMsg_delete st s r :
  files s = ChunkSpec.dir st → is_u64 (dr_Id r) →
  HandleMsg no_faults s (ConstructDeleteEntry r) =
  Some (Ok {| files := ChunkSpec.dir (delete (dr_Id r) st); log := log s |}).
Proof.
  intros Hs Hr. unfold HandleMsg, ConstructDeleteEntry, Uint64ToBytes.
  rewrite take_be, drop_be, BytesToUint64_be by (unfold is_u64, DELETE_LOG_FLAG; lia).
  cbn [mbind option_bind]. change (DELETE_LOG_FLAG =? WRITE_LOG_FLAG) with false.
  change (DELETE_LOG_FLAG =? DELETE_LOG_FLAG) with true. cbn iota.
  unfold HandleDeleteMsg. rewrite <- (app_nil_r (be_encode 8 (dr_Id r))), take_be.
  rewrite BytesToUint64_be by done. simpl. unfold del_file, ChunkSpec.dir.
  by rewrite Hs, fmap_delete.
Qed.

Lemma HandleMsg_op st s op :
  ChunkSpec.good st → files s = ChunkSpec.dir st → op_ok op →
  op_status st op = Status_OK →
  HandleMsg no_faults s (op_entry op) =
  Some (Ok {| files := ChunkSpec.dir (spec_op st op); log := log s |}).
Proof.
  intros Hg Hs Ho Hok. destruct op as [r|r]; simpl in *; [|by apply HandleMsg_delete].
  destruct Ho as [Hr Hp]. rewrite (HandleMsg_write st) by done.
  unfold write_status in Hok. destruct (ChunkSpec.write st r) as [st'|] eqn:E; [|done].
  by rewrite (replay_accepted st r st').
Qed.

Lemma serve_all_spec ops st s :
  ChunkSpec.good st → files s = ChunkSpec.dir st → Forall op_ok ops →
  ∃ sts st', serve_all s ops = Some (sts, {| files := ChunkSpec.dir st';
                                             log := log s ++ map op_entry ops |})
    ∧ ∀ s2, files s2 = ChunkSpec.dir st → Forall (eq Status_OK) sts →
      replay_log s2 (map op_entry ops) =
      Some (Ok {| files := ChunkSpec.dir st'; log := log s2 |}).
Proof.
  revert st s. induction ops as [|op ops IH]; intros st s Hg Hs Ho.
  - exists [], st. destruct s as [f l]; simpl in *. subst. rewrite app_nil_r.
    split; [done|]. intros [f2 l2]; simpl. by intros -> _.
  - apply Forall_cons in Ho as [Hop Ho]. simpl. rewrite (serve_spec st) by done. simpl.
    destruct (IH (spec_op st op) {| files := ChunkSpec.dir (spec_op st op);
      log := log s ++ [op_entry op] |}) as (sts & st' & -> & Hrep);
      [by apply spec_op_good|done|done|].
    simpl. exists (op_status st op :: sts), st'. rewrite <- app_assoc. split; [done|].
    intros s2 Hs2 [Hok Hoks]%Forall_cons. rewrite (HandleMsg_op st) by done. simpl.
    by rewrite Hrep.
Qed.

Lemma write_lookup_ne st r st' id' :
  ChunkSpec.write st r = Some st' → id' ≠ wr_Id r → st' !! id' = st !! id'.
Proof.
  unfold ChunkSpec.write. intros Hw Hne.
  repeat case_match; simplify_eq; by rewrite lookup_insert_ne.
Qed.

(** The version of a chunk, 0 when it does not exist. *)
Definition version_of (st : ChunkSpec.store) (id : Z) : Z :=
  match st !! id with Some (_, v) => v | None => 0 end.

(** The versions of the writes to [id] that a primary answers with [OK]. *)
Fixpoint accepted_versions (id : Z) (ops : list WriteChunkRequest) (sts : list Status)
  : list Z :=
  match ops, sts with
  | r :: ops', st :: sts' =>
      if decide (wr_Id r = id ∧ st = Status_OK)
      then wr_Version r :: accepted_versions id ops' sts'
      else accepted_versions id ops' sts'
  | _, _ => []
  end.

Lemma version_of_write st r st' id :
  ChunkSpec.write st r = Some st' →
  version_of st' id = if decide (wr_Id r = id) then wr_Version r else version_of st id.
Proof.
  intros Hw. unfold version_of. case_decide as Hi.
  - subst. unfold ChunkSpec.write in Hw. destruct (st !! wr_Id r) as [[b v]|].
    + case_match; [|done]. simplify_eq. by rewrite lookup_insert_eq.
    + destruct (Z.eqb_spec (wr_Version r) 1); [|done]. simplify_eq.
      by rewrite lookup_insert_eq.
  - by rewrite (write_lookup_ne st r st') by done.
Qed.

Lemma write_version st r st' :
  ChunkSpec.write st r = Some st' → wr_Version r = u64 (version_of st (wr_Id r) + 1).
Proof.
  unfold ChunkSpec.write, version_of. destruct (st !! wr_Id r) as [[b v]|].
  - by destruct (Z.eqb_spec (u64 (v + 1)) (wr_Version r)).
  - by destruct (Z.eqb_spec (wr_Version r) 1) as [->|].
Qed.

Lemma serve_writes_versions id ops st s :
  ChunkSpec.good st → files s = ChunkSpec.dir st → Forall area_ok ops →
  ∃ sts s', serve_all s (OpWrite <$> ops) = Some (sts, s')
    ∧ accepted_versions id ops sts
      = (λ i, u64 (version_of st id + 1 + Z.of_nat i))
          <$> seq 0 (length (accepted_versions id ops sts)).
Proof.
  revert st s. induction ops as [|r ops IH]; intros st s Hg Hs Ho; [by eexists [], s|].
  apply Forall_cons in Ho as [Hr Ho]. simpl.
  rewrite (WriteChunk_spec st) by (done || unfold ACK_MOST_TIMES; lia). simpl.
  set (st1 := default st (ChunkSpec.write st r)).
  assert (ChunkSpec.good st1) as Hg1.
  { unfold st1. destruct (ChunkSpec.write st r) eqn:E; [|done]. by apply (write_good st r). }
  destruct (IH st1 {| files := ChunkSpec.dir st1;
    log := log s ++ [ConstructWriteEntry r (stored_bytes r)] |} Hg1 eq_refl Ho)
    as (sts & s' & Hsv & Hacc).
  change (list_fmap _ _ OpWrite ops) with (OpWrite <$> ops) in *. rewrite Hsv. simpl. eexists _, _. split; [done|]. simpl.
  unfold write_status, st1 in *.
  destruct (ChunkSpec.write st r) as [st2|] eqn:E; simpl in *.
  - case_decide as Hd.
    + destruct Hd as [Hid _]. simpl. rewrite Hacc at 1. subst id.
      rewrite (version_of_write st r st2), decide_True by done.
      rewrite <- fmap_S_seq, <- list_fmap_compose. f_equal.
      * rewrite (write_version st r st2) by done. f_equal. lia.
      * apply list_fmap_ext. intros i j _. simpl.
        rewrite (write_version st r st2) by done. unfold u64.
        rewrite <- Z.add_assoc, Zplus_mod_idemp_l. f_equal. lia.
    + rewrite (version_of_write st r st2), decide_False in Hacc; [done| |done].
      intros Hx. by apply Hd.
  - rewrite decide_False by (by intros [_ ?]). done.
Qed.

(** ** Theorems *)

(** C4. For a request whose padding string is not empty and whose target area
    lies inside the 8192 bytes of data of the chunk ([area_ok]), on a directory
    of well-formed chunk files, when at most four of the five commit attempts
    fail and the file system does not fail, [WriteChunk] implements the
    versioned chunk store: it answers [OK] exactly when the request carries the
    successor of the stored version (version 1 for a new chunk), stores the
    padded data in the target area and nothing else, leaves the directory
    untouched when it answers [WrongVersion], and in both cases has appended
    its journal entry.  The code checks neither restriction: with an empty
    padding string the handler panics ([empty_padding_panics]), and an area
    past the data is accepted and runs into the version word
    ([past_area_accepted]). *)
Theorem write_chunk_refines st s r k :
  ChunkSpec.good st → files s = ChunkSpec.dir st → area_ok r → (k < ACK_MOST_TIMES)%nat →
  ∃ s', WriteChunk no_faults k s r = Some (write_status st r, s')
    ∧ files s' = ChunkSpec.dir (default st (ChunkSpec.write st r))
    ∧ ChunkSpec.good (default st (ChunkSpec.write st r))
    ∧ log s' = log s ++ [ConstructWriteEntry r (stored_bytes r)].
Proof.
  intros Hg Hs Hr Hk. eexists. split; [by apply WriteChunk_spec|].
  split; [done|]. split; [|done].
  destruct (ChunkSpec.write st r) eqn:E; [|done]. by apply (write_good st r).
Qed.

(** With an empty padding string [WriteChunk] panics, whatever else the
    request holds. *)
Lemma empty_padding_panics os k s r : wr_Padding r = [] → WriteChunk os k s r = None.
Proof. intros H. unfold WriteChunk, GetPaddedData. by rewrite H. Qed.

(** A write that was answered [OK] is read back: [ReadChunk] at its offset,
    with any version up to the one written, returns the stored bytes. *)
Theorem write_then_read st s r s' q :
  ChunkSpec.good st → files s = ChunkSpec.dir st → area_ok r →
  WriteChunk no_faults 0 s r = Some (Status_OK, s') →
  rr_Id q = wr_Id r → rr_Offset q = wr_Offset r →
  rr_Size q = Z.of_nat (length (stored_bytes r)) → rr_Version q <= wr_Version r →
  ReadChunk no_faults s' q = Some (Status_OK, stored_bytes r).
Proof.
  intros Hg Hs Hr Hw Hi Ho Hn Hv.
  rewrite (WriteChunk_spec st) in Hw by (done || unfold ACK_MOST_TIMES; lia).
  injection Hw as Hst <-. destruct (write_ok_ranges r Hr) as (_ & _ & Hi64 & Ha & _).
  unfold write_status in Hst. destruct (ChunkSpec.write st r) as [st'|] eqn:E; [|done].
  pose proof (write_good _ _ _ Hg Hr E) as Hg'.
  assert (∃ body, st' !! wr_Id r = Some (splice (Z.to_nat (wr_Offset r)) (stored_bytes r) body,
            wr_Version r) ∧ length body = Z.to_nat FILE_SIZE) as (body & Hl & Hlen).
  { unfold ChunkSpec.write in E. destruct (st !! wr_Id r) as [[b v]|] eqn:Eb.
    - case_match; [|done]. simplify_eq. eexists. rewrite lookup_insert_eq. split; [done|].
      by destruct (Hg _ _ Eb).
    - destruct (Z.eqb_spec (wr_Version r) 1); [|done]. simplify_eq. eexists.
      rewrite lookup_insert_eq. split; [by rewrite e|]. apply length_replicate. }
  unfold ReadChunk. simpl. unfold ChunkSpec.dir. rewrite lookup_fmap, Hi, Hl. simpl.
  pose proof (Hg' _ _ Hl) as Hgc. rewrite GetVersion_mkfile by done. simpl.
  rewrite (proj2 (Z.leb_le _ _)) by done. rewrite Ho, Hi64, Hn.
  destruct Hgc as [Hlc _]. simpl in Hlc.
  rewrite size_allowed by (pose proof (wok_offset r Hr); lia).
  rewrite ReadAt_mkfile by (done || apply Hr || lia).
  rewrite Nat2Z.id, take_drop_splice; [done|]. rewrite Hlen. by apply stored_area.
Qed.

(** Whatever a write request does, a read of another chunk, and a read of
    the same chunk outside the target area at a version it already had, answer
    what they answered before. *)
Theorem write_chunk_frame st s r k stt s' q :
  ChunkSpec.good st → files s = ChunkSpec.dir st → area_ok r → (k < ACK_MOST_TIMES)%nat →
  WriteChunk no_faults k s r = Some (stt, s') →
  rr_Id q ≠ wr_Id r ∨
    (∃ body v, st !! wr_Id r = Some (body, v) ∧ rr_Version q <= v
      ∧ v < 2 ^ 64 - 1 ∧ 0 <= rr_Offset q ∧ 0 <= rr_Size q
      ∧ rr_Offset q + rr_Size q <= FILE_SIZE
      ∧ (rr_Offset q + rr_Size q <= wr_Offset r
         ∨ wr_Offset r + Z.of_nat (length (stored_bytes r)) <= rr_Offset q)) →
  ReadChunk no_faults s' q = ReadChunk no_faults s q.
Proof.
  intros Hg Hs Hr Hk Hw Hd. rewrite (WriteChunk_spec st) in Hw by done.
  injection Hw as _ <-. pose proof (stored_area r Hr) as Ha.
  destruct (ChunkSpec.write st r) as [st'|] eqn:E; [|by unfold ReadChunk; rewrite Hs].
  unfold ReadChunk. simpl. rewrite Hs. unfold ChunkSpec.dir. rewrite !lookup_fmap.
  destruct (decide (rr_Id q = wr_Id r)) as [Hi|Hne].
  2:{ by rewrite (write_lookup_ne st r st') by done. }
  destruct Hd as [Hd|(body & v & Hb & Hv & Hmax & Ho & Hn & Hsz & Hd)]; [done|].
  rewrite Hi, Hb. pose proof (Hg _ _ Hb) as Hgc. pose proof Hgc as [Hl Hvr]. simpl in Hl, Hvr.
  pose proof (write_good _ _ _ Hg Hr E) as Hg'.
  unfold ChunkSpec.write in E. rewrite Hb in E.
  destruct (Z.eqb_spec (u64 (v + 1)) (wr_Version r)) as [Hver|]; [|done]. simplify_eq.
  pose proof (Hg' _ _ (lookup_insert_eq st (wr_Id r) _)) as Hgc'.
  rewrite lookup_insert_eq. simpl. rewrite !GetVersion_mkfile by done. simpl.
  unfold is_u64 in Hvr. rewrite u64_small in Hver by (unfold is_u64; lia).
  rewrite !(proj2 (Z.leb_le _ _)) by lia.
  rewrite i64_offset by lia.
  rewrite size_allowed by lia.
  rewrite !ReadAt_mkfile by (done || (rewrite length_splice; lia)).
  rewrite take_drop_splice_ne; [done|lia|].
  pose proof (wok_offset r Hr). lia.
Qed.

(** When every commit attempt fails, both mutating handlers answer
    [Unavailable] after [ACK_MOST_TIMES] attempts and change nothing. *)
Theorem journal_failure_unavailable os s r d k :
  area_ok r → (ACK_MOST_TIMES ≤ k)%nat →
  WriteChunk os k s r = Some (Status_Unavailable, s)
  ∧ DeleteChunk os k s d = (Status_Unavailable, s).
Proof.
  intros Hr Hk. unfold WriteChunk, DeleteChunk.
  rewrite GetPaddedData_ok by done. cbn [mbind option_bind].
  by rewrite !commit_retry_fail.
Qed.

(** Replication: if a primary answers [OK] to every operation of a history
    (writes padded with spaces, and deletions), then a secondary that starts
    from the same directory and handles the journal entries the primary wrote
    ends with the same directory. *)
Theorem replica_converges ops st s s2 :
  ChunkSpec.good st → files s = ChunkSpec.dir st → files s2 = ChunkSpec.dir st →
  Forall op_ok ops →
  ∃ sts s' new, serve_all s ops = Some (sts, s') ∧ log s' = log s ++ new
    ∧ (Forall (eq Status_OK) sts →
       ∃ s2', replay_log s2 new = Some (Ok s2') ∧ files s2' = files s').
Proof.
  intros Hg Hs Hs2 Ho.
  destruct (serve_all_spec ops st s Hg Hs Ho) as (sts & st' & Hsv & Hrep).
  eexists _, _, _. split; [done|]. split; [done|]. intros Hok.
  eexists. split; [by apply Hrep|done].
Qed.

(** A write the primary rejects because its chunk does not exist is in
    the journal all the same: the primary keeps no file for it, and a
    secondary with the same directory creates the chunk. *)
Theorem rejected_write_reaches_replica st s s2 r :
  ChunkSpec.good st → files s = ChunkSpec.dir st → files s2 = ChunkSpec.dir st →
  write_ok r → st !! wr_Id r = None → wr_Version r ≠ 1 →
  ∃ s' e s2', WriteChunk no_faults 0 s r = Some (Status_WrongVersion, s')
    ∧ log s' = log s ++ [e] ∧ files s' !! wr_Id r = None
    ∧ HandleMsg no_faults s2 e = Some (Ok s2')
    ∧ is_Some (files s2' !! wr_Id r).
Proof.
  intros Hg Hs Hs2 Hr Hn Hv. pose proof (wok_request _ Hr) as Hra.
  assert (ChunkSpec.write st r = None) as Hw.
  { unfold ChunkSpec.write. rewrite Hn. by rewrite (proj2 (Z.eqb_neq _ _) Hv). }
  eexists _, _, _. rewrite (WriteChunk_spec st) by (done || unfold ACK_MOST_TIMES; lia).
  unfold write_status. rewrite Hw. split; [done|]. split; [done|].
  split; [simpl; unfold ChunkSpec.dir; by rewrite lookup_fmap, Hn|].
  split; [by apply (HandleMsg_write st)|]. simpl. unfold replay_spec. rewrite Hn.
  unfold ChunkSpec.dir. rewrite lookup_fmap, lookup_insert_eq. by eexists.
Qed.

(** Handling the same journal entry twice has the effect of handling it
    once, so a secondary may re-read the entry it stopped at. *)
Theorem replay_idempotent st s r s1 :
  ChunkSpec.good st → files s = ChunkSpec.dir st → write_ok r →
  HandleMsg no_faults s (ConstructWriteEntry r (stored_bytes r)) = Some (Ok s1) →
  HandleMsg no_faults s1 (ConstructWriteEntry r (stored_bytes r)) = Some (Ok s1).
Proof.
  intros Hg Hs Hr H1. rewrite (HandleMsg_write st) in H1 by done. injection H1 as <-.
  pose proof (stored_area r Hr) as Ha.
  assert (ChunkSpec.good (replay_spec st r)) as Hg1.
  { unfold replay_spec. destruct (st !! wr_Id r) as [[b v]|] eqn:E;
      [case_match; [|done]; destruct (Hg _ _ E) as [Hl _]; simpl in Hl|];
      (apply map_Forall_insert_2; [split; simpl; [|apply Hr]|done]);
      rewrite length_splice; rewrite ?length_replicate; lia || done. }
  rewrite (HandleMsg_write (replay_spec st r)) by done. do 4 f_equal.
  assert (∃ b, replay_spec st r !! wr_Id r = Some (b, wr_Version r)
    ∧ Crc32q (stored_bytes r)
      = Crc32q (take (length (stored_bytes r)) (drop (Z.to_nat (wr_Offset r)) b)))
    as (b & Hb & Hc).
  { unfold replay_spec. destruct (st !! wr_Id r) as [[b v]|] eqn:E.
    - destruct (Hg _ _ E) as [Hl _]. simpl in Hl. case_match eqn:Hor.
      + eexists. rewrite lookup_insert_eq. split; [done|].
        by rewrite take_drop_splice by lia.
      + apply orb_false_elim in Hor as [H1 H2].
        apply negb_false_iff, Z.eqb_eq in H1, H2. exists b. by rewrite E, H2.
    - eexists. rewrite lookup_insert_eq. split; [done|].
      rewrite take_drop_splice; [done|]. rewrite length_replicate. lia. }
  unfold replay_spec at 1. rewrite Hb, Hc, !Z.eqb_refl. done.
Qed.

(** Serialisation of concurrent writers: whatever writes arrive in whatever
    order, the versions of those the primary answers with [OK] are, for each
    chunk, the consecutive numbers after the chunk's version, so two writes
    that carry the same version are never both accepted. *)
Theorem accepted_versions_consecutive id ops st s :
  ChunkSpec.good st → files s = ChunkSpec.dir st → Forall area_ok ops →
  ∃ sts s', serve_all s (OpWrite <$> ops) = Some (sts, s')
    ∧ accepted_versions id ops sts
      = (λ i, u64 (version_of st id + 1 + Z.of_nat i))
          <$> seq 0 (length (accepted_versions id ops sts)).
Proof. apply serve_writes_versions. Qed.

(** ** Concrete instances *)
Definition s0 : Server := {| files := ∅; log := [] |}.
Definition w1 : WriteChunkRequest :=
  {| wr_Id := 7; wr_Offset := 2048; wr_Size := 2; wr_Version := 1;
     wr_TargetSize := 2048; wr_Padding := [space]; wr_Data := [x61; x62] |}.
Definition w2 : WriteChunkRequest :=
  {| wr_Id := 7; wr_Offset := 0; wr_Size := 1; wr_Version := 2;
     wr_TargetSize := 0; wr_Padding := [space]; wr_Data := [x63] |}.

Lemma good_empty : ChunkSpec.good ∅.
Proof. apply map_Forall_empty. Qed.
Lemma w1_ok : write_ok w1.
Proof. split; by split. Qed.
Lemma w2_ok : write_ok w2.
Proof. split; by split. Qed.

Definition st1 : ChunkSpec.store := default ∅ (ChunkSpec.write ∅ w1).
Definition s1 : Server := {| files := ChunkSpec.dir st1; log := [] |}.
Lemma st1_good : ChunkSpec.good st1.
Proof. apply (write_good ∅ w1); [apply good_empty|apply w1_ok|reflexivity]. Qed.

Lemma write_chunk_refines_witness :
  write_status ∅ w1 = Status_OK ∧
  ∃ s', WriteChunk no_faults 4 s0 w1 = Some (write_status ∅ w1, s')
    ∧ files s' = ChunkSpec.dir (default ∅ (ChunkSpec.write ∅ w1))
    ∧ ChunkSpec.good (default ∅ (ChunkSpec.write ∅ w1))
    ∧ log s' = log s0 ++ [ConstructWriteEntry w1 (stored_bytes w1)].
Proof.
  split; [reflexivity|].
  apply (write_chunk_refines ∅ s0 w1 4);
    [apply good_empty|reflexivity|apply w1_ok|unfold ACK_MOST_TIMES; lia].
Defined.

(** A write of eight bytes at offset 8192 is answered with [OK], and what is
    read back there is the version the handler stored over the data. *)
Definition w_past : WriteChunkRequest :=
  {| wr_Id := 7; wr_Offset := 8192; wr_Size := 8; wr_Version := 2;
     wr_TargetSize := 8; wr_Padding := [space]; wr_Data := replicate 8 x63 |}.

Example past_area_accepted :
  (λ '(st, s'), (st, ReadChunk no_faults s'
     {| rr_Id := 7; rr_Offset := 8192; rr_Size := 8; rr_Version := 2 |}))
    <$> WriteChunk no_faults 0 s1 w_past
  = Some (Status_OK, Some (Status_OK, Uint64ToBytes 2)).
Proof. vm_compute. reflexivity. Qed.

(** A read that asks for version 0 of a chunk of version 1 is answered with
    [OK]. *)
Example read_version_zero :
  fst <$> ReadChunk no_faults s1 {| rr_Id := 7; rr_Offset := 0; rr_Size := 21; rr_Version := 0 |}
  = Some Status_OK.
Proof. vm_compute. reflexivity. Qed.

(** A failed [WriteAt] of the data is answered with [NotFound]; the bytes
    written before the failure stay, and so does the version. *)
Example partial_write_stays :
  (λ '(st, s'), (st, ReadChunk no_faults s'
     {| rr_Id := 7; rr_Offset := 0; rr_Size := 2; rr_Version := 1 |},
     GetVersion no_faults (default [] (files s' !! 7))))
    <$> WriteChunk {| open_err := false; create_err := false; remove_err := false;
          read_err := false; write_err := Some 1%nat; version_read_err := false;
          version_write_err := false |} 0 s1 w2
  = Some (Status_NotFound, Some (Status_OK, [x63; space]), 1).
Proof. vm_compute. reflexivity. Qed.

Lemma w1_accepted :
  WriteChunk no_faults 0 s0 w1 =
  Some (Status_OK, {| files := ChunkSpec.dir st1;
                      log := [ConstructWriteEntry w1 (stored_bytes w1)] |}).
Proof.
  rewrite (WriteChunk_spec ∅); [reflexivity|apply good_empty|reflexivity|apply w1_ok|].
  unfold ACK_MOST_TIMES. lia.
Qed.

Lemma w2_accepted :
  WriteChunk no_faults 0 s1 w2 =
  Some (Status_OK, {| files := ChunkSpec.dir (default st1 (ChunkSpec.write st1 w2));
                      log := [ConstructWriteEntry w2 (stored_bytes w2)] |}).
Proof.
  rewrite (WriteChunk_spec st1); [reflexivity|apply st1_good|reflexivity|apply w2_ok|].
  unfold ACK_MOST_TIMES. lia.
Qed.

Lemma write_then_read_witness :
  ∃ s', WriteChunk no_faults 0 s0 w1 = Some (Status_OK, s')
    ∧ ReadChunk no_faults s' {| rr_Id := 7; rr_Offset := 2048; rr_Size := 2048; rr_Version := 1 |}
      = Some (Status_OK, stored_bytes w1).
Proof.
  eexists. split; [apply w1_accepted|].
  apply (write_then_read ∅ s0 w1);
    [apply good_empty|reflexivity|apply w1_ok|apply w1_accepted
    |reflexivity|reflexivity| |simpl; lia].
  rewrite length_stored_bytes by apply w1_ok. reflexivity.
Defined.

Lemma write_chunk_frame_witness :
  ∃ s', WriteChunk no_faults 0 s1 w2 = Some (Status_OK, s')
    ∧ ReadChunk no_faults s' {| rr_Id := 7; rr_Offset := 2048; rr_Size := 2; rr_Version := 1 |}
      = ReadChunk no_faults s1 {| rr_Id := 7; rr_Offset := 2048; rr_Size := 2; rr_Version := 1 |}.
Proof.
  eexists. split; [apply w2_accepted|].
  apply (write_chunk_frame st1 s1 w2 0 Status_OK);
    [apply st1_good|reflexivity|apply w2_ok|unfold ACK_MOST_TIMES; lia|apply w2_accepted|].
  right. eexists _, _. split; [unfold st1; simpl; apply lookup_insert_eq|].
  rewrite length_stored_bytes by apply w2_ok. simpl. unfold TargetSizeWrapper. simpl.
  rewrite FILE_SIZE_val, BLOCK_SIZE_val. lia.
Defined.

Lemma journal_failure_unavailable_witness :
  WriteChunk no_faults 5 s0 w1 = Some (Status_Unavailable, s0)
  ∧ DeleteChunk no_faults 5 s0 {| dr_Id := 7 |} = (Status_Unavailable, s0).
Proof. apply journal_failure_unavailable; [apply w1_ok|unfold ACK_MOST_TIMES; lia]. Defined.

Definition history1 : list ChunkOp := [OpWrite w1; OpWrite w2; OpDelete {| dr_Id := 9 |}].

Lemma history1_ok : Forall op_ok history1.
Proof.
  repeat constructor; try (unfold is_u64; simpl; lia); try done.
Qed.

Lemma replica_converges_witness :
  ∃ sts s' new, serve_all s0 history1 = Some (sts, s') ∧ log s' = log s0 ++ new
    ∧ (Forall (eq Status_OK) sts →
       ∃ s2', replay_log s0 new = Some (Ok s2') ∧ files s2' = files s').
Proof.
  apply (replica_converges history1 ∅ s0 s0);
    [apply good_empty|reflexivity|reflexivity|apply history1_ok].
Defined.

(** All three operations of that history are answered with [OK]. *)
Example history1_accepted :
  fst <$> serve_all s0 history1 = Some [Status_OK; Status_OK; Status_OK].
Proof. vm_compute. reflexivity. Qed.

Lemma rejected_write_reaches_replica_witness :
  ∃ s' e s2', WriteChunk no_faults 0 s0 w2 = Some (Status_WrongVersion, s')
    ∧ log s' = log s0 ++ [e] ∧ files s' !! wr_Id w2 = None
    ∧ HandleMsg no_faults s0 e = Some (Ok s2')
    ∧ is_Some (files s2' !! wr_Id w2).
Proof.
  apply (rejected_write_reaches_replica ∅ s0 s0 w2);
    [apply good_empty|reflexivity|reflexivity|apply w2_ok|reflexivity|done].
Defined.

Lemma replay_idempotent_witness :
  ∃ s', HandleMsg no_faults s0 (ConstructWriteEntry w1 (stored_bytes w1)) = Some (Ok s')
    ∧ HandleMsg no_faults s' (ConstructWriteEntry w1 (stored_bytes w1)) = Some (Ok s').
Proof.
  eexists. split; [apply (HandleMsg_write ∅); [apply good_empty|reflexivity|apply w1_ok]|].
  apply (replay_idempotent ∅ s0 w1); [apply good_empty|reflexivity|apply w1_ok|].
  apply (HandleMsg_write ∅); [apply good_empty|reflexivity|apply w1_ok].
Defined.

Lemma accepted_versions_consecutive_witness :
  ∃ sts s', serve_all s0 (OpWrite <$> [w2; w1; w1; w2]) = Some (sts, s')
    ∧ accepted_versions 7 [w2; w1; w1; w2] sts
      = (λ i, u64 (version_of ∅ 7 + 1 + Z.of_nat i))
          <$> seq 0 (length (accepted_versions 7 [w2; w1; w1; w2] sts)).
Proof.
  apply (accepted_versions_consecutive 7 [w2; w1; w1; w2] ∅ s0);
    [apply good_empty|reflexivity|].
  repeat constructor; apply w1_ok || apply w2_ok.
Defined.
