(* ===== verification/DataNodeAlloc.v ===== *)
(** DataNodeAlloc: the master's round-robin choice of a data node group.

    Source: sheetfs/master/datanode_alloc/{alloc.go, errors.go}.  The methods
    hold the allocator's mutex for their whole body, so each is one step. *)
From Stdlib Require Import ZArith Lia.
From stdpp Require Import gmap strings list fin_maps sets.
From S2P Require Import Prelude.
Open Scope Z_scope.

Record dataNode := { address : string }.

Record DataNodeAllocator := {
  dataNodes : list dataNode;
  dataNodesSet : gset string;
  curPos : Z  (** a 64-bit [uint] *)
}.

Inductive NoDataNodeError := mkNoDataNodeError.

Definition NewDataNodeAllocator : DataNodeAllocator :=
  {| dataNodes := [ {| address := "" |} ]; dataNodesSet := ∅; curPos := 0 |}.

Definition NewDataNodeAllocatorWithGroups (dataNodeGroups : list string) : DataNodeAllocator :=
  {| dataNodes := (λ g, {| address := g |}) <$> dataNodeGroups;
     dataNodesSet := list_to_set dataNodeGroups;
     curPos := 0 |}.

Definition AddDataNode (c : DataNodeAllocator) (addr : string) : DataNodeAllocator :=
  if decide (addr ∈ dataNodesSet c) then c
  else
    let nodes := dataNodes c ++ [ {| address := addr |} ] in
    {| dataNodes := nodes;
       curPos := u64 (Z.of_nat (length nodes) - 1);
       dataNodesSet := {[ addr ]} ∪ dataNodesSet c |}.

(** [None] is the panic of an index out of range. *)
Definition AllocateNode (c : DataNodeAllocator)
  : option (result NoDataNodeError string * DataNodeAllocator) :=
  if decide (length (dataNodes c) = 0%nat) then Some (Err mkNoDataNodeError, c)
  else
    node ← dataNodes c !! Z.to_nat (curPos c);
    Some (Ok (address node),
          {| dataNodes := dataNodes c; dataNodesSet := dataNodesSet c;
             curPos := u64 (curPos c + 1) mod Z.of_nat (length (dataNodes c)) |}).

(** ** Invariant *)

(** The position is an index of the node list (0 when it is empty), and the
    list fits a machine integer. *)
Definition alloc_wf (c : DataNodeAllocator) : Prop :=
  0 <= curPos c ∧ Z.of_nat (length (dataNodes c)) < 2 ^ 63
  ∧ (dataNodes c = [] → curPos c = 0)
  ∧ (dataNodes c ≠ [] → curPos c < Z.of_nat (length (dataNodes c))).

Lemma alloc_wf_groups gs :
  Z.of_nat (length gs) < 2 ^ 63 → alloc_wf (NewDataNodeAllocatorWithGroups gs).
Proof.
  intros H. unfold alloc_wf, NewDataNodeAllocatorWithGroups. simpl.
  rewrite length_fmap. repeat split; try lia; try done.
  destruct gs; simpl; [done|lia].
Qed.

Lemma alloc_wf_add c a :
  alloc_wf c → Z.of_nat (length (dataNodes c)) < 2 ^ 63 - 1 → alloc_wf (AddDataNode c a).
Proof.
  intros (H1 & H2 & H3 & H4) Hl. unfold AddDataNode. case_decide; [done|].
  unfold alloc_wf. simpl. rewrite length_app. simpl.
  rewrite u64_small by (unfold is_u64; lia). repeat split; try lia.
  intros Hn. by destruct (dataNodes c).
Qed.

(** One allocation from a well-formed, non-empty allocator. *)
Lemma AllocateNode_step c :
  alloc_wf c → dataNodes c ≠ [] →
  ∃ n, dataNodes c !! Z.to_nat (curPos c) = Some n ∧
  AllocateNode c =
    Some (Ok (address n),
          {| dataNodes := dataNodes c; dataNodesSet := dataNodesSet c;
             curPos := (curPos c + 1) mod Z.of_nat (length (dataNodes c)) |}).
Proof.
  intros (H1 & H2 & _ & H4) Hn. specialize (H4 Hn).
  destruct (lookup_lt_is_Some_2 (dataNodes c) (Z.to_nat (curPos c))) as [n Hl]; [lia|].
  exists n. split; [done|]. unfold AllocateNode.
  rewrite decide_False by (destruct (dataNodes c); [done|simpl; lia]).
  rewrite Hl. simpl. rewrite u64_small by (unfold is_u64; lia). done.
Qed.

Lemma AllocateNode_wf c r c' :
  alloc_wf c → AllocateNode c = Some (r, c') → alloc_wf c' ∧ dataNodes c' = dataNodes c.
Proof.
  intros Hwf Ha. destruct (decide (dataNodes c = [])) as [He|Hn].
  - unfold AllocateNode in Ha. rewrite He in Ha. simpl in Ha. by simplify_eq.
  - destruct (AllocateNode_step c Hwf Hn) as (n & _ & Hs). rewrite Hs in Ha. simplify_eq.
    split; [|done]. destruct Hwf as (H1 & H2 & H3 & H4). unfold alloc_wf. simpl.
    assert (0 < Z.of_nat (length (dataNodes c))) by (destruct (dataNodes c); [done|simpl; lia]).
    pose proof (Z.mod_pos_bound (curPos c + 1) (Z.of_nat (length (dataNodes c)))).
    repeat split; try lia; try done.
Qed.

(** A well-formed allocator never panics. *)
Lemma AllocateNode_total c : alloc_wf c → is_Some (AllocateNode c).
Proof.
  intros Hwf. destruct (decide (dataNodes c = [])) as [He|Hn].
  - unfold AllocateNode. rewrite He. by eexists.
  - destruct (AllocateNode_step c Hwf Hn) as (n & _ & Hs). rewrite Hs. by eexists.
Qed.

(** [n] allocations in a row, with the addresses they return. *)
Fixpoint allocate_many (n : nat) (c : DataNodeAllocator)
  : option (list string * DataNodeAllocator) :=
  match n with
  | O => Some ([], c)
  | S n' =>
      '(r, c1) ← AllocateNode c;
      match r with
      | Err _ => None
      | Ok a => '(l, c2) ← allocate_many n' c1; Some (a :: l, c2)
      end
  end.

Lemma allocate_many_addresses n c :
  alloc_wf c → dataNodes c ≠ [] →
  ∃ l c', allocate_many n c = Some (l, c') ∧ dataNodes c' = dataNodes c ∧ alloc_wf c'
    ∧ curPos c' = (curPos c + Z.of_nat n) mod Z.of_nat (length (dataNodes c))
    ∧ length l = n
    ∧ ∀ i, (i < n)%nat →
        l !! i = address <$> dataNodes c !! Z.to_nat
                   ((curPos c + Z.of_nat i) mod Z.of_nat (length (dataNodes c))).
Proof.
  revert c. induction n as [|n IH]; intros c Hwf Hn.
  - exists [], c. split; [done|]. split; [done|]. split; [done|].
    split; [|split; [done|intros; lia]].
    destruct Hwf as (H1 & _ & _ & H4). specialize (H4 Hn). simpl.
    rewrite Z.add_0_r, Z.mod_small; lia.
  - destruct (AllocateNode_step c Hwf Hn) as (nd & Hl & Hs).
    destruct (AllocateNode_wf _ _ _ Hwf Hs) as [Hwf' _].
    destruct (IH _ Hwf' Hn) as (l & c' & Hm & Hd & Hw & Hp & Hlen & Hi).
    cbn [allocate_many]. rewrite Hs. cbn [mbind option_bind]. rewrite Hm.
    eexists _, _. split; [done|]. simpl in *.
    split; [done|]. split; [done|]. split; [|split; [by rewrite Hlen|]].
    + rewrite Hp, Zplus_mod_idemp_l. f_equal. lia.
    + intros [|i] Hlt; simpl.
      * destruct Hwf as (H1 & _ & _ & H4). specialize (H4 Hn).
        rewrite Z.add_0_r, Z.mod_small by lia. by rewrite Hl.
      * rewrite Hi by lia. rewrite Zplus_mod_idemp_l.
        do 4 f_equal. lia.
Qed.

Lemma allocate_many_set n c l c' :
  allocate_many n c = Some (l, c') → dataNodesSet c' = dataNodesSet c.
Proof.
  revert c l c'. induction n as [|n IH]; intros c l c' Hm; simpl in Hm; [by simplify_eq|].
  destruct (AllocateNode c) as [[r c1]|] eqn:E; [|done]. simpl in Hm.
  assert (dataNodesSet c1 = dataNodesSet c) as Hs.
  { unfold AllocateNode in E. case_decide; [by simplify_eq|].
    destruct (dataNodes c !! Z.to_nat (curPos c)); [|done]. simpl in E. by simplify_eq. }
  destruct r; [|done]. destruct (allocate_many n c1) as [[l2 c2]|] eqn:E2; [|done].
  simpl in Hm. simplify_eq. rewrite <- Hs. by apply (IH c1 l2).
Qed.

(** Load balance: from a well-formed allocator with [k] groups, [k]
    allocations in a row return every group's address exactly as often as the
    node list holds it, and bring the allocator back to its state. *)
Theorem round_robin_balanced c :
  alloc_wf c → dataNodes c ≠ [] →
  ∃ l, allocate_many (length (dataNodes c)) c = Some (l, c)
    ∧ l ≡ₚ address <$> dataNodes c.
Proof.
  intros Hwf Hn.
  destruct (allocate_many_addresses (length (dataNodes c)) c Hwf Hn)
    as (l & c' & Hm & Hd & Hw & Hp & Hlen & Hi).
  pose proof Hwf as (H1 & _ & _ & H4). specialize (H4 Hn).
  set (k := length (dataNodes c)) in *.
  assert (c' = c) as ->.
  { assert (dataNodesSet c' = dataNodesSet c) as Hset.
    { by apply (allocate_many_set k c l). }
    assert (curPos c' = curPos c) as Hpc.
    { rewrite Hp, <- (Z.mul_1_l (Z.of_nat k)) at 1. rewrite Z_mod_plus_full.
      apply Z.mod_small. lia. }
    clear -Hd Hset Hpc. destruct c, c'. simpl in *. by subst. }
  exists l. split; [done|].
  set (p := Z.to_nat (curPos c)).
  assert (p < k)%nat by lia.
  assert (l = address <$> (drop p (dataNodes c) ++ take p (dataNodes c))) as ->.
  { apply list_eq. intros i. destruct (decide (i < k)%nat) as [Hik|Hik].
    - rewrite Hi by lia. rewrite list_lookup_fmap. f_equal.
      destruct (decide (i < k - p)%nat).
      + rewrite lookup_app_l by (rewrite length_drop; lia). rewrite lookup_drop.
        rewrite Z.mod_small by lia. f_equal. lia.
      + rewrite lookup_app_r by (rewrite length_drop; lia).
        rewrite length_drop, lookup_take_lt by lia.
        replace (curPos c + Z.of_nat i) with (curPos c + Z.of_nat i - Z.of_nat k + 1 * Z.of_nat k)
          by lia.
        rewrite Z_mod_plus_full, Z.mod_small by lia. f_equal. lia.
    - rewrite !lookup_ge_None_2; [done| |lia].
      rewrite length_fmap, length_app, length_drop, length_take. lia. }
  rewrite fmap_app, Permutation_app_comm, <- fmap_app, take_drop. done.
Qed.

Lemma round_robin_balanced_witness :
  ∃ l, allocate_many 3 (NewDataNodeAllocatorWithGroups ["g1"; "g2"; "g3"])
       = Some (l, NewDataNodeAllocatorWithGroups ["g1"; "g2"; "g3"])
    ∧ l ≡ₚ ["g1"; "g2"; "g3"].
Proof.
  apply (round_robin_balanced (NewDataNodeAllocatorWithGroups ["g1"; "g2"; "g3"])).
  - apply alloc_wf_groups. simpl. lia.
  - done.
Defined.

(** [NewDataNodeAllocator] does not start empty: it holds one node with an
    empty address, so allocating from it succeeds with address [""] instead of
    returning [NoDataNodeError]; an allocator over no groups does return it. *)
Theorem fresh_allocator_not_empty :
  fst <$> AllocateNode NewDataNodeAllocator = Some (Ok "")
  ∧ fst <$> AllocateNode (NewDataNodeAllocatorWithGroups []) = Some (Err mkNoDataNodeError).
Proof. split; reflexivity. Qed.
