(* ===== verification/MasterData.v ===== *)
(** MasterData: the metadata records of the master and the database that keeps
    their checkpoint.

    Source: sheetfs/master/{config/config.go, sheetfile/cell.go, sheetfile/chunk.go
    (the stored columns), filemgr/mgr_entry/mapentry.go,
    journal/checkpoint/checkpoint.go, model/model.go}.

    The database is gorm over sqlite, which is not part of this repository: it
    is the class [MetaDB], with what the code relies on as its laws
    [MetaDBLaws].  [MemDB] is an in-memory instance of both, used by the
    concrete examples.  Bookkeeping columns of gorm.Model (timestamps, soft
    delete) are never read by the program and are left out. *)
From Stdlib Require Import ZArith Lia Permutation.
From stdpp Require Import gmap strings list fin_maps.
From S2P Require Import Prelude.
Open Scope Z_scope.

(** ** config.go *)
Definition MaxCellsPerChunk : Z := 4.
Definition BytesPerChunk : Z := 8192.
Definition MaxBytesPerCell : Z := BytesPerChunk / MaxCellsPerChunk.
Definition SheetMetaCellRow : Z := 2 ^ 32 - 1.
Definition SheetMetaCellCol : Z := 2 ^ 32 - 1.
Definition SheetMetaCellID : Z := -1.

(** ** Cell *)
Record Cell := mkCell {
  Cell_ID : Z;       (** gorm.Model.ID: 0 until the row is inserted *)
  CellID : Z;
  Offset : Z;
  Size : Z;
  ChunkID : Z;
  SheetName : string (** not stored: [gorm:"-"] *)
}.

#[export] Instance Cell_eq_decision : EqDecision Cell.
Proof. solve_decision. Defined.

Definition NewCell (cellID offset size chunkID : Z) (sheetName : string) : Cell :=
  mkCell 0 cellID offset size chunkID sheetName.

Definition GetCellTableName (sheetName : string) : string := "cells_" +:+ sheetName.

Definition TableName (c : Cell) : string := GetCellTableName (SheetName c).

(** [int64(row)<<32 | int64(col)]: the shift wraps in 64 bits. *)
Definition GetCellID (row col : Z) : Z := Z.lor (i64 (Z.shiftl row 32)) col.

Definition IsMeta (c : Cell) : bool := CellID c =? SheetMetaCellID.

Definition with_Cell_ID (c : Cell) (id : Z) : Cell :=
  mkCell id (CellID c) (Offset c) (Size c) (ChunkID c) (SheetName c).
Definition with_SheetName (c : Cell) (n : string) : Cell :=
  mkCell (Cell_ID c) (CellID c) (Offset c) (Size c) (ChunkID c) n.

(** ** The stored columns of a chunk, and directory entries *)
Record ChunkRow := { row_ID : Z; row_DataNode : string; row_Version : Z }.

(** [RecycledAt] is an instant in nanoseconds since 1970. *)
Record MapEntry := mkMapEntry {
  Entry_ID : Z;
  FileName : string;
  CellsTableName : string;
  Recycled : bool;
  RecycledAt : Z
}.

#[export] Instance MapEntry_eq_decision : EqDecision MapEntry.
Proof. solve_decision. Defined.

(** Go's zero [time.Time], January 1, year 1. *)
Definition zero_time : Z := -62135596800 * 10 ^ 9.

(** ** SQL statements of [create_tmpl] *)
Inductive Stmt :=
| CreateTable (name : string)
| CreateIndex (index table column : string).

#[export] Instance Stmt_eq_decision : EqDecision Stmt.
Proof. solve_decision. Defined.

(** The template rendered for a table name. *)
Definition create_tmpl (name : string) : list Stmt :=
  [CreateTable name;
   CreateIndex ("idx_" +:+ name +:+ "_cell_id") name "cell_id";
   CreateIndex ("idx_" +:+ name +:+ "_deleted_at") name "deleted_at"].

(** ** The database *)
Inductive DBError := mkDBError (msg : string).

Class MetaDB (db : Type) := {
  (** [SELECT name FROM sqlite_master WHERE type='table' AND name=?] *)
  db_query_table : db → string → result DBError bool;
  (** [rawdb.Exec] of a list of statements *)
  db_exec : db → list Stmt → result DBError db;
  (** [tx.Clauses(OnConflict{UpdateAll}).Create(chunk)]: the row's id, and the
      database; an id of 0 asks for an autoincremented one.  A create that fails leaves
      both as they were; the callers do not look at its error. *)
  db_create_chunk : db → ChunkRow → Z * db;
  (** [tx.First(&c, id)] *)
  db_first_chunk : db → Z → option ChunkRow;
  (** [tx.Table(t).Clauses(OnConflict{UpdateAll}).Create(cell)] *)
  db_create_cell : db → string → Cell → Z * db;
  (** [db.Table(t).Find(&cells)] *)
  db_find_cells : db → string → list Cell;
  (** [tx.Save(entry)] *)
  db_save_entry : db → MapEntry → Z * db;
  (** [db.Find(&entries)] *)
  db_find_entries : db → list MapEntry;
  (** row 1 of the checkpoint table: [db.First(&ckpt, 1)], [Create], [Save] *)
  db_first_ckpt : db → option Z;
  db_save_ckpt : db → Z → db;
  (** an error when a transaction that ran from the first to the second
      database is committed; the transaction is then rolled back *)
  db_commit_err : db → db → option DBError
}.

(** What sqlite and gorm document about these operations, as far as the code
    relies on it: a database whose inserts succeed. *)
Class MetaDBLaws (db : Type) `{MetaDB db} : Prop := {
  (** autoincrement never hands out the id of an existing row, nor 0 *)
  create_chunk_fresh : ∀ d c id d', row_ID c = 0 → db_create_chunk d c = (id, d') →
    0 < id ∧ db_first_chunk d id = None
    ∧ ∀ k, db_first_chunk d' k
           = if decide (k = id) then Some {| row_ID := id; row_DataNode := row_DataNode c;
                                             row_Version := row_Version c |}
             else db_first_chunk d k;
  (** a chunk that has an id is inserted or overwritten under that id *)
  create_chunk_upsert : ∀ d c id d', row_ID c ≠ 0 → db_create_chunk d c = (id, d') →
    id = row_ID c
    ∧ ∀ k, db_first_chunk d' k = if decide (k = id) then Some c else db_first_chunk d k;
  (** the other tables are separate *)
  exec_chunks : ∀ d l d', db_exec d l = Ok d' → db_first_chunk d' = db_first_chunk d;
  exec_cells : ∀ d l d', db_exec d l = Ok d' → db_find_cells d' = db_find_cells d;
  create_cell_chunks : ∀ d t c id d', db_create_cell d t c = (id, d') →
    db_first_chunk d' = db_first_chunk d;
  save_entry_chunks : ∀ d e id d', db_save_entry d e = (id, d') →
    db_first_chunk d' = db_first_chunk d;
  (** the checkpoint row reads back what was saved last *)
  first_save_ckpt : ∀ d o, db_first_ckpt (db_save_ckpt d o) = Some o;
  save_ckpt_cells : ∀ d o, db_find_cells (db_save_ckpt d o) = db_find_cells d
}.

Section db_operations.
Context `{MetaDB db}.

Definition CreateCellTableIfNotExists (d : db) (sheetName : string) : result DBError db :=
  match db_query_table d (GetCellTableName sheetName) with
  | Err e => Err e
  | Ok true => Ok d
  | Ok false => db_exec d (create_tmpl (GetCellTableName sheetName))
  end.

Definition GetSheetCellsAll (d : db) (sheetName : string) : list Cell :=
  (λ c, with_SheetName c "") <$> db_find_cells d (GetCellTableName sheetName).

(** [Cell.Persistent]: [Create] writes the row id back into the cell. *)
Definition Cell_Persistent (d : db) (c : Cell) : Cell * db :=
  let '(id, d') := db_create_cell d (TableName c) c in (with_Cell_ID c id, d').

(** *** checkpoint.go *)
Definition getCheckpointInDB (d : db) : Z * db :=
  match db_first_ckpt d with
  | Some o => (o, d)
  | None => (0, db_save_ckpt d 0)
  end.

Definition RecordCheckpoint (d : db) (newStartOffset : Z) : db :=
  let '(_, d') := getCheckpointInDB d in db_save_ckpt d' newStartOffset.

Definition ReadCheckpoint (d : db) : Z * db := getCheckpointInDB d.

(** A node that restarts reads the offset of the last recorded checkpoint,
    and offset 0 when none was recorded; reading does not change it. *)
Theorem checkpoint_round_trip `{!MetaDBLaws db} d o :
  ReadCheckpoint (RecordCheckpoint d o) = (o, RecordCheckpoint d o)
  ∧ (db_first_ckpt d = None → fst (ReadCheckpoint d) = 0
     ∧ fst (ReadCheckpoint (snd (ReadCheckpoint d))) = 0).
Proof.
  split.
  - unfold ReadCheckpoint, RecordCheckpoint.
    destruct (getCheckpointInDB d) as [o' d']. unfold getCheckpointInDB.
    by rewrite first_save_ckpt.
  - intros E. unfold ReadCheckpoint, getCheckpointInDB. rewrite E. simpl.
    by rewrite first_save_ckpt.
Qed.

End db_operations.

(** Creating a cell table touches no other table. *)
Lemma create_table_rows `{MetaDBLaws db} (d d' : db) name :
  CreateCellTableIfNotExists d name = Ok d' →
  db_first_chunk d' = db_first_chunk d ∧ db_find_cells d' = db_find_cells d.
Proof.
  unfold CreateCellTableIfNotExists. destruct (db_query_table d _) as [[]|]; [by intros [= <-]| |done].
  intros E. split; [by eapply exec_chunks|by eapply exec_cells].
Qed.

(** ** Cell identifiers *)
Lemma i64_row row :
  is_u32 row →
  i64 (Z.shiftl row 32) = (if row <? 2 ^ 31 then row else row - 2 ^ 32) * 2 ^ 32.
Proof.
  unfold is_u32. intros H. rewrite Z.shiftl_mul_pow2 by lia. unfold i64.
  destruct (Z.ltb_spec row (2 ^ 31)).
  - rewrite Z.mod_small by lia. lia.
  - replace (row * 2 ^ 32 + 2 ^ 63)
      with ((row - 2 ^ 32) * 2 ^ 32 + 2 ^ 63 + 1 * 2 ^ 64) by lia.
    rewrite Z_mod_plus_full, Z.mod_small by lia. lia.
Qed.

Lemma land_high_low a b : 0 <= b < 2 ^ 32 → Z.land (a * 2 ^ 32) b = 0.
Proof.
  intros Hb. apply Z.bits_inj'. intros k Hk. rewrite Z.land_spec, Z.bits_0.
  destruct (Z.ltb_spec k 32); [by rewrite Z.mul_pow2_bits_low by lia|].
  replace b with (b mod 2 ^ 32) by (apply Z.mod_small; lia).
  rewrite Z.mod_pow2_bits_high by lia. apply andb_false_r.
Qed.

Lemma GetCellID_sum row col :
  is_u32 row → is_u32 col →
  GetCellID row col = (if row <? 2 ^ 31 then row else row - 2 ^ 32) * 2 ^ 32 + col.
Proof.
  intros Hr Hc. unfold GetCellID. rewrite i64_row by done.
  pose proof (land_high_low (if row <? 2 ^ 31 then row else row - 2 ^ 32) col Hc) as Hl.
  by rewrite <- Z.lxor_lor, <- Z.add_nocarry_lxor by exact Hl.
Qed.

Lemma GetCellID_inj r1 c1 r2 c2 :
  is_u32 r1 → is_u32 c1 → is_u32 r2 → is_u32 c2 →
  GetCellID r1 c1 = GetCellID r2 c2 → r1 = r2 ∧ c1 = c2.
Proof.
  intros H1 H2 H3 H4. rewrite !GetCellID_sum by done. unfold is_u32 in *.
  destruct (Z.ltb_spec r1 (2 ^ 31)), (Z.ltb_spec r2 (2 ^ 31)); lia.
Qed.

Lemma GetCellID_meta row col :
  is_u32 row → is_u32 col →
  GetCellID row col = SheetMetaCellID ↔ row = SheetMetaCellRow ∧ col = SheetMetaCellCol.
Proof.
  intros H1 H2. rewrite GetCellID_sum by done.
  unfold is_u32, SheetMetaCellID, SheetMetaCellRow, SheetMetaCellCol in *.
  destruct (Z.ltb_spec row (2 ^ 31)); lia.
Qed.

(** C40. [GetCellID] is a faithful index of the sheet: distinct positions have
    distinct identifiers, every identifier fits the signed column it is stored
    in, and the identifier of the MetaCell position is [SheetMetaCellID] and
    that of no other position. *)
Theorem cell_id_faithful r1 c1 r2 c2 :
  is_u32 r1 → is_u32 c1 → is_u32 r2 → is_u32 c2 →
  (GetCellID r1 c1 = GetCellID r2 c2 ↔ r1 = r2 ∧ c1 = c2)
  ∧ is_i64 (GetCellID r1 c1)
  ∧ (GetCellID r1 c1 = SheetMetaCellID ↔ r1 = SheetMetaCellRow ∧ c1 = SheetMetaCellCol).
Proof.
  intros H1 H2 H3 H4. split; [|split].
  - split; [by apply GetCellID_inj|]. by intros [-> ->].
  - rewrite GetCellID_sum by done. unfold is_u32, is_i64 in *.
    destruct (Z.ltb_spec r1 (2 ^ 31)); lia.
  - by apply GetCellID_meta.
Qed.

Lemma cell_id_faithful_witness :
  (GetCellID 4294967295 0 = GetCellID 0 7 ↔ 4294967295 = 0 ∧ 0 = 7)
  ∧ is_i64 (GetCellID 4294967295 0)
  ∧ (GetCellID 4294967295 0 = SheetMetaCellID ↔ 4294967295 = SheetMetaCellRow ∧ 0 = SheetMetaCellCol).
Proof. apply cell_id_faithful; unfold is_u32; lia. Defined.

(** ** An in-memory database *)
Record MemDB := {
  m_tables : list string;
  m_chunks : gmap Z ChunkRow;
  m_cells : gmap string (list Cell);
  m_entries : list MapEntry;
  m_ckpt : option Z
}.

Definition mem_empty : MemDB :=
  {| m_tables := []; m_chunks := ∅; m_cells := ∅; m_entries := []; m_ckpt := None |}.

(** The largest key of a table, 0 when it is empty. *)
Definition max_key {A} (m : gmap Z A) : Z := map_fold (λ k _ acc, Z.max k acc) 0 m.

Lemma max_key_le {A} (m : gmap Z A) k x : m !! k = Some x → k <= max_key m.
Proof.
  unfold max_key. revert k x.
  apply (map_fold_weak_ind (λ acc m, ∀ k x, m !! k = Some x → k <= acc)).
  - intros k x. by rewrite lookup_empty.
  - intros i y m' acc _ IH k x. destruct (decide (i = k)) as [->|]; [lia|].
    rewrite lookup_insert_ne by done. intros Hk. apply IH in Hk. lia.
Qed.

Lemma max_key_nonneg {A} (m : gmap Z A) : 0 <= max_key m.
Proof.
  unfold max_key. apply (map_fold_weak_ind (λ acc _, 0 <= acc)); [lia|]. intros. lia.
Qed.

Definition mem_upsert {A} (id : A → Z) (x : A) (l : list A) : list A :=
  if decide (Exists (λ y, id y = id x) l)
  then (λ y, if decide (id y = id x) then x else y) <$> l
  else l ++ [x].

Definition next_id {A} (id : A → Z) (l : list A) : Z :=
  1 + foldr (λ y acc, Z.max (id y) acc) 0 l.

Definition mem_create_chunk (d : MemDB) (c : ChunkRow) : Z * MemDB :=
  let id := if row_ID c =? 0 then 1 + max_key (m_chunks d) else row_ID c in
  (id, {| m_tables := m_tables d;
          m_chunks := <[id := {| row_ID := id; row_DataNode := row_DataNode c;
                                 row_Version := row_Version c |}]> (m_chunks d);
          m_cells := m_cells d; m_entries := m_entries d; m_ckpt := m_ckpt d |}).

Definition mem_create_cell (d : MemDB) (t : string) (c : Cell) : Z * MemDB :=
  let rows := default [] (m_cells d !! t) in
  let id := if Cell_ID c =? 0 then next_id Cell_ID rows else Cell_ID c in
  (id, {| m_tables := m_tables d; m_chunks := m_chunks d;
          m_cells := <[t := mem_upsert Cell_ID (with_Cell_ID c id) rows]> (m_cells d);
          m_entries := m_entries d; m_ckpt := m_ckpt d |}).

Definition mem_save_entry (d : MemDB) (e : MapEntry) : Z * MemDB :=
  let id := if Entry_ID e =? 0 then next_id Entry_ID (m_entries d) else Entry_ID e in
  (id, {| m_tables := m_tables d; m_chunks := m_chunks d; m_cells := m_cells d;
          m_entries := mem_upsert Entry_ID
            (mkMapEntry id (FileName e) (CellsTableName e) (Recycled e) (RecycledAt e))
            (m_entries d);
          m_ckpt := m_ckpt d |}).

#[export] Instance MemDB_ops : MetaDB MemDB := {|
  db_query_table d t := Ok (bool_decide (t ∈ m_tables d));
  db_exec d l := Ok {| m_tables := m_tables d ++
                         omap (λ s, match s with CreateTable t => Some t | _ => None end) l;
                       m_chunks := m_chunks d; m_cells := m_cells d;
                       m_entries := m_entries d; m_ckpt := m_ckpt d |};
  db_create_chunk := mem_create_chunk;
  db_first_chunk d k := m_chunks d !! k;
  db_create_cell := mem_create_cell;
  db_find_cells d t := default [] (m_cells d !! t);
  db_save_entry := mem_save_entry;
  db_find_entries := m_entries;
  db_first_ckpt := m_ckpt;
  db_save_ckpt d o := {| m_tables := m_tables d; m_chunks := m_chunks d;
                         m_cells := m_cells d; m_entries := m_entries d; m_ckpt := Some o |};
  db_commit_err _ _ := None
|}.

#[export] Instance MemDB_laws : MetaDBLaws MemDB.
Proof.
  split; simpl.
  - intros d c id d' Hid. unfold mem_create_chunk. rewrite Hid, Z.eqb_refl.
    intros E. injection E as <- <-.
    pose proof (max_key_nonneg (m_chunks d)). split; [lia|]. split.
    + destruct (m_chunks d !! _) eqn:E; [|done]. apply max_key_le in E. lia.
    + intros k. simpl. case_decide as Hk; [subst; by rewrite lookup_insert_eq|].
      by rewrite lookup_insert_ne.
  - intros d c id d' Hid. unfold mem_create_chunk. rewrite (proj2 (Z.eqb_neq _ _) Hid).
    intros E. injection E as <- <-. split; [done|]. intros k. simpl.
    case_decide as Hk; [subst; rewrite lookup_insert_eq; by destruct c|].
    by rewrite lookup_insert_ne.
  - intros d l d' E. by injection E as <-.
  - intros d l d' E. by injection E as <-.
  - intros d t c id d' E. unfold mem_create_cell in E. by injection E as _ <-.
  - intros d e id d' E. unfold mem_save_entry in E. by injection E as _ <-.
  - done.
  - done.
Qed.

Lemma checkpoint_round_trip_witness :
  ReadCheckpoint (RecordCheckpoint mem_empty 17) = (17, RecordCheckpoint mem_empty 17)
  ∧ (db_first_ckpt mem_empty = None → fst (ReadCheckpoint mem_empty) = 0
     ∧ fst (ReadCheckpoint (snd (ReadCheckpoint mem_empty))) = 0).
Proof. apply (checkpoint_round_trip mem_empty 17). Defined.
