(* ===== verification/SheetFile.v ===== *)
(** SheetFile: the sheet files of the master, with their pointers.

    Source: sheetfs/master/sheetfile/{sheetfile.go, chunk.go, cell.go} and
    sheetfs/master/filemgr/file_errors/errors.go.

    A SheetFile reaches its chunks and cells through pointers, and a chunk
    reaches its cells through a slice whose backing array is shared by the
    copies of the chunk that [Snapshot] makes.  Since no object belongs to two
    files, each file carries its own object store: cells, chunks and backing
    arrays by location, location 0 being nil.  The file's mutex makes each
    method one step. *)
From Stdlib Require Import ZArith Lia Permutation.
From stdpp Require Import gmap strings list fin_maps.
From S2P Require Import Prelude.
From S2P Require Import DataNodeAlloc.
From S2P Require Import MasterData.
Open Scope Z_scope.

Abbreviation loc := nat.

(** A Go slice of cell pointers; its capacity is the length of the array. *)
Record slice := mkSlice { s_arr : loc; s_len : nat }.
Definition nil_slice : slice := mkSlice 0 0.

Record Chunk := mkChunk {
  Chunk_ID : Z;
  DataNode : string;
  Version : Z;
  Chunk_Cells : slice
}.

Record SheetFile := mkFile {
  cell_objs : gmap loc Cell;
  chunk_objs : gmap loc Chunk;
  arrays : gmap loc (list loc);
  next_loc : loc;
  Chunks : gmap Z loc;
  Cells : gmap Z loc;
  LastAvailableChunk : loc;
  filename : string
}.

(** ** Errors of the master *)
Inductive MasterError :=
| FileNotFoundError (filename : string)
| FileExistsError (filename : string)
| FdNotFoundError (fd : Z)
| CellNotFoundError (row col : Z)
| NoDataNode
| InvalidJournalEntryError
| DBErr (e : DBError)
| JournalErr.

(** ** Object store primitives *)
Abbreviation FileM := (GoM SheetFile).

Definition set_cell_obj (f : SheetFile) (l : loc) (c : Cell) : SheetFile :=
  mkFile (<[l := c]> (cell_objs f)) (chunk_objs f) (arrays f) (next_loc f)
    (Chunks f) (Cells f) (LastAvailableChunk f) (filename f).
Definition set_chunk_obj (f : SheetFile) (l : loc) (c : Chunk) : SheetFile :=
  mkFile (cell_objs f) (<[l := c]> (chunk_objs f)) (arrays f) (next_loc f)
    (Chunks f) (Cells f) (LastAvailableChunk f) (filename f).
Definition set_array (f : SheetFile) (l : loc) (a : list loc) : SheetFile :=
  mkFile (cell_objs f) (chunk_objs f) (<[l := a]> (arrays f)) (next_loc f)
    (Chunks f) (Cells f) (LastAvailableChunk f) (filename f).
Definition bump (f : SheetFile) : SheetFile :=
  mkFile (cell_objs f) (chunk_objs f) (arrays f) (S (next_loc f))
    (Chunks f) (Cells f) (LastAvailableChunk f) (filename f).
Definition set_Chunks (f : SheetFile) (m : gmap Z loc) : SheetFile :=
  mkFile (cell_objs f) (chunk_objs f) (arrays f) (next_loc f)
    m (Cells f) (LastAvailableChunk f) (filename f).
Definition set_Cells (f : SheetFile) (m : gmap Z loc) : SheetFile :=
  mkFile (cell_objs f) (chunk_objs f) (arrays f) (next_loc f)
    (Chunks f) m (LastAvailableChunk f) (filename f).
Definition set_LastAvailableChunk (f : SheetFile) (l : loc) : SheetFile :=
  mkFile (cell_objs f) (chunk_objs f) (arrays f) (next_loc f)
    (Chunks f) (Cells f) l (filename f).

Definition alloc_cell (c : Cell) : FileM loc :=
  λ f, Some (next_loc f, bump (set_cell_obj f (next_loc f) c)).
Definition alloc_chunk (c : Chunk) : FileM loc :=
  λ f, Some (next_loc f, bump (set_chunk_obj f (next_loc f) c)).
Definition alloc_array (a : list loc) : FileM loc :=
  λ f, Some (next_loc f, bump (set_array f (next_loc f) a)).

Definition load_cell (l : loc) : FileM Cell := λ f, go_deref (cell_objs f !! l) f.
Definition load_chunk (l : loc) : FileM Chunk := λ f, go_deref (chunk_objs f !! l) f.
Definition store_cell (l : loc) (c : Cell) : FileM () := go_modify (λ f, set_cell_obj f l c).
Definition store_chunk (l : loc) (c : Chunk) : FileM () := go_modify (λ f, set_chunk_obj f l c).

Definition backing (f : SheetFile) (sl : slice) : list loc := default [] (arrays f !! s_arr sl).

(** [sl[i]] and [sl[i] = l]. *)
Definition slice_get (sl : slice) (i : nat) : FileM loc :=
  λ f, if decide (i < s_len sl)%nat then go_deref (backing f sl !! i) f else None.
Definition slice_set (sl : slice) (i : nat) (l : loc) : FileM () :=
  λ f, if decide (i < s_len sl ∧ i < length (backing f sl))%nat
       then Some ((), set_array f (s_arr sl) (<[i := l]> (backing f sl)))
       else None.

(** [append(sl, l)]: in place when there is spare capacity, otherwise into a
    new array of twice the size. *)
Definition slice_append (sl : slice) (l : loc) : FileM slice :=
  λ f,
    let a := backing f sl in
    if decide (s_len sl < length a)%nat
    then Some (mkSlice (s_arr sl) (S (s_len sl)), set_array f (s_arr sl) (<[s_len sl := l]> a))
    else
      let a' := take (s_len sl) a ++ [l] ++ replicate (s_len sl - 1) 0%nat in
      (na ← alloc_array a'; mret (mkSlice na (S (s_len sl)))) f.

(** ** chunk.go *)

(** The cells of a slice, in order. *)
Fixpoint load_slice_from (sl : slice) (i n : nat) : FileM (list Cell) :=
  match n with
  | O => mret []
  | S n' =>
      l ← slice_get sl i;
      c ← load_cell l;
      cs ← load_slice_from sl (S i) n';
      mret (c :: cs)
  end.
Definition load_slice (sl : slice) : FileM (list Cell) := load_slice_from sl 0 (s_len sl).

Definition used_bytes (cs : list Cell) : Z := foldl (λ used c, u64 (used + Size c)) 0 cs.

Definition isAvailable (l : loc) (size : Z) : FileM bool :=
  c ← load_chunk l;
  cs ← load_slice (Chunk_Cells c);
  let remains := u64 (BytesPerChunk - used_bytes cs) in
  mret (size <=? remains).

(** [Chunk.Snapshot] copies the struct, and with it the slice header: the
    copies of the cells are written into the array of the original. *)
Fixpoint snapshot_cells (sl : slice) (i n : nat) : FileM () :=
  match n with
  | O => mret ()
  | S n' =>
      l ← slice_get sl i;
      c ← load_cell l;
      l' ← alloc_cell c;
      slice_set sl i l' ≫= λ _,
      snapshot_cells sl (S i) n'
  end.

Definition Chunk_Snapshot (l : loc) : FileM Chunk :=
  c ← load_chunk l;
  snapshot_cells (Chunk_Cells c) 0 (s_len (Chunk_Cells c)) ≫= λ _,
  mret c.

(** [Cell.Snapshot]: a copy of the struct. *)
Definition Cell_Snapshot (l : loc) : FileM Cell := load_cell l.

(** ** The state a method works on *)
Record World (db : Type) := mkWorld {
  w_file : SheetFile;
  w_alloc : DataNodeAllocator;
  w_db : db
}.
Arguments mkWorld {db} _ _ _.
Arguments w_file {db} _.
Arguments w_alloc {db} _.
Arguments w_db {db} _.

Section sheetfile.
Context {db : Type} `{!MetaDB db} {RO : RangeOrder}.

Abbreviation WM := (GoM (World db)).

Definition on_file {A} (m : FileM A) : WM A :=
  λ w, match m (w_file w) with
       | Some (a, f) => Some (a, mkWorld f (w_alloc w) (w_db w))
       | None => None
       end.

Definition allocate_node : WM (result NoDataNodeError string) :=
  λ w, match AllocateNode (w_alloc w) with
       | Some (r, a) => Some (r, mkWorld (w_file w) a (w_db w))
       | None => None
       end.

Definition row_of (c : Chunk) : ChunkRow :=
  {| row_ID := Chunk_ID c; row_DataNode := DataNode c; row_Version := Version c |}.

(** [Chunk.Persistent]: [Create] writes the row id back into the chunk.  Its error is
    dropped: when the insert fails the chunk keeps the id it had. *)
Definition Chunk_Persistent (l : loc) : WM () :=
  c ← on_file (load_chunk l);
  w ← go_get;
  let '(id, d) := db_create_chunk (w_db w) (row_of c) in
  go_put (mkWorld (set_chunk_obj (w_file w) l
                     (mkChunk id (DataNode c) (Version c) (Chunk_Cells c)))
            (w_alloc w) d).

(** ** sheetfile.go *)
Definition empty_file (name : string) : SheetFile := mkFile ∅ ∅ ∅ 1 ∅ ∅ 0 name.

(** The new file, its MetaCell and its chunk, or the error. *)
Definition CreateSheetFile (d : db) (al : DataNodeAllocator) (name : string)
  : option (result MasterError (SheetFile * Cell * Chunk) * DataNodeAllocator * db) :=
  match CreateCellTableIfNotExists d name with
  | Err e => Some (Err (DBErr e), al, d)
  | Ok d =>
      '(r, al) ← AllocateNode al;
      match r with
      | Err _ => Some (Err NoDataNode, al, d)
      | Ok dataNode =>
          '(res, w) ←
            ((chunk ← on_file (alloc_chunk (mkChunk 0 dataNode 0 nil_slice));
              Chunk_Persistent chunk ≫= λ _,
              c ← on_file (load_chunk chunk);
              let metaCell := NewCell SheetMetaCellID 0 BytesPerChunk (Chunk_ID c) name in
              cl ← on_file (alloc_cell metaCell);
              arr ← on_file (alloc_array [cl]);
              let c := mkChunk (Chunk_ID c) (DataNode c) (Version c) (mkSlice arr 1) in
              on_file (store_chunk chunk c) ≫= λ _,
              on_file (go_modify (λ f, set_Chunks f (<[Chunk_ID c := chunk]> (Chunks f)))) ≫= λ _,
              on_file (go_modify (λ f, set_Cells f (<[CellID metaCell := cl]> (Cells f)))) ≫= λ _,
              mret (metaCell, c)) : WM (Cell * Chunk)) (mkWorld (empty_file name) al d);
          Some (Ok (w_file w, res.1, res.2), w_alloc w, w_db w)
      end
  end.

(** [loadChunkForFile]: the row, or the zero chunk when there is none, with the
    cells of the table that belong to it as new objects. *)
Definition loadChunkForFile (d : db) (name : string) (id : Z) : FileM loc :=
  match db_first_chunk d id with
  | None => alloc_chunk (mkChunk 0 "" 0 nil_slice)
  | Some row =>
      let rows := filter (λ c, ChunkID c = row_ID row) (GetSheetCellsAll d name) in
      ls ← foldr (λ c m, l ← alloc_cell c; ls ← m; mret (l :: ls)) (mret []) rows;
      arr ← alloc_array ls;
      alloc_chunk (mkChunk (row_ID row) (row_DataNode row) (row_Version row)
                     (mkSlice arr (length ls)))
  end.

Definition load_one_cell (d : db) (name : string) (cell : Cell) : FileM () :=
  let cell := with_SheetName cell name in
  cl ← alloc_cell cell;
  go_modify (λ f, set_Cells f (<[CellID cell := cl]> (Cells f))) ≫= λ _,
  f ← go_get;
  match Chunks f !! ChunkID cell with
  | Some _ => mret ()
  | None =>
      dataChunk ← loadChunkForFile d name (ChunkID cell);
      go_modify (λ f, set_Chunks f (<[ChunkID cell := dataChunk]> (Chunks f))) ≫= λ _,
      f ← go_get;
      if decide (LastAvailableChunk f = 0%nat) then
        av ← isAvailable dataChunk MaxBytesPerCell;
        if (av : bool) then go_modify (λ f, set_LastAvailableChunk f dataChunk) else mret ()
      else mret ()
  end.

Definition LoadSheetFile (d : db) (name : string) : option SheetFile :=
  snd <$> go_for (GetSheetCellsAll d name) (load_one_cell d name) (empty_file name).

(** The snapshots of all chunks, in the order of the map traversal. *)
Fixpoint snapshot_all (ls : list loc) : FileM (list Chunk) :=
  match ls with
  | [] => mret []
  | l :: ls' => c ← Chunk_Snapshot l; cs ← snapshot_all ls'; mret (c :: cs)
  end.

Definition GetAllChunks : FileM (list Chunk) :=
  λ f, snapshot_all (go_range (Chunks f)).*2 f.

Definition GetCellChunk (row col : Z) : FileM (result MasterError (Cell * Chunk)) :=
  λ f,
    match Cells f !! GetCellID row col with
    | None => Some (Err (CellNotFoundError row col), f)
    | Some cl =>
        (cell ← Cell_Snapshot cl;
         f ← go_get;
         chl ← go_deref (Chunks f !! ChunkID cell);
         chunk ← Chunk_Snapshot chl;
         mret (Ok (cell, chunk))) f
    end.

Definition getCellOffset (c : Chunk) : Z :=
  u64 (Z.of_nat (s_len (Chunk_Cells c)) * MaxBytesPerCell).

Definition addCellToLastAvailable (row col size : Z) : FileM loc :=
  f ← go_get;
  let last := LastAvailableChunk f in
  c ← load_chunk last;
  let cell := NewCell (GetCellID row col) (getCellOffset c) size (Chunk_ID c) (filename f) in
  cl ← alloc_cell cell;
  go_modify (λ f, set_Cells f (<[CellID cell := cl]> (Cells f))) ≫= λ _,
  sl ← slice_append (Chunk_Cells c) cl;
  store_chunk last (mkChunk (Chunk_ID c) (DataNode c) (u64 (Version c + 1)) sl) ≫= λ _,
  mret cl.

Definition WriteCellChunk (row col : Z) : WM (result MasterError (Cell * Chunk)) :=
  w ← go_get;
  match Cells (w_file w) !! GetCellID row col with
  | Some cl =>
      cell ← on_file (load_cell cl);
      dataChunk ← go_deref (Chunks (w_file w) !! ChunkID cell);
      c ← on_file (load_chunk dataChunk);
      on_file (store_chunk dataChunk
                 (mkChunk (Chunk_ID c) (DataNode c) (u64 (Version c + 1)) (Chunk_Cells c))) ≫= λ _,
      cs ← on_file (Cell_Snapshot cl);
      ch ← on_file (Chunk_Snapshot dataChunk);
      mret (Ok (cs, ch))
  | None =>
      let newCellSize :=
        if (row =? SheetMetaCellRow) && (col =? SheetMetaCellCol)
        then BytesPerChunk else MaxBytesPerCell in
      available ←
        (if decide (LastAvailableChunk (w_file w) = 0%nat) then mret false
         else on_file (isAvailable (LastAvailableChunk (w_file w)) newCellSize));
      if (available : bool) then
        cl ← on_file (addCellToLastAvailable row col newCellSize);
        cs ← on_file (Cell_Snapshot cl);
        w ← go_get;
        ch ← on_file (Chunk_Snapshot (LastAvailableChunk (w_file w)));
        mret (Ok (cs, ch))
      else
        r ← allocate_node;
        match r with
        | Err _ => mret (Err NoDataNode)
        | Ok datanode =>
            arr ← on_file (alloc_array []);
            newChunk ← on_file (alloc_chunk (mkChunk 0 datanode 0 (mkSlice arr 0)));
            Chunk_Persistent newChunk ≫= λ _,
            c ← on_file (load_chunk newChunk);
            on_file (go_modify (λ f, set_Chunks f (<[Chunk_ID c := newChunk]> (Chunks f)))) ≫= λ _,
            on_file (go_modify (λ f, set_LastAvailableChunk f newChunk)) ≫= λ _,
            cl ← on_file (addCellToLastAvailable row col newCellSize);
            cs ← on_file (Cell_Snapshot cl);
            ch ← on_file (Chunk_Snapshot newChunk);
            mret (Ok (cs, ch))
        end
  end.

(** [Cell.Persistent] on the cell at [l]. *)
Definition persist_cell (l : loc) : WM () :=
  c ← on_file (load_cell l);
  w ← go_get;
  let '(c', d) := Cell_Persistent (w_db w) c in
  go_put (mkWorld (set_cell_obj (w_file w) l c') (w_alloc w) d).

Definition persistentData : WM () :=
  w ← go_get;
  if decide (Cells (w_file w) = ∅) then mret ()
  else
    go_for (go_range (Cells (w_file w))).*2 persist_cell ≫= λ _,
    w ← go_get;
    go_for (go_range (Chunks (w_file w))).*2 Chunk_Persistent.

End sheetfile.
