(* ===== verification/SheetFileSpec.v ===== *)
(** SheetFileSpec: what a sheet file promises, without pointers.

    A [VFile] is the metadata of one sheet as values: its chunks with the cells
    laid out in them, the index of cells, and the chunk that takes new cells.
    [v_get], [v_write] and [v_create] say what the methods of
    sheetfs/master/sheetfile/sheetfile.go do to it; [v_inv] is the invariant
    that keeps the slots of a chunk disjoint and the two views of a cell equal.
    SheetFileRefine proves that the pointer-level methods implement this. *)
From Stdlib Require Import ZArith Lia Permutation.
From stdpp Require Import gmap strings list fin_maps.
From S2P Require Import Prelude.
From S2P Require Import MasterData.
Open Scope Z_scope.

(** ** Values *)
Record CellInfo := mkInfo { ci_id : Z; ci_off : Z; ci_size : Z; ci_chunk : Z }.

#[export] Instance CellInfo_eq_decision : EqDecision CellInfo.
Proof. solve_decision. Defined.

Record VChunk := mkVChunk { vc_node : string; vc_version : Z; vc_cells : list CellInfo }.

Record VFile := mkVFile {
  v_chunks : gmap Z VChunk;
  v_cells : gmap Z CellInfo;
  v_last : option Z
}.

Definition sizes (cs : list CellInfo) : Z := foldr (λ c acc, ci_size c + acc) 0 cs.

(** There is room for [size] more bytes in the chunk. *)
Definition v_room (vc : VChunk) (size : Z) : bool := size + sizes (vc_cells vc) <=? BytesPerChunk.

Definition cell_size (id : Z) : Z :=
  if id =? SheetMetaCellID then BytesPerChunk else MaxBytesPerCell.

(** ** Operations *)
Definition v_get (v : VFile) (id : Z) : option (CellInfo * VChunk) :=
  ci ← v_cells v !! id;
  vc ← v_chunks v !! ci_chunk ci;
  Some (ci, vc).

Definition v_bump (vc : VChunk) : VChunk :=
  mkVChunk (vc_node vc) (u64 (vc_version vc + 1)) (vc_cells vc).

(** The next slot of chunk [k], given to cell [id]. *)
Definition v_slot (vc : VChunk) (k id size : Z) : CellInfo :=
  mkInfo id (Z.of_nat (length (vc_cells vc)) * MaxBytesPerCell) size k.

Definition v_put (v : VFile) (vc : VChunk) (k id size : Z) : VFile :=
  let ci := v_slot vc k id size in
  mkVFile (<[k := mkVChunk (vc_node vc) (u64 (vc_version vc + 1)) (vc_cells vc ++ [ci])]> (v_chunks v))
    (<[id := ci]> (v_cells v)) (Some k).

(** The chunk that takes a new cell of the given size, if there is one. *)
Definition v_available (v : VFile) (size : Z) : option (Z * VChunk) :=
  k ← v_last v;
  vc ← v_chunks v !! k;
  if v_room vc size then Some (k, vc) else None.

(** A write of cell [id]: [node] is the data node a new chunk would be placed
    on, [k] its identifier.  [None] is the answer "no data node". *)
Definition v_write (v : VFile) (id : Z) (node : option string) (k : Z) : VFile * option (Z * CellInfo) :=
  match v_get v id with
  | Some (ci, vc) =>
      (mkVFile (<[ci_chunk ci := v_bump vc]> (v_chunks v)) (v_cells v) (v_last v),
       Some (ci_chunk ci, ci))
  | None =>
      match v_available v (cell_size id) with
      | Some (k', vc) => (v_put v vc k' id (cell_size id), Some (k', v_slot vc k' id (cell_size id)))
      | None =>
          match node with
          | None => (v, None)
          | Some n =>
              let vc := mkVChunk n 0 [] in
              (v_put v vc k id (cell_size id), Some (k, v_slot vc k id (cell_size id)))
          end
      end
  end.

Definition v_create (node : string) (k : Z) : VFile :=
  let ci := mkInfo SheetMetaCellID 0 BytesPerChunk k in
  mkVFile {[k := mkVChunk node 0 [ci]]} {[SheetMetaCellID := ci]} None.

(** ** Invariant *)

(** The slots of a chunk: one cell with the whole chunk, or at most
    [MaxCellsPerChunk] cells whose offsets are the first slots in some order. *)
Definition layout (cs : list CellInfo) : Prop :=
  (∃ c, cs = [c] ∧ ci_off c = 0 ∧ ci_size c = BytesPerChunk)
  ∨ (Z.of_nat (length cs) <= MaxCellsPerChunk
     ∧ Forall (λ c, ci_size c = MaxBytesPerCell) cs
     ∧ ci_off <$> cs ≡ₚ (λ i, Z.of_nat i * MaxBytesPerCell) <$> seq 0 (length cs)).

Definition chunk_ok (v : VFile) (k : Z) (vc : VChunk) : Prop :=
  Forall (λ c, ci_chunk c = k ∧ v_cells v !! ci_id c = Some c) (vc_cells vc)
  ∧ NoDup (ci_id <$> vc_cells vc)
  ∧ layout (vc_cells vc)
  ∧ is_u64 (vc_version vc).

Definition cell_ok (v : VFile) (id : Z) (ci : CellInfo) : Prop :=
  ci_id ci = id ∧ ∃ vc, v_chunks v !! ci_chunk ci = Some vc ∧ ci ∈ vc_cells vc.

Record v_inv (v : VFile) : Prop := {
  inv_chunks : map_Forall (chunk_ok v) (v_chunks v);
  inv_cells : map_Forall (cell_ok v) (v_cells v);
  inv_last : ∀ k, v_last v = Some k → is_Some (v_chunks v !! k)
}.

(** ** Lemmas on layouts *)
Lemma cell_size_cases id : cell_size id = BytesPerChunk ∨ cell_size id = MaxBytesPerCell.
Proof. unfold cell_size. destruct (id =? _); auto. Qed.

Lemma sizes_app l1 l2 : sizes (l1 ++ l2) = sizes l1 + sizes l2.
Proof. induction l1 as [|c l IH]; simpl; [lia|]. rewrite IH. lia. Qed.

Lemma sizes_nonneg cs : Forall (λ c, 0 <= ci_size c) cs → 0 <= sizes cs.
Proof. induction 1 as [|c cs Hc _ IH]; simpl; lia. Qed.

Lemma sizes_uniform cs :
  Forall (λ c, ci_size c = MaxBytesPerCell) cs → sizes cs = Z.of_nat (length cs) * MaxBytesPerCell.
Proof.
  induction 1 as [|c cs Hc _ IH]; [reflexivity|]. simpl. rewrite Hc, IH. unfold MaxBytesPerCell. lia.
Qed.

Lemma MaxBytesPerCell_val : MaxBytesPerCell = 2048.
Proof. reflexivity. Qed.

Lemma layout_sizes cs : layout cs → 0 <= sizes cs <= BytesPerChunk.
Proof.
  intros [(c & -> & _ & Hs)|(Hl & Hs & _)].
  - simpl. rewrite Hs. unfold BytesPerChunk. lia.
  - rewrite sizes_uniform by done. rewrite MaxBytesPerCell_val.
    unfold BytesPerChunk, MaxCellsPerChunk in *. lia.
Qed.

Lemma layout_nil : layout [].
Proof. right. split; [simpl; unfold MaxCellsPerChunk; lia|]. by split; [constructor|]. Qed.

(** The next slot keeps the layout when there is room. *)
Lemma layout_snoc vc k id :
  layout (vc_cells vc) → v_room vc (cell_size id) = true →
  layout (vc_cells vc ++ [v_slot vc k id (cell_size id)]).
Proof.
  unfold v_room. intros Hl Hr. apply Z.leb_le in Hr.
  destruct Hl as [(c & Hc & _ & Hs)|(Hl & Hs & Ho)].
  { rewrite Hc in Hr. simpl in Hr. rewrite Hs in Hr.
    destruct (cell_size_cases id) as [E|E]; rewrite E in Hr; by vm_compute in Hr. }
  rewrite sizes_uniform in Hr by done.
  destruct (cell_size_cases id) as [E|E].
  - left. exists (v_slot vc k id (cell_size id)). rewrite E in Hr |- *.
    rewrite MaxBytesPerCell_val in Hr.
    destruct (vc_cells vc) eqn:Hv; [|simpl in Hr; unfold BytesPerChunk in Hr; lia].
    unfold v_slot. by rewrite Hv.
  - right. rewrite E in Hr |- *. rewrite MaxBytesPerCell_val in Hr.
    unfold BytesPerChunk, MaxCellsPerChunk in *.
    rewrite length_app. simpl length. split; [lia|]. split.
    + apply Forall_app. split; [done|]. repeat constructor.
    + rewrite fmap_app, seq_app, fmap_app, Ho. simpl. reflexivity.
Qed.

(** Cells of a laid out chunk occupy disjoint ranges inside the chunk. *)
Lemma layout_disjoint cs i j ci cj :
  layout cs → cs !! i = Some ci → cs !! j = Some cj → i ≠ j →
  ci_off ci + ci_size ci <= ci_off cj ∨ ci_off cj + ci_size cj <= ci_off ci.
Proof.
  intros [(c & -> & _ & _)|(Hl & Hs & Ho)] Hi Hj Hne.
  { destruct i, j; simplify_eq/=. }
  assert (NoDup (ci_off <$> cs)) as Hnd.
  { rewrite Ho. apply NoDup_fmap_2; [|apply NoDup_seq].
    intros x y. rewrite MaxBytesPerCell_val. lia. }
  assert (∀ n c, cs !! n = Some c → ∃ m, ci_off c = Z.of_nat m * MaxBytesPerCell) as Hslot.
  { intros n c Hn. apply list_elem_of_lookup_2 in Hn.
    assert (ci_off c ∈ ci_off <$> cs) as Hin by (by apply list_elem_of_fmap_2).
    rewrite Ho in Hin. apply list_elem_of_fmap_1 in Hin as (m & -> & _). by exists m. }
  destruct (Hslot i ci Hi) as [m Hm], (Hslot j cj Hj) as [m' Hm'].
  rewrite Forall_lookup in Hs. rewrite (Hs i ci Hi), (Hs j cj Hj).
  rewrite Hm, Hm' in *. rewrite MaxBytesPerCell_val in *.
  assert (m ≠ m') as Hmm.
  { intros ->. apply Hne. apply (NoDup_lookup _ i j (ci_off ci) Hnd).
    - by rewrite list_lookup_fmap, Hi.
    - rewrite list_lookup_fmap, Hj. simpl. by rewrite Hm, Hm'. }
  lia.
Qed.

Lemma layout_bounds cs c : layout cs → c ∈ cs → 0 <= ci_off c ∧ ci_off c + ci_size c <= BytesPerChunk.
Proof.
  intros [(d & -> & Ho & Hs)|(Hl & Hs & Ho)] Hin.
  { apply list_elem_of_singleton in Hin as ->. rewrite Ho, Hs. lia. }
  assert (ci_off c ∈ ci_off <$> cs) as Hi by (by apply list_elem_of_fmap_2).
  rewrite Ho in Hi. apply list_elem_of_fmap_1 in Hi as (m & -> & Hm).
  apply elem_of_seq in Hm. rewrite Forall_forall in Hs. rewrite (Hs c Hin).
  rewrite MaxBytesPerCell_val. unfold MaxCellsPerChunk, BytesPerChunk in *. lia.
Qed.

(** ** The operations keep the invariant *)
Lemma v_get_inv v id ci vc :
  v_inv v → v_get v id = Some (ci, vc) →
  v_cells v !! id = Some ci ∧ v_chunks v !! ci_chunk ci = Some vc ∧ ci_id ci = id ∧ ci ∈ vc_cells vc.
Proof.
  intros Hv. unfold v_get. destruct (v_cells v !! id) as [c|] eqn:Hc; [|done]. simpl.
  destruct (v_chunks v !! ci_chunk c) as [w|] eqn:Hw; [|done]. simpl. intros [= -> ->].
  destruct (inv_cells v Hv id ci Hc) as (H1 & vc' & H2 & H3). simplify_eq. done.
Qed.

Lemma v_get_None v id : v_inv v → v_get v id = None → v_cells v !! id = None.
Proof.
  intros Hv. unfold v_get. destruct (v_cells v !! id) as [c|] eqn:Hc; [|done]. simpl.
  destruct (inv_cells v Hv id c Hc) as (_ & vc & -> & _). done.
Qed.

Lemma v_available_Some v size k vc :
  v_available v size = Some (k, vc) →
  v_last v = Some k ∧ v_chunks v !! k = Some vc ∧ v_room vc size = true.
Proof.
  unfold v_available. destruct (v_last v) as [k'|]; [|done]. simpl.
  destruct (v_chunks v !! k') as [vc'|] eqn:E; [|done]. simpl.
  destruct (v_room vc' size) eqn:R; [|done]. intros [= -> ->]. done.
Qed.

Lemma v_bump_inv v k vc :
  v_inv v → v_chunks v !! k = Some vc →
  v_inv (mkVFile (<[k := v_bump vc]> (v_chunks v)) (v_cells v) (v_last v)).
Proof.
  intros [Hch Hce Hla] Hk. split; simpl.
  - apply map_Forall_insert_2; [|done].
    destruct (Hch k vc Hk) as (H1 & H2 & H3 & _). split_and!; [done..|]. apply u64_range.
  - intros id ci Hci. destruct (Hce id ci Hci) as (H1 & w & H2 & H3). split; [done|]. simpl.
    destruct (decide (ci_chunk ci = k)) as [E|E].
    + rewrite E, lookup_insert_eq. exists (v_bump vc). split; [done|]. simpl. congruence.
    + rewrite lookup_insert_ne by done. by exists w.
  - intros k' Hk'. apply lookup_insert_is_Some. destruct (decide (k = k')); auto.
Qed.

Lemma v_put_inv v vc k id :
  v_inv v → v_cells v !! id = None →
  (v_chunks v !! k = Some vc ∨ (v_chunks v !! k = None ∧ vc_cells vc = [])) →
  v_room vc (cell_size id) = true →
  v_inv (v_put v vc k id (cell_size id)).
Proof.
  intros [Hch Hce Hla] Hid Hk Hr.
  assert (Forall (λ c, ci_chunk c = k ∧ v_cells v !! ci_id c = Some c) (vc_cells vc)
          ∧ NoDup (ci_id <$> vc_cells vc) ∧ layout (vc_cells vc)) as (F & N & L).
  { destruct Hk as [Hk|[_ ->]]; [by destruct (Hch k vc Hk) as (?&?&?&_)|].
    split_and!; [constructor..|apply layout_nil]. }
  assert (∀ c, v_cells v !! ci_id c = Some c →
               <[id := v_slot vc k id (cell_size id)]> (v_cells v) !! ci_id c = Some c) as Hkeep.
  { intros c Hc. rewrite lookup_insert_ne; [done|]. intros ->. congruence. }
  split; simpl.
  - apply map_Forall_insert_2.
    + split_and!; simpl.
      * apply Forall_app. split.
        -- eapply Forall_impl; [exact F|]. intros c [H1 H2]. split; [done|]. by apply Hkeep.
        -- constructor; [|constructor]. simpl. by rewrite lookup_insert_eq.
      * rewrite fmap_app. apply NoDup_app. split; [done|]. split; [|apply NoDup_singleton].
        intros x Hx Hx'. simpl in Hx'. apply list_elem_of_singleton in Hx' as ->.
        apply list_elem_of_fmap_1 in Hx as (c & Hc & Hin).
        rewrite Forall_forall in F. destruct (F c Hin) as [_ H2]. congruence.
      * by apply layout_snoc.
      * apply u64_range.
    + intros k' w Hw. destruct (Hch k' w Hw) as (H1 & H2 & H3 & H4). split_and!; [|done..].
      eapply Forall_impl; [exact H1|]. intros c [H5 H6]. split; [done|]. by apply Hkeep.
  - apply map_Forall_insert_2.
    + split; [done|]. simpl. rewrite lookup_insert_eq. eexists. split; [done|]. simpl.
      apply elem_of_app. right. by apply list_elem_of_singleton.
    + intros id' ci Hci. destruct (Hce id' ci Hci) as (H1 & w & H2 & H3). split; [done|]. simpl.
      destruct (decide (ci_chunk ci = k)) as [E|E]; [|by rewrite lookup_insert_ne; eauto].
      rewrite E, lookup_insert_eq. eexists. split; [done|]. simpl.
      destruct Hk as [Hk|[Hk _]]; [|congruence].
      apply elem_of_app. left. congruence.
  - intros k' [= <-]. by rewrite lookup_insert_eq.
Qed.

Lemma v_room_empty n id : v_room (mkVChunk n 0 []) (cell_size id) = true.
Proof. unfold v_room. by destruct (cell_size_cases id) as [-> | ->]. Qed.

Lemma v_write_inv v id node k :
  v_inv v → v_chunks v !! k = None → v_inv (fst (v_write v id node k)).
Proof.
  intros Hv Hk. unfold v_write. destruct (v_get v id) as [[ci vc]|] eqn:G.
  - apply v_get_inv in G as (_ & H2 & _); [|done]. simpl. by apply v_bump_inv.
  - apply v_get_None in G; [|done].
    destruct (v_available v (cell_size id)) as [[k' vc]|] eqn:A.
    + apply v_available_Some in A as (_ & H2 & H3). simpl. apply v_put_inv; auto.
    + destruct node as [n|]; [|done]. simpl.
      apply v_put_inv; auto using v_room_empty.
Qed.

Lemma v_create_inv node k : v_inv (v_create node k).
Proof.
  split; simpl.
  - apply map_Forall_singleton. split_and!; simpl.
    + constructor; [|constructor]. simpl. by rewrite lookup_singleton_eq.
    + apply NoDup_singleton.
    + left. eexists. done.
    + unfold is_u64. lia.
  - apply map_Forall_singleton. split; [done|]. simpl. rewrite lookup_singleton_eq.
    eexists. split; [done|]. by apply list_elem_of_singleton.
  - done.
Qed.

(** What a write answers: the cell is now in the index, in its chunk, whose
    version went up by one; every other chunk and cell is as before. *)
Lemma v_write_effect v id node k v' k' ci :
  v_inv v → v_chunks v !! k = None → v_write v id node k = (v', Some (k', ci)) →
  ∃ vc',
    v_get v' id = Some (ci, vc') ∧ ci_chunk ci = k'
    ∧ vc_version vc' = u64 (match v_chunks v !! k' with Some vc => vc_version vc | None => 0 end + 1)
    ∧ (∀ j, j ≠ k' → v_chunks v' !! j = v_chunks v !! j)
    ∧ (∀ j, j ≠ id → v_cells v' !! j = v_cells v !! j).
Proof.
  intros Hv Hk. unfold v_write. destruct (v_get v id) as [[c vc]|] eqn:G.
  - apply v_get_inv in G as (H1 & H2 & H3 & _); [|done]. intros [= <- <- <-].
    exists (v_bump vc). unfold v_get. simpl. rewrite H1. simpl. rewrite lookup_insert_eq. simpl.
    rewrite H2. split_and!; try done. intros j Hj. by rewrite lookup_insert_ne.
  - apply v_get_None in G; [|done].
    assert (∀ w j, (v_chunks v !! j = Some w ∨ v_chunks v !! j = None ∧ vc_version w = 0) →
        v_put v w j id (cell_size id) = v' → v_slot w j id (cell_size id) = ci → j = k' →
        ∃ vc', v_get v' id = Some (ci, vc') ∧ ci_chunk ci = k'
          ∧ vc_version vc' = u64 (match v_chunks v !! k' with Some vc => vc_version vc | None => 0 end + 1)
          ∧ (∀ j, j ≠ k' → v_chunks v' !! j = v_chunks v !! j)
          ∧ (∀ j, j ≠ id → v_cells v' !! j = v_cells v !! j)) as Hput.
    { intros w j Hw <- <- <-. eexists. unfold v_get. simpl. rewrite lookup_insert_eq. simpl.
      rewrite lookup_insert_eq. simpl. split_and!; try done.
      - by destruct Hw as [-> | [-> ->]].
      - intros i Hi. by rewrite lookup_insert_ne.
      - intros i Hi. by rewrite lookup_insert_ne. }
    destruct (v_available v (cell_size id)) as [[j vc]|] eqn:A.
    + apply v_available_Some in A as (_ & H2 & H3). intros [= E1 E2 E3]. apply (Hput vc j); auto.
    + destruct node as [n|]; [|done]. intros [= E1 E2 E3]. apply (Hput (mkVChunk n 0 []) k); auto.
Qed.

(** Sizes follow the identifiers. *)
Definition v_sized (v : VFile) : Prop :=
  ∀ id ci, v_cells v !! id = Some ci → ci_size ci = cell_size id.

(** A chunk that was never written only holds a MetaCell. *)
Definition v_zero (v : VFile) : Prop :=
  ∀ k vc, v_chunks v !! k = Some vc → vc_version vc = 0 →
    vc_cells vc = [mkInfo SheetMetaCellID 0 BytesPerChunk k].

(** More on a write: the chunk it bumps. *)
Lemma v_write_chunk v id node k v' k' ci :
  v_inv v → v_chunks v !! k = None → v_write v id node k = (v', Some (k', ci)) →
  ∃ vc', v_chunks v' !! k' = Some vc' ∧
    match v_chunks v !! k' with
    | Some vc => vc_node vc' = vc_node vc
        ∧ (vc_cells vc' = vc_cells vc ∧ v_cells v !! id = Some ci
           ∨ vc_cells vc' = vc_cells vc ++ [ci] ∧ v_room vc (cell_size id) = true)
    | None => k' = k ∧ node = Some (vc_node vc') ∧ vc_cells vc' = [ci]
    end
  ∧ v_cells v' !! id = Some ci
  ∧ (v_cells v !! id = None → ci_size ci = cell_size id).
Proof.
  intros Hv Hk. unfold v_write. destruct (v_get v id) as [[c vc]|] eqn:G.
  - apply v_get_inv in G as (H1 & H2 & _ & _); [|done]. intros [= <- <- <-]. simpl.
    rewrite lookup_insert_eq, H2. eexists. split; [done|]. simpl. rewrite H1. split_and!; try done. auto.
  - apply v_get_None in G; [|done].
    destruct (v_available v (cell_size id)) as [[j vc]|] eqn:A.
    + apply v_available_Some in A as (_ & H2 & H3). intros [= <- <- <-]. simpl.
      rewrite lookup_insert_eq, H2, lookup_insert_eq. eexists. split; [done|]. simpl. split_and!; try done. auto.
    + destruct node as [n|]; [|done]. intros [= <- <- <-]. simpl.
      rewrite lookup_insert_eq, Hk, lookup_insert_eq. eexists. split; [done|]. simpl. done.
Qed.

Lemma v_write_sized v id node k v' k' ci :
  v_inv v → v_chunks v !! k = None → v_write v id node k = (v', Some (k', ci)) →
  v_sized v → v_sized v' ∧ ci_size ci = cell_size id.
Proof.
  intros Hv Hk Hw Hs. destruct (v_write_chunk _ _ _ _ _ _ _ Hv Hk Hw) as (vc' & _ & _ & Hci & Hn).
  destruct (v_write_effect _ _ _ _ _ _ _ Hv Hk Hw) as (vc2 & _ & _ & _ & _ & Hoth).
  assert (ci_size ci = cell_size id) as Hsz.
  { destruct (v_cells v !! id) as [c|] eqn:E; [|by apply Hn].
    unfold v_write in Hw. unfold v_get in Hw. rewrite E in Hw. simpl in Hw.
    destruct (inv_cells v Hv id c E) as (_ & vc & Hvc & _). rewrite Hvc in Hw. simpl in Hw.
    simplify_eq. by apply Hs. }
  split; [|done]. intros j c Hj. destruct (decide (j = id)) as [->|Hne]; [by simplify_eq|].
  rewrite Hoth in Hj by done. by apply Hs.
Qed.

(** A write to a chunk that was never written: the chunk is new, or the write
    is that of the MetaCell. *)
Lemma v_write_first v id node k v' k' ci vc' :
  v_inv v → v_zero v → v_chunks v !! k = None → v_write v id node k = (v', Some (k', ci)) →
  v_chunks v' !! k' = Some vc' →
  match v_chunks v !! k' with Some vc => vc_version vc = 0 | None => True end →
  vc_cells vc' = [ci].
Proof.
  intros Hv Hz Hk Hw Hvc' H0.
  destruct (v_write_chunk _ _ _ _ _ _ _ Hv Hk Hw) as (vc2 & E & Hcase & Hci & _). simplify_eq.
  destruct (v_chunks v !! k') as [vc|] eqn:Hvc; [|apply Hcase].
  specialize (Hz k' vc Hvc H0). destruct Hcase as [_ [[Hc Hin]|[_ Hroom]]].
  - rewrite Hc, Hz. f_equal.
    destruct (inv_cells v Hv id ci Hin) as (Hid & vc2 & Hv2 & Hel).
    destruct (v_write_effect _ _ _ _ _ _ _ Hv Hk Hw) as (_ & _ & Hck & _).
    rewrite Hck, Hvc in Hv2. simplify_eq. rewrite Hz in Hel. by apply list_elem_of_singleton in Hel as ->.
  - unfold v_room in Hroom. rewrite Hz in Hroom. simpl in Hroom.
    destruct (cell_size_cases id) as [E0|E0]; rewrite E0 in Hroom; by vm_compute in Hroom.
Qed.
