(* ===== verification/SheetFileRefine.v ===== *)
(** SheetFileRefine: the pointer-level sheet file implements [VFile].

    [file_rep f v] relates the object store of a SheetFile to its value: every
    chunk and cell reachable from the two maps has the stated contents, and no
    two chunks share a backing array.  Each method of sheetfile.go is then shown
    to run without a panic, to answer what the specification answers, and to
    lead to a store that represents the specification's next value. *)
From Stdlib Require Import ZArith Lia Permutation.
From stdpp Require Import gmap strings list fin_maps.
From S2P Require Import Prelude.
From S2P Require Import DataNodeAlloc.
From S2P Require Import MasterData.
From S2P Require Import SheetFile.
From S2P Require Import SheetFileSpec.
Open Scope Z_scope.

Definition info (c : Cell) : CellInfo := mkInfo (CellID c) (Offset c) (Size c) (ChunkID c).

(** ** Representation *)

(** The cells a slice header shows, in this store. *)
Definition slice_vals (f : SheetFile) (sl : slice) (cs : list CellInfo) : Prop :=
  s_len sl = length cs
  ∧ ∀ i x, cs !! i = Some x →
      ∃ l c, backing f sl !! i = Some l ∧ cell_objs f !! l = Some c ∧ info c = x.

Definition chunk_val (f : SheetFile) (id : Z) (l : loc) (vc : VChunk) : Prop :=
  ∃ c, chunk_objs f !! l = Some c ∧ Chunk_ID c = id ∧ DataNode c = vc_node vc
       ∧ Version c = vc_version vc ∧ slice_vals f (Chunk_Cells c) (vc_cells vc).

Definition cell_val (f : SheetFile) (id : Z) (l : loc) (ci : CellInfo) : Prop :=
  ∃ c, cell_objs f !! l = Some c ∧ info c = ci ∧ SheetName c = filename f.

(** Allocation discipline: location 0 is nil, locations from [next_loc] on are
    free, and only the nil array is shared between chunks. *)
Record store_wf (f : SheetFile) : Prop := {
  swf_next : (0 < next_loc f)%nat;
  swf_cells : ∀ l c, cell_objs f !! l = Some c → (l < next_loc f)%nat;
  swf_chunks : ∀ l c, chunk_objs f !! l = Some c →
    (0 < l < next_loc f)%nat ∧ (s_arr (Chunk_Cells c) < next_loc f)%nat;
  swf_arrays : ∀ l a, arrays f !! l = Some a → (0 < l < next_loc f)%nat;
  swf_sep : ∀ l1 l2 c1 c2, chunk_objs f !! l1 = Some c1 → chunk_objs f !! l2 = Some c2 →
    s_arr (Chunk_Cells c1) = s_arr (Chunk_Cells c2) → s_arr (Chunk_Cells c1) ≠ 0%nat → l1 = l2
}.

Definition last_val (f : SheetFile) (last : option Z) : Prop :=
  match last with
  | None => LastAvailableChunk f = 0%nat
  | Some k => Chunks f !! k = Some (LastAvailableChunk f)
  end.

Record file_rep (f : SheetFile) (v : VFile) : Prop := {
  rep_wf : store_wf f;
  rep_chunks : map_Forall2 (chunk_val f) (Chunks f) (v_chunks v);
  rep_cells : map_Forall2 (cell_val f) (Cells f) (v_cells v);
  rep_last : last_val f (v_last v)
}.

(** ** Snapshots *)

(** A step that may allocate and may redirect slots to equal cells. *)
Record same_view (f f' : SheetFile) : Prop := {
  sv_chunks : chunk_objs f' = chunk_objs f;
  sv_Chunks : Chunks f' = Chunks f;
  sv_Cells : Cells f' = Cells f;
  sv_last : LastAvailableChunk f' = LastAvailableChunk f;
  sv_name : filename f' = filename f;
  sv_next : (next_loc f <= next_loc f')%nat;
  sv_cells : ∀ l c, cell_objs f !! l = Some c → cell_objs f' !! l = Some c;
  sv_slices : ∀ sl cs, slice_vals f sl cs → slice_vals f' sl cs
}.

#[export] Instance same_view_refl : Reflexive same_view.
Proof. intros f. by split. Qed.

#[export] Instance same_view_trans : Transitive same_view.
Proof.
  intros f g h [] []. split; try congruence; eauto. lia.
Qed.

Lemma same_view_rep f f' v : same_view f f' → store_wf f' → file_rep f v → file_rep f' v.
Proof.
  intros H Hwf [_ Hch Hce Hla]. split; [done| | |].
  - rewrite (sv_Chunks _ _ H). eapply map_Forall2_impl; [exact Hch|].
    intros k l vc (c & H1 & H2 & H3 & H4 & H5). exists c. rewrite (sv_chunks _ _ H).
    split_and!; try done. by apply (sv_slices _ _ H).
  - rewrite (sv_Cells _ _ H). eapply map_Forall2_impl; [exact Hce|].
    intros k l ci (c & H1 & H2 & H3). exists c. rewrite (sv_name _ _ H).
    split; [by apply (sv_cells _ _ H)|done].
  - unfold last_val in *. by rewrite (sv_Chunks _ _ H), (sv_last _ _ H).
Qed.

(** One iteration of the loop of [Chunk.Snapshot]. *)
Definition snap_step (f : SheetFile) (sl : slice) (i : nat) (c : Cell) : SheetFile :=
  set_array (bump (set_cell_obj f (next_loc f) c)) (s_arr sl) (<[i := next_loc f]> (backing f sl)).

Lemma backing_lookup_arr f sl i l :
  backing f sl !! i = Some l → ∃ a, arrays f !! s_arr sl = Some a ∧ a !! i = Some l.
Proof.
  unfold backing. destruct (arrays f !! s_arr sl) as [a|]; simpl; [eauto|]. by rewrite lookup_nil.
Qed.

Lemma backing_snap_step f sl i c sl' :
  backing (snap_step f sl i c) sl'
  = if decide (s_arr sl' = s_arr sl) then <[i := next_loc f]> (backing f sl) else backing f sl'.
Proof.
  unfold backing, snap_step. simpl. case_decide as E.
  - by rewrite E, lookup_insert_eq.
  - by rewrite lookup_insert_ne by congruence.
Qed.

Lemma snap_step_wf f sl i c l :
  store_wf f → backing f sl !! i = Some l → store_wf (snap_step f sl i c).
Proof.
  intros Hwf Hl. destruct (backing_lookup_arr f sl i l Hl) as (a & Ha & _).
  destruct Hwf as [W1 W2 W3 W4 W5]. split; simpl.
  - lia.
  - intros l' c'. rewrite lookup_insert_Some. intros [[<- _]|[_ H]]; [lia|]. apply W2 in H. lia.
  - intros l' c' H. apply W3 in H. lia.
  - intros l' a'. rewrite lookup_insert_Some. intros [[<- _]|[_ H]]; [apply W4 in Ha; lia|].
    apply W4 in H. lia.
  - exact W5.
Qed.

Lemma snap_step_view f sl i c l :
  store_wf f → backing f sl !! i = Some l → cell_objs f !! l = Some c →
  same_view f (snap_step f sl i c).
Proof.
  intros Hwf Hl Hc.
  assert (∀ l' c', cell_objs f !! l' = Some c' → cell_objs (snap_step f sl i c) !! l' = Some c') as Hce.
  { intros l' c' H. simpl. pose proof (swf_cells f Hwf l' c' H). rewrite lookup_insert_ne by lia. done. }
  split; try done; [simpl; lia|].
  intros sl' cs [Hn H]. split; [done|]. intros j x Hj. destruct (H j x Hj) as (l' & c' & H1 & H2 & H3).
  rewrite backing_snap_step. case_decide as E; [|by eauto 6].
  destruct (decide (i = j)) as [->|Hij].
  - rewrite list_lookup_insert_eq by (by eapply lookup_lt_Some).
    exists (next_loc f), c. split; [done|]. split; [simpl; by rewrite lookup_insert_eq|].
    unfold backing in *. rewrite E in H1. congruence.
  - rewrite list_lookup_insert_ne by done. unfold backing in *. rewrite E in H1. eauto 6.
Qed.

Lemma snapshot_cells_view sl cs i n f :
  store_wf f → slice_vals f sl cs → (i + n = s_len sl)%nat →
  ∃ f', snapshot_cells sl i n f = Some ((), f') ∧ same_view f f' ∧ store_wf f'.
Proof.
  revert i f. induction n as [|n IH]; intros i f Hwf Hs Hn.
  { exists f. by split_and!. }
  pose proof Hs as [Hlen Hcs].
  destruct (lookup_lt_is_Some_2 cs i ltac:(lia)) as [x Hx].
  destruct (Hcs i x Hx) as (l & c & H1 & H2 & H3).
  destruct (IH (S i) (snap_step f sl i c)) as (f' & E & V & W).
  - by eapply snap_step_wf.
  - by eapply sv_slices, Hs; eapply snap_step_view.
  - lia.
  - exists f'. split_and!; [|by etransitivity; [by eapply snap_step_view|]|done].
    cbn [snapshot_cells].
    assert (slice_get sl i f = Some (l, f)) as Hg.
    { unfold slice_get. rewrite decide_True by lia. by rewrite H1. }
    rewrite (GoM_bind_Some _ _ _ _ _ Hg).
    assert (load_cell l f = Some (c, f)) as Hlc by (unfold load_cell; by rewrite H2).
    rewrite (GoM_bind_Some _ _ _ _ _ Hlc).
    rewrite (GoM_bind_Some _ _ _ _ _ (eq_refl : alloc_cell c f = Some (next_loc f, _))).
    assert (slice_set sl i (next_loc f) (bump (set_cell_obj f (next_loc f) c))
            = Some ((), snap_step f sl i c)) as Hss.
    { unfold slice_set. rewrite decide_True; [done|]. split; [lia|].
      apply lookup_lt_Some in H1. exact H1. }
    by rewrite (GoM_bind_Some _ _ _ _ _ Hss).
Qed.

Lemma Chunk_Snapshot_spec f l id vc :
  store_wf f → chunk_val f id l vc →
  ∃ c f', Chunk_Snapshot l f = Some (c, f') ∧ same_view f f' ∧ store_wf f'
    ∧ chunk_objs f !! l = Some c ∧ slice_vals f' (Chunk_Cells c) (vc_cells vc).
Proof.
  intros Hwf (c & H1 & H2 & H3 & H4 & H5).
  destruct (snapshot_cells_view (Chunk_Cells c) (vc_cells vc) 0 (s_len (Chunk_Cells c)) f)
    as (f' & E & V & W); [done..|].
  exists c, f'. split_and!; [|done..|by apply (sv_slices _ _ V)].
  unfold Chunk_Snapshot.
  assert (load_chunk l f = Some (c, f)) as Hl by (unfold load_chunk; by rewrite H1).
  rewrite (GoM_bind_Some _ _ _ _ _ Hl). by rewrite (GoM_bind_Some _ _ _ _ _ E).
Qed.

(** A slice header somebody may still hold: its array is never overwritten
    below its length, because the chunk that owns the array is at least as long. *)
Definition held (f : SheetFile) (sl : slice) : Prop :=
  (s_arr sl < next_loc f)%nat
  ∧ ∀ l c, chunk_objs f !! l = Some c → s_arr (Chunk_Cells c) = s_arr sl →
      s_arr sl ≠ 0%nat → (s_len sl ≤ s_len (Chunk_Cells c))%nat.

Lemma held_chunk f l c : store_wf f → chunk_objs f !! l = Some c → held f (Chunk_Cells c).
Proof.
  intros W Hc. split; [by apply (swf_chunks f W l)|]. intros l' c' Hc' E Hn.
  assert (l' = l) as -> by (by apply (swf_sep f W l' l c' c); try done; rewrite E).
  by simplify_eq.
Qed.

(** What a chunk snapshot shows, in a store. *)
Definition shows (f : SheetFile) (c : Chunk) (k : Z) (vc : VChunk) : Prop :=
  Chunk_ID c = k ∧ DataNode c = vc_node vc ∧ Version c = vc_version vc
  ∧ slice_vals f (Chunk_Cells c) (vc_cells vc) ∧ held f (Chunk_Cells c).

Lemma held_view f f' sl : same_view f f' → held f sl → held f' sl.
Proof.
  intros V [H1 H2]. split; [pose proof (sv_next _ _ V); lia|]. by rewrite (sv_chunks _ _ V).
Qed.

Lemma chunk_val_view f f' k l vc : same_view f f' → chunk_val f k l vc → chunk_val f' k l vc.
Proof.
  intros V (c & H1 & H2 & H3 & H4 & H5). exists c. rewrite (sv_chunks _ _ V).
  split_and!; try done. by apply (sv_slices _ _ V).
Qed.

Lemma shows_view f f' c k vc : same_view f f' → shows f c k vc → shows f' c k vc.
Proof.
  intros V (H1 & H2 & H3 & H4 & H5). split_and!; try done; [by apply (sv_slices _ _ V)|].
  by eapply held_view.
Qed.

Lemma Chunk_Snapshot_shows f k l vc :
  store_wf f → chunk_val f k l vc →
  ∃ c f', Chunk_Snapshot l f = Some (c, f') ∧ same_view f f' ∧ store_wf f' ∧ shows f' c k vc.
Proof.
  intros W H. destruct (Chunk_Snapshot_spec f l k vc W H) as (c & f' & E & V & W' & Hc & Hs).
  exists c, f'. split_and!; try done.
  destruct H as (c0 & H1 & H2 & H3 & H4 & _). simplify_eq. split_and!; try done.
  eapply held_view; [exact V|]. by eapply held_chunk.
Qed.

Lemma load_chunk_eq f l c : chunk_objs f !! l = Some c → load_chunk l f = Some (c, f).
Proof. unfold load_chunk. by intros ->. Qed.

Lemma load_cell_eq f l c : cell_objs f !! l = Some c → load_cell l f = Some (c, f).
Proof. unfold load_cell. by intros ->. Qed.

(** Run the next command of a method, whose result is known. *)
Ltac go_run H := rewrite (GoM_bind_Some _ _ _ _ _ H).

Section reads.
Context {RO : RangeOrder}.

Lemma snapshot_all_spec f (kls : list (Z * loc)) (vs : list (Z * VChunk)) :
  store_wf f →
  Forall2 (λ kl kv, kl.1 = kv.1 ∧ chunk_val f kl.1 kl.2 kv.2) kls vs →
  ∃ cs f', snapshot_all kls.*2 f = Some (cs, f') ∧ same_view f f' ∧ store_wf f'
    ∧ Forall2 (λ c kv, shows f' c kv.1 kv.2) cs vs.
Proof.
  revert vs f. induction kls as [|[k l] kls IH]; intros vs f W H.
  { inversion H; subst. exists [], f. split_and!; done || constructor. }
  apply Forall2_cons_inv_l in H as ([k' vc] & vs' & [Hk Hc] & Hr & ->). simpl in *. subst k'.
  destruct (Chunk_Snapshot_shows f k l vc W Hc) as (c & f1 & E1 & V1 & W1 & S1).
  destruct (IH vs' f1 W1) as (cs & f2 & E2 & V2 & W2 & S2).
  { eapply Forall2_impl; [exact Hr|]. intros a b [H1 H2]. split; [done|]. by eapply chunk_val_view. }
  exists (c :: cs), f2. go_run E1. go_run E2. split_and!; try done.
  - by etransitivity.
  - constructor; [|done]. by eapply shows_view.
Qed.

Lemma GetAllChunks_spec f v :
  file_rep f v →
  ∃ cs f' vs, GetAllChunks f = Some (cs, f') ∧ file_rep f' v ∧ same_view f f'
    ∧ vs ≡ₚ map_to_list (v_chunks v) ∧ Forall2 (λ c kv, shows f' c kv.1 kv.2) cs vs.
Proof.
  intros R. pose proof (rep_wf _ _ R) as W. pose proof (rep_chunks _ _ R) as Hch.
  set (pair := λ kl : Z * loc, (kl.1, default (mkVChunk "" 0 []) (v_chunks v !! kl.1))).
  destruct (snapshot_all_spec f (go_range (Chunks f)) (pair <$> go_range (Chunks f)))
    as (cs & f' & E & V & W' & S); [done| |].
  { apply Forall2_fmap_r, Forall_Forall2_diag, Forall_forall. intros [k l] Hin.
    apply elem_of_go_range in Hin. simpl. split; [done|].
    destruct (map_Forall2_lookup_l _ _ _ _ _ Hch Hin) as (vc & -> & Hv). done. }
  exists cs, f', (pair <$> go_range (Chunks f)). split_and!; try done.
  - by eapply same_view_rep.
  - rewrite go_range_perm. apply NoDup_Permutation.
    + apply NoDup_fmap_1 with (f := fst). rewrite <- list_fmap_compose.
      replace ((fst ∘ pair) <$> map_to_list (Chunks f)) with (map_to_list (Chunks f)).*1; [|done].
      apply NoDup_fst_map_to_list.
    + apply NoDup_map_to_list.
    + intros [k vc]. rewrite elem_of_map_to_list, list_elem_of_fmap. split.
      * intros ([k' l] & [= -> ->] & Hin). apply elem_of_map_to_list in Hin.
        destruct (map_Forall2_lookup_l _ _ _ _ _ Hch Hin) as (w & -> & _). done.
      * intros Hk. destruct (map_Forall2_lookup_r _ _ _ _ _ Hch Hk) as (l & Hl & _).
        exists (k, l). unfold pair. simpl. rewrite Hk. split; [done|]. by apply elem_of_map_to_list.
Qed.
End reads.

Lemma GetCellChunk_spec f v row col :
  file_rep f v → v_inv v →
  ∃ r f', GetCellChunk row col f = Some (r, f') ∧ file_rep f' v ∧ same_view f f'
    ∧ match v_get v (GetCellID row col) with
      | None => r = Err (CellNotFoundError row col)
      | Some (ci, vc) => ∃ cell chunk, r = Ok (cell, chunk) ∧ info cell = ci
          ∧ SheetName cell = filename f ∧ shows f' chunk (ci_chunk ci) vc
      end.
Proof.
  intros R Hv. unfold GetCellChunk.
  pose proof (rep_cells _ _ R) as Hce. pose proof (rep_chunks _ _ R) as Hch.
  destruct (v_get v (GetCellID row col)) as [[ci vc]|] eqn:G.
  - apply v_get_inv in G as (H1 & H2 & _ & _); [|done].
    destruct (map_Forall2_lookup_r _ _ _ _ _ Hce H1) as (cl & Hcl & c & Hc & <- & Hn).
    destruct (map_Forall2_lookup_r _ _ _ _ _ Hch H2) as (l & Hl & Hval).
    destruct (Chunk_Snapshot_shows f _ l vc (rep_wf _ _ R) Hval) as (ch & f' & E & V & W & S).
    exists (Ok (c, ch)), f'. rewrite Hcl.
    unfold Cell_Snapshot. go_run (load_cell_eq _ _ _ Hc).
    go_run (eq_refl : go_get f = Some (f, f)).
    assert (go_deref (Chunks f !! ChunkID c) f = Some (l, f)) as Hd
      by (change (ChunkID c) with (ci_chunk (info c)); by rewrite Hl).
    go_run Hd. go_run E. split_and!; try done; [by eapply same_view_rep|]. by exists c, ch.
  - apply v_get_None in G; [|done].
    apply (map_Forall2_lookup_None _ _ _ _ Hce) in G. rewrite G.
    eexists _, f. split_and!; done.
Qed.

(** ** Writes *)

(** Held slices keep showing the same cells. *)
Definition stable (f f' : SheetFile) : Prop :=
  ∀ sl cs, held f sl → slice_vals f sl cs → held f' sl ∧ slice_vals f' sl cs.

#[export] Instance stable_trans : Transitive stable.
Proof. intros f g h H1 H2 sl cs Hh Hs. destruct (H1 sl cs Hh Hs). by apply H2. Qed.

Lemma same_view_stable f f' : same_view f f' → stable f f'.
Proof.
  intros V sl cs Hh Hs. split; [by eapply held_view|by apply (sv_slices _ _ V)].
Qed.

(** The effect of [append] on the store. *)
Record appended (f f' : SheetFile) (sl sl' : slice) (l : loc) : Prop := {
  ap_cells : cell_objs f' = cell_objs f;
  ap_chunks : chunk_objs f' = chunk_objs f;
  ap_Chunks : Chunks f' = Chunks f;
  ap_Cells : Cells f' = Cells f;
  ap_last : LastAvailableChunk f' = LastAvailableChunk f;
  ap_name : filename f' = filename f;
  ap_next : (next_loc f <= next_loc f')%nat;
  ap_len : s_len sl' = S (s_len sl);
  ap_arr : (0 < s_arr sl' < next_loc f')%nat;
  ap_where : s_arr sl' = s_arr sl ∨ s_arr sl' = next_loc f;
  ap_arrays : ∀ k a, arrays f' !! k = Some a → (0 < k < next_loc f')%nat;
  ap_old : ∀ i, (i < s_len sl)%nat → backing f' sl' !! i = backing f sl !! i;
  ap_new : backing f' sl' !! s_len sl = Some l;
  ap_frame : ∀ s i, (s_arr s < next_loc f)%nat → (i < s_len s)%nat →
    (s_arr s = s_arr sl → (s_len s <= s_len sl)%nat) →
    backing f' s !! i = backing f s !! i
}.

Lemma slice_append_spec f sl l :
  store_wf f → (s_arr sl < next_loc f)%nat → (s_len sl <= length (backing f sl))%nat →
  ∃ sl' f', slice_append sl l f = Some (sl', f') ∧ appended f f' sl sl' l.
Proof.
  intros W Ha Hl. unfold slice_append. case_decide as D.
  - eexists _, _. split; [done|].
    assert (is_Some (arrays f !! s_arr sl)) as [a Harr].
    { unfold backing in D. destruct (arrays f !! s_arr sl); [by eexists|simpl in D; lia]. }
    pose proof (swf_arrays f W _ _ Harr) as Hr.
    assert (∀ s, backing (set_array f (s_arr sl) (<[s_len sl := l]> (backing f sl))) s
                 = if decide (s_arr s = s_arr sl) then <[s_len sl := l]> (backing f sl)
                   else backing f s) as Hb.
    { intros s. unfold backing at 1. simpl. case_decide as E.
      - by rewrite E, lookup_insert_eq.
      - by rewrite lookup_insert_ne by congruence. }
    split; try done; simpl; try lia.
    + intros k b. rewrite lookup_insert_Some. intros [[<- _]|[_ H]]; [lia|by apply (swf_arrays f W) in H].
    + intros i Hi. rewrite Hb. simpl. rewrite decide_True by done.
      by rewrite list_lookup_insert_ne by lia.
    + rewrite Hb. simpl. rewrite decide_True by done. by rewrite list_lookup_insert_eq.
    + intros s i Hs Hi Hle. rewrite Hb. case_decide as E; [|done].
      rewrite list_lookup_insert_ne by (specialize (Hle E); lia).
      unfold backing. by rewrite E.
  - eexists _, _. split; [done|].
    assert (s_len sl = length (backing f sl)) as Hle by lia.
    assert (∀ s, (s_arr s < next_loc f)%nat → ∀ a,
      backing (bump (set_array f (next_loc f) a)) s = backing f s) as Hb.
    { intros s Hs a. unfold backing. simpl. by rewrite lookup_insert_ne by lia. }
    assert (∀ n a, backing (bump (set_array f (next_loc f) a)) (mkSlice (next_loc f) n) = a) as Hn.
    { intros n a. unfold backing. simpl. by rewrite lookup_insert_eq. }
    pose proof (swf_next f W).
    split; try done; simpl; try lia.
    + intros k b. rewrite lookup_insert_Some.
      intros [[<- _]|[_ H']]; [lia|apply (swf_arrays f W) in H'; lia].
    + intros i Hi. rewrite Hn, lookup_app_l by (rewrite length_take; lia).
      by rewrite lookup_take_lt by lia.
    + rewrite Hn, lookup_app_r by (rewrite length_take; lia).
      rewrite length_take, Nat.min_l, Nat.sub_diag by lia. done.
    + intros s i Hs Hi _. by rewrite Hb.
Qed.

Lemma slice_vals_len f sl cs : slice_vals f sl cs → (s_len sl <= length (backing f sl))%nat.
Proof.
  intros [Hl H]. destruct (decide (s_len sl = 0%nat)) as [->|Hn]; [lia|].
  destruct (lookup_lt_is_Some_2 cs (s_len sl - 1) ltac:(lia)) as [x Hx].
  destruct (H _ _ Hx) as (l & c & Hb & _). apply lookup_lt_Some in Hb. lia.
Qed.

(** Slices keep their cells when the store only gains cells and the array
    keeps its prefix. *)
Lemma slice_vals_mono f f' sl cs :
  slice_vals f sl cs →
  (∀ l c, cell_objs f !! l = Some c → cell_objs f' !! l = Some c) →
  (∀ i, (i < s_len sl)%nat → backing f' sl !! i = backing f sl !! i) →
  slice_vals f' sl cs.
Proof.
  intros [Hl H] Hc Hb. split; [done|]. intros i x Hx.
  destruct (H i x Hx) as (l & c & H1 & H2 & H3). exists l, c.
  split_and!; [|by apply Hc|done]. rewrite Hb; [done|]. apply lookup_lt_Some in Hx. lia.
Qed.

(** Replacing the fields of a chunk object, its slice aside. *)
Lemma set_chunk_wf f l c c' :
  store_wf f → chunk_objs f !! l = Some c → Chunk_Cells c' = Chunk_Cells c →
  store_wf (set_chunk_obj f l c').
Proof.
  intros [W1 W2 W3 W4 W5] Hc Hs. split; simpl; try done.
  - intros l' c2. rewrite lookup_insert_Some. intros [[<- <-]|[_ H]]; [rewrite Hs|]; by eapply W3.
  - intros l1 l2 c1 c2. rewrite !lookup_insert_Some.
    intros [[<- <-]|[_ H1]] [[<- <-]|[_ H2]]; rewrite ?Hs; try done; by eapply W5.
Qed.

Lemma update_chunk_rep f v k l c vc node ver :
  file_rep f v → Chunks f !! k = Some l → chunk_objs f !! l = Some c → v_chunks v !! k = Some vc →
  file_rep (set_chunk_obj f l (mkChunk (Chunk_ID c) node ver (Chunk_Cells c)))
    (mkVFile (<[k := mkVChunk node ver (vc_cells vc)]> (v_chunks v)) (v_cells v) (v_last v)).
Proof.
  intros [W Hch Hce Hla] Hk Hc Hvc. split; simpl; [by eapply set_chunk_wf|..].
  - rewrite <- (insert_id (Chunks f) k l Hk).
    destruct (map_Forall2_lookup_r _ _ _ _ _ Hch Hvc) as (l' & Hl' & c' & H1 & H2 & H3 & H4 & H5).
    simplify_eq. eapply map_Forall2_update; [exact Hch| |].
    + eexists. simpl. by rewrite lookup_insert_eq.
    + intros j m w Hj Hm (d & D1 & D2 & D3). exists d. simpl.
      rewrite lookup_insert_ne; [done|]. intros <-. congruence.
  - exact Hce.
  - exact Hla.
Qed.

Lemma update_chunk_stable f l c c' :
  chunk_objs f !! l = Some c → Chunk_Cells c' = Chunk_Cells c → stable f (set_chunk_obj f l c').
Proof.
  intros Hc Hs sl cs [H1 H2] Hv. split; [|done]. split; [done|]. simpl.
  intros l' d. rewrite lookup_insert_Some. intros [[<- <-]|[_ H]]; [rewrite Hs|]; by eapply H2.
Qed.

(** Allocating objects nobody refers to yet. *)
Lemma alloc_cell_view f c :
  store_wf f → same_view f (bump (set_cell_obj f (next_loc f) c))
  ∧ store_wf (bump (set_cell_obj f (next_loc f) c)).
Proof.
  intros W.
  assert (∀ l c', cell_objs f !! l = Some c' →
            cell_objs (bump (set_cell_obj f (next_loc f) c)) !! l = Some c') as Hc.
  { intros l c' H. simpl. pose proof (swf_cells f W l c' H). by rewrite lookup_insert_ne by lia. }
  split.
  - split; try done; [simpl; lia|]. intros sl cs H. eapply slice_vals_mono; [exact H|exact Hc|done].
  - destruct W as [W1 W2 W3 W4 W5]. split; simpl; [lia| | | |exact W5].
    + intros l c'. rewrite lookup_insert_Some. intros [[<- _]|[_ H]]; [lia|]. apply W2 in H. lia.
    + intros l c' H. apply W3 in H. lia.
    + intros l a H. apply W4 in H. lia.
Qed.

(** The store after [append] and the update of the chunk that owns the slice. *)
Lemma appended_wf f f' l c sl' cl c' :
  store_wf f → chunk_objs f !! l = Some c → appended f f' (Chunk_Cells c) sl' cl →
  Chunk_Cells c' = sl' → store_wf (set_chunk_obj f' l c').
Proof.
  intros W Hc A Hs. pose proof (swf_chunks f W l c Hc) as [Hl Hlt].
  pose proof (ap_next _ _ _ _ _ A) as Hn. pose proof (ap_arr _ _ _ _ _ A) as Har.
  pose proof (swf_next f W) as Hp.
  assert (∀ l2 c2, chunk_objs f !! l2 = Some c2 → s_arr sl' = s_arr (Chunk_Cells c2) → l2 = l) as Hsep.
  { intros l2 c2 H2 E. destruct (ap_where _ _ _ _ _ A) as [Ew|Ew].
    - eapply (swf_sep f W l2 l c2 c); [done..|congruence|]. rewrite <- E. lia.
    - pose proof (swf_chunks f W l2 c2 H2). lia. }
  split; simpl.
  - lia.
  - rewrite (ap_cells _ _ _ _ _ A). intros l2 c2 H. apply (swf_cells f W) in H. lia.
  - rewrite (ap_chunks _ _ _ _ _ A). intros l2 c2. rewrite lookup_insert_Some.
    intros [[<- <-]|[_ H]]; [rewrite Hs; lia|]. apply (swf_chunks f W) in H. lia.
  - apply (ap_arrays _ _ _ _ _ A).
  - rewrite (ap_chunks _ _ _ _ _ A). intros l1 l2 c1 c2. rewrite !lookup_insert_Some.
    intros [[<- <-]|[N1 H1]] [[<- <-]|[N2 H2]]; try done.
    + rewrite Hs. intros E _. by rewrite (Hsep l2 c2).
    + rewrite Hs. intros E _. by rewrite (Hsep l1 c1).
    + by apply (swf_sep f W).
Qed.

(** Other slices do not notice the append. *)
Lemma appended_slice f f' l c sl' cl c' s cs :
  appended f f' (Chunk_Cells c) sl' cl → slice_vals f s cs → (s_arr s < next_loc f)%nat →
  (s_arr s = s_arr (Chunk_Cells c) → (s_len s <= s_len (Chunk_Cells c))%nat) →
  slice_vals (set_chunk_obj f' l c') s cs.
Proof.
  intros A Hs Hlt Hle. eapply slice_vals_mono; [exact Hs| |].
  - simpl. by rewrite (ap_cells _ _ _ _ _ A).
  - intros i Hi. by apply (ap_frame _ _ _ _ _ A).
Qed.

Lemma appended_stable f f' l c sl' cl c' :
  store_wf f → chunk_objs f !! l = Some c → appended f f' (Chunk_Cells c) sl' cl →
  Chunk_Cells c' = sl' → stable f (set_chunk_obj f' l c').
Proof.
  intros W Hc A Hs sl cs [H1 H2] Hv.
  assert (s_arr sl = s_arr (Chunk_Cells c) → (s_len sl <= s_len (Chunk_Cells c))%nat) as Hle.
  { intros E. destruct (decide (s_arr sl = 0%nat)) as [E0|]; [|by eapply H2].
    pose proof (slice_vals_len _ _ _ Hv) as Hl. unfold backing in Hl.
    destruct (arrays f !! s_arr sl) as [a|] eqn:Ha; [apply (swf_arrays f W) in Ha; lia|].
    simpl in Hl. lia. }
  split; [|by eapply appended_slice].
  pose proof (ap_next _ _ _ _ _ A). split; [simpl; lia|]. simpl.
  rewrite (ap_chunks _ _ _ _ _ A). intros l2 c2. rewrite lookup_insert_Some.
  intros [[<- <-]|[_ H2']]; [|by eapply H2].
  rewrite Hs, (ap_len _ _ _ _ _ A). intros E _.
  destruct (ap_where _ _ _ _ _ A) as [Ew|Ew]; [|lia].
  specialize (Hle ltac:(congruence)). lia.
Qed.

Lemma appended_vals f f' sl sl' cl cs cell :
  slice_vals f sl cs → appended f f' sl sl' cl → cell_objs f !! cl = Some cell →
  slice_vals f' sl' (cs ++ [info cell]).
Proof.
  intros [Hl H] A Hc. split; [rewrite (ap_len _ _ _ _ _ A), length_app; simpl; lia|].
  intros i x Hx. apply lookup_app_Some in Hx as [Hx|[Hge Hx]].
  - destruct (H i x Hx) as (l & c & H1 & H2 & H3). exists l, c.
    rewrite (ap_cells _ _ _ _ _ A). split_and!; try done.
    rewrite (ap_old _ _ _ _ _ A); [done|]. apply lookup_lt_Some in Hx. lia.
  - apply list_lookup_singleton_Some in Hx as [Hi <-]. exists cl, cell.
    rewrite (ap_cells _ _ _ _ _ A). split_and!; try done.
    replace i with (s_len sl) by lia. apply (ap_new _ _ _ _ _ A).
Qed.

(** Appending a cell object to chunk [k]: the common part of
    [addCellToLastAvailable] and of the journal replay. *)
Lemma append_rep f f' v k l c vc sl' cl cell ver :
  file_rep f v → Chunks f !! k = Some l → chunk_objs f !! l = Some c → v_chunks v !! k = Some vc →
  appended f f' (Chunk_Cells c) sl' cl → cell_objs f !! cl = Some cell →
  file_rep (set_chunk_obj f' l (mkChunk (Chunk_ID c) (DataNode c) ver sl'))
    (mkVFile (<[k := mkVChunk (vc_node vc) ver (vc_cells vc ++ [info cell])]> (v_chunks v))
       (v_cells v) (v_last v)).
Proof.
  intros [W Hch Hce Hla] Hk Hc Hvc A Hcl.
  destruct (map_Forall2_lookup_r _ _ _ _ _ Hch Hvc) as (l' & Hl' & c' & H1 & H2 & H3 & H4 & H5).
  assert (l' = l) by congruence. subst l'. assert (c' = c) by congruence. subst c'.
  split; simpl; [by eapply appended_wf| | |].
  - rewrite (ap_Chunks _ _ _ _ _ A), <- (insert_id (Chunks f) k l Hk).
    eapply map_Forall2_update; [exact Hch| |].
    + eexists. simpl. rewrite lookup_insert_eq. split_and!; try done.
      eapply appended_vals in A; [|exact H5|exact Hcl]. exact A.
    + intros j m w Hj Hm (d & D1 & D2 & D3 & D4 & D5). exists d. simpl.
      rewrite (ap_chunks _ _ _ _ _ A).
      assert (m ≠ l) by (intros ->; congruence).
      rewrite lookup_insert_ne by done. split_and!; try done.
      eapply appended_slice; [done..|by apply (swf_chunks f W m d D1)|].
      intros E. destruct (decide (s_arr (Chunk_Cells d) = 0%nat)) as [E0|E0];
        [|by destruct (swf_sep f W m l d c)].
      pose proof (slice_vals_len _ _ _ D5) as Hl0. unfold backing in Hl0.
      destruct (arrays f !! s_arr (Chunk_Cells d)) as [a|] eqn:Ha;
        [apply (swf_arrays f W) in Ha; lia|]. simpl in Hl0. lia.
  - rewrite (ap_Cells _ _ _ _ _ A). eapply map_Forall2_impl; [exact Hce|].
    intros j m ci (d & D1 & D2 & D3). exists d. simpl.
    rewrite (ap_cells _ _ _ _ _ A), (ap_name _ _ _ _ _ A). done.
  - unfold last_val in *. simpl. by rewrite (ap_Chunks _ _ _ _ _ A), (ap_last _ _ _ _ _ A).
Qed.

(** Entering a cell object in the index. *)
Lemma set_Cells_rep f v id cl cell :
  file_rep f v → cell_objs f !! cl = Some cell → SheetName cell = filename f →
  file_rep (set_Cells f (<[id := cl]> (Cells f)))
    (mkVFile (v_chunks v) (<[id := info cell]> (v_cells v)) (v_last v)).
Proof.
  intros [W Hch Hce Hla] Hc Hn. split; simpl; [|exact Hch| |exact Hla].
  - by destruct W.
  - eapply map_Forall2_update; [exact Hce| |done]. by exists cell.
Qed.

Lemma getCellOffset_slot f c k vc id size :
  slice_vals f (Chunk_Cells c) (vc_cells vc) → layout (vc_cells vc) →
  getCellOffset c = ci_off (v_slot vc k id size).
Proof.
  intros [Hl _] HL. unfold getCellOffset, v_slot. simpl. rewrite Hl. apply u64_small.
  assert (Z.of_nat (length (vc_cells vc)) <= 4) as Hle.
  { destruct HL as [(x & -> & _)|(H & _)]; [simpl; lia|exact H]. }
  rewrite MaxBytesPerCell_val. unfold is_u64. lia.
Qed.

Lemma addCellToLastAvailable_spec f v k vc row col size :
  file_rep f v → v_last v = Some k → v_chunks v !! k = Some vc → layout (vc_cells vc) →
  ∃ cl f' c, addCellToLastAvailable row col size f = Some (cl, f')
    ∧ file_rep f' (v_put v vc k (GetCellID row col) size)
    ∧ stable f f' ∧ filename f' = filename f ∧ Chunks f' = Chunks f
    ∧ LastAvailableChunk f' = LastAvailableChunk f
    ∧ cell_objs f' !! cl = Some c ∧ info c = v_slot vc k (GetCellID row col) size
    ∧ SheetName c = filename f.
Proof.
  intros R Hlast Hvc HL.
  pose proof (rep_last _ _ R) as Hla. unfold last_val in Hla. rewrite Hlast in Hla.
  destruct (map_Forall2_lookup_r _ _ _ _ _ (rep_chunks _ _ R) Hvc)
    as (l' & Hl' & c & H1 & H2 & H3 & H4 & H5).
  assert (l' = LastAvailableChunk f) by congruence. subst l'.
  set (cell := NewCell (GetCellID row col) (getCellOffset c) size (Chunk_ID c) (filename f)).
  assert (info cell = v_slot vc k (GetCellID row col) size) as Hinfo.
  { unfold info, cell, NewCell. cbn [CellID Offset Size ChunkID].
    rewrite (getCellOffset_slot f c k vc (GetCellID row col) size H5 HL), H2. done. }
  destruct (alloc_cell_view f cell (rep_wf _ _ R)) as [V1 W1].
  set (f1 := bump (set_cell_obj f (next_loc f) cell)) in *.
  set (f2 := set_Cells f1 (<[CellID cell := next_loc f]> (Cells f1))).
  assert (cell_objs f2 !! next_loc f = Some cell) as Hcell by (simpl; by rewrite lookup_insert_eq).
  assert (file_rep f2 (mkVFile (v_chunks v) (<[CellID cell := info cell]> (v_cells v)) (v_last v))) as R2.
  { apply set_Cells_rep; [by eapply same_view_rep|exact Hcell|done]. }
  assert (slice_vals f2 (Chunk_Cells c) (vc_cells vc)) as H5'.
  { assert (slice_vals f1 (Chunk_Cells c) (vc_cells vc)) as Hx by (by apply (sv_slices _ _ V1)).
    exact Hx. }
  destruct (slice_append_spec f2 (Chunk_Cells c) (next_loc f)) as (sl' & f3 & E & A).
  { apply R2. } { apply (swf_chunks _ (rep_wf _ _ R2) (LastAvailableChunk f) c H1). }
  { by eapply slice_vals_len. }
  exists (next_loc f),
    (set_chunk_obj f3 (LastAvailableChunk f) (mkChunk (Chunk_ID c) (DataNode c) (u64 (Version c + 1)) sl')),
    cell.
  split_and!; simpl.
  - unfold addCellToLastAvailable. go_run (eq_refl : go_get f = Some (f, f)).
    go_run (load_chunk_eq _ _ _ H1).
    go_run (eq_refl : alloc_cell cell f = Some (next_loc f, f1)).
    go_run (eq_refl : go_modify (λ g, set_Cells g (<[CellID cell := next_loc f]> (Cells g))) f1
                      = Some ((), f2)).
    go_run E. done.
  - pose proof (append_rep f2 f3 _ k _ c vc sl' _ cell (u64 (Version c + 1)) R2 Hl' H1 Hvc A Hcell) as Hr.
    simpl in Hr. rewrite Hinfo in Hr. unfold v_put. rewrite <- H4, <- Hlast. exact Hr.
  - etransitivity; [by apply same_view_stable|].
    apply (appended_stable f2 f3 _ c sl' (next_loc f)); [apply R2|done..].
  - apply (ap_name _ _ _ _ _ A).
  - apply (ap_Chunks _ _ _ _ _ A).
  - apply (ap_last _ _ _ _ _ A).
  - by rewrite (ap_cells _ _ _ _ _ A).
  - exact Hinfo.
  - done.
Qed.

(** ** Free space *)
Lemma load_slice_spec f sl cs i n :
  slice_vals f sl cs → (i + n = s_len sl)%nat →
  ∃ cells, load_slice_from sl i n f = Some (cells, f) ∧ info <$> cells = drop i cs.
Proof.
  intros Hs. revert i. induction n as [|n IH]; intros i Hn.
  { exists []. split; [done|]. rewrite drop_ge; [done|]. destruct Hs as [Hl _]. lia. }
  pose proof Hs as [Hl Hc].
  destruct (lookup_lt_is_Some_2 cs i ltac:(lia)) as [x Hx].
  destruct (Hc i x Hx) as (l & c & H1 & H2 & H3).
  destruct (IH (S i) ltac:(lia)) as (cells & E & Hd).
  exists (c :: cells). split; [|by rewrite fmap_cons, H3, Hd, (drop_S cs x i)].
  cbn [load_slice_from].
  assert (slice_get sl i f = Some (l, f)) as Hg.
  { unfold slice_get. rewrite decide_True by lia. by rewrite H1. }
  go_run Hg. go_run (load_cell_eq _ _ _ H2). by go_run E.
Qed.

Lemma used_bytes_sizes cells :
  Forall (λ c, 0 <= ci_size c) (info <$> cells) → sizes (info <$> cells) < 2 ^ 64 →
  used_bytes cells = sizes (info <$> cells).
Proof.
  intros Hp Hlt. unfold used_bytes.
  assert (∀ a, 0 <= a → a + sizes (info <$> cells) < 2 ^ 64 →
    foldl (λ used c, u64 (used + Size c)) a cells = a + sizes (info <$> cells)) as Hg.
  { clear Hlt. induction cells as [|c cells IH]; intros a Ha Hs; [simpl; lia|].
    rewrite fmap_cons in *. apply Forall_cons in Hp as [Hc Hp].
    pose proof (sizes_nonneg _ Hp) as Hnn.
    change (sizes (info c :: (info <$> cells))) with (Size c + sizes (info <$> cells)) in *.
    simpl in Hc. cbn [foldl].
    rewrite u64_small by (unfold is_u64; lia). rewrite (IH Hp) by lia. lia. }
  by apply Hg.
Qed.

Lemma layout_sizes_nonneg cs : layout cs → Forall (λ c, 0 <= ci_size c) cs.
Proof.
  intros [(c & -> & _ & Hs)|(_ & Hs & _)].
  - constructor; [rewrite Hs; done|constructor].
  - eapply Forall_impl; [exact Hs|]. intros c ->. done.
Qed.

Lemma isAvailable_spec f k l vc size :
  chunk_val f k l vc → layout (vc_cells vc) →
  isAvailable l size f = Some (v_room vc size, f).
Proof.
  intros (c & H1 & H2 & H3 & H4 & H5) HL. unfold isAvailable.
  go_run (load_chunk_eq _ _ _ H1).
  destruct (load_slice_spec f _ _ 0 (s_len (Chunk_Cells c)) H5) as (cells & E & Hc); [done|].
  rewrite drop_0 in Hc. unfold load_slice. go_run E. f_equal. f_equal.
  pose proof (layout_sizes _ HL) as Hz. unfold BytesPerChunk in *.
  rewrite used_bytes_sizes; rewrite Hc; [|by apply layout_sizes_nonneg|lia].
  rewrite u64_small by (unfold is_u64; lia). unfold v_room, BytesPerChunk.
  destruct (Z.leb_spec size (8192 - sizes (vc_cells vc)));
    destruct (Z.leb_spec (size + sizes (vc_cells vc)) 8192); try done; lia.
Qed.

(** ** A new chunk *)

(** The store after the composite literal of a new chunk, its [Persistent] and
    its entry in [Chunks] and [LastAvailableChunk]. *)
Definition fresh_chunk (f : SheetFile) (k : Z) (node : string) : SheetFile :=
  let f1 := bump (set_array f (next_loc f) []) in
  let l := next_loc f1 in
  let f2 := bump (set_chunk_obj f1 l (mkChunk 0 node 0 (mkSlice (next_loc f) 0))) in
  let f3 := set_chunk_obj f2 l (mkChunk k node 0 (mkSlice (next_loc f) 0)) in
  set_LastAvailableChunk (set_Chunks f3 (<[k := l]> (Chunks f3))) l.

Lemma fresh_chunk_slice f k node sl cs :
  slice_vals f sl cs → (s_arr sl < next_loc f)%nat → slice_vals (fresh_chunk f k node) sl cs.
Proof.
  intros Hs Hlt. eapply slice_vals_mono; [exact Hs|done|]. intros i _. unfold backing. simpl.
  by rewrite lookup_insert_ne by lia.
Qed.

Lemma fresh_chunk_rep f v k node :
  file_rep f v → v_chunks v !! k = None →
  file_rep (fresh_chunk f k node)
    (mkVFile (<[k := mkVChunk node 0 []]> (v_chunks v)) (v_cells v) (Some k)).
Proof.
  intros [W Hch Hce Hla] Hk. pose proof (swf_next f W).
  assert (chunk_objs f !! S (next_loc f) = None) as Hfr.
  { destruct (chunk_objs f !! S (next_loc f)) as [c|] eqn:E; [|done].
    apply (swf_chunks f W) in E. lia. }
  split; simpl.
  - destruct W as [W1 W2 W3 W4 W5]. split; simpl; try lia.
    + intros l c H1. apply W2 in H1. lia.
    + intros l c. rewrite insert_insert_eq, lookup_insert_Some.
      intros [[<- <-]|[_ H1]]; [simpl; lia|]. apply W3 in H1. lia.
    + intros l a. rewrite lookup_insert_Some. intros [[<- <-]|[_ H1]]; [lia|]. apply W4 in H1. lia.
    + intros l1 l2 c1 c2. rewrite !insert_insert_eq, !lookup_insert_Some.
      intros [[<- <-]|[_ H1]] [[<- <-]|[_ H2]]; simpl; try done.
      * intros E _. apply W3 in H2. lia.
      * intros E _. apply W3 in H1. lia.
      * by apply W5.
  - eapply map_Forall2_update; [exact Hch| |].
    + eexists. simpl. rewrite lookup_insert_eq. split_and!; try done.
    + intros j l vc Hj Hl (c & H1 & H2 & H3 & H4 & H5). exists c. simpl.
      pose proof (swf_chunks f W l c H1).
      rewrite !lookup_insert_ne by lia. split_and!; try done.
      apply (fresh_chunk_slice f k node); [done|lia].
  - exact Hce.
  - by rewrite lookup_insert_eq.
Qed.

Lemma fresh_chunk_stable f k node : store_wf f → stable f (fresh_chunk f k node).
Proof.
  intros W sl cs [H1 H2] Hs. split; [|by apply fresh_chunk_slice]. split; [simpl; lia|]. simpl.
  intros l c. rewrite insert_insert_eq, lookup_insert_Some.
  intros [[<- <-]|[_ H]]; [simpl; intros; lia|]. by apply (H2 l).
Qed.

(** ** The state of a write *)
Lemma on_file_eq {db A} (m : FileM A) (w : World db) a f' :
  m (w_file w) = Some (a, f') → on_file m w = Some (a, mkWorld f' (w_alloc w) (w_db w)).
Proof. unfold on_file. by intros ->. Qed.

Section writes.
Context {db : Type} `{MetaDB db} `{!MetaDBLaws db}.
Implicit Types (w : World db).

(** The data node and the identifier a new chunk would get. *)
Definition next_node (al : DataNodeAllocator) : option string :=
  match AllocateNode al with Some (Ok n, _) => Some n | _ => None end.
Definition next_chunk_id (d : db) (node : option string) : Z :=
  fst (db_create_chunk d {| row_ID := 0; row_DataNode := default "" node; row_Version := 0 |}).

(** The chunks of a file all have a row: the identifiers come from the
    database of this master. *)
Definition rows_known (d : db) (v : VFile) : Prop :=
  ∀ k, is_Some (v_chunks v !! k) → is_Some (db_first_chunk d k).

(** The state of a master that works on one file. *)
Record world_rep w (v : VFile) : Prop := {
  wr_file : file_rep (w_file w) v;
  wr_inv : v_inv v;
  wr_alloc : alloc_wf (w_alloc w);
  wr_rows : rows_known (w_db w) v
}.

Lemma Chunk_Persistent_eq w l c id d :
  chunk_objs (w_file w) !! l = Some c → db_create_chunk (w_db w) (row_of c) = (id, d) →
  Chunk_Persistent l w
  = Some ((), mkWorld (set_chunk_obj (w_file w) l (mkChunk id (DataNode c) (Version c) (Chunk_Cells c)))
                (w_alloc w) d).
Proof.
  intros Hc Hd. unfold Chunk_Persistent.
  go_run (on_file_eq _ _ _ _ (load_chunk_eq _ _ _ Hc)). destruct w as [f al d0]. simpl in *.
  go_run (eq_refl : go_get (mkWorld f al d0) = Some (_, _)). simpl. by rewrite Hd.
Qed.

Lemma next_chunk_id_fresh d v node :
  rows_known d v → v_chunks v !! next_chunk_id d node = None.
Proof.
  intros Hr. destruct (v_chunks v !! next_chunk_id d node) eqn:E; [|done].
  destruct (Hr _ (mk_is_Some _ _ E)) as [r Hr']. unfold next_chunk_id in Hr'.
  destruct (db_create_chunk d _) as [id d'] eqn:Hd. simpl in Hr'.
  apply create_chunk_fresh in Hd as (_ & Hn & _); [|done]. congruence.
Qed.

Lemma newCellSize_eq row col :
  is_u32 row → is_u32 col →
  (if (row =? SheetMetaCellRow) && (col =? SheetMetaCellCol) then BytesPerChunk else MaxBytesPerCell)
  = cell_size (GetCellID row col).
Proof.
  intros Hr Hc. unfold cell_size. destruct (Z.eqb_spec (GetCellID row col) SheetMetaCellID) as [E|E].
  - apply GetCellID_meta in E as [-> ->]; done.
  - destruct (Z.eqb_spec row SheetMetaCellRow) as [->|]; [|done]. simpl.
    destruct (Z.eqb_spec col SheetMetaCellCol) as [->|]; [|done].
    exfalso. by apply E, GetCellID_meta.
Qed.

(** What a method answers: the snapshots of a cell and of its chunk. *)
Definition answers (f : SheetFile) (v : VFile) (r : result MasterError (Cell * Chunk))
    (a : option (Z * CellInfo)) : Prop :=
  match a with
  | None => r = Err NoDataNode
  | Some (k, ci) => ∃ cell chunk vc, r = Ok (cell, chunk) ∧ info cell = ci
      ∧ SheetName cell = filename f ∧ v_chunks v !! k = Some vc ∧ shows f chunk k vc
  end.

(** Taking both snapshots at the end of a write. *)
Lemma snapshots_answer w v cl c l k ci :
  file_rep (w_file w) v → cell_objs (w_file w) !! cl = Some c → info c = ci →
  SheetName c = filename (w_file w) → Chunks (w_file w) !! k = Some l →
  ∃ ch f', on_file (Cell_Snapshot cl) w = Some (c, w)
    ∧ on_file (Chunk_Snapshot l) w = Some (ch, mkWorld f' (w_alloc w) (w_db w))
    ∧ same_view (w_file w) f' ∧ file_rep f' v ∧ answers f' v (Ok (c, ch)) (Some (k, ci)).
Proof.
  intros R Hc Hi Hn Hl.
  destruct (map_Forall2_lookup_l _ _ _ _ _ (rep_chunks _ _ R) Hl) as (vc & Hvc & Hval).
  destruct (Chunk_Snapshot_shows _ k l vc (rep_wf _ _ R) Hval) as (ch & f' & E & V & W & S).
  exists ch, f'. split_and!.
  - rewrite (on_file_eq (Cell_Snapshot cl) w c (w_file w)); [by destruct w|by apply load_cell_eq].
  - by apply on_file_eq.
  - done.
  - by eapply same_view_rep.
  - exists c, ch, vc. rewrite (sv_name _ _ V). done.
Qed.

Lemma rows_known_insert d v k vc cs la :
  rows_known d v → is_Some (db_first_chunk d k) →
  rows_known d (mkVFile (<[k := vc]> (v_chunks v)) cs la).
Proof.
  intros Hr Hk j Hj. simpl in Hj. apply lookup_insert_is_Some in Hj as [<-|[_ Hj]]; auto.
Qed.

Lemma rows_known_chunk d v k vc :
  rows_known d v → v_chunks v !! k = Some vc → is_Some (db_first_chunk d k).
Proof. intros Hr Hk. apply Hr. by eexists. Qed.

(** A write of a cell that exists. *)
Lemma WriteCellChunk_existing w v row col ci vc :
  file_rep (w_file w) v → v_inv v → v_get v (GetCellID row col) = Some (ci, vc) →
  ∃ r f', WriteCellChunk row col w = Some (r, mkWorld f' (w_alloc w) (w_db w))
    ∧ let v' := mkVFile (<[ci_chunk ci := v_bump vc]> (v_chunks v)) (v_cells v) (v_last v) in
      file_rep f' v' ∧ answers f' v' r (Some (ci_chunk ci, ci))
      ∧ stable (w_file w) f' ∧ filename f' = filename (w_file w).
Proof.
  intros R Hv G. apply v_get_inv in G as (H1 & H2 & _ & _); [|done].
  destruct (map_Forall2_lookup_r _ _ _ _ _ (rep_cells _ _ R) H1) as (cl & Hcl & c & Hcc & <- & Hn).
  destruct (map_Forall2_lookup_r _ _ _ _ _ (rep_chunks _ _ R) H2)
    as (l & Hl & ch & C1 & C2 & C3 & C4 & C5).
  unfold WriteCellChunk. go_run (eq_refl : go_get w = Some (w, w)). rewrite Hcl.
  go_run (on_file_eq _ _ _ _ (load_cell_eq _ _ _ Hcc)). destruct w as [f al d]. simpl in *.
  assert (go_deref (Chunks f !! ChunkID c) (mkWorld f al d) = Some (l, mkWorld f al d)) as Hd
    by (by rewrite Hl).
  go_run Hd. go_run (on_file_eq _ (mkWorld f al d) _ _ (load_chunk_eq _ _ _ C1)).
  set (f1 := set_chunk_obj f l (mkChunk (Chunk_ID ch) (DataNode ch) (u64 (Version ch + 1)) (Chunk_Cells ch))).
  assert (file_rep f1 (mkVFile (<[ChunkID c := v_bump vc]> (v_chunks v)) (v_cells v) (v_last v))) as R1.
  { unfold v_bump. rewrite <- C3, <- C4. by apply update_chunk_rep. }
  go_run (eq_refl : on_file (store_chunk l _) (mkWorld f al d) = Some ((), mkWorld f1 al d)).
  destruct (snapshots_answer (mkWorld f1 al d) _ cl c l (ChunkID c) (info c) R1) as
    (chs & f' & E1 & E2 & V & R2 & An); [done..|].
  go_run E1. go_run E2. eexists _, _. split_and!; [done|done|exact An| |apply (sv_name _ _ V)].
  etransitivity; [|by apply same_view_stable]. by eapply update_chunk_stable.
Qed.

(** A new cell in the last available chunk: the steps both branches share. *)
Lemma add_and_snapshot f (al : DataNodeAllocator) (d : db) v k vc row col size :
  file_rep f v → v_last v = Some k → v_chunks v !! k = Some vc → layout (vc_cells vc) →
  let v' := v_put v vc k (GetCellID row col) size in
  ∃ cl c ch f1 f2,
    on_file (addCellToLastAvailable row col size) (mkWorld f al d) = Some (cl, mkWorld f1 al d)
    ∧ on_file (Cell_Snapshot cl) (mkWorld f1 al d) = Some (c, mkWorld f1 al d)
    ∧ LastAvailableChunk f1 = LastAvailableChunk f
    ∧ on_file (Chunk_Snapshot (LastAvailableChunk f)) (mkWorld f1 al d) = Some (ch, mkWorld f2 al d)
    ∧ file_rep f2 v' ∧ stable f f2 ∧ filename f2 = filename f
    ∧ answers f2 v' (Ok (c, ch)) (Some (k, v_slot vc k (GetCellID row col) size)).
Proof.
  intros R Hla Hvc HL.
  destruct (addCellToLastAvailable_spec f v k vc row col size R Hla Hvc HL)
    as (cl & f1 & c & E & R1 & S1 & N1 & Ch1 & L1 & Hc & Hi & Hn).
  pose proof (rep_last _ _ R) as Hl. unfold last_val in Hl. rewrite Hla in Hl.
  destruct (snapshots_answer (mkWorld f1 al d) _ cl c (LastAvailableChunk f) k _ R1 Hc Hi) as
    (ch & f2 & E1 & E2 & V & R2 & An); [simpl; congruence..|].
  exists cl, c, ch, f1, f2. split_and!; try done.
  - by rewrite (on_file_eq _ (mkWorld f al d) _ _ E).
  - etransitivity; [exact S1|]. by apply same_view_stable.
  - rewrite (sv_name _ _ V). exact N1.
Qed.

(** The test of the branch: is there room in the last available chunk? *)
Lemma available_eq f (al : DataNodeAllocator) (d : db) v size :
  file_rep f v → v_inv v →
  ((if decide (LastAvailableChunk f = 0%nat) then mret false
    else on_file (isAvailable (LastAvailableChunk f) size)) : GoM (World db) bool) (mkWorld f al d)
  = Some (match v_available v size with Some _ => true | None => false end, mkWorld f al d).
Proof.
  intros R Hv. pose proof (rep_last _ _ R) as Hl. unfold last_val, v_available in *.
  destruct (v_last v) as [k|] eqn:El; [|by rewrite decide_True].
  destruct (map_Forall2_lookup_l _ _ _ _ _ (rep_chunks _ _ R) Hl) as (vc & Hvc & Hval).
  pose proof Hval as (c & H1 & _). apply (swf_chunks _ (rep_wf _ _ R)) in H1.
  rewrite decide_False by lia. simpl. rewrite Hvc. simpl.
  destruct (inv_chunks v Hv k vc Hvc) as (_ & _ & HL & _).
  rewrite (on_file_eq _ (mkWorld f al d) _ _ (isAvailable_spec _ _ _ _ size Hval HL)).
  by destruct (v_room vc size).
Qed.

Lemma allocate_node_eq f al (d : db) :
  alloc_wf al →
  ∃ r al', allocate_node (mkWorld f al d) = Some (r, mkWorld f al' d) ∧ alloc_wf al'
    ∧ dataNodes al' = dataNodes al
    ∧ next_node al = match r with Ok n => Some n | Err _ => None end.
Proof.
  intros Ha. destruct (AllocateNode_total al Ha) as [[r al'] E].
  exists r, al'. unfold allocate_node, next_node. simpl. rewrite E.
  destruct (AllocateNode_wf _ _ _ Ha E) as [Hw Hd]. split_and!; done || by destruct r.
Qed.

(** The steps that make a new chunk out of the allocated node. *)
Lemma new_chunk_eq {A} f al (d : db) node k d' (K : loc → GoM (World db) A) :
  db_create_chunk d {| row_ID := 0; row_DataNode := node; row_Version := 0 |} = (k, d') →
  ((arr ← on_file (alloc_array []);
    newChunk ← on_file (alloc_chunk (mkChunk 0 node 0 (mkSlice arr 0)));
    Chunk_Persistent newChunk ≫= λ _,
    c ← on_file (load_chunk newChunk);
    on_file (go_modify (λ f, set_Chunks f (<[Chunk_ID c := newChunk]> (Chunks f)))) ≫= λ _,
    on_file (go_modify (λ f, set_LastAvailableChunk f newChunk)) ≫= λ _,
    K newChunk) : GoM (World db) A) (mkWorld f al d)
  = K (S (next_loc f)) (mkWorld (fresh_chunk f k node) al d').
Proof.
  intros Hd.
  go_run (eq_refl : on_file (alloc_array []) (mkWorld f al d) = Some (_, _)).
  set (f1 := bump (set_array f (next_loc f) [])).
  go_run (eq_refl : on_file (alloc_chunk (mkChunk 0 node 0 (mkSlice (next_loc f) 0)))
              (mkWorld f1 al d) = Some (S (next_loc f), _)).
  erewrite (GoM_bind_Some (Chunk_Persistent _));
    [|by apply Chunk_Persistent_eq; [simpl; by rewrite lookup_insert_eq|exact Hd]].
  erewrite (GoM_bind_Some (on_file (load_chunk _)));
    [|apply on_file_eq, load_chunk_eq; simpl; by rewrite lookup_insert_eq].
  reflexivity.
Qed.

Definition rows_grow (d d' : db) : Prop :=
  ∀ k, is_Some (db_first_chunk d k) → is_Some (db_first_chunk d' k).

Lemma rows_grow_create d node k d' :
  db_create_chunk d {| row_ID := 0; row_DataNode := node; row_Version := 0 |} = (k, d') → rows_grow d d'.
Proof.
  intros Hd. apply create_chunk_fresh in Hd as (_ & _ & Hd); [|done].
  intros j Hj. rewrite Hd. by case_decide.
Qed.

Lemma rows_known_create d v node k d' vc cs la :
  db_create_chunk d {| row_ID := 0; row_DataNode := node; row_Version := 0 |} = (k, d') →
  rows_known d v → rows_known d' (mkVFile (<[k := vc]> (v_chunks v)) cs la).
Proof.
  intros Hd Hrows. apply create_chunk_fresh in Hd as (_ & _ & Hd); [|done].
  intros j Hj. simpl in Hj. rewrite Hd. case_decide; [done|].
  apply Hrows. by rewrite lookup_insert_ne in Hj.
Qed.

Lemma v_put_fresh v k vc id size :
  v_put (mkVFile (<[k := vc]> (v_chunks v)) (v_cells v) (Some k)) vc k id size = v_put v vc k id size.
Proof. unfold v_put. simpl. by rewrite insert_insert_eq. Qed.

Lemma WriteCellChunk_spec w v row col :
  world_rep w v → is_u32 row → is_u32 col →
  let node := next_node (w_alloc w) in
  let out := v_write v (GetCellID row col) node (next_chunk_id (w_db w) node) in
  ∃ r w', WriteCellChunk row col w = Some (r, w') ∧ world_rep w' (fst out)
    ∧ answers (w_file w') (fst out) r (snd out)
    ∧ stable (w_file w) (w_file w') ∧ filename (w_file w') = filename (w_file w)
    ∧ rows_grow (w_db w) (w_db w') ∧ dataNodes (w_alloc w') = dataNodes (w_alloc w).
Proof.
  intros [R Hv Ha Hrows] Hr Hc. cbv zeta.
  pose proof (next_chunk_id_fresh _ _ (next_node (w_alloc w)) Hrows) as Hfresh.
  pose proof (v_write_inv v (GetCellID row col) (next_node (w_alloc w)) _ Hv Hfresh) as Hinv.
  unfold v_write in *. destruct (v_get v (GetCellID row col)) as [[ci vc]|] eqn:G.
  { destruct (WriteCellChunk_existing w v row col ci vc R Hv G) as (r & f' & E & R' & An & S & N).
    eexists _, _. split_and!; [exact E| |done..|by intros k|done]. split; try done. simpl.
    apply rows_known_insert; [done|]. apply v_get_inv in G as (_ & H2 & _); [|done].
    by eapply rows_known_chunk. }
  apply v_get_None in G; [|done]. destruct w as [f al d]. cbn [w_file w_alloc w_db] in *.
  unfold WriteCellChunk. go_run (eq_refl : go_get (mkWorld f al d) = Some (_, _)). cbn [w_file].
  rewrite (proj2 (map_Forall2_lookup_None _ _ _ _ (rep_cells _ _ R)) G).
  rewrite (newCellSize_eq row col Hr Hc).
  go_run (available_eq f al d v (cell_size (GetCellID row col)) R Hv).
  destruct (v_available v (cell_size (GetCellID row col))) as [[k vc]|] eqn:A.
  - apply v_available_Some in A as (Hla & Hvc & Hroom).
    destruct (inv_chunks v Hv k vc Hvc) as (_ & _ & HL & _).
    destruct (add_and_snapshot f al d v k vc row col (cell_size (GetCellID row col)) R Hla Hvc HL)
      as (cl & c & ch & f1 & f2 & E1 & E2 & EL & E3 & R2 & S2 & N2 & An).
    go_run E1. go_run E2. go_run (eq_refl : go_get (mkWorld f1 al d) = Some (_, _)).
    cbn [w_file]. rewrite EL. go_run E3.
    eexists _, _. split_and!; [done| |exact An|done..|by intros j|done]. split; try done.
    apply rows_known_insert; [done|]. by eapply rows_known_chunk.
  - destruct (allocate_node_eq f al d Ha) as (r & al' & E & Ha' & Hdn & Hn). go_run E. rewrite Hn in *.
    destruct r as [node|e];
      [|by eexists _, _; split_and!; first [done|by split|by intros ? ?]].
    unfold next_chunk_id in *. cbn [default] in *.
    destruct (db_create_chunk d _) as [k d'] eqn:Hd. cbn [fst snd] in *.
    rewrite (new_chunk_eq f al' d node k d' _ Hd).
    pose proof (fresh_chunk_rep f v k node R Hfresh) as R1.
    destruct (add_and_snapshot (fresh_chunk f k node) al' d' _ k (mkVChunk node 0 []) row col
                (cell_size (GetCellID row col)) R1 eq_refl) as
      (cl & c & ch & f1 & f2 & E1 & E2 & EL & E3 & R2 & S2 & N2 & An);
      [apply lookup_insert_eq|apply layout_nil|].
    go_run E1. go_run E2. go_run E3. rewrite v_put_fresh in *.
    eexists _, _. split_and!; [done| |exact An| |done|by eapply rows_grow_create|done].
    + split; try done. by eapply rows_known_create.
    + etransitivity; [|exact S2]. apply fresh_chunk_stable, R.
Qed.

(** ** Creation *)

(** The store [CreateSheetFile] builds. *)
Definition created_file (name node : string) (k : Z) : SheetFile :=
  let meta := NewCell SheetMetaCellID 0 BytesPerChunk k name in
  let f1 := bump (set_chunk_obj (empty_file name) 1 (mkChunk 0 node 0 nil_slice)) in
  let f2 := set_chunk_obj f1 1 (mkChunk k node 0 nil_slice) in
  let f3 := bump (set_cell_obj f2 2 meta) in
  let f4 := bump (set_array f3 3 [2%nat]) in
  let f5 := set_chunk_obj f4 1 (mkChunk k node 0 (mkSlice 3 1)) in
  let f6 := set_Chunks f5 (<[k := 1%nat]> (Chunks f5)) in
  set_Cells f6 (<[SheetMetaCellID := 2%nat]> (Cells f6)).

Lemma created_file_slice name node k :
  slice_vals (created_file name node k) (mkSlice 3 1)
    [info (NewCell SheetMetaCellID 0 BytesPerChunk k name)].
Proof.
  split; [done|]. intros i x Hx. apply list_lookup_singleton_Some in Hx as [-> <-].
  exists 2%nat. eexists. unfold backing. simpl. rewrite !lookup_insert_eq. done.
Qed.

Lemma created_file_rep name node k : file_rep (created_file name node k) (v_create node k).
Proof.
  split; simpl.
  - split; simpl; try lia.
    + intros l c [<- _]%lookup_singleton_Some. lia.
    + intros l c. rewrite !insert_insert_eq.
      intros [<- <-]%lookup_singleton_Some. simpl. lia.
    + intros l a [<- _]%lookup_singleton_Some. lia.
    + intros l1 l2 c1 c2. rewrite !insert_insert_eq.
      intros [<- <-]%lookup_singleton_Some [<- <-]%lookup_singleton_Some. done.
  - refine (map_Forall2_insert_2 _ ∅ ∅ k _ _ _ (map_Forall2_empty _)).
    eexists. simpl. rewrite !insert_insert_eq.
    split; [apply lookup_insert_eq|]. split_and!; try done. apply (created_file_slice name).
  - refine (map_Forall2_insert_2 _ ∅ ∅ _ _ _ _ (map_Forall2_empty _)).
    eexists. simpl. rewrite lookup_insert_eq. done.
  - done.
Qed.

Lemma CreateSheetFile_spec (d d1 : db) al name :
  alloc_wf al → CreateCellTableIfNotExists d name = Ok d1 →
  let node := next_node al in
  let k := next_chunk_id d1 node in
  ∃ al' d2, (alloc_wf al' ∧ dataNodes al' = dataNodes al) ∧
    match node with
    | None => CreateSheetFile d al name = Some (Err NoDataNode, al', d1)
    | Some n => ∃ cell chunk,
        CreateSheetFile d al name = Some (Ok (created_file name n k, cell, chunk), al', d2)
        ∧ rows_known d2 (v_create n k) ∧ rows_grow d1 d2
        ∧ cell = NewCell SheetMetaCellID 0 BytesPerChunk k name
        ∧ shows (created_file name n k) chunk k (mkVChunk n 0 [info cell])
    end.
Proof.
  intros Ha Ht. cbv zeta. unfold CreateSheetFile. rewrite Ht.
  destruct (AllocateNode_total al Ha) as [[r al'] E].
  pose proof (AllocateNode_wf _ _ _ Ha E) as Hw.
  unfold next_node. rewrite E. simpl. destruct r as [n|e]; [|by exists al', d1].
  unfold next_chunk_id. simpl. destruct (db_create_chunk d1 _) as [k d2] eqn:Hd. simpl.
  exists al', d2. split; [done|]. 
  erewrite (GoM_bind_Some (on_file (alloc_chunk _))); [|done].
  erewrite (GoM_bind_Some (Chunk_Persistent _));
    [|by apply Chunk_Persistent_eq; [simpl; by rewrite lookup_insert_eq|exact Hd]].
  erewrite (GoM_bind_Some (on_file (load_chunk _)));
    [|apply on_file_eq, load_chunk_eq; simpl; by rewrite lookup_insert_eq].
  eexists _, _. split_and!; [reflexivity| |by eapply rows_grow_create|done|].
  - apply (rows_known_create d1 (mkVFile ∅ ∅ None) n k); [exact Hd|].
    intros j. simpl. rewrite lookup_empty. by intros [? ?].
  - split_and!; try done; [apply (created_file_slice name)|].
    apply (held_chunk _ 1); [apply created_file_rep|]. simpl. by rewrite lookup_insert_eq.
Qed.
End writes.
