(* ===== verification/SheetFileProps.v ===== *)
(** SheetFileProps: the theorems on sheet files.

    The methods of sheetfs/master/sheetfile/sheetfile.go, in any sequence, run
    without a panic, implement the value-level specification, keep the slots of
    the chunks disjoint, and never disturb a snapshot that was handed out. *)
From Stdlib Require Import ZArith Lia Permutation.
From stdpp Require Import gmap strings list fin_maps.
From S2P Require Import Prelude.
From S2P Require Import DataNodeAlloc.
From S2P Require Import MasterData.
From S2P Require Import SheetFile.
From S2P Require Import SheetFileSpec.
From S2P Require Import SheetFileRefine.
Open Scope Z_scope.

(** ** Sequences of calls *)
Inductive FileOp :=
| OpWrite (row col : Z)
| OpGet (row col : Z)
| OpAll.

Definition op_ok (o : FileOp) : Prop :=
  match o with OpWrite r c | OpGet r c => is_u32 r ∧ is_u32 c | OpAll => True end.

Section props.
Context {db : Type} `{MetaDB db} `{!MetaDBLaws db} {RO : RangeOrder}.
Implicit Types (w : World db).

Definition run_op (o : FileOp) : GoM (World db) () :=
  match o with
  | OpWrite r c => WriteCellChunk r c ≫= λ _, mret ()
  | OpGet r c => on_file (GetCellChunk r c) ≫= λ _, mret ()
  | OpAll => on_file GetAllChunks ≫= λ _, mret ()
  end.

Definition run_ops (ops : list FileOp) : GoM (World db) () := go_for ops run_op.

Lemma world_rep_view w v f' :
  world_rep w v → file_rep f' v → world_rep (mkWorld f' (w_alloc w) (w_db w)) v.
Proof. intros [] R. by split. Qed.

Lemma run_op_rep o w v :
  world_rep w v → op_ok o →
  ∃ w' v', run_op o w = Some ((), w') ∧ world_rep w' v' ∧ stable (w_file w) (w_file w').
Proof.
  intros R Ho. destruct o as [r c|r c|].
  - destruct Ho as [Hr Hc]. destruct (WriteCellChunk_spec w v r c R Hr Hc) as (a & w' & E & R' & _ & S & _).
    eexists w', _. simpl. go_run E. done.
  - destruct (GetCellChunk_spec (w_file w) v r c) as (a & f' & E & R' & V & _); [apply R..|].
    eexists (mkWorld f' (w_alloc w) (w_db w)), v. simpl. go_run (on_file_eq _ _ _ _ E).
    split_and!; [done|by apply world_rep_view|by apply same_view_stable].
  - destruct (GetAllChunks_spec (w_file w) v) as (a & f' & vs & E & R' & V & _); [apply R..|].
    eexists (mkWorld f' (w_alloc w) (w_db w)), v. simpl. go_run (on_file_eq _ _ _ _ E).
    split_and!; [done|by apply world_rep_view|by apply same_view_stable].
Qed.

Lemma run_ops_rep ops w v :
  world_rep w v → Forall op_ok ops →
  ∃ w' v', run_ops ops w = Some ((), w') ∧ world_rep w' v' ∧ stable (w_file w) (w_file w').
Proof.
  intros R Ho. revert w v R. induction Ho as [|o ops Ho _ IH]; intros w v R.
  - exists w, v. by split_and!.
  - destruct (run_op_rep o w v R Ho) as (w1 & v1 & E1 & R1 & S1).
    destruct (IH w1 v1 R1) as (w2 & v2 & E2 & R2 & S2).
    exists w2, v2. unfold run_ops. cbn [go_for]. go_run E1. split_and!; try done. by etransitivity.
Qed.

Lemma created_world_rep (d : db) al name f cell chunk al' d' :
  alloc_wf al → CreateSheetFile d al name = Some (Ok (f, cell, chunk), al', d') →
  ∃ n k d1, world_rep (mkWorld f al' d') (v_create n k) ∧ next_node al = Some n
    ∧ CreateCellTableIfNotExists d name = Ok d1 ∧ k = next_chunk_id d1 (Some n).
Proof.
  intros Ha Hc. destruct (CreateCellTableIfNotExists d name) as [d1|e] eqn:Ht;
    [|unfold CreateSheetFile in Hc; by rewrite Ht in Hc].
  destruct (CreateSheetFile_spec d d1 al name Ha Ht) as (al2 & d2 & [Ha2 _] & Hcase).
  destruct (next_node al) as [n|]; [|congruence].
  destruct Hcase as (cell2 & chunk2 & E & Hr & _). rewrite E in Hc. simplify_eq.
  eexists n, _, d1. split_and!; [|done..].
  split; try done; [apply created_file_rep|apply v_create_inv].
Qed.

(** C3. [WriteCellChunk] implements the specification [v_write]: on a file whose store
    represents the value [v] it does not panic; for a cell that exists it raises the version
    of the cell's chunk by one; a new cell gets the next slot of the last available chunk if
    there is room, else the first slot of a new chunk on the next data node; without data
    nodes it answers [NoDataNodeError] and changes nothing. The database executes its
    inserts (MetaDBLaws). The answer is a snapshot of exactly that cell and chunk. *)
Theorem write_cell_refines w v row col :
  world_rep w v → is_u32 row → is_u32 col →
  let node := next_node (w_alloc w) in
  let out := v_write v (GetCellID row col) node (next_chunk_id (w_db w) node) in
  ∃ r w', WriteCellChunk row col w = Some (r, w') ∧ world_rep w' (fst out)
    ∧ answers (w_file w') (fst out) r (snd out).
Proof.
  intros R Hr Hc. cbv zeta.
  destruct (WriteCellChunk_spec w v row col R Hr Hc) as (r & w' & E & R' & A & _).
  by exists r, w'.
Qed.

(** Two reads' worth of [GetCellChunk] and [GetAllChunks]: they do not
    change the value of the file, a missing cell is [CellNotFoundError], an
    existing one is answered with its chunk, and [GetAllChunks] answers every
    chunk exactly once, in some order, whatever order the map is traversed in. *)
Theorem reads_refine f v row col :
  file_rep f v → v_inv v →
  (∃ r f', GetCellChunk row col f = Some (r, f') ∧ file_rep f' v
    ∧ match v_get v (GetCellID row col) with
      | None => r = Err (CellNotFoundError row col)
      | Some (ci, vc) => ∃ cell chunk, r = Ok (cell, chunk) ∧ info cell = ci
          ∧ shows f' chunk (ci_chunk ci) vc
      end)
  ∧ (∃ cs f' vs, GetAllChunks f = Some (cs, f') ∧ file_rep f' v
    ∧ vs ≡ₚ map_to_list (v_chunks v) ∧ Forall2 (λ c kv, shows f' c kv.1 kv.2) cs vs).
Proof.
  intros R Hv. split.
  - destruct (GetCellChunk_spec f v row col R Hv) as (r & f' & E & R' & _ & A).
    exists r, f'. split_and!; try done. destruct (v_get v _) as [[ci vc]|]; [|done].
    destruct A as (cell & chunk & ? & ? & _ & ?). by exists cell, chunk.
  - destruct (GetAllChunks_spec f v R) as (cs & f' & vs & E & R' & _ & P & F).
    by exists cs, f', vs.
Qed.


(** A snapshot handed out is stable: although [Chunk.Snapshot] shares the
    backing array of the live chunk, the chunk returned by a read shows the same
    cells after any later sequence of reads and writes on the file. *)
Theorem snapshot_survives w v row col cell chunk f1 ops :
  world_rep w v → GetCellChunk row col (w_file w) = Some (Ok (cell, chunk), f1) →
  Forall op_ok ops →
  ∃ w' cs, run_ops ops (mkWorld f1 (w_alloc w) (w_db w)) = Some ((), w')
    ∧ slice_vals f1 (Chunk_Cells chunk) cs ∧ slice_vals (w_file w') (Chunk_Cells chunk) cs.
Proof.
  intros R Hg Ho. destruct (GetCellChunk_spec (w_file w) v row col) as (r & f' & E & R' & _ & A); [apply R..|].
  rewrite Hg in E. simplify_eq. destruct (v_get v _) as [[ci vc]|]; [|done].
  destruct A as (cl & ch & [= <- <-] & _ & _ & (_ & _ & _ & Hs & Hh)).
  destruct (run_ops_rep ops (mkWorld f' (w_alloc w) (w_db w)) v) as (w' & v' & E & _ & St);
    [by apply world_rep_view|done|].
  exists w', (vc_cells vc). destruct (St _ _ Hh Hs). done.
Qed.

(** A read after a write sees it: [GetCellChunk] at a position that
    [WriteCellChunk] has just accepted answers the same cell, and its chunk with
    the version the write was given. *)
Theorem write_then_get w v row col cell chunk w1 :
  world_rep w v → is_u32 row → is_u32 col →
  WriteCellChunk row col w = Some (Ok (cell, chunk), w1) →
  ∃ cell' chunk' f2, GetCellChunk row col (w_file w1) = Some (Ok (cell', chunk'), f2)
    ∧ info cell' = info cell ∧ Chunk_ID chunk' = Chunk_ID chunk ∧ Chunk_ID chunk = ChunkID cell
    ∧ DataNode chunk' = DataNode chunk ∧ Version chunk' = Version chunk
    ∧ Version chunk = u64 (match v_chunks v !! ChunkID cell with
                           | Some vc => vc_version vc | None => 0 end + 1).
Proof.
  intros R Hr Hc Hw. pose proof R as [_ Hv _ Hrows].
  destruct (WriteCellChunk_spec w v row col R Hr Hc) as (r & w' & E & R' & A & _).
  rewrite Hw in E. simplify_eq.
  pose proof (next_chunk_id_fresh _ _ (next_node (w_alloc w)) Hrows) as Hf.
  destruct (v_write v _ _ _) as [v' a] eqn:Ev. simpl in *.
  destruct a as [[k ci]|]; [|done]. destruct A as (cl & ch & vc & [= <- <-] & Hi & _ & Hvc & S).
  destruct (v_write_effect _ _ _ _ _ _ _ Hv Hf Ev) as (vc' & G & Hk & Hver & _ & _).
  pose proof R' as [Rf Hv' _ _].
  destruct (v_get_inv _ _ _ _ Hv' G) as (_ & G2 & _ & _). rewrite Hk, Hvc in G2. simplify_eq.
  destruct (GetCellChunk_spec (w_file w') v' row col Rf Hv') as (r & f2 & E2 & _ & _ & A2).
  rewrite G in A2. destruct A2 as (cl2 & ch2 & -> & Hi2 & _ & S2).
  exists cl2, ch2, f2. destruct S as (S1 & S2' & S3 & _), S2 as (T1 & T2 & T3 & _).
  split_and!; try congruence; [exact S1|]. by rewrite S3.
Qed.
End props.

(** ** Concrete instances *)
Definition demo_alloc : DataNodeAllocator := NewDataNodeAllocatorWithGroups ["g1"; "g2"].

Definition demo_world : World MemDB :=
  match CreateSheetFile mem_empty demo_alloc "a" with
  | Some (Ok (f, _, _), al, d) => mkWorld f al d
  | _ => mkWorld (empty_file "a") demo_alloc mem_empty
  end.

Lemma demo_alloc_wf : alloc_wf demo_alloc.
Proof. apply alloc_wf_groups. simpl. lia. Qed.

Lemma demo_world_rep : world_rep demo_world (v_create "g1" 1).
Proof.
  destruct (CreateSheetFile mem_empty demo_alloc "a") as [[[[[[f c] ch]|e] al] d]|] eqn:E;
    [|vm_compute in E; discriminate..].
  unfold demo_world. rewrite E.
  destruct (created_world_rep _ _ _ _ _ _ _ _ demo_alloc_wf E) as (n & k & d1 & R & Hn & Hd & ->).
  vm_compute in Hn. vm_compute in Hd. simplify_eq. exact R.
Qed.

Lemma write_cell_refines_witness :
  let out := v_write (v_create "g1" 1) (GetCellID 3 4) (Some "g2") 2 in
  ∃ r w', WriteCellChunk 3 4 demo_world = Some (r, w') ∧ world_rep w' (fst out)
    ∧ answers (w_file w') (fst out) r (snd out).
Proof. apply (write_cell_refines demo_world _ 3 4 demo_world_rep); unfold is_u32; lia. Defined.

Lemma reads_refine_witness :
  (∃ r f', GetCellChunk 0 0 (w_file demo_world) = Some (r, f') ∧ file_rep f' (v_create "g1" 1)
    ∧ r = Err (CellNotFoundError 0 0))
  ∧ (∃ cs f' vs, (GetAllChunks (RO := source_order)) (w_file demo_world) = Some (cs, f')
    ∧ file_rep f' (v_create "g1" 1)
    ∧ vs ≡ₚ map_to_list (v_chunks (v_create "g1" 1)) ∧ Forall2 (λ c kv, shows f' c kv.1 kv.2) cs vs).
Proof.
  apply (reads_refine (RO := source_order) (w_file demo_world) (v_create "g1" 1) 0 0).
  - apply (wr_file _ _ demo_world_rep).
  - apply v_create_inv.
Defined.


Lemma snapshot_survives_witness :
  ∃ cell chunk f1 w' cs,
    GetCellChunk SheetMetaCellRow SheetMetaCellCol (w_file demo_world) = Some (Ok (cell, chunk), f1)
    ∧ run_ops (RO := source_order) [OpWrite 7 7; OpAll] (mkWorld f1 (w_alloc demo_world) (w_db demo_world))
      = Some ((), w')
    ∧ slice_vals (w_file w') (Chunk_Cells chunk) cs.
Proof.
  destruct (GetCellChunk SheetMetaCellRow SheetMetaCellCol (w_file demo_world))
    as [[[[cell chunk]|e] f1]|] eqn:E; [|vm_compute in E; discriminate..].
  destruct (snapshot_survives (RO := source_order) demo_world _ _ _ cell chunk f1 [OpWrite 7 7; OpAll]
              demo_world_rep E) as (w' & cs & H1 & _ & H2).
  - repeat constructor; unfold is_u32; lia.
  - exists cell, chunk, f1, w', cs. exact (conj eq_refl (conj H1 H2)).
Defined.

Lemma write_then_get_witness :
  ∃ cell chunk w1 cell' chunk' f2,
    WriteCellChunk 5 6 demo_world = Some (Ok (cell, chunk), w1)
    ∧ GetCellChunk 5 6 (w_file w1) = Some (Ok (cell', chunk'), f2)
    ∧ Version chunk' = Version chunk.
Proof.
  destruct (WriteCellChunk 5 6 demo_world) as [[[[cell chunk]|e] w1]|] eqn:E;
    [|vm_compute in E; discriminate..].
  destruct (write_then_get demo_world _ 5 6 cell chunk w1 demo_world_rep)
    as (cell' & chunk' & f2 & H1 & _ & _ & _ & _ & H2 & _); [unfold is_u32; lia..|exact E|].
  exists cell, chunk, w1, cell', chunk', f2. exact (conj eq_refl (conj H1 H2)).
Defined.
