(* ===== verification/JournalEntry.v ===== *)
(** JournalEntry: the journal records of the master and their conversions.

    Source: sheetfs/master/journal/journal_entry/{conversions.go, errors.go,
    entry.proto}.  The [oneof] fields of [MasterEntry] are the inductive types
    [XCell], [XChunk] and [XFileMap]; a field that is not set cannot be built by
    this code and is left out. *)
From Stdlib Require Import ZArith Lia.
From stdpp Require Import gmap strings list.
From S2P Require Import Prelude.
From S2P Require Import MasterData.
From S2P Require Import SheetFile.
Open Scope Z_scope.

Inductive State := State_PRESENT | State_ABSENT.

#[export] Instance State_eq_decision : EqDecision State.
Proof. solve_decision. Defined.

Record CellEntry := mkCellEntry {
  ce_TargetState : State;
  CellId : Z;
  ce_Offset : Z;
  ce_Size : Z;
  ce_ChunkId : Z;
  ce_SheetName : string
}.

Record ChunkEntry := mkChunkEntry {
  he_TargetState : State;
  he_Id : Z;
  he_Version : Z;
  he_Datanode : string
}.

Record FileMapEntry := mkFileMapEntry {
  me_TargetState : State;
  me_Filename : string;
  me_CellsTableName : string;
  me_Recycled : bool;
  me_RecycledTimestamp : Z
}.

Inductive XCell := E1 | XC (cell : CellEntry).
Inductive XChunk := E2 | XH (chunk : ChunkEntry).
Inductive XFileMap := E3 | XM (mapEntry : FileMapEntry).

Record MasterEntry := mkMasterEntry { x_Cell : XCell; x_Chunk : XChunk; x_FileMap : XFileMap }.

#[export] Instance CellEntry_eq_decision : EqDecision CellEntry.
Proof. solve_decision. Defined.
#[export] Instance ChunkEntry_eq_decision : EqDecision ChunkEntry.
Proof. solve_decision. Defined.
#[export] Instance FileMapEntry_eq_decision : EqDecision FileMapEntry.
Proof. solve_decision. Defined.
#[export] Instance XCell_eq_decision : EqDecision XCell.
Proof. solve_decision. Defined.
#[export] Instance XChunk_eq_decision : EqDecision XChunk.
Proof. solve_decision. Defined.
#[export] Instance XFileMap_eq_decision : EqDecision XFileMap.
Proof. solve_decision. Defined.
#[export] Instance MasterEntry_eq_decision : EqDecision MasterEntry.
Proof. solve_decision. Defined.

(** The generated accessors: nil when the other branch of the [oneof] is set. *)
Definition GetCell (e : MasterEntry) : option CellEntry :=
  match x_Cell e with XC c => Some c | E1 => None end.
Definition GetChunk (e : MasterEntry) : option ChunkEntry :=
  match x_Chunk e with XH c => Some c | E2 => None end.
Definition GetMapEntry (e : MasterEntry) : option FileMapEntry :=
  match x_FileMap e with XM m => Some m | E3 => None end.

(** ** conversions.go *)
Definition FromSheetCell (c : Cell) : XCell :=
  XC (mkCellEntry State_PRESENT (CellID c) (Offset c) (Size c) (ChunkID c) (SheetName c)).

Definition FromEmptySheetCell : XCell := E1.

(** The fields are assigned one by one: the row id is kept. *)
Definition ToSheetCell (scell : Cell) (e : CellEntry) : Cell :=
  mkCell (Cell_ID scell) (CellId e) (ce_Offset e) (ce_Size e) (ce_ChunkId e) (ce_SheetName e).

Definition FromSheetChunk (c : Chunk) : XChunk :=
  XH (mkChunkEntry State_PRESENT (Chunk_ID c) (Version c) (DataNode c)).

Definition FromEmptyChunk : XChunk := E2.

Definition ToSheetChunk (schunk : Chunk) (e : ChunkEntry) : Chunk :=
  mkChunk (he_Id e) (he_Datanode e) (he_Version e) (Chunk_Cells schunk).

(** [UnixNano] is an int64 and wraps for instants it cannot represent. *)
Definition UnixNano (t : Z) : Z := i64 t.

Definition FromMgrEntry (mentry : MapEntry) : XFileMap :=
  XM (mkFileMapEntry State_PRESENT (FileName mentry) (CellsTableName mentry)
        (Recycled mentry) (UnixNano (RecycledAt mentry))).

Definition FromEmptyMgrEntry : XFileMap := E3.

Definition ToMgrEntry (mentry : MapEntry) (e : FileMapEntry) : MapEntry :=
  mkMapEntry (Entry_ID mentry) (me_Filename e) (me_CellsTableName e) (me_Recycled e)
    (me_RecycledTimestamp e).

(** ** Round trips *)

(** Equality of directory entries up to the row id of the local database and
    up to what a 64-bit time stamp can carry. *)
Definition entry_same (a b : MapEntry) : Prop :=
  FileName a = FileName b ∧ CellsTableName a = CellsTableName b ∧ Recycled a = Recycled b
  ∧ UnixNano (RecycledAt a) = UnixNano (RecycledAt b).

#[export] Instance entry_same_equiv : Equivalence entry_same.
Proof.
  unfold entry_same. split; [intros a|intros a b|intros a b c]; intuition congruence.
Qed.

Lemma i64_idem z : i64 (i64 z) = i64 z.
Proof. apply i64_small, i64_range. Qed.

Lemma entry_round_trip (local sent : MapEntry) m :
  FromMgrEntry sent = XM m → entry_same (ToMgrEntry local m) sent.
Proof.
  intros [= <-]. unfold entry_same, ToMgrEntry, UnixNano. simpl. by rewrite i64_idem.
Qed.

(** What the primary journals is what the replica decodes: a cell and a
    chunk survive [From...]/[To...] except for the row id and the slice of the
    receiving object, a directory entry too when its time stamp is a 64-bit
    nanosecond count; and the zero time of an entry that was never recycled
    does not survive, the replica reads back an instant of the year 1754. *)
Theorem journal_conversions (c c0 : Cell) (h h0 : Chunk) (m m0 : MapEntry) :
  (∃ e, FromSheetCell c = XC e ∧ ToSheetCell c0 e = with_Cell_ID c (Cell_ID c0))
  ∧ (∃ e, FromSheetChunk h = XH e
          ∧ ToSheetChunk h0 e = mkChunk (Chunk_ID h) (DataNode h) (Version h) (Chunk_Cells h0))
  ∧ (∃ e, FromMgrEntry m = XM e
          ∧ (is_i64 (RecycledAt m) →
             ToMgrEntry m0 e = mkMapEntry (Entry_ID m0) (FileName m) (CellsTableName m)
                                 (Recycled m) (RecycledAt m))
          ∧ (RecycledAt m = zero_time → RecycledAt (ToMgrEntry m0 e) = -6795364578871345152)).
Proof.
  split_and!; [by eexists..|]. eexists. split; [done|]. unfold ToMgrEntry, UnixNano. simpl. split.
  - intros Ht. by rewrite i64_small.
  - intros ->. reflexivity.
Qed.
