(* ===== verification/CommonJournal.v ===== *)
(** CommonJournal: the journal shared by the nodes of a group.

    Source: sheetfs/common_journal/{writer.go, receiver.go, utils.go, errors.go}.
    The topic has one partition, a sequence of messages addressed by their
    offset.  Kafka and the protobuf encoding are not part of this repository:
    they are the classes [Kafka] and [Codec], with what the code relies on as
    laws; [MemTopic] is an in-memory instance. *)
From Stdlib Require Import ZArith Lia Strings.Byte.
From stdpp Require Import gmap strings list.
From S2P Require Import Prelude.
Open Scope Z_scope.

Abbreviation bytes := (list byte).

(** ** Interfaces *)
Record Message := mkMessage { Key : string; Value : bytes }.

Inductive KafkaError := mkKafkaError (msg : string).

Class Kafka (K : Type) := {
  k_log : K → list Message;
  (** [kafka.Writer.WriteMessages] of one message: the offset it got *)
  k_write : K → Message → result KafkaError Z * K
}.

Class KafkaLaws (K : Type) `{Kafka K} : Prop := {
  (** an acknowledged message is at the end of the partition *)
  k_write_ok : ∀ k m o k', k_write k m = (Ok o, k') →
    k_log k' = k_log k ++ [m] ∧ o = Z.of_nat (length (k_log k));
  (** a message that was not acknowledged may still have been stored *)
  k_write_err : ∀ k m e k', k_write k m = (Err e, k') →
    k_log k' = k_log k ∨ k_log k' = k_log k ++ [m]
}.

(** [proto.Marshal] and [proto.Unmarshal] of one message type. *)
Class Codec (A : Type) := {
  marshal : A → result string bytes;
  unmarshal : bytes → result string A
}.
Class CodecLaws (A : Type) `{Codec A} : Prop := {
  unmarshal_marshal : ∀ (a : A) b, marshal a = Ok b → unmarshal b = Ok a
}.

(** ** journal.proto *)
Record Checkpoint := mkCheckpoint { LastEntryOffset : Z; NextEntryOffset : Z }.

(** ** writer.go *)
Record Writer := mkWriter {
  lastWriteOffset : Z;
  w_entriesKey : string;
  w_checkpointsKey : string
}.

Definition entries_key (topic : string) : string := topic +:+ "-entries".
Definition checkpoints_key (topic : string) : string := topic +:+ "-ckpts".

(** [NewWriter]; [topic_err] is what [ensureJournalTopicCreated] returned. *)
Definition NewWriter (topic : string) (topic_err : option KafkaError) : result KafkaError Writer :=
  match topic_err with
  | Some e => Err e
  | None => Ok (mkWriter 0 (entries_key topic) (checkpoints_key topic))
  end.

(** The [Completion] callback, called with the offsets of the written batch. *)
Definition Completion (w : Writer) (messages : list Z) (err : bool) : Writer :=
  if err then w
  else match last messages with
       | None => w
       | Some o =>
           if lastWriteOffset w <? o
           then mkWriter o (w_entriesKey w) (w_checkpointsKey w) else w
       end.

Section writer.
Context {K : Type} {KO : Kafka K}.

Definition WriteMessages (w : Writer) (k : K) (m : Message) : option KafkaError * Writer * K :=
  match k_write k m with
  | (Ok o, k') => (None, Completion w [o] false, k')
  | (Err e, k') => (Some e, Completion w [] true, k')
  end.

Definition CommitEntry (w : Writer) (k : K) (entry : bytes) : option KafkaError * Writer * K :=
  WriteMessages w k (mkMessage (w_entriesKey w) entry).

(** The value [PrepareCheckpoint] returns once it holds the lock. *)
Definition PrepareCheckpoint (w : Writer) : Z := lastWriteOffset w.

(** [Writer.Checkpoint]: a marshalling error is overwritten by that of the
    write, the message is then empty. *)
Definition WriterCheckpoint {CC : Codec Checkpoint} (w : Writer) (k : K) : (Z * option KafkaError) * Writer * K :=
  let ckptOffset := i64 (lastWriteOffset w + 1) in
  let ckpt := mkCheckpoint (i64 (ckptOffset - 1)) (i64 (ckptOffset + 1)) in
  let buf := match marshal ckpt with Ok b => b | Err _ => [] end in
  let '(err, w', k') := WriteMessages w k (mkMessage (w_checkpointsKey w) buf) in
  ((NextEntryOffset ckpt, err), w', k').
End writer.

(** ** receiver.go *)
Record Receiver := mkReceiver {
  r_offset : Z;  (** position of the wrapped kafka.Reader *)
  r_entriesKey : string;
  r_checkpointsKey : string
}.

Definition NewReceiver (topic : string) (topic_err : option KafkaError) : result KafkaError Receiver :=
  match topic_err with
  | Some e => Err e
  | None => Ok (mkReceiver 0 (entries_key topic) (checkpoints_key topic))
  end.

Inductive FetchError :=
| Canceled
| NoMoreMessageError
| ReaderError (msg : string)
| UnmarshalError (msg : string).

#[export] Instance FetchError_eq_decision : EqDecision FetchError.
Proof. solve_decision. Defined.

Definition SetOffset (r : Receiver) (offset : Z) : Receiver :=
  mkReceiver offset (r_entriesKey r) (r_checkpointsKey r).

Section receiver.
Context {K : Type} {KO : Kafka K} {CC : Codec Checkpoint}.

(** [ReadMessage]: the reader's error if there is one, else the message at the
    current position; [None] while it blocks because there is none. *)
Definition ReadMessage (err : option FetchError) (k : K) (r : Receiver)
  : option (result FetchError Message * Receiver) :=
  match err with
  | Some e => Some (Err e, r)
  | None =>
      if r_offset r <? 0 then None
      else match k_log k !! Z.to_nat (r_offset r) with
           | Some m => Some (Ok m, SetOffset r (r_offset r + 1))
           | None => None
           end
  end.

Definition FetchEntry (err : option FetchError) (k : K) (r : Receiver)
  : option (result FetchError (bytes * option Checkpoint) * Receiver) :=
  '(res, r') ← ReadMessage err k r;
  match res with
  | Err e => Some (Err e, r')
  | Ok msg =>
      if decide (Key msg = r_checkpointsKey r') then
        match unmarshal (Value msg) with
        | Err e => Some (Err (UnmarshalError e), r')
        | Ok ckpt => Some (Ok (Value msg, Some ckpt), r')
        end
      else Some (Ok (Value msg, None), r')
  end.

(** The number of messages after the current position. *)
Definition ReadLag (k : K) (r : Receiver) : Z := Z.of_nat (length (k_log k)) - r_offset r.

Definition TryFetchEntry (lag_err err : option FetchError) (k : K) (r : Receiver)
  : option (result FetchError (bytes * option Checkpoint) * Receiver) :=
  match lag_err with
  | Some e => Some (Err e, r)
  | None =>
      if ReadLag k r =? 0 then Some (Err NoMoreMessageError, r) else FetchEntry err k r
  end.
End receiver.

(** ** The keys tell checkpoints from entries *)
Lemma keys_differ topic : entries_key topic ≠ checkpoints_key topic.
Proof.
  unfold entries_key, checkpoints_key. intros E.
  apply (inj (String.app topic)) in E. discriminate.
Qed.

(** ** What was written is what is read *)

(** What one party writes. *)
Inductive Item := IEntry (b : bytes) | ICheckpoint.

Section delivery.
Context {K : Type} {KO : Kafka K} {KL : KafkaLaws K}.
Context {CC : Codec Checkpoint} {CL : CodecLaws Checkpoint}.

(** The writer's calls, as long as they succeed; with the checkpoint offsets
    that were returned. *)
Fixpoint write_items (w : Writer) (k : K) (items : list Item) : option (list Z * Writer * K) :=
  match items with
  | [] => Some ([], w, k)
  | IEntry b :: items' =>
      match CommitEntry w k b with
      | (None, w', k') => write_items w' k' items'
      | (Some _, _, _) => None
      end
  | ICheckpoint :: items' =>
      match WriterCheckpoint w k with
      | ((o, None), w', k') => '(os, w2, k2) ← write_items w' k' items'; Some (o :: os, w2, k2)
      | ((_, Some _), _, _) => None
      end
  end.

(** The loop of a node that catches up: fetch until there is nothing left. *)
Fixpoint drain (fuel : nat) (k : K) (r : Receiver)
  : option (list (bytes * option Checkpoint) * Receiver) :=
  match fuel with
  | O => None
  | S fuel' =>
      match TryFetchEntry None None k r with
      | Some (Err NoMoreMessageError, r') => Some ([], r')
      | Some (Ok x, r') => '(xs, r2) ← drain fuel' k r'; Some (x :: xs, r2)
      | _ => None
      end
  end.

(** The writer's counter is the offset of the last message. *)
Definition synced (w : Writer) (k : K) : Prop :=
  lastWriteOffset w = Z.of_nat (length (k_log k)) - 1 ∧ Z.of_nat (length (k_log k)) < 2 ^ 62.

Lemma WriteMessages_ok w k m w' k' :
  WriteMessages w k m = (None, w', k') →
  k_log k' = k_log k ++ [m]
  ∧ w_entriesKey w' = w_entriesKey w ∧ w_checkpointsKey w' = w_checkpointsKey w
  ∧ lastWriteOffset w' = Z.max (lastWriteOffset w) (Z.of_nat (length (k_log k))).
Proof.
  unfold WriteMessages. destruct (k_write k m) as [[o|e] k2] eqn:E; [|done].
  intros [= <- <-]. apply k_write_ok in E as [E ->]. unfold Completion. simpl.
  destruct (Z.ltb_spec (lastWriteOffset w) (Z.of_nat (length (k_log k)))); simpl;
    split_and!; try done; lia.
Qed.

(** One write synchronises the counter with any log. *)
Lemma WriteMessages_synced w k m w' k' :
  WriteMessages w k m = (None, w', k') →
  lastWriteOffset w <= Z.of_nat (length (k_log k)) → Z.of_nat (length (k_log k)) < 2 ^ 62 - 1 →
  synced w' k'.
Proof.
  intros E Hle Hlt. apply WriteMessages_ok in E as (E & _ & _ & Ho). unfold synced.
  rewrite Ho, E, length_app. simpl. lia.
Qed.

(** The decoded form of what a reader gets for a message of this writer. *)
Definition decodes (ckey : string) (m : Message) (x : bytes * option Checkpoint) : Prop :=
  x.1 = Value m
  ∧ if decide (Key m = ckey) then ∃ c, x.2 = Some c ∧ unmarshal (Value m) = Ok c else x.2 = None.

Lemma drain_S n k r :
  drain (S n) k r
  = match TryFetchEntry None None k r with
    | Some (Err NoMoreMessageError, r') => Some ([], r')
    | Some (Ok x, r') => '(xs, r2) ← drain n k r'; Some (x :: xs, r2)
    | _ => None
    end.
Proof. reflexivity. Qed.

Lemma drain_spec k r ms xs pre :
  k_log k = pre ++ ms → r_offset r = Z.of_nat (length pre) →
  Forall2 (decodes (r_checkpointsKey r)) ms xs →
  ∃ r', drain (S (length ms)) k r = Some (xs, r')
        ∧ r_offset r' = Z.of_nat (length (k_log k)).
Proof.
  intros Hlog Hoff Hms. revert pre r Hlog Hoff Hms.
  induction ms as [|m ms IH] in xs |- *; intros pre r Hlog Hoff Hms.
  - inversion Hms; subst. exists r. rewrite drain_S. unfold TryFetchEntry, ReadLag.
    rewrite Hoff, Hlog, app_nil_r, Z.sub_diag. done.
  - apply Forall2_cons_inv_l in Hms as (x & xs' & Hx & Hr & ->).
    destruct (IH xs' (pre ++ [m]) (SetOffset r (r_offset r + 1))) as (r' & E & Ho').
    { by rewrite <- app_assoc. } { rewrite length_app, Hoff. simpl. lia. } { done. }
    exists r'. split; [|done]. change (S (length (m :: ms))) with (S (S (length ms))).
    rewrite drain_S. unfold TryFetchEntry, ReadLag. rewrite Hoff, Hlog, length_app. simpl length.
    destruct (Z.eqb_spec (Z.of_nat (length pre + S (length ms)) - Z.of_nat (length pre)) 0); [lia|].
    unfold FetchEntry, ReadMessage. rewrite Hoff.
    destruct (Z.ltb_spec (Z.of_nat (length pre)) 0); [lia|].
    rewrite Nat2Z.id, Hlog, lookup_app_r, Nat.sub_diag by lia.
    cbn [lookup list_lookup mbind option_bind]. destruct x as [v o], Hx as [Hv Ho]. simpl in Hv, Ho.
    rewrite Hoff in E.
    change (r_checkpointsKey (SetOffset r (Z.of_nat (length pre) + 1))) with (r_checkpointsKey r).
    destruct (decide (Key m = r_checkpointsKey r)).
    + destruct Ho as (c & -> & ->). rewrite E. simpl. by subst v.
    + rewrite E. simpl. by subst.
Qed.

Definition matches (i : Item) (x : bytes * option Checkpoint) : Prop :=
  match i with
  | IEntry b => x = (b, None)
  | ICheckpoint => ∃ c, x.2 = Some c
  end.

(** The log grows by the messages of the items. *)
Lemma write_items_log (marshal_ok : ∀ c : Checkpoint, ∃ b, marshal c = Ok b)
    w k items os w' k' ckey :
  write_items w k items = Some (os, w', k') →
  w_checkpointsKey w = ckey → w_entriesKey w ≠ ckey →
  ∃ ms xs, k_log k' = k_log k ++ ms ∧ Forall2 (decodes ckey) ms xs ∧ Forall2 matches items xs
    ∧ length ms = length items.
Proof.
  revert w k os. induction items as [|i items IH]; intros w k os Hw Hck Hek.
  { simpl in Hw. simplify_eq. exists [], []. rewrite app_nil_r. split_and!; done || constructor. }
  assert (∃ m x w1 k1 os1, k_log k1 = k_log k ++ [m] ∧ decodes ckey m x ∧ matches i x
    ∧ w_checkpointsKey w1 = ckey ∧ w_entriesKey w1 ≠ ckey ∧ write_items w1 k1 items = Some (os1, w', k'))
    as (m & x & w1 & k1 & os1 & E1 & D1 & M1 & K1 & K2 & E2).
  { destruct i as [b|]; simpl in Hw.
    - destruct (CommitEntry w k b) as [[[e|] w1] k1] eqn:E; [done|].
      apply WriteMessages_ok in E as (E & Ke & Kc & _).
      eexists _, (b, None), w1, k1, os. split_and!; [exact E| | |congruence..|done].
      + split; [done|]. simpl. by rewrite decide_False.
      + done.
    - unfold WriterCheckpoint in Hw. destruct (marshal_ok (mkCheckpoint
        (i64 (i64 (lastWriteOffset w + 1) - 1)) (i64 (i64 (lastWriteOffset w + 1) + 1)))) as [buf Hb].
      rewrite Hb in Hw.
      destruct (WriteMessages w k _) as [[[e|] w1] k1] eqn:E; [done|].
      apply WriteMessages_ok in E as (E & Ke & Kc & _). simpl in Hw.
      destruct (write_items w1 k1 items) as [[[os1 w2] k2]|] eqn:Ew; [|done]. simpl in Hw. simplify_eq.
      eexists _, (buf, Some _), w1, k1, os1. split_and!; [exact E| | |congruence..|done].
      + split; [done|]. simpl. rewrite decide_True by done. eexists. split; [done|].
        by apply unmarshal_marshal.
      + by eexists. }
  destruct (IH w1 k1 os1 E2 K1 K2) as (ms & xs & E3 & D3 & M3 & L3).
  exists (m :: ms), (x :: xs). split_and!; [|by constructor..|simpl; congruence].
  by rewrite E3, E1, <- app_assoc.
Qed.

(** Everything that is committed is delivered, in order and once: a receiver
    that starts where the writer started, and fetches until
    [NoMoreMessageError], gets exactly the entries and checkpoints that were
    written, with the checkpoints recognised as such. *)
Theorem journal_delivery (marshal_ok : ∀ c : Checkpoint, ∃ b, marshal c = Ok b)
    topic w r k items os w' k' :
  NewWriter topic None = Ok w → NewReceiver topic None = Ok r →
  write_items w k items = Some (os, w', k') →
  ∃ xs r', drain (S (length items)) k' (SetOffset r (Z.of_nat (length (k_log k)))) = Some (xs, r')
    ∧ Forall2 matches items xs ∧ ReadLag k' r' = 0.
Proof.
  intros [= <-] [= <-] Hw.
  destruct (write_items_log marshal_ok _ _ _ _ _ _ (checkpoints_key topic) Hw)
    as (ms & xs & E & D & M & L); [done|apply keys_differ|].
  destruct (drain_spec k' (mkReceiver (Z.of_nat (length (k_log k))) (entries_key topic)
              (checkpoints_key topic)) ms xs (k_log k) E) as (r' & Ed & Ho); [done..|].
  exists xs, r'. rewrite <- L. split_and!; [exact Ed|done|]. unfold ReadLag. lia.
Qed.

(** Recovery from a checkpoint: if the writer has written the last message
    of the log, the offset [Checkpoint] returns is that of the first message
    after the checkpoint, so a receiver set to it gets exactly what is written
    afterwards. *)
Theorem checkpoint_resumes (marshal_ok : ∀ c : Checkpoint, ∃ b, marshal c = Ok b)
    w k o w1 k1 items os w2 k2 r :
  synced w k → w_entriesKey w ≠ w_checkpointsKey w → r_checkpointsKey r = w_checkpointsKey w →
  WriterCheckpoint w k = ((o, None), w1, k1) →
  write_items w1 k1 items = Some (os, w2, k2) →
  o = Z.of_nat (length (k_log k1))
  ∧ ∃ xs r', drain (S (length items)) k2 (SetOffset r o) = Some (xs, r') ∧ Forall2 matches items xs.
Proof.
  intros [Hs Hlt] Hk Hr Hc Hw. unfold WriterCheckpoint in Hc.
  destruct (WriteMessages w k _) as [[e wx] kx] eqn:E. simplify_eq.
  apply WriteMessages_ok in E as (E & Ke & Kc & _).
  assert (i64 (i64 (lastWriteOffset w + 1) + 1) = Z.of_nat (length (k_log k1))) as Ho.
  { rewrite E, length_app, Hs. simpl.
    rewrite (i64_small (Z.of_nat (length (k_log k)) - 1 + 1)) by (unfold is_i64; lia).
    rewrite i64_small by (unfold is_i64; lia). lia. }
  simpl. rewrite Ho. split; [done|].
  destruct (write_items_log marshal_ok _ _ _ _ _ _ (w_checkpointsKey w) Hw)
    as (ms & xs & E2 & D & M & L); [congruence..|].
  rewrite <- Hr in D.
  destruct (drain_spec k2 (SetOffset r (Z.of_nat (length (k_log k1)))) ms xs (k_log k1) E2)
    as (r' & Ed & _); [done..|].
  exists xs, r'. by rewrite <- L.
Qed.
End delivery.

(** ** An in-memory topic *)
Record MemTopic := { mt_log : list Message; mt_faults : list bool }.

Definition mem_topic : MemTopic := {| mt_log := []; mt_faults := [] |}.

#[export] Instance MemTopic_kafka : Kafka MemTopic := {|
  k_log := mt_log;
  k_write k m :=
    match mt_faults k with
    | true :: fs => (Err (mkKafkaError "unavailable"), {| mt_log := mt_log k; mt_faults := fs |})
    | fs => (Ok (Z.of_nat (length (mt_log k))),
             {| mt_log := mt_log k ++ [m]; mt_faults := tail fs |})
    end
|}.

#[export] Instance MemTopic_laws : KafkaLaws MemTopic.
Proof.
  split; simpl; intros k m x k'; destruct (mt_faults k) as [|[] fs]; intros [= <- <-]; auto.
Qed.

(** A lossless codec for every countable type, one byte per bit: it shows that
    the laws of [Codec] can hold. *)
Fixpoint pos_bytes (p : positive) : bytes :=
  match p with
  | xH => []
  | xO p' => x00 :: pos_bytes p'
  | xI p' => x01 :: pos_bytes p'
  end.
Fixpoint bytes_pos (b : bytes) : positive :=
  match b with
  | [] => xH
  | x00 :: b' => xO (bytes_pos b')
  | _ :: b' => xI (bytes_pos b')
  end.

Lemma bytes_pos_bytes p : bytes_pos (pos_bytes p) = p.
Proof. induction p; simpl; congruence. Qed.

Definition bit_codec A `{Countable A} : Codec A := {|
  marshal a := Ok (pos_bytes (encode a));
  unmarshal b := match decode (bytes_pos b) with Some a => Ok a | None => Err "malformed" end
|}.

Lemma bit_codec_laws A `{Countable A} : CodecLaws A (H := bit_codec A).
Proof.
  split. intros a b [= <-]. simpl. by rewrite bytes_pos_bytes, decode_encode.
Qed.

#[export] Instance Checkpoint_eq_decision : EqDecision Checkpoint.
Proof. solve_decision. Defined.
#[export] Program Instance Checkpoint_countable : Countable Checkpoint :=
  inj_countable' (λ c, (LastEntryOffset c, NextEntryOffset c)) (λ p, mkCheckpoint p.1 p.2) _.
Next Obligation. by intros []. Qed.

(** ** Concrete instances *)
Definition demo_codec : Codec Checkpoint := bit_codec Checkpoint.

Lemma demo_marshal_ok (c : Checkpoint) : ∃ b, marshal (Codec := demo_codec) c = Ok b.
Proof. by eexists. Qed.

Lemma journal_delivery_witness :
  ∃ w r os w' k' xs r',
    NewWriter "t" None = Ok w ∧ NewReceiver "t" None = Ok r
    ∧ write_items (CC := demo_codec) w mem_topic [IEntry [x61]; ICheckpoint; IEntry [x62]] = Some (os, w', k')
    ∧ drain (CC := demo_codec) 4 k' (SetOffset r 0) = Some (xs, r')
    ∧ Forall2 matches [IEntry [x61]; ICheckpoint; IEntry [x62]] xs.
Proof.
  set (w := mkWriter 0 (entries_key "t") (checkpoints_key "t")).
  set (r := mkReceiver 0 (entries_key "t") (checkpoints_key "t")).
  destruct (write_items (CC := demo_codec) w mem_topic [IEntry [x61]; ICheckpoint; IEntry [x62]])
    as [[[os w'] k']|] eqn:E; [|vm_compute in E; discriminate].
  destruct (journal_delivery (CC := demo_codec) (CL := bit_codec_laws Checkpoint) demo_marshal_ok
              "t" w r mem_topic _ os w' k' eq_refl eq_refl E) as (xs & r' & Hd & Hm & _).
  exists w, r, os, w', k', xs, r'. exact (conj eq_refl (conj eq_refl (conj E (conj Hd Hm)))).
Defined.

Lemma checkpoint_resumes_witness :
  ∃ w k w1 k1 o os w2 k2 xs r',
    synced w k
    ∧ WriterCheckpoint (CC := demo_codec) w k = ((o, None), w1, k1)
    ∧ write_items (CC := demo_codec) w1 k1 [IEntry [x62]] = Some (os, w2, k2)
    ∧ o = 2
    ∧ drain (CC := demo_codec) 2 k2 (SetOffset (mkReceiver 0 (entries_key "t") (checkpoints_key "t")) o)
      = Some (xs, r')
    ∧ Forall2 matches [IEntry [x62]] xs.
Proof.
  set (w := mkWriter 0 (entries_key "t") (checkpoints_key "t")).
  set (k := {| mt_log := [mkMessage (entries_key "t") [x61]]; mt_faults := [] |}).
  destruct (WriterCheckpoint (CC := demo_codec) w k) as [[[o [e|]] w1] k1] eqn:Ec;
    [vm_compute in Ec; discriminate|].
  destruct (write_items (CC := demo_codec) w1 k1 [IEntry [x62]]) as [[[os w2] k2]|] eqn:E;
    [|vm_compute in Ec; simplify_eq; vm_compute in E; discriminate].
  destruct (checkpoint_resumes (CC := demo_codec) (CL := bit_codec_laws Checkpoint) demo_marshal_ok
              w k o w1 k1 [IEntry [x62]] os w2 k2
              (mkReceiver 0 (entries_key "t") (checkpoints_key "t")))
    as (Ho & xs & r' & Hd & Hm); [by split|done|done|exact Ec|exact E|].
  assert (o = 2) as Ho2 by (vm_compute in Ec; by simplify_eq).
  exists w, k, w1, k1, o, os, w2, k2, xs, r'.
  split; [by split|]. exact (conj Ec (conj E (conj Ho2 (conj Hd Hm)))).
Defined.

(** A writer that has not written yet is not synchronised: its counter
    starts at 0, not at -1.  On an empty topic the offset [Checkpoint] returns
    is 2 although the next entry is stored at 1, and a node that recovers from
    it misses that entry. *)
Theorem first_checkpoint_skips_entry topic b :
  ∃ w r w1 k1 w2 k2,
    NewWriter topic None = Ok w ∧ NewReceiver topic None = Ok r
    ∧ WriterCheckpoint (CC := demo_codec) w mem_topic = ((2, None), w1, k1)
    ∧ CommitEntry w1 k1 b = (None, w2, k2)
    ∧ k_log k2 !! 1%nat = Some (mkMessage (entries_key topic) b)
    ∧ drain (CC := demo_codec) 1 k2 (SetOffset r 2) = Some ([], SetOffset r 2).
Proof. do 6 eexists. split_and!; reflexivity. Qed.
