(* ===== verification/FileMgr.v ===== *)
(** FileMgr: the directory of sheets, its descriptors and its journal.

    Source: sheetfs/master/filemgr/{filemgr.go, file_errors/errors.go,
    mgr_entry/mapentry.go}.  The two-level locking of the code makes every
    method of the manager one step on the manager, followed by one step on a
    file; the model runs them in that order.  A directory entry is only ever
    reached through [Entries], so entries are values. *)
From Stdlib Require Import ZArith Lia.
From stdpp Require Import gmap strings list fin_maps.
From S2P Require Import Prelude.
From S2P Require Import DataNodeAlloc.
From S2P Require Import MasterData.
From S2P Require Import SheetFile.
From S2P Require Import JournalEntry.
From S2P Require Import CommonJournal.
Open Scope Z_scope.

Record FileManager (db K : Type) := mkFM {
  Entries : gmap string MapEntry;
  Opened : gmap string SheetFile;
  Fds : gmap Z string;
  nextFd : Z;
  fm_db : db;
  fm_alloc : DataNodeAllocator;
  journalWriter : option Writer;
  fm_kafka : K
}.
Arguments mkFM {db K} _ _ _ _ _ _ _ _.
Arguments Entries {db K} _.
Arguments Opened {db K} _.
Arguments Fds {db K} _.
Arguments nextFd {db K} _.
Arguments fm_db {db K} _.
Arguments fm_alloc {db K} _.
Arguments journalWriter {db K} _.
Arguments fm_kafka {db K} _.

Section filemgr.
Context {db : Type} {DB : MetaDB db} {K : Type} {KO : Kafka K}.
Context {ME : Codec MasterEntry} {CC : Codec Checkpoint} {RO : RangeOrder}.

Abbreviation FMState := (FileManager db K).
Abbreviation FM := (GoM FMState).

Definition set_Entries (f : FMState) (m : gmap string MapEntry) : FMState :=
  mkFM m (Opened f) (Fds f) (nextFd f) (fm_db f) (fm_alloc f) (journalWriter f) (fm_kafka f).
Definition set_Opened (f : FMState) (m : gmap string SheetFile) : FMState :=
  mkFM (Entries f) m (Fds f) (nextFd f) (fm_db f) (fm_alloc f) (journalWriter f) (fm_kafka f).
Definition set_Fds (f : FMState) (m : gmap Z string) (n : Z) : FMState :=
  mkFM (Entries f) (Opened f) m n (fm_db f) (fm_alloc f) (journalWriter f) (fm_kafka f).
Definition set_db (f : FMState) (d : db) : FMState :=
  mkFM (Entries f) (Opened f) (Fds f) (nextFd f) d (fm_alloc f) (journalWriter f) (fm_kafka f).
Definition set_alloc (f : FMState) (a : DataNodeAllocator) : FMState :=
  mkFM (Entries f) (Opened f) (Fds f) (nextFd f) (fm_db f) a (journalWriter f) (fm_kafka f).
Definition set_journal (f : FMState) (w : Writer) (k : K) : FMState :=
  mkFM (Entries f) (Opened f) (Fds f) (nextFd f) (fm_db f) (fm_alloc f) (Some w) k.

(** Run a file method on an opened file; a nil file is a panic. *)
Definition with_file {A} (name : string) (m : GoM (World db) A) : FM A :=
  λ f,
    match Opened f !! name with
    | None => None
    | Some file =>
        match m (mkWorld file (fm_alloc f) (fm_db f)) with
        | None => None
        | Some (a, w) =>
            Some (a, mkFM (Entries f) (<[name := w_file w]> (Opened f)) (Fds f) (nextFd f)
                       (w_db w) (w_alloc w) (journalWriter f) (fm_kafka f))
        end
    end.

Definition writeJournal (jEntry : MasterEntry) : FM (result MasterError ()) :=
  λ f,
    match journalWriter f with
    | None => Some (Ok (), f)
    | Some w =>
        match marshal jEntry with
        | Err _ => Some (Err JournalErr, f)
        | Ok buf =>
            let '(err, w', k') := CommitEntry w (fm_kafka f) buf in
            Some (match err with Some _ => Err JournalErr | None => Ok () end, set_journal f w' k')
        end
    end.

Definition allocFd : FM Z :=
  λ f, Some (nextFd f, set_Fds f (Fds f) (u64 (nextFd f + 1))).

(** [f.Fds[fd] = filename]. *)
Definition bindFd (fd : Z) (filename : string) : FM () :=
  go_modify (λ f, set_Fds f (<[fd := filename]> (Fds f)) (nextFd f)).

Definition openFile (filename : string) : FM (result MasterError Z) :=
  f ← go_get;
  match Entries f !! filename with
  | None => mret (Err (FileNotFoundError filename))
  | Some entry =>
      if Recycled entry then mret (Err (FileNotFoundError filename))
      else
        (match Opened f !! filename with
         | Some _ => mret ()
         | None =>
             openedFile ← go_deref (LoadSheetFile (fm_db f) filename);
             go_modify (λ f, set_Opened f (<[filename := openedFile]> (Opened f)))
         end) ≫= λ _,
        fd ← allocFd;
        bindFd fd filename ≫= λ _,
        mret (Ok fd)
  end.

(** The name of the opened file; the pointer is looked up by [with_file]. *)
Definition getFileByFd (fd : Z) : FM (result MasterError string) :=
  f ← go_get;
  mret (match Fds f !! fd with
        | None => Err (FdNotFoundError fd)
        | Some filename => Ok filename
        end).

Definition CreateSheet (filename : string) : FM (result MasterError Z) :=
  f ← go_get;
  match Entries f !! filename with
  | Some _ => mret (Err (FileExistsError filename))
  | None =>
      '(res, al, d) ← go_deref (CreateSheetFile (fm_db f) (fm_alloc f) filename);
      go_modify (λ f, set_alloc (set_db f d) al) ≫= λ _,
      match res with
      | Err e => mret (Err e)
      | Ok (sheet, newCell, newChunk) =>
          let newEntry := mkMapEntry 0 filename (GetCellTableName filename) false zero_time in
          r ← writeJournal (mkMasterEntry (FromSheetCell newCell) (FromSheetChunk newChunk)
                              (FromMgrEntry newEntry));
          match r with
          | Err e => mret (Err e)
          | Ok _ =>
              go_modify (λ f, set_Entries f (<[filename := newEntry]> (Entries f))) ≫= λ _,
              go_modify (λ f, set_Opened f (<[filename := sheet]> (Opened f))) ≫= λ _,
              fd ← allocFd;
              bindFd fd filename ≫= λ _,
              mret (Ok fd)
          end
      end
  end.

Definition OpenSheet (filename : string) : FM (result MasterError Z) :=
  r ← openFile filename;
  match r with
  | Err e => mret (Err e)
  | Ok fd => mret (Ok fd)
  end.

(** [now] is the time the call reads from the clock. *)
Definition RecycleSheet (now : Z) (filename : string) : FM (result MasterError ()) :=
  f ← go_get;
  match Entries f !! filename with
  | None => mret (Ok ())
  | Some entry =>
      let tempEntry := mkMapEntry (Entry_ID entry) (FileName entry) (CellsTableName entry) true now in
      r ← writeJournal (mkMasterEntry FromEmptySheetCell FromEmptyChunk (FromMgrEntry tempEntry));
      match r with
      | Err e => mret (Err e)
      | Ok _ =>
          go_modify (λ f, set_Entries f (<[filename := tempEntry]> (Entries f))) ≫= λ _,
          mret (Ok ())
      end
  end.

Definition ResumeSheet (filename : string) : FM (result MasterError ()) :=
  f ← go_get;
  match Entries f !! filename with
  | None => mret (Ok ())
  | Some entry =>
      let tempEntry := mkMapEntry (Entry_ID entry) (FileName entry) (CellsTableName entry) false
                         (RecycledAt entry) in
      r ← writeJournal (mkMasterEntry FromEmptySheetCell FromEmptyChunk (FromMgrEntry tempEntry));
      match r with
      | Err e => mret (Err e)
      | Ok _ =>
          go_modify (λ f, set_Entries f (<[filename := tempEntry]> (Entries f))) ≫= λ _,
          mret (Ok ())
      end
  end.

Definition ReadSheet (fd : Z) : FM (result MasterError (list Chunk)) :=
  r ← getFileByFd fd;
  match r with
  | Err e => mret (Err e)
  | Ok name => chunks ← with_file name (on_file GetAllChunks); mret (Ok chunks)
  end.

Definition ReadFileCell (fd row col : Z) : FM (result MasterError (Cell * Chunk)) :=
  r ← getFileByFd fd;
  match r with
  | Err e => mret (Err e)
  | Ok name => with_file name (on_file (GetCellChunk row col))
  end.

(** The error of the journal is dropped. *)
Definition WriteFileCell (fd row col : Z) : FM (result MasterError (Cell * Chunk)) :=
  r ← getFileByFd fd;
  match r with
  | Err e => mret (Err e)
  | Ok name =>
      r ← with_file name (WriteCellChunk row col);
      match r with
      | Err e => mret (Err e)
      | Ok (cell, dataChunk) =>
          writeJournal (mkMasterEntry (FromSheetCell cell) (FromSheetChunk dataChunk)
                          FromEmptyMgrEntry) ≫= λ _,
          mret (Ok (cell, dataChunk))
      end
  end.

(** The [fs_rpc.Sheet] of each entry. *)
Definition GetAllSheets : FM (list (string * bool)) :=
  f ← go_get;
  mret ((λ ke, (FileName ke.2, Recycled ke.2)) <$> go_range (Entries f)).

(** [tx.Save(entry)] writes the row id back into the entry. *)
Definition save_entry (kv : string * MapEntry) : FM () :=
  f ← go_get;
  let e := kv.2 in
  let '(id, d) := db_save_entry (fm_db f) e in
  go_put (set_db (set_Entries f
    (<[kv.1 := mkMapEntry id (FileName e) (CellsTableName e) (Recycled e) (RecycledAt e)]> (Entries f))) d).

Definition Persistent : FM (result MasterError ()) :=
  f0 ← go_get;
  go_for (go_range (Entries f0)) save_entry ≫= λ _,
  f ← go_get;
  go_for (go_range (Opened f)).*1 (λ name, with_file name persistentData) ≫= λ _,
  f ← go_get;
  match db_commit_err (fm_db f0) (fm_db f) with
  | None => mret (Ok ())
  | Some e => go_modify (λ f, set_db f (fm_db f0)) ≫= λ _, mret (Err (DBErr e))
  end.

Definition LoadFileManager (d : db) (al : DataNodeAllocator) (writer : option Writer) (k : K) : FMState :=
  mkFM (foldl (λ m e, <[FileName e := e]> m) ∅ (db_find_entries d)) ∅ ∅ 0 d al writer k.

(** ** Replay *)
Definition handleJournalMapEntry (mapEntry : FileMapEntry) : FM () :=
  f ← go_get;
  match Entries f !! me_Filename mapEntry with
  | None =>
      match me_TargetState mapEntry with
      | State_PRESENT =>
          let e := ToMgrEntry (mkMapEntry 0 "" "" false zero_time) mapEntry in
          go_put (set_Entries f (<[me_Filename mapEntry := e]> (Entries f)))
      | State_ABSENT => mret ()
      end
  | Some original =>
      match me_TargetState mapEntry with
      | State_PRESENT =>
          go_put (set_Entries f
            (<[me_Filename mapEntry := ToMgrEntry original mapEntry]> (Entries f)))
      | State_ABSENT => go_put (set_Entries f (delete (me_Filename mapEntry) (Entries f)))
      end
  end.

Definition handleChunkEntry (chunk : ChunkEntry) : FileM () :=
  f ← go_get;
  match Chunks f !! he_Id chunk with
  | None =>
      match he_TargetState chunk with
      | State_PRESENT =>
          c ← alloc_chunk (ToSheetChunk (mkChunk 0 "" 0 nil_slice) chunk);
          go_modify (λ f, set_Chunks f (<[he_Id chunk := c]> (Chunks f)))
      | State_ABSENT => mret ()
      end
  | Some originalChunk =>
      match he_TargetState chunk with
      | State_PRESENT =>
          c ← load_chunk originalChunk;
          store_chunk originalChunk (ToSheetChunk c chunk)
      | State_ABSENT => go_modify (λ f, set_Chunks f (delete (he_Id chunk) (Chunks f)))
      end
  end.

(** The loop: [true] when a slot of the cell was found (and redirected). *)
Fixpoint ensure_loop (sl : slice) (i n : nat) (cell : loc) (cellID : Z) : FileM bool :=
  match n with
  | O => mret false
  | S n' =>
      originalCell ← slice_get sl i;
      oc ← load_cell originalCell;
      if CellID oc =? cellID then
        (if decide (originalCell = cell) then mret () else slice_set sl i cell) ≫= λ _,
        mret true
      else ensure_loop sl (S i) n' cell cellID
  end.

Definition ensureCellChunkConsistency (cell : loc) : FileM () :=
  c ← load_cell cell;
  f ← go_get;
  chunk ← go_deref (Chunks f !! ChunkID c);
  ch ← load_chunk chunk;
  found ← ensure_loop (Chunk_Cells ch) 0 (s_len (Chunk_Cells ch)) cell (CellID c);
  if (found : bool) then mret ()
  else
    sl ← slice_append (Chunk_Cells ch) cell;
    store_chunk chunk (mkChunk (Chunk_ID ch) (DataNode ch) (Version ch) sl).

Definition handleCellEntry (cell : CellEntry) : GoM (World db) (result MasterError ()) :=
  w ← go_get;
  match Cells (w_file w) !! CellId cell with
  | None =>
      match ce_TargetState cell with
      | State_PRESENT =>
          match CreateCellTableIfNotExists (w_db w) (ce_SheetName cell) with
          | Err e => mret (Err (DBErr e))
          | Ok d =>
              go_put (mkWorld (w_file w) (w_alloc w) d) ≫= λ _,
              c ← on_file (alloc_cell (ToSheetCell (mkCell 0 0 0 0 0 "") cell));
              on_file (go_modify (λ f, set_Cells f (<[CellId cell := c]> (Cells f)))) ≫= λ _,
              on_file (ensureCellChunkConsistency c) ≫= λ _,
              mret (Ok ())
          end
      | State_ABSENT => mret (Ok ())
      end
  | Some originalCell =>
      match ce_TargetState cell with
      | State_PRESENT =>
          c ← on_file (load_cell originalCell);
          on_file (store_cell originalCell (ToSheetCell c cell)) ≫= λ _,
          on_file (ensureCellChunkConsistency originalCell) ≫= λ _,
          mret (Ok ())
      | State_ABSENT =>
          on_file (go_modify (λ f, set_Cells f (delete (CellId cell) (Cells f)))) ≫= λ _,
          mret (Ok ())
      end
  end.

Definition HandleMasterEntry (entry : MasterEntry) : FM (result MasterError ()) :=
  (match GetMapEntry entry with
   | Some mapEntry => handleJournalMapEntry mapEntry
   | None => mret ()
   end) ≫= λ _,
  match GetCell entry, GetChunk entry with
  | None, None => mret (Ok ())
  | Some cell, Some chunk =>
      if decide (ce_ChunkId cell ≠ he_Id chunk ∨ ce_TargetState cell ≠ he_TargetState chunk)
      then mret (Err InvalidJournalEntryError)
      else
        f ← go_get;
        match Entries f !! ce_SheetName cell with
        | None => mret (Err InvalidJournalEntryError)
        | Some _ =>
            (match Opened f !! ce_SheetName cell with
             | Some _ => mret ()
             | None =>
                 file ← go_deref (LoadSheetFile (fm_db f) (ce_SheetName cell));
                 go_put (set_Opened f (<[ce_SheetName cell := file]> (Opened f)))
             end) ≫= λ _,
            with_file (ce_SheetName cell) (on_file (handleChunkEntry chunk)) ≫= λ _,
            with_file (ce_SheetName cell) (handleCellEntry cell)
        end
  | _, _ => mret (Err InvalidJournalEntryError)
  end.

(** Errors are logged and dropped. *)
Definition DoCheckpoint : FM () :=
  f ← go_get;
  w ← go_deref (journalWriter f);
  let '((offset, err), w', k') := WriterCheckpoint w (fm_kafka f) in
  go_put (set_journal f w' k') ≫= λ _,
  match err with
  | Some _ => mret ()
  | None =>
      r ← Persistent;
      match r with
      | Err _ => mret ()
      | Ok _ => go_modify (λ f, set_db f (RecordCheckpoint (fm_db f) offset))
      end
  end.
End filemgr.
