(* ===== verification/Replay.v ===== *)
(** Replay: a replica that applies the journal follows the primary.

    [v_apply] is what one journal record does to the value of a sheet; the
    handlers handleChunkEntry, ensureCellChunkConsistency and handleCellEntry of
    sheetfs/master/filemgr/filemgr.go are shown to implement it on the pointer
    structure, and [v_apply] of the record a write produced is shown to keep
    the replica's sheet in agreement with the primary's. *)
From Stdlib Require Import ZArith Lia Permutation.
From stdpp Require Import gmap strings list fin_maps.
From S2P Require Import Prelude.
From S2P Require Import DataNodeAlloc.
From S2P Require Import MasterData.
From S2P Require Import SheetFile.
From S2P Require Import SheetFileSpec.
From S2P Require Import SheetFileRefine.
From S2P Require Import JournalEntry.
From S2P Require Import CommonJournal.
From S2P Require Import FileMgr.
Open Scope Z_scope.

(** ** Values *)
Definition v_apply (v : VFile) (ci : CellInfo) (node : string) (ver : Z) : VFile :=
  let cells := match v_chunks v !! ci_chunk ci with Some vc => vc_cells vc | None => [] end in
  let cells' := match v_cells v !! ci_id ci with Some _ => cells | None => cells ++ [ci] end in
  mkVFile (<[ci_chunk ci := mkVChunk node ver cells']> (v_chunks v))
    (<[ci_id ci := ci]> (v_cells v)) (v_last v).

(** The same chunks and cells, the slots of a chunk in any order. *)
Definition chunk_agrees (_ : Z) (a b : VChunk) : Prop :=
  vc_node a = vc_node b ∧ vc_version a = vc_version b ∧ vc_cells a ≡ₚ vc_cells b.

Definition file_agrees (a b : VFile) : Prop :=
  v_cells a = v_cells b ∧ map_Forall2 chunk_agrees (v_chunks a) (v_chunks b).

(** A record that may be applied: it describes a new cell, or repeats what is
    known about an existing one. *)
Definition appliable (v : VFile) (ci : CellInfo) : Prop :=
  v_cells v !! ci_id ci = None ∨ v_cells v !! ci_id ci = Some ci.

Lemma layout_perm a b : a ≡ₚ b → layout a → layout b.
Proof.
  intros P [(c & -> & H1 & H2)|(H1 & H2 & H3)].
  - apply Permutation_singleton_l in P. subst b. left. by exists c.
  - right. rewrite <- (Permutation_length P). split_and!; [done|by rewrite <- P|].
    rewrite <- H3. symmetry. by apply fmap_Permutation.
Qed.

Lemma v_inv_agrees a b :
  file_agrees a b → v_inv a → (∀ k, v_last b = Some k → is_Some (v_chunks b !! k)) → v_inv b.
Proof.
  intros [Hc Hm] [I1 I2 _] Hl. split; [| |done].
  - intros k vb Hk. destruct (map_Forall2_lookup_r _ _ _ _ _ Hm Hk) as (va & Ha & N & V & P).
    destruct (I1 k va Ha) as (F & D & L & U). split_and!.
    + rewrite <- P, <- Hc. exact F.
    + by rewrite <- P.
    + by eapply layout_perm.
    + congruence.
  - intros id ci Hid. rewrite <- Hc in Hid. destruct (I2 id ci Hid) as (E & va & Ha & Hin).
    split; [done|]. destruct (map_Forall2_lookup_l _ _ _ _ _ Hm Ha) as (vb & Hb & _ & _ & P).
    exists vb. by rewrite <- P.
Qed.

(** The record of a write keeps the replica in agreement. *)
Lemma v_apply_write a b id node k a' k' ci vc' :
  file_agrees a b → v_inv a → v_chunks a !! k = None →
  v_write a id node k = (a', Some (k', ci)) → v_chunks a' !! k' = Some vc' →
  file_agrees a' (v_apply b ci (vc_node vc') (vc_version vc')) ∧ appliable b ci ∧ ci_chunk ci = k'.
Proof.
  intros [Hc Hm] Ha Hk. unfold v_write, appliable. destruct (v_get a id) as [[c vc]|] eqn:G.
  - apply v_get_inv in G as (H1 & H2 & <- & _); [|done]. intros [= <- <- <-]. simpl.
    rewrite lookup_insert_eq. intros [= <-]. rewrite <- Hc, H1. split_and!; [|auto|done].
    split; simpl; [by rewrite <- Hc, insert_id|].
    destruct (map_Forall2_lookup_l _ _ _ _ _ Hm H2) as (vb & Hb & N & V & P).
    rewrite <- Hc, H1, Hb. eapply map_Forall2_update; [exact Hm|by split_and!|done].
  - apply v_get_None in G; [|done].
    assert (∀ w j, (v_chunks a !! j = Some w ∨ v_chunks a !! j = None ∧ vc_cells w = []) →
      v_put a w j id (cell_size id) = a' → v_slot w j id (cell_size id) = ci → j = k' →
      v_chunks a' !! k' = Some vc' →
      file_agrees a' (v_apply b ci (vc_node vc') (vc_version vc'))
      ∧ (v_cells b !! ci_id ci = None ∨ v_cells b !! ci_id ci = Some ci) ∧ ci_chunk ci = k') as Hput.
    { intros w j Hw <- <- <-. simpl. rewrite lookup_insert_eq. intros [= <-]. rewrite <- Hc, G.
      split_and!; [|auto|done]. split; simpl; [by rewrite <- Hc|]. rewrite <- Hc, G.
      eapply map_Forall2_update; [exact Hm| |done]. split_and!; [done..|]. simpl.
      destruct Hw as [Hj|[Hj ->]].
      - destruct (map_Forall2_lookup_l _ _ _ _ _ Hm Hj) as (vb & -> & _ & _ & ->). done.
      - apply (map_Forall2_lookup_None _ _ _ _ Hm) in Hj as ->. done. }
    destruct (v_available a (cell_size id)) as [[j vc]|] eqn:A.
    + apply v_available_Some in A as (_ & H2 & H3). intros [= E1 E2 E3]. apply (Hput vc j); auto.
    + destruct node as [n|]; [|done]. intros [= E1 E2 E3]. apply (Hput (mkVChunk n 0 []) k); auto.
Qed.

(** The record of a creation builds the same sheet from nothing. *)
Lemma v_apply_create n k :
  file_agrees (v_create n k)
    (v_apply (mkVFile ∅ ∅ None) (mkInfo SheetMetaCellID 0 BytesPerChunk k) n 0).
Proof.
  split; [done|]. simpl. rewrite !lookup_empty.
  refine (map_Forall2_insert_2 _ ∅ ∅ k _ _ _ (map_Forall2_empty _)). by split_and!.
Qed.

(** ** The handlers on the object store *)

(** Redirecting a slot to another object with the same contents. *)
Lemma redirect_view f sl i l l' c :
  store_wf f → backing f sl !! i = Some l → cell_objs f !! l' = Some c →
  (∀ c0, cell_objs f !! l = Some c0 → info c0 = info c) →
  let f' := set_array f (s_arr sl) (<[i := l']> (backing f sl)) in
  same_view f f' ∧ store_wf f'.
Proof.
  intros W Hl Hl' Hi. destruct (backing_lookup_arr f sl i l Hl) as (a & Ha & _). split.
  - split; try done. intros sl' cs [Hn H]. split; [done|]. intros j x Hj.
    destruct (H j x Hj) as (m & d & H1 & H2 & H3). unfold backing in *. simpl.
    destruct (decide (s_arr sl' = s_arr sl)) as [E|E].
    + rewrite E, lookup_insert_eq. simpl. rewrite E in H1. destruct (decide (i = j)) as [->|Hij].
      * rewrite list_lookup_insert_eq by (by eapply lookup_lt_Some).
        exists l', c. split_and!; try done. rewrite <- H3. symmetry. apply Hi. congruence.
      * rewrite list_lookup_insert_ne by done. by exists m, d.
    + rewrite lookup_insert_ne by congruence. by exists m, d.
  - destruct W as [W1 W2 W3 W4 W5]. split; simpl; try done.
    intros k b. rewrite lookup_insert_Some. intros [[<- _]|[_ H]]; by eapply W4.
Qed.

(** The loop finds the slot of a cell that is laid out in the chunk. *)
Lemma ensure_loop_found f sl cs i n cl c :
  store_wf f → slice_vals f sl cs → NoDup (ci_id <$> cs) → cell_objs f !! cl = Some c →
  info c ∈ drop i cs → (i + n = s_len sl)%nat →
  ∃ f', ensure_loop sl i n cl (CellID c) f = Some (true, f') ∧ same_view f f' ∧ store_wf f'.
Proof.
  intros W Hs Hnd Hc. revert i. induction n as [|n IH]; intros i Hin Hn; pose proof Hs as [Hl H].
  { rewrite drop_ge in Hin by lia. by apply elem_of_nil in Hin. }
  destruct (lookup_lt_is_Some_2 cs i ltac:(lia)) as [x Hx].
  destruct (H i x Hx) as (l & c0 & H1 & H2 & H3). cbn [ensure_loop].
  assert (slice_get sl i f = Some (l, f)) as Hg.
  { unfold slice_get. rewrite decide_True by lia. by rewrite H1. }
  go_run Hg. go_run (load_cell_eq _ _ _ H2).
  rewrite (drop_S cs x i Hx), elem_of_cons in Hin.
  destruct (Z.eqb_spec (CellID c0) (CellID c)) as [E|E].
  - assert (info c0 = info c) as Hi.
    { destruct Hin as [->|Hin]; [done|]. exfalso.
      apply list_elem_of_lookup_1 in Hin as [j Hj]. rewrite lookup_drop in Hj.
      enough (i = S i + j)%nat by lia.
      apply (NoDup_lookup (ci_id <$> cs) i (S i + j) (CellID c) Hnd).
      - rewrite list_lookup_fmap, Hx. simpl. by rewrite <- H3, <- E.
      - by rewrite list_lookup_fmap, Hj. }
    case_decide as D.
    + exists f. by go_run (eq_refl : (mret () : FileM ()) f = Some ((), f)).
    + destruct (redirect_view f sl i l cl c W H1 Hc) as [V W']; [intros; congruence|].
      assert (slice_set sl i cl f = Some ((), set_array f (s_arr sl) (<[i := cl]> (backing f sl)))) as Hss.
      { unfold slice_set. rewrite decide_True; [done|]. split; [lia|]. by eapply lookup_lt_Some. }
      go_run Hss. by eexists.
  - apply IH; [|lia]. destruct Hin as [Hin|Hin]; [|done].
    exfalso. apply E. change (ci_id (info c0) = ci_id (info c)). congruence.
Qed.

(** The loop finds nothing when the cell is new to the chunk. *)
Lemma ensure_loop_new f sl cs i n cl id :
  slice_vals f sl cs → id ∉ ci_id <$> cs → (i + n = s_len sl)%nat →
  ensure_loop sl i n cl id f = Some (false, f).
Proof.
  intros Hs Hni. revert i. induction n as [|n IH]; intros i Hn; [done|]. pose proof Hs as [Hl H].
  destruct (lookup_lt_is_Some_2 cs i ltac:(lia)) as [x Hx].
  destruct (H i x Hx) as (l & c0 & H1 & H2 & H3). cbn [ensure_loop].
  assert (slice_get sl i f = Some (l, f)) as Hg.
  { unfold slice_get. rewrite decide_True by lia. by rewrite H1. }
  go_run Hg. go_run (load_cell_eq _ _ _ H2).
  destruct (Z.eqb_spec (CellID c0) id) as [<-|E]; [|by apply IH; lia].
  exfalso. apply Hni. apply list_elem_of_lookup_2 in Hx.
  change (CellID c0) with (ci_id (info c0)). rewrite H3. by apply list_elem_of_fmap_2.
Qed.

(** A chunk record on the value. *)
Definition v_chunk (v : VFile) (k : Z) (node : string) (ver : Z) : VFile :=
  mkVFile (<[k := mkVChunk node ver
                    (match v_chunks v !! k with Some vc => vc_cells vc | None => [] end)]> (v_chunks v))
    (v_cells v) (v_last v).

Lemma new_chunk_rep f v k node ver :
  file_rep f v → v_chunks v !! k = None →
  let f1 := bump (set_chunk_obj f (next_loc f) (mkChunk k node ver nil_slice)) in
  file_rep (set_Chunks f1 (<[k := next_loc f]> (Chunks f1)))
    (mkVFile (<[k := mkVChunk node ver []]> (v_chunks v)) (v_cells v) (v_last v)).
Proof.
  intros [W Hch Hce Hla] Hk. pose proof (swf_next f W).
  apply (map_Forall2_lookup_None _ _ _ _ Hch) in Hk as Hk'. split; simpl.
  - destruct W as [W1 W2 W3 W4 W5]. split; simpl; try lia.
    + intros l c H1. apply W2 in H1. lia.
    + intros l c. rewrite lookup_insert_Some. intros [[<- <-]|[_ H1]]; [simpl; lia|].
      apply W3 in H1. lia.
    + intros l a H1. apply W4 in H1. lia.
    + intros l1 l2 c1 c2. rewrite !lookup_insert_Some.
      intros [[<- <-]|[_ H1]] [[<- <-]|[_ H2]]; simpl; first [done|by apply W5|congruence].
  - eapply map_Forall2_update; [exact Hch| |].
    + eexists. simpl. rewrite lookup_insert_eq. split_and!; try done.
    + intros j l vc Hj Hl (c & H1 & H2). exists c. simpl. pose proof (swf_chunks f W l c H1).
      by rewrite lookup_insert_ne by lia.
  - exact Hce.
  - unfold last_val in *. simpl. destruct (v_last v) as [k0|]; [|done].
    rewrite lookup_insert_ne; [done|]. intros ->. congruence.
Qed.

Lemma handleChunkEntry_spec f v he :
  file_rep f v → he_TargetState he = State_PRESENT →
  ∃ f', handleChunkEntry he f = Some ((), f')
    ∧ file_rep f' (v_chunk v (he_Id he) (he_Datanode he) (he_Version he)) ∧ filename f' = filename f.
Proof.
  intros R Hs. unfold handleChunkEntry, v_chunk. go_run (eq_refl : go_get f = Some (f, f)). rewrite Hs.
  destruct (v_chunks v !! he_Id he) as [vc|] eqn:E.
  - destruct (map_Forall2_lookup_r _ _ _ _ _ (rep_chunks _ _ R) E) as (l & Hl & c & H1 & H2 & H3 & H4 & H5).
    rewrite Hl. go_run (load_chunk_eq _ _ _ H1). eexists. split; [done|]. split; [|done].
    unfold ToSheetChunk. rewrite <- H2 at 1. by apply update_chunk_rep.
  - pose proof (proj2 (map_Forall2_lookup_None _ _ _ _ (rep_chunks _ _ R)) E) as ->.
    go_run (eq_refl : alloc_chunk (ToSheetChunk (mkChunk 0 "" 0 nil_slice) he) f = Some (_, _)).
    eexists. split; [done|]. split; [|done]. by apply new_chunk_rep.
Qed.

(** A cell record for a cell that is known. *)
Lemma known_cell_spec {db} {DB : MetaDB db} (w : World db) v ci vc ce :
  file_rep (w_file w) v → v_cells v !! ci_id ci = Some ci → v_chunks v !! ci_chunk ci = Some vc →
  ci ∈ vc_cells vc → NoDup (ci_id <$> vc_cells vc) →
  ce = mkCellEntry State_PRESENT (ci_id ci) (ci_off ci) (ci_size ci) (ci_chunk ci) (filename (w_file w)) →
  ∃ f', handleCellEntry ce w = Some (Ok (), mkWorld f' (w_alloc w) (w_db w))
    ∧ file_rep f' v ∧ filename f' = filename (w_file w).
Proof.
  intros R Hci Hvc Hin Hnd ->. destruct w as [f al d]. simpl in *.
  destruct (map_Forall2_lookup_r _ _ _ _ _ (rep_cells _ _ R) Hci) as (cl & Hcl & c & Hc & <- & Hn).
  destruct (map_Forall2_lookup_r _ _ _ _ _ (rep_chunks _ _ R) Hvc) as (l & Hl & ch & H1 & _ & _ & _ & H5).
  unfold handleCellEntry. go_run (eq_refl : go_get (mkWorld f al d) = Some (_, _)).
  simpl in *. rewrite Hcl. go_run (on_file_eq _ (mkWorld f al d) _ _ (load_cell_eq _ _ _ Hc)).
  assert (set_cell_obj f cl (ToSheetCell c
    (mkCellEntry State_PRESENT (CellID c) (Offset c) (Size c) (ChunkID c) (filename f))) = f) as Hsame.
  { unfold ToSheetCell. simpl. rewrite <- Hn. destruct c, f. unfold set_cell_obj. simpl in *.
    f_equal. by apply insert_id. }
  erewrite (GoM_bind_Some (on_file (store_cell _ _)));
    [|by unfold on_file, store_cell, go_modify; simpl; rewrite Hsame].
  destruct (ensure_loop_found f (Chunk_Cells ch) (vc_cells vc) 0 (s_len (Chunk_Cells ch)) cl c)
    as (f' & E & V & W'); [apply R|done..|].
  assert (ensureCellChunkConsistency cl f = Some ((), f')) as He.
  { unfold ensureCellChunkConsistency. go_run (load_cell_eq _ _ _ Hc).
    go_run (eq_refl : go_get f = Some (f, f)).
    assert (go_deref (Chunks f !! ChunkID c) f = Some (l, f)) as Hd by (by rewrite Hl).
    go_run Hd. go_run (load_chunk_eq _ _ _ H1). by go_run E. }
  go_run (on_file_eq _ (mkWorld f al d) _ _ He). exists f'. split; [done|].
  split; [by eapply same_view_rep|]. apply (sv_name _ _ V).
Qed.

(** A cell record for a new cell: it is appended to its chunk. *)
Lemma new_cell_spec {db} {DB : MetaDB db} (w : World db) v ci vc ce d1 :
  file_rep (w_file w) v → v_cells v !! ci_id ci = None → v_chunks v !! ci_chunk ci = Some vc →
  ci_id ci ∉ ci_id <$> vc_cells vc →
  ce = mkCellEntry State_PRESENT (ci_id ci) (ci_off ci) (ci_size ci) (ci_chunk ci) (filename (w_file w)) →
  CreateCellTableIfNotExists (w_db w) (filename (w_file w)) = Ok d1 →
  ∃ f', handleCellEntry ce w = Some (Ok (), mkWorld f' (w_alloc w) d1)
    ∧ file_rep f' (mkVFile
        (<[ci_chunk ci := mkVChunk (vc_node vc) (vc_version vc) (vc_cells vc ++ [ci])]> (v_chunks v))
        (<[ci_id ci := ci]> (v_cells v)) (v_last v))
    ∧ filename f' = filename (w_file w).
Proof.
  intros R Hci Hvc Hni -> Hd. destruct w as [f al d]. simpl in *.
  destruct (map_Forall2_lookup_r _ _ _ _ _ (rep_chunks _ _ R) Hvc) as (l & Hl & ch & H1 & H2 & H3 & H4 & H5).
  unfold handleCellEntry. go_run (eq_refl : go_get (mkWorld f al d) = Some (_, _)). simpl.
  rewrite (proj2 (map_Forall2_lookup_None _ _ _ _ (rep_cells _ _ R)) Hci), Hd.
  set (cell := ToSheetCell (mkCell 0 0 0 0 0 "")
    (mkCellEntry State_PRESENT (ci_id ci) (ci_off ci) (ci_size ci) (ci_chunk ci) (filename f))).
  assert (info cell = ci) as Hinfo by (by destruct ci).
  destruct (alloc_cell_view f cell (rep_wf _ _ R)) as [V1 W1].
  set (f1 := bump (set_cell_obj f (next_loc f) cell)) in *.
  set (f2 := set_Cells f1 (<[ci_id ci := next_loc f]> (Cells f1))).
  assert (cell_objs f2 !! next_loc f = Some cell) as Hcell by (simpl; by rewrite lookup_insert_eq).
  assert (file_rep f2 (mkVFile (v_chunks v) (<[ci_id ci := info cell]> (v_cells v)) (v_last v))) as R2.
  { apply set_Cells_rep; [by eapply same_view_rep|exact Hcell|done]. }
  assert (slice_vals f2 (Chunk_Cells ch) (vc_cells vc)) as H5'.
  { assert (slice_vals f1 (Chunk_Cells ch) (vc_cells vc)) as Hx by (by apply (sv_slices _ _ V1)).
    exact Hx. }
  destruct (slice_append_spec f2 (Chunk_Cells ch) (next_loc f)) as (sl' & f3 & E & A).
  { apply R2. } { apply (swf_chunks _ (rep_wf _ _ R2) l ch H1). } { by eapply slice_vals_len. }
  assert (ensureCellChunkConsistency (next_loc f) f2
    = Some ((), set_chunk_obj f3 l (mkChunk (Chunk_ID ch) (DataNode ch) (Version ch) sl'))) as He.
  { unfold ensureCellChunkConsistency. go_run (load_cell_eq _ _ _ Hcell).
    go_run (eq_refl : go_get f2 = Some (f2, f2)).
    assert (go_deref (Chunks f2 !! ChunkID cell) f2 = Some (l, f2)) as Hdr by (simpl; by rewrite Hl).
    go_run Hdr. go_run (load_chunk_eq f2 l ch H1).
    go_run (ensure_loop_new f2 (Chunk_Cells ch) (vc_cells vc) 0 _ (next_loc f) (ci_id ci) H5' Hni eq_refl).
    go_run E. done. }
  go_run (eq_refl : go_put (mkWorld f al d1) (mkWorld f al d) = Some ((), mkWorld f al d1)).
  go_run (eq_refl : on_file (alloc_cell cell) (mkWorld f al d1) = Some (next_loc f, mkWorld f1 al d1)).
  go_run (eq_refl : on_file (go_modify (λ g, set_Cells g (<[ci_id ci := next_loc f]> (Cells g))))
                      (mkWorld f1 al d1) = Some ((), mkWorld f2 al d1)).
  go_run (on_file_eq _ (mkWorld f2 al d1) _ _ He).
  eexists. split; [done|]. split; [|apply (ap_name _ _ _ _ _ A)].
  pose proof (append_rep f2 f3 _ _ l ch vc sl' _ cell (Version ch) R2 Hl H1 Hvc A Hcell) as Hr.
  rewrite Hinfo in Hr. rewrite <- H4. exact Hr.
Qed.

(** Both handlers on one record: [v_apply]. *)
Lemma replay_record_spec {db} {DB : MetaDB db} (w : World db) v ci node ver d1 :
  file_rep (w_file w) v → v_inv v → appliable v ci →
  CreateCellTableIfNotExists (w_db w) (filename (w_file w)) = Ok d1 →
  let ce := mkCellEntry State_PRESENT (ci_id ci) (ci_off ci) (ci_size ci) (ci_chunk ci) (filename (w_file w)) in
  let he := mkChunkEntry State_PRESENT (ci_chunk ci) ver node in
  ∃ f1 f2 d2,
    on_file (handleChunkEntry he) w = Some ((), mkWorld f1 (w_alloc w) (w_db w))
    ∧ handleCellEntry ce (mkWorld f1 (w_alloc w) (w_db w)) = Some (Ok (), mkWorld f2 (w_alloc w) d2)
    ∧ file_rep f2 (v_apply v ci node ver) ∧ filename f2 = filename (w_file w)
    ∧ (d2 = w_db w ∨ d2 = d1).
Proof.
  intros R Hv Hap Hd. destruct w as [f al d]. simpl in *.
  destruct (handleChunkEntry_spec f v (mkChunkEntry State_PRESENT (ci_chunk ci) ver node) R eq_refl)
    as (f1 & E1 & R1 & N1). simpl in R1.
  destruct Hap as [Hn|Hs].
  - destruct (new_cell_spec (mkWorld f1 al d) _ ci
      (mkVChunk node ver (match v_chunks v !! ci_chunk ci with Some vc => vc_cells vc | None => [] end))
      (mkCellEntry State_PRESENT (ci_id ci) (ci_off ci) (ci_size ci) (ci_chunk ci) (filename f)) d1 R1)
      as (f2 & E2 & R2 & N2); [done|apply lookup_insert_eq| |simpl; congruence..|].
    { simpl. destruct (v_chunks v !! ci_chunk ci) as [vc|] eqn:Hvc; [|by apply not_elem_of_nil].
      intros (c & Hc & Hin)%list_elem_of_fmap_1. destruct (inv_chunks v Hv _ _ Hvc) as (F & _).
      rewrite Forall_forall in F. destruct (F c Hin) as [_ Hx]. congruence. }
    exists f1, f2, d1. split_and!; try done; [by rewrite (on_file_eq _ (mkWorld f al d) _ _ E1)| | |auto].
    + unfold v_apply. rewrite Hn. simpl in R2. by rewrite insert_insert_eq in R2.
    + simpl in *. congruence.
  - destruct (inv_cells v Hv _ _ Hs) as (_ & vc & Hvc & Hin).
    destruct (inv_chunks v Hv _ _ Hvc) as (_ & Hnd & _). unfold v_chunk in R1. rewrite Hvc in R1.
    destruct (known_cell_spec (mkWorld f1 al d) _ ci (mkVChunk node ver (vc_cells vc))
      (mkCellEntry State_PRESENT (ci_id ci) (ci_off ci) (ci_size ci) (ci_chunk ci) (filename f)) R1)
      as (f2 & E2 & R2 & N2); [done|apply lookup_insert_eq|done|done|simpl; congruence|].
    exists f1, f2, d. split_and!; try done; [by rewrite (on_file_eq _ (mkWorld f al d) _ _ E1)| | |auto].
    + unfold v_apply. rewrite Hs, Hvc, (insert_id (v_cells v)) by done. exact R2.
    + simpl in *. congruence.
Qed.
