(* ===== verification/FileMgrProps.v ===== *)
(** FileMgrProps: the contract of the directory.

    [Dir] is the directory as its clients see it: which names exist, which of
    them are recycled, and the descriptor table.  Every method of
    sheetfs/master/filemgr/filemgr.go is shown to implement the corresponding
    operation of [Dir], with its error on every branch. *)
From Stdlib Require Import ZArith Lia.
From stdpp Require Import gmap strings list fin_maps.
From S2P Require Import Prelude.
From S2P Require Import DataNodeAlloc.
From S2P Require Import MasterData.
From S2P Require Import SheetFile.
From S2P Require Import SheetFileSpec.
From S2P Require Import SheetFileRefine.
From S2P Require Import JournalEntry.
From S2P Require Import CommonJournal.
From S2P Require Import FileMgr.
Open Scope Z_scope.

(** ** The directory as clients see it *)
Record Dir := mkDir {
  dir_recycled : gmap string bool;
  dir_fds : gmap Z string;
  dir_next : Z
}.

Definition dir_add_fd (d : Dir) (name : string) : Dir :=
  mkDir (dir_recycled d) (<[dir_next d := name]> (dir_fds d)) (u64 (dir_next d + 1)).

Definition dir_open (d : Dir) (name : string) : result MasterError Z * Dir :=
  match dir_recycled d !! name with
  | Some false => (Ok (dir_next d), dir_add_fd d name)
  | _ => (Err (FileNotFoundError name), d)
  end.

Definition dir_create (d : Dir) (name : string) : result MasterError Z * Dir :=
  match dir_recycled d !! name with
  | Some _ => (Err (FileExistsError name), d)
  | None =>
      (Ok (dir_next d),
       dir_add_fd (mkDir (<[name := false]> (dir_recycled d)) (dir_fds d) (dir_next d)) name)
  end.

Definition dir_mark (d : Dir) (name : string) (recycled : bool) : Dir :=
  match dir_recycled d !! name with
  | Some _ => mkDir (<[name := recycled]> (dir_recycled d)) (dir_fds d) (dir_next d)
  | None => d
  end.

(** ** Loading never panics *)
Lemma alloc_cells_spec (rows : list Cell) f :
  ∃ ls f', foldr (λ c m, l ← alloc_cell c; ls ← m; mret (l :: ls)) (mret [] : FileM (list loc)) rows f
           = Some (ls, f')
    ∧ length ls = length rows ∧ (next_loc f <= next_loc f')%nat
    ∧ (∀ l, (l < next_loc f)%nat → cell_objs f' !! l = cell_objs f !! l)
    ∧ ∀ i l, ls !! i = Some l → is_Some (cell_objs f' !! l).
Proof.
  revert f. induction rows as [|c rows IH]; intros f.
  { exists [], f. split_and!; try done. }
  cbn [foldr]. go_run (eq_refl : alloc_cell c f = Some (_, _)).
  set (f1 := bump (set_cell_obj f (next_loc f) c)).
  destruct (IH f1) as (ls & f' & E & Hl & Hn & Hk & Hs). go_run E.
  exists (next_loc f :: ls), f'. split_and!; [done|simpl; congruence|simpl in Hn; lia| |].
  - intros l Hlt. rewrite Hk by (simpl; lia). simpl. by rewrite lookup_insert_ne by lia.
  - intros [|i] l; simpl; [|apply Hs]. intros [= <-]. rewrite Hk by (simpl; lia). simpl.
    by rewrite lookup_insert_eq.
Qed.

Section dir.
Context {db : Type} {DB : MetaDB db} {K : Type} {KO : Kafka K}.
Context {ME : Codec MasterEntry} {RO : RangeOrder}.

Abbreviation FMState := (FileManager db K).
Implicit Types (f : FMState).

Lemma load_slice_total (g : SheetFile) sl ls i n :
  backing g sl = ls → (s_len sl <= length ls)%nat → (i + n = s_len sl)%nat →
  (∀ j l, ls !! j = Some l → is_Some (cell_objs g !! l)) →
  ∃ cs, load_slice_from sl i n g = Some (cs, g).
Proof.
  intros Hb Hl Hn Hs. revert i Hn. induction n as [|n IH]; intros i Hn; [by exists []|].
  destruct (lookup_lt_is_Some_2 ls i ltac:(lia)) as [l Hi]. destruct (Hs i l Hi) as [c Hc].
  destruct (IH (S i) ltac:(lia)) as [cs E]. exists (c :: cs). cbn [load_slice_from].
  assert (slice_get sl i g = Some (l, g)) as Hg.
  { unfold slice_get. rewrite decide_True by lia. by rewrite Hb, Hi. }
  go_run Hg. go_run (load_cell_eq _ _ _ Hc). by go_run E.
Qed.

Lemma loadChunkForFile_total (d : db) name id g size :
  ∃ l g', loadChunkForFile d name id g = Some (l, g')
    ∧ ∀ m, ∃ b, isAvailable l size (set_Chunks g' m) = Some (b, set_Chunks g' m).
Proof.
  unfold loadChunkForFile. destruct (db_first_chunk d id) as [row|].
  - destruct (alloc_cells_spec (filter (λ c, ChunkID c = row_ID row) (GetSheetCellsAll d name)) g)
      as (ls & g1 & E & Hlen & _ & _ & Hs).
    go_run E. go_run (eq_refl : alloc_array ls g1 = Some (_, _)).
    eexists _, _. split; [done|]. intros m. unfold isAvailable.
    erewrite (GoM_bind_Some (load_chunk _));
      [|apply load_chunk_eq; simpl; by rewrite lookup_insert_eq].
    edestruct (load_slice_total
      (set_Chunks (bump (set_chunk_obj (bump (set_array g1 (next_loc g1) ls)) (S (next_loc g1))
         (mkChunk (row_ID row) (row_DataNode row) (row_Version row) (mkSlice (next_loc g1) (length ls))))) m)
      (mkSlice (next_loc g1) (length ls)) ls 0 (length ls)) as [cs Ecs]; [|done|done|exact Hs|].
    { unfold backing. simpl. by rewrite lookup_insert_eq. }
    unfold load_slice. go_run Ecs. by eexists.
  - eexists _, _. split; [done|]. intros m. unfold isAvailable.
    erewrite (GoM_bind_Some (load_chunk _));
      [|apply load_chunk_eq; simpl; by rewrite lookup_insert_eq].
    by eexists.
Qed.

Lemma load_one_cell_total (d : db) name c g : ∃ g', load_one_cell d name c g = Some ((), g').
Proof.
  unfold load_one_cell. go_run (eq_refl : alloc_cell (with_SheetName c name) g = Some (_, _)).
  erewrite (GoM_bind_Some (go_modify _)); [|done].
  erewrite (GoM_bind_Some go_get); [|done]. simpl.
  destruct (Chunks g !! ChunkID c) as [l|]; [by eexists|].
  edestruct (loadChunkForFile_total d name (ChunkID c)) as (l & g2 & E & Ha).
  go_run E. erewrite (GoM_bind_Some (go_modify _)); [|done].
  erewrite (GoM_bind_Some go_get); [|done]. case_decide; [|by eexists].
  destruct (Ha (<[ChunkID c := l]> (Chunks g2))) as [b Eb]. go_run Eb. destruct b; by eexists.
Qed.

Lemma LoadSheetFile_total (d : db) name : ∃ g, LoadSheetFile d name = Some g.
Proof.
  unfold LoadSheetFile. generalize (empty_file name).
  induction (GetSheetCellsAll d name) as [|c cs IH]; intros g; [by exists g|].
  cbn [go_for]. destruct (load_one_cell_total d name c g) as [g1 E]. go_run E. apply IH.
Qed.

(** ** Refinement *)
Definition abs_dir f : Dir := mkDir (Recycled <$> Entries f) (Fds f) (nextFd f).

(** What OpenSheet does to the opened files: a file that can be opened and is not yet is
    loaded from the database. *)
Definition opened_by_open (name : string) f f' : Prop :=
  if decide (dir_recycled (abs_dir f) !! name = Some false)
  then match Opened f !! name with
       | Some _ => Opened f' = Opened f
       | None => ∃ g, LoadSheetFile (fm_db f) name = Some g ∧ Opened f' = <[name := g]> (Opened f)
       end
  else Opened f' = Opened f.

Lemma open_spec f name :
  ∃ f', OpenSheet name f = Some (fst (dir_open (abs_dir f) name), f')
    ∧ abs_dir f' = snd (dir_open (abs_dir f) name)
    ∧ opened_by_open name f f'.
Proof.
  unfold OpenSheet, openFile, dir_open, opened_by_open, abs_dir. simpl. rewrite lookup_fmap.
  unfold mbind, GoM_bind, go_get. destruct (Entries f !! name) as [e|]; [|by exists f]. simpl.
  destruct (Recycled e); [by exists f|]. destruct (Opened f !! name) as [g|] eqn:Ho.
  - by eexists.
  - destruct (LoadSheetFile_total (fm_db f) name) as [g ->]. eexists. split; [done|]. split; [done|]. by exists g.
Qed.

(** The journal changes nothing a client of the directory sees. *)
Lemma writeJournal_dir je f :
  ∃ r f', writeJournal je f = Some (r, f') ∧ Entries f' = Entries f ∧ Opened f' = Opened f
    ∧ Fds f' = Fds f ∧ nextFd f' = nextFd f ∧ ∀ x, r = Err x → x = JournalErr ∧ is_Some (journalWriter f).
Proof.
  unfold writeJournal. destruct (journalWriter f) as [w|]; [|by eexists _, _].
  destruct (marshal je) as [buf|]; [|by eexists _, _; split_and!; try done; intros x [= <-]].
  destruct (CommitEntry w (fm_kafka f) buf) as [[[err|] w'] k'];
    eexists _, _; split_and!; try done; by intros x [= <-].
Qed.

Lemma writeJournal_full je f :
  ∃ r f', writeJournal je f = Some (r, f') ∧ Entries f' = Entries f ∧ Opened f' = Opened f
    ∧ Fds f' = Fds f ∧ fm_db f' = fm_db f ∧ fm_alloc f' = fm_alloc f ∧ nextFd f' = nextFd f.
Proof.
  unfold writeJournal. destruct (journalWriter f) as [w|]; [|by eexists _, _].
  destruct (marshal je) as [buf|]; [|by eexists _, _].
  destruct (CommitEntry w (fm_kafka f) buf) as [[err w'] k']. by eexists _, _.
Qed.

Lemma recycle_spec f now name :
  ∃ r f', RecycleSheet now name f = Some (r, f')
    ∧ abs_dir f' = (if is_ok r then dir_mark (abs_dir f) name true else abs_dir f)
    ∧ Opened f' = Opened f ∧ ∀ e, r = Err e → e = JournalErr ∧ is_Some (journalWriter f).
Proof.
  unfold RecycleSheet, mbind, GoM_bind, go_get. destruct (Entries f !! name) as [e|] eqn:He; last first.
  { exists (Ok ()), f. split; [done|]. simpl. unfold dir_mark, abs_dir. simpl. by rewrite lookup_fmap, He. }
  destruct (writeJournal_dir (mkMasterEntry FromEmptySheetCell FromEmptyChunk
    (FromMgrEntry (mkMapEntry (Entry_ID e) (FileName e) (CellsTableName e) true now))) f)
    as (r & f1 & -> & E1 & E2 & E3 & E4 & E5).
  destruct r as [u|x]; eexists _, _; (split; [done|]); simpl; unfold abs_dir, dir_mark; simpl;
    rewrite ?lookup_fmap, ?E1, ?E2, ?E3, ?E4, ?He; [|split_and!; [done|done|]; intros e0 [= <-]; by apply E5].
  by rewrite fmap_insert.
Qed.

Lemma resume_spec f name :
  ∃ r f', ResumeSheet name f = Some (r, f')
    ∧ abs_dir f' = (if is_ok r then dir_mark (abs_dir f) name false else abs_dir f)
    ∧ Opened f' = Opened f ∧ ∀ e, r = Err e → e = JournalErr ∧ is_Some (journalWriter f).
Proof.
  unfold ResumeSheet, mbind, GoM_bind, go_get. destruct (Entries f !! name) as [e|] eqn:He; last first.
  { exists (Ok ()), f. split; [done|]. simpl. unfold dir_mark, abs_dir. simpl. by rewrite lookup_fmap, He. }
  destruct (writeJournal_dir (mkMasterEntry FromEmptySheetCell FromEmptyChunk
    (FromMgrEntry (mkMapEntry (Entry_ID e) (FileName e) (CellsTableName e) false (RecycledAt e)))) f)
    as (r & f1 & -> & E1 & E2 & E3 & E4 & E5).
  destruct r as [u|x]; eexists _, _; (split; [done|]); simpl; unfold abs_dir, dir_mark; simpl;
    rewrite ?lookup_fmap, ?E1, ?E2, ?E3, ?E4, ?He; [|split_and!; [done|done|]; intros e0 [= <-]; by apply E5].
  by rewrite fmap_insert.
Qed.

Lemma create_spec {DL : MetaDBLaws db} f name :
  alloc_wf (fm_alloc f) →
  ∃ r f', CreateSheet name f = Some (r, f')
    ∧ match r with
      | Ok fd => (Ok fd, abs_dir f') = dir_create (abs_dir f) name
                 ∧ ∃ sheet cell chunk al d, CreateSheetFile (fm_db f) (fm_alloc f) name = Some (Ok (sheet, cell, chunk), al, d)
                     ∧ Opened f' = <[name := sheet]> (Opened f)
      | Err e => abs_dir f' = abs_dir f ∧ Opened f' = Opened f
                 ∧ (is_Some (Entries f !! name) ↔ e = FileExistsError name)
                 ∧ (e = FileExistsError name ∨ (e = JournalErr ∧ is_Some (journalWriter f))
                    ∨ ∃ al d, CreateSheetFile (fm_db f) (fm_alloc f) name = Some (Err e, al, d))
      end.
Proof.
  intros Ha. unfold CreateSheet, mbind, GoM_bind, go_get, dir_create, abs_dir. simpl.
  rewrite lookup_fmap. destruct (Entries f !! name) as [e|] eqn:He.
  { eexists _, f. split; [done|]. split_and!; [done|done|done|by left]. }
  assert (∃ res al d, CreateSheetFile (fm_db f) (fm_alloc f) name = Some (res, al, d)
    ∧ ∀ e, res = Err e → e ≠ FileExistsError name) as (res & al & d & Ec & Hne).
  { destruct (CreateCellTableIfNotExists (fm_db f) name) as [d1|e] eqn:Ht.
    - destruct (CreateSheetFile_spec (fm_db f) d1 (fm_alloc f) name Ha Ht) as (al & d2 & _ & Hc).
      destruct (next_node (fm_alloc f)); [destruct Hc as (cell & chunk & -> & _)|rewrite Hc];
        eexists _, _, _; (split; [done|]); intros e He'; by simplify_eq.
    - unfold CreateSheetFile. rewrite Ht. eexists _, _, _. split; [done|]. intros x Hx. by simplify_eq. }
  rewrite Ec. simpl. destruct res as [[[sheet cell] chunk]|e].
  - destruct (writeJournal_dir (mkMasterEntry (FromSheetCell cell) (FromSheetChunk chunk)
      (FromMgrEntry (mkMapEntry 0 name (GetCellTableName name) false zero_time)))
      (set_alloc (set_db f d) al)) as (r & f1 & -> & E1 & E2 & E3 & E4 & E5).
    simpl in *. destruct r as [u|x].
    + eexists _, _. split; [done|]. simpl. rewrite E4, E3, E2, E1, fmap_insert. split; [done|]. by exists sheet, cell, chunk, al, d.
    + destruct (E5 _ eq_refl) as [-> Hw]. eexists _, _. split; [done|]. split_and!; [by rewrite E4, E3, E1|done|split; [by intros [? ?]|done]|by right; left].
  - eexists _, _. split; [done|]. split_and!; [done|done| |right; right; by eexists _, _].
    split; [by intros [? ?]|]. intros ->. by destruct (Hne _ eq_refl).
Qed.

(** ** Theorems *)

(** C32. The FileManager implements the directory: none of its four directory methods
    panics. [OpenSheet] answers the next descriptor for a name that exists and is not
    recycled and [FileNotFoundError] otherwise, and has then loaded the file from the
    database if it was not open ([opened_by_open]); [CreateSheet] succeeds only for a new
    name, with the file that CreateSheetFile made as the opened one; [FileExistsError] is
    its answer exactly for the others, recycled ones included, and any other error is that
    of CreateSheetFile or of the journal; [RecycleSheet] and [ResumeSheet] set the mark of
    an existing name and fail only when the journal does. The database executes its inserts
    (MetaDBLaws). A call that fails leaves the directory and the opened files as they were.
    *)
Theorem directory_refines {DL : MetaDBLaws db} f name now :
  alloc_wf (fm_alloc f) →
  (∃ f', OpenSheet name f = Some (fst (dir_open (abs_dir f) name), f')
     ∧ abs_dir f' = snd (dir_open (abs_dir f) name) ∧ opened_by_open name f f')
  ∧ (∃ r f', CreateSheet name f = Some (r, f')
     ∧ match r with
       | Ok fd => (Ok fd, abs_dir f') = dir_create (abs_dir f) name
                  ∧ ∃ sheet cell chunk al d, CreateSheetFile (fm_db f) (fm_alloc f) name = Some (Ok (sheet, cell, chunk), al, d)
                      ∧ Opened f' = <[name := sheet]> (Opened f)
       | Err e => abs_dir f' = abs_dir f ∧ Opened f' = Opened f
                  ∧ (is_Some (Entries f !! name) ↔ e = FileExistsError name)
                  ∧ (e = FileExistsError name ∨ (e = JournalErr ∧ is_Some (journalWriter f))
                     ∨ ∃ al d, CreateSheetFile (fm_db f) (fm_alloc f) name = Some (Err e, al, d))
       end)
  ∧ (∃ r f', RecycleSheet now name f = Some (r, f')
     ∧ abs_dir f' = (if is_ok r then dir_mark (abs_dir f) name true else abs_dir f)
     ∧ Opened f' = Opened f ∧ ∀ e, r = Err e → e = JournalErr ∧ is_Some (journalWriter f))
  ∧ (∃ r f', ResumeSheet name f = Some (r, f')
     ∧ abs_dir f' = (if is_ok r then dir_mark (abs_dir f) name false else abs_dir f)
     ∧ Opened f' = Opened f ∧ ∀ e, r = Err e → e = JournalErr ∧ is_Some (journalWriter f)).
Proof. intros Ha. split_and!; [apply open_spec|by apply create_spec|apply recycle_spec|apply resume_spec]. Qed.

(** Descriptors in use are below the next one. *)
Definition dir_wf (d : Dir) : Prop :=
  0 <= dir_next d < 2 ^ 64 ∧ ∀ fd name, dir_fds d !! fd = Some name → 0 <= fd < dir_next d.

Lemma add_fd_wf d name :
  dir_wf d → dir_next d < 2 ^ 64 - 1 →
  dir_wf (dir_add_fd d name) ∧ dir_fds d !! dir_next d = None
  ∧ dir_fds (dir_add_fd d name) !! dir_next d = Some name.
Proof.
  intros [Hn Hf] Hlt. unfold dir_add_fd, dir_wf. simpl. rewrite u64_small by (unfold is_u64; lia).
  split_and!; [lia|lia| | |apply lookup_insert_eq].
  - intros fd n. rewrite lookup_insert_Some. intros [[<- _]|[_ H]]; [lia|]. apply Hf in H. lia.
  - destruct (dir_fds d !! dir_next d) eqn:E; [|done]. apply Hf in E. lia.
Qed.

(** Descriptors are unique and lasting: while fewer than 2^64 - 1 have been
    handed out, an open or a creation answers a descriptor that no one holds,
    which then refers to the name it was asked for, and every descriptor in use
    keeps referring to its file - also when that file is recycled later. *)
Theorem descriptors_unique {DL : MetaDBLaws db} f name now fd f' :
  alloc_wf (fm_alloc f) → dir_wf (abs_dir f) → nextFd f < 2 ^ 64 - 1 →
  OpenSheet name f = Some (Ok fd, f') ∨ CreateSheet name f = Some (Ok fd, f') →
  Fds f !! fd = None ∧ fst <$> getFileByFd fd f' = Some (Ok name) ∧ dir_wf (abs_dir f')
  ∧ (∀ fd0 n0, Fds f !! fd0 = Some n0 → Fds f' !! fd0 = Some n0)
  ∧ ∃ r f2, RecycleSheet now name f' = Some (r, f2) ∧ Fds f2 = Fds f'.
Proof.
  intros Ha Hwf Hlt Hor.
  assert (∃ m, abs_dir f' = dir_add_fd (mkDir m (Fds f) (nextFd f)) name ∧ fd = nextFd f) as (m & Ed & ->).
  { destruct Hor as [Ho|Hc].
    - destruct (open_spec f name) as (f1 & H1 & H2 & _). rewrite Ho in H1.
      unfold dir_open in *. destruct (dir_recycled (abs_dir f) !! name) as [[]|]; [done| |done].
      injection H1 as -> ->. by exists (dir_recycled (abs_dir f)).
    - destruct (create_spec f name Ha) as (r & f1 & H1 & H2). rewrite Hc in H1. simplify_eq.
      destruct H2 as [H2 _]. unfold dir_create in H2.
      destruct (dir_recycled (abs_dir f) !! name); simplify_eq. by eexists. }
  destruct (add_fd_wf (mkDir m (Fds f) (nextFd f)) name) as (W & N & L); [exact Hwf|done|].
  simpl in N, L. pose proof (f_equal dir_fds Ed) as Ef. simpl in Ef.
  split_and!; [done| |by rewrite Ed| |].
  - unfold getFileByFd, mbind, GoM_bind, go_get. simpl. by rewrite Ef, lookup_insert_eq.
  - intros fd0 n0 H0. rewrite Ef, lookup_insert_ne; [done|]. intros <-. congruence.
  - destruct (recycle_spec f' now name) as (r & f2 & H1 & H2 & _). exists r, f2. split; [done|].
    apply (f_equal dir_fds) in H2. simpl in H2. rewrite H2.
    destruct (is_ok r); [|done]. unfold dir_mark. by destruct (dir_recycled (abs_dir f') !! name).
Qed.
End dir.

(** ** Concrete instances *)
Definition demo_fm : FileManager MemDB MemTopic :=
  LoadFileManager mem_empty (NewDataNodeAllocatorWithGroups ["g1"]) None mem_topic.

Definition null_codec : Codec MasterEntry := {| marshal _ := Ok []; unmarshal _ := Err "" |}.

Definition run_to {A} (m : GoM (FileManager MemDB MemTopic) A) (f : FileManager MemDB MemTopic) : FileManager MemDB MemTopic := default f (snd <$> m f).

(** A database whose inserts of chunks fail. *)
Definition full_db : MetaDB MemDB := {|
  db_query_table := db_query_table (MetaDB := MemDB_ops);
  db_exec := db_exec (MetaDB := MemDB_ops);
  db_create_chunk d c := (row_ID c, d);
  db_first_chunk := db_first_chunk (MetaDB := MemDB_ops);
  db_create_cell := db_create_cell (MetaDB := MemDB_ops);
  db_find_cells := db_find_cells (MetaDB := MemDB_ops);
  db_save_entry := db_save_entry (MetaDB := MemDB_ops);
  db_find_entries := db_find_entries (MetaDB := MemDB_ops);
  db_first_ckpt := db_first_ckpt (MetaDB := MemDB_ops);
  db_save_ckpt := db_save_ckpt (MetaDB := MemDB_ops);
  db_commit_err := db_commit_err (MetaDB := MemDB_ops)
|}.

(** The sheet is created all the same, with a chunk whose id is 0 and which no row holds. *)
Example failed_insert_unnoticed :
  match CreateSheetFile (MetaDB0 := full_db) mem_empty (NewDataNodeAllocatorWithGroups ["g1"]) "a" with
  | Some (Ok (_, cell, chunk), _, d) => Chunk_ID chunk = 0 ∧ ChunkID cell = 0 ∧ m_chunks d !! 0 = None
  | _ => False
  end.
Proof. vm_compute. done. Qed.

(** A sheet was created and saved, and the master started again. *)
Definition demo_again : FileManager MemDB MemTopic :=
  LoadFileManager (fm_db (run_to (Persistent (RO := source_order)) (run_to (CreateSheet (ME := null_codec) "a") demo_fm)))
    (NewDataNodeAllocatorWithGroups ["g1"]) None mem_topic.

(** A sheet that is created, and one that is opened and has to be loaded for it. *)
Lemma directory_refines_witness :
  (∃ f', CreateSheet (ME := null_codec) "a" demo_fm = Some (Ok 0, f') ∧ (Ok 0, abs_dir f') = dir_create (abs_dir demo_fm) "a" ∧ is_Some (Opened f' !! "a"))
  ∧ (Opened demo_again !! "a" = None ∧ ∃ f' g, OpenSheet "a" demo_again = Some (Ok 0, f')
      ∧ LoadSheetFile (fm_db demo_again) "a" = Some g ∧ Opened f' = <["a" := g]> (Opened demo_again)).
Proof.
  split.
  - destruct (directory_refines (ME := null_codec) demo_fm "a" 7) as (_ & (r & f' & H & Hr) & _); [apply alloc_wf_groups; simpl; lia|].
    exists f'. assert (r = Ok 0) as ->.
    { destruct (CreateSheet (ME := null_codec) "a" demo_fm) as [[[fd|e] g]|] eqn:E; vm_compute in E; [|discriminate..].
      injection E as <- _. congruence. }
    destruct Hr as (Hd & sheet & cell & chunk & al & d & _ & Ho). split; [exact H|]. split; [exact Hd|]. rewrite Ho, lookup_insert_eq. by eexists.
  - split; [reflexivity|]. destruct (directory_refines (ME := null_codec) demo_again "a" 7) as ((f' & H & _ & Ho) & _); [apply alloc_wf_groups; simpl; lia|].
    exists f'. assert (dir_recycled (abs_dir demo_again) !! "a" = Some false) as Hn by (vm_compute; reflexivity).
    unfold opened_by_open in Ho. rewrite decide_True in Ho by exact Hn. unfold dir_open in H. rewrite Hn in H.
    change (Opened demo_again !! "a") with (@None SheetFile) in Ho. destruct Ho as (g & Hg & Ho). exists g. split; [exact H|]. split; [exact Hg|exact Ho].
Defined.

Lemma descriptors_unique_witness :
  ∃ fd f', CreateSheet (ME := null_codec) "a" demo_fm = Some (Ok fd, f')
    ∧ Fds demo_fm !! fd = None ∧ dir_wf (abs_dir f').
Proof.
  destruct (CreateSheet (ME := null_codec) "a" demo_fm) as [[[fd|e] f']|] eqn:E;
    [|vm_compute in E; discriminate..].
  destruct (descriptors_unique (ME := null_codec) demo_fm "a" 7 fd f') as (H1 & _ & H2 & _).
  - apply alloc_wf_groups. simpl. lia.
  - split; [simpl; lia|]. intros x n. unfold abs_dir. simpl. by rewrite lookup_empty.
  - simpl. lia.
  - right. exact E.
  - exists fd, f'. exact (conj eq_refl (conj H1 H2)).
Defined.

