(* ===== verification/MasterReplica.v ===== *)
(** MasterReplica: a secondary master that applies the journal agrees with the
    primary.

    A session is a sequence of client calls on the FileManager of the primary
    (sheetfs/master/filemgr/filemgr.go), which journals its changes; the
    secondary hands each record to HandleMasterEntry.  [agree] relates the two
    directories: the same entries, and for every file chunks and cells with the
    same contents. *)
From Stdlib Require Import ZArith Lia Permutation.
From stdpp Require Import gmap strings list fin_maps.
From S2P Require Import Prelude.
From S2P Require Import DataNodeAlloc.
From S2P Require Import MasterData.
From S2P Require Import SheetFile.
From S2P Require Import SheetFileSpec.
From S2P Require Import SheetFileRefine.
From S2P Require Import JournalEntry.
From S2P Require Import CommonJournal.
From S2P Require Import FileMgr.
From S2P Require Import Replay.
Open Scope Z_scope.

(** ** Client calls *)
Inductive ClientOp :=
| CCreate (name : string)
| COpen (name : string)
| CRecycle (now : Z) (name : string)
| CResume (name : string)
| CReadSheet (fd : Z)
| CReadCell (fd row col : Z)
| CWriteCell (fd row col : Z)
| CList.

Definition client_ok (o : ClientOp) : Prop :=
  match o with CReadCell _ r c | CWriteCell _ r c => is_u32 r ∧ is_u32 c | _ => True end.

Section replica.
Context {db : Type} {DB : MetaDB db} {DL : MetaDBLaws db}.
Context {K : Type} {KO : Kafka K} {KL : KafkaLaws K}.
Context {ME : Codec MasterEntry} {ML : CodecLaws MasterEntry} {RO : RangeOrder}.

Abbreviation FMState := (FileManager db K).
Implicit Types (P R : FMState).

Definition run_client (o : ClientOp) : GoM FMState () :=
  match o with
  | CCreate n => CreateSheet n ≫= λ _, mret ()
  | COpen n => OpenSheet n ≫= λ _, mret ()
  | CRecycle t n => RecycleSheet t n ≫= λ _, mret ()
  | CResume n => ResumeSheet n ≫= λ _, mret ()
  | CReadSheet fd => ReadSheet fd ≫= λ _, mret ()
  | CReadCell fd r c => ReadFileCell fd r c ≫= λ _, mret ()
  | CWriteCell fd r c => WriteFileCell fd r c ≫= λ _, mret ()
  | CList => GetAllSheets ≫= λ _, mret ()
  end.

(** The secondary's loop: it stops at the first record that fails. *)
Fixpoint replay (es : list MasterEntry) : GoM FMState (result MasterError ()) :=
  match es with
  | [] => mret (Ok ())
  | e :: es' =>
      r ← HandleMasterEntry e;
      match r with Err x => mret (Err x) | Ok _ => replay es' end
  end.

(** What the services the session relies on do when they are up. *)
Definition kafka_up : Prop := ∀ (k : K) m, ∃ o k', k_write k m = (Ok o, k').
Definition marshal_up : Prop := ∀ e : MasterEntry, ∃ b, marshal e = Ok b.
Definition tables_up : Prop := ∀ (d : db) name, ∃ d', CreateCellTableIfNotExists d name = Ok d'.

(** ** Agreement *)
Definition files_agree (d : db) (name : string) (fP fR : SheetFile) : Prop :=
  ∃ vP vR, file_rep fP vP ∧ v_inv vP ∧ rows_known d vP ∧ filename fP = name
    ∧ file_rep fR vR ∧ v_inv vR ∧ filename fR = name ∧ file_agrees vP vR.

Record agree P R : Prop := {
  ag_entries : map_Forall2 (λ _, entry_same) (Entries P) (Entries R);
  ag_files : map_Forall2 (files_agree (fm_db P)) (Opened P) (Opened R);
  ag_dom : ∀ name, Entries P !! name = None ↔ Opened P !! name = None;
  ag_names : ∀ name e, Entries P !! name = Some e → FileName e = name;
  ag_fds : ∀ fd name, Fds P !! fd = Some name → is_Some (Opened P !! name);
  ag_alloc : alloc_wf (fm_alloc P);
  ag_fresh : ∀ name, Entries R !! name = None →
    db_find_cells (fm_db R) (GetCellTableName name) = []
}.

(** The records the primary has added to its journal. *)
Definition journaled P P' (es : list MasterEntry) : Prop :=
  ∃ w w' ms, journalWriter P = Some w ∧ journalWriter P' = Some w'
    ∧ w_entriesKey w' = w_entriesKey w ∧ w_checkpointsKey w' = w_checkpointsKey w
    ∧ k_log (fm_kafka P') = k_log (fm_kafka P) ++ ms
    ∧ Forall2 (λ m e, Key m = w_entriesKey w ∧ unmarshal (Value m) = Ok e) ms es.

Lemma journaled_nil P P' w :
  journalWriter P = Some w → journalWriter P' = Some w → fm_kafka P' = fm_kafka P → journaled P P' [].
Proof. intros H1 H2 H3. exists w, w, []. by rewrite H3, app_nil_r. Qed.

Lemma journaled_app P P1 P2 es1 es2 :
  journaled P P1 es1 → journaled P1 P2 es2 → journaled P P2 (es1 ++ es2).
Proof.
  intros (w & w1 & ms & A1 & A2 & A3 & A4 & A5 & A6) (w1' & w2 & ms' & B1 & B2 & B3 & B4 & B5 & B6).
  simplify_eq. exists w, w2, (ms ++ ms'). split_and!; try congruence.
  - by rewrite B5, A5, app_assoc.
  - apply Forall2_app; [done|]. by rewrite <- A3.
Qed.

Lemma writeJournal_up (f : FMState) w e :
  kafka_up → marshal_up → journalWriter f = Some w →
  ∃ w' k', writeJournal e f = Some (Ok (), set_journal f w' k') ∧ journaled f (set_journal f w' k') [e].
Proof.
  intros Hk Hm Hw. unfold writeJournal. rewrite Hw.
  destruct (Hm e) as [b Hb]. rewrite Hb. unfold CommitEntry.
  destruct (WriteMessages w (fm_kafka f) _) as [[err w'] k'] eqn:E.
  assert (err = None) as ->.
  { unfold WriteMessages in E. destruct (Hk (fm_kafka f) (mkMessage (w_entriesKey w) b)) as (o & k2 & E2).
    rewrite E2 in E. by simplify_eq. }
  exists w', k'. split; [done|]. apply WriteMessages_ok in E as (E1 & E2 & E3 & _).
  exists w, w'. eexists. split_and!; try done. constructor; [|constructor]. simpl.
  split; [done|]. by apply unmarshal_marshal.
Qed.

(** ** Changes that keep the agreement *)

(** The primary's database may gain chunk rows. *)
Lemma files_agree_db (d d' : db) name fP fR :
  (∀ k, is_Some (db_first_chunk d k) → is_Some (db_first_chunk d' k)) →
  files_agree d name fP fR → files_agree d' name fP fR.
Proof.
  intros Hd (vP & vR & H1 & H2 & H3 & H4). exists vP, vR. split_and!; try apply H4; try done.
  intros k Hk. by apply Hd, H3.
Qed.

Lemma agree_db P P' R :
  agree P R → Entries P' = Entries P → Opened P' = Opened P → Fds P' = Fds P →
  alloc_wf (fm_alloc P') →
  (∀ k, is_Some (db_first_chunk (fm_db P) k) → is_Some (db_first_chunk (fm_db P') k)) →
  agree P' R.
Proof.
  intros [A1 A2 A3 A4 A5 A6 A7] E1 E2 E3 Ha Hd.
  split; rewrite ?E1, ?E2, ?E3; try done.
  eapply map_Forall2_impl; [exact A2|]. intros name x y. by apply files_agree_db.
Qed.

(** A new descriptor for an opened file. *)
Lemma agree_fd P R fd name n :
  agree P R → is_Some (Opened P !! name) → agree (set_Fds P (<[fd := name]> (Fds P)) n) R.
Proof.
  intros [A1 A2 A3 A4 A5 A6 A7] Ho. split; simpl; try done.
  intros fd' name'. rewrite lookup_insert_Some. intros [[_ <-]|[_ H]]; [done|by eapply A5].
Qed.

(** Directory records. *)
Lemma agree_entry P R e m name :
  agree P R → FileName e = name → is_Some (Entries P !! name) → FromMgrEntry e = XM m →
  ∃ R', handleJournalMapEntry m R = Some ((), R')
    ∧ agree (set_Entries P (<[name := e]> (Entries P))) R'.
Proof.
  intros [A1 A2 A3 A4 A5 A6 A7] Hn [e0 He0] Hm. pose proof Hm as [= Hm'].
  destruct (map_Forall2_lookup_l _ _ _ _ _ A1 He0) as (e1 & He1 & _).
  assert (me_Filename m = name ∧ me_TargetState m = State_PRESENT) as [Hf Ht] by (by subst m).
  unfold handleJournalMapEntry. go_run (eq_refl : go_get R = Some (R, R)). rewrite Hf, He1, Ht.
  eexists. split; [done|]. split; simpl; try done.
  - apply map_Forall2_insert_2; [|done]. symmetry. by eapply entry_round_trip.
  - intros n. rewrite lookup_insert_None, <- A3. split; [by intros [? _]|].
    intros Hx. split; [done|]. intros <-. congruence.
  - intros n x. rewrite lookup_insert_Some. intros [[<- <-]|[_ Hx]]; [done|by apply A4].
  - intros n. rewrite lookup_insert_None. intros [Hx _]. by apply A7.
Qed.

(** The record of a file's cell and chunk, on the secondary. *)
Definition record_of (name : string) (ci : CellInfo) (node : string) (ver : Z) (x : XFileMap) : MasterEntry :=
  mkMasterEntry
    (XC (mkCellEntry State_PRESENT (ci_id ci) (ci_off ci) (ci_size ci) (ci_chunk ci) name))
    (XH (mkChunkEntry State_PRESENT (ci_chunk ci) ver node)) x.

(** The part of [HandleMasterEntry] that concerns an opened file. *)
Lemma handle_record R name e fR vR ci node ver :
  tables_up → Entries R !! name = Some e → Opened R !! name = Some fR → filename fR = name →
  file_rep fR vR → v_inv vR → appliable vR ci →
  ∃ f2 d2, HandleMasterEntry (record_of name ci node ver E3) R
    = Some (Ok (), set_db (set_Opened R (<[name := f2]> (Opened R))) d2)
    ∧ file_rep f2 (v_apply vR ci node ver) ∧ filename f2 = name
    ∧ db_find_cells d2 = db_find_cells (fm_db R).
Proof.
  intros Ht He Ho Hn Rf Hv Hap. destruct (Ht (fm_db R) name) as [d1 Hd1].
  destruct (replay_record_spec (mkWorld fR (fm_alloc R) (fm_db R)) vR ci node ver d1)
    as (f1 & f2 & d2 & E1 & E2 & R2 & N2 & D2); [done..|simpl; by rewrite Hn|].
  simpl in *. rewrite Hn in E2.
  exists f2, d2. split_and!; [|done|congruence|].
  - unfold HandleMasterEntry. simpl. go_run (eq_refl : (mret () : GoM FMState ()) R = Some ((), R)).
    rewrite decide_False by (intros [?|?]; done).
    go_run (eq_refl : go_get R = Some (R, R)). rewrite He, Ho.
    go_run (eq_refl : (mret () : GoM FMState ()) R = Some ((), R)).
    assert (with_file name (on_file (handleChunkEntry (mkChunkEntry State_PRESENT (ci_chunk ci) ver node))) R
      = Some ((), set_Opened R (<[name := f1]> (Opened R)))) as Hw1.
    { unfold with_file. rewrite Ho, E1. by destruct R. }
    go_run Hw1. unfold with_file. simpl. rewrite lookup_insert_eq, E2. simpl.
    by rewrite insert_insert_eq.
  - destruct D2 as [-> | ->]; [done|]. by apply create_table_rows in Hd1 as [_ ->].
Qed.

(** ** One call *)
Definition follows P R (m : GoM FMState ()) : Prop :=
  ∃ P' es R', m P = Some ((), P') ∧ journaled P P' es ∧ replay es R = Some (Ok (), R') ∧ agree P' R'.

(** A call that journals nothing. *)
Lemma follows_silent P R P' w (m : GoM FMState ()) :
  m P = Some ((), P') → journalWriter P = Some w → journalWriter P' = Some w →
  fm_kafka P' = fm_kafka P → agree P' R → follows P R m.
Proof. intros Hm H1 H2 H3 Ha. exists P', [], R. split_and!; try done. by eapply journaled_nil. Qed.

Lemma replay_one (e : MasterEntry) R R' :
  HandleMasterEntry e R = Some (Ok (), R') → replay [e] R = Some (Ok (), R').
Proof. intros E. cbn [replay]. by go_run E. Qed.

(** Recycling and resuming: a new directory entry. *)
Lemma follows_entry P R w name e e' :
  kafka_up → marshal_up → agree P R → journalWriter P = Some w →
  Entries P !! name = Some e → FileName e' = name →
  follows P R
    (r ← writeJournal (mkMasterEntry FromEmptySheetCell FromEmptyChunk (FromMgrEntry e'));
     match r with
     | Err _ => mret ()
     | Ok _ => go_modify (λ f, set_Entries f (<[name := e']> (Entries f)))
     end).
Proof.
  intros Hk Hm A Hw He Hn.
  destruct (writeJournal_up P w (mkMasterEntry FromEmptySheetCell FromEmptyChunk (FromMgrEntry e')) Hk Hm Hw)
    as (w' & k' & E & J).
  assert (agree (set_journal P w' k') R) as A1 by (by apply (agree_db P); try done; apply A).
  destruct (FromMgrEntry e') as [|m] eqn:Em; [done|].
  destruct (agree_entry (set_journal P w' k') R e' m name A1 Hn) as (R' & ER & A2);
    [by eexists|done|].
  eexists _, _, R'. split; [by go_run E|]. split; [|split; [|exact A2]]. 
  - destruct J as (v & v' & ms & J). exists v, v', ms. exact J.
  - apply replay_one. unfold HandleMasterEntry. simpl. by go_run ER.
Qed.

Lemma follows_ext P R (m m' : GoM FMState ()) : m P = m' P → follows P R m' → follows P R m.
Proof. intros E (P' & es & R' & H). exists P', es, R'. by rewrite E. Qed.

Lemma follows_recycle P R w t name :
  kafka_up → marshal_up → agree P R → journalWriter P = Some w → follows P R (run_client (CRecycle t name)).
Proof.
  intros Hk Hm A Hw. destruct (Entries P !! name) as [e|] eqn:He.
  - eapply follows_ext; [|eapply (follows_entry P R w name e
      (mkMapEntry (Entry_ID e) (FileName e) (CellsTableName e) true t) Hk Hm A Hw He); simpl; by eapply ag_names].
    simpl. unfold RecycleSheet, mbind, GoM_bind, go_get. rewrite He.
    by destruct (writeJournal _ P) as [[[] ?]|].
  - eapply (follows_silent P R P); try done. simpl.
    unfold RecycleSheet, mbind, GoM_bind, go_get. by rewrite He.
Qed.

Lemma follows_resume P R w name :
  kafka_up → marshal_up → agree P R → journalWriter P = Some w → follows P R (run_client (CResume name)).
Proof.
  intros Hk Hm A Hw. destruct (Entries P !! name) as [e|] eqn:He.
  - eapply follows_ext; [|eapply (follows_entry P R w name e
      (mkMapEntry (Entry_ID e) (FileName e) (CellsTableName e) false (RecycledAt e)) Hk Hm A Hw He);
      simpl; by eapply ag_names].
    simpl. unfold ResumeSheet, mbind, GoM_bind, go_get. rewrite He.
    by destruct (writeJournal _ P) as [[[] ?]|].
  - eapply (follows_silent P R P); try done. simpl.
    unfold ResumeSheet, mbind, GoM_bind, go_get. by rewrite He.
Qed.

Lemma follows_open P R w name :
  agree P R → journalWriter P = Some w → follows P R (run_client (COpen name)).
Proof.
  intros A Hw. simpl. unfold OpenSheet, openFile.
  destruct (Entries P !! name) as [e|] eqn:He.
  - destruct (Opened P !! name) as [file|] eqn:Ho;
      [|apply (ag_dom _ _ A) in Ho; congruence].
    destruct (Recycled e) eqn:Hr.
    + eapply (follows_silent P R P); try done. unfold mbind, GoM_bind, go_get. by rewrite He, Hr.
    + eapply (follows_silent P R (set_Fds P (<[nextFd P := name]> (Fds P)) (u64 (nextFd P + 1)))); try done.
      * unfold mbind, GoM_bind, go_get. by rewrite He, Hr, Ho.
      * apply agree_fd; [done|by eexists].
  - eapply (follows_silent P R P); try done. unfold mbind, GoM_bind, go_get. by rewrite He.
Qed.

(** Reads: the primary's store changes, its value does not. *)
Lemma follows_file P R w name fP f' :
  agree P R → journalWriter P = Some w → Opened P !! name = Some fP →
  (∀ v, file_rep fP v → v_inv v → file_rep f' v) → filename f' = filename fP →
  agree (set_Opened P (<[name := f']> (Opened P))) R.
Proof.
  intros [A1 A2 A3 A4 A5 A6 A7] Hw Ho Hrep Hn. split; simpl; try done.
  - destruct (map_Forall2_lookup_l _ _ _ _ _ A2 Ho) as (fR & HR & vP & vR & H1 & H2 & H3 & H4 & H5).
    rewrite <- (insert_id (Opened R) name fR HR). apply map_Forall2_insert_2; [|done].
    exists vP, vR. split_and!; try apply H5; try done; [by apply Hrep|congruence].
  - intros n. rewrite A3, lookup_insert_None. split; [|by intros [? _]].
    intros Hx. split; [done|]. intros <-. congruence.
  - intros fd n Hfd. rewrite lookup_insert_is_Some'. right. by eapply A5.
Qed.

Lemma opened_spec P R name fP :
  agree P R → Opened P !! name = Some fP →
  ∃ vP, file_rep fP vP ∧ v_inv vP ∧ rows_known (fm_db P) vP ∧ filename fP = name.
Proof.
  intros A Ho. destruct (map_Forall2_lookup_l _ _ _ _ _ (ag_files _ _ A) Ho)
    as (fR & HR & vP & vR & H1 & H2 & H3 & H4 & _). by exists vP.
Qed.

Lemma getFileByFd_eq P fd :
  getFileByFd fd P = Some (match Fds P !! fd with Some n => Ok n | None => Err (FdNotFoundError fd) end, P).
Proof. unfold getFileByFd, mbind, GoM_bind, go_get. by destruct (Fds P !! fd). Qed.

(** Running a read method of an opened file. *)
Lemma with_file_read {A} P name fP (m : FileM A) a f' :
  Opened P !! name = Some fP → m fP = Some (a, f') →
  with_file name (on_file m) P = Some (a, set_Opened P (<[name := f']> (Opened P))).
Proof.
  intros Ho Hm. unfold with_file. rewrite Ho, (on_file_eq m (mkWorld fP _ _) a f' Hm). by destruct P.
Qed.

Lemma follows_read_sheet P R w fd :
  agree P R → journalWriter P = Some w → follows P R (run_client (CReadSheet fd)).
Proof.
  intros A Hw. destruct (Fds P !! fd) as [name|] eqn:Hfd.
  - destruct (ag_fds _ _ A fd name Hfd) as [fP Ho].
    destruct (opened_spec P R name fP A Ho) as (vP & Rf & Hv & _ & Hn).
    destruct (GetAllChunks_spec fP vP Rf) as (cs & f' & vs & E & Rf' & V & _).
    eapply (follows_silent P R (set_Opened P (<[name := f']> (Opened P)))); try done.
    + simpl. unfold ReadSheet, mbind, GoM_bind. rewrite getFileByFd_eq, Hfd.
      by rewrite (with_file_read P name fP _ _ _ Ho E).
    + eapply follows_file; try done; [|apply (sv_name _ _ V)].
      intros v Hr _. eapply same_view_rep; [exact V|apply Rf'|done].
  - eapply (follows_silent P R P); try done. simpl.
    unfold ReadSheet, mbind, GoM_bind. by rewrite getFileByFd_eq, Hfd.
Qed.

Lemma follows_read_cell P R w fd r c :
  agree P R → journalWriter P = Some w → follows P R (run_client (CReadCell fd r c)).
Proof.
  intros A Hw. destruct (Fds P !! fd) as [name|] eqn:Hfd.
  - destruct (ag_fds _ _ A fd name Hfd) as [fP Ho].
    destruct (opened_spec P R name fP A Ho) as (vP & Rf & Hv & _ & Hn).
    destruct (GetCellChunk_spec fP vP r c Rf Hv) as (x & f' & E & Rf' & V & _).
    eapply (follows_silent P R (set_Opened P (<[name := f']> (Opened P)))); try done.
    + simpl. unfold ReadFileCell, mbind, GoM_bind. rewrite getFileByFd_eq, Hfd.
      by rewrite (with_file_read P name fP _ _ _ Ho E).
    + eapply follows_file; try done; [|apply (sv_name _ _ V)].
      intros v Hr _. eapply same_view_rep; [exact V|apply Rf'|done].
  - eapply (follows_silent P R P); try done. simpl.
    unfold ReadFileCell, mbind, GoM_bind. by rewrite getFileByFd_eq, Hfd.
Qed.


(** Replacing one file on both sides. *)
Lemma agree_files P R P' name fP' fR' d2 :
  agree P R → is_Some (Opened P !! name) →
  Entries P' = Entries P → Opened P' = <[name := fP']> (Opened P) → Fds P' = Fds P →
  alloc_wf (fm_alloc P') → rows_grow (fm_db P) (fm_db P') →
  files_agree (fm_db P') name fP' fR' →
  db_find_cells d2 = db_find_cells (fm_db R) →
  agree P' (set_db (set_Opened R (<[name := fR']> (Opened R))) d2).
Proof.
  intros [A1 A2 A3 A4 A5 A6 A7] Ho E1 E2 E3 Ha Hg Hf Hd. split; simpl; rewrite ?E1, ?E2, ?E3; try done.
  - apply map_Forall2_insert_2; [done|]. eapply map_Forall2_impl; [exact A2|].
    intros n x y. by apply files_agree_db.
  - intros n. rewrite A3, lookup_insert_None. split; [|by intros [? _]].
    intros Hx. split; [done|]. intros <-. by destruct Ho; congruence.
  - intros fd n Hfd. rewrite lookup_insert_is_Some'. right. by eapply A5.
  - intros n Hn. rewrite Hd. by apply A7.
Qed.

Lemma record_of_answer f cell chunk name k ci vc x :
  info cell = ci → SheetName cell = name → shows f chunk k vc → ci_chunk ci = k →
  mkMasterEntry (FromSheetCell cell) (FromSheetChunk chunk) x
  = record_of name ci (vc_node vc) (vc_version vc) x.
Proof.
  intros <- <- (H1 & H2 & H3 & _) Hk. unfold record_of, FromSheetChunk. rewrite H1, H2, H3, <- Hk. done.
Qed.

Lemma v_write_None v id node k v' : v_write v id node k = (v', None) → v' = v.
Proof.
  unfold v_write. destruct (v_get v id) as [[? ?]|]; [done|].
  destruct (v_available v _) as [[? ?]|]; [done|]. destruct node; by intros [= ->].
Qed.

Lemma agree_entry_R P R name fP :
  agree P R → Opened P !! name = Some fP → ∃ e, Entries R !! name = Some e.
Proof.
  intros A Ho. destruct (Entries P !! name) as [e|] eqn:He.
  - destruct (map_Forall2_lookup_l _ _ _ _ _ (ag_entries _ _ A) He) as (e' & He' & _). by exists e'.
  - apply (ag_dom _ _ A) in He. congruence.
Qed.

(** The state of the primary after the file part of a write. *)
Definition after_write P (name : string) (wd : World db) : FMState :=
  mkFM (Entries P) (<[name := w_file wd]> (Opened P)) (Fds P) (nextFd P)
    (w_db wd) (w_alloc wd) (journalWriter P) (fm_kafka P).

(** A write that was accepted, and its record on the secondary. *)
Lemma follows_record P R w name fP fR vP' vR wd' cell chunk ci vc :
  kafka_up → marshal_up → tables_up → agree P R → journalWriter P = Some w →
  Opened P !! name = Some fP → Opened R !! name = Some fR → filename fR = name →
  file_rep fR vR → v_inv vR → appliable vR ci →
  world_rep wd' vP' → filename (w_file wd') = name → rows_grow (fm_db P) (w_db wd') →
  file_agrees vP' (v_apply vR ci (vc_node vc) (vc_version vc)) →
  info cell = ci → SheetName cell = name → shows (w_file wd') chunk (ci_chunk ci) vc →
  ∃ P' R',
    writeJournal (mkMasterEntry (FromSheetCell cell) (FromSheetChunk chunk) FromEmptyMgrEntry)
      (after_write P name wd') = Some (Ok (), P')
    ∧ journaled P P' [record_of name ci (vc_node vc) (vc_version vc) E3]
    ∧ HandleMasterEntry (record_of name ci (vc_node vc) (vc_version vc) E3) R = Some (Ok (), R')
    ∧ agree P' R'.
Proof.
  intros Hk Hm Ht A Hw Ho HoR HnR RR HvR Hap [Rf' Hv' Ha' Hrows'] Hn' Hg Hag' Hi Hs Hsh.
  rewrite (record_of_answer _ _ _ _ _ _ _ _ Hi Hs Hsh eq_refl).
  destruct (writeJournal_up (after_write P name wd') w (record_of name ci (vc_node vc) (vc_version vc) E3)
              Hk Hm Hw) as (w' & kk & Ej & J).
  destruct (agree_entry_R P R name fP A Ho) as [e He].
  destruct (handle_record R name e fR vR ci (vc_node vc) (vc_version vc) Ht He HoR HnR RR HvR Hap)
    as (f2 & d2 & Eh & R2 & N2 & D2).
  eexists _, _. split_and!; [exact Ej|exact J|exact Eh|].
  apply (agree_files P R _ name (w_file wd') f2 d2 A); [by eexists|done..| |done].
  exists vP', (v_apply vR ci (vc_node vc) (vc_version vc)). split_and!; try done.
  eapply v_inv_agrees; [exact Hag'|done|]. simpl. intros k Hk'. apply lookup_insert_is_Some'.
  right. by apply (inv_last _ HvR).
Qed.

Lemma follows_write P R w fd r c :
  kafka_up → marshal_up → tables_up → agree P R → journalWriter P = Some w → is_u32 r → is_u32 c →
  follows P R (run_client (CWriteCell fd r c)).
Proof.
  intros Hk Hm Ht A Hw Hr Hc. destruct (Fds P !! fd) as [name|] eqn:Hfd; last first.
  { eapply (follows_silent P R P); try done. simpl.
    unfold WriteFileCell, mbind, GoM_bind. by rewrite getFileByFd_eq, Hfd. }
  destruct (ag_fds _ _ A fd name Hfd) as [fP Ho].
  destruct (map_Forall2_lookup_l _ _ _ _ _ (ag_files _ _ A) Ho)
    as (fR & HoR & vP & vR & Rf & Hv & Hrows & Hn & RR & HvR & HnR & Hag).
  set (wd := mkWorld fP (fm_alloc P) (fm_db P)).
  assert (world_rep wd vP) as Hwd by (split; try done; apply A).
  destruct (WriteCellChunk_spec wd vP r c Hwd Hr Hc) as (x & wd' & E & Rw & An & _ & Hn' & Hg & _).
  assert (with_file name (WriteCellChunk r c) P = Some (x, after_write P name wd')) as Hwf.
  { unfold with_file. rewrite Ho. fold wd. by rewrite E. }
  pose proof (next_chunk_id_fresh _ _ (next_node (fm_alloc P)) Hrows) as Hfresh.
  simpl in Hn', Hg, An, Rw. rewrite Hn in Hn'.
  destruct (v_write vP _ _ _) as [vP' a] eqn:Ev. simpl in *. destruct a as [[k' ci]|].
  - destruct An as (cell & chunk & vc & -> & Hi & Hname & Hvc & S).
    destruct (v_apply_write vP vR _ _ _ _ _ _ _ Hag Hv Hfresh Ev Hvc) as (Hag' & Hap & Hck).
    rewrite <- Hck in S. rewrite Hn' in Hname.
    destruct (follows_record P R w name fP fR vP' vR wd' cell chunk ci vc) as (P' & R' & E1 & E2 & E3 & E4);
      try done.
    eexists P', _, R'. split_and!; [|exact E2|by apply replay_one|done].
    unfold WriteFileCell, mbind, GoM_bind. rewrite getFileByFd_eq, Hfd, Hwf. by rewrite E1.
  - simpl in An. subst x. apply v_write_None in Ev as ->.
    eapply (follows_silent P R (after_write P name wd')); try done.
    + unfold WriteFileCell, mbind, GoM_bind. by rewrite getFileByFd_eq, Hfd, Hwf.
    + assert (R = set_db (set_Opened R (<[name := fR]> (Opened R))) (fm_db R)) as ->.
      { unfold set_db, set_Opened. rewrite insert_id by done. by destruct R. }
      destruct Rw as [Rf' Hv' Ha' Hrows'].
      apply (agree_files P R _ name (w_file wd') fR _ A); [by eexists|done..| |done].
      by exists vP, vR.
Qed.

(** ** Creation *)
Lemma empty_file_rep name : file_rep (empty_file name) (mkVFile ∅ ∅ None).
Proof.
  split; simpl; [|apply map_Forall2_empty..|done].
  split; simpl; [lia|intros ? ?; by rewrite lookup_empty..].
Qed.

Lemma empty_file_inv : v_inv (mkVFile ∅ ∅ None).
Proof. split; [apply map_Forall_empty..|done]. Qed.

Lemma LoadSheetFile_empty (d : db) name :
  db_find_cells d (GetCellTableName name) = [] → LoadSheetFile d name = Some (empty_file name).
Proof. intros E. unfold LoadSheetFile, GetSheetCellsAll. by rewrite E. Qed.

(** The phases of [HandleMasterEntry]. *)
Lemma handle_map_phase R R1 name ci node ver m :
  handleJournalMapEntry m R = Some ((), R1) →
  HandleMasterEntry (record_of name ci node ver (XM m)) R
  = HandleMasterEntry (record_of name ci node ver E3) R1.
Proof. intros E. unfold HandleMasterEntry. simpl. by go_run E. Qed.

Lemma handle_load_phase R name e file ci node ver :
  Entries R !! name = Some e → Opened R !! name = None → LoadSheetFile (fm_db R) name = Some file →
  HandleMasterEntry (record_of name ci node ver E3) R
  = HandleMasterEntry (record_of name ci node ver E3) (set_Opened R (<[name := file]> (Opened R))).
Proof.
  intros He Ho Hl. unfold HandleMasterEntry. simpl. unfold mbind, GoM_bind, mret, GoM_ret.
  destruct (decide _) as [D|D]; [by destruct D|]. unfold go_get. simpl. rewrite He, Ho, Hl. simpl.
  rewrite lookup_insert_eq. done.
Qed.

(** The secondary after the record of a creation. *)
Lemma handle_creation R name n k m e :
  tables_up → Entries R !! name = None → Opened R !! name = None →
  db_find_cells (fm_db R) (GetCellTableName name) = [] →
  FromMgrEntry e = XM m → FileName e = name →
  let ci := mkInfo SheetMetaCellID 0 BytesPerChunk k in
  ∃ f2 d2 e2, HandleMasterEntry (record_of name ci n 0 (XM m)) R
    = Some (Ok (), set_db (set_Opened (set_Entries R (<[name := e2]> (Entries R)))
                             (<[name := f2]> (Opened R))) d2)
    ∧ entry_same e e2 ∧ file_rep f2 (v_apply (mkVFile ∅ ∅ None) ci n 0) ∧ filename f2 = name
    ∧ db_find_cells d2 = db_find_cells (fm_db R).
Proof.
  intros Ht He Ho Hc Hm Hn ci. pose proof Hm as [= Hm'].
  set (e2 := ToMgrEntry (mkMapEntry 0 "" "" false zero_time) m).
  set (R1 := set_Entries R (<[name := e2]> (Entries R))).
  assert (handleJournalMapEntry m R = Some ((), R1)) as E1.
  { unfold handleJournalMapEntry. go_run (eq_refl : go_get R = Some (R, R)).
    replace (me_Filename m) with name by (by subst m). rewrite He.
    replace (me_TargetState m) with State_PRESENT by (by subst m). done. }
  rewrite (handle_map_phase R R1 name ci n 0 m E1).
  rewrite (handle_load_phase R1 name e2 (empty_file name)); [|apply lookup_insert_eq|done|].
  2:{ by apply LoadSheetFile_empty. }
  destruct (handle_record (set_Opened R1 (<[name := empty_file name]> (Opened R1))) name e2
    (empty_file name) (mkVFile ∅ ∅ None) ci n 0) as (f2 & d2 & E2 & R2 & N2 & D2);
    [done|apply lookup_insert_eq|apply lookup_insert_eq|done|apply empty_file_rep
    |apply empty_file_inv|by left|].
  exists f2, d2, e2. split_and!; [|symmetry; by eapply entry_round_trip|done|done|exact D2].
  rewrite E2. unfold set_db, set_Opened. simpl. by rewrite insert_insert_eq.
Qed.

(** A file that both sides have just got. *)
Lemma agree_new P R P' name eP eR fP fR d2 fd :
  agree P R → Entries P !! name = None → FileName eP = name → entry_same eP eR →
  Entries P' = <[name := eP]> (Entries P) → Opened P' = <[name := fP]> (Opened P) →
  Fds P' = <[fd := name]> (Fds P) → alloc_wf (fm_alloc P') → rows_grow (fm_db P) (fm_db P') →
  files_agree (fm_db P') name fP fR → db_find_cells d2 = db_find_cells (fm_db R) →
  agree P' (set_db (set_Opened (set_Entries R (<[name := eR]> (Entries R)))
                      (<[name := fR]> (Opened R))) d2).
Proof.
  intros [A1 A2 A3 A4 A5 A6 A7] Hn Hf Hs E1 E2 E3 Ha Hg Hag Hd.
  split; simpl; rewrite ?E1, ?E2, ?E3; try done.
  - by apply map_Forall2_insert_2.
  - apply map_Forall2_insert_2; [done|]. eapply map_Forall2_impl; [exact A2|].
    intros n x y. by apply files_agree_db.
  - intros n. by rewrite !lookup_insert_None, A3.
  - intros n x. rewrite lookup_insert_Some. intros [[<- <-]|[_ Hx]]; [done|by apply A4].
  - intros fd' n. rewrite lookup_insert_Some, lookup_insert_is_Some'.
    intros [[_ <-]|[_ Hx]]; [by left|right; by eapply A5].
  - intros n. rewrite lookup_insert_None, Hd. intros [Hx _]. by apply A7.
Qed.

Lemma follows_create P R w name :
  kafka_up → marshal_up → tables_up → agree P R → journalWriter P = Some w →
  follows P R (run_client (CCreate name)).
Proof.
  intros Hk Hm Ht A Hw. destruct (Entries P !! name) as [e0|] eqn:He.
  { eapply (follows_silent P R P); try done. simpl. unfold CreateSheet, mbind, GoM_bind, go_get.
    by rewrite He. }
  destruct (Ht (fm_db P) name) as [d1 Hd1]. pose proof (create_table_rows _ _ _ Hd1) as [Hrow1 _].
  destruct (CreateSheetFile_spec (fm_db P) d1 (fm_alloc P) name (ag_alloc _ _ A) Hd1)
    as (al' & d2 & [Ha' _] & Hcase).
  destruct (next_node (fm_alloc P)) as [n|].
  - destruct Hcase as (cell & chunk & Ec & Hrk & Hg & -> & Hsh).
    set (k := next_chunk_id d1 (Some n)) in *.
    set (P1 := set_alloc (set_db P d2) al').
    set (e := mkMapEntry 0 name (GetCellTableName name) false zero_time).
    destruct (FromMgrEntry e) as [|m] eqn:Em; [done|].
    set (ci := mkInfo SheetMetaCellID 0 BytesPerChunk k).
    assert (mkMasterEntry (FromSheetCell (NewCell SheetMetaCellID 0 BytesPerChunk k name))
      (FromSheetChunk chunk) (XM m) = record_of name ci n 0 (XM m)) as Erec.
    { by apply (record_of_answer (created_file name n k) _ chunk name k ci (mkVChunk n 0 [ci])). }
    destruct (writeJournal_up P1 w (record_of name ci n 0 (XM m)) Hk Hm Hw) as (w' & kk & Ej & J).
    pose proof (map_Forall2_lookup_None _ _ _ name (ag_entries _ _ A)) as HE.
    pose proof (map_Forall2_lookup_None _ _ _ name (ag_files _ _ A)) as HO.
    destruct (handle_creation R name n k m e Ht) as (f2 & dR & e2 & Eh & Hs & R2 & N2 & D2);
      [by apply HE|by apply HO, (ag_dom _ _ A)|by apply (ag_fresh _ _ A), HE|done|done|].
    eexists _, [record_of name ci n 0 (XM m)], _. split; [|split; [|split; [exact (replay_one _ _ _ Eh)|]]].
    + simpl. unfold CreateSheet, mbind, GoM_bind, go_get. rewrite He, Ec. simpl. fold P1 e.
      rewrite Em, Erec, Ej. reflexivity.
    + destruct J as (v & v' & ms & J). exists v, v', ms. exact J.
    + eapply (agree_new P R _ name e e2 (created_file name n k) f2 dR); try done.
      * intros j Hj. apply Hg. by rewrite Hrow1.
      * exists (v_create n k), (v_apply (mkVFile ∅ ∅ None) ci n 0). split_and!; try done.
        -- apply created_file_rep.
        -- apply v_create_inv.
        -- eapply v_inv_agrees; [apply v_apply_create|apply v_create_inv|done].
        -- apply v_apply_create.
  - eapply (follows_silent P R (set_alloc (set_db P d1) al')); try done.
    + simpl. unfold CreateSheet, mbind, GoM_bind, go_get. by rewrite He, Hcase.
    + eapply (agree_db P); try done. simpl. by rewrite Hrow1.
Qed.

(** ** Sessions *)
Definition run_session (ops : list ClientOp) : GoM FMState () := go_for ops run_client.

Lemma journaled_writer P P' es : journaled P P' es → ∃ w, journalWriter P' = Some w.
Proof. intros (w & w' & ms & _ & H & _). by exists w'. Qed.

Lemma replay_app R es1 es2 R1 :
  replay es1 R = Some (Ok (), R1) → replay (es1 ++ es2) R = replay es2 R1.
Proof.
  revert R. induction es1 as [|e es IH]; intros R Hr; [by injection Hr as ->|].
  simpl in *. unfold mbind, GoM_bind in *. destruct (HandleMasterEntry e R) as [[[] R2]|]; [|done..].
  by apply IH.
Qed.

Lemma follows_client P R w o :
  kafka_up → marshal_up → tables_up → agree P R → journalWriter P = Some w → client_ok o →
  follows P R (run_client o).
Proof.
  intros Hk Hm Ht A Hw Ho. destruct o; simpl in Ho.
  - by eapply follows_create.
  - by eapply follows_open.
  - by eapply follows_recycle.
  - by eapply follows_resume.
  - by eapply follows_read_sheet.
  - by eapply follows_read_cell.
  - destruct Ho. by eapply follows_write.
  - by eapply (follows_silent P R P).
Qed.

Lemma follows_session ops P R w :
  kafka_up → marshal_up → tables_up → agree P R → journalWriter P = Some w → Forall client_ok ops →
  follows P R (run_session ops).
Proof.
  intros Hk Hm Ht A Hw Ho. revert P R w A Hw. induction Ho as [|o ops Ho _ IH]; intros P R w A Hw.
  { by eapply (follows_silent P R P). }
  destruct (follows_client P R w o Hk Hm Ht A Hw Ho) as (P1 & es1 & R1 & E1 & J1 & Q1 & A1).
  destruct (journaled_writer _ _ _ J1) as [w1 Hw1].
  destruct (IH P1 R1 w1 A1 Hw1) as (P2 & es2 & R2 & E2 & J2 & Q2 & A2).
  exists P2, (es1 ++ es2), R2. split_and!; [|by eapply journaled_app| |done].
  - unfold run_session. cbn [go_for]. go_run E1. exact E2.
  - by rewrite (replay_app R es1 es2 R1 Q1).
Qed.

(** ** What clients see *)
Definition dir_view P (name : string) : option bool := Recycled <$> Entries P !! name.

Definition cell_view P (name : string) (row col : Z) : option (CellInfo * Z * string * Z) :=
  file ← Opened P !! name;
  match GetCellChunk row col file with
  | Some (Ok (c, ch), _) => Some (info c, Chunk_ID ch, DataNode ch, Version ch)
  | _ => None
  end.

Lemma v_get_agrees a b id :
  file_agrees a b →
  match v_get a id, v_get b id with
  | Some (c1, x1), Some (c2, x2) => c1 = c2 ∧ vc_node x1 = vc_node x2 ∧ vc_version x1 = vc_version x2
  | None, None => True
  | _, _ => False
  end.
Proof.
  intros [Hc Hm]. unfold v_get. rewrite <- Hc. destruct (v_cells a !! id) as [ci|]; [|done]. simpl.
  specialize (Hm (ci_chunk ci)).
  destruct (v_chunks a !! ci_chunk ci), (v_chunks b !! ci_chunk ci); inversion Hm as [? ? Hag|]; simpl; try done.
  destruct Hag as (? & ? & _). done.
Qed.

Lemma file_view_spec f v row col :
  file_rep f v → v_inv v →
  match GetCellChunk row col f with
  | Some (Ok (c, ch), _) => Some (info c, Chunk_ID ch, DataNode ch, Version ch)
  | _ => None
  end = '(ci, vc) ← v_get v (GetCellID row col); Some (ci, ci_chunk ci, vc_node vc, vc_version vc).
Proof.
  intros R Hv. destruct (GetCellChunk_spec f v row col R Hv) as (r & f' & -> & _ & _ & An).
  destruct (v_get v _) as [[ci vc]|]; [|by rewrite An].
  destruct An as (c & ch & -> & -> & _ & (-> & -> & -> & _)). done.
Qed.

Lemma agree_views P R name :
  agree P R → dir_view P name = dir_view R name ∧ ∀ row col, cell_view P name row col = cell_view R name row col.
Proof.
  intros A. split.
  - unfold dir_view. pose proof (ag_entries _ _ A name) as He.
    destruct (Entries P !! name), (Entries R !! name); inversion He as [? ? (_ & _ & Hr & _)|]; simpl; congruence.
  - intros row col. unfold cell_view. pose proof (ag_files _ _ A name) as Hf.
    destruct (Opened P !! name) as [fP|], (Opened R !! name) as [fR|]; inversion Hf as [? ? Hx|]; [|done].
    destruct Hx as (vP & vR & R1 & V1 & _ & _ & R2 & V2 & _ & Hag). simpl.
    rewrite (file_view_spec fP vP row col R1 V1), (file_view_spec fR vR row col R2 V2).
    pose proof (v_get_agrees vP vR (GetCellID row col) Hag) as Hg.
    destruct (v_get vP _) as [[? ?]|], (v_get vR _) as [[? ?]|]; try done. simpl.
    by destruct Hg as (-> & -> & ->).
Qed.

Lemma agree_initial (dP dR : db) alP alR wP wR (kP kR : K) :
  db_find_entries dP = [] → db_find_entries dR = [] →
  (∀ name, db_find_cells dR (GetCellTableName name) = []) → alloc_wf alP →
  agree (LoadFileManager dP alP wP kP) (LoadFileManager dR alR wR kR).
Proof.
  intros E1 E2 E3 Ha. unfold LoadFileManager. rewrite E1, E2. simpl.
  split; simpl; try done; try apply map_Forall2_empty; by intros.
Qed.

End replica.

(** ** Concrete instances *)
#[export] Program Instance MasterEntry_countable : Countable MasterEntry :=
  inj_countable'
    (λ e, (match x_Cell e with
           | E1 => None
           | XC c => Some (bool_decide (ce_TargetState c = State_PRESENT), CellId c, ce_Offset c,
                           ce_Size c, ce_ChunkId c, ce_SheetName c)
           end,
           match x_Chunk e with
           | E2 => None
           | XH c => Some (bool_decide (he_TargetState c = State_PRESENT), he_Id c, he_Version c,
                           he_Datanode c)
           end,
           match x_FileMap e with
           | E3 => None
           | XM m => Some (bool_decide (me_TargetState m = State_PRESENT), me_Filename m,
                           me_CellsTableName m, me_Recycled m, me_RecycledTimestamp m)
           end))
    (λ p : (option (bool * Z * Z * Z * Z * string) * option (bool * Z * Z * string)
            * option (bool * string * string * bool * Z))%type,
       let st (b : bool) := if b then State_PRESENT else State_ABSENT in
       let '(a, b, c) := p in
       mkMasterEntry
         (match a with None => E1 | Some (s, i, o, z, k, n) => XC (mkCellEntry (st s) i o z k n) end)
         (match b with None => E2 | Some (s, i, v, d) => XH (mkChunkEntry (st s) i v d) end)
         (match c with None => E3 | Some (s, f, t, r, z) => XM (mkFileMapEntry (st s) f t r z) end)) _.
Next Obligation.
  intros [[|[[] ? ? ? ? ?]] [|[[] ? ? ?]] [|[[] ? ? ? ?]]]; reflexivity.
Qed.

(** A topic without faults. *)
Record UpTopic := mkUpTopic { up_log : list Message }.

#[export] Instance UpTopic_kafka : Kafka UpTopic := {|
  k_log := up_log;
  k_write k m := (Ok (Z.of_nat (length (up_log k))), mkUpTopic (up_log k ++ [m]))
|}.

#[export] Instance UpTopic_laws : KafkaLaws UpTopic.
Proof. split; simpl; intros k m x k' E; by simplify_eq. Qed.

Lemma MemDB_tables_up : tables_up (db := MemDB).
Proof.
  intros d name. unfold CreateCellTableIfNotExists. simpl. case_bool_decide; by eexists.
Qed.

Definition entry_codec : Codec MasterEntry := bit_codec MasterEntry.

Definition demo_ops : list ClientOp :=
  [CCreate "a"; CWriteCell 0 0 0; CWriteCell 0 0 1; CRecycle 5 "a"; COpen "a"; CReadSheet 0].

Definition demo_primary : FileManager MemDB UpTopic :=
  LoadFileManager mem_empty (NewDataNodeAllocatorWithGroups ["g1"; "g2"])
    (Some (mkWriter 0 "t-entries" "t-ckpts")) (mkUpTopic []).

Definition demo_secondary : FileManager MemDB UpTopic :=
  LoadFileManager mem_empty (NewDataNodeAllocatorWithGroups ["g1"; "g2"]) None (mkUpTopic []).


(** ** After a failover *)

(** The record of creating sheet "a" on a primary with one data node. *)
Definition creation_record : MasterEntry :=
  record_of "a" (mkInfo SheetMetaCellID 0 BytesPerChunk 1) "g1" 0
    (FromMgrEntry (mkMapEntry 0 "a" "cells_a" false zero_time)).

(** The secondary applies the record, takes over, and serves one write. *)
Definition takeover_write : option (result MasterError (Cell * Chunk) * FileManager MemDB UpTopic) :=
  ((r ← HandleMasterEntry creation_record;
    r ← OpenSheet "a";
    match r with
    | Err e => mret (Err e)
    | Ok fd => WriteFileCell (ME := entry_codec) fd 0 0
    end) : GoM (FileManager MemDB UpTopic) (result MasterError (Cell * Chunk))) demo_secondary.

(** Chunk identifiers collide after a failover: they are handed out by the
    database of each master, which learns of the chunks of the journal only at a
    checkpoint.  A secondary that has applied the creation of a sheet and then
    takes over gives the first new cell the identifier of the chunk that holds
    the sheet's MetaCell, at the same offset, and forgets that chunk. *)
Theorem failover_chunk_collision :
  ∃ cell chunk R meta,
    takeover_write = Some (Ok (cell, chunk), R)
    ∧ cell_view R "a" SheetMetaCellRow SheetMetaCellCol = Some (meta, 1, "g1", 1)
    ∧ ci_chunk meta = ChunkID cell ∧ ci_off meta = Offset cell
    ∧ 0 < Size cell ∧ ci_id meta ≠ CellID cell.
Proof.
  destruct takeover_write as [[[[cell chunk]|e] R]|] eqn:E; [|vm_compute in E; discriminate..].
  exists cell, chunk, R, (mkInfo SheetMetaCellID 0 BytesPerChunk 1). split; [done|].
  vm_compute in E. injection E as <- <- <-. split_and!; reflexivity || discriminate.
Qed.
