(* ===== verification/MasterServer.v ===== *)
(** MasterServer: the RPC handlers of the master.

    Source: sheetfs/master/server/server.go.  A handler is one call of the
    FileManager and the construction of the reply; a logged error is turned into
    a status by [defaultErrorHandler].  The replies are the messages of
    protocol.proto; fields that a reply leaves unset have their zero value. *)
From Stdlib Require Import ZArith Lia.
From stdpp Require Import gmap strings list fin_maps.
From S2P Require Import Prelude.
From S2P Require Import DataNode.
From S2P Require Import DataNodeAlloc.
From S2P Require Import MasterData.
From S2P Require Import SheetFile.
From S2P Require Import SheetFileSpec.
From S2P Require Import SheetFileRefine.
From S2P Require Import JournalEntry.
From S2P Require Import CommonJournal.
From S2P Require Import FileMgr.
Open Scope Z_scope.

(** ** Messages *)
Record PbChunk := mkPbChunk { pb_Id : Z; pb_Datanode : string; pb_Version : Z; pb_HoldsMeta : bool }.
Record PbCell := mkPbCell { pc_Chunk : PbChunk; pc_Offset : Z; pc_Size : Z }.
Record FdReply := mkFdReply { fr_Status : Status; fr_Fd : Z }.
Record CellReply := mkCellReply { cr_Status : Status; cr_Cell : option PbCell }.
Record ReadSheetReply := mkReadSheetReply { rs_Status : Status; rs_Chunks : list PbChunk }.
Record ListSheetsReply := mkListSheetsReply { ls_Status : Status; ls_Sheets : list (string * bool) }.

Definition defaultErrorHandler (err : MasterError) : Status :=
  match err with
  | FileExistsError _ => Status_Exist
  | CellNotFoundError _ _ => Status_Invalid
  | FileNotFoundError _ => Status_NotFound
  | FdNotFoundError _ => Status_NotFound
  | NoDataNode => Status_Unavailable
  | InvalidJournalEntryError | DBErr _ | JournalErr => Status_Unavailable
  end.

Section server.
Context {db : Type} {DB : MetaDB db} {K : Type} {KO : Kafka K}.
Context {ME : Codec MasterEntry} {RO : RangeOrder}.

Abbreviation FM := (GoM (FileManager db K)).

(** [len(c.Cells) == 1 && c.Cells[0].IsMeta()], read from the store the
    snapshot points into. *)
Definition holdsMeta (c : Chunk) : FileM bool :=
  if decide (s_len (Chunk_Cells c) = 1%nat) then
    l ← slice_get (Chunk_Cells c) 0;
    cell ← load_cell l;
    mret (IsMeta cell)
  else mret false.

Definition pbChunk (c : Chunk) : FileM PbChunk :=
  m ← holdsMeta c;
  mret (mkPbChunk (Chunk_ID c) (DataNode c) (Version c) m).

Fixpoint pbChunks (cs : list Chunk) : FileM (list PbChunk) :=
  match cs with
  | [] => mret []
  | c :: cs' => p ← pbChunk c; ps ← pbChunks cs'; mret (p :: ps)
  end.

(** The file a descriptor refers to, for reading the snapshots it returned. *)
Definition in_file {A} (fd : Z) (m : FileM A) : FM A :=
  f ← go_get;
  name ← go_deref (Fds f !! fd);
  with_file name (on_file m).

Definition srv_RegisterDataNode (addr : string) : FM Status :=
  go_modify (λ f, set_alloc f (AddDataNode (fm_alloc f) addr)) ≫= λ _,
  mret Status_OK.

Definition srv_ReadSheet (fd : Z) : FM ReadSheetReply :=
  r ← ReadSheet fd;
  match r with
  | Err err => mret (mkReadSheetReply (defaultErrorHandler err) [])
  | Ok chunks => ps ← in_file fd (pbChunks chunks); mret (mkReadSheetReply Status_OK ps)
  end.

Definition srv_CreateSheet (filename : string) : FM FdReply :=
  r ← CreateSheet filename;
  match r with
  | Err err => mret (mkFdReply (defaultErrorHandler err) 0)
  | Ok fd => mret (mkFdReply Status_OK fd)
  end.

(** Not implemented: it panics. *)
Definition srv_DeleteSheet (filename : string) : FM Status := go_panic.

Definition srv_OpenSheet (filename : string) : FM FdReply :=
  r ← OpenSheet filename;
  match r with
  | Err err => mret (mkFdReply (defaultErrorHandler err) 0)
  | Ok fd => mret (mkFdReply Status_OK fd)
  end.

(** The error of the journal is dropped. *)
Definition srv_RecycleSheet (now : Z) (filename : string) : FM Status :=
  RecycleSheet now filename ≫= λ _, mret Status_OK.

Definition srv_ResumeSheet (filename : string) : FM Status :=
  ResumeSheet filename ≫= λ _, mret Status_OK.

Definition srv_ListSheets : FM ListSheetsReply :=
  sheets ← GetAllSheets;
  mret (mkListSheetsReply Status_OK sheets).

Definition srv_ReadCell (fd row col : Z) : FM CellReply :=
  r ← ReadFileCell fd row col;
  match r with
  | Err err => mret (mkCellReply (defaultErrorHandler err) None)
  | Ok (cell, dataChunk) =>
      p ← in_file fd (pbChunk dataChunk);
      mret (mkCellReply Status_OK (Some (mkPbCell p (Offset cell) (Size cell))))
  end.

(** [HoldsMeta] is left unset here. *)
Definition srv_WriteCell (fd row col : Z) : FM CellReply :=
  r ← WriteFileCell fd row col;
  match r with
  | Err err => mret (mkCellReply (defaultErrorHandler err) None)
  | Ok (cell, dataChunk) =>
      mret (mkCellReply Status_OK
        (Some (mkPbCell (mkPbChunk (Chunk_ID dataChunk) (DataNode dataChunk) (Version dataChunk) false)
                 (Offset cell) (Size cell))))
  end.
End server.
