(* ===== verification/FsClient.v ===== *)
(** FsClient: the client library of the file system.

    Source: sheetfs/fsclient/{client.go, file.go, utils.go, errors.go,
    consts.go}.  gRPC and ZooKeeper are parameters: [zk_get] looks an address up,
    [dial] connects to it, and [master_rpc], [data_rpc] are one call on a
    connection; all of them act on a state [W], the rest of the system.  A
    connection is identified by its address.  [interfere] is what other
    goroutines may do to the client while it does not hold its lock, and
    [ctx_done] when the caller's context is cancelled.  The checks by reflection
    of [checkMethodParams] pass for the fixed calls made here. *)
From Stdlib Require Import ZArith Lia Strings.Byte.
From stdpp Require Import gmap strings list fin_maps.
From S2P Require Import Prelude.
From S2P Require Import DataNode.
From S2P Require Import MasterData.
From S2P Require Import SheetFile.
From S2P Require Import MasterServer.
Open Scope Z_scope.

(** ** Messages and errors *)
Inductive MasterReq :=
| MCreateSheet (filename : string)
| MDeleteSheet (filename : string)
| MOpenSheet (filename : string)
| MReadSheet (fd : Z)
| MReadCell (fd row col : Z)
| MWriteCell (fd row col : Z).

Inductive MasterRep :=
| RFd (r : FdReply)
| RDelete (s : Status)
| RSheet (r : ReadSheetReply)
| RCell (r : CellReply).

Inductive DataReq := DRead (r : ReadChunkRequest) | DWrite (r : WriteChunkRequest).
Inductive DataRep := RRead (s : Status) (data : list byte) | RWrite (s : Status).

Inductive RpcError := DeadlineExceeded | OtherCode (code : Z).
#[export] Instance RpcError_eq_dec : EqDecision RpcError.
Proof. solve_decision. Defined.

Inductive ClientError :=
| ErrRpc (e : RpcError)
| ErrNet (msg : string)          (** ZooKeeper or dial *)
| ErrExist | ErrNotExist | ErrInvalid
| CancelledError
| UnexpectedStatusError (s : Status).
#[export] Instance ClientError_eq_dec : EqDecision ClientError.
Proof. solve_decision. Defined.

(** ** Client *)
Record nodeConn := mkConn { conn : option string; conn_version : Z }.

Record Client := mkClient {
  MaxRetry : nat;
  MasterZnode : string;
  DataNodeZnodePrefix : string;
  c_master : nodeConn;
  datanodeMap : gmap string nodeConn
}.

Definition set_master (c : Client) (m : nodeConn) : Client :=
  mkClient (MaxRetry c) (MasterZnode c) (DataNodeZnodePrefix c) m (datanodeMap c).
Definition set_datanode (c : Client) (g : string) (n : nodeConn) : Client :=
  mkClient (MaxRetry c) (MasterZnode c) (DataNodeZnodePrefix c) (c_master c) (<[g := n]> (datanodeMap c)).

Record File := mkFile' { file_fd : Z; file_name : string }.

Section client.
Context {W : Type}.
Context (zk_get : string → GoM W (result string string)).
Context (dial : string → GoM W (result string unit)).
Context (master_rpc : string → MasterReq → GoM W (result RpcError MasterRep)).
Context (data_rpc : string → DataReq → GoM W (result RpcError DataRep)).
Context (interfere : Client → Client).
Context (ctx_done : nat → bool).

Abbreviation CM := (GoM (Client * W)).

Definition net {A} (m : GoM W A) : CM A :=
  λ s, match m s.2 with Some (a, w) => Some (a, (s.1, w)) | None => None end.
Definition get_client : CM Client := λ s, Some (s.1, s).
Definition put_client (c : Client) : CM () := λ s, Some ((), (c, s.2)).

(** The common body of [reAskMasterNode] and [reAskDataNode]. *)
Definition reAsk (znode : string) : GoM W (result ClientError string) :=
  r ← zk_get znode;
  match r with
  | Err e => mret (Err (ErrNet e))
  | Ok addr =>
      d ← dial addr;
      match d with
      | Err e => mret (Err (ErrNet e))
      | Ok _ => mret (Ok addr)
      end
  end.

Definition reAskMasterNode (c : Client) : GoM W (result ClientError string) := reAsk (MasterZnode c).
Definition reAskDataNode (c : Client) (group : string) : GoM W (result ClientError string) :=
  reAsk (DataNodeZnodePrefix c +:+ group).

(** The loop of [NewClient]; [err] is the error of the attempt before. *)
Fixpoint newclient_loop (n : nat) (c : Client) (last : result ClientError (option string))
  : GoM W (result ClientError (option string)) :=
  match n with
  | O => mret last
  | S n' =>
      r ← reAskMasterNode c;
      match r with
      | Ok a => mret (Ok (Some a))
      | Err e => newclient_loop n' c (Err e)
      end
  end.

Definition NewClient (maxRetry : nat) (masterZnode prefix : string) (connect_err : option string)
  : GoM W (result ClientError Client) :=
  match connect_err with
  | Some e => mret (Err (ErrNet e))
  | None =>
      let c := mkClient maxRetry masterZnode prefix (mkConn None 0) ∅ in
      r ← newclient_loop maxRetry c (Ok None);
      match r with
      | Err e => mret (Err e)
      | Ok rpcc => mret (Ok (set_master c (mkConn rpcc 0)))
      end
  end.

(** The retry loop of [ensureMasterRPCWithRetry]; [err] is the error of the
    last call.  A nil connection panics. *)
Fixpoint master_retry (n : nat) (req : MasterReq) (lastVersion : Z) (err : RpcError)
  : CM (result RpcError MasterRep) :=
  match n with
  | O => mret (Err err)
  | S n' =>
      c ← get_client;
      put_client (interfere c) ≫= λ _,
      c ← get_client;
      let cur := c_master c in
      (if conn_version cur =? lastVersion then
         r ← net (reAskMasterNode c);
         match r with
         | Err _ => mret None
         | Ok addr =>
             let cur := mkConn (Some addr) (u64 (lastVersion + 1)) in
             put_client (set_master c cur) ≫= λ _,
             mret (Some cur)
         end
       else mret (Some cur)) ≫= λ next,
      match next with
      | None => master_retry n' req lastVersion err
      | Some cur =>
          addr ← go_deref (conn cur);
          r ← net (master_rpc addr req);
          match r with
          | Ok rep => mret (Ok rep)
          | Err e => master_retry n' req (conn_version cur) e
          end
      end
  end.

Definition ensureMasterRPCWithRetry (req : MasterReq) : CM (result ClientError MasterRep) :=
  c ← get_client;
  addr ← go_deref (conn (c_master c));
  r ← net (master_rpc addr req);
  match r with
  | Ok rep => mret (Ok rep)
  | Err (OtherCode k) => mret (Err (ErrRpc (OtherCode k)))
  | Err DeadlineExceeded =>
      r ← master_retry (MaxRetry c) req (conn_version (c_master c)) DeadlineExceeded;
      match r with Ok rep => mret (Ok rep) | Err e => mret (Err (ErrRpc e)) end
  end.

Fixpoint data_retry (n : nat) (group : string) (req : DataReq) (lastVersion : Z) (err : RpcError)
  : CM (result RpcError DataRep) :=
  match n with
  | O => mret (Err err)
  | S n' =>
      c ← get_client;
      put_client (interfere c) ≫= λ _,
      c ← get_client;
      cur ← go_deref (datanodeMap c !! group);
      (if conn_version cur =? lastVersion then
         r ← net (reAskDataNode c group);
         match r with
         | Err _ => mret None
         | Ok addr =>
             let cur := mkConn (Some addr) (u64 (lastVersion + 1)) in
             put_client (set_datanode c group cur) ≫= λ _,
             mret (Some cur)
         end
       else mret (Some cur)) ≫= λ next,
      match next with
      | None => data_retry n' group req lastVersion err
      | Some cur =>
          addr ← go_deref (conn cur);
          r ← net (data_rpc addr req);
          match r with
          | Ok rep => mret (Ok rep)
          | Err e => data_retry n' group req (conn_version cur) e
          end
      end
  end.

(** An unknown group has a nil connection: the call panics. *)
Definition ensureDataNodeRPCWithRetry (group : string) (req : DataReq) : CM (result ClientError DataRep) :=
  c ← get_client;
  n ← go_deref (datanodeMap c !! group);
  addr ← go_deref (conn n);
  r ← net (data_rpc addr req);
  match r with
  | Ok rep => mret (Ok rep)
  | Err (OtherCode k) => mret (Err (ErrRpc (OtherCode k)))
  | Err DeadlineExceeded =>
      r ← data_retry (MaxRetry c) group req (conn_version n) DeadlineExceeded;
      match r with Ok rep => mret (Ok rep) | Err e => mret (Err (ErrRpc e)) end
  end.

(** [name == "" || Contains(name, "/") || Contains(name, "\\")] *)
Definition bad_name (name : string) : bool :=
  bool_decide (name = "")
  || existsb (λ b, Byte.eqb b x2f || Byte.eqb b x5c) (String.list_byte_of_string name).

Definition Create (name : string) : CM (result ClientError File) :=
  if bad_name name then mret (Err ErrInvalid)
  else
    r ← ensureMasterRPCWithRetry (MCreateSheet name);
    match r with
    | Err e => mret (Err e)
    | Ok (RFd reply) =>
        mret (match fr_Status reply with
              | Status_OK => Ok (mkFile' (fr_Fd reply) name)
              | Status_Exist => Err ErrExist
              | s => Err (UnexpectedStatusError s)
              end)
    | Ok _ => go_panic
    end.

Definition Delete (name : string) : CM (result ClientError unit) :=
  r ← ensureMasterRPCWithRetry (MDeleteSheet name);
  match r with
  | Err e => mret (Err e)
  | Ok (RDelete s) =>
      mret (match s with
            | Status_OK => Ok ()
            | Status_NotFound => Err ErrNotExist
            | s => Err (UnexpectedStatusError s)
            end)
  | Ok _ => go_panic
  end.

Definition Open (name : string) : CM (result ClientError File) :=
  if bad_name name then mret (Err ErrInvalid)
  else
    r ← ensureMasterRPCWithRetry (MOpenSheet name);
    match r with
    | Err e => mret (Err e)
    | Ok (RFd reply) =>
        mret (match fr_Status reply with
              | Status_OK => Ok (mkFile' (fr_Fd reply) name)
              | Status_NotFound => Err ErrNotExist
              | s => Err (UnexpectedStatusError s)
              end)
    | Ok _ => go_panic
    end.

Fixpoint checkNewDataNode (chunks : list PbChunk) : CM (result ClientError unit) :=
  match chunks with
  | [] => mret (Ok ())
  | chunk :: chunks' =>
      c ← get_client;
      match datanodeMap c !! pb_Datanode chunk with
      | Some _ => checkNewDataNode chunks'
      | None =>
          r ← net (reAskDataNode c (pb_Datanode chunk));
          match r with
          | Err e => mret (Err e)
          | Ok addr =>
              put_client (set_datanode c (pb_Datanode chunk) (mkConn (Some addr) 0)) ≫= λ _,
              checkNewDataNode chunks'
          end
      end
  end.

Definition concurrentReadChunk (chunk : PbChunk) (req : ReadChunkRequest)
  : CM (result ClientError (Status * list byte)) :=
  r ← ensureDataNodeRPCWithRetry (pb_Datanode chunk) (DRead req);
  match r with
  | Err e => mret (Err e)
  | Ok (RRead s d) => mret (Ok (s, d))
  | Ok _ => go_panic
  end.

Definition concurrentWriteChunk (chunk : PbChunk) (req : WriteChunkRequest)
  : CM (result ClientError Status) :=
  r ← ensureDataNodeRPCWithRetry (pb_Datanode chunk) (DWrite req);
  match r with
  | Err e => mret (Err e)
  | Ok (RWrite s) => mret (Ok s)
  | Ok _ => go_panic
  end.

(** ** File *)

(** The spinning loop of [ReadAt]; [fuel] bounds its iterations, [None] is a
    panic or a loop that is still spinning. *)
Fixpoint read_spin (fuel i : nat) (chunk : PbChunk) (req : ReadChunkRequest)
  : CM (result ClientError (list byte)) :=
  match fuel with
  | O => go_panic
  | S fuel' =>
      if ctx_done i then mret (Err CancelledError)
      else
        r ← concurrentReadChunk chunk req;
        match r with
        | Err e => mret (Err e)
        | Ok (Status_OK, data) => mret (Ok data)
        | Ok (Status_NotFound, _) => mret (Err ErrNotExist)
        | Ok (Status_WrongVersion, _) => read_spin fuel' (S i) chunk req
        | Ok (s, _) => mret (Err (UnexpectedStatusError s))
        end
  end.

(** [ReadAt]: the number of bytes and the caller's buffer. *)
Definition File_ReadAt (fuel : nat) (f : File) (b : list byte) (row col : Z)
  : CM (result ClientError (Z * list byte)) :=
  r ← ensureMasterRPCWithRetry (MReadCell (file_fd f) row col);
  match r with
  | Err e => mret (Err e)
  | Ok (RCell masterReply) =>
      if decide (cr_Status masterReply ≠ Status_OK)
      then mret (Err (UnexpectedStatusError (cr_Status masterReply)))
      else
        cell ← go_deref (cr_Cell masterReply);
        r ← checkNewDataNode [pc_Chunk cell];
        match r with
        | Err e => mret (Err e)
        | Ok _ =>
            r ← read_spin fuel 0 (pc_Chunk cell)
                  {| rr_Id := pb_Id (pc_Chunk cell); rr_Offset := pc_Offset cell;
                     rr_Size := pc_Size cell; rr_Version := pb_Version (pc_Chunk cell) |};
            match r with
            | Err e => mret (Err e)
            | Ok data => mret (Ok (i64 (pc_Size cell), copy_at 0 (length b) b data))
            end
        end
  | Ok _ => go_panic
  end.

Fixpoint write_spin (fuel i : nat) (chunk : PbChunk) (req : WriteChunkRequest)
  : CM (result ClientError unit) :=
  match fuel with
  | O => go_panic
  | S fuel' =>
      if ctx_done i then mret (Err CancelledError)
      else
        r ← concurrentWriteChunk chunk req;
        match r with
        | Err e => mret (Err e)
        | Ok Status_OK => mret (Ok ())
        | Ok Status_NotFound => mret (Err ErrNotExist)
        | Ok Status_WrongVersion => write_spin fuel' (S i) chunk req
        | Ok s => mret (Err (UnexpectedStatusError s))
        end
  end.

Definition File_WriteAt (fuel : nat) (f : File) (b : list byte) (row col : Z) (padding : list byte)
  : CM (result ClientError Z) :=
  r ← ensureMasterRPCWithRetry (MWriteCell (file_fd f) row col);
  match r with
  | Err e => mret (Err e)
  | Ok (RCell masterReply) =>
      match cr_Status masterReply with
      | Status_OK =>
          cell ← go_deref (cr_Cell masterReply);
          r ← checkNewDataNode [pc_Chunk cell];
          match r with
          | Err e => mret (Err e)
          | Ok _ =>
              let padding := if decide (length padding = 0%nat) then [x20] else padding in
              let targetSize :=
                if (row =? SheetMetaCellRow) && (col =? SheetMetaCellCol) then FILE_SIZE else BLOCK_SIZE in
              r ← write_spin fuel 0 (pc_Chunk cell)
                    {| wr_Id := pb_Id (pc_Chunk cell); wr_Offset := pc_Offset cell;
                       wr_Size := Z.of_nat (length b); wr_TargetSize := targetSize;
                       wr_Version := pb_Version (pc_Chunk cell); wr_Padding := padding; wr_Data := b |};
              match r with
              | Err e => mret (Err e)
              | Ok _ => mret (Ok (Z.of_nat (length b)))
              end
          end
      | Status_NotFound => mret (Err ErrNotExist)
      | s => mret (Err (UnexpectedStatusError s))
      end
  | Ok _ => go_panic
  end.

(** [File.Read] starts one goroutine per chunk.  Each appends its data as one
    atomic step, so when all of them succeed their effect is that of running them
    one after the other in some order.  After a failure the workers that have not
    called yet stop with [CancelledError]; that a call already under way may
    then fail as well, and replace the reported error, is not modelled. *)
Record ReadAcc := mkReadAcc {
  ra_data : list byte;
  ra_meta : list byte;
  ra_err : option ClientError;
  ra_cancel : bool
}.

Fixpoint read_worker (fuel i : nat) (chunk : PbChunk) (acc : ReadAcc) : CM ReadAcc :=
  match fuel with
  | O => go_panic
  | S fuel' =>
      if ctx_done i || ra_cancel acc then
        mret (mkReadAcc (ra_data acc) (ra_meta acc)
                (Some (default CancelledError (ra_err acc))) (ra_cancel acc))
      else
        r ← concurrentReadChunk chunk
              {| rr_Id := pb_Id chunk; rr_Offset := 0; rr_Size := FILE_SIZE;
                 rr_Version := pb_Version chunk |};
        match r with
        | Err e => mret (mkReadAcc (ra_data acc) (ra_meta acc) (Some e) true)
        | Ok (Status_OK, d) =>
            mret (if pb_HoldsMeta chunk
                  then mkReadAcc (ra_data acc) d (ra_err acc) (ra_cancel acc)
                  else mkReadAcc (ra_data acc ++ d) (ra_meta acc) (ra_err acc) (ra_cancel acc))
        | Ok (Status_WrongVersion, _) => read_worker fuel' (S i) chunk acc
        | Ok (s, _) =>
            if bool_decide (s = Status_NotFound) && pb_HoldsMeta chunk then mret acc
            else mret (mkReadAcc (ra_data acc) (ra_meta acc) (Some (UnexpectedStatusError s)) true)
        end
  end.

Fixpoint read_workers (fuel : nat) (chunks : list PbChunk) (acc : ReadAcc) : CM ReadAcc :=
  match chunks with
  | [] => mret acc
  | chunk :: chunks' => acc ← read_worker fuel 0 chunk acc; read_workers fuel chunks' acc
  end.
End client.

(** ** utils.go *)

(** Replace the last comma by a space. *)
Fixpoint blank_first_comma (rev_data : list byte) : list byte :=
  match rev_data with
  | [] => []
  | b :: rest => if Byte.eqb b x2c then x20 :: rest else b :: blank_first_comma rest
  end.
Definition blank_last_comma (data : list byte) : list byte := rev (blank_first_comma (rev data)).

Definition connect (data metadata : list byte) : list byte :=
  let totalData := [x7b; x22; x63; x65; x6c; x6c; x64; x61; x74; x61; x22; x3a; x20; x5b] in
  let data := match data with [] => data | _ => blank_last_comma data end in
  let totalData := totalData ++ data in
  let totalData := match metadata with [] => totalData ++ [x5d] | _ => totalData ++ [x5d; x2c] ++ metadata end in
  totalData ++ [x7d].

(** [DynamicCopy]: [None] when the source is shorter than the destination. *)
Definition DynamicCopy (dst src : list byte) : option (list byte) :=
  if decide (length dst ≤ length src)%nat
  then Some (take (length dst) src ++ drop (length dst) src) else None.

Section read.
Context {W : Type}.
Context (zk_get : string → GoM W (result string string)).
Context (dial : string → GoM W (result string unit)).
Context (master_rpc : string → MasterReq → GoM W (result RpcError MasterRep)).
Context (data_rpc : string → DataReq → GoM W (result RpcError DataRep)).
Context (interfere : Client → Client).
Context (ctx_done : nat → bool).
Context {RO : RangeOrder}.

(** The bytes, their number (-1 with an error before the workers start) and the
    error. *)
Definition File_Read (fuel : nat) (f : File)
  : GoM (Client * W) (list byte * Z * option ClientError) :=
  r ← ensureMasterRPCWithRetry zk_get dial master_rpc interfere (MReadSheet (file_fd f));
  match r with
  | Err e => mret ([], -1, Some e)
  | Ok (RSheet masterReply) =>
      r ← checkNewDataNode zk_get dial (rs_Chunks masterReply);
      match r with
      | Err e => mret ([], -1, Some e)
      | Ok _ =>
          match rs_Status masterReply with
          | Status_OK =>
              acc ← read_workers zk_get dial data_rpc interfere ctx_done fuel
                      (range_order (rs_Chunks masterReply)) (mkReadAcc [] [] None false);
              let res := connect (ra_data acc) (ra_meta acc) in
              mret (res, Z.of_nat (length res), ra_err acc)
          | Status_NotFound => mret ([], -1, Some ErrNotExist)
          | s => mret ([], -1, Some (UnexpectedStatusError s))
          end
      end
  | Ok _ => go_panic
  end.
End read.
