(* ===== verification/EndToEnd.v ===== *)
(** EndToEnd: clients, master and data nodes together.

    The parameters of FsClient are instantiated with the master's RPC handlers
    (MasterServer) and the data nodes' handlers (DataNode): [Sys] is one master
    and one directory of data nodes.  [Contents] is what a sequential client
    expects of the file system - a map from cells to bytes - and [sys_ok] the
    invariant that makes it so. *)
From Stdlib Require Import ZArith Lia Strings.Byte.
From stdpp Require Import gmap strings list fin_maps.
From S2P Require Import Prelude.
From S2P Require Import DataNode.
From S2P Require Import DataNodeAlloc.
From S2P Require Import MasterData.
From S2P Require Import SheetFile.
From S2P Require Import SheetFileSpec.
From S2P Require Import SheetFileRefine.
From S2P Require Import JournalEntry.
From S2P Require Import CommonJournal.
From S2P Require Import FileMgr.
From S2P Require Import FileMgrProps.
From S2P Require Import MasterServer.
From S2P Require Import FsClient.
Open Scope Z_scope.

(** ** Retries *)
Section retry.
Context {W : Type}.
Context (zk_get : string → GoM W (result string string)).
Context (dial : string → GoM W (result string unit)).
Context (master_rpc : string → MasterReq → GoM W (result RpcError MasterRep)).
Implicit Types (c : Client) (w : W).

Section attempts.
Context (znode : string) (req : MasterReq).

(** [n] attempts that fail, from connection [m] and last error [e] on: ZooKeeper or
    the new address cannot be reached, or the call fails there. *)
Inductive fails : nat → nodeConn → RpcError → W → nodeConn → RpcError → W → Prop :=
| fails_none m e w : fails 0 m e w m e w
| fails_ask n m e w x w1 m' e' w' :
    reAsk zk_get dial znode w = Some (Err x, w1) → fails n m e w1 m' e' w' → fails (S n) m e w m' e' w'
| fails_call n m e w a x w1 w2 m' e' w' :
    reAsk zk_get dial znode w = Some (Ok a, w1) → master_rpc a req w1 = Some (Err x, w2) →
    fails n (mkConn (Some a) (u64 (conn_version m + 1))) x w2 m' e' w' → fails (S n) m e w m' e' w'.
End attempts.

Lemma set_master_twice c m m' : set_master (set_master c m) m' = set_master c m'.
Proof. done. Qed.
Lemma set_master_same c : set_master c (c_master c) = c.
Proof. by destruct c. Qed.

(** One attempt that reaches the registered address. *)
Lemma retry_asks n req c w r w1 : reAsk zk_get dial (MasterZnode c) w = Some (r, w1) → ∀ e,
  master_retry zk_get dial master_rpc id (S n) req (conn_version (c_master c)) e (c, w) =
  match r with
  | Err _ => master_retry zk_get dial master_rpc id n req (conn_version (c_master c)) e (c, w1)
  | Ok a =>
      let m := mkConn (Some a) (u64 (conn_version (c_master c) + 1)) in
      match master_rpc a req w1 with
      | Some (Ok rep, w2) => Some (Ok rep, (set_master c m, w2))
      | Some (Err x, w2) => master_retry zk_get dial master_rpc id n req (conn_version m) x (set_master c m, w2)
      | None => None
      end
  end.
Proof.
  intros Hr e. cbn [master_retry]. unfold mbind, GoM_bind, get_client, put_client, id. cbn [fst snd]. rewrite Z.eqb_refl.
  unfold net, reAskMasterNode. cbn [fst snd]. rewrite Hr. destruct r as [a|x]; [|done]. cbn. by destruct (master_rpc a req w1) as [[[]]|].
Qed.

(** The loop after [n] failures. *)
Lemma retry_fails req n k z c m e w m' e' w' : fails z req n m e w m' e' w' → MasterZnode c = z → c_master c = m →
  master_retry zk_get dial master_rpc id (n + k) req (conn_version m) e (c, w)
  = master_retry zk_get dial master_rpc id k req (conn_version m') e' (set_master c m', w').
Proof.
  intros Hf. revert c. induction Hf as [m e w|n m e w x w1 m' e' w' Ha _ IH|n m e w a x w1 w2 m' e' w' Ha Hx _ IH]; intros c Hz Hm.
  - cbn. by rewrite <- Hm, set_master_same.
  - subst. cbn [Nat.add]. rewrite (retry_asks _ _ _ _ _ _ Ha). by apply IH.
  - subst. cbn [Nat.add]. rewrite (retry_asks _ _ _ _ _ _ Ha). cbn zeta. rewrite Hx. by rewrite (IH (set_master c _)).
Qed.

(** C39. What a call on the master's connection comes to.  An answer is returned; an error
    other than a time-out is returned at once.  After a time-out the client asks
    ZooKeeper up to [MaxRetry] times for the address of the master and repeats the
    call there: it returns the answer of the first attempt that succeeds, and if
    none does the error of the last call that was made; the connection it keeps
    is the last one it made, with a version raised for each.  When another goroutine
    has replaced the connection meanwhile, the call goes there and ZooKeeper is not
    asked. *)
Theorem master_failover c a req w r w1 : conn (c_master c) = Some a → master_rpc a req w = Some (r, w1) →
  let call interfere := ensureMasterRPCWithRetry zk_get dial master_rpc interfere req (c, w) in
  match r with
  | Ok rep => ∀ interfere, call interfere = Some (Ok rep, (c, w1))
  | Err (OtherCode k) => ∀ interfere, call interfere = Some (Err (ErrRpc (OtherCode k)), (c, w1))
  | Err DeadlineExceeded =>
      (∀ n m e w2 b w3 rep w4, fails (MasterZnode c) req n (c_master c) DeadlineExceeded w1 m e w2 → (n < MaxRetry c)%nat →
         reAsk zk_get dial (MasterZnode c) w2 = Some (Ok b, w3) → master_rpc b req w3 = Some (Ok rep, w4) →
         call id = Some (Ok rep, (set_master c (mkConn (Some b) (u64 (conn_version m + 1))), w4)))
      ∧ (∀ m e w2, fails (MasterZnode c) req (MaxRetry c) (c_master c) DeadlineExceeded w1 m e w2 →
         call id = Some (Err (ErrRpc e), (set_master c m, w2)))
      ∧ (∀ b v rep w2, (0 < MaxRetry c)%nat → v ≠ conn_version (c_master c) → master_rpc b req w1 = Some (Ok rep, w2) →
         call (λ c, set_master c (mkConn (Some b) v)) = Some (Ok rep, (set_master c (mkConn (Some b) v), w2)))
  end.
Proof.
  intros Hc Hr. cbn zeta. assert (∀ interfere, ensureMasterRPCWithRetry zk_get dial master_rpc interfere req (c, w) =
    match r with
    | Ok rep => Some (Ok rep, (c, w1))
    | Err (OtherCode k) => Some (Err (ErrRpc (OtherCode k)), (c, w1))
    | Err DeadlineExceeded =>
        match master_retry zk_get dial master_rpc interfere (MaxRetry c) req (conn_version (c_master c)) DeadlineExceeded (c, w1) with
        | Some (Ok rep, s) => Some (Ok rep, s)
        | Some (Err e, s) => Some (Err (ErrRpc e), s)
        | None => None
        end
    end) as Hcall.
  { intros interfere. unfold ensureMasterRPCWithRetry, mbind, GoM_bind, get_client, net. cbn. rewrite Hc. cbn. rewrite Hr.
    destruct r as [|[]]; [done| |done]. by destruct (master_retry _ _ _ _ _ _ _ _ _) as [[[]]|]. }
  destruct r as [rep|[|k]]; [by intros; rewrite Hcall| |by intros; rewrite Hcall]. split_and!.
  - intros n m e w2 b w3 rep w4 Hf Hn Ha Hb. rewrite Hcall. replace (MaxRetry c) with (n + S (MaxRetry c - S n))%nat by lia.
    rewrite (retry_fails _ _ _ _ c _ _ _ _ _ _ Hf eq_refl eq_refl).
    change (conn_version m) with (conn_version (c_master (set_master c m))) at 1.
    rewrite (retry_asks _ _ (set_master c m) _ _ _ Ha). cbn. by rewrite Hb.
  - intros m e w2 Hf. rewrite Hcall. replace (MaxRetry c) with (MaxRetry c + 0)%nat by lia.
    by rewrite (retry_fails _ _ _ _ c _ _ _ _ _ _ Hf eq_refl eq_refl).
  - intros b v rep w2 Hn Hv Hb. rewrite Hcall. destruct (MaxRetry c) as [|n]; [lia|]. cbn [master_retry].
    unfold mbind, GoM_bind, get_client, put_client. cbn [fst snd set_master c_master conn_version]. apply Z.eqb_neq in Hv. rewrite Hv.
    cbn. unfold net. cbn. by rewrite Hb.
Qed.
End retry.

(** ** Slots *)
Lemma drop_splice {X} off (src dst : list X) m : (off + length src ≤ m)%nat → (m ≤ length dst)%nat → drop m (splice off src dst) = drop m dst.
Proof.
  intros Hm Hl. unfold splice. rewrite app_assoc, drop_app_ge by (rewrite length_app, length_take; lia).
  rewrite length_app, length_take, drop_drop. f_equal. lia.
Qed.

(** The cells of a chunk fill its first bytes. *)
Lemma layout_used cs c : layout cs → c ∈ cs → ci_off c + ci_size c <= sizes cs.
Proof.
  intros [(d & -> & Ho & Hs)|(Hl & Hs & Ho)] Hin.
  { apply list_elem_of_singleton in Hin as ->. simpl. lia. }
  assert (ci_off c ∈ ci_off <$> cs) as Hi by (by apply list_elem_of_fmap_2).
  rewrite Ho in Hi. apply list_elem_of_fmap_1 in Hi as (m & -> & Hm). apply elem_of_seq in Hm.
  rewrite sizes_uniform by done. rewrite Forall_forall in Hs. rewrite (Hs c Hin), MaxBytesPerCell_val. lia.
Qed.

(** ** The system *)
Record Sys (db K : Type) := mkSys { sys_fm : FileManager db K; sys_nodes : gmap string Server }.
Arguments mkSys {db K} _ _.
Arguments sys_fm {db K} _.
Arguments sys_nodes {db K} _.

(** The faults of the network, of ZooKeeper and of the machines, which may depend
    on the state of the system and on the call.  An RPC is delivered, or its
    request is lost, or it is executed and the reply is lost; the client then sees
    an error of gRPC. *)
Inductive Fate := Delivered | RequestLost (e : RpcError) | ReplyLost (e : RpcError).

Class Weather (db K : Type) := {
  wx_znode : Sys db K → string → option string;   (** the [Get] of a znode fails *)
  wx_dial : Sys db K → string → option string;    (** dialling an address fails *)
  wx_master : Sys db K → MasterReq → Fate;
  wx_data : Sys db K → string → DataReq → Fate;
  wx_disk : Sys db K → string → DataReq → OsFaults;
  wx_commits : Sys db K → string → DataReq → nat; (** failed Kafka commits of a data node *)
  wx_done : nat → bool                            (** the caller's context is done *)
}.

(** No fault: what the client does not survive without a trace. *)
Class Calm {db K} (WX : Weather db K) : Prop := {
  calm_znode : ∀ S z, wx_znode S z = None;
  calm_dial : ∀ S a, wx_dial S a = None;
  calm_master : ∀ S req, wx_master S req = Delivered;
  calm_data : ∀ S a req, wx_data S a req = Delivered;
  calm_disk : ∀ S a req, wx_disk S a req = no_faults;
  calm_commits : ∀ S a req, (wx_commits S a req < ACK_MOST_TIMES)%nat;
  calm_done : ∀ i, wx_done i = false
}.

(** What is known of the padding of all writes so far. *)
Class PadOk := pad_ok : byte → Prop.

Definition empty_node : Server := {| files := ∅; log := [] |}.

Section system.
Context {db : Type} {DB : MetaDB db} {DL : MetaDBLaws db} {K : Type} {KO : Kafka K}.
Context {ME : Codec MasterEntry} {RO : RangeOrder} {PO : PadOk} {WX : Weather db K}.

Abbreviation SysM := (GoM (Sys db K)).
Implicit Types (S : Sys db K).

(** Every znode holds the address of its own name. *)
Definition sys_zk (znode : string) : SysM (result string string) :=
  λ S, Some (match wx_znode S znode with None => Ok znode | Some e => Err e end, S).
Definition sys_dial (addr : string) : SysM (result string unit) :=
  λ S, Some (match wx_dial S addr with None => Ok () | Some e => Err e end, S).

Definition on_fm {A} (m : GoM (FileManager db K) A) : SysM A :=
  λ S, match m (sys_fm S) with
       | Some (a, f) => Some (a, mkSys f (sys_nodes S))
       | None => None
       end.

Definition deliver {A} (fate : Fate) (m : SysM A) : SysM (result RpcError A) :=
  match fate with
  | Delivered => r ← m; mret (Ok r)
  | RequestLost e => mret (Err e)
  | ReplyLost e => m ≫= λ _, mret (Err e)
  end.

Definition master_handler (req : MasterReq) : SysM MasterRep :=
  match req with
  | MCreateSheet n => r ← on_fm (srv_CreateSheet n); mret (RFd r)
  | MDeleteSheet n => r ← on_fm (srv_DeleteSheet n); mret (RDelete r)
  | MOpenSheet n => r ← on_fm (srv_OpenSheet n); mret (RFd r)
  | MReadSheet fd => r ← on_fm (srv_ReadSheet fd); mret (RSheet r)
  | MReadCell fd row col => r ← on_fm (srv_ReadCell fd row col); mret (RCell r)
  | MWriteCell fd row col => r ← on_fm (srv_WriteCell fd row col); mret (RCell r)
  end.

Definition sys_master (addr : string) (req : MasterReq) : SysM (result RpcError MasterRep) :=
  λ S, deliver (wx_master S req) (master_handler req) S.

Definition node_at S (addr : string) : Server := default empty_node (sys_nodes S !! addr).

Definition data_handler (addr : string) (req : DataReq) : SysM DataRep :=
  λ S,
    match req with
    | DRead r =>
        match ReadChunk (wx_disk S addr req) (node_at S addr) r with
        | None => None
        | Some (s, d) => Some (RRead s d, S)
        end
    | DWrite r =>
        match WriteChunk (wx_disk S addr req) (wx_commits S addr req) (node_at S addr) r with
        | None => None
        | Some (s, node) => Some (RWrite s, mkSys (sys_fm S) (<[addr := node]> (sys_nodes S)))
        end
    end.

Definition sys_data (addr : string) (req : DataReq) : SysM (result RpcError DataRep) :=
  λ S, deliver (wx_data S addr req) (data_handler addr req) S.

Definition sys_WriteAt := File_WriteAt sys_zk sys_dial sys_master sys_data id wx_done.
Definition sys_ReadAt := File_ReadAt sys_zk sys_dial sys_master sys_data id wx_done.

(** What a call comes to without faults. *)
Section calm.
Context {CW : Calm WX}.

Lemma sys_zk_calm z S : sys_zk z S = Some (Ok z, S).
Proof. unfold sys_zk. by rewrite calm_znode. Qed.
Lemma sys_dial_calm a S : sys_dial a S = Some (Ok (), S).
Proof. unfold sys_dial. by rewrite calm_dial. Qed.
Lemma sys_master_calm a req S rep S' :
  master_handler req S = Some (rep, S') → sys_master a req S = Some (Ok rep, S').
Proof. intros H. unfold sys_master, deliver, mbind, GoM_bind. rewrite calm_master. by rewrite H. Qed.
Lemma sys_master_stops a req S : master_handler req S = None → sys_master a req S = None.
Proof. intros H. unfold sys_master, deliver, mbind, GoM_bind. rewrite calm_master. by rewrite H. Qed.
Lemma sys_data_calm a req S rep S' :
  data_handler a req S = Some (rep, S') → sys_data a req S = Some (Ok rep, S').
Proof. intros H. unfold sys_data, deliver, mbind, GoM_bind. rewrite calm_data. by rewrite H. Qed.
Lemma sys_read_calm a r S st d :
  ReadChunk no_faults (node_at S a) r = Some (st, d) → sys_data a (DRead r) S = Some (Ok (RRead st d), S).
Proof. intros H. apply sys_data_calm. simpl. by rewrite calm_disk, H. Qed.
End calm.

(** ** What clients expect *)
Abbreviation Contents := (gmap (string * Z) (list byte)).

(** The bytes of a cell after a write: the data cut or padded to its size. *)
Definition cell_bytes (id : Z) (b padding : list byte) : list byte :=
  let n := Z.to_nat (cell_size id) in
  let d := take n b in
  d ++ replicate (n - length d) (default x20 (head padding)).

(** ** Invariant *)
Context (prefix : string).

(** The chunk as its data node stores it: absent until the first write. *)
Definition chunk_stored S (k : Z) (vc : VChunk) (body : list byte) : Prop :=
  let s := node_at S (prefix +:+ vc_node vc) in
  if vc_version vc =? 0 then files s !! k = None
  else files s !! k = Some (mkfile (body, vc_version vc)) ∧ length body = Z.to_nat FILE_SIZE.

(** The cells of a chunk hold the expected bytes. *)
Definition chunk_contents (A : Contents) (name : string) (vc : VChunk) (body : list byte) : Prop :=
  Forall (λ ci, A !! (name, ci_id ci)
                = if vc_version vc =? 0 then None
                  else Some (take (Z.to_nat (ci_size ci)) (drop (Z.to_nat (ci_off ci)) body)))
    (vc_cells vc).

(** The rest of a chunk is the padding of its first write. *)
Definition chunk_filler (vc : VChunk) (body : list byte) : Prop :=
  vc_version vc ≠ 0 → ∃ p, pad_ok p
    ∧ drop (Z.to_nat (sizes (vc_cells vc))) body = replicate (Z.to_nat (BytesPerChunk - sizes (vc_cells vc))) p.

Record file_ok S (A : Contents) (n : Z) (name : string) (f : SheetFile) (v : VFile) : Prop := {
  fo_rep : file_rep f v;
  fo_inv : v_inv v;
  fo_rows : rows_known (fm_db (sys_fm S)) v;
  fo_name : filename f = name;
  fo_sized : v_sized v;
  fo_zero : v_zero v;
  fo_versions : ∀ k vc, v_chunks v !! k = Some vc → vc_version vc <= n;
  fo_stored : ∀ k vc, v_chunks v !! k = Some vc →
    ∃ body, chunk_stored S k vc body ∧ chunk_contents A name vc body ∧ chunk_filler vc body;
  fo_absent : ∀ id, v_cells v !! id = None → A !! (name, id) = None;
  fo_meta : is_Some (v_cells v !! SheetMetaCellID)
}.

Record sys_ok S (A : Contents) (n : Z) : Prop := {
  so_alloc : alloc_wf (fm_alloc (sys_fm S)) ∧ dataNodes (fm_alloc (sys_fm S)) ≠ [];
  so_files : ∀ name f, Opened (sys_fm S) !! name = Some f → ∃ v, file_ok S A n name f v;
  so_fds : ∀ fd name, Fds (sys_fm S) !! fd = Some name → is_Some (Opened (sys_fm S) !! name);
  so_apart : ∀ n1 n2 f1 f2 k, n1 ≠ n2 →
    Opened (sys_fm S) !! n1 = Some f1 → Opened (sys_fm S) !! n2 = Some f2 →
    is_Some (Chunks f1 !! k) → Chunks f2 !! k = None;
  so_nodes : ∀ addr s, sys_nodes S !! addr = Some s →
    ∃ st, ChunkSpec.good st ∧ files s = ChunkSpec.dir st;
  so_known : ∀ addr k, is_Some (files (node_at S addr) !! k) →
    is_Some (db_first_chunk (fm_db (sys_fm S)) k);
  so_entries : ∀ name, is_Some (Opened (sys_fm S) !! name) ↔ is_Some (Entries (sys_fm S) !! name);
  so_live : ∀ name e, Entries (sys_fm S) !! name = Some e → Recycled e = false;
  so_next : 0 <= nextFd (sys_fm S) <= n
            ∧ ∀ fd, is_Some (Fds (sys_fm S) !! fd) → 0 <= fd < nextFd (sys_fm S);
  so_contents : ∀ name id, is_Some (A !! (name, id)) → is_Some (Entries (sys_fm S) !! name)
}.

(** The client's connections lead to the nodes. *)
Definition client_ok (c : Client) : Prop :=
  is_Some (conn (c_master c)) ∧ DataNodeZnodePrefix c = prefix
  ∧ ∀ g n, datanodeMap c !! g = Some n → conn n = Some (prefix +:+ g).

(** ** The master's part of a write *)

Lemma next_node_Some al : alloc_wf al → dataNodes al ≠ [] → ∃ n, next_node al = Some n.
Proof.
  intros Ha Hn. destruct (AllocateNode_step al Ha Hn) as (nd & _ & E).
  exists (address nd). unfold next_node. by rewrite E.
Qed.

Lemma v_write_Some v id node k : node ≠ None → ∃ v' k' ci, v_write v id node k = (v', Some (k', ci)).
Proof.
  intros Hn. unfold v_write. destruct (v_get v id) as [[ci vc]|]; [by eexists _, _, _|].
  destruct (v_available v _) as [[k' vc]|]; [by eexists _, _, _|].
  destruct node; [by eexists _, _, _|done].
Qed.


Lemma next_chunk_id_row (d : db) node : db_first_chunk d (next_chunk_id d node) = None.
Proof.
  unfold next_chunk_id. destruct (db_create_chunk d _) as [id d'] eqn:Hd. simpl.
  by apply create_chunk_fresh in Hd as (_ & ? & _).
Qed.

(** What the master's handler does in a consistent system. *)
Record wrote S (name : string) (id : Z) (f : SheetFile) (v : VFile) (ci : CellInfo) (vc' : VChunk)
    (v' : VFile) (f' : SheetFile) (fm' : FileManager db K) : Prop := {
  wt_write : ∃ node k0, v_write v id node k0 = (v', Some (ci_chunk ci, ci)) ∧ v_chunks v !! k0 = None
    ∧ db_first_chunk (fm_db (sys_fm S)) k0 = None;
  wt_chunk : v_chunks v' !! ci_chunk ci = Some vc';
  wt_rep : file_rep f' v';
  wt_inv : v_inv v';
  wt_rows : rows_known (fm_db fm') v';
  wt_name : filename f' = name;
  wt_opened : Opened fm' = <[name := f']> (Opened (sys_fm S));
  wt_fds : Fds fm' = Fds (sys_fm S);
  wt_alloc : alloc_wf (fm_alloc fm') ∧ dataNodes (fm_alloc fm') = dataNodes (fm_alloc (sys_fm S));
  wt_grow : rows_grow (fm_db (sys_fm S)) (fm_db fm');
  wt_entries : Entries fm' = Entries (sys_fm S) ∧ nextFd fm' = nextFd (sys_fm S)
}.

Lemma srv_WriteCell_spec S A n fd name row col f v :
  sys_ok S A n → Fds (sys_fm S) !! fd = Some name → Opened (sys_fm S) !! name = Some f →
  file_ok S A n name f v → is_u32 row → is_u32 col →
  ∃ ci vc' v' f' fm',
    srv_WriteCell fd row col (sys_fm S)
    = Some (mkCellReply Status_OK (Some (mkPbCell (mkPbChunk (ci_chunk ci) (vc_node vc') (vc_version vc') false)
              (ci_off ci) (ci_size ci))), fm')
    ∧ wrote S name (GetCellID row col) f v ci vc' v' f' fm'.
Proof.
  intros Hok Hfd Ho Hf Hr Hc. set (fm := sys_fm S) in *. destruct (so_alloc _ _ _ Hok) as [Ha Hn].
  destruct (next_node_Some _ Ha Hn) as [nd Hnd].
  set (w := mkWorld f (fm_alloc fm) (fm_db fm)).
  assert (world_rep w v) as Hw by (split; try done; apply Hf).
  destruct (WriteCellChunk_spec w v row col Hw Hr Hc) as (r & w' & E & [R1 R2 R3 R4] & An & _ & Nm & G & Dn).
  pose proof (next_chunk_id_fresh _ _ (next_node (w_alloc w)) (fo_rows _ _ _ _ _ _ Hf)) as Hfresh.
  pose proof (next_chunk_id_row (fm_db fm) (next_node (w_alloc w))) as Hrow.
  change (w_db w) with (fm_db fm) in *. change (w_alloc w) with (fm_alloc fm) in *.
  fold fm in Hnd, Hfresh. rewrite Hnd in *. destruct (v_write_Some v (GetCellID row col) (Some nd)
    (next_chunk_id (fm_db fm) (Some nd)) ltac:(done)) as (v' & k' & ci & Ev).
  rewrite Ev in *. simpl in *. destruct An as (cell & chunk & vc & -> & Hi & Hnm & Hvc & (C1 & C2 & C3 & _)).
  destruct (v_write_effect _ _ _ _ _ _ _ (fo_inv _ _ _ _ _ _ Hf) Hfresh Ev) as (_ & _ & Hk & _).
  rewrite <- Hk in C1, Ev, Hvc. clear Hk.
  set (fm1 := mkFM (Entries fm) (<[name := w_file w']> (Opened fm)) (Fds fm) (nextFd fm)
                (w_db w') (w_alloc w') (journalWriter fm) (fm_kafka fm)).
  assert (with_file name (WriteCellChunk row col) fm = Some (Ok (cell, chunk), fm1)) as Hwf.
  { unfold with_file. rewrite Ho. fold w. by rewrite E. }
  destruct (writeJournal_full (mkMasterEntry (FromSheetCell cell) (FromSheetChunk chunk)
    FromEmptyMgrEntry) fm1) as (rj & fm' & Ej & E1 & E2 & E3 & E4 & E5 & E6).
  exists ci, vc, v', (w_file w'), fm'. split.
  - unfold srv_WriteCell, WriteFileCell, getFileByFd, mbind, GoM_bind, go_get.
    fold fm. rewrite Hfd. cbn. rewrite Hwf, Ej. cbn. rewrite C1, C2, C3, <- Hi. done.
  - split; rewrite ?E1, ?E2, ?E3, ?E4, ?E5, ?E6; simpl; try done.
    + by eexists _, _.
    + rewrite Nm. apply Hf.
Qed.

(** ** The data node's part *)
Lemma node_store S A n addr :
  sys_ok S A n → ∃ st, ChunkSpec.good st ∧ files (node_at S addr) = ChunkSpec.dir st.
Proof.
  intros Hok. unfold node_at. destruct (sys_nodes S !! addr) as [s|] eqn:E; simpl.
  - by apply (so_nodes _ _ _ Hok addr s).
  - exists ∅. split; [apply map_Forall_empty|done].
Qed.

Lemma node_at_insert (fm : FileManager db K) S addr s addr' :
  node_at (mkSys fm (<[addr := s]> (sys_nodes S))) addr'
  = if decide (addr' = addr) then s else node_at S addr'.
Proof.
  unfold node_at. simpl. case_decide as E; [subst; by rewrite lookup_insert_eq|].
  by rewrite lookup_insert_ne.
Qed.

(** An accepted write: the chunk's file changes as expected, no other does. *)
Lemma node_write {CW : Calm WX} S A n (fm : FileManager db K) addr r old :
  sys_ok S A n → area_ok r → 0 < wr_Version r < 2 ^ 64 →
  (if wr_Version r =? 1 then files (node_at S addr) !! wr_Id r = None
   else files (node_at S addr) !! wr_Id r = Some (mkfile (old, wr_Version r - 1))
        ∧ length old = Z.to_nat FILE_SIZE) →
  ∃ s' st' base, sys_data addr (DWrite r) (mkSys fm (sys_nodes S)) = Some (Ok (RWrite Status_OK),
        mkSys fm (<[addr := s']> (sys_nodes S)))
    ∧ ChunkSpec.good st' ∧ files s' = ChunkSpec.dir st'
    ∧ length base = Z.to_nat FILE_SIZE ∧ (wr_Version r ≠ 1 → base = old)
    ∧ (wr_Version r = 1 → base = replicate (Z.to_nat FILE_SIZE) (pad_byte r))
    ∧ files s' !! wr_Id r = Some (mkfile (splice (Z.to_nat (wr_Offset r)) (stored_bytes r) base, wr_Version r))
    ∧ ∀ k, k ≠ wr_Id r → files s' !! k = files (node_at S addr) !! k.
Proof.
  intros Hok Hr Hv Hold. destruct (node_store S A n addr Hok) as (st & Hg & Hs).
  assert (∃ base, length base = Z.to_nat FILE_SIZE ∧ (wr_Version r ≠ 1 → base = old)
    ∧ (wr_Version r = 1 → base = replicate (Z.to_nat FILE_SIZE) (pad_byte r)) ∧ ChunkSpec.write st r = Some (<[wr_Id r := (splice (Z.to_nat (wr_Offset r)) (stored_bytes r) base,
                                                 wr_Version r)]> st)) as (base & Hb & Hbo & Hb1 & Hw).
  { unfold ChunkSpec.write. rewrite Hs in Hold. destruct (Z.eqb_spec (wr_Version r) 1) as [H1|H1].
    - unfold ChunkSpec.dir in Hold. rewrite lookup_fmap in Hold.
      destruct (st !! wr_Id r); [done|]. eexists. split; [apply length_replicate|]. split; [done|].
      split; [reflexivity|]. by rewrite H1.
    - destruct Hold as [Hf Hl].
      assert (st !! wr_Id r = Some (old, wr_Version r - 1)) as ->.
      { unfold ChunkSpec.dir in Hf. rewrite lookup_fmap in Hf.
        destruct (st !! wr_Id r) as [[b v2]|] eqn:E; [|done]. simpl in Hf. injection Hf as Hm.
        destruct (Hg _ _ E) as [Hlb Hvb]. simpl in Hlb, Hvb. unfold mkfile in Hm. simpl in Hm.
        apply app_inj_1 in Hm as [-> Hm]; [|congruence].
        apply (f_equal be_decode) in Hm. rewrite !be_decode_encode64 in Hm; [by subst| |done].
        unfold is_u64. lia. }
      rewrite u64_small by (unfold is_u64; lia).
      rewrite (proj2 (Z.eqb_eq _ _)) by lia. exists old. done. }
  set (S0 := mkSys fm (sys_nodes S)).
  pose proof (WriteChunk_spec st (node_at S addr) r (wx_commits S0 addr (DWrite r)) Hg Hs Hr (calm_commits S0 _ _)) as HW.
  unfold write_status in HW. rewrite Hw in HW. simpl in HW.
  eexists _, _, base. split_and!; [apply sys_data_calm; fold S0; unfold data_handler; rewrite calm_disk; change (node_at S0 addr) with (node_at S addr); by rewrite HW|by eapply write_good|done|done|done|done| |].
  - simpl. unfold ChunkSpec.dir. by rewrite lookup_fmap, lookup_insert_eq.
  - intros k Hk. simpl. rewrite Hs. unfold ChunkSpec.dir. by rewrite !lookup_fmap, lookup_insert_ne.
Qed.

(** ** The invariant after a write *)
Section after_write.
Context (S : Sys db K) (A : Contents) (n : Z) (name : string) (id : Z).
Context (f f' : SheetFile) (v v' : VFile) (ci : CellInfo) (vc' : VChunk) (fm' : FileManager db K).
Context (Hok : sys_ok S A n) (Hn : 0 <= n < 2 ^ 64 - 1).
Context (Ho : Opened (sys_fm S) !! name = Some f) (Hf : file_ok S A n name f v).
Context (Hwr : wrote S name id f v ci vc' v' f' fm').

Let k := ci_chunk ci.
Let old := match v_chunks v !! k with Some vc => vc_version vc | None => 0 end.

Lemma aw_facts :
  vc_version vc' = old + 1 ∧ 0 <= old <= n
  ∧ v_cells v' !! id = Some ci ∧ ci_id ci = id ∧ ci ∈ vc_cells vc'
  ∧ (∀ j, j ≠ k → v_chunks v' !! j = v_chunks v !! j)
  ∧ (∀ j, j ≠ id → v_cells v' !! j = v_cells v !! j).
Proof using All.
  destruct (wt_write _ _ _ _ _ _ _ _ _ _ Hwr) as (node & k0 & Hw & Hk0 & _).
  pose proof (fo_inv _ _ _ _ _ _ Hf) as Hv.
  destruct (v_write_effect _ _ _ _ _ _ _ Hv Hk0 Hw) as (vc2 & G & _ & Hver & Hch & Hce).
  destruct (v_get_inv _ _ _ _ (wt_inv _ _ _ _ _ _ _ _ _ _ Hwr) G) as (G1 & G2 & G3 & G4).
  rewrite (wt_chunk _ _ _ _ _ _ _ _ _ _ Hwr) in G2. simplify_eq.
  assert (0 <= old <= n) as Hold.
  { unfold old. destruct (v_chunks v !! k) as [vc|] eqn:E; [|lia].
    pose proof (fo_versions _ _ _ _ _ _ Hf _ _ E).
    destruct (inv_chunks v Hv _ _ E) as (_ & _ & _ & Hu). unfold is_u64 in Hu. lia. }
  split_and!; try done; try lia. fold k old in Hver. rewrite Hver. apply u64_small. unfold is_u64. lia.
Qed.

(** The state of the chunk's file before the write. *)
Lemma aw_before :
  ∃ body, if vc_version vc' =? 1 then files (node_at S (prefix +:+ vc_node vc')) !! k = None
  else files (node_at S (prefix +:+ vc_node vc')) !! k = Some (mkfile (body, vc_version vc' - 1))
       ∧ length body = Z.to_nat FILE_SIZE
       ∧ ∃ vc, v_chunks v !! k = Some vc ∧ vc_version vc ≠ 0 ∧ chunk_contents A name vc body ∧ chunk_filler vc body.
Proof using All.
  destruct aw_facts as (Hver & Hold & _). rewrite Hver.
  destruct (wt_write _ _ _ _ _ _ _ _ _ _ Hwr) as (node & k0 & Hw & Hk0 & Hrow).
  pose proof (fo_inv _ _ _ _ _ _ Hf) as Hv.
  destruct (v_write_chunk _ _ _ _ _ _ _ Hv Hk0 Hw) as (vc2 & E2 & Hcase & _).
  rewrite (wt_chunk _ _ _ _ _ _ _ _ _ _ Hwr) in E2. injection E2 as <-. fold k in Hcase. unfold old in *.
  destruct (v_chunks v !! k) as [vc|] eqn:E.
  - destruct Hcase as [-> _]. destruct (fo_stored _ _ _ _ _ _ Hf k vc E) as (body & Hst & Hct).
    exists body. unfold chunk_stored in Hst.
    destruct (Z.eqb_spec (vc_version vc) 0) as [E0|E0].
    + rewrite E0. done.
    + rewrite (proj2 (Z.eqb_neq _ _)) by lia. rewrite Z.add_simpl_r. destruct Hst as [Hst Hl].
      split_and!; try done. by exists vc.
  - exists []. destruct Hcase as (-> & _). simpl.
    destruct (files (node_at S (prefix +:+ vc_node vc')) !! k0) eqn:Ef; [|done].
    destruct (so_known _ _ _ Hok (prefix +:+ vc_node vc') k0) as [r Hr]; [by eexists|]. congruence.
Qed.

(** The chunk the write went to. *)
Lemma aw_chunk data base :
  length data = Z.to_nat (ci_size ci) → length base = Z.to_nat FILE_SIZE →
  (vc_version vc' ≠ 1 → ∃ vc, v_chunks v !! k = Some vc ∧ vc_version vc ≠ 0 ∧ chunk_contents A name vc base) →
  chunk_contents (<[(name, id) := data]> A) name vc' (splice (Z.to_nat (ci_off ci)) data base).
Proof using All.
  intros Hd Hb Hprev. destruct aw_facts as (Hver & Hold & Hid & Hci & Hin & Hch & Hce).
  pose proof (wt_inv _ _ _ _ _ _ _ _ _ _ Hwr) as Hv'. pose proof (wt_chunk _ _ _ _ _ _ _ _ _ _ Hwr) as Hvc'.
  destruct (inv_chunks _ Hv' _ _ Hvc') as (HF & Hnd & HL & _).
  assert (ci_off ci + ci_size ci <= BytesPerChunk ∧ 0 <= ci_off ci) as [Hbd Hoff].
  { destruct (layout_bounds _ _ HL Hin). done. }
  assert (0 <= ci_size ci) as Hsz.
  { pose proof (layout_sizes_nonneg _ HL) as Hp. rewrite Forall_forall in Hp. by apply Hp. }
  assert (Z.to_nat (ci_off ci) + length data ≤ length base)%nat as Hfit.
  { rewrite Hd, Hb. unfold BytesPerChunk in Hbd. rewrite FILE_SIZE_nat. lia. }
  unfold chunk_contents. rewrite (proj2 (Z.eqb_neq _ _)) by lia.
  apply Forall_forall. intros c Hc. rewrite Forall_forall in HF. destruct (HF c Hc) as [Hck Hcid].
  destruct (decide (ci_id c = id)) as [E|E].
  - assert (c = ci) as -> by congruence. rewrite Hci, lookup_insert_eq, <- Hd. f_equal.
    by rewrite take_drop_splice.
  - rewrite lookup_insert_ne by congruence.
    destruct (wt_write _ _ _ _ _ _ _ _ _ _ Hwr) as (node & k0 & Hw & Hk0 & _).
    destruct (decide (vc_version vc' = 1)) as [E1|E1].
    { exfalso. assert (vc_cells vc' = [ci]) as Hone.
      { eapply (v_write_first v id node k0 v'); try done; [apply Hf|apply Hf|]. fold k. unfold old in Hver.
        destruct (v_chunks v !! k); [lia|done]. }
      rewrite Hone in Hc. apply list_elem_of_singleton in Hc. congruence. }
    destruct (Hprev E1) as (vc & Evc & Hvne & Hct). unfold chunk_contents in Hct.
    rewrite (proj2 (Z.eqb_neq _ _) Hvne), Forall_forall in Hct.
    assert (c ∈ vc_cells vc) as Hcv.
    { rewrite Hce in Hcid by done. destruct (inv_cells _ (fo_inv _ _ _ _ _ _ Hf) _ _ Hcid) as (_ & w & W1 & W2).
      rewrite Hck in W1. fold k in W1. congruence. }
    rewrite (Hct c Hcv). f_equal. symmetry. apply take_drop_splice_ne; [done|].
    pose proof (layout_sizes_nonneg _ HL) as Hp. rewrite Forall_forall in Hp. specialize (Hp c Hc).
    destruct (layout_bounds _ _ HL Hc) as [Hco _].
    apply list_elem_of_lookup_1 in Hc as [i Hi]. apply list_elem_of_lookup_1 in Hin as [j Hj].
    destruct (layout_disjoint _ i j _ _ HL Hi Hj) as [D|D]; [intros ->; congruence|lia|].
    rewrite Hd. lia.
Qed.

(** What is behind its cells. *)
Lemma aw_filler data base :
  length data = Z.to_nat (ci_size ci) → length base = Z.to_nat FILE_SIZE →
  (vc_version vc' ≠ 1 → ∃ vc, v_chunks v !! k = Some vc ∧ vc_version vc ≠ 0 ∧ chunk_filler vc base) →
  (vc_version vc' = 1 → ∃ p, pad_ok p ∧ base = replicate (Z.to_nat FILE_SIZE) p) →
  chunk_filler vc' (splice (Z.to_nat (ci_off ci)) data base).
Proof using All.
  intros Hd Hb Hprev Hfirst _. destruct aw_facts as (_ & _ & _ & _ & Hin & _).
  pose proof (wt_inv _ _ _ _ _ _ _ _ _ _ Hwr) as Hv'. pose proof (wt_chunk _ _ _ _ _ _ _ _ _ _ Hwr) as Hvc'.
  destruct (inv_chunks _ Hv' _ _ Hvc') as (_ & _ & HL & _). pose proof (layout_sizes _ HL) as Hs.
  destruct (layout_bounds _ _ HL Hin) as [Hoff _]. pose proof (layout_used _ _ HL Hin) as Hused.
  pose proof (layout_sizes_nonneg _ HL) as Hp. rewrite Forall_forall in Hp. specialize (Hp ci Hin).
  unfold BytesPerChunk in Hs. rewrite FILE_SIZE_nat in *. rewrite drop_splice by (rewrite ?Hd, ?Hb; lia). unfold BytesPerChunk.
  destruct (decide (vc_version vc' = 1)) as [E1|E1].
  - destruct (Hfirst E1) as (p & Hpad & ->). exists p. split; [done|]. rewrite drop_replicate. f_equal. lia.
  - destruct (Hprev E1) as (vc & Evc & Hne & Hfill). destruct (Hfill Hne) as (p & Hpad & Hrest). exists p. split; [done|].
    assert (0 <= sizes (vc_cells vc) <= sizes (vc_cells vc')) as Hle.
    { destruct (wt_write _ _ _ _ _ _ _ _ _ _ Hwr) as (node & k0 & Hw & Hk0 & _).
      destruct (inv_chunks _ (fo_inv _ _ _ _ _ _ Hf) _ _ Evc) as (_ & _ & HL0 & _). pose proof (layout_sizes _ HL0).
      destruct (v_write_chunk _ _ _ _ _ _ _ (fo_inv _ _ _ _ _ _ Hf) Hk0 Hw) as (vc2 & E2 & Hcase & _).
      rewrite Hvc' in E2. injection E2 as <-. fold k in Hcase. rewrite Evc in Hcase.
      destruct Hcase as [_ [[-> _]|[-> _]]]; [lia|]. rewrite sizes_app. simpl. lia. }
    replace (Z.to_nat (sizes (vc_cells vc'))) with (Z.to_nat (sizes (vc_cells vc)) + Z.to_nat (sizes (vc_cells vc') - sizes (vc_cells vc)))%nat by lia.
    rewrite <- drop_drop, Hrest, drop_replicate. f_equal. unfold BytesPerChunk. lia.
Qed.

(** A chunk the write did not touch. *)
Lemma aw_other nm S' j vc body data :
  (∀ addr i, i ≠ k → files (node_at S' addr) !! i = files (node_at S addr) !! i) →
  j ≠ k → (nm = name → id ∉ ci_id <$> vc_cells vc) →
  chunk_stored S j vc body ∧ chunk_contents A nm vc body ∧ chunk_filler vc body →
  chunk_stored S' j vc body ∧ chunk_contents (<[(name, id) := data]> A) nm vc body ∧ chunk_filler vc body.
Proof using All.
  intros Hfr Hj Hid (Hs & Hc & Hfl). unfold chunk_stored, chunk_contents in *. rewrite Hfr by done.
  split_and!; [done| |done]. rewrite Forall_forall in *. intros c Hin. rewrite lookup_insert_ne; [by apply Hc|].
  intros [= -> ->]. apply Hid; [done|]. by apply list_elem_of_fmap_2.
Qed.

(** The file that was written. *)
Lemma aw_file S' data base :
  sys_fm S' = fm' →
  (∀ addr i, i ≠ k → files (node_at S' addr) !! i = files (node_at S addr) !! i) →
  files (node_at S' (prefix +:+ vc_node vc')) !! k
    = Some (mkfile (splice (Z.to_nat (ci_off ci)) data base, vc_version vc')) →
  length (splice (Z.to_nat (ci_off ci)) data base) = Z.to_nat FILE_SIZE →
  chunk_contents (<[(name, id) := data]> A) name vc' (splice (Z.to_nat (ci_off ci)) data base) →
  chunk_filler vc' (splice (Z.to_nat (ci_off ci)) data base) →
  file_ok S' (<[(name, id) := data]> A) (n + 1) name f' v'.
Proof using All.
  intros Hfm Hfr Hst Hlen Hct Hfl. destruct aw_facts as (Hver & Hold & Hid & Hci & Hin & Hch & Hce).
  destruct (wt_write _ _ _ _ _ _ _ _ _ _ Hwr) as (node & k0 & Hw & Hk0 & _).
  pose proof (wt_inv _ _ _ _ _ _ _ _ _ _ Hwr) as Hv'. pose proof (wt_chunk _ _ _ _ _ _ _ _ _ _ Hwr) as Hvc'.
  split; try apply Hwr.
  - rewrite Hfm. apply Hwr.
  - by destruct (v_write_sized v id node k0 v' k ci (fo_inv _ _ _ _ _ _ Hf) Hk0 Hw (fo_sized _ _ _ _ _ _ Hf)).
  - intros j vc Hj Hz. destruct (decide (j = k)) as [->|Hne].
    + unfold k in Hj. rewrite Hvc' in Hj. simplify_eq. lia.
    + rewrite Hch in Hj by done. by apply (fo_zero _ _ _ _ _ _ Hf).
  - intros j vc Hj. destruct (decide (j = k)) as [->|Hne].
    + unfold k in Hj. rewrite Hvc' in Hj. simplify_eq. lia.
    + rewrite Hch in Hj by done. pose proof (fo_versions _ _ _ _ _ _ Hf _ _ Hj). lia.
  - intros j vc Hj. destruct (decide (j = k)) as [->|Hne].
    + unfold k in Hj. rewrite Hvc' in Hj. simplify_eq. eexists. split; [|exact (conj Hct Hfl)].
      unfold chunk_stored. rewrite (proj2 (Z.eqb_neq _ _)) by lia. done.
    + pose proof Hj as Hj'. rewrite Hch in Hj by done.
      destruct (fo_stored _ _ _ _ _ _ Hf j vc Hj) as (body & Hb).
      exists body. apply aw_other; try done. intros _ (c & Hc & Hcin)%list_elem_of_fmap_1.
      destruct (inv_chunks _ Hv' _ _ Hj') as (HF & _). rewrite Forall_forall in HF.
      destruct (HF c Hcin) as [Hck Hcid]. rewrite <- Hc in Hcid. apply Hne. unfold k. congruence.
  - intros j Hj. destruct (decide (j = id)) as [->|Hne]; [congruence|].
    rewrite lookup_insert_ne by congruence. rewrite Hce in Hj by done. by apply (fo_absent _ _ _ _ _ _ Hf).
  - destruct (decide (SheetMetaCellID = id)) as [E|Hne]; [rewrite E, Hid; by eexists|].
    rewrite Hce by done. apply Hf.
Qed.

(** Another file. *)
Lemma aw_other_file S' nm g u data :
  nm ≠ name → sys_fm S' = fm' →
  (∀ addr i, i ≠ k → files (node_at S' addr) !! i = files (node_at S addr) !! i) →
  Opened (sys_fm S) !! nm = Some g → file_ok S A n nm g u →
  v_chunks u !! k = None ∧ file_ok S' (<[(name, id) := data]> A) (n + 1) nm g u.
Proof using All.
  intros Hne Hfm Hfr Hg Hu.
  assert (v_chunks u !! k = None) as Hk.
  { destruct (wt_write _ _ _ _ _ _ _ _ _ _ Hwr) as (node & k0 & Hw & Hk0 & Hrow).
    destruct (v_write_chunk _ _ _ _ _ _ _ (fo_inv _ _ _ _ _ _ Hf) Hk0 Hw) as (vc2 & _ & Hcase & _).
    fold k in Hcase. destruct (v_chunks v !! k) as [vc|] eqn:E.
    - apply (map_Forall2_lookup_None _ _ _ _ (rep_chunks _ _ (fo_rep _ _ _ _ _ _ Hu))).
      apply (so_apart _ _ _ Hok name nm f g k); try done.
      destruct (map_Forall2_lookup_r _ _ _ _ _ (rep_chunks _ _ (fo_rep _ _ _ _ _ _ Hf)) E) as (l & -> & _).
      by eexists.
    - destruct Hcase as [-> _]. destruct (v_chunks u !! k0) eqn:Eu; [|done].
      destruct (fo_rows _ _ _ _ _ _ Hu k0) as [r Hr]; [by eexists|]. congruence. }
  split; [done|]. split; try apply Hu.
  - rewrite Hfm. intros j Hj. apply (wt_grow _ _ _ _ _ _ _ _ _ _ Hwr). by apply (fo_rows _ _ _ _ _ _ Hu).
  - intros j vc Hj. pose proof (fo_versions _ _ _ _ _ _ Hu _ _ Hj). lia.
  - intros j vc Hj. destruct (fo_stored _ _ _ _ _ _ Hu j vc Hj) as (body & Hb).
    exists body. apply aw_other; try done. intros ->. congruence.
  - intros j Hj. rewrite lookup_insert_ne by congruence. by apply (fo_absent _ _ _ _ _ _ Hu).
Qed.

Lemma aw_sys_ok s' st' data base :
  let S' := mkSys fm' (<[prefix +:+ vc_node vc' := s']> (sys_nodes S)) in
  ChunkSpec.good st' → files s' = ChunkSpec.dir st' →
  (∀ i, i ≠ k → files s' !! i = files (node_at S (prefix +:+ vc_node vc')) !! i) →
  files s' !! k = Some (mkfile (splice (Z.to_nat (ci_off ci)) data base, vc_version vc')) →
  length (splice (Z.to_nat (ci_off ci)) data base) = Z.to_nat FILE_SIZE →
  chunk_contents (<[(name, id) := data]> A) name vc' (splice (Z.to_nat (ci_off ci)) data base) →
  chunk_filler vc' (splice (Z.to_nat (ci_off ci)) data base) →
  sys_ok S' (<[(name, id) := data]> A) (n + 1).
Proof using All.
  intros S' Hg Hd Hfr Hst Hlen Hct Hfl.
  assert (∀ addr i, i ≠ k → files (node_at S' addr) !! i = files (node_at S addr) !! i) as Hfr'.
  { intros addr i Hi. unfold S'. rewrite node_at_insert. case_decide as E; [subst; by apply Hfr|done]. }
  assert (file_ok S' (<[(name, id) := data]> A) (n + 1) name f' v') as Hf'.
  { apply (aw_file S' data base); try done. unfold S'. by rewrite node_at_insert, decide_True. }
  assert (∀ nm g, nm ≠ name → Opened (sys_fm S) !! nm = Some g →
    ∃ u, v_chunks u !! k = None ∧ file_rep g u ∧ file_ok S' (<[(name, id) := data]> A) (n + 1) nm g u) as Hoth.
  { intros nm g Hne Hog. destruct (so_files _ _ _ Hok nm g Hog) as (u & Hu). exists u.
    destruct (aw_other_file S' nm g u data Hne eq_refl Hfr' Hog Hu) as [H1 H2].
    split_and!; try done. apply Hu. }
  destruct (wt_alloc _ _ _ _ _ _ _ _ _ _ Hwr) as [Ha1 Ha2]. destruct (so_alloc _ _ _ Hok) as [_ Hne0].
  destruct (wt_entries _ _ _ _ _ _ _ _ _ _ Hwr) as [He1 He2].
  pose proof (wt_opened _ _ _ _ _ _ _ _ _ _ Hwr) as Hop. destruct aw_facts as (_ & _ & _ & _ & _ & Hch & _).
  assert (∀ i, i ≠ k → is_Some (Chunks f' !! i) ↔ is_Some (Chunks f !! i)) as Hdom.
  { intros i Hi.
    pose proof (map_Forall2_lookup_None _ _ _ i (rep_chunks _ _ (wt_rep _ _ _ _ _ _ _ _ _ _ Hwr))) as D1.
    pose proof (map_Forall2_lookup_None _ _ _ i (rep_chunks _ _ (fo_rep _ _ _ _ _ _ Hf))) as D2.
    rewrite (Hch i Hi) in D1. rewrite <- !not_eq_None_Some. by rewrite D1, D2. }
  split; simpl.
  - split; [done|]. by rewrite Ha2.
  - rewrite Hop. intros nm g. rewrite lookup_insert_Some. intros [[<- <-]|[Hne Hog]]; [by exists v'|].
    destruct (Hoth nm g ltac:(done) Hog) as (u & _ & _ & Hu). by exists u.
  - rewrite Hop, (wt_fds _ _ _ _ _ _ _ _ _ _ Hwr). intros fd nm Hfd.
    apply lookup_insert_is_Some'. right. by apply (so_fds _ _ _ Hok fd).
  - rewrite Hop. intros n1 n2 f1 f2 i Hne. rewrite !lookup_insert_Some.
    assert (∀ nm g, nm ≠ name → Opened (sys_fm S) !! nm = Some g → Chunks g !! k = None) as Hkn.
    { intros nm g Hn1 Hog. destruct (Hoth nm g Hn1 Hog) as (u & U1 & U2 & _).
      by apply (map_Forall2_lookup_None _ _ _ _ (rep_chunks _ _ U2)). }
    intros [[<- <-]|[N1 H1]] [[<- <-]|[N2 H2]] Hi; try done.
    + destruct (decide (i = k)) as [->|Hik]; [by apply (Hkn n2)|].
      apply Hdom in Hi; [|done]. by apply (so_apart _ _ _ Hok name n2 f f2 i).
    + destruct (decide (i = k)) as [->|Hik]; [rewrite (Hkn n1 f1) in Hi by done; by destruct Hi|].
      apply eq_None_not_Some. intros Hx. apply Hdom in Hx; [|done].
      rewrite (so_apart _ _ _ Hok n1 name f1 f i) in Hx by done. by destruct Hx.
    + by apply (so_apart _ _ _ Hok n1 n2 f1 f2 i).
  - intros addr s. rewrite lookup_insert_Some. intros [[<- <-]|[_ Hs]]; [by exists st'|].
    by apply (so_nodes _ _ _ Hok addr).
  - intros addr i Hi. destruct (decide (i = k)) as [->|Hik].
    + apply (wt_rows _ _ _ _ _ _ _ _ _ _ Hwr). unfold k. rewrite (wt_chunk _ _ _ _ _ _ _ _ _ _ Hwr). by eexists.
    + apply (wt_grow _ _ _ _ _ _ _ _ _ _ Hwr). apply (so_known _ _ _ Hok addr).
      by rewrite <- (Hfr' addr i Hik).
  - intros nm. rewrite Hop, He1, lookup_insert_is_Some'. rewrite <- (so_entries _ _ _ Hok nm).
    split; [|by right]. intros [<-|?]; [by eexists|done].
  - rewrite He1. apply (so_live _ _ _ Hok).
  - rewrite He2, (wt_fds _ _ _ _ _ _ _ _ _ _ Hwr). destruct (so_next _ _ _ Hok) as [? ?]. split; [lia|done].
  - intros nm j. rewrite He1. destruct (decide ((name, id) = (nm, j))) as [[= <- <-]|Hne].
    + intros _. apply (so_entries _ _ _ Hok). by eexists.
    + rewrite lookup_insert_ne by done. apply (so_contents _ _ _ Hok).
Qed.
End after_write.
End system.

(** ** A concrete fail-over *)

(** The old master is gone, ZooKeeper still knows it for a while; the state counts
    what was asked. *)
Definition demo_zk (znode : string) : GoM nat (result string string) := λ k, Some (Ok (if (k <? 1)%nat then "old" else "new"), S k).
Definition demo_net (addr : string) (req : MasterReq) : GoM nat (result RpcError MasterRep) :=
  mret (if bool_decide (addr = "old") then Err DeadlineExceeded else Ok (RDelete Status_OK)).
Definition demo_dial (addr : string) : GoM nat (result string unit) := mret (Ok ()).
Definition demo_failover_client : Client := mkClient 2 "/master" "/data/" (mkConn (Some "old") 7) ∅.

Lemma master_failover_witness :
  ensureMasterRPCWithRetry demo_zk demo_dial demo_net id (MDeleteSheet "a") (demo_failover_client, 0%nat)
  = Some (Ok (RDelete Status_OK), (set_master demo_failover_client (mkConn (Some "new") 9), 2%nat)).
Proof.
  destruct (master_failover demo_zk demo_dial demo_net demo_failover_client "old" (MDeleteSheet "a") 0%nat (Err DeadlineExceeded) 0%nat
    eq_refl eq_refl) as (H & _).
  apply (H 1%nat (mkConn (Some "old") 8) DeadlineExceeded 1%nat "new" 2%nat (RDelete Status_OK) 2%nat);
    [|cbn; lia|reflexivity|reflexivity].
  eapply fails_call; [reflexivity|reflexivity|]. constructor.
Defined.
