(* ===== verification/FsCalls.v ===== *)
(** FsCalls: single calls of a client on the whole system.

    [Create], [Open], [File.WriteAt] and [File.ReadAt] are run through the client
    library, the master's handlers and the data nodes' handlers of EndToEnd, from
    any state that satisfies the invariant [sys_ok]. *)
From Stdlib Require Import ZArith Lia Strings.Byte.
From stdpp Require Import gmap strings list fin_maps.
From S2P Require Import Prelude.
From S2P Require Import DataNode.
From S2P Require Import DataNodeAlloc.
From S2P Require Import MasterData.
From S2P Require Import SheetFile.
From S2P Require Import SheetFileSpec.
From S2P Require Import SheetFileRefine.
From S2P Require Import JournalEntry.
From S2P Require Import CommonJournal.
From S2P Require Import FileMgr.
From S2P Require Import FileMgrProps.
From S2P Require Import MasterServer.
From S2P Require Import FsClient.
From S2P Require Import EndToEnd.
Open Scope Z_scope.

Section calls.
Context {db : Type} {DB : MetaDB db} {DL : MetaDBLaws db} {K : Type} {KO : Kafka K}.
Context {ME : Codec MasterEntry} {RO : RangeOrder} {PO : PadOk} {WX : Weather db K} {CW : Calm WX}.
Context (prefix : string).
Implicit Types (S : Sys db K) (c : Client).

(** ** Calls of the client library *)
Lemma master_call c S a req rep S' :
  conn (c_master c) = Some a → sys_master a req S = Some (Ok rep, S') →
  ensureMasterRPCWithRetry sys_zk sys_dial sys_master id req (c, S) = Some (Ok rep, (c, S')).
Proof.
  intros Hc Hr. unfold ensureMasterRPCWithRetry, mbind, GoM_bind, get_client, net. simpl.
  rewrite Hc. simpl. by rewrite Hr.
Qed.

(** A client that deletes a file stops the master: its handler is not implemented. *)
Theorem delete_stops_master c S name : is_Some (conn (c_master c)) → Delete sys_zk sys_dial sys_master id name (c, S) = None.
Proof. intros [a Ha]. unfold Delete, ensureMasterRPCWithRetry, mbind, GoM_bind, get_client, net. simpl. rewrite Ha. simpl. by rewrite sys_master_stops. Qed.

Lemma data_call c S g n a req rep S' :
  datanodeMap c !! g = Some n → conn n = Some a → sys_data a req S = Some (Ok rep, S') →
  ensureDataNodeRPCWithRetry sys_zk sys_dial sys_data id g req (c, S) = Some (Ok rep, (c, S')).
Proof.
  intros Hg Hc Hr. unfold ensureDataNodeRPCWithRetry, mbind, GoM_bind, get_client, net. simpl.
  rewrite Hg. simpl. rewrite Hc. simpl. by rewrite Hr.
Qed.

Lemma write_spin_ok c S p n a req S' fuel :
  datanodeMap c !! pb_Datanode p = Some n → conn n = Some a →
  sys_data a (DWrite req) S = Some (Ok (RWrite Status_OK), S') →
  write_spin sys_zk sys_dial sys_data id wx_done (Datatypes.S fuel) 0 p req (c, S) = Some (Ok (), (c, S')).
Proof.
  intros Hg Hc Hr. simpl. rewrite calm_done. unfold concurrentWriteChunk, mbind, GoM_bind.
  by rewrite (data_call c S _ n a (DWrite req) _ S' Hg Hc Hr).
Qed.

Lemma read_spin_stop c S p n a req st d fuel :
  datanodeMap c !! pb_Datanode p = Some n → conn n = Some a →
  sys_data a (DRead req) S = Some (Ok (RRead st d), S) → st ≠ Status_WrongVersion →
  read_spin sys_zk sys_dial sys_data id wx_done (Datatypes.S fuel) 0 p req (c, S)
  = Some (match st with
          | Status_OK => Ok d
          | Status_NotFound => Err ErrNotExist
          | s => Err (UnexpectedStatusError s)
          end, (c, S)).
Proof.
  intros Hg Hc Hr Hst. simpl. rewrite calm_done. unfold concurrentReadChunk, mbind, GoM_bind.
  rewrite (data_call c S _ n a (DRead req) _ S Hg Hc Hr). by destruct st.
Qed.

(** The chunks of groups the client has not met yet make it connect. *)
Definition connected c (g : string) : Prop := ∃ n, datanodeMap c !! g = Some n ∧ conn n = Some (prefix +:+ g).

Lemma check_all S ps : ∀ c, client_ok prefix c →
  ∃ c', checkNewDataNode sys_zk sys_dial ps (c, S) = Some (Ok (), (c', S)) ∧ client_ok prefix c'
    ∧ (∀ g, connected c g → connected c' g) ∧ ∀ p, p ∈ ps → connected c' (pb_Datanode p).
Proof.
  induction ps as [|p ps IH]; intros c Hc.
  { exists c. split_and!; try done. by intros p ?%elem_of_nil. }
  pose proof Hc as (Hm & Hp & Hd). cbn [checkNewDataNode]. unfold mbind, GoM_bind, get_client, net, put_client. cbn [fst snd].
  destruct (datanodeMap c !! pb_Datanode p) as [n|] eqn:E.
  - destruct (IH c Hc) as (c' & E' & Hc' & Hk & Hps). exists c'. split_and!; try done.
    intros q [->|Hq]%elem_of_cons; [|by apply Hps]. apply Hk. exists n. split; [done|by apply Hd].
  - set (c1 := set_datanode c (pb_Datanode p) (mkConn (Some (prefix +:+ pb_Datanode p)) 0)). destruct (IH c1) as (c' & E' & Hc' & Hk & Hps).
    { split; [done|]. split; [done|]. intros g m. cbn. rewrite lookup_insert_Some. intros [[<- <-]|[_ Hg]]; [done|by apply Hd]. }
    exists c'. unfold reAskDataNode, reAsk, mbind, GoM_bind. rewrite Hp, sys_zk_calm, sys_dial_calm. split_and!; [exact E'|done| |].
    + intros g (m & Hg & Hx). apply Hk. exists m. split; [|done]. cbn. rewrite lookup_insert_ne; [done|congruence].
    + intros q [->|Hq]%elem_of_cons; [|by apply Hps]. apply Hk. eexists. split; [apply lookup_insert_eq|done].
Qed.

Lemma check_one c S p :
  client_ok prefix c →
  ∃ c' n, checkNewDataNode sys_zk sys_dial [p] (c, S) = Some (Ok (), (c', S))
    ∧ client_ok prefix c' ∧ datanodeMap c' !! pb_Datanode p = Some n
    ∧ conn n = Some (prefix +:+ pb_Datanode p).
Proof.
  intros Hc. destruct (check_all S [p] c Hc) as (c' & E & Hc' & _ & Hp). destruct (Hp p) as (n & ? & ?); [set_solver|]. by exists c', n.
Qed.

Definition same_dir S S' : Prop :=
  Fds (sys_fm S') = Fds (sys_fm S) ∧ dom (Entries (sys_fm S')) = dom (Entries (sys_fm S))
  ∧ nextFd (sys_fm S') = nextFd (sys_fm S).

(** ** WriteAt *)

(** The data a well-formed request stores are the bytes of the cell. *)
Lemma request_bytes row col off k ver b padding :
  is_u32 row → is_u32 col →
  let p := if decide (length padding = 0%nat) then [x20] else padding in
  let ts := if (row =? SheetMetaCellRow) && (col =? SheetMetaCellCol) then FILE_SIZE else BLOCK_SIZE in
  stored_bytes {| wr_Id := k; wr_Offset := off; wr_Size := Z.of_nat (length b); wr_TargetSize := ts;
                  wr_Version := ver; wr_Padding := p; wr_Data := b |}
  = cell_bytes (GetCellID row col) b padding
  ∧ TargetSizeWrapper ts = cell_size (GetCellID row col) ∧ p ≠ [] ∧ 0 <= ts.
Proof.
  intros Hr Hc p ts. assert (TargetSizeWrapper ts = cell_size (GetCellID row col) ∧ 0 <= ts) as [Ht H0].
  { rewrite <- newCellSize_eq by done. unfold ts. by destruct (_ && _). }
  assert (p ≠ []) as Hp by (unfold p; destruct padding; done).
  split_and!; try done. unfold stored_bytes, cell_bytes. simpl wr_TargetSize. simpl wr_Size. simpl wr_Data.
  rewrite Ht. replace (take (Z.to_nat (Z.of_nat (length b)) `min` _) b)
    with (take (Z.to_nat (cell_size (GetCellID row col))) b).
  2:{ rewrite Nat2Z.id. destruct (decide (length b ≤ Z.to_nat (cell_size (GetCellID row col)))%nat).
      - rewrite Nat.min_l by done. by rewrite !take_ge by lia.
      - by rewrite Nat.min_r by lia. }
  f_equal. f_equal. unfold pad_byte, p. simpl. by destruct padding.
Qed.

Lemma cell_size_pos id : 0 < cell_size id.
Proof. destruct (cell_size_cases id) as [-> | ->]; done. Qed.

Lemma length_cell_bytes id b padding : length (cell_bytes id b padding) = Z.to_nat (cell_size id).
Proof. unfold cell_bytes. rewrite length_app, length_replicate, length_take. lia. Qed.

Lemma WriteAt_spec S A n c fuel fd name nm row col b padding :
  sys_ok prefix S A n → 0 <= n < 2 ^ 64 - 1 → client_ok prefix c →
  Fds (sys_fm S) !! fd = Some name → is_u32 row → is_u32 col → pad_ok (default x20 (head padding)) →
  ∃ c' S', sys_WriteAt (Datatypes.S fuel) (mkFile' fd nm) b row col padding (c, S)
           = Some (Ok (Z.of_nat (length b)), (c', S'))
    ∧ sys_ok prefix S' (<[(name, GetCellID row col) := cell_bytes (GetCellID row col) b padding]> A) (n + 1)
    ∧ client_ok prefix c' ∧ same_dir S S'.
Proof.
  intros Hok Hn Hcl Hfd Hr Hc Hpad. destruct (so_fds _ _ _ _ Hok _ _ Hfd) as [f Ho].
  destruct (so_files _ _ _ _ Hok _ _ Ho) as (v & Hf). pose proof (proj1 Hcl) as [a Ha].
  destruct (srv_WriteCell_spec prefix S A n fd name row col f v Hok Hfd Ho Hf Hr Hc)
    as (ci & vc' & v' & f' & fm' & Esrv & Hwr).
  set (id := GetCellID row col) in *. set (data := cell_bytes id b padding).
  destruct (aw_facts prefix S A n name id f f' v v' ci vc' fm' Hok Hn Ho Hf Hwr)
    as (Hver & Hold & Hid & Hci & Hin & _).
  destruct (aw_before prefix S A n name id f f' v v' ci vc' fm' Hok Hn Ho Hf Hwr) as (body & Hbefore).
  assert (ci_size ci = cell_size id) as Hsz.
  { destruct (wt_write _ _ _ _ _ _ _ _ _ _ Hwr) as (node & k0 & Hw & Hk0 & _).
    by destruct (v_write_sized v id node k0 v' _ ci (fo_inv _ _ _ _ _ _ _ Hf) Hk0 Hw (fo_sized _ _ _ _ _ _ _ Hf)). }
  destruct (request_bytes row col (ci_off ci) (ci_chunk ci) (vc_version vc') b padding Hr Hc) as (Hrb & Hts & Hp & Ht0).
  match type of Hrb with stored_bytes ?q = _ => set (req := q) in * end.
  destruct (inv_chunks _ (wt_inv _ _ _ _ _ _ _ _ _ _ Hwr) _ _ (wt_chunk _ _ _ _ _ _ _ _ _ _ Hwr)) as (_ & _ & HL & Hu).
  destruct (layout_bounds _ _ HL Hin) as [Hoff Hbd].
  assert (area_ok req) as Hreq.
  { split; simpl; try done; try lia. rewrite Hts. fold id. rewrite <- Hsz. by unfold BytesPerChunk in Hbd. }
  destruct (check_one c (mkSys fm' (sys_nodes S)) (mkPbChunk (ci_chunk ci) (vc_node vc') (vc_version vc') false) Hcl)
    as (c' & nc & Echk & Hcl' & Hg & Hconn). simpl in Hg, Hconn.
  destruct (node_write prefix S A n fm' (prefix +:+ vc_node vc') req body Hok Hreq) as
    (s' & st' & base & Edata & Hgood & Hdir & Hbl & Hbase & Hfirst & Hst & Hfr).
  { simpl. lia. }
  { simpl. destruct (vc_version vc' =? 1); [done|]. by destruct Hbefore as (? & ? & _). }
  rewrite Hrb in Hst. simpl in Hst, Hfr. fold id data in Hst.
  assert (length data = Z.to_nat (ci_size ci)) as Hdl by (rewrite Hsz; apply length_cell_bytes).
  assert (chunk_contents (<[(name, id) := data]> A) name vc' (splice (Z.to_nat (ci_off ci)) data base)) as Hct.
  { apply (aw_chunk prefix S A n name id f f' v v' ci vc' fm' Hok Hn Ho Hf Hwr); try done.
    intros Hne. rewrite Hbase by done. destruct (Z.eqb_spec (vc_version vc') 1); [done|].
    destruct Hbefore as (_ & _ & vc & ? & ? & ? & _). by exists vc. }
  assert (chunk_filler vc' (splice (Z.to_nat (ci_off ci)) data base)) as Hfl.
  { apply (aw_filler prefix S A n name id f f' v v' ci vc' fm' Hok Hn Ho Hf Hwr); try done.
    - intros Hne. rewrite Hbase by done. destruct (Z.eqb_spec (vc_version vc') 1); [done|].
      destruct Hbefore as (_ & _ & vc & ? & ? & _ & ?). by exists vc.
    - intros Hone. exists (default x20 (head padding)). split; [done|]. rewrite (Hfirst Hone). f_equal. unfold req, pad_byte. cbn [wr_Padding].
      by destruct padding. }
  exists c', (mkSys fm' (<[prefix +:+ vc_node vc' := s']> (sys_nodes S))). split_and!.
  - unfold sys_WriteAt, File_WriteAt, mbind, GoM_bind.
    rewrite (master_call c S a _ (RCell (mkCellReply Status_OK (Some (mkPbCell
      (mkPbChunk (ci_chunk ci) (vc_node vc') (vc_version vc') false) (ci_off ci) (ci_size ci)))))
      (mkSys fm' (sys_nodes S)) Ha).
    2:{ apply sys_master_calm. unfold master_handler, on_fm, mbind, GoM_bind. cbn [file_fd]. by rewrite Esrv. }
    cbn [cr_Status cr_Cell go_deref mret GoM_ret pc_Chunk]. rewrite Echk.
    match goal with |- context [write_spin _ _ _ _ _ _ _ _ ?q _] => change q with req end.
    by rewrite (write_spin_ok c' _ (mkPbChunk (ci_chunk ci) (vc_node vc') (vc_version vc') false) nc _ req _ fuel
      Hg Hconn Edata).
  - apply (aw_sys_ok prefix S A n name id f f' v v' ci vc' fm' Hok Hn Ho Hf Hwr s' st' data base); try done.
    rewrite length_splice; [done|]. rewrite Hbl, Hdl, FILE_SIZE_nat.
    pose proof (cell_size_pos id). unfold BytesPerChunk in Hbd. lia.
  - done.
  - unfold same_dir. simpl. destruct (wt_entries _ _ _ _ _ _ _ _ _ _ Hwr) as [-> ->]. split; [apply Hwr|done].
Qed.

(** ** A chunk whose data node is behind the master

    A write that fails on the data node after the master has raised the version of
    the chunk leaves the node a version behind.  From then on the node answers
    [WrongVersion] to every call on the chunk, and the loops of the client go on as
    long as its context is not done. *)
Section behind.
Context (c : Client) (p : PbChunk) (nc : nodeConn) (a : string) (body : list byte) (v : Z).
Context (Hg : datanodeMap c !! pb_Datanode p = Some nc) (Hc : conn nc = Some a).
Context (Hgood : good_chunk (body, v)).

Lemma behind_read S req : files (node_at S a) !! rr_Id req = Some (mkfile (body, v)) → v < rr_Version req →
  ∀ fuel i, read_spin sys_zk sys_dial sys_data id wx_done fuel i p req (c, S) = None.
Proof using CW Hg Hc Hgood.
  intros Hf Hv fuel. assert (sys_data a (DRead req) S = Some (Ok (RRead Status_WrongVersion []), S)) as Ed.
  { apply sys_read_calm. unfold ReadChunk. simpl. rewrite Hf, GetVersion_mkfile by done. simpl.
    by rewrite (proj2 (Z.leb_gt _ _)). }
  induction fuel as [|fuel IH]; intros i; [done|]. cbn [read_spin]. rewrite calm_done.
  unfold concurrentReadChunk, mbind, GoM_bind. rewrite (data_call c S _ nc a _ _ S Hg Hc Ed). apply IH.
Qed.

Lemma behind_write req : area_ok req → u64 (v + 1) ≠ wr_Version req →
  ∀ fuel i S, files (node_at S a) !! wr_Id req = Some (mkfile (body, v)) →
  write_spin sys_zk sys_dial sys_data id wx_done fuel i p req (c, S) = None.
Proof using CW Hg Hc Hgood.
  intros Hr Hv fuel. induction fuel as [|fuel IH]; intros i S Hf; [done|].
  set (s' := {| files := files (node_at S a);
                log := DataNode.log (node_at S a) ++ [ConstructWriteEntry req (stored_bytes req)] |}).
  assert (sys_data a (DWrite req) S
    = Some (Ok (RWrite Status_WrongVersion), mkSys (sys_fm S) (<[a := s']> (sys_nodes S)))) as Ed.
  { apply sys_data_calm. unfold data_handler, WriteChunk. rewrite calm_disk, GetPaddedData_ok by done.
    cbn [mbind option_bind]. rewrite commit_retry_ok by apply calm_commits. cbn [files]. rewrite Hf.
    cbn [open_err no_faults]. rewrite GetVersion_mkfile by done. cbn [snd].
    by rewrite (proj2 (Z.eqb_neq _ _) Hv). }
  cbn [write_spin]. rewrite calm_done. unfold concurrentWriteChunk, mbind, GoM_bind.
  rewrite (data_call c S _ nc a _ _ _ Hg Hc Ed). apply IH. by rewrite node_at_insert, decide_True.
Qed.
End behind.

(** A call on a cell of such a chunk never returns, however calm it is by then. *)
Lemma behind_ReadAt S c f b row col cell fm' body v :
  client_ok prefix c → srv_ReadCell (file_fd f) row col (sys_fm S) = Some (mkCellReply Status_OK (Some cell), fm') →
  files (node_at S (prefix +:+ pb_Datanode (pc_Chunk cell))) !! pb_Id (pc_Chunk cell) = Some (mkfile (body, v)) →
  good_chunk (body, v) → v < pb_Version (pc_Chunk cell) →
  ∀ fuel, sys_ReadAt fuel f b row col (c, S) = None.
Proof.
  intros Hcl E Hf Hgood Hv fuel. pose proof (proj1 Hcl) as [a Ha]. set (S1 := mkSys fm' (sys_nodes S)).
  assert (sys_master a (MReadCell (file_fd f) row col) S = Some (Ok (RCell (mkCellReply Status_OK (Some cell))), S1)) as Em.
  { apply sys_master_calm. unfold master_handler, on_fm, mbind, GoM_bind. by rewrite E. }
  unfold sys_ReadAt, File_ReadAt, mbind, GoM_bind. rewrite (master_call c S a _ _ _ Ha Em).
  cbn [cr_Status cr_Cell]. rewrite decide_False by (intros H; by apply H). cbn [go_deref mret GoM_ret].
  destruct (check_one c S1 (pc_Chunk cell) Hcl) as (c' & nc & -> & _ & Hg & Hconn).
  by rewrite (behind_read c' _ nc _ body v Hg Hconn Hgood S1).
Qed.

Lemma behind_WriteAt S c f b row col padding cell fm' body v :
  client_ok prefix c → is_u32 row → is_u32 col →
  srv_WriteCell (file_fd f) row col (sys_fm S) = Some (mkCellReply Status_OK (Some cell), fm') →
  files (node_at S (prefix +:+ pb_Datanode (pc_Chunk cell))) !! pb_Id (pc_Chunk cell) = Some (mkfile (body, v)) →
  good_chunk (body, v) → is_u64 (pb_Version (pc_Chunk cell)) → u64 (v + 1) ≠ pb_Version (pc_Chunk cell) →
  0 <= pc_Offset cell → pc_Offset cell + cell_size (GetCellID row col) <= FILE_SIZE →
  ∀ fuel, sys_WriteAt fuel f b row col padding (c, S) = None.
Proof.
  intros Hcl Hr Hco E Hf Hgood Hu Hv Ho Hb fuel. pose proof (proj1 Hcl) as [a Ha]. set (S1 := mkSys fm' (sys_nodes S)).
  assert (sys_master a (MWriteCell (file_fd f) row col) S = Some (Ok (RCell (mkCellReply Status_OK (Some cell))), S1)) as Em.
  { apply sys_master_calm. unfold master_handler, on_fm, mbind, GoM_bind. by rewrite E. }
  unfold sys_WriteAt, File_WriteAt, mbind, GoM_bind. rewrite (master_call c S a _ _ _ Ha Em).
  cbn [cr_Status cr_Cell go_deref mret GoM_ret].
  destruct (check_one c S1 (pc_Chunk cell) Hcl) as (c' & nc & -> & _ & Hg & Hconn).
  destruct (request_bytes row col (pc_Offset cell) (pb_Id (pc_Chunk cell)) (pb_Version (pc_Chunk cell)) b padding Hr Hco)
    as (_ & Hts & Hp & Ht0).
  rewrite (behind_write c' _ nc _ body v Hg Hconn Hgood); [done| |done|done].
  split; simpl; try done; [lia|by rewrite Hts].
Qed.

(** ** ReadAt *)
Definition meta_chunk (vc : VChunk) : bool := bool_decide (ci_id <$> vc_cells vc = [SheetMetaCellID]).
Definition pb_of (kv : Z * VChunk) : PbChunk := mkPbChunk kv.1 (vc_node kv.2) (vc_version kv.2) (meta_chunk kv.2).

Lemma pbChunk_spec f (c : Chunk) k vc : shows f c k vc → pbChunk c f = Some (pb_of (k, vc), f).
Proof.
  intros (H1 & H2 & H3 & [Hl Hs] & _). unfold pbChunk, holdsMeta, mbind, GoM_bind, pb_of, meta_chunk. cbn [fst snd].
  destruct (decide (s_len (Chunk_Cells c) = 1%nat)) as [E|E].
  - rewrite E in Hl. destruct (vc_cells vc) as [|x [|y l]]; [done| |done].
    destruct (Hs 0%nat x eq_refl) as (l' & cl & Hb & Hc & Hi).
    unfold slice_get, load_cell. rewrite decide_True by lia. rewrite Hb. cbn. rewrite Hc. cbn. rewrite H1, H2, H3.
    do 3 f_equal. unfold IsMeta. rewrite <- Hi. cbn. destruct (Z.eqb_spec (CellID cl) SheetMetaCellID) as [->|Hne]; [by rewrite bool_decide_true|].
    rewrite bool_decide_false; [done|]. by intros [= ?].
  - rewrite bool_decide_false; [cbn; by rewrite H1, H2, H3|]. intros Hx. apply (f_equal length) in Hx. rewrite length_fmap in Hx.
    cbn in Hx. lia.
Qed.

(** Reading leaves the master as it was, up to the copies of cells that
    [Snapshot] makes. *)
Record only_viewed (name : string) (f f' : SheetFile) (fm fm' : FileManager db K) : Prop := {
  ov_opened : Opened fm' = <[name := f']> (Opened fm);
  ov_view : same_view f f';
  ov_entries : Entries fm' = Entries fm;
  ov_fds : Fds fm' = Fds fm ∧ nextFd fm' = nextFd fm;
  ov_alloc : fm_alloc fm' = fm_alloc fm;
  ov_db : fm_db fm' = fm_db fm
}.

Lemma only_viewed_ok S A n name f f' fm' :
  sys_ok prefix S A n → Opened (sys_fm S) !! name = Some f →
  (∀ v, file_rep f v → file_rep f' v) →
  only_viewed name f f' (sys_fm S) fm' → sys_ok prefix (mkSys fm' (sys_nodes S)) A n.
Proof.
  intros Hok Ho Hrep [O1 O2 O3 [O4 O4'] O5 O6].
  assert (∀ nm g, Opened fm' !! nm = Some g → ∃ g0, Opened (sys_fm S) !! nm = Some g0
    ∧ Chunks g = Chunks g0 ∧ filename g = filename g0 ∧ ∀ v, file_rep g0 v → file_rep g v) as Hg.
  { intros nm g. rewrite O1, lookup_insert_Some. intros [[<- <-]|[_ Hg]]; [|by exists g].
    exists f. by destruct O2. }
  split; simpl; rewrite ?O3, ?O4, ?O4', ?O5, ?O6; try apply Hok.
  - intros nm g (g0 & Hg0 & _ & Hn & Hr)%Hg. destruct (so_files _ _ _ _ Hok _ _ Hg0) as (v & Hv).
    exists v. destruct Hv. split; simpl; rewrite ?O6; try done; [by apply Hr|congruence].
  - intros fd nm Hfd. rewrite O1. apply lookup_insert_is_Some'. right. by apply (so_fds _ _ _ _ Hok fd).
  - intros n1 n2 f1 f2 k Hne (g1 & H1 & C1 & _)%Hg (g2 & H2 & C2 & _)%Hg. rewrite C1, C2.
    by apply (so_apart _ _ _ _ Hok n1 n2).
  - intros nm. rewrite O1, lookup_insert_is_Some'. rewrite <- (so_entries _ _ _ _ Hok nm).
    split; [|by right]. intros [<-|?]; [by eexists|done].
Qed.

Lemma srv_ReadCell_spec S A n fd name row col f v :
  sys_ok prefix S A n → Fds (sys_fm S) !! fd = Some name → Opened (sys_fm S) !! name = Some f →
  file_ok prefix S A n name f v →
  ∃ r fm', srv_ReadCell fd row col (sys_fm S) = Some (r, fm')
    ∧ sys_ok prefix (mkSys fm' (sys_nodes S)) A n ∧ same_dir S (mkSys fm' (sys_nodes S))
    ∧ match v_get v (GetCellID row col) with
      | None => r = mkCellReply Status_Invalid None
      | Some (ci, vc) => r = mkCellReply Status_OK (Some (mkPbCell (pb_of (ci_chunk ci, vc)) (ci_off ci) (ci_size ci)))
      end.
Proof.
  intros Hok Hfd Ho Hf. set (fm := sys_fm S) in *.
  destruct (GetCellChunk_spec f v row col (fo_rep _ _ _ _ _ _ _ Hf) (fo_inv _ _ _ _ _ _ _ Hf))
    as (r & f' & E & R & V & Hr).
  set (fm1 := mkFM (Entries fm) (<[name := f']> (Opened fm)) (Fds fm) (nextFd fm)
                (fm_db fm) (fm_alloc fm) (journalWriter fm) (fm_kafka fm)).
  assert (ReadFileCell fd row col fm = Some (r, fm1)) as Hread.
  { unfold ReadFileCell, getFileByFd, mbind, GoM_bind, go_get. rewrite Hfd. cbn.
    unfold with_file, on_file. rewrite Ho. simpl. by rewrite E. }
  assert (sys_ok prefix (mkSys fm1 (sys_nodes S)) A n) as Hok1.
  { apply (only_viewed_ok S A n name f f'); try done. intros u Hu. eapply same_view_rep; try done. apply R. }
  unfold srv_ReadCell, mbind, GoM_bind. rewrite Hread. destruct (v_get v _) as [[ci vc]|].
  - destruct Hr as (cell & chunk & -> & Hi & _ & Hsh). pose proof (pbChunk_spec _ _ _ _ Hsh) as Hp.
    assert (in_file fd (pbChunk chunk) fm1 = Some (pb_of (ci_chunk ci, vc), fm1)) as Hin.
    { unfold in_file, mbind, GoM_bind, go_get. simpl. rewrite Hfd. simpl.
      unfold with_file, on_file. simpl. rewrite lookup_insert_eq. rewrite Hp. simpl. by rewrite insert_insert_eq. }
    rewrite Hin. eexists _, fm1. split; [done|]. split; [done|]. split; [done|]. by rewrite <- Hi.
  - subst r. eexists _, fm1. done.
Qed.

(** Reading a cell of a stored chunk. *)
Lemma node_read S g k vc body off size :
  chunk_stored prefix S k vc body → is_u64 (vc_version vc) → 0 <= size → 0 <= off →
  off + size <= BytesPerChunk →
  g = vc_node vc →
  let st := if vc_version vc =? 0 then Status_NotFound else Status_OK in
  let d := if vc_version vc =? 0 then [] else take (Z.to_nat size) (drop (Z.to_nat off) body) in
  sys_data (prefix +:+ g) (DRead {| rr_Id := k; rr_Offset := off; rr_Size := size;
                                    rr_Version := vc_version vc |}) S = Some (Ok (RRead st d), S)
  ∧ st ≠ Status_WrongVersion.
Proof.
  unfold chunk_stored. intros Hst Hu Hs Ho Hb ->. cbn zeta. split; [|by destruct (_ =? 0)].
  apply sys_read_calm. unfold ReadChunk. simpl open_err. cbn iota. simpl rr_Id.
  destruct (vc_version vc =? 0); simpl; [by rewrite Hst|]. destruct Hst as [-> Hl].
  rewrite GetVersion_mkfile by done. simpl. rewrite Z.leb_refl. unfold BytesPerChunk in Hb.
  rewrite size_allowed by (rewrite FILE_SIZE_val; lia).
  rewrite i64_small by (unfold is_i64; lia). by rewrite ReadAt_mkfile.
Qed.

Definition read_result (id : Z) (b : list byte) (o : option (list byte)) : result ClientError (Z * list byte) :=
  match o with
  | Some data => Ok (Z.of_nat (length data), copy_at 0 (length b) b data)
  | None => Err (if id =? SheetMetaCellID then ErrNotExist else UnexpectedStatusError Status_Invalid)
  end.

Lemma ReadAt_spec S A n c fuel fd name nm row col b :
  sys_ok prefix S A n → n < 2 ^ 64 → client_ok prefix c → Fds (sys_fm S) !! fd = Some name →
  ∃ c' S', sys_ReadAt (Datatypes.S fuel) (mkFile' fd nm) b row col (c, S)
           = Some (read_result (GetCellID row col) b (A !! (name, GetCellID row col)), (c', S'))
    ∧ sys_ok prefix S' A n ∧ client_ok prefix c' ∧ same_dir S S'.
Proof.
  intros Hok Hn Hcl Hfd. destruct (so_fds _ _ _ _ Hok _ _ Hfd) as [f Ho].
  destruct (so_files _ _ _ _ Hok _ _ Ho) as (v & Hf). pose proof (proj1 Hcl) as [a Ha].
  destruct (srv_ReadCell_spec S A n fd name row col f v Hok Hfd Ho Hf) as (r & fm' & Esrv & Hok' & Hfds & Hr).
  set (id := GetCellID row col) in *. set (S' := mkSys fm' (sys_nodes S)).
  assert (sys_master a (MReadCell fd row col) S = Some (Ok (RCell r), S')) as Em.
  { apply sys_master_calm. unfold master_handler, on_fm, mbind, GoM_bind. by rewrite Esrv. }
  unfold sys_ReadAt, File_ReadAt, mbind, GoM_bind. cbn [file_fd]. rewrite (master_call c S a _ _ _ Ha Em).
  destruct (v_get v id) as [[ci vc]|] eqn:G; last first.
  { subst r. cbn. exists c, S'. split_and!; try done.
    assert (v_cells v !! id = None) as Hvn.
    { destruct (v_cells v !! id) as [ci|] eqn:E; [|done]. exfalso.
      destruct (inv_cells _ (fo_inv _ _ _ _ _ _ _ Hf) _ _ E) as (_ & w & W1 & _).
      unfold v_get in G. rewrite E in G. simpl in G. by rewrite W1 in G. }
    rewrite (fo_absent _ _ _ _ _ _ _ Hf _ Hvn). unfold read_result.
    destruct (Z.eqb_spec id SheetMetaCellID) as [E|]; [|done].
    destruct (fo_meta _ _ _ _ _ _ _ Hf) as [x Hx]. congruence. }
  subst r. cbn [cr_Status cr_Cell]. rewrite decide_False by (intros H; by apply H).
  cbn [go_deref mret GoM_ret pc_Chunk]. set (p := pb_of (ci_chunk ci, vc)).
  destruct (check_one c S' p Hcl) as (c' & nc & Echk & Hcl' & Hg & Hconn). rewrite Echk.
  exists c', S'. destruct (v_get_inv _ _ _ _ (fo_inv _ _ _ _ _ _ _ Hf) G) as (G1 & G2 & G4 & G3).
  destruct (fo_stored _ _ _ _ _ _ _ Hf _ _ G2) as (body & Hst & Hct & _).
  destruct (inv_chunks _ (fo_inv _ _ _ _ _ _ _ Hf) _ _ G2) as (_ & _ & HL & Hu).
  destruct (layout_bounds _ _ HL G3) as [Hoff Hbd].
  pose proof (fo_sized _ _ _ _ _ _ _ Hf _ _ G1) as Hsz. pose proof (cell_size_pos id) as Hpos.
  unfold chunk_contents in Hct. rewrite Forall_forall in Hct. specialize (Hct ci G3). rewrite G4 in Hct.
  destruct (node_read S' (vc_node vc) (ci_chunk ci) vc body (ci_off ci) (ci_size ci)) as (Ed & Hne);
    try done; [lia|].
  match goal with |- context [read_spin _ _ _ _ _ _ _ _ ?q _] => change q with
    {| rr_Id := ci_chunk ci; rr_Offset := ci_off ci; rr_Size := ci_size ci; rr_Version := vc_version vc |} end.
  rewrite (read_spin_stop c' S' p nc _ _ _ _ fuel Hg Hconn Ed Hne). split; [|done]. rewrite Hct.
  destruct (Z.eqb_spec (vc_version vc) 0) as [E0|E0]; simpl.
  - rewrite (proj2 (Z.eqb_eq id SheetMetaCellID)); [done|].
    rewrite (fo_zero _ _ _ _ _ _ _ Hf _ _ G2 E0) in G3. apply list_elem_of_singleton in G3.
    rewrite <- G4, G3. done.
  - unfold chunk_stored in Hst. rewrite (proj2 (Z.eqb_neq _ _) E0) in Hst. destruct Hst as [_ Hl].
    rewrite length_take, length_drop, Hl, FILE_SIZE_nat. unfold BytesPerChunk in Hbd.
    rewrite i64_small by (unfold is_i64; lia). 
    by assert (Z.of_nat (Z.to_nat (ci_size ci) `min` (Z.to_nat 8192 - Z.to_nat (ci_off ci))) = ci_size ci) as -> by lia.
Qed.

(** ** Create and Open *)

(** The created file in a system that had no file of that name. *)
Lemma created_ok S A n name node k (fm' : FileManager db K) :
  sys_ok prefix S A n → n < 2 ^ 64 - 1 → Entries (sys_fm S) !! name = None →
  db_first_chunk (fm_db (sys_fm S)) k = None → rows_grow (fm_db (sys_fm S)) (fm_db fm') →
  rows_known (fm_db fm') (v_create node k) →
  alloc_wf (fm_alloc fm') ∧ dataNodes (fm_alloc fm') = dataNodes (fm_alloc (sys_fm S)) →
  (∃ e, Entries fm' = <[name := e]> (Entries (sys_fm S)) ∧ Recycled e = false) →
  Opened fm' = <[name := created_file name node k]> (Opened (sys_fm S)) →
  Fds fm' = <[nextFd (sys_fm S) := name]> (Fds (sys_fm S)) → nextFd fm' = u64 (nextFd (sys_fm S) + 1) →
  sys_ok prefix (mkSys fm' (sys_nodes S)) A (n + 1).
Proof.
  intros Hok Hn He Hk Hg Hrk [Ha1 Ha2] (e & He1 & He2) Ho Hfd Hnx.
  destruct (so_next _ _ _ _ Hok) as [Hn1 Hn2]. rewrite u64_small in Hnx by (unfold is_u64; lia).
  assert (Opened (sys_fm S) !! name = None) as Hon.
  { apply eq_None_not_Some. rewrite (so_entries _ _ _ _ Hok), He. by intros [? ?]. }
  assert (∀ nm g, nm ≠ name → Opened (sys_fm S) !! nm = Some g → Chunks g !! k = None) as Hck.
  { intros nm g _ Hog. destruct (so_files _ _ _ _ Hok _ _ Hog) as (u & Hu).
    apply (map_Forall2_lookup_None _ _ _ _ (rep_chunks _ _ (fo_rep _ _ _ _ _ _ _ Hu))).
    destruct (v_chunks u !! k) eqn:E; [|done].
    destruct (fo_rows _ _ _ _ _ _ _ Hu k) as [r Hr]; [by eexists|]. congruence. }
  assert (∀ i, is_Some (Chunks (created_file name node k) !! i) → i = k) as Hone.
  { intros i. simpl. intros [? [<- _]%lookup_singleton_Some]. done. }
  assert (Hnone : ∀ id, A !! (name, id) = None).
  { intros id. apply eq_None_not_Some. intros Hx. apply (so_contents _ _ _ _ Hok) in Hx.
    rewrite He in Hx. by destruct Hx. }
  split; simpl.
  - by rewrite Ha2; split; [|apply Hok].
  - rewrite Ho. intros nm g. rewrite lookup_insert_Some. intros [[<- <-]|[Hne Hog]].
    + exists (v_create node k). split; simpl; try done.
      * apply created_file_rep.
      * apply v_create_inv.
      * intros id ci Hx. simpl in Hx. apply lookup_singleton_Some in Hx as [<- <-]. done.
      * intros j vc Hx. simpl in Hx. apply lookup_singleton_Some in Hx as [<- <-]. done.
      * intros j vc Hx. simpl in Hx. apply lookup_singleton_Some in Hx as [<- <-]. simpl. lia.
      * intros j vc Hx. simpl in Hx. apply lookup_singleton_Some in Hx as [<- <-]. exists []. split_and!.
        -- unfold chunk_stored. simpl. apply eq_None_not_Some. intros Hx.
           apply (so_known _ _ _ _ Hok (prefix +:+ node) k) in Hx. rewrite Hk in Hx. by destruct Hx.
        -- apply Forall_singleton. simpl. apply Hnone.
        -- intros Hx. by destruct Hx.
    + destruct (so_files _ _ _ _ Hok nm g Hog) as (u & Hu). exists u. destruct Hu. split; try done.
      * intros j Hj. by apply Hg, fo_rows.
      * intros j vc Hj. apply fo_versions in Hj. lia.
  - rewrite Ho, Hfd. intros fd nm. rewrite lookup_insert_Some, lookup_insert_is_Some'.
    intros [[_ <-]|[_ Hx]]; [by left|right]. by apply (so_fds _ _ _ _ Hok fd).
  - rewrite Ho. intros n1 n2 f1 f2 i Hne. rewrite !lookup_insert_Some.
    intros [[<- <-]|[N1 H1]] [[<- <-]|[N2 H2]] Hi; try done.
    + apply Hone in Hi as ->. by apply (Hck n2).
    + apply eq_None_not_Some. intros Hx. apply Hone in Hx as ->. rewrite (Hck n1 f1) in Hi by done.
      by destruct Hi.
    + by apply (so_apart _ _ _ _ Hok n1 n2 f1 f2 i).
  - apply Hok.
  - intros addr i Hi. by apply Hg, (so_known _ _ _ _ Hok addr).
  - intros nm. rewrite Ho, He1, !lookup_insert_is_Some'. by rewrite (so_entries _ _ _ _ Hok nm).
  - rewrite He1. intros nm e'. rewrite lookup_insert_Some. intros [[_ <-]|[_ Hx]]; [done|].
    by apply (so_live _ _ _ _ Hok nm).
  - rewrite Hnx, Hfd. split; [lia|]. intros fd. rewrite lookup_insert_is_Some'.
    intros [<-|Hx%Hn2]; lia.
  - intros nm id Hx. rewrite He1. apply lookup_insert_is_Some'. right. by apply (so_contents _ _ _ _ Hok nm id).
Qed.

(** A step that changes nothing but the database and the allocator. *)
Lemma unchanged_ok S A n n' (fm' : FileManager db K) :
  sys_ok prefix S A n → n <= n' → Entries fm' = Entries (sys_fm S) → Opened fm' = Opened (sys_fm S) →
  Fds fm' = Fds (sys_fm S) → nextFd fm' = nextFd (sys_fm S) →
  rows_grow (fm_db (sys_fm S)) (fm_db fm') →
  alloc_wf (fm_alloc fm') ∧ dataNodes (fm_alloc fm') = dataNodes (fm_alloc (sys_fm S)) →
  sys_ok prefix (mkSys fm' (sys_nodes S)) A n'.
Proof.
  intros Hok Hn E1 E2 E3 E4 Hg [Ha1 Ha2]. split; simpl; rewrite ?E1, ?E2, ?E3, ?E4, ?Ha2; try apply Hok.
  - split; [done|apply Hok].
  - intros nm g Ho. destruct (so_files _ _ _ _ Hok nm g Ho) as (v & Hv). exists v. destruct Hv. split; try done.
    + intros j Hj. by apply Hg, fo_rows.
    + intros j vc Hj. apply fo_versions in Hj. lia.
  - intros addr k Hk. by apply Hg, (so_known _ _ _ _ Hok addr).
  - destruct (so_next _ _ _ _ Hok) as [? ?]. split; [lia|done].
Qed.

Lemma srv_CreateSheet_new S A n name :
  sys_ok prefix S A n → 0 <= n < 2 ^ 64 - 1 → Entries (sys_fm S) !! name = None →
  ∃ r fm', srv_CreateSheet name (sys_fm S) = Some (r, fm')
    ∧ sys_ok prefix (mkSys fm' (sys_nodes S)) A (n + 1)
    ∧ ((r = mkFdReply Status_OK (nextFd (sys_fm S))
        ∧ dom (Entries fm') = {[name]} ∪ dom (Entries (sys_fm S))
        ∧ Fds fm' = <[nextFd (sys_fm S) := name]> (Fds (sys_fm S)) ∧ nextFd fm' = nextFd (sys_fm S) + 1)
       ∨ (r = mkFdReply Status_Unavailable 0 ∧ Entries fm' = Entries (sys_fm S)
          ∧ Fds fm' = Fds (sys_fm S) ∧ nextFd fm' = nextFd (sys_fm S))).
Proof.
  intros Hok Hn He. set (fm := sys_fm S) in *. destruct (so_alloc _ _ _ _ Hok) as [Ha Hne]. fold fm in Ha, Hne.
  destruct (so_next _ _ _ _ Hok) as [Hnx _]. fold fm in Hnx.
  unfold srv_CreateSheet, CreateSheet, mbind, GoM_bind, go_get. rewrite He.
  destruct (CreateCellTableIfNotExists (fm_db fm) name) as [d1|e] eqn:Ht; last first.
  { assert (CreateSheetFile (fm_db fm) (fm_alloc fm) name = Some (Err (DBErr e), fm_alloc fm, fm_db fm)) as ->.
    { unfold CreateSheetFile. by rewrite Ht. }
    eexists _, _. split; [reflexivity|]. split; [|by right].
    apply (unchanged_ok S A n); try done; [lia|]. by intros j Hj. }
  destruct (next_node_Some _ Ha Hne) as [nd Hnd]. destruct (create_table_rows _ _ _ Ht) as [Hrow _].
  destruct (CreateSheetFile_spec (fm_db fm) d1 (fm_alloc fm) name Ha Ht) as (al' & d2 & Hal & Hcase).
  rewrite Hnd in Hcase. destruct Hcase as (cell & chunk & -> & Hrk & Hg & _ & _).
  pose proof (next_chunk_id_row d1 (Some nd)) as Hkrow. set (k := next_chunk_id d1 (Some nd)) in *.
  rewrite Hrow in Hkrow. assert (rows_grow (fm_db fm) d2) as Hg'.
  { intros j Hj. apply Hg. by rewrite Hrow. }
  cbn [go_deref mret GoM_ret go_modify].
  match goal with |- context [writeJournal ?je ?f0] => destruct (writeJournal_full je f0)
    as (rj & fm1 & Ej & E1 & E2 & E3 & E4 & E5 & E6);
    destruct (writeJournal_dir je f0) as (rj' & fm1' & Ej' & _ & _ & _ & _ & Herr) end.
  rewrite Ej in Ej'. injection Ej' as <- <-. rewrite Ej. simpl in E1, E2, E3, E4, E5, E6. destruct rj as [u|e].
  - eexists _, _. split; [simpl; rewrite E6; reflexivity|].
    split; [|left; simpl; rewrite ?E1, ?E3, ?E6].
    + eapply (created_ok S A n name nd k); simpl; rewrite ?E1, ?E2, ?E3, ?E4, ?E5, ?E6; try done; [lia|].
      eexists. split; [done|]. done.
    + split_and!; [done|by rewrite dom_insert_L|done|]. apply u64_small. unfold is_u64. lia.
  - rewrite (proj1 (Herr e eq_refl)). eexists _, _. split; [reflexivity|]. split; [|by right].
    apply (unchanged_ok S A n); rewrite ?E4, ?E5; try done; lia.
Qed.

Lemma srv_OpenSheet_known S A n name :
  sys_ok prefix S A n → 0 <= n < 2 ^ 64 - 1 → is_Some (Entries (sys_fm S) !! name) →
  ∃ fm', srv_OpenSheet name (sys_fm S) = Some (mkFdReply Status_OK (nextFd (sys_fm S)), fm')
    ∧ sys_ok prefix (mkSys fm' (sys_nodes S)) A (n + 1) ∧ Entries fm' = Entries (sys_fm S)
    ∧ Fds fm' = <[nextFd (sys_fm S) := name]> (Fds (sys_fm S)) ∧ nextFd fm' = nextFd (sys_fm S) + 1.
Proof.
  intros Hok Hn He. pose proof (proj2 (so_entries _ _ _ _ Hok name) He) as [f Ho]. destruct He as [e He].
  pose proof (so_live _ _ _ _ Hok name e He) as Hl. destruct (so_next _ _ _ _ Hok) as [Hnx Hfds].
  unfold srv_OpenSheet, OpenSheet, openFile, mbind, GoM_bind, go_get. rewrite He, Hl, Ho.
  eexists. split; [reflexivity|]. simpl. rewrite u64_small by (unfold is_u64; lia). split_and!; try done.
  split; simpl; try apply Hok.
  - intros nm g Hg. destruct (so_files _ _ _ _ Hok nm g Hg) as (v & Hv). exists v. destruct Hv. split; try done.
    intros j vc Hj. apply fo_versions in Hj. lia.
  - intros fd nm. rewrite lookup_insert_Some. intros [[_ <-]|[_ Hx]]; [by eexists|].
    by apply (so_fds _ _ _ _ Hok fd).
  - split; [lia|]. intros fd. rewrite lookup_insert_is_Some'. intros [<-|Hx%Hfds]; lia.
Qed.
End calls.
