(* ===== verification/SheetRead.v ===== *)
(** SheetRead: reading a whole sheet.

    [File.Read] asks the master for the chunks of the file, reads each of them from
    its data node and joins them ([connect]).  From any state that satisfies the
    invariant [sys_ok], what it returns holds the bytes of every cell of the sheet
    once, in some order, with padding between them, and the bytes of the MetaCell
    apart. *)
From Stdlib Require Import ZArith Lia Strings.Byte.
From stdpp Require Import gmap strings list fin_maps.
From S2P Require Import Prelude.
From S2P Require Import DataNode.
From S2P Require Import DataNodeAlloc.
From S2P Require Import MasterData.
From S2P Require Import SheetFile.
From S2P Require Import SheetFileSpec.
From S2P Require Import SheetFileRefine.
From S2P Require Import JournalEntry.
From S2P Require Import CommonJournal.
From S2P Require Import FileMgr.
From S2P Require Import FileMgrProps.
From S2P Require Import MasterServer.
From S2P Require Import FsClient.
From S2P Require Import EndToEnd.
From S2P Require Import FsCalls.
Open Scope Z_scope.

(** ** The text of a sheet *)

(** A piece of the data: a cell, or what is behind the cells of a chunk. *)
Abbreviation Piece := (option Z * list byte)%type.
Abbreviation pieces_text ps := (mjoin (snd <$> ps : list (list byte))).

Definition piece_ok {PO : PadOk} (A : gmap (string * Z) (list byte)) (name : string) (p : Piece) : Prop :=
  match p with
  | (Some id, d) => A !! (name, id) = Some d
  | (None, d) => ∃ k b, pad_ok b ∧ d = replicate k b
  end.

(** The data of a sheet: each of its cells once. *)
Definition sheet_text {PO : PadOk} (A : gmap (string * Z) (list byte)) (name : string) (data : list byte) : Prop :=
  ∃ ps : list Piece, data = pieces_text ps ∧ Forall (piece_ok A name) ps ∧ NoDup (omap fst ps)
    ∧ ∀ id, id ∈ omap fst ps ↔ id ≠ SheetMetaCellID ∧ is_Some (A !! (name, id)).

(** ** Slots in the order of their offsets *)
Definition slot (body : list byte) (ci : CellInfo) : list byte := take (Z.to_nat (ci_size ci)) (drop (Z.to_nat (ci_off ci)) body).

Lemma slots_join body : ∀ cs i, Forall (λ c, ci_size c = MaxBytesPerCell) cs →
  ci_off <$> cs = (λ j, Z.of_nat j * MaxBytesPerCell) <$> seq i (length cs) →
  mjoin (slot body <$> cs) = take (Z.to_nat (sizes cs)) (drop (Z.to_nat (Z.of_nat i * MaxBytesPerCell)) body).
Proof.
  induction cs as [|c cs IH]; intros i Hs Ho; [done|]. apply Forall_cons in Hs as [Hc Hs]. cbn in Ho. injection Ho as Hoc Ho.
  change (slot body c ++ mjoin (slot body <$> cs) = take (Z.to_nat (sizes (c :: cs))) (drop (Z.to_nat (Z.of_nat i * MaxBytesPerCell)) body)).
  rewrite (IH (Datatypes.S i) Hs Ho). unfold slot. rewrite Hoc. change (sizes (c :: cs)) with (ci_size c + sizes cs). rewrite !Hc.
  pose proof (sizes_uniform cs Hs) as Hu. rewrite MaxBytesPerCell_val in *.
  replace (Z.to_nat (2048 + sizes cs)) with (Z.to_nat 2048 + Z.to_nat (sizes cs))%nat by lia.
  replace (Z.to_nat (Z.of_nat (Datatypes.S i) * 2048)) with (Z.to_nat (Z.of_nat i * 2048) + Z.to_nat 2048)%nat by lia.
  rewrite <- drop_drop. by rewrite take_take_drop.
Qed.

Lemma layout_order cs : layout cs → (∀ c, c ∈ cs → ci_size c ≠ BytesPerChunk) →
  ∃ cs', cs' ≡ₚ cs ∧ ∀ body, mjoin (slot body <$> cs') = take (Z.to_nat (sizes cs)) body.
Proof.
  intros [(c & -> & _ & Hs)|(Hl & Hs & Ho)] Hne; [by destruct (Hne c); [set_solver|]|].
  symmetry in Ho. apply Permutation_map_inv in Ho as (cs' & Ho & Hp). exists cs'. split; [by symmetry|]. intros body.
  assert (sizes cs = sizes cs') as ->.
  { rewrite !sizes_uniform by (done || by rewrite <- Hp). by rewrite Hp. }
  rewrite (slots_join body cs' 0); [by rewrite drop_0|by rewrite <- Hp|]. rewrite <- (Permutation_length Hp). symmetry. exact Ho.
Qed.

Section sheet.
Context {db : Type} {DB : MetaDB db} {DL : MetaDBLaws db} {K : Type} {KO : Kafka K}.
Context {ME : Codec MasterEntry} {RO : RangeOrder} {PO : PadOk} {WX : Weather db K} {CW : Calm WX}.
Context (prefix : string).
Implicit Types (S : Sys db K) (c : Client).

Definition sys_Read := File_Read (W := Sys db K) sys_zk sys_dial sys_master sys_data id wx_done.

(** ** The master's part *)
Lemma pbChunks_spec f cs vs : Forall2 (λ ch kv, shows f ch kv.1 kv.2) cs vs → pbChunks cs f = Some (pb_of <$> vs, f).
Proof.
  induction 1 as [|ch [k vc] cs vs Hs _ IH]; [done|]. cbn [pbChunks]. unfold mbind, GoM_bind. rewrite (pbChunk_spec _ _ _ _ Hs), IH. done.
Qed.

Lemma srv_ReadSheet_spec S A n fd name f v :
  sys_ok prefix S A n → Fds (sys_fm S) !! fd = Some name → Opened (sys_fm S) !! name = Some f → file_ok prefix S A n name f v →
  ∃ vs fm', srv_ReadSheet fd (sys_fm S) = Some (mkReadSheetReply Status_OK (pb_of <$> vs), fm')
    ∧ vs ≡ₚ map_to_list (v_chunks v) ∧ sys_ok prefix (mkSys fm' (sys_nodes S)) A n ∧ same_dir S (mkSys fm' (sys_nodes S))
    ∧ ∃ f', file_ok prefix (mkSys fm' (sys_nodes S)) A n name f' v.
Proof.
  intros Hok Hfd Ho Hf. set (fm := sys_fm S) in *.
  destruct (GetAllChunks_spec f v (fo_rep _ _ _ _ _ _ _ Hf)) as (cs & f' & vs & E & R & V & Hp & Hsh).
  set (fm1 := mkFM (Entries fm) (<[name := f']> (Opened fm)) (Fds fm) (nextFd fm)
                (fm_db fm) (fm_alloc fm) (journalWriter fm) (fm_kafka fm)).
  exists vs, fm1. split_and!; [|done| |done|].
  - assert (ReadSheet fd fm = Some (Ok cs, fm1)) as Hread.
    { unfold ReadSheet, getFileByFd, mbind, GoM_bind, go_get. rewrite Hfd. cbn. unfold with_file, on_file. rewrite Ho. simpl. by rewrite E. }
    assert (in_file fd (pbChunks cs) fm1 = Some (pb_of <$> vs, fm1)) as Hin.
    { unfold in_file, mbind, GoM_bind, go_get. simpl. rewrite Hfd. simpl.
      unfold with_file, on_file. simpl. rewrite lookup_insert_eq, (pbChunks_spec _ _ _ Hsh). simpl. by rewrite insert_insert_eq. }
    unfold srv_ReadSheet, mbind, GoM_bind. by rewrite Hread, Hin.
  - apply (only_viewed_ok prefix S A n name f f'); try done. intros u Hu. eapply same_view_rep; try done. apply R.
  - exists f'. destruct Hf. split; try done. by rewrite (sv_name _ _ V).
Qed.

(** ** The data nodes' part *)
Section chunks.
Context (S : Sys db K) (A : gmap (string * Z) (list byte)) (n : Z) (name : string) (f : SheetFile) (v : VFile).
Context (Hf : file_ok prefix S A n name f v).

(** A chunk of the MetaCell: nothing is stored before the first write. *)
Lemma meta_chunk_stored k vc : v_chunks v !! k = Some vc → meta_chunk vc = true →
  ∃ body, chunk_stored prefix S k vc body ∧ A !! (name, SheetMetaCellID) = if vc_version vc =? 0 then None else Some body.
Proof using Hf.
  intros Hk Hm. apply bool_decide_eq_true in Hm. destruct (fo_stored _ _ _ _ _ _ _ Hf _ _ Hk) as (body & Hst & Hct & _).
  exists body. split; [done|]. destruct (inv_chunks _ (fo_inv _ _ _ _ _ _ _ Hf) _ _ Hk) as (HF & _ & HL & _).
  destruct (vc_cells vc) as [|c [|c' l]] eqn:Ec; [done| |done]. injection Hm as Hid. rewrite Forall_singleton in HF. destruct HF as [_ Hc].
  unfold chunk_contents in Hct. rewrite Ec in Hct. rewrite Forall_singleton in Hct. rewrite Hid in Hct, Hc.
  pose proof (fo_sized _ _ _ _ _ _ _ Hf _ _ Hc) as Hs. rewrite Hct. unfold chunk_stored in Hst.
  destruct (vc_version vc =? 0); [done|]. destruct Hst as [_ Hl]. f_equal.
  destruct HL as [(d & [= ->] & -> & _)|(_ & Hu & _)].
  - rewrite drop_0, take_ge; [done|]. rewrite Hl, Hs. done.
  - rewrite Forall_singleton in Hu. rewrite Hs, MaxBytesPerCell_val in Hu. done.
Qed.

(** Any other chunk: its cells, and padding. *)
Lemma cell_chunk_stored k vc : v_chunks v !! k = Some vc → meta_chunk vc = false →
  ∃ ps : list Piece, chunk_stored prefix S k vc (pieces_text ps) ∧ vc_version vc ≠ 0
    ∧ Forall (piece_ok A name) ps ∧ omap fst ps ≡ₚ ci_id <$> vc_cells vc.
Proof using Hf.
  intros Hk Hm. apply bool_decide_eq_false in Hm.
  destruct (fo_stored _ _ _ _ _ _ _ Hf _ _ Hk) as (body & Hst & Hct & Hfl).
  destruct (inv_chunks _ (fo_inv _ _ _ _ _ _ _ Hf) _ _ Hk) as (HF & _ & HL & _).
  assert (vc_version vc ≠ 0) as Hv.
  { intros E. apply Hm. by rewrite (fo_zero _ _ _ _ _ _ _ Hf _ _ Hk E). }
  destruct (Hfl Hv) as (p & Hp & Hrest). unfold chunk_contents in Hct. rewrite (proj2 (Z.eqb_neq _ _) Hv) in Hct.
  destruct (layout_order _ HL) as (cs & Hcs & Hjoin).
  { intros c Hc Hs. apply Hm. rewrite Forall_forall in HF. destruct (HF c Hc) as [_ Hid].
    pose proof (fo_sized _ _ _ _ _ _ _ Hf _ _ Hid) as Hs'. rewrite Hs in Hs'. unfold cell_size in Hs'.
    destruct (Z.eqb_spec (ci_id c) SheetMetaCellID) as [E|]; [|done].
    destruct HL as [(d & Ed & _)|(_ & Hu & _)]; [rewrite Ed in Hc |- *; apply list_elem_of_singleton in Hc as <-; cbn; by rewrite E|].
    rewrite Forall_forall in Hu. rewrite (Hu c Hc), MaxBytesPerCell_val in Hs. done. }
  set (ps := ((λ ci, (Some (ci_id ci), slot body ci)) <$> cs) ++ [(None, drop (Z.to_nat (sizes (vc_cells vc))) body)] : list Piece).
  assert (pieces_text ps = body) as Hb.
  { unfold ps. rewrite fmap_app, join_app, <- list_fmap_compose. change (snd ∘ _) with (slot body). rewrite Hjoin.
    cbn. rewrite app_nil_r. apply take_drop. }
  exists ps. rewrite Hb. split_and!; [done|done| |].
  - unfold ps. apply Forall_app. split; [|apply Forall_singleton; cbn; eauto].
    apply Forall_fmap. rewrite Hcs. done.
  - unfold ps. rewrite omap_app. cbn [omap list_omap]. rewrite app_nil_r, <- Hcs. clear. induction cs as [|x cs IH]; [done|]. cbn. by rewrite IH.
Qed.

(** What the chunks contribute to the two parts of the result. *)
Definition chunk_ids (kv : Z * VChunk) : list Z := if meta_chunk kv.2 then [] else ci_id <$> vc_cells kv.2.
Definition chunk_meta (m : list byte) (kv : Z * VChunk) : list byte :=
  if meta_chunk kv.2 then default m (A !! (name, SheetMetaCellID)) else m.

Lemma worker_call c p fuel acc st d : connected prefix c (pb_Datanode p) →
  sys_data (prefix +:+ pb_Datanode p) (DRead {| rr_Id := pb_Id p; rr_Offset := 0; rr_Size := FILE_SIZE; rr_Version := pb_Version p |}) S
  = Some (Ok (RRead st d), S) → st = Status_OK ∨ st = Status_NotFound ∧ pb_HoldsMeta p = true → ra_cancel acc = false →
  read_worker sys_zk sys_dial sys_data id wx_done (Datatypes.S fuel) 0 p acc (c, S)
  = Some (if bool_decide (st = Status_NotFound) then acc
          else if pb_HoldsMeta p then mkReadAcc (ra_data acc) d (ra_err acc) (ra_cancel acc)
          else mkReadAcc (ra_data acc ++ d) (ra_meta acc) (ra_err acc) (ra_cancel acc), (c, S)).
Proof.
  intros (nc & Hg & Hconn) Ed Hst Hca. cbn [read_worker]. rewrite calm_done. cbn [orb]. rewrite Hca. unfold concurrentReadChunk, mbind, GoM_bind.
  rewrite (data_call c S _ nc _ _ _ S Hg Hconn Ed). by destruct Hst as [->|[-> ->]].
Qed.

Lemma read_worker_ok c kv fuel acc : v_chunks v !! kv.1 = Some kv.2 → connected prefix c (vc_node kv.2) → ra_err acc = None ∧ ra_cancel acc = false →
  ∃ ps : list Piece, read_worker sys_zk sys_dial sys_data id wx_done (Datatypes.S fuel) 0 (pb_of kv) acc (c, S)
    = Some (mkReadAcc (ra_data acc ++ pieces_text ps) (chunk_meta (ra_meta acc) kv) None false, (c, S))
    ∧ Forall (piece_ok A name) ps ∧ omap fst ps ≡ₚ chunk_ids kv.
Proof using CW Hf.
  destruct kv as [k vc]. destruct acc as [dt mt e ca]. cbn [fst snd ra_err ra_cancel ra_data ra_meta]. intros Hk Hc [-> ->].
  destruct (inv_chunks _ (fo_inv _ _ _ _ _ _ _ Hf) _ _ Hk) as (_ & _ & _ & Hu). unfold chunk_ids, chunk_meta. cbn [snd].
  assert (∀ body, chunk_stored prefix S k vc body → let st := if vc_version vc =? 0 then Status_NotFound else Status_OK in
    sys_data (prefix +:+ vc_node vc) (DRead {| rr_Id := k; rr_Offset := 0; rr_Size := FILE_SIZE; rr_Version := vc_version vc |}) S
    = Some (Ok (RRead st (if vc_version vc =? 0 then [] else body)), S)) as Hread.
  { intros body Hst. destruct (node_read prefix S (vc_node vc) k vc body 0 FILE_SIZE Hst Hu) as [Ed _]; try done. rewrite Ed. do 4 f_equal.
    unfold chunk_stored in Hst. destruct (vc_version vc =? 0); [done|]. rewrite drop_0, take_ge; [done|]. destruct Hst as [_ ->]. done. }
  destruct (meta_chunk vc) eqn:Hm.
  - destruct (meta_chunk_stored k vc Hk Hm) as (body & Hst & HA). exists []. split; [|done].
    erewrite (worker_call c (pb_of (k, vc)) fuel); [|done|exact (Hread body Hst)| |done].
    + cbn [pb_of pb_HoldsMeta snd]. rewrite Hm, HA. cbn. rewrite app_nil_r. by destruct (vc_version vc =? 0).
    + cbn [pb_of pb_HoldsMeta snd]. destruct (vc_version vc =? 0); auto.
  - destruct (cell_chunk_stored k vc Hk Hm) as (ps & Hst & Hv & Hps & Hids). exists ps. split; [|done]. specialize (Hread _ Hst).
    apply Z.eqb_neq in Hv. rewrite Hv in Hread.
    erewrite (worker_call c (pb_of (k, vc)) fuel); [|done|exact Hread|by left|done].
    cbn [pb_of pb_HoldsMeta snd]. by rewrite Hm.
Qed.

Lemma read_workers_ok c fuel : ∀ kvs acc, (∀ kv, kv ∈ kvs → v_chunks v !! kv.1 = Some kv.2) →
  (∀ kv, kv ∈ kvs → connected prefix c (vc_node kv.2)) → ra_err acc = None ∧ ra_cancel acc = false →
  ∃ ps : list Piece, read_workers sys_zk sys_dial sys_data id wx_done (Datatypes.S fuel) (pb_of <$> kvs) acc (c, S)
    = Some (mkReadAcc (ra_data acc ++ pieces_text ps) (foldl chunk_meta (ra_meta acc) kvs) None false, (c, S))
    ∧ Forall (piece_ok A name) ps ∧ omap fst ps ≡ₚ kvs ≫= chunk_ids.
Proof using CW DL Hf.
  induction kvs as [|kv kvs IH]; intros acc Hk Hc Hacc.
  { exists []. split; [|done]. cbn. rewrite app_nil_r. destruct acc; cbn in *. by destruct Hacc as [-> ->]. }
  destruct (read_worker_ok c kv fuel acc) as (ps & E & Hps & Hids); [apply Hk; set_solver|apply Hc; set_solver|done|].
  destruct (IH (mkReadAcc (ra_data acc ++ pieces_text ps) (chunk_meta (ra_meta acc) kv) None false)) as (qs & E' & Hqs & Hids');
    [intros; apply Hk; set_solver|intros; apply Hc; set_solver|done|].
  exists (ps ++ qs). cbn [fmap list_fmap read_workers]. unfold mbind at 1, GoM_bind at 1. rewrite E. split_and!.
  - fold (fmap (M := list) pb_of kvs). rewrite E'. cbn [ra_data ra_meta foldl]. by rewrite fmap_app, join_app, app_assoc.
  - by apply Forall_app.
  - rewrite omap_app, Hids, Hids'. done.
Qed.

(** All chunks together hold every cell once, the MetaCell apart. *)
Lemma chunk_ids_all vs : vs ≡ₚ map_to_list (v_chunks v) →
  NoDup (vs ≫= chunk_ids) ∧ ∀ id, id ∈ vs ≫= chunk_ids ↔ id ≠ SheetMetaCellID ∧ is_Some (A !! (name, id)).
Proof using Hf.
  intros Hp. pose proof (fo_inv _ _ _ _ _ _ _ Hf) as Hinv.
  assert (∀ kv, kv ∈ vs ↔ v_chunks v !! kv.1 = Some kv.2) as Hin.
  { intros [k vc]. rewrite Hp. apply elem_of_map_to_list. }
  assert (∀ kv id, v_chunks v !! kv.1 = Some kv.2 → id ∈ chunk_ids kv →
    meta_chunk kv.2 = false ∧ ∃ ci, v_cells v !! id = Some ci ∧ ci ∈ vc_cells kv.2 ∧ ci_id ci = id ∧ ci_chunk ci = kv.1) as Hcell.
  { intros [k vc] id Hk. unfold chunk_ids. cbn [fst snd] in *. destruct (meta_chunk vc) eqn:Em; [by intros ?%elem_of_nil|].
    intros (ci & -> & Hci)%list_elem_of_fmap_1. split; [done|]. exists ci. destruct (inv_chunks _ Hinv _ _ Hk) as (HF & _).
    rewrite Forall_forall in HF. by destruct (HF ci Hci). }
  split.
  - apply NoDup_bind.
    + intros kv kv' id H1%Hin H2%Hin Hi1 Hi2. destruct (Hcell kv id H1 Hi1) as (_ & ci & E1 & _ & _ & C1).
      destruct (Hcell kv' id H2 Hi2) as (_ & ci' & E2 & _ & _ & C2). destruct kv, kv'. cbn in *. simplify_eq. congruence.
    + intros [k vc] Hk%Hin. unfold chunk_ids. cbn [fst snd] in *. destruct (meta_chunk vc); [constructor|].
      apply (inv_chunks _ Hinv _ _ Hk).
    + rewrite Hp. apply NoDup_map_to_list.
  - intros id. rewrite list_elem_of_bind. split.
    + intros (kv & Hi & Hk%Hin). destruct (Hcell kv id Hk Hi) as (Hm & ci & E & Hci & <- & Hck). split.
      * intros Hid. apply bool_decide_eq_false in Hm. apply Hm. destruct (inv_chunks _ Hinv _ _ Hk) as (_ & _ & HL & _).
        pose proof (fo_sized _ _ _ _ _ _ _ Hf _ _ E) as Hs. rewrite Hid in Hs. 
        destruct HL as [(d & Ed & _)|(_ & Hu & _)]; [rewrite Ed in Hci |- *; apply list_elem_of_singleton in Hci as <-; cbn; by rewrite Hid|].
        rewrite Forall_forall in Hu. rewrite (Hu ci Hci), MaxBytesPerCell_val in Hs. done.
      * destruct (cell_chunk_stored kv.1 kv.2 Hk Hm) as (ps & _ & _ & Hps & Hids).
        assert (ci_id ci ∈ omap fst ps) as Hx by (rewrite Hids; by apply list_elem_of_fmap_2).
        apply list_elem_of_omap in Hx as ([o d] & Hx & Ho). cbn in Ho. subst o. rewrite Forall_forall in Hps. specialize (Hps _ Hx).
        by exists d.
    + intros [Hid HA]. destruct (v_cells v !! id) as [ci|] eqn:Ec; [|by rewrite (fo_absent _ _ _ _ _ _ _ Hf _ Ec) in HA; destruct HA].
      destruct (inv_cells _ Hinv _ _ Ec) as (Hci & vc & Hk & Hmem). exists (ci_chunk ci, vc). split; [|by apply Hin].
      unfold chunk_ids. cbn [snd]. destruct (meta_chunk vc) eqn:Em.
      * apply bool_decide_eq_true in Em. assert (ci_id ci ∈ [SheetMetaCellID]) as Hx by (rewrite <- Em; by apply list_elem_of_fmap_2).
        apply list_elem_of_singleton in Hx. congruence.
      * rewrite <- Hci. by apply list_elem_of_fmap_2.
Qed.

Lemma chunk_meta_all vs : vs ≡ₚ map_to_list (v_chunks v) → foldl chunk_meta [] vs = default [] (A !! (name, SheetMetaCellID)).
Proof using Hf.
  intros Hp. pose proof (fo_inv _ _ _ _ _ _ _ Hf) as Hinv.
  assert (∃ kv, kv ∈ vs ∧ meta_chunk kv.2 = true) as (kv & Hkv & Hm).
  { destruct (fo_meta _ _ _ _ _ _ _ Hf) as [ci Hci]. destruct (inv_cells _ Hinv _ _ Hci) as (Hid & vc & Hk & Hmem).
    exists (ci_chunk ci, vc). split; [rewrite Hp; by apply elem_of_map_to_list|]. cbn. apply bool_decide_eq_true.
    destruct (inv_chunks _ Hinv _ _ Hk) as (_ & _ & HL & _). pose proof (fo_sized _ _ _ _ _ _ _ Hf _ _ Hci) as Hs.
    destruct HL as [(d & Ed & _)|(_ & Hu & _)]; [rewrite Ed in Hmem |- *; apply list_elem_of_singleton in Hmem as <-; cbn; by rewrite Hid|].
    rewrite Forall_forall in Hu. rewrite (Hu ci Hmem), MaxBytesPerCell_val in Hs. done. }
  clear Hp. destruct (A !! (name, SheetMetaCellID)) as [d|] eqn:E; cbn [default].
  - assert (∀ l, foldl chunk_meta d l = d) as Hstay.
    { induction l as [|x l IH]; [done|]. cbn. unfold chunk_meta at 2. rewrite E. by destruct (meta_chunk x.2). }
    generalize (@nil byte). induction vs as [|x vs IH]; intros m; [by apply elem_of_nil in Hkv|]. cbn [foldl].
    apply elem_of_cons in Hkv as [->|Hin]; [|by apply IH]. unfold chunk_meta at 2. rewrite Hm, E. apply Hstay.
  - clear Hkv. induction vs as [|x vs IH]; [done|]. cbn [foldl]. unfold chunk_meta at 2. rewrite E. by destruct (meta_chunk x.2).
Qed.
End chunks.

(** ** The whole call *)
Lemma Read_spec S A n c fuel fd name nm :
  sys_ok prefix S A n → client_ok prefix c → Fds (sys_fm S) !! fd = Some name →
  ∃ c' S' data, let res := connect data (default [] (A !! (name, SheetMetaCellID))) in
    sys_Read (Datatypes.S fuel) (mkFile' fd nm) (c, S) = Some ((res, Z.of_nat (length res), None), (c', S'))
    ∧ sheet_text A name data ∧ sys_ok prefix S' A n ∧ client_ok prefix c' ∧ same_dir S S'.
Proof.
  intros Hok Hcl Hfd. destruct (so_fds _ _ _ _ Hok _ _ Hfd) as [f Ho].
  destruct (so_files _ _ _ _ Hok _ _ Ho) as (v & Hf). pose proof (proj1 Hcl) as [a Ha].
  destruct (srv_ReadSheet_spec S A n fd name f v Hok Hfd Ho Hf) as (vs & fm' & Esrv & Hvs & Hok' & Hdir & f' & Hf').
  set (S' := mkSys fm' (sys_nodes S)) in *.
  assert (sys_master a (MReadSheet fd) S = Some (Ok (RSheet (mkReadSheetReply Status_OK (pb_of <$> vs))), S')) as Em.
  { apply sys_master_calm. unfold master_handler, on_fm, mbind, GoM_bind. by rewrite Esrv. }
  destruct (check_all prefix S' (pb_of <$> vs) c Hcl) as (c' & Echk & Hcl' & _ & Hcon).
  assert (∃ vs', range_order (pb_of <$> vs) = pb_of <$> vs' ∧ vs ≡ₚ vs') as (vs' & Evs & Hperm).
  { apply Permutation_map_inv, range_order_perm. }
  destruct (read_workers_ok S' A n name f' v Hf' c' fuel vs' (mkReadAcc [] [] None false)) as (ps & E & Hps & Hids).
  { intros [k vc]. rewrite <- Hperm, Hvs. apply elem_of_map_to_list. }
  { intros kv. rewrite <- Hperm. intros Hin. apply (Hcon (pb_of kv)). by apply list_elem_of_fmap_2. }
  { done. }
  rewrite (chunk_meta_all S' A n name f' v Hf') in E by (by rewrite <- Hperm). cbn [ra_data app] in E.
  destruct (chunk_ids_all S' A n name f' v Hf' vs') as [Hnd Hall]; [by rewrite <- Hperm|].
  exists c', S', (pieces_text ps). split_and!; try done.
  - unfold sys_Read, File_Read, mbind, GoM_bind. cbn [file_fd]. rewrite (master_call c S a _ _ _ Ha Em).
    cbn [rs_Chunks rs_Status]. rewrite Echk, Evs, E. done.
  - exists ps. split_and!; [done|done|by rewrite Hids|]. intros id. rewrite Hids. apply Hall.
Qed.

(** A descriptor that is not bound. *)
Lemma Read_unbound S c fuel f : client_ok prefix c → Fds (sys_fm S) !! file_fd f = None →
  sys_Read (Datatypes.S fuel) f (c, S) = Some (([], -1, Some ErrNotExist), (c, S)).
Proof.
  intros Hcl Hfd. pose proof (proj1 Hcl) as [x Hx]. unfold sys_Read, File_Read, mbind, GoM_bind.
  rewrite (master_call c S x _ (RSheet (mkReadSheetReply Status_NotFound [])) S Hx); [done|].
  apply sys_master_calm. unfold master_handler, on_fm, srv_ReadSheet, ReadSheet, getFileByFd, mbind, GoM_bind, go_get. rewrite Hfd. by destruct S.
Qed.
End sheet.
