(* ===== verification/FileSystem.v ===== *)
(** FileSystem: what a client of the whole system observes.

    Sequences of calls are run through the client library, the
    master's handlers and the data nodes' handlers of EndToEnd, from any state
    that satisfies the invariant [sys_ok].  The result is that of a map from
    cells to bytes. *)
From Stdlib Require Import ZArith Lia Strings.Byte.
From stdpp Require Import gmap strings list fin_maps.
From S2P Require Import Prelude.
From S2P Require Import DataNode.
From S2P Require Import DataNodeAlloc.
From S2P Require Import MasterData.
From S2P Require Import SheetFile.
From S2P Require Import SheetFileSpec.
From S2P Require Import SheetFileRefine.
From S2P Require Import JournalEntry.
From S2P Require Import CommonJournal.
From S2P Require Import FileMgr.
From S2P Require Import FileMgrProps.
From S2P Require Import MasterServer.
From S2P Require Import FsClient.
From S2P Require Import EndToEnd.
From S2P Require Import FsCalls.
From S2P Require Import SheetRead.
Open Scope Z_scope.

Section filesystem.
Context {db : Type} {DB : MetaDB db} {DL : MetaDBLaws db} {K : Type} {KO : Kafka K}.
Context {ME : Codec MasterEntry} {RO : RangeOrder} {PO : PadOk} {WX : Weather db K} {CW : Calm WX}.
Context (prefix : string).
Implicit Types (S : Sys db K) (c : Client).

(** ** Runs of several clients *)

(** What a client can ask for. *)
Inductive Op :=
| OCreate (name : string)
| OOpen (name : string)
| OWrite (f : File) (b : list byte) (row col : Z) (padding : list byte)
| ORead (f : File) (b : list byte) (row col : Z)
| OReadAll (f : File).

Inductive Res :=
| ResFile (r : result ClientError File)
| ResCount (r : result ClientError Z)
| ResData (r : result ClientError (Z * list byte))
| ResSheet (r : list byte * Z * option ClientError).

Definition op_coords (op : Op) : Prop :=
  match op with
  | OWrite _ _ row col padding => is_u32 row ∧ is_u32 col ∧ pad_ok (default x20 (head padding))
  | ORead _ _ row col => is_u32 row ∧ is_u32 col
  | _ => True
  end.

Definition run_op (fuel : nat) (op : Op) : GoM (Client * Sys db K) Res :=
  match op with
  | OCreate name => r ← Create sys_zk sys_dial sys_master id name; mret (ResFile r)
  | OOpen name => r ← Open sys_zk sys_dial sys_master id name; mret (ResFile r)
  | OWrite f b row col padding => r ← sys_WriteAt fuel f b row col padding; mret (ResCount r)
  | ORead f b row col => r ← sys_ReadAt fuel f b row col; mret (ResData r)
  | OReadAll f => r ← sys_Read fuel f; mret (ResSheet r)
  end.

(** Calls of the clients [cs], one after the other in a given order. *)
Fixpoint run (fuel : nat) (calls : list (nat * Op)) (cs : list Client) (S : Sys db K)
  : option (list Res * list Client * Sys db K) :=
  match calls with
  | [] => Some ([], cs, S)
  | (i, op) :: calls' =>
      c ← cs !! i;
      '(r, (c', S')) ← run_op fuel op (c, S);
      '(rs, cs', S'') ← run fuel calls' (<[i := c']> cs) S';
      Some (r :: rs, cs', S'')
  end.

(** ** Specification: names, descriptors and a map from cells to bytes *)
Record Fs := mkFs {
  fs_names : gset string;
  fs_fds : gmap Z string;
  fs_next : Z;
  fs_cells : gmap (string * Z) (list byte)
}.

Definition fs_bind (a : Fs) (name : string) : Fs :=
  mkFs ({[name]} ∪ fs_names a) (<[fs_next a := name]> (fs_fds a)) (fs_next a + 1) (fs_cells a).
Definition fs_store (a : Fs) (name : string) (id : Z) (data : list byte) : Fs :=
  mkFs (fs_names a) (fs_fds a) (fs_next a) (<[(name, id) := data]> (fs_cells a)).

Inductive fs_step (a : Fs) : Op → Res → Fs → Prop :=
| fs_create_invalid name : bad_name name = true →
    fs_step a (OCreate name) (ResFile (Err ErrInvalid)) a
| fs_create_exists name : bad_name name = false → name ∈ fs_names a →
    fs_step a (OCreate name) (ResFile (Err ErrExist)) a
| fs_create_new name : bad_name name = false → name ∉ fs_names a →
    fs_step a (OCreate name) (ResFile (Ok (mkFile' (fs_next a) name))) (fs_bind a name)
| fs_create_failed name : bad_name name = false → name ∉ fs_names a →
    fs_step a (OCreate name) (ResFile (Err (UnexpectedStatusError Status_Unavailable))) a
| fs_open_invalid name : bad_name name = true →
    fs_step a (OOpen name) (ResFile (Err ErrInvalid)) a
| fs_open_missing name : bad_name name = false → name ∉ fs_names a →
    fs_step a (OOpen name) (ResFile (Err ErrNotExist)) a
| fs_open_known name : bad_name name = false → name ∈ fs_names a →
    fs_step a (OOpen name) (ResFile (Ok (mkFile' (fs_next a) name))) (fs_bind a name)
| fs_write_unbound f b row col padding : fs_fds a !! file_fd f = None →
    fs_step a (OWrite f b row col padding) (ResCount (Err ErrNotExist)) a
| fs_write f b row col padding name : fs_fds a !! file_fd f = Some name →
    fs_step a (OWrite f b row col padding) (ResCount (Ok (Z.of_nat (length b))))
      (fs_store a name (GetCellID row col) (cell_bytes (GetCellID row col) b padding))
| fs_read_unbound f b row col : fs_fds a !! file_fd f = None →
    fs_step a (ORead f b row col) (ResData (Err (UnexpectedStatusError Status_NotFound))) a
| fs_read f b row col name : fs_fds a !! file_fd f = Some name →
    fs_step a (ORead f b row col)
      (ResData (read_result (GetCellID row col) b (fs_cells a !! (name, GetCellID row col)))) a
| fs_sheet_unbound f : fs_fds a !! file_fd f = None →
    fs_step a (OReadAll f) (ResSheet ([], -1, Some ErrNotExist)) a
| fs_sheet f name data : fs_fds a !! file_fd f = Some name → sheet_text (fs_cells a) name data →
    let res := connect data (default [] (fs_cells a !! (name, SheetMetaCellID))) in
    fs_step a (OReadAll f) (ResSheet (res, Z.of_nat (length res), None)) a.

Inductive fs_trace : Fs → list Op → list Res → Fs → Prop :=
| fs_done a : fs_trace a [] [] a
| fs_more a op r a1 ops rs a2 :
    fs_step a op r a1 → fs_trace a1 ops rs a2 → fs_trace a (op :: ops) (r :: rs) a2.

(** ** Refinement *)
Record fs_rel S (a : Fs) (n : Z) : Prop := {
  fr_ok : sys_ok prefix S (fs_cells a) n;
  fr_names : fs_names a = dom (Entries (sys_fm S));
  fr_fds : fs_fds a = Fds (sys_fm S);
  fr_next : fs_next a = nextFd (sys_fm S)
}.

Lemma sys_ok_more S A n : sys_ok prefix S A n → sys_ok prefix S A (n + 1).
Proof.
  intros Hok. destruct S as [fm nodes]. apply (unchanged_ok prefix (mkSys fm nodes) A n); try done; [lia|by intros j Hj|].
  split; [apply Hok|done].
Qed.

Lemma fs_rel_more S a n : fs_rel S a n → fs_rel S a (n + 1).
Proof. intros [H1 H2 H3 H4]. split; try done. by apply sys_ok_more. Qed.

Section step.
Context (S : Sys db K) (a : Fs) (n : Z) (c : Client) (fuel : nat).
Context (HR : fs_rel S a n) (Hn : 0 <= n < 2 ^ 64 - 1) (Hc : client_ok prefix c).

Let steps (op : Op) : Prop :=
  ∃ r c' S' a', run_op (Datatypes.S fuel) op (c, S) = Some (r, (c', S'))
    ∧ fs_step a op r a' ∧ fs_rel S' a' (n + 1) ∧ client_ok prefix c'.

Lemma fs_name_known name : name ∈ fs_names a ↔ is_Some (Entries (sys_fm S) !! name).
Proof using CW HR. rewrite (fr_names _ _ _ HR). by rewrite elem_of_dom. Qed.

(** A call the master answers without a change. *)
Lemma step_silent op r : run_op (Datatypes.S fuel) op (c, S) = Some (r, (c, S)) → fs_step a op r a → steps op.
Proof using CW HR Hc. intros E Hs. exists r, c, S, a. split_and!; try done. by apply fs_rel_more. Qed.

Lemma create_call name q S' :
  sys_master (default "" (conn (c_master c))) (MCreateSheet name) S = Some (Ok (RFd q), S') →
  bad_name name = false →
  run_op (Datatypes.S fuel) (OCreate name) (c, S)
  = Some (ResFile (match fr_Status q with
                   | Status_OK => Ok (mkFile' (fr_Fd q) name)
                   | Status_Exist => Err ErrExist
                   | s => Err (UnexpectedStatusError s)
                   end), (c, S')).
Proof using CW Hc.
  intros Em Hb. pose proof (proj1 Hc) as [x Hx]. rewrite Hx in Em.
  unfold run_op, Create, mbind, GoM_bind. rewrite Hb. by rewrite (master_call c S x _ _ S' Hx Em).
Qed.

Lemma open_call name q S' :
  sys_master (default "" (conn (c_master c))) (MOpenSheet name) S = Some (Ok (RFd q), S') →
  bad_name name = false →
  run_op (Datatypes.S fuel) (OOpen name) (c, S)
  = Some (ResFile (match fr_Status q with
                   | Status_OK => Ok (mkFile' (fr_Fd q) name)
                   | Status_NotFound => Err ErrNotExist
                   | s => Err (UnexpectedStatusError s)
                   end), (c, S')).
Proof using CW Hc.
  intros Em Hb. pose proof (proj1 Hc) as [x Hx]. rewrite Hx in Em.
  unfold run_op, Open, mbind, GoM_bind. rewrite Hb. by rewrite (master_call c S x _ _ S' Hx Em).
Qed.

Lemma step_create name : steps (OCreate name).
Proof using CW DL HR Hn Hc.
  destruct (bad_name name) eqn:Hb.
  { apply (step_silent _ (ResFile (Err ErrInvalid))); [|by constructor].
    unfold run_op, Create, mbind, GoM_bind. by rewrite Hb. }
  destruct (Entries (sys_fm S) !! name) as [e|] eqn:He.
  - apply (step_silent _ (ResFile (Err ErrExist))); [|constructor; [done|apply fs_name_known; by eexists]].
    rewrite (create_call name (mkFdReply Status_Exist 0) S); [done| |done].
    apply sys_master_calm. unfold master_handler, on_fm, srv_CreateSheet, CreateSheet, mbind, GoM_bind, go_get. rewrite He. by destruct S.
  - destruct (srv_CreateSheet_new prefix S _ n name (fr_ok _ _ _ HR) Hn He) as (q & fm' & Eq & Hok & Hcase).
    assert (sys_master (default "" (conn (c_master c))) (MCreateSheet name) S
            = Some (Ok (RFd q), mkSys fm' (sys_nodes S))) as Em.
    { apply sys_master_calm. unfold master_handler, on_fm, mbind, GoM_bind. by rewrite Eq. }
    assert (name ∉ fs_names a) as Hnew by (rewrite fs_name_known, He; by intros [? ?]).
    pose proof HR as [_ R2 R3 R4]. unfold steps. rewrite (create_call name q _ Em Hb).
    destruct Hcase as [(-> & H1 & H2 & H3)|(-> & H1 & H2 & H3)]; simpl.
    + eexists _, _, _, (fs_bind a name). split; [done|]. rewrite <- R4. split; [by constructor|]. split; [|done].
      split; simpl; [done|by rewrite H1, R2|by rewrite H2, R3, R4|by rewrite H3, R4].
    + eexists _, _, _, a. split; [done|]. split; [by constructor|]. split; [|done].
      split; simpl; [done|by rewrite H1|by rewrite H2|by rewrite H3].
Qed.

Lemma step_open name : steps (OOpen name).
Proof using CW DL HR Hn Hc.
  destruct (bad_name name) eqn:Hb.
  { apply (step_silent _ (ResFile (Err ErrInvalid))); [|by constructor].
    unfold run_op, Open, mbind, GoM_bind. by rewrite Hb. }
  destruct (Entries (sys_fm S) !! name) as [e|] eqn:He.
  - assert (name ∈ fs_names a) as Hin by (apply fs_name_known; by eexists).
    destruct (srv_OpenSheet_known prefix S _ n name (fr_ok _ _ _ HR) Hn (ex_intro _ e He)) as (fm' & Eq & Hok & H1 & H2 & H3).
    assert (sys_master (default "" (conn (c_master c))) (MOpenSheet name) S
            = Some (Ok (RFd (mkFdReply Status_OK (nextFd (sys_fm S)))), mkSys fm' (sys_nodes S))) as Em.
    { apply sys_master_calm. unfold master_handler, on_fm, mbind, GoM_bind. by rewrite Eq. }
    pose proof HR as [_ R2 R3 R4]. unfold steps. rewrite (open_call name _ _ Em Hb). simpl.
    eexists _, _, _, (fs_bind a name). split; [done|]. rewrite <- R4. split; [by constructor|]. split; [|done].
    split; simpl; [done| |by rewrite H2, R3, R4|by rewrite H3, R4].
    rewrite H1, <- R2. apply subseteq_union_1_L. by apply singleton_subseteq_l.
  - apply (step_silent _ (ResFile (Err ErrNotExist))).
    + rewrite (open_call name (mkFdReply Status_NotFound 0) S); [done| |done].
      apply sys_master_calm. unfold master_handler, on_fm, srv_OpenSheet, OpenSheet, openFile, mbind, GoM_bind, go_get. rewrite He. by destruct S.
    + constructor; [done|]. rewrite fs_name_known, He. by intros [? ?].
Qed.

Lemma step_write f b row col padding : is_u32 row → is_u32 col → pad_ok (default x20 (head padding)) → steps (OWrite f b row col padding).
Proof using CW DL HR Hn Hc.
  intros Hr Hl Hpad. pose proof HR as [R1 R2 R3 R4]. destruct f as [fd nm].
  destruct (Fds (sys_fm S) !! fd) as [name|] eqn:Hfd.
  - destruct (WriteAt_spec prefix S _ n c fuel fd name nm row col b padding R1 Hn Hc Hfd Hr Hl Hpad)
      as (c' & S' & E & Hok & Hc' & Hrest).
    eexists _, c', S', (fs_store a name (GetCellID row col) (cell_bytes (GetCellID row col) b padding)).
    split; [|split; [by constructor; simpl; rewrite R3|split; [|done]]].
    + unfold run_op, mbind, GoM_bind. by rewrite E.
    + destruct Hrest as (H1 & H2 & H3). split; simpl; [done|by rewrite H2|by rewrite H1|by rewrite H3].
  - apply (step_silent _ (ResCount (Err ErrNotExist))); [|constructor; by rewrite R3].
    pose proof (proj1 Hc) as [x Hx]. unfold run_op, sys_WriteAt, File_WriteAt, mbind, GoM_bind.
    rewrite (master_call c S x _ (RCell (mkCellReply Status_NotFound None)) S Hx); [done|].
    apply sys_master_calm. unfold master_handler, on_fm, srv_WriteCell, WriteFileCell, getFileByFd, mbind, GoM_bind, go_get. simpl.
    rewrite Hfd. by destruct S.
Qed.

Lemma step_read f b row col : steps (ORead f b row col).
Proof using CW DL HR Hn Hc.
  pose proof HR as [R1 R2 R3 R4]. destruct f as [fd nm].
  destruct (Fds (sys_fm S) !! fd) as [name|] eqn:Hfd.
  - destruct (ReadAt_spec prefix S _ n c fuel fd name nm row col b R1 ltac:(lia) Hc Hfd)
      as (c' & S' & E & Hok & Hc' & Hrest).
    eexists _, c', S', a. split; [|split; [by apply (fs_read a _ b row col name); simpl; rewrite R3|split; [|done]]].
    + unfold run_op, mbind, GoM_bind. by rewrite E.
    + apply fs_rel_more. destruct Hrest as (H1 & H2 & H3). split; simpl; [done|by rewrite H2|by rewrite H1|by rewrite H3].
  - apply (step_silent _ (ResData (Err (UnexpectedStatusError Status_NotFound)))); [|constructor; by rewrite R3].
    pose proof (proj1 Hc) as [x Hx]. unfold run_op, sys_ReadAt, File_ReadAt, mbind, GoM_bind.
    rewrite (master_call c S x _ (RCell (mkCellReply Status_NotFound None)) S Hx); [done|].
    apply sys_master_calm. unfold master_handler, on_fm, srv_ReadCell, ReadFileCell, getFileByFd, mbind, GoM_bind, go_get. simpl.
    rewrite Hfd. by destruct S.
Qed.

Lemma step_sheet f : steps (OReadAll f).
Proof using CW DL HR Hn Hc.
  pose proof HR as [R1 R2 R3 R4]. destruct f as [fd nm]. destruct (Fds (sys_fm S) !! fd) as [name|] eqn:Hfd.
  - destruct (Read_spec prefix S _ n c fuel fd name nm R1 Hc Hfd) as (c' & S' & data & E & Htext & Hok & Hc' & H1 & H2 & H3).
    eexists _, c', S', a. split; [unfold run_op, mbind, GoM_bind; by rewrite E|].
    split; [by apply (fs_sheet a _ name data); simpl; rewrite ?R3|split; [|done]].
    apply fs_rel_more. split; simpl; [done|by rewrite H2|by rewrite H1|by rewrite H3].
  - apply (step_silent _ (ResSheet ([], -1, Some ErrNotExist))); [|constructor; by rewrite R3].
    unfold run_op, mbind, GoM_bind. by rewrite (Read_unbound prefix).
Qed.

Lemma step_op op : op_coords op → steps op.
Proof using CW DL HR Hn Hc.
  destruct op; simpl; intros H; [apply step_create|apply step_open|destruct H as (? & ? & ?); by apply step_write|apply step_read|apply step_sheet].
Qed.
End step.

(** C1. The file system as its clients see it, as long as nothing fails ([Calm]: ZooKeeper,
    dialling and every RPC succeed, the data nodes have no disk error and Kafka accepts an
    entry within five attempts, no context is done) and one call is made after the other.  Any
    sequence of [Create], [Open], [WriteAt], [ReadAt] and [Read] calls, made by any of several
    clients with connections of their own, then returns - no call panics or keeps spinning -
    and the answers are those of a map from cells to bytes: a read of a cell returns the
    bytes of the last write to it, whoever made it, cut or padded to the size of the cell, and
    says so when there was none; a read of the sheet returns the bytes of each of its cells
    once, in some order, with padding between them, and those of the MetaCell behind; a
    creation fails only when the name exists, is malformed or the master is unavailable (its
    journal or its database refuses); descriptors refer to the file they were issued for.  Row
    and column are 32-bit numbers, fewer than 2^64 calls are made, and [pad_ok] is any property
    that the padding of all writes has.  Without [Calm] the claim is false: a write that fails
    on its data node leaves every later call on the chunk spinning
    ([failed_write_blocks_cell]). *)
Theorem file_system_refines S a n cs fuel calls :
  fs_rel S a n → 0 <= n → n + Z.of_nat (length calls) < 2 ^ 64 → Forall (client_ok prefix) cs →
  Forall (λ q, (q.1 < length cs)%nat ∧ op_coords q.2) calls →
  ∃ rs cs' S' a', run (Datatypes.S fuel) calls cs S = Some (rs, cs', S')
    ∧ fs_trace a calls.*2 rs a' ∧ fs_rel S' a' (n + Z.of_nat (length calls)) ∧ Forall (client_ok prefix) cs'.
Proof.
  revert S a n cs. induction calls as [|[i op] calls IH]; intros S a n cs HR Hn Hb Hcs Hq.
  { exists [], cs, S, a. split_and!; try done; [constructor|]. simpl. by rewrite Z.add_0_r. }
  apply Forall_cons in Hq as [[Hi Hop] Hq]. simpl in Hi, Hop, Hb.
  destruct (lookup_lt_is_Some_2 cs i Hi) as [c Hc].
  destruct (step_op S a n c fuel HR ltac:(lia) (Forall_lookup_1 _ _ _ _ Hcs Hc) op Hop)
    as (r & c' & S1 & a1 & E & Hs & HR1 & Hc1).
  destruct (IH S1 a1 (n + 1) (<[i := c']> cs) HR1) as (rs & cs' & S2 & a2 & E2 & Ht & HR2 & Hcs2); try lia.
  { by apply Forall_insert. }
  { eapply Forall_impl; [exact Hq|]. intros q. by rewrite length_insert. }
  exists (r :: rs), cs', S2, a2. split_and!; try done; [|by econstructor|].
  - cbn [run]. rewrite Hc. cbn [mbind option_bind]. rewrite E. cbn [mbind option_bind]. by rewrite E2.
  - replace (n + Z.of_nat (length ((i, op) :: calls))) with (n + 1 + Z.of_nat (length calls)); [done|].
    simpl. lia.
Qed.
End filesystem.

(** ** A fresh system *)
Definition fresh_fs : Fs := mkFs ∅ ∅ 0 ∅.

(** A master with an empty directory and at least one data node, and data
    directories that are empty. *)
Lemma fresh_fs_rel {db} {DB : MetaDB db} {K} {PO : PadOk} (prefix : string) (S : Sys db K) :
  alloc_wf (fm_alloc (sys_fm S)) → dataNodes (fm_alloc (sys_fm S)) ≠ [] →
  Entries (sys_fm S) = ∅ → Opened (sys_fm S) = ∅ → Fds (sys_fm S) = ∅ → nextFd (sys_fm S) = 0 →
  sys_nodes S = ∅ → fs_rel prefix S fresh_fs 0.
Proof.
  intros Ha Hn He Ho Hf Hx Hs.
  split; [|by rewrite He, dom_empty_L|by rewrite Hf|by rewrite Hx].
  split; unfold node_at; rewrite ?He, ?Ho, ?Hf, ?Hx, ?Hs; try done.
  - intros addr k. rewrite lookup_empty. simpl. rewrite lookup_empty. by intros [? ?].
  - intros name. by rewrite !lookup_empty.
  - split; [lia|]. intros fd [? ?]. done.
  - intros name id [? ?]. done.
Qed.

Definition demo_sys : Sys MemDB MemTopic := mkSys demo_fm ∅.
Definition demo_client : Client := mkClient 3 "/master" "/data/" (mkConn (Some "/master") 0) ∅.
Definition demo_calls : list (nat * Op) :=
  [(0%nat, OCreate "a"); (1%nat, OOpen "a"); (0%nat, OWrite (mkFile' 0 "a") [x41; x42] 3 4 []);
   (1%nat, ORead (mkFile' 1 "a") [x00; x00; x00] 3 4); (1%nat, ORead (mkFile' 1 "a") [] 9 9);
   (1%nat, OReadAll (mkFile' 1 "a"))].

(** No faults; and a disk that refuses the second write to a chunk. *)
Definition calm_weather {db K} : Weather db K := {|
  wx_znode _ _ := None; wx_dial _ _ := None; wx_master _ _ := Delivered; wx_data _ _ _ := Delivered;
  wx_disk _ _ _ := no_faults; wx_commits _ _ _ := 0%nat; wx_done _ := false |}.

Lemma calm_weather_calm {db K} : Calm (@calm_weather db K).
Proof. split; intros; try reflexivity. apply Nat.lt_0_succ. Qed.

Definition full_disk {db K} : Weather db K := {|
  wx_znode _ _ := None; wx_dial _ _ := None; wx_master _ _ := Delivered; wx_data _ _ _ := Delivered;
  wx_disk _ _ req :=
    match req with
    | DWrite r =>
        if wr_Version r =? 2 then
          {| open_err := false; create_err := false; remove_err := false; read_err := false;
             write_err := Some 0%nat; version_read_err := false; version_write_err := false |}
        else no_faults
    | DRead _ => no_faults
    end;
  wx_commits _ _ _ := 0%nat; wx_done _ := false |}.

(** Any padding. *)
Definition any_pad : PadOk := λ _, True.

Lemma demo_sys_rel {PO : PadOk} : fs_rel "/data/" demo_sys fresh_fs 0.
Proof. apply fresh_fs_rel; try reflexivity; [apply alloc_wf_groups; simpl; lia|done]. Qed.

Lemma demo_client_ok : client_ok "/data/" demo_client.
Proof. split; [by eexists|]. split; [done|]. intros g n. simpl. by rewrite lookup_empty. Qed.

Lemma file_system_refines_witness :
  ∃ rs cs' S' a', run (ME := null_codec) (RO := source_order) (WX := calm_weather) 1 demo_calls [demo_client; demo_client] demo_sys = Some (rs, cs', S')
    ∧ fs_trace (PO := any_pad) fresh_fs demo_calls.*2 rs a'
    ∧ rs !! 3%nat = Some (ResData (Ok (2048, [x41; x42; x20])))
    ∧ rs !! 4%nat = Some (ResData (Err (UnexpectedStatusError Status_Invalid)))
    ∧ match rs !! 5%nat with
      | Some (ResSheet (b, n, None)) => n = 8208 ∧ take 3 (drop 14 b) = [x41; x42; x20]
      | _ => False
      end.
Proof.
  destruct (file_system_refines (ME := null_codec) (RO := source_order) (PO := any_pad) (CW := calm_weather_calm) "/data/" demo_sys fresh_fs 0
    [demo_client; demo_client] 0 demo_calls) as (rs & cs' & S' & a' & E & Ht & _ & _).
  - apply demo_sys_rel.
  - lia.
  - vm_compute. reflexivity.
  - repeat constructor; apply demo_client_ok.
  - repeat constructor; simpl; try lia; unfold is_u32; lia.
  - exists rs, cs', S', a'. refine (conj E (conj Ht _)).
    assert (match run (ME := null_codec) (RO := source_order) (WX := calm_weather) 1 demo_calls [demo_client; demo_client] demo_sys with
            | Some (rs, _, _) => rs !! 3%nat = Some (ResData (Ok (2048, [x41; x42; x20])))
                ∧ rs !! 4%nat = Some (ResData (Err (UnexpectedStatusError Status_Invalid)))
                ∧ match rs !! 5%nat with
                  | Some (ResSheet (b, n, None)) => n = 8208 ∧ take 3 (drop 14 b) = [x41; x42; x20]
                  | _ => False
                  end
            | None => False end) as H by (vm_compute; repeat split).
    rewrite E in H. exact H.
Defined.

Definition failing_calls : list (nat * Op) :=
  [(0%nat, OCreate "a"); (0%nat, OWrite (mkFile' 0 "a") [x41] 3 4 []); (0%nat, OWrite (mkFile' 0 "a") [x42] 3 4 [])].

Definition after_failure : option (list Res * list Client * Sys MemDB MemTopic) :=
  run (ME := null_codec) (RO := source_order) (WX := full_disk) 1 failing_calls [demo_client] demo_sys.

Definition blocked_client : Client :=
  match after_failure with Some (_, c :: _, _) => c | _ => demo_client end.
Definition blocked_sys : Sys MemDB MemTopic :=
  match after_failure with Some (_, _, S') => S' | None => demo_sys end.
Definition blocked_body : list byte := x41 :: replicate (Z.to_nat 8191) x20.
Definition blocked_cell (version : Z) : PbCell := mkPbCell (mkPbChunk 2 "g1" version false) 0 2048.

Lemma blocked_read : ∃ fm', srv_ReadCell 0 3 4 (sys_fm blocked_sys)
  = Some (mkCellReply Status_OK (Some (blocked_cell 2)), fm').
Proof. eexists. vm_compute. reflexivity. Qed.
Lemma blocked_write : ∃ fm', srv_WriteCell (ME := null_codec) 0 3 4 (sys_fm blocked_sys)
  = Some (mkCellReply Status_OK (Some (blocked_cell 3)), fm').
Proof. eexists. vm_compute. reflexivity. Qed.
Lemma blocked_file :
  files (node_at blocked_sys "/data/g1") !! 2 = Some (mkfile (blocked_body, 1)) ∧ good_chunk (blocked_body, 1).
Proof. split; [vm_compute; reflexivity|]. split; [vm_compute; reflexivity|unfold is_u64; simpl; lia]. Qed.

Lemma blocked_client_ok : client_ok "/data/" blocked_client.
Proof.
  split; [by eexists|]. split; [vm_compute; reflexivity|]. intros g n.
  assert (datanodeMap blocked_client = {["g1" := mkConn (Some "/data/g1") 0]}) as -> by (vm_compute; reflexivity).
  rewrite lookup_singleton_Some. by intros [<- <-].
Qed.

(** After a write that failed on the disk of the data node, with the error [ErrNotExist], the
    master is a version ahead of the node: from then on, with no fault any more, neither a read
    of the cell nor a write to it returns, whatever the fuel. *)
Theorem failed_write_blocks_cell :
  (∃ r1 r2, after_failure = Some ([r1; r2; ResCount (Err ErrNotExist)], [blocked_client], blocked_sys))
  ∧ ∀ fuel, run (ME := null_codec) (RO := source_order) (WX := calm_weather) fuel
              [(0%nat, ORead (mkFile' 0 "a") [x00] 3 4)] [blocked_client] blocked_sys = None
          ∧ run (ME := null_codec) (RO := source_order) (WX := calm_weather) fuel
              [(0%nat, OWrite (mkFile' 0 "a") [x43] 3 4 [])] [blocked_client] blocked_sys = None.
Proof.
  split; [eexists _, _; vm_compute; reflexivity|]. intros fuel. pose proof blocked_client_ok as Hc.
  destruct blocked_read as [f1 E1], blocked_write as [f2 E2], blocked_file as [Hf Hg].
  revert Hc E1 E2 Hf Hg. generalize blocked_client blocked_sys blocked_body.
  intros c S' body Hc E1 E2 Hf Hg. split; cbn [run];
    change ([c] !! 0%nat) with (Some c); unfold run_op, mbind, option_bind, GoM_bind.
  - by rewrite (behind_ReadAt (ME := null_codec) (CW := calm_weather_calm) "/data/" S' c
      (mkFile' 0 "a") _ 3 4 _ f1 body 1 Hc E1 Hf Hg).
  - assert (is_u32 3 ∧ is_u32 4) as [H3 H4] by (unfold is_u32; lia).
    rewrite (behind_WriteAt (ME := null_codec) (CW := calm_weather_calm) "/data/" S' c
      (mkFile' 0 "a") _ 3 4 [] _ f2 body 1 Hc H3 H4 E2 Hf Hg);
      first [reflexivity | vm_compute; intuition congruence].
Qed.
