(* ===== verification/Bitset.v ===== *)
(** Bitset: the bit sets of the linearizability checker.

    Source: lab4-mapreduce/src/linearizability/bitset.go.  A bitset is a slice of
    64-bit words; an index outside of it panics.  [set] and [clear] update the
    slice in place and return it: the callers keep no other reference to the
    slice they update, apart from [linearized] itself, which the checker threads
    through its loop. *)
From Stdlib Require Import ZArith Lia.
From stdpp Require Import list.
From S2P Require Import Prelude.
Open Scope Z_scope.

Abbreviation bitset := (list Z) (only parsing).

Definition newBitset (bits : Z) : bitset :=
  let extra := if bits mod 64 =? 0 then 0 else 1 in
  let chunks := bits / 64 + extra in
  replicate (Z.to_nat chunks) 0.

Definition clone (b : bitset) : bitset := b.

Definition bitsetIndex (pos : Z) : Z * Z := (pos / 64, pos mod 64).

Definition bset (b : bitset) (pos : Z) : option bitset :=
  let '(major, minor) := bitsetIndex pos in
  w ← b !! Z.to_nat major;
  Some (<[Z.to_nat major := Z.lor w (u64 (Z.shiftl 1 minor))]> b).

Definition bclear (b : bitset) (pos : Z) : option bitset :=
  let '(major, minor) := bitsetIndex pos in
  w ← b !! Z.to_nat major;
  Some (<[Z.to_nat major := Z.ldiff w (u64 (Z.shiftl 1 minor))]> b).

Definition bget (b : bitset) (pos : Z) : option bool :=
  let '(major, minor) := bitsetIndex pos in
  w ← b !! Z.to_nat major;
  Some (negb (Z.land w (u64 (Z.shiftl 1 minor)) =? 0)).

(** One word of [popcnt]. *)
Definition popcnt_word (v : Z) : Z :=
  let v := u64 (Z.land v 0x5555555555555555 + Z.shiftr (Z.land v 0xAAAAAAAAAAAAAAAA) 1) in
  let v := u64 (Z.land v 0x3333333333333333 + Z.shiftr (Z.land v 0xCCCCCCCCCCCCCCCC) 2) in
  let v := u64 (Z.land v 0x0F0F0F0F0F0F0F0F + Z.shiftr (Z.land v 0xF0F0F0F0F0F0F0F0) 4) in
  let v := u64 (v * 0x0101010101010101) in
  Z.land (Z.shiftr v 56) 0xFF.

Definition popcnt (b : bitset) : Z := foldl (λ total v, u64 (total + popcnt_word v)) 0 b.

Definition hash (b : bitset) : Z := foldl (λ h v, Z.lxor h v) (popcnt b) b.

Fixpoint equals_from (b b2 : bitset) : bool :=
  match b, b2 with
  | v :: b', w :: b2' => if v =? w then equals_from b' b2' else false
  | _, _ => true
  end.
Definition equals (b b2 : bitset) : bool :=
  if negb (Nat.eqb (length b) (length b2)) then false else equals_from b b2.

(** ** Set operations *)
Definition bits_of (n : Z) (b : bitset) : Prop :=
  length b = Z.to_nat ((n + 63) / 64) ∧ Forall is_u64 b.

Lemma newBitset_bits n : 0 <= n → bits_of n (newBitset n).
Proof.
  intros Hn. unfold newBitset, bits_of. rewrite length_replicate. split.
  - f_equal. destruct (Z.eqb_spec (n mod 64) 0); Z.to_euclidean_division_equations; lia.
  - apply Forall_replicate. split; lia.
Qed.

Lemma bits_lookup n b pos : bits_of n b → 0 <= pos < n →
  ∃ w, b !! Z.to_nat (pos / 64) = Some w ∧ is_u64 w.
Proof.
  intros [Hl Hf] Hp. destruct (lookup_lt_is_Some_2 b (Z.to_nat (pos / 64))) as [w Hw].
  { rewrite Hl. Z.to_euclidean_division_equations. lia. }
  exists w. split; [done|]. rewrite Forall_lookup in Hf. by apply (Hf _ _ Hw).
Qed.

Lemma u64_bit m : 0 <= m < 64 → u64 (Z.shiftl 1 m) = 2 ^ m.
Proof.
  intros H. rewrite Z.shiftl_1_l. apply u64_small. split; [lia|].
  apply Z.pow_lt_mono_r; lia.
Qed.

Lemma word_bit w m : 0 <= m → negb (Z.land w (2 ^ m) =? 0) = Z.testbit w m.
Proof.
  intros Hm. destruct (Z.testbit w m) eqn:E.
  - rewrite negb_true_iff, Z.eqb_neq. intros H0. apply (f_equal (λ z, Z.testbit z m)) in H0.
    rewrite Z.land_spec, E, Z.pow2_bits_true, Z.bits_0 in H0 by done. done.
  - rewrite negb_false_iff, Z.eqb_eq. apply Z.bits_inj'. intros i Hi.
    rewrite Z.land_spec, Z.bits_0. destruct (decide (m = i)) as [->|Hne]; [by rewrite E|].
    by rewrite Z.pow2_bits_false, andb_false_r.
Qed.

Lemma bget_testbit b pos w :
  b !! Z.to_nat (pos / 64) = Some w → bget b pos = Some (Z.testbit w (pos mod 64)).
Proof.
  intros Hw. unfold bget, bitsetIndex. rewrite Hw. simpl. f_equal.
  pose proof (Z.mod_pos_bound pos 64). rewrite u64_bit by lia. apply word_bit. lia.
Qed.

Lemma bget_Some n b pos : bits_of n b → 0 <= pos < n → ∃ x, bget b pos = Some x.
Proof.
  intros Hb Hp. destruct (bits_lookup n b pos Hb Hp) as (w & Hw & _).
  eexists. by apply bget_testbit.
Qed.

Lemma is_u64_bits w : 0 <= w → (∀ i, 64 <= i → Z.testbit w i = false) → is_u64 w.
Proof.
  intros H0 Hb. split; [done|]. destruct (decide (w = 0)) as [->|Hne]; [lia|].
  apply Z.log2_lt_pow2; [lia|]. destruct (decide (Z.log2 w < 64)) as [|Hge]; [done|].
  pose proof (Z.bit_log2 w ltac:(lia)) as H1. rewrite Hb in H1 by lia. done.
Qed.

Lemma u64_testbit_high w i : is_u64 w → 64 <= i → Z.testbit w i = false.
Proof.
  intros [H0 H1] Hi. destruct (decide (w = 0)) as [->|Hne]; [apply Z.bits_0|].
  apply Z.bits_above_log2; [done|]. apply Z.log2_lt_pow2 in H1; lia.
Qed.

Section update.
Context (n : Z) (b : bitset) (pos : Z) (Hb : bits_of n b) (Hp : 0 <= pos < n).
Let m := Z.to_nat (pos / 64).

(** Replacing one word by a word that differs in one bit. *)
Lemma update_word w w' x :
  b !! m = Some w → is_u64 w' →
  (∀ i, 0 <= i → Z.testbit w' i = if decide (i = pos mod 64) then x else Z.testbit w i) →
  bits_of n (<[m := w']> b)
  ∧ ∀ q, 0 <= q < n → bget (<[m := w']> b) q = if decide (q = pos) then Some x else bget b q.
Proof using Hb Hp.
  intros Hw Hu Hbit. destruct Hb as [Hl Hf]. split.
  { split; [by rewrite length_insert|]. by apply Forall_insert. }
  intros q Hq. pose proof (Z.mod_pos_bound q 64 ltac:(lia)).
  destruct (decide (q / 64 = pos / 64)) as [E|E].
  - assert (b !! Z.to_nat (q / 64) = Some w) as Hw2 by (by rewrite E).
    rewrite (bget_testbit _ q w'), (bget_testbit _ q w); [|done|].
    2:{ rewrite E. fold m. apply list_lookup_insert_eq. by apply lookup_lt_Some in Hw. }
    rewrite Hbit by lia. destruct (decide (q mod 64 = pos mod 64)) as [E2|E2]; case_decide as E3; try done.
    + exfalso. apply E3. rewrite (Z.div_mod q 64), (Z.div_mod pos 64) by lia. congruence.
    + exfalso. by subst.
  - destruct (bits_lookup n b q (conj Hl Hf) Hq) as (v & Hv & _).
    rewrite decide_False by congruence. rewrite (bget_testbit _ q v), (bget_testbit _ q v); try done.
    rewrite list_lookup_insert_ne; [done|]. unfold m. intros E2. apply E.
    apply Z2Nat.inj in E2; [done|apply Z.div_pos; lia|apply Z.div_pos; lia].
Qed.

Lemma bset_spec :
  ∃ b', bset b pos = Some b' ∧ bits_of n b'
    ∧ ∀ q, 0 <= q < n → bget b' q = if decide (q = pos) then Some true else bget b q.
Proof using Hb Hp.
  destruct (bits_lookup n b pos Hb Hp) as (w & Hw & Hu). unfold bset, bitsetIndex. rewrite Hw. simpl.
  eexists. split; [done|]. pose proof (Z.mod_pos_bound pos 64 ltac:(lia)) as Hm.
  rewrite u64_bit by lia.
  assert (∀ i, 0 <= i → Z.testbit (Z.lor w (2 ^ (pos mod 64))) i
            = if decide (i = pos mod 64) then true else Z.testbit w i) as Hbit.
  { intros i Hi. rewrite Z.lor_spec. case_decide as E.
    - by rewrite E, Z.pow2_bits_true, orb_true_r by lia.
    - by rewrite Z.pow2_bits_false, orb_false_r by congruence. }
  apply (update_word w _ true); try done. apply is_u64_bits.
  - apply Z.lor_nonneg. destruct Hu. split; [done|]. apply Z.pow_nonneg. lia.
  - intros i Hi. rewrite Hbit by lia. rewrite decide_False by lia. by apply u64_testbit_high.
Qed.

Lemma bclear_spec :
  ∃ b', bclear b pos = Some b' ∧ bits_of n b'
    ∧ ∀ q, 0 <= q < n → bget b' q = if decide (q = pos) then Some false else bget b q.
Proof using Hb Hp.
  destruct (bits_lookup n b pos Hb Hp) as (w & Hw & Hu). unfold bclear, bitsetIndex. rewrite Hw. simpl.
  eexists. split; [done|]. pose proof (Z.mod_pos_bound pos 64 ltac:(lia)) as Hm.
  rewrite u64_bit by lia.
  assert (∀ i, 0 <= i → Z.testbit (Z.ldiff w (2 ^ (pos mod 64))) i
            = if decide (i = pos mod 64) then false else Z.testbit w i) as Hbit.
  { intros i Hi. rewrite Z.ldiff_spec. case_decide as E.
    - by rewrite E, Z.pow2_bits_true, andb_false_r by lia.
    - by rewrite Z.pow2_bits_false, andb_true_r by congruence. }
  apply (update_word w _ false); try done. apply is_u64_bits.
  - apply Z.ldiff_nonneg. left. apply Hu.
  - intros i Hi. rewrite Hbit by lia. rewrite decide_False by lia. by apply u64_testbit_high.
Qed.
End update.

Lemma equals_eq b b2 : equals b b2 = true ↔ b = b2.
Proof.
  unfold equals. split.
  - destruct (Nat.eqb_spec (length b) (length b2)) as [Hl|]; [|done]. simpl.
    revert b2 Hl. induction b as [|v b IH]; intros [|w b2] Hl; try done. simpl.
    destruct (Z.eqb_spec v w) as [->|]; [|done]. intros H. f_equal. apply IH; [by injection Hl|done].
  - intros <-. rewrite Nat.eqb_refl. simpl. induction b as [|v b IH]; [done|]. simpl. by rewrite Z.eqb_refl.
Qed.

Lemma newBitset_get n q : 0 <= q < n → bget (newBitset n) q = Some false.
Proof.
  intros Hq. destruct (bits_lookup n (newBitset n) q (newBitset_bits n ltac:(lia)) Hq) as (w & Hw & _).
  rewrite (bget_testbit _ q w Hw). unfold newBitset in Hw. apply lookup_replicate in Hw as [-> _].
  by rewrite Z.bits_0.
Qed.

(** ** Population count *)

(** The number of set bits among the first [n]. *)
Fixpoint count_bits (n : nat) (v : Z) : Z :=
  match n with
  | O => 0
  | S n' => Z.b2z (Z.odd v) + count_bits n' (v / 2)
  end.

(** A number from its bytes, least significant first. *)
Fixpoint join (bs : list Z) : Z :=
  match bs with [] => 0 | a :: r => a + 256 * join r end.

Definition is_u8 (a : Z) : Prop := 0 <= a < 256.

Lemma testbit_join a r i : is_u8 a → 0 <= i →
  Z.testbit (a + 256 * r) i = if i <? 8 then Z.testbit a i else Z.testbit r (i - 8).
Proof.
  intros Ha Hi. destruct (Z.ltb_spec i 8) as [H|H].
  - rewrite <- (Z.mod_pow2_bits_low (a + 256 * r) 8 i) by done.
    change (2 ^ 8) with 256. rewrite (Z.mul_comm 256), Z_mod_plus_full, Z.mod_small by done. done.
  - replace i with ((i - 8) + 8) at 1 by lia. rewrite <- (Z.div_pow2_bits (a + 256 * r) 8) by lia.
    change (2 ^ 8) with 256. rewrite (Z.mul_comm 256), Z.div_add, Z.div_small by done. done.
Qed.

Lemma land_join a r m M : is_u8 a → is_u8 m →
  Z.land (a + 256 * r) (m + 256 * M) = Z.land a m + 256 * Z.land r M.
Proof.
  intros Ha Hm. assert (is_u8 (Z.land a m)) as Hl.
  { split; [apply Z.land_nonneg; left; apply Ha|].
    destruct (decide (Z.land a m = 0)) as [->|Hne]; [lia|]. unfold is_u8 in *.
    assert (0 <= Z.land a m) by (apply Z.land_nonneg; lia).
    apply Z.log2_lt_pow2 with (b := 8); [lia|].
    eapply Z.le_lt_trans; [apply Z.log2_land; lia|]. apply Z.min_lt_iff. left.
    destruct (decide (a = 0)) as [->|]; [done|]. apply Z.log2_lt_pow2; lia. }
  apply Z.bits_inj'. intros i Hi. rewrite Z.land_spec, !testbit_join by done.
  destruct (i <? 8); by rewrite Z.land_spec.
Qed.

(** One stage: the sums of neighbouring fields of [k] bits, [n] bytes at once. *)
Fixpoint rep (n : nat) (m : Z) : Z :=
  match n with O => 0 | S n' => m + 256 * rep n' m end.
Definition stage (n : nat) (lo hi k v : Z) : Z :=
  Z.land v (rep n lo) + Z.shiftr (Z.land v (rep n hi)) k.

Lemma rep_1 m : rep 1 m = m.
Proof. cbn [rep]. lia. Qed.

Lemma rep_divide n hi k : 0 <= k <= 8 → (2 ^ k | hi) → (2 ^ k | rep n hi).
Proof.
  intros Hk Hd. induction n as [|n IH]; simpl; [apply Z.divide_0_r|].
  apply Z.divide_add_r; [done|]. by apply Z.divide_mul_r.
Qed.

Lemma land_divide r M k : 0 <= k → (2 ^ k | M) → (2 ^ k | Z.land r M).
Proof.
  intros Hk [q ->]. exists (Z.land (r / 2 ^ k) q). apply Z.bits_inj'. intros i Hi.
  rewrite <- !Z.shiftl_mul_pow2 by done. rewrite Z.land_spec, !Z.shiftl_spec by done.
  destruct (Z.ltb_spec i k).
  - rewrite !(Z.testbit_neg_r _ (i - k)) by lia. apply andb_false_r.
  - rewrite Z.land_spec, Z.div_pow2_bits by lia. f_equal. f_equal. lia.
Qed.

Lemma stage_join n lo hi k a r :
  is_u8 a → is_u8 lo → is_u8 hi → 0 <= k <= 8 → (2 ^ k | hi) →
  stage (S n) lo hi k (a + 256 * r) = stage 1 lo hi k a + 256 * stage n lo hi k r.
Proof.
  intros Ha Hlo Hhi Hk Hd. unfold stage. rewrite !rep_1. cbn [rep]. rewrite !land_join by done.
  destruct (land_divide r (rep n hi) k ltac:(lia) (rep_divide n hi k Hk Hd)) as [q Hq].
  rewrite Hq. rewrite !Z.shiftr_div_pow2 by lia.
  replace (Z.land a hi + 256 * (q * 2 ^ k)) with (Z.land a hi + 256 * q * 2 ^ k) by lia.
  assert (0 < 2 ^ k) by (apply Z.pow_pos_nonneg; lia).
  rewrite Z.div_add, Z.div_mul by lia. lia.
Qed.

Lemma stage_bytes lo hi k bs :
  Forall is_u8 bs → is_u8 lo → is_u8 hi → 0 <= k <= 8 → (2 ^ k | hi) →
  stage (length bs) lo hi k (join bs) = join (stage 1 lo hi k <$> bs).
Proof.
  intros Hb Hlo Hhi Hk Hd. induction Hb as [|a bs Ha Hb IH].
  { unfold stage. simpl. by rewrite Z.shiftr_0_l. }
  cbn [length join fmap list_fmap]. rewrite stage_join by done. by rewrite IH.
Qed.

(** What the three stages do to one byte, checked for all of them. *)
Definition byte_sums (a : Z) : Z :=
  stage 1 0x0F 0xF0 4 (stage 1 0x33 0xCC 2 (stage 1 0x55 0xAA 1 a)).

Lemma byte_sums_check :
  forallb (λ i, let a := Z.of_nat i in
     let s1 := stage 1 0x55 0xAA 1 a in let s2 := stage 1 0x33 0xCC 2 s1 in
     (0 <=? s1) && (s1 <? 256) && (0 <=? s2) && (s2 <? 256)
     && (byte_sums a =? count_bits 8 a) && (byte_sums a <=? 8) && (0 <=? byte_sums a)) (seq 0 256) = true.
Proof. vm_compute. reflexivity. Qed.

Lemma byte_sums_spec a : is_u8 a →
  is_u8 (stage 1 0x55 0xAA 1 a) ∧ is_u8 (stage 1 0x33 0xCC 2 (stage 1 0x55 0xAA 1 a))
  ∧ byte_sums a = count_bits 8 a ∧ 0 <= byte_sums a <= 8.
Proof.
  intros Ha. pose proof byte_sums_check as H. rewrite forallb_forall in H.
  specialize (H (Z.to_nat a)). rewrite Z2Nat.id in H by (unfold is_u8 in Ha; lia).
  assert (In (Z.to_nat a) (seq 0 256)) as Hin by (apply in_seq; unfold is_u8 in Ha; lia).
  apply H in Hin. rewrite !andb_true_iff, !Z.leb_le, !Z.ltb_lt, Z.eqb_eq in Hin. unfold is_u8. lia.
Qed.

Lemma count_bits_shift j n x r : 0 <= x < 2 ^ Z.of_nat j →
  count_bits (j + n) (x + 2 ^ Z.of_nat j * r) = count_bits j x + count_bits n r.
Proof.
  revert x. induction j as [|j IH]; intros x Hx.
  { change (2 ^ Z.of_nat 0) with 1 in *. cbn [Nat.add count_bits]. by replace (x + 1 * r) with r by lia. }
  rewrite Nat2Z.inj_succ, Z.pow_succ_r in * by lia. cbn [Nat.add count_bits].
  replace (x + 2 * 2 ^ Z.of_nat j * r) with (x + (2 ^ Z.of_nat j * r) * 2) by lia.
  rewrite Z.div_add by lia. rewrite IH by (Z.to_euclidean_division_equations; lia).
  rewrite (Z.mul_comm _ 2), Z.odd_add_mul_2. lia.
Qed.

Lemma count_bits_range n v : 0 <= count_bits n v <= Z.of_nat n.
Proof.
  revert v. induction n as [|n IH]; intros v; cbn [count_bits]; [lia|].
  specialize (IH (v / 2)). destruct (Z.odd v); simpl Z.b2z; lia.
Qed.

Lemma count_bits_join bs : Forall is_u8 bs →
  count_bits (8 * length bs) (join bs) = foldr Z.add 0 (count_bits 8 <$> bs).
Proof.
  induction 1 as [|a bs Ha Hb IH]; [done|]. cbn [length join fmap list_fmap foldr].
  replace (8 * S (length bs))%nat with (8 + 8 * length bs)%nat by lia.
  change 256 with (2 ^ Z.of_nat 8). rewrite count_bits_shift by done. by rewrite IH.
Qed.

Lemma join_bytes v : is_u64 v → ∃ bs, length bs = 8%nat ∧ Forall is_u8 bs ∧ v = join bs.
Proof.
  intros Hv. assert (∀ n v, 0 <= v < 256 ^ Z.of_nat n →
    ∃ bs, length bs = n ∧ Forall is_u8 bs ∧ v = join bs) as Hg.
  { clear. induction n as [|n IH]; intros v Hv.
    { exists []. simpl in *. split_and!; [done|done|lia]. }
    rewrite Nat2Z.inj_succ, Z.pow_succ_r in Hv by lia.
    destruct (IH (v / 256)) as (bs & Hl & Hf & Hj); [Z.to_euclidean_division_equations; lia|].
    exists (v mod 256 :: bs). split_and!; [simpl; lia| |].
    - constructor; [|done]. unfold is_u8. apply Z.mod_pos_bound. lia.
    - simpl. rewrite <- Hj. rewrite (Z.div_mod v 256) at 1 by lia. lia. }
  destruct (Hg 8%nat v) as (bs & ? & ? & ?); [|by exists bs]. unfold is_u64 in Hv. simpl. lia.
Qed.

Lemma join_range bs : Forall is_u8 bs → 0 <= join bs < 256 ^ Z.of_nat (length bs).
Proof.
  induction 1 as [|a bs Ha Hb IH]; [simpl; lia|]. cbn [length join].
  rewrite Nat2Z.inj_succ, Z.pow_succ_r by lia. unfold is_u8 in Ha. lia.
Qed.

(** The multiplication collects the sum of the bytes in the top byte. *)
Lemma collect_bytes bs :
  length bs = 8%nat → Forall (λ c, 0 <= c <= 8) bs →
  Z.land (Z.shiftr (u64 (join bs * 0x0101010101010101)) 56) 0xFF = foldr Z.add 0 bs.
Proof.
  intros Hl Hb. destruct bs as [|c0 [|c1 [|c2 [|c3 [|c4 [|c5 [|c6 [|c7 [|]]]]]]]]]; try done. clear Hl.
  repeat (apply Forall_cons in Hb as [? Hb]). cbn [join foldr]. clear Hb.
  set (low := c0 + 256 * (c0 + c1 + 256 * (c0 + c1 + c2 + 256 * (c0 + c1 + c2 + c3
    + 256 * (c0 + c1 + c2 + c3 + c4 + 256 * (c0 + c1 + c2 + c3 + c4 + c5
    + 256 * (c0 + c1 + c2 + c3 + c4 + c5 + c6))))))).
  set (high := c1 + c2 + c3 + c4 + c5 + c6 + c7 + 256 * (c2 + c3 + c4 + c5 + c6 + c7
    + 256 * (c3 + c4 + c5 + c6 + c7 + 256 * (c4 + c5 + c6 + c7 + 256 * (c5 + c6 + c7
    + 256 * (c6 + c7 + 256 * c7)))))).
  set (sum := c0 + c1 + c2 + c3 + c4 + c5 + c6 + c7).
  match goal with |- context [u64 ?p] => replace p with ((low + sum * 2 ^ 56) + high * 2 ^ 64) by (unfold low, high, sum; lia) end.
  assert (0 <= low < 2 ^ 56) by (unfold low; lia). assert (0 <= sum <= 64) by (unfold sum; lia).
  unfold u64. rewrite Z_mod_plus_full, Z.mod_small by lia.
  change 0xFF with (Z.ones 8). rewrite Z.land_ones, Z.shiftr_div_pow2, Z.div_add, Z.div_small by lia.
  rewrite Z.mod_small by lia. unfold sum. lia.
Qed.

Lemma popcnt_word_spec v : is_u64 v → popcnt_word v = count_bits 64 v.
Proof.
  intros Hv. destruct (join_bytes v Hv) as (bs & Hl & Hf & ->).
  assert (Forall is_u8 (stage 1 0x55 0xAA 1 <$> bs)) as H1.
  { apply Forall_fmap. eapply Forall_impl; [exact Hf|]. intros a Ha. by apply byte_sums_spec. }
  assert (Forall is_u8 (stage 1 0x33 0xCC 2 <$> (stage 1 0x55 0xAA 1 <$> bs))) as H2.
  { rewrite <- list_fmap_compose. apply Forall_fmap. eapply Forall_impl; [exact Hf|].
    intros a Ha. by apply byte_sums_spec. }
  assert (Forall (λ c, 0 <= c <= 8) (byte_sums <$> bs)) as H3.
  { apply Forall_fmap. eapply Forall_impl; [exact Hf|]. intros a Ha. by apply byte_sums_spec. }
  assert (∀ bs', length bs' = 8%nat → Forall is_u8 bs' → u64 (join bs') = join bs') as Hu.
  { intros bs' L F. apply u64_small. pose proof (join_range bs' F) as R. rewrite L in R. exact R. }
  assert (count_bits 64 (join bs) = foldr Z.add 0 (byte_sums <$> bs)) as ->.
  { replace 64%nat with (8 * length bs)%nat by lia. rewrite count_bits_join by done.
    f_equal. apply list_fmap_ext. intros i a Ha. rewrite Forall_lookup in Hf.
    by destruct (byte_sums_spec a (Hf _ _ Ha)) as (_ & _ & -> & _). }
  unfold popcnt_word.
  change (Z.land (join bs) 0x5555555555555555 + Z.shiftr (Z.land (join bs) 0xAAAAAAAAAAAAAAAA) 1)
    with (stage 8 0x55 0xAA 1 (join bs)).
  rewrite <- Hl, stage_bytes, Hu; try (done || by rewrite length_fmap); [|by exists 85].
  set (b1 := stage 1 85 170 1 <$> bs) in *. assert (length b1 = 8%nat) as L1 by (unfold b1; by rewrite length_fmap).
  change (Z.land (join b1) 0x3333333333333333 + Z.shiftr (Z.land (join b1) 0xCCCCCCCCCCCCCCCC) 2)
    with (stage 8 0x33 0xCC 2 (join b1)).
  rewrite <- L1, stage_bytes, Hu; try (done || by rewrite length_fmap); [|by exists 51].
  set (b2 := stage 1 51 204 2 <$> b1) in *. assert (length b2 = 8%nat) as L2 by (unfold b2; by rewrite length_fmap).
  change (Z.land (join b2) 0x0F0F0F0F0F0F0F0F + Z.shiftr (Z.land (join b2) 0xF0F0F0F0F0F0F0F0) 4)
    with (stage 8 0x0F 0xF0 4 (join b2)).
  assert (stage 1 15 240 4 <$> b2 = byte_sums <$> bs) as E3.
  { unfold b2, b1. by rewrite <- !list_fmap_compose. }
  rewrite <- L2, stage_bytes, E3; try done; [|by exists 15].
  rewrite Hu; [|by rewrite length_fmap|].
  2:{ eapply Forall_impl; [exact H3|]. intros c Hc. simpl in Hc. unfold is_u8. lia. }
  by rewrite collect_bytes; [|by rewrite length_fmap|].
Qed.

(** ** Theorems *)

Lemma testbit_count n v : 0 <= v →
  count_bits n v = Z.of_nat (length (filter (λ i, Z.testbit v (Z.of_nat i) = true) (seq 0 n))).
Proof.
  revert v. induction n as [|n IH]; intros v Hv; [done|]. cbn [seq count_bits].
  rewrite filter_cons. rewrite (IH (v / 2)) by (apply Z.div_pos; lia).
  rewrite <- fmap_S_seq. rewrite list_filter_fmap.
  assert (filter (λ i, Z.testbit v (Z.of_nat (S i)) = true) (seq 0 n)
          = filter (λ i, Z.testbit (v / 2) (Z.of_nat i) = true) (seq 0 n)) as ->.
  { apply list_filter_iff. intros i. rewrite Nat2Z.inj_succ, <- Z.div2_div.
    rewrite Z.div2_spec, Z.shiftr_spec by lia. by rewrite Z.add_1_r. }
  rewrite <- Z.bit0_odd. change (Z.of_nat 0) with 0. case_decide as E.
  - rewrite E. cbn [length Z.b2z]. rewrite length_fmap. lia.
  - rewrite length_fmap. destruct (Z.testbit v 0); [done|]. simpl. lia.
Qed.

(** The members of a bitset. *)
Definition members (b : bitset) : list nat :=
  filter (λ i, bget b (Z.of_nat i) = Some true) (seq 0 (64 * length b)).

Lemma bget_cons v b i : bget (v :: b) (Z.of_nat (64 + i)) = bget b (Z.of_nat i).
Proof.
  unfold bget, bitsetIndex. rewrite Nat2Z.inj_add. change (Z.of_nat 64) with (1 * 64).
  rewrite Z.add_comm, Z.div_add, Z_mod_plus_full by lia.
  rewrite Z2Nat.inj_add, Nat.add_comm; [done|apply Z.div_pos; lia|lia].
Qed.

Lemma members_cons v b : is_u64 v →
  Z.of_nat (length (members (v :: b))) = popcnt_word v + Z.of_nat (length (members b)).
Proof.
  intros Hv. rewrite popcnt_word_spec, testbit_count by (done || apply Hv). unfold members. cbn [length].
  replace (64 * S (length b))%nat with (64 + 64 * length b)%nat by lia.
  rewrite seq_app, filter_app, length_app, Nat2Z.inj_add. f_equal; [do 2 f_equal|f_equal].
  - apply list_filter_ext_in. intros i Hi. apply elem_of_seq in Hi.
    assert (bget (v :: b) (Z.of_nat i) = Some (Z.testbit v (Z.of_nat i))) as ->.
    { rewrite (bget_testbit _ _ v).
      - rewrite Z.mod_small by lia. done.
      - rewrite Z.div_small by lia. done. }
    split; [by intros [= ->]|by intros ->].
  - change (seq (0 + 64)) with (seq (64 + 0)). rewrite <- fmap_add_seq.
    rewrite list_filter_fmap, length_fmap. f_equal. apply list_filter_iff. intros i.
    by rewrite bget_cons.
Qed.

(** Bit sets behave as sets of positions: a new one is empty, [set] and
    [clear] change membership of exactly the given position, and neither panics
    on a position below the size the set was made for. *)
Theorem bitset_is_a_set n b pos :
  bits_of n b → 0 <= pos < n →
  bits_of n (newBitset n) ∧ bget (newBitset n) pos = Some false
  ∧ (∃ b', bset b pos = Some b' ∧ bits_of n b'
       ∧ ∀ q, 0 <= q < n → bget b' q = if decide (q = pos) then Some true else bget b q)
  ∧ (∃ b', bclear b pos = Some b' ∧ bits_of n b'
       ∧ ∀ q, 0 <= q < n → bget b' q = if decide (q = pos) then Some false else bget b q).
Proof.
  intros Hb Hp. split_and!; [apply newBitset_bits; lia|by apply newBitset_get|
    by apply bset_spec|by apply bclear_spec].
Qed.

Lemma bitset_is_a_set_witness :
  ∃ b', bset (newBitset 70) 67 = Some b' ∧ bget b' 67 = Some true ∧ bget b' 3 = Some false.
Proof.
  destruct (bitset_is_a_set 70 (newBitset 70) 67) as (_ & _ & (b' & E & _ & H) & _).
  - apply newBitset_bits. lia.
  - lia.
  - exists b'. refine (conj E _). rewrite !H by lia. split; reflexivity.
Defined.

(** [popcnt] counts the members: the parallel sums of bit fields and the
    multiplication that collects them compute the number of set bits. *)
Theorem popcnt_counts b :
  Forall is_u64 b → Z.of_nat (length b) < 2 ^ 57 → popcnt b = Z.of_nat (length (members b)).
Proof.
  intros Hf Hl. unfold popcnt.
  assert (∀ t, 0 <= t → t + 64 * Z.of_nat (length b) < 2 ^ 64 →
    foldl (λ total v, u64 (total + popcnt_word v)) t b = t + Z.of_nat (length (members b))) as Hg.
  { clear Hl. induction Hf as [|v b Hv Hf IH]; intros t Ht Hb; [simpl; lia|]. cbn [foldl].
    rewrite members_cons by done. pose proof (count_bits_range 64 v) as Hc.
    rewrite <- popcnt_word_spec in Hc by done. cbn [length] in Hb.
    rewrite u64_small by (unfold is_u64; lia). rewrite IH by lia. lia. }
  rewrite Hg by lia. lia.
Qed.

Lemma popcnt_counts_witness : popcnt [0xF0F0; 2 ^ 63 + 1] = 10.
Proof.
  etransitivity; [apply (popcnt_counts [0xF0F0; 2 ^ 63 + 1])|vm_compute; reflexivity].
  - repeat constructor; unfold is_u64; lia.
  - simpl. lia.
Defined.
