(* ===== verification/Linearizability.v ===== *)
(** Linearizability: the linearizability checker of the raft labs.

    Source: lab4-mapreduce/src/linearizability/{linearizability.go, model.go,
    models.go}.  The history is a doubly linked list of heap nodes; [lift] and
    [unlift] take a call and its return out of the list and put them back.
    [checkSingle] is the loop of the source, one iteration per [check_step]; a
    nil pointer or an index out of range is a panic ([None]).  [sort.Sort] gives
    no order among equal times: it is a parameter, any sorting function. *)
From Stdlib Require Import ZArith Lia.
From stdpp Require Import gmap strings list sorting.
From S2P Require Import Prelude.
From S2P Require Import Bitset.
Open Scope Z_scope.

Abbreviation loc := nat.

(** ** model.go *)
Record Operation (V : Type) := mkOp { Input : V; Call : Z; Output : V; Return : Z }.
Record Event (V : Type) := mkEvent { ev_Kind : bool; ev_Value : V; ev_Id : Z }.
Arguments mkOp {V} _ _ _ _.
Arguments Input {V} _.
Arguments Call {V} _.
Arguments Output {V} _.
Arguments Return {V} _.
Arguments mkEvent {V} _ _ _.
Arguments ev_Kind {V} _.
Arguments ev_Value {V} _.
Arguments ev_Id {V} _.

Definition CallEvent : bool := false.
Definition ReturnEvent : bool := true.

(** [None] is a nil function. *)
Record Model (St V : Type) := mkModel {
  Partition : option (list (Operation V) → list (list (Operation V)));
  PartitionEvent : option (list (Event V) → list (list (Event V)));
  Init : St;
  Step : St → V → V → bool * St;
  Equal : option (St → St → bool)
}.
Arguments mkModel {St V} _ _ _ _ _.
Arguments Partition {St V} _.
Arguments PartitionEvent {St V} _.
Arguments Init {St V} _.
Arguments Step {St V} _ _ _ _.
Arguments Equal {St V} _.

Definition NoPartition {V} (history : list (Operation V)) : list (list (Operation V)) := [history].
Definition NoPartitionEvent {V} (history : list (Event V)) : list (list (Event V)) := [history].
Definition ShallowEqual {St} `{!EqDecision St} (state1 state2 : St) : bool := bool_decide (state1 = state2).

(** ** Entries *)
Record entry (V : Type) := mkEntry { kind : bool; value : V; id : Z; time : Z }.
Arguments mkEntry {V} _ _ _ _.
Arguments kind {V} _.
Arguments value {V} _.
Arguments id {V} _.
Arguments time {V} _.

Definition callEntry : bool := false.
Definition returnEntry : bool := true.

(** [sort.Sort(byTime(entries))]. *)
Class Sorter := {
  sort_by_time : ∀ {V}, list (entry V) → list (entry V);
  sort_perm : ∀ {V} (l : list (entry V)), sort_by_time l ≡ₚ l;
  sort_sorted : ∀ {V} (l : list (entry V)), StronglySorted (λ a b, time a <= time b) (sort_by_time l)
}.

Fixpoint entries_from {V} (history : list (Operation V)) (i : Z) : list (entry V) :=
  match history with
  | [] => []
  | elem :: history' =>
      mkEntry callEntry (Input elem) i (Call elem)
      :: mkEntry returnEntry (Output elem) i (Return elem) :: entries_from history' (u64 (i + 1))
  end.

Definition makeEntries {SO : Sorter} {V} (history : list (Operation V)) : list (entry V) :=
  sort_by_time (entries_from history 0).

Fixpoint renumber_from {V} (events : list (Event V)) (m : gmap Z Z) (i : Z) : list (Event V) :=
  match events with
  | [] => []
  | v :: events' =>
      match m !! ev_Id v with
      | Some r => mkEvent (ev_Kind v) (ev_Value v) r :: renumber_from events' m i
      | None => mkEvent (ev_Kind v) (ev_Value v) i
                :: renumber_from events' (<[ev_Id v := i]> m) (u64 (i + 1))
      end
  end.
Definition renumber {V} (events : list (Event V)) : list (Event V) := renumber_from events ∅ 0.

Definition convertEntries {V} (events : list (Event V)) : list (entry V) :=
  (λ elem, let kind := if Bool.eqb (ev_Kind elem) ReturnEvent then returnEntry else callEntry in
           mkEntry kind (ev_Value elem) (ev_Id elem) (-1)) <$> events.

(** ** The linked list *)
Record node (V : Type) := mkNode {
  n_value : V;
  n_match : loc;  (** the return of a call, nil for a return *)
  n_id : Z;
  n_next : loc;
  n_prev : loc
}.
Arguments mkNode {V} _ _ _ _ _.
Arguments n_value {V} _.
Arguments n_match {V} _.
Arguments n_id {V} _.
Arguments n_next {V} _.
Arguments n_prev {V} _.

Record Heap (V : Type) := mkHeap { nodes : gmap loc (node V); next_free : loc }.
Arguments mkHeap {V} _ _.
Arguments nodes {V} _.
Arguments next_free {V} _.

Section list.
Context {V : Type}.
Abbreviation HM := (GoM (Heap V)).

Definition set_next (x : loc) (n : node V) : node V := mkNode (n_value n) (n_match n) (n_id n) x (n_prev n).
Definition set_prev (x : loc) (n : node V) : node V := mkNode (n_value n) (n_match n) (n_id n) (n_next n) x.

Definition load (l : loc) : HM (node V) := λ h, go_deref (nodes h !! l) h.
(** [l.next = x] and [l.prev = x]. *)
Definition store_next (l x : loc) : HM () :=
  load l ≫= λ n, go_modify (λ h, mkHeap (<[l := set_next x n]> (nodes h)) (next_free h)).
Definition store_prev (l x : loc) : HM () :=
  load l ≫= λ n, go_modify (λ h, mkHeap (<[l := set_prev x n]> (nodes h)) (next_free h)).
Definition new_node (n : node V) : HM loc :=
  λ h, Some (next_free h, mkHeap (<[next_free h := n]> (nodes h)) (S (next_free h))).

Definition insertBefore (n mark : loc) : HM loc :=
  if decide (mark = 0%nat) then mret n
  else
    m ← load mark;
    let beforeMark := n_prev m in
    store_prev mark n ≫= λ _,
    store_next n mark ≫= λ _,
    (if decide (beforeMark = 0%nat) then mret ()
     else store_prev n beforeMark ≫= λ _, store_next beforeMark n) ≫= λ _,
    mret n.

(** [fuel] bounds the length of the list; a list that does not end is [None]. *)
Fixpoint length_from (fuel : nat) (n : loc) (l : Z) : HM Z :=
  if decide (n = 0%nat) then mret l
  else
    match fuel with
    | O => go_panic
    | S fuel' => x ← load n; length_from fuel' (n_next x) (u64 (l + 1))
    end.

(** The entries are visited from the last to the first: the root so far and the
    returns seen. *)
Fixpoint makeLinkedEntries (entries : list (entry V)) : HM (loc * gmap Z loc) :=
  match entries with
  | [] => mret (0%nat, ∅)
  | elem :: entries' =>
      '(root, mtch) ← makeLinkedEntries entries';
      if Bool.eqb (kind elem) returnEntry then
        e ← new_node (mkNode (value elem) 0 (id elem) 0 0);
        insertBefore e root ≫= λ _,
        mret (e, <[id elem := e]> mtch)
      else
        e ← new_node (mkNode (value elem) (default 0%nat (mtch !! id elem)) (id elem) 0 0);
        insertBefore e root ≫= λ _,
        mret (e, mtch)
  end.

Definition lift (e : loc) : HM () :=
  n ← load e; store_next (n_prev n) (n_next n) ≫= λ _,
  n ← load e; store_prev (n_next n) (n_prev n) ≫= λ _,
  n ← load e;
  let mtch := n_match n in
  m ← load mtch; store_next (n_prev m) (n_next m) ≫= λ _,
  m ← load mtch;
  if decide (n_next m = 0%nat) then mret () else store_prev (n_next m) (n_prev m).

Definition unlift (e : loc) : HM () :=
  n ← load e;
  let mtch := n_match n in
  m ← load mtch; store_next (n_prev m) mtch ≫= λ _,
  m ← load mtch;
  (if decide (n_next m = 0%nat) then mret () else store_prev (n_next m) mtch) ≫= λ _,
  n ← load e; store_next (n_prev n) e ≫= λ _,
  n ← load e; store_prev (n_next n) e.
End list.

(** ** checkSingle *)
Section check.
Context {St V : Type} (model : Model St V) (equal : St → St → bool) (nil_value : V).

Record cacheEntry := mkCacheEntry { ce_linearized : bitset; ce_state : St }.

Definition cacheContains (cache : gmap Z (list cacheEntry)) (e : cacheEntry) : bool :=
  existsb (λ elem, equals (ce_linearized e) (ce_linearized elem) && equal (ce_state e) (ce_state elem))
    (default [] (cache !! hash (ce_linearized e))).

Record Check := mkCheck {
  c_heap : Heap V;
  c_linearized : bitset;
  c_cache : gmap Z (list cacheEntry);
  c_calls : list (loc * St);  (** the stack, its top first *)
  c_state : St;
  c_entry : loc
}.

Inductive outcome := Done (b : bool) | More (s : Check).

(** One iteration of the loop, with the value of [*kill]. *)
Definition check_step (kill : Z) (head : loc) (s : Check) : option outcome :=
  hd ← nodes (c_heap s) !! head;
  if decide (n_next hd = 0%nat) then Some (Done true)
  else if negb (kill =? 0) then Some (Done false)
  else
    e ← nodes (c_heap s) !! c_entry s;
    if decide (n_match e ≠ 0%nat) then
      matching ← nodes (c_heap s) !! n_match e;
      let '(ok, newState) := Step model (c_state s) (n_value e) (n_value matching) in
      if ok then
        newLinearized ← bset (clone (c_linearized s)) (n_id e);
        let newCacheEntry := mkCacheEntry newLinearized newState in
        if negb (cacheContains (c_cache s) newCacheEntry) then
          let h := hash newLinearized in
          let cache := <[h := default [] (c_cache s !! h) ++ [newCacheEntry]]> (c_cache s) in
          linearized ← bset (c_linearized s) (n_id e);
          '(_, heap) ← lift (c_entry s) (c_heap s);
          hd ← nodes heap !! head;
          Some (More (mkCheck heap linearized cache ((c_entry s, c_state s) :: c_calls s) newState (n_next hd)))
        else Some (More (mkCheck (c_heap s) (c_linearized s) (c_cache s) (c_calls s) (c_state s) (n_next e)))
      else Some (More (mkCheck (c_heap s) (c_linearized s) (c_cache s) (c_calls s) (c_state s) (n_next e)))
    else
      match c_calls s with
      | [] => Some (Done false)
      | (top_entry, top_state) :: calls =>
          e ← nodes (c_heap s) !! top_entry;
          linearized ← bclear (c_linearized s) (n_id e);
          '(_, heap) ← unlift top_entry (c_heap s);
          e ← nodes heap !! top_entry;
          Some (More (mkCheck heap linearized (c_cache s) calls top_state (n_next e)))
      end.

(** The loop; [kill i] is what iteration [i] reads. *)
Fixpoint check_loop (fuel i : nat) (kill : nat → Z) (head : loc) (s : Check) : option bool :=
  match fuel with
  | O => None
  | S fuel' =>
      r ← check_step (kill i) head s;
      match r with
      | Done b => Some b
      | More s' => check_loop fuel' (S i) kill head s'
      end
  end.

Definition checkSingle (fuel : nat) (kill : nat → Z) (subhistory : loc) (h : Heap V) : option bool :=
  '(l, h) ← length_from (next_free h) subhistory 0 h;
  let n := l / 2 in
  let linearized := newBitset n in
  '(n, h) ← new_node (mkNode nil_value 0 (2 ^ 64 - 1) 0 0) h;
  '(headEntry, h) ← insertBefore n subhistory h;
  check_loop fuel 0 kill headEntry (mkCheck h linearized ∅ [] (Init model) subhistory).
End check.

(** ** CheckOperations and CheckEvents *)
Definition fillDefault {St V} `{!EqDecision St} (model : Model St V) : Model St V :=
  mkModel (Some (default NoPartition (Partition model)))
    (Some (default NoPartitionEvent (PartitionEvent model)))
    (Init model) (Step model) (Some (default ShallowEqual (Equal model))).

(** The collecting loop: [events] are the results in the order they arrive on
    the channel, or the time-out; [None] is a loop that waits for ever. *)
Inductive arrival := Result (b : bool) | TimedOut.

Fixpoint collect (partitions count : nat) (ok : bool) (events : list arrival) : option bool :=
  match events with
  | [] => None
  | TimedOut :: _ => Some ok
  | Result result :: events' =>
      let ok := ok && result in
      if negb ok then Some ok
      else if decide (partitions <= S count)%nat then Some ok
      else collect partitions (S count) ok events'
  end.

Section drivers.
Context {St V : Type} {ED : EqDecision St} {SO : Sorter} (model : Model St V) (nil_value : V).

Definition empty_heap : Heap V := mkHeap ∅ 1.

(** The goroutine of one partition, when nobody sets [kill]: that only happens
    when the answer is settled. *)
Definition check_partition (fuel : nat) (entries : list (entry V)) : option bool :=
  let model := fillDefault model in
  '(r, h) ← makeLinkedEntries entries empty_heap;
  checkSingle model (default (λ _ _, false) (Equal model)) nil_value fuel (λ _, 0) r.1 h.

Fixpoint check_partitions (fuel : nat) (parts : list (list (entry V))) : option (list bool) :=
  match parts with
  | [] => Some []
  | p :: parts' => b ← check_partition fuel p; bs ← check_partitions fuel parts'; Some (b :: bs)
  end.

Definition operation_parts (history : list (Operation V)) : list (list (entry V)) :=
  makeEntries <$> default NoPartition (Partition model) history.
Definition event_parts (history : list (Event V)) : list (list (entry V)) :=
  (λ sub, convertEntries (renumber sub)) <$> default NoPartitionEvent (PartitionEvent model) history.

(** [arrive] turns the results of the partitions into what the collecting loop
    receives. *)
Definition CheckOperationsTimeout (fuel : nat) (arrive : list bool → list arrival)
    (history : list (Operation V)) : option bool :=
  bs ← check_partitions fuel (operation_parts history);
  collect (length bs) 0 true (arrive bs).

Definition CheckEventsTimeout (fuel : nat) (arrive : list bool → list arrival)
    (history : list (Event V)) : option bool :=
  bs ← check_partitions fuel (event_parts history);
  collect (length bs) 0 true (arrive bs).

(** A time-out of 0 is none: all results arrive, in some [order]. *)
Definition CheckOperations (fuel : nat) (order : list bool → list bool) (history : list (Operation V))
  : option bool :=
  CheckOperationsTimeout fuel (λ bs, Result <$> order bs) history.

Definition CheckEvents (fuel : nat) (order : list bool → list bool) (history : list (Event V))
  : option bool :=
  CheckEventsTimeout fuel (λ bs, Result <$> order bs) history.
End drivers.

(** ** models.go *)
Record KvInput := mkKvInput { kv_Op : Z; kv_Key : string; kv_In : string }.
Inductive KvValue := KvI (i : KvInput) | KvO (v : string).

(** The step of the model; [None] is the panic of a failed type assertion. *)
Definition kv_Step (st : string) (input output : KvValue) : option (bool * string) :=
  match input, output with
  | KvI inp, KvO out =>
      Some (if kv_Op inp =? 0 then (bool_decide (out = st), st)
            else if kv_Op inp =? 1 then (true, kv_In inp)
            else (true, st +:+ kv_In inp))
  | _, _ => None
  end.

(** [v.Input.(KvInput).Key]; [None] is a panic. *)
Definition op_Key (v : Operation KvValue) : option string :=
  match Input v with KvI i => Some (kv_Key i) | KvO _ => None end.

(** Inputs and outputs are in their places: no type assertion fails. *)
Definition kv_typed (v : Operation KvValue) : Prop :=
  match Input v, Output v with KvI _, KvO _ => True | _, _ => False end.

(** The checker takes total functions.  On a history of typed operations these are
    the functions above ([kv_typed_step], [kv_typed_key]). *)
Definition kv_step (st : string) (input output : KvValue) : bool * string :=
  default (false, st) (kv_Step st input output).
Definition op_key (v : Operation KvValue) : string := default "" (op_Key v).

Lemma kv_typed_step st v : kv_typed v → kv_Step st (Input v) (Output v) = Some (kv_step st (Input v) (Output v)).
Proof. unfold kv_typed, kv_step, kv_Step. by destruct (Input v), (Output v). Qed.
Lemma kv_typed_key v : kv_typed v → op_Key v = Some (op_key v).
Proof. unfold kv_typed, op_key, op_Key. by destruct (Input v). Qed.

Definition kv_partition {RO : RangeOrder} (history : list (Operation KvValue))
  : list (list (Operation KvValue)) :=
  let m := foldl (λ (m : gmap string (list (Operation KvValue))) v,
             <[op_key v := default [] (m !! op_key v) ++ [v]]> m) ∅ history in
  (go_range m).*2.

Definition KvModel {RO : RangeOrder} : Model string KvValue :=
  mkModel (Some kv_partition) None "" kv_step (Some ShallowEqual).

(** CheckOperations with KvModel: the partition asserts the type of every input and
    panics ([None]) on another one. *)
Definition kv_CheckOperations {RO : RangeOrder} {SO : Sorter} (nil_value : KvValue) (fuel : nat) (order : list bool → list bool)
  (history : list (Operation KvValue)) : option bool :=
  if forallb (λ v, bool_decide (is_Some (op_Key v))) history
  then CheckOperations KvModel nil_value fuel order history else None.
