(* ===== verification/LinSpec.v ===== *)
(** LinSpec: what it means for a history to be linearizable.

    A history is a list of call and return entries, one of each per operation.
    [linearizable] is the usual definition: some order of the operations keeps
    every pair that does not overlap and is a run of the sequential model.  [lin]
    is the recursive form the checker searches for - take out one operation that
    was called before any return, then go on - and [lin_linearizable] says that
    the two agree. *)
From Stdlib Require Import ZArith Lia.
From stdpp Require Import gmap strings list sorting.
From S2P Require Import Prelude.
From S2P Require Import Bitset.
From S2P Require Import Linearizability.
Open Scope Z_scope.

Section spec.
Context {St V : Type} (step : St → V → V → bool * St).
Implicit Types (es : list (entry V)) (e r : entry V) (st : St).

Definition is_call e : Prop := kind e = callEntry.
Definition is_return e : Prop := kind e = returnEntry.

(** One call and one return per operation, in this order. *)
Record wf_history es : Prop := {
  wf_nodup : NoDup ((λ e, (kind e, id e)) <$> es);
  wf_call : ∀ pre e suf, es = pre ++ e :: suf → is_call e → ∃ r, r ∈ suf ∧ is_return r ∧ id r = id e;
  wf_return : ∀ pre r suf, es = pre ++ r :: suf → is_return r → ∃ e, e ∈ pre ∧ is_call e ∧ id e = id r
}.

Abbreviation without i es := (filter (λ x, id x ≠ i) es).

(** ** The recursive form *)
Inductive lin : list (entry V) → St → Prop :=
| lin_nil st : lin [] st
| lin_take es pre e suf r st st' :
    es = pre ++ e :: suf → Forall is_call pre → is_call e →
    r ∈ es → is_return r → id r = id e → step st (value e) (value r) = (true, st') →
    lin (without (id e) es) st' → lin es st.

(** ** The definition *)

(** [x] comes before [y]. *)
Definition before {A} (l : list A) (x y : A) : Prop := ∃ l1 l2 l3, l = l1 ++ x :: l2 ++ y :: l3.

(** A run of the model over the operations [ord]. *)
Inductive legal es : list Z → St → Prop :=
| legal_nil st : legal es [] st
| legal_cons i ord e r st st' :
    e ∈ es → is_call e → id e = i → r ∈ es → is_return r → id r = i →
    step st (value e) (value r) = (true, st') → legal es ord st' → legal es (i :: ord) st.

Definition precedes es (i j : Z) : Prop :=
  ∃ r c, before es r c ∧ is_return r ∧ id r = i ∧ is_call c ∧ id c = j.

Definition linearizable es st : Prop :=
  ∃ ord, NoDup ord ∧ (∀ i, i ∈ ord ↔ i ∈ id <$> es)
    ∧ (∀ i j, precedes es i j → before ord i j) ∧ legal es ord st.

(** ** Lists *)
Lemma before_elem {A} (l : list A) x y : before l x y → x ∈ l ∧ y ∈ l.
Proof.
  intros (l1 & l2 & l3 & ->). set_solver.
Qed.

Lemma before_filter {A} (P : A → Prop) `{!∀ x, Decision (P x)} (l : list A) x y :
  before (filter P l) x y ↔ before l x y ∧ P x ∧ P y.
Proof.
  split.
  - intros Hb. assert (P x ∧ P y) as [Hx Hy].
    { apply before_elem in Hb as [H1 H2]. by rewrite !list_elem_of_filter in *; destruct H1, H2. }
    split; [|done]. destruct Hb as (l1 & l2 & l3 & E). revert l1 E.
    induction l as [|z l IH]; intros l1 E; [by destruct l1|]. rewrite filter_cons in E. case_decide as Hz.
    + destruct l1 as [|z1 l1]; simpl in E; injection E as -> E.
      * assert (y ∈ l) as Hin.
        { assert (y ∈ filter P l) as Hf by (rewrite E; set_solver). apply list_elem_of_filter in Hf. by destruct Hf. }
        apply list_elem_of_split in Hin as (k1 & k2 & ->). by exists [], k1, k2.
      * destruct (IH _ E) as (k1 & k2 & k3 & ->). by exists (z1 :: k1), k2, k3.
    + destruct (IH _ E) as (k1 & k2 & k3 & ->). by exists (z :: k1), k2, k3.
  - intros ((l1 & l2 & l3 & ->) & Hx & Hy). rewrite filter_app, filter_cons_True, filter_app, filter_cons_True by done.
    by eexists _, _, _.
Qed.

Lemma before_cons {A} (z : A) l x y : before (z :: l) x y ↔ (x = z ∧ y ∈ l) ∨ before l x y.
Proof.
  split.
  - intros ([|a l1] & l2 & l3 & E); simpl in E; injection E as -> ->; [left; set_solver|right; by eexists _, _, _].
  - intros [[-> Hin]|(l1 & l2 & l3 & ->)]; [|by exists (z :: l1), l2, l3].
    apply list_elem_of_split in Hin as (k1 & k2 & ->). by exists [], k1, k2.
Qed.

(** ** Well-formed histories *)
Lemma wf_unique es e e' : wf_history es → e ∈ es → e' ∈ es → kind e = kind e' → id e = id e' → e = e'.
Proof.
  intros W [i Hi]%list_elem_of_lookup_1 [j Hj]%list_elem_of_lookup_1 Hk He.
  assert (i = j) as <-; [|congruence].
  apply (NoDup_lookup ((λ e, (kind e, id e)) <$> es) i j (kind e, id e)); [apply W| |].
  - by rewrite list_lookup_fmap, Hi.
  - rewrite list_lookup_fmap, Hj. simpl. by rewrite Hk, He.
Qed.

Lemma wf_filter (Q : entry V → Prop) `{!∀ x, Decision (Q x)} es :
  (∀ x y, id x = id y → Q x → Q y) → wf_history es → wf_history (filter Q es).
Proof.
  intros HQ W. assert (∀ P `{!∀ x, Decision (P x)} pre e suf, filter P es = pre ++ e :: suf →
    ∃ p s, es = p ++ e :: s ∧ pre = filter P p ∧ suf = filter P s ∧ P e) as Hs.
  { clear W. intros P HP. induction es as [|x l IH]; intros pre e suf E; [by destruct pre|].
    rewrite filter_cons in E. case_decide as Hx.
    - destruct pre as [|y pre]; simpl in E; injection E as -> E; [by exists [], l|].
      destruct (IH _ _ _ E) as (p & s & -> & -> & -> & He). exists (y :: p), s.
      split_and!; try done. by rewrite filter_cons_True.
    - destruct (IH _ _ _ E) as (p & s & -> & -> & -> & He). exists (x :: p), s.
      split_and!; try done. by rewrite filter_cons_False. }
  split.
  - eapply sublist_NoDup; [apply (wf_nodup _ W)|]. apply fmap_sublist. apply sublist_filter.
  - intros pre e suf E Hc. apply Hs in E as (p & s & E & -> & -> & He).
    destruct (wf_call _ W _ _ _ E Hc) as (r & Hr & Hk & Hi). exists r. split; [|done].
    apply list_elem_of_filter. split; [by apply (HQ e)|done].
  - intros pre r suf E Hc. apply Hs in E as (p & s & E & -> & -> & He).
    destruct (wf_return _ W _ _ _ E Hc) as (e & Hr & Hk & Hi). exists e. split; [|done].
    apply list_elem_of_filter. split; [by apply (HQ r)|done].
Qed.

Lemma wf_without es i : wf_history es → wf_history (without i es).
Proof. apply wf_filter. intros x y ->. done. Qed.

(** Both entries of every operation are present. *)
Lemma wf_both es e : wf_history es → e ∈ es →
  ∃ c r, c ∈ es ∧ is_call c ∧ id c = id e ∧ r ∈ es ∧ is_return r ∧ id r = id e.
Proof.
  intros W He. apply list_elem_of_split in He as (l1 & l2 & E). destruct (kind e) eqn:Hk.
  - destruct (wf_return _ W _ _ _ E Hk) as (c & Hc & Hkc & Hi). exists c, e. rewrite E. set_solver.
  - destruct (wf_call _ W _ _ _ E Hk) as (r & Hr & Hkr & Hi). exists e, r. rewrite E. set_solver.
Qed.

Lemma wf_NoDup es : wf_history es → NoDup es.
Proof. intros W. eapply NoDup_fmap_1, (wf_nodup _ W). Qed.

Lemma before_split {A} (pre suf : list A) (x e : A) : NoDup (pre ++ e :: suf) → before (pre ++ e :: suf) x e → x ∈ pre.
Proof.
  intros Hn (l1 & l2 & l3 & E). rewrite app_comm_cons, app_assoc in E.
  assert (pre = l1 ++ x :: l2) as ->; [|set_solver].
  revert E Hn. generalize (l1 ++ x :: l2). clear. induction pre as [|y pre IH]; intros l E Hn.
  - destruct l as [|z l]; [done|]. simpl in E. injection E as -> E. apply NoDup_cons in Hn as [Hn _].
    exfalso. apply Hn. rewrite E. set_solver.
  - destruct l as [|z l]; simpl in E; injection E as -> E.
    + apply NoDup_cons in Hn as [Hn _]. exfalso. apply Hn. set_solver.
    + apply NoDup_cons in Hn as [_ Hn]. f_equal. by apply IH.
Qed.

Lemma legal_without es i ord st : i ∉ ord → legal (without i es) ord st ↔ legal es ord st.
Proof.
  intros Hi. split.
  - induction 1 as [|j ord e r st st' He Hc <- Hr Hk Hj Hs _ IH]; [constructor|].
    apply list_elem_of_filter in He as [_ He], Hr as [_ Hr].
    apply (legal_cons es _ _ e r st st'); try done. apply IH. set_solver.
  - induction 1 as [|j ord e r st st' He Hc <- Hr Hk Hj Hs _ IH]; [constructor|].
    assert (id e ≠ i) by set_solver.
    apply (legal_cons _ _ _ e r st st'); try done; [by apply list_elem_of_filter| |apply IH; set_solver].
    apply list_elem_of_filter. split; [congruence|done].
Qed.

Lemma elem_of_ids es i : i ∈ id <$> es ↔ ∃ e, e ∈ es ∧ id e = i.
Proof.
  rewrite list_elem_of_fmap. split; intros (e & H1 & H2); exists e; by rewrite ?H1, ?H2.
Qed.

Lemma precedes_without es k i j : precedes (without k es) i j ↔ precedes es i j ∧ i ≠ k ∧ j ≠ k.
Proof.
  unfold precedes. split.
  - intros (r & c & (Hb & H1 & H2)%before_filter & ? & <- & ? & <-). split; [|done]. by exists r, c.
  - intros ((r & c & Hb & ? & <- & ? & <-) & H1 & H2). exists r, c. split; [|done]. by apply before_filter.
Qed.

Lemma lin_sound es st : wf_history es → lin es st → linearizable es st.
Proof.
  intros W HL. induction HL as [st|es pre e suf r st st' E Hpre Hc Hr Hk Hi Hs _ IH].
  { exists []. split_and!; [constructor|done| |constructor].
    intros i j (r & c & Hb & _). apply before_elem in Hb as [H _]. by apply not_elem_of_nil in H. }
  destruct (IH (wf_without _ _ W)) as (ord & Hnd & Hmem & Hprec & Hleg).
  assert (id e ∉ ord) as Hne.
  { rewrite Hmem, elem_of_ids. intros (x & (Hx & _)%list_elem_of_filter & Hxe). done. }
  assert (e ∈ es) as He by (rewrite E; apply elem_of_app; right; left).
  assert (∀ i, i ∈ id <$> es → i ≠ id e → i ∈ ord) as Hin.
  { intros i (x & Hx & <-)%elem_of_ids Hxe. apply Hmem, elem_of_ids. exists x. split; [|done].
    by apply list_elem_of_filter. }
  exists (id e :: ord). split_and!.
  - by apply NoDup_cons.
  - intros i. rewrite elem_of_cons. split.
    + intros [->|Ho]; [apply elem_of_ids; by exists e|].
      apply Hmem, elem_of_ids in Ho as (x & [_ Hx]%list_elem_of_filter & <-). apply elem_of_ids. by exists x.
    + intros Ho. destruct (decide (i = id e)); [by left|right]. by apply Hin.
  - intros i j Hp. assert (j ≠ id e) as Hj.
    { intros ->. destruct Hp as (r0 & c & Hb & Hr0 & _ & Hc0 & Hce).
      destruct (before_elem _ _ _ Hb) as [_ Hcin].
      assert (c = e) as -> by (apply (wf_unique es); try done; congruence).
      rewrite E in Hb. apply before_split in Hb; [|rewrite <- E; by apply wf_NoDup].
      rewrite Forall_forall in Hpre. apply Hpre in Hb. unfold is_call, is_return, callEntry, returnEntry in *. congruence. }
    apply before_cons. destruct (decide (i = id e)) as [->|Hie].
    + left. split; [done|]. apply Hin; [|done]. destruct Hp as (r0 & c & Hb & _ & _ & _ & <-).
      apply elem_of_ids. exists c. split; [|done]. by apply before_elem in Hb as [_ ?].
    + right. apply Hprec. by apply precedes_without.
  - apply (legal_cons es _ _ e r st st'); try done. by apply legal_without in Hleg.
Qed.

Lemma lin_complete es st : wf_history es → linearizable es st → lin es st.
Proof.
  intros W (ord & Hnd & Hmem & Hprec & Hleg). revert es st W Hmem Hprec Hleg.
  induction Hnd as [|i ord Hi Hnd IH]; intros es st W Hmem Hprec Hleg.
  { destruct es as [|e es]; [constructor|]. exfalso. apply (not_elem_of_nil (id e)), Hmem. left. }
  inversion Hleg as [|i' ord' e r st0 st' He Hc Hie Hr Hk Hre Hs Hl]; subst.
  pose proof He as (pre & suf & E)%list_elem_of_split.
  eapply (lin_take es pre e suf r); try done.
  - apply Forall_forall. intros x Hx. unfold is_call, callEntry. destruct (kind x) eqn:Hkx; [|done]. exfalso.
    apply Hi. assert (before (id e :: ord) (id x) (id e)) as Hb.
    { apply Hprec. exists x, e. split_and!; try done. apply list_elem_of_split in Hx as (p1 & p2 & ->).
      exists p1, p2, suf. by rewrite E, <- app_assoc. }
    apply before_cons in Hb as [[_ H]|H]; [done|]. by apply before_elem in H as [_ H].
  - apply IH; [by apply wf_without| | |by apply legal_without].
    + intros j. rewrite elem_of_ids. split.
      * intros Hj. assert (j ∈ id e :: ord) as (x & Hx & <-)%Hmem%elem_of_ids by (by right).
        exists x. split; [|done]. apply list_elem_of_filter. split; [congruence|done].
      * intros (x & [Hxe Hx]%list_elem_of_filter & <-).
        assert (id x ∈ id e :: ord) as Hm by (apply Hmem, elem_of_ids; by exists x).
        by apply elem_of_cons in Hm as [?|?].
    + intros a b Hp. apply precedes_without in Hp as (Hp & Ha & _).
      apply Hprec, before_cons in Hp as [[-> _]|Hp]; [done|done].
Qed.

Lemma lin_linearizable es st : wf_history es → lin es st ↔ linearizable es st.
Proof. intros W. split; [by apply lin_sound|by apply lin_complete]. Qed.
End spec.
