(* ===== verification/LinList.v ===== *)
(** LinList: the doubly linked history of the checker.

    [dll] describes a linked list of heap nodes, [unlink] and [relink] the two
    halves of [lift] and [unlift].  The main facts are that [lift] removes a call
    and its return from the list, that [unlift] restores the heap exactly, and
    that [makeLinkedEntries] builds the list of the entries. *)
From Stdlib Require Import ZArith Lia.
From stdpp Require Import gmap strings list sorting.
From S2P Require Import Prelude.
From S2P Require Import Bitset.
From S2P Require Import Linearizability.
From S2P Require Import LinSpec.
Open Scope Z_scope.

Section dll.
Context {V : Type}.
Implicit Types (g : gmap loc (node V)) (h : Heap V) (l : list loc) (n : node V).

(** The nodes [l] in order; [p] is the predecessor of the first, [q] the
    successor of the last. *)
Fixpoint dll g (p : loc) l (q : loc) : Prop :=
  match l with
  | [] => True
  | x :: l' => ∃ n, g !! x = Some n ∧ n_prev n = p ∧ n_next n = hd q l' ∧ dll g x l' q
  end.

Lemma last_cons' (x : loc) l p : List.last (x :: l) p = List.last l x.
Proof.
  revert x p. induction l as [|y l IH]; intros x p; [done|].
  transitivity (List.last (y :: l) p); [done|]. by rewrite !IH.
Qed.

Lemma dll_app g p l1 l2 q :
  dll g p (l1 ++ l2) q ↔ dll g p l1 (hd q l2) ∧ dll g (List.last l1 p) l2 q.
Proof.
  revert p. induction l1 as [|x l1 IH]; intros p; [simpl; tauto|].
  rewrite last_cons'. cbn [app dll]. assert (hd q (l1 ++ l2) = hd (hd q l2) l1) as -> by (by destruct l1).
  split.
  - intros (n & H1 & H2 & H3 & [H4 H5]%IH). split; [|done]. by exists n.
  - intros [(n & H1 & H2 & H3 & H4) H5]. exists n. split_and!; try done. by apply IH.
Qed.

Lemma dll_frame g p l q y n : y ∉ l → dll g p l q → dll (<[y := n]> g) p l q.
Proof.
  revert p. induction l as [|x l IH]; intros p Hy; [done|]. apply not_elem_of_cons in Hy as [Hx Hy].
  intros (m & H1 & H2 & H3 & H4). exists m. rewrite lookup_insert_ne by done. split_and!; try done. by apply IH.
Qed.

Lemma dll_lookup g p l q x : dll g p l q → x ∈ l → is_Some (g !! x).
Proof.
  revert p. induction l as [|y l IH]; intros p; [by intros _ ?%not_elem_of_nil|].
  intros (n & H1 & _ & _ & H2) [->|Hx]%elem_of_cons; [by eexists|by eapply IH].
Qed.

(** Redirecting the last [next] and the first [prev]. *)
Lemma dll_set_next g p l x q q' n :
  g !! x = Some n → x ∉ l → dll g p (l ++ [x]) q → dll (<[x := set_next q' n]> g) p (l ++ [x]) q'.
Proof.
  intros Hx Hn. rewrite !dll_app. intros [H1 (m & H2 & H3 & _)]. simplify_eq. split.
  - by apply dll_frame.
  - exists (set_next q' n). rewrite lookup_insert_eq. done.
Qed.

Lemma dll_set_prev g p l x q p' n :
  g !! x = Some n → x ∉ l → dll g p (x :: l) q → dll (<[x := set_prev p' n]> g) p' (x :: l) q.
Proof.
  intros Hx Hn (m & H1 & H2 & H3 & H4). simplify_eq. exists (set_prev p' n). rewrite lookup_insert_eq.
  split_and!; try done. by apply dll_frame.
Qed.

(** What [lift] and [unlift] leave alone. *)
Definition content n : V * loc * Z := (n_value n, n_match n, n_id n).
Definition same_content g g' : Prop := ∀ x, content <$> g !! x = content <$> g' !! x.

#[export] Instance same_content_refl : Reflexive same_content.
Proof. by intros g x. Qed.
#[export] Instance same_content_trans : Transitive same_content.
Proof. intros g1 g2 g3 H1 H2 x. by rewrite H1. Qed.

Lemma same_content_insert g x n n' : g !! x = Some n → content n = content n' → same_content g (<[x := n']> g).
Proof.
  intros Hx Hc y. destruct (decide (y = x)) as [->|Hne]; [by rewrite lookup_insert_eq, Hx; simpl; f_equal|].
  by rewrite lookup_insert_ne.
Qed.

(** ** Taking one node out, and putting it back *)
Definition unlink (x : loc) : GoM (Heap V) () :=
  n ← load x; store_next (n_prev n) (n_next n) ≫= λ _,
  n ← load x;
  if decide (n_next n = 0%nat) then mret () else store_prev (n_next n) (n_prev n).
Definition relink (x : loc) : GoM (Heap V) () :=
  n ← load x; store_next (n_prev n) x ≫= λ _,
  n ← load x;
  if decide (n_next n = 0%nat) then mret () else store_prev (n_next n) x.

Lemma load_eq h x n : nodes h !! x = Some n → load x h = Some (n, h).
Proof. intros H. unfold load. by rewrite H. Qed.

Lemma store_next_eq h x n y : nodes h !! x = Some n →
  store_next x y h = Some ((), mkHeap (<[x := set_next y n]> (nodes h)) (next_free h)).
Proof. intros H. unfold store_next, mbind, GoM_bind. by rewrite (load_eq h x n H). Qed.

Lemma store_prev_eq h x n y : nodes h !! x = Some n →
  store_prev x y h = Some ((), mkHeap (<[x := set_prev y n]> (nodes h)) (next_free h)).
Proof. intros H. unfold store_prev, mbind, GoM_bind. by rewrite (load_eq h x n H). Qed.

Lemma node_eta n x p q : n_prev n = p → n_next n = q →
  set_next q (set_next x n) = n ∧ set_prev p (set_prev x n) = n.
Proof. intros <- <-. by destruct n. Qed.

Lemma heap_eta h : mkHeap (nodes h) (next_free h) = h.
Proof. by destruct h. Qed.

Section unlink.
Context (h : Heap V) (A B : list loc) (p x : loc).
Context (Hn : NoDup ((A ++ [p]) ++ x :: B)) (H0 : 0%nat ∉ (A ++ [p]) ++ x :: B).
Context (Hd : dll (nodes h) 0 ((A ++ [p]) ++ x :: B) 0).

(** The last node: only its predecessor changes. *)
Lemma unlink_last : B = [] → ∃ g,
  unlink x h = Some ((), mkHeap g (next_free h)) ∧ dll g 0 ((A ++ [p]) ++ B) 0
  ∧ same_content (nodes h) g ∧ relink x (mkHeap g (next_free h)) = Some ((), h).
Proof using All.
  intros ->. pose proof Hd as [Hd1 (nx & Hx & Hxp & Hxn & _)]%dll_app.
  rewrite List.last_last in Hxp. simpl in Hxn, Hd1.
  pose proof Hd1 as [_ (np & Hp & _ & Hpn & _)]%dll_app. simpl in Hpn.
  rewrite app_nil_r in *. apply NoDup_app in Hn as (Hn1 & Hn2 & _).
  assert (x ≠ p) as Hxpne by (intros ->; apply (Hn2 p); elem_tac).
  assert (p ∉ A) as HpA.
  { apply NoDup_app in Hn1 as (_ & Hn1 & _). intros Hin. apply (Hn1 p Hin). elem_tac. }
  exists (<[p := set_next 0 np]> (nodes h)). split_and!.
  - unfold unlink, mbind, GoM_bind. rewrite (load_eq h x nx Hx), Hxp, Hxn.
    rewrite (store_next_eq h p np 0 Hp). rewrite (load_eq _ x nx) by (simpl; by rewrite lookup_insert_ne).
    by rewrite Hxn.
  - by eapply dll_set_next.
  - by apply (same_content_insert _ p np).
  - unfold relink, mbind, GoM_bind. rewrite (load_eq _ x nx) by (simpl; by rewrite lookup_insert_ne).
    rewrite Hxp. rewrite (store_next_eq _ p (set_next 0 np)) by (simpl; by rewrite lookup_insert_eq).
    rewrite (load_eq _ x nx) by (simpl; by rewrite !lookup_insert_ne). rewrite Hxn. simpl.
    rewrite insert_insert_eq. destruct (node_eta np 0%nat (n_prev np) x eq_refl Hpn) as [-> _].
    by rewrite insert_id, heap_eta.
Qed.

Lemma unlink_inner q B' : B = q :: B' → ∃ g,
  unlink x h = Some ((), mkHeap g (next_free h)) ∧ dll g 0 ((A ++ [p]) ++ B) 0
  ∧ same_content (nodes h) g ∧ relink x (mkHeap g (next_free h)) = Some ((), h).
Proof using All.
  intros ->. pose proof Hd as [Hd1 (nx & Hx & Hxp & Hxn & Hd2)]%dll_app.
  rewrite List.last_last in Hxp. simpl in Hxn, Hd1.
  pose proof Hd1 as [_ (np & Hp & _ & Hpn & _)]%dll_app. simpl in Hpn.
  pose proof Hd2 as (nq & Hq & Hqp & _ & _).
  apply NoDup_app in Hn as (Hn1 & Hn2 & Hn3).
  assert (x ≠ p) as Hxpne by (intros ->; apply (Hn2 p); elem_tac).
  assert (q ≠ p) as Hqpne by (intros ->; apply (Hn2 p); elem_tac).
  apply NoDup_cons in Hn3 as [Hx3 Hn3]. apply NoDup_cons in Hn3 as [Hq3 _].
  assert (x ≠ q) as Hxqne by (intros ->; apply Hx3; left).
  assert (q ≠ 0%nat) as Hq0 by (intros ->; apply H0; elem_tac).
  assert (p ∉ A) as HpA.
  { apply NoDup_app in Hn1 as (_ & Hn1 & _). intros Hin. apply (Hn1 p Hin). elem_tac. }
  exists (<[q := set_prev p nq]> (<[p := set_next q np]> (nodes h))). split_and!.
  - unfold unlink, mbind, GoM_bind. rewrite (load_eq h x nx Hx), Hxp, Hxn.
    rewrite (store_next_eq h p np q Hp). rewrite (load_eq _ x nx) by (simpl; by rewrite lookup_insert_ne).
    rewrite Hxn, decide_False, Hxp by done.
    by rewrite (store_prev_eq _ q nq) by (simpl; by rewrite lookup_insert_ne).
  - apply dll_app. rewrite List.last_last. cbn [hd]. split.
    + apply dll_frame; [intros Hin; apply (Hn2 q Hin); elem_tac|]. by eapply dll_set_next.
    + eapply dll_set_prev; [by rewrite lookup_insert_ne|done|].
      apply dll_frame; [intros Hin; apply (Hn2 p); [elem_tac|by right]|]. exact Hd2.
  - transitivity (<[p := set_next q np]> (nodes h)); [by apply (same_content_insert _ p np)|].
    apply (same_content_insert _ q nq); [by rewrite lookup_insert_ne|done].
  - unfold relink, mbind, GoM_bind.
    rewrite (load_eq _ x nx) by (simpl; by rewrite !lookup_insert_ne by congruence).
    rewrite Hxp. rewrite (store_next_eq _ p (set_next q np)).
    2:{ simpl. rewrite lookup_insert_ne by done. by rewrite lookup_insert_eq. }
    rewrite (load_eq _ x nx) by (simpl; by rewrite !lookup_insert_ne by congruence).
    rewrite Hxn, decide_False by done.
    rewrite (store_prev_eq _ q (set_prev p nq)).
    2:{ simpl. rewrite lookup_insert_ne by done. by rewrite lookup_insert_eq. }
    simpl. destruct (node_eta np q (n_prev np) x eq_refl Hpn) as [-> _].
    destruct (node_eta nq p x (n_next nq) Hqp eq_refl) as [_ ->].
    match goal with |- Some (_, mkHeap ?g _) = _ => assert (g = nodes h) as -> end; [|by rewrite heap_eta].
    apply map_eq. intros y. destruct (decide (y = q)) as [->|Hyq]; [by rewrite lookup_insert_eq|].
    destruct (decide (y = p)) as [->|Hyp].
    + rewrite lookup_insert_ne by done. by rewrite lookup_insert_eq.
    + by rewrite !lookup_insert_ne by done.
Qed.
End unlink.

Lemma unlink_spec h A B x :
  NoDup (A ++ x :: B) → 0%nat ∉ A ++ x :: B → A ≠ [] → dll (nodes h) 0 (A ++ x :: B) 0 →
  ∃ g, unlink x h = Some ((), mkHeap g (next_free h)) ∧ dll g 0 (A ++ B) 0
    ∧ same_content (nodes h) g ∧ relink x (mkHeap g (next_free h)) = Some ((), h).
Proof.
  intros Hn H0 HA Hd. destruct (exists_last HA) as (A' & p & ->).
  destruct B as [|q B']; [by eapply unlink_last|by eapply unlink_inner].
Qed.

(** ** lift and unlift *)
Lemma lift_eq h x n : nodes h !! x = Some n → n_prev n ≠ x → n_next n ≠ x → n_next n ≠ 0%nat →
  lift x h = match unlink x h with Some (_, h1) => unlink (n_match n) h1 | None => None end.
Proof.
  intros Hx Hp Hq H0. unfold lift, unlink at 1, mbind, GoM_bind. rewrite (load_eq h x n Hx).
  unfold store_next at 1 3, mbind, GoM_bind. destruct (load (n_prev n) h) as [[np h']|] eqn:E; [|done].
  unfold load in E. destruct (nodes h !! n_prev n) as [np'|] eqn:Enp; [|done]. injection E as -> <-.
  simpl. rewrite (load_eq _ x n) by (simpl; by rewrite lookup_insert_ne). rewrite decide_False by done.
  unfold store_prev, mbind, GoM_bind.
  destruct (load (n_next n) _) as [[nq h']|] eqn:E; [|done]. unfold load in E. simpl in E.
  destruct (<[n_prev n := set_next (n_next n) np]> (nodes h) !! n_next n) as [nq'|] eqn:Enq; [|done].
  injection E as -> <-. simpl.
  rewrite (load_eq _ x n) by (simpl; by rewrite !lookup_insert_ne). done.
Qed.

Lemma unlift_eq h h1 x n n0 :
  nodes h !! x = Some n0 → relink (n_match n0) h = Some ((), h1) → nodes h1 !! x = Some n →
  n_prev n ≠ x → n_next n ≠ 0%nat → unlift x h = relink x h1.
Proof.
  intros Hx Hm Hx1 Hp H0. unfold unlift. unfold mbind at 1, GoM_bind at 1. rewrite (load_eq h x n0 Hx).
  assert (∀ (k : GoM (Heap V) ()),
    (m ← load (n_match n0); store_next (n_prev m) (n_match n0) ≫= λ _,
     m ← load (n_match n0);
     (if decide (n_next m = 0%nat) then mret () else store_prev (n_next m) (n_match n0)) ≫= λ _, k) h
    = match relink (n_match n0) h with Some (_, h') => k h' | None => None end) as ->.
  { intros k. unfold relink, mbind, GoM_bind.
    destruct (load (n_match n0) h) as [[m h2]|]; [|done].
    destruct (store_next (n_prev m) (n_match n0) h2) as [[u h3]|]; [|done].
    destruct (load (n_match n0) h3) as [[m2 h4]|]; [|done]. done. }
  rewrite Hm. unfold relink, mbind, GoM_bind. rewrite (load_eq h1 x n Hx1).
  destruct (store_next (n_prev n) x h1) as [[[] h2]|] eqn:E; [|done].
  assert (nodes h2 !! x = Some n) as Hx2.
  { unfold store_next, mbind, GoM_bind, load in E. destruct (nodes h1 !! n_prev n) as [np|]; [|done].
    simpl in E. injection E as <-. simpl. by rewrite lookup_insert_ne. }
  rewrite (load_eq h2 x n Hx2). by rewrite decide_False.
Qed.

Lemma dll_mid g p A x B q : dll g p (A ++ x :: B) q →
  ∃ n, g !! x = Some n ∧ n_prev n = List.last A p ∧ n_next n = hd q B.
Proof. rewrite dll_app. intros [_ (n & H1 & H2 & H3 & _)]. by exists n. Qed.

Lemma lift_spec h head A B C x m n :
  let l := head :: A ++ x :: B ++ m :: C in
  NoDup l → 0%nat ∉ l → dll (nodes h) 0 l 0 → nodes h !! x = Some n → n_match n = m →
  ∃ g, lift x h = Some ((), mkHeap g (next_free h)) ∧ dll g 0 (head :: A ++ B ++ C) 0
    ∧ same_content (nodes h) g ∧ unlift x (mkHeap g (next_free h)) = Some ((), h).
Proof.
  intros l Hn H0 Hd Hx Hm. unfold l in *. rewrite app_comm_cons in *.
  set (A1 := head :: A) in *. assert (A1 ≠ []) as HA by done.
  destruct (unlink_spec h A1 (B ++ m :: C) x Hn H0 HA Hd) as (g1 & E1 & D1 & S1 & R1).
  destruct (dll_mid _ _ _ _ _ _ Hd) as (n' & Hx' & Hp & Hq). rewrite Hx in Hx'. injection Hx' as <-.
  pose proof Hn as (Hn1 & Hn2 & Hn3)%NoDup_app. apply NoDup_cons in Hn3 as [Hx3 Hn3].
  assert (n_prev n ≠ x) as Hpx.
  { rewrite Hp. intros E. apply (Hn2 x); [|left]. rewrite <- E. destruct (exists_last HA) as (A' & z & ->).
    rewrite List.last_last. elem_tac. }
  assert (hd 0%nat (B ++ m :: C) ∈ B ++ m :: C) as Hhd by (destruct B; simpl; elem_tac).
  assert (n_next n ≠ x) as Hqx by (rewrite Hq; intros E; rewrite E in Hhd; done).
  assert (n_next n ≠ 0%nat) as Hq0.
  { rewrite Hq. intros E. rewrite E in Hhd. apply H0. apply elem_of_app. right. by right. }
  assert (NoDup ((A1 ++ B) ++ m :: C)) as Hn4.
  { rewrite <- app_assoc. apply NoDup_app. split_and!; [done| |done]. intros y Hy Hy2. apply (Hn2 y Hy). by right. }
  assert (0%nat ∉ (A1 ++ B) ++ m :: C) as H04.
  { rewrite <- app_assoc. intros Hin. apply H0. apply elem_of_app in Hin as [Hin|Hin]; [elem_tac|].
    apply elem_of_app. right. by right. }
  rewrite app_assoc in D1.
  destruct (unlink_spec (mkHeap g1 (next_free h)) (A1 ++ B) C m Hn4 H04) as (g2 & E2 & D2 & S2 & R2);
    [by destruct A1|done|].
  exists g2. split_and!.
  - rewrite (lift_eq h x n) by done. rewrite E1, Hm. exact E2.
  - by rewrite app_assoc.
  - by transitivity g1.
  - pose proof (S1 x) as C1. pose proof (S2 x) as C2. simpl in C2. rewrite Hx in C1.
    destruct (g1 !! x) as [nx1|] eqn:Hx1; [|done]. destruct (g2 !! x) as [nx2|] eqn:Hx2; [|done].
    simpl in C1, C2. injection C1 as _ C1 _. injection C2 as _ C2 _.
    assert (nx1 = n) as ->.
    { clear - E1 Hx Hx1 Hpx Hqx. unfold unlink, mbind, GoM_bind in E1. rewrite (load_eq h x n Hx) in E1.
      unfold store_next, mbind, GoM_bind, load in E1. destruct (nodes h !! n_prev n); [|done]. simpl in E1.
      rewrite lookup_insert_ne, Hx in E1 by done. simpl in E1. case_decide.
      - simpl in E1. injection E1 as <-. rewrite lookup_insert_ne in Hx1 by done. congruence.
      - unfold store_prev, mbind, GoM_bind, load in E1. simpl in E1.
        destruct (<[n_prev n:=set_next (n_next n) n0]> (nodes h) !! n_next n); [|done]. simpl in E1.
        injection E1 as <-. rewrite !lookup_insert_ne in Hx1 by done. congruence. }
    rewrite (unlift_eq _ (mkHeap g1 (next_free h)) x n nx2); try done. simpl. by rewrite <- C2, Hm.
Qed.

(** ** Building the list *)
Lemma insertBefore_spec h e l n :
  nodes h !! e = Some n → n_prev n = 0%nat → n_next n = 0%nat → e ∉ l → e ≠ 0%nat → 0%nat ∉ l → NoDup l →
  dll (nodes h) 0 l 0 →
  ∃ g, insertBefore e (hd 0%nat l) h = Some (e, mkHeap g (next_free h)) ∧ dll g 0 (e :: l) 0
    ∧ same_content (nodes h) g.
Proof.
  intros He Hp Hn Hel He0 H0 Hnd Hd. unfold insertBefore. destruct l as [|x l]; cbn [hd].
  { exists (nodes h). split_and!; [simpl; by rewrite heap_eta|by exists n|done]. }
  assert (x ≠ 0%nat) as Hx0 by (intros ->; apply H0; left). rewrite decide_False by done.
  pose proof Hd as (nx & Hx & Hxp & Hxn & Hd'). apply not_elem_of_cons in Hel as [Hex Hel].
  apply NoDup_cons in Hnd as [Hxl Hnd].
  unfold mbind, GoM_bind. rewrite (load_eq h x nx Hx), Hxp.
  rewrite (store_prev_eq h x nx e Hx). rewrite (store_next_eq _ e n x) by (simpl; by rewrite lookup_insert_ne).
  rewrite decide_True by done. eexists. split; [reflexivity|]. simpl. split.
  - exists (set_next x n). rewrite lookup_insert_eq. split_and!; try done.
    apply (dll_frame _ e (x :: l) 0 e); [by apply not_elem_of_cons|]. by eapply dll_set_prev.
  - transitivity (<[x := set_prev e nx]> (nodes h)); [by apply (same_content_insert _ x nx)|].
    apply (same_content_insert _ e n); [by rewrite lookup_insert_ne|done].
Qed.

Lemma length_from_spec h p l fuel acc :
  dll (nodes h) p l 0 → 0%nat ∉ l → (length l <= fuel)%nat → 0 <= acc → acc + Z.of_nat (length l) < 2 ^ 64 →
  length_from fuel (hd 0%nat l) acc h = Some (acc + Z.of_nat (length l), h).
Proof.
  revert p fuel acc. induction l as [|x l IH]; intros p fuel acc Hd H0 Hf Ha Hb.
  { simpl length. rewrite Z.add_0_r. by destruct fuel. }
  destruct fuel as [|fuel]; [simpl in Hf; lia|]. destruct Hd as (n & Hx & _ & Hn & Hd).
  apply not_elem_of_cons in H0 as [H0 H0']. cbn [length_from hd]. rewrite decide_False by done.
  unfold mbind, GoM_bind. rewrite (load_eq h x n Hx), Hn. cbn [length] in *.
  rewrite u64_small by (unfold is_u64; lia). rewrite (IH x) by (done || lia). do 2 f_equal. lia.
Qed.

(** Each node carries its entry; calls point to their returns. *)
Definition shape g (ps : list (loc * entry V)) : Prop :=
  ∀ x e, (x, e) ∈ ps → ∃ n, g !! x = Some n ∧ n_value n = value e ∧ n_id n = id e
    ∧ if kind e then n_match n = 0%nat
      else ∃ r, (n_match n, r) ∈ ps ∧ is_return r ∧ id r = id e.

Lemma shape_content g g' ps : same_content g g' → shape g ps → shape g' ps.
Proof.
  intros Hs Hp x e Hin. destruct (Hp x e Hin) as (n & Hx & Hv & Hi & Hm). specialize (Hs x). rewrite Hx in Hs.
  destruct (g' !! x) as [n'|]; [|done]. injection Hs as H1 H2 H3. exists n'.
  split_and!; [done|by rewrite <- H1|by rewrite <- H3|]. by rewrite <- H2.
Qed.

Record built h (ps : list (loc * entry V)) : Prop := {
  bt_dll : dll (nodes h) 0 ps.*1 0;
  bt_nodup : NoDup ps.*1;
  bt_bound : ∀ x, x ∈ ps.*1 → (0 < x < next_free h)%nat;
  bt_free : (0 < next_free h)%nat;
  bt_shape : shape (nodes h) ps
}.

(** A new node in front. *)
Lemma built_cons h ps e n :
  built h ps → n_prev n = 0%nat → n_next n = 0%nat → n_value n = value e → n_id n = id e →
  (if kind e then n_match n = 0%nat
   else ∃ r, (n_match n, r) ∈ ps ∧ is_return r ∧ id r = id e) →
  ∃ h', (x ← new_node n; insertBefore x (hd 0%nat ps.*1) ≫= λ _, mret x) h = Some (next_free h, h')
    ∧ built h' ((next_free h, e) :: ps).
Proof.
  intros [B1 B2 B3 B4 B5] Hp Hn Hv Hi Hm. set (x := next_free h).
  assert (x ∉ ps.*1) as Hx by (intros Hin; apply B3 in Hin; unfold x in Hin; lia).
  set (h1 := mkHeap (<[x := n]> (nodes h)) (S x)).
  destruct (insertBefore_spec h1 x ps.*1 n) as (g & E & D & S); try done.
  { simpl. by rewrite lookup_insert_eq. }
  { unfold x. lia. }
  { intros Hin. apply B3 in Hin. lia. }
  { by apply dll_frame. }
  exists (mkHeap g (next_free h1)). split.
  { unfold mbind, GoM_bind, new_node. fold x h1. by rewrite E. }
  split; simpl; try done.
  - by apply NoDup_cons.
  - intros y [->|Hy]%elem_of_cons; [unfold x; lia|]. apply B3 in Hy. unfold x. lia.
  - lia.
  - apply (shape_content (nodes h1)); [done|]. intros y e' [[= -> ->]|Hin]%elem_of_cons.
    + exists n. simpl. rewrite lookup_insert_eq. split_and!; try done. destruct (kind e); [done|].
      destruct Hm as (r & Hr & Hk). exists r. split; [by right|done].
    + destruct (B5 y e' Hin) as (n' & H1 & H2 & H3 & H4). exists n'. simpl.
      assert (y ≠ x) by (intros ->; apply Hx; by apply (list_elem_of_fmap_2 fst) in Hin).
      rewrite lookup_insert_ne by done. split_and!; try done. destruct (kind e'); [done|].
      destruct H4 as (r & Hr & Hk). exists r. split; [by right|done].
Qed.

Lemma makeLinked_spec (es : list (entry V)) :
  NoDup ((λ e, (kind e, id e)) <$> es) →
  (∀ pre e suf, es = pre ++ e :: suf → is_call e → ∃ r, r ∈ suf ∧ is_return r ∧ id r = id e) →
  ∃ mtch h ps, makeLinkedEntries es (mkHeap ∅ 1) = Some ((hd 0%nat ps.*1, mtch), h)
    ∧ built h ps ∧ ps.*2 = es
    ∧ ∀ r, r ∈ es → is_return r → ∃ x, mtch !! id r = Some x ∧ (x, r) ∈ ps.
Proof.
  induction es as [|e es IH]; intros Hnd Hc.
  { exists ∅, (mkHeap ∅ 1), []. split_and!; try done; [|by intros r ?%not_elem_of_nil].
    split; simpl; try done; [constructor|by intros x ?%not_elem_of_nil|lia|by intros x e ?%not_elem_of_nil]. }
  apply NoDup_cons in Hnd as [Hne Hnd].
  destruct IH as (mtch & h & ps & E & B & <- & Hm); [done| |].
  { intros pre e' suf Hes. apply (Hc (e :: pre)). by rewrite Hes. }
  cbn [makeLinkedEntries]. unfold mbind, GoM_bind at 1. rewrite E.
  set (n := mkNode (value e) (if kind e then 0%nat else default 0%nat (mtch !! id e)) (id e) 0 0).
  destruct (built_cons h ps e n B) as (h' & E' & B'); try done.
  { simpl. destruct (kind e) eqn:Hk; [done|].
    destruct (Hc [] e ps.*2 eq_refl Hk) as (r & Hr & Hkr & Hir).
    destruct (Hm r Hr Hkr) as (x & Hx & Hxr). exists r. rewrite <- Hir, Hx. done. }
  unfold mbind, GoM_bind in E'. destruct (new_node n h) as [[x h1]|] eqn:En; [|done].
  destruct (insertBefore x (hd 0%nat ps.*1) h1) as [[y h2]|] eqn:Ei; [|done]. simpl in E'. injection E' as -> ->.
  exists (if kind e then <[id e := next_free h]> mtch else mtch), h', ((next_free h, e) :: ps).
  split; [|split; [done|split; [done|]]].
  - unfold n in En. destruct (kind e); cbn [Bool.eqb returnEntry]; unfold mbind, GoM_bind; by rewrite En, Ei.
  - intros r [->|Hr]%elem_of_cons Hk.
    + unfold is_return, returnEntry in Hk. rewrite Hk. exists (next_free h). rewrite lookup_insert_eq. split; [done|left].
    + destruct (Hm r Hr Hk) as (z & Hz & Hzr). exists z. split; [|by right].
      destruct (kind e) eqn:Hke; [|done]. rewrite lookup_insert_ne; [done|]. intros Heq. apply Hne.
      apply list_elem_of_fmap. exists r. split; [|done]. unfold is_return in Hk. by rewrite Heq, Hk.
Qed.
End dll.
