(* ===== verification/LinProof.v ===== *)
(** LinProof: the checker decides linearizability.

    [search] follows the loop of [checkSingle] through the depth-first search it
    performs on the linked list: from any position it either returns [true], and
    then the rest of the history is linearizable, or comes back to the state it
    started in, with the heap and the stack unchanged, and then it is not.  What
    the cache holds is dead: an entry that was fully explored, or one of a larger
    set than any that will be looked up before it is. *)
From Stdlib Require Import ZArith Lia.
From stdpp Require Import gmap strings list sorting.
From S2P Require Import Prelude.
From S2P Require Import Bitset.
From S2P Require Import Linearizability.
From S2P Require Import LinSpec.
From S2P Require Import LinList.
Open Scope Z_scope.

Section search.
Context {St V : Type} (model : Model St V) (equal : St → St → bool).
Context (head : loc) (all : list (loc * entry V)) (n : Z).

(** Equal states cannot be told apart. *)
Context (Hequal : ∀ s1 s2, equal s1 s2 = true → ∀ i o,
  fst (Step model s1 i o) = fst (Step model s2 i o)
  ∧ equal (snd (Step model s1 i o)) (snd (Step model s2 i o)) = true).
Context (Hids : ∀ p, p ∈ all → 0 <= id p.2 < n).
Context (Hwf : wf_history all.*2).
Context (Hnd : NoDup (head :: all.*1)) (H0 : 0%nat ∉ head :: all.*1).

Abbreviation lin := (LinSpec.lin (Step model)).
Abbreviation without i ps := (filter (λ p, id p.2 ≠ i) ps).
Implicit Types (ps : list (loc * entry V)) (b : list Z) (h : Heap V) (st : St).

(** The operations a bit set leaves. *)
Definition rem b : list (loc * entry V) := filter (λ p, bget b (id p.2) = Some false) all.

Record conf h b ps : Prop := {
  cf_bits : bits_of n b;
  cf_rem : rem b = ps;
  cf_dll : dll (nodes h) 0 (head :: ps.*1) 0;
  cf_shape : shape (nodes h) ps
}.

Lemma rem_in b p : p ∈ rem b ↔ p ∈ all ∧ bget b (id p.2) = Some false.
Proof. unfold rem. rewrite list_elem_of_filter. tauto. Qed.

Lemma rem_sublist b : rem b `sublist_of` all.
Proof. apply sublist_filter. Qed.

Lemma without_snd i ps : (without i ps).*2 = filter (λ x, id x ≠ i) ps.*2.
Proof. by rewrite list_filter_fmap. Qed.

Lemma rem_wf b : wf_history (rem b).*2.
Proof using Hwf.
  assert ((rem b).*2 = filter (λ e, bget b (id e) = Some false) all.*2) as -> by (by rewrite list_filter_fmap).
  apply wf_filter; [|done]. by intros x y ->.
Qed.

Lemma rem_list b : NoDup (head :: (rem b).*1) ∧ 0%nat ∉ head :: (rem b).*1.
Proof using Hnd H0.
  assert (head :: (rem b).*1 `sublist_of` head :: all.*1) as Hs
    by (apply sublist_skip, fmap_sublist, rem_sublist).
  split; [by eapply sublist_NoDup|]. intros Hin. apply H0. by eapply elem_of_submseteq; [|apply sublist_submseteq].
Qed.

(** A pair of the list is determined by the kind and the operation. *)
Lemma all_unique p q : p ∈ all → q ∈ all → kind p.2 = kind q.2 → id p.2 = id q.2 → p = q.
Proof using Hwf Hnd.
  intros [i Hi]%list_elem_of_lookup_1 [j Hj]%list_elem_of_lookup_1 Hk He.
  assert (i = j) as <-; [|congruence].
  apply (NoDup_lookup ((λ e, (kind e, id e)) <$> all.*2) i j (kind p.2, id p.2)); [apply Hwf| |];
    rewrite !list_lookup_fmap, ?Hi, ?Hj; simpl; [done|]. by rewrite Hk, He.
Qed.

(** ** Taking an operation out *)
Section take.
Context h b pre x e suf (HC : conf h b (pre ++ (x, e) :: suf)) (Hcall : is_call e).
Let ps := pre ++ (x, e) :: suf.

Lemma take_match : ∃ nx B m r C, nodes h !! x = Some nx ∧ n_value nx = value e ∧ n_id nx = id e
  ∧ n_match nx = m ∧ m ≠ 0%nat ∧ suf = B ++ (m, r) :: C ∧ is_return r ∧ id r = id e
  ∧ (∃ nm, nodes h !! m = Some nm ∧ n_value nm = value r)
  ∧ without (id e) ps = pre ++ B ++ C.
Proof using Hwf Hnd H0 HC Hcall.
  destruct HC as [Hb Hr Hd Hs]. fold ps in Hr, Hd, Hs.
  destruct (rem_list b) as [Hn1 Hn0]. rewrite Hr in Hn1, Hn0.
  assert ((x, e) ∈ ps) as Hin by (unfold ps; elem_tac).
  destruct (Hs x e Hin) as (nx & Hx & Hv & Hi & Hm). rewrite Hcall in Hm. cbn in Hm.
  destruct Hm as (r & Hmr & Hk & Hri). pose proof Hmr as Hmr'.
  pose proof (rem_wf b) as Hw. rewrite Hr in Hw.
  assert ((n_match nx, r) ∈ suf) as Hsuf.
  { destruct (wf_call _ Hw pre.*2 e suf.*2) as (r' & Hr' & Hk' & Hi'); [|done|].
    { unfold ps. by rewrite fmap_app. }
    apply list_elem_of_fmap in Hr' as ((m', r0) & -> & Hin'). simpl in *.
    assert ((n_match nx, r) = (m', r0)) as [= -> ->]; [|done].
    apply all_unique; simpl; try congruence.
    - apply (rem_in b). by rewrite Hr.
    - apply (rem_in b). rewrite Hr. unfold ps. apply elem_of_app. right. by right. }
  apply list_elem_of_split in Hsuf as (B & C & ->).
  destruct (Hs _ _ Hmr) as (nm & Hnm & Hvm & _).
  exists nx, B, (n_match nx), r, C. split_and!; try done.
  { intros E. apply Hn0. right. rewrite <- E. by apply (list_elem_of_fmap_2 fst) in Hmr. }
  { by exists nm. }
  assert (∀ p, p ∈ ps → id p.2 = id e → p = (x, e) ∨ p = (n_match nx, r)) as Hu.
  { intros p Hp Hip. assert (p ∈ all) by (apply (rem_in b); by rewrite Hr).
    assert ((x, e) ∈ all) by (apply (rem_in b); by rewrite Hr).
    assert ((n_match nx, r) ∈ all) by (apply (rem_in b); by rewrite Hr).
    destruct (kind p.2) eqn:Hkp; [right|left]; apply all_unique; simpl; try done;
      unfold is_call, is_return, callEntry, returnEntry in *; congruence. }
  assert (∀ (l : list (loc * entry V)) p, (∀ q, q ∈ l → q ∈ ps ∧ q.1 ≠ x ∧ q.1 ≠ n_match nx) → p ∈ l → id p.2 ≠ id e) as Hne.
  { intros l p Hl Hp E. destruct (Hl p Hp) as (H1 & H2 & H3). by destruct (Hu p H1 E) as [-> | ->]. }
  apply NoDup_cons in Hn1 as [_ Hn1]. unfold ps in *.
  rewrite !fmap_app, fmap_cons, fmap_app, fmap_cons in Hn1. simpl in Hn1.
  apply NoDup_app in Hn1 as (Hn1 & Hn2 & Hn3). apply NoDup_cons in Hn3 as [Hn3 Hn4].
  apply NoDup_app in Hn4 as (Hn4 & Hn5 & Hn6). apply NoDup_cons in Hn6 as [Hn6 Hn7].
  rewrite filter_app, filter_cons_False by (intros Hf; by apply Hf).
  rewrite filter_app, (filter_cons_False _ (n_match nx, r)) by (simpl; intros Hf; by apply Hf).
  f_equal; [|f_equal].
  - apply list_filter_all. intros p Hp. apply (Hne pre); [|done].
    intros q Hq. split; [elem_tac|]. apply (list_elem_of_fmap_2 fst) in Hq. apply Hn2 in Hq.
    apply not_elem_of_cons in Hq as [Hq1 Hq]. split; [done|]. intros E. apply Hq. rewrite E. elem_tac.
  - apply list_filter_all. intros p Hp. apply (Hne B); [|done].
    intros q Hq. split; [elem_tac|]. apply (list_elem_of_fmap_2 fst) in Hq. split.
    + intros E. apply Hn3. rewrite <- E. elem_tac.
    + intros E. apply (Hn5 (q.1)); [done|]. rewrite E. left.
  - apply list_filter_all. intros p Hp. apply (Hne C); [|done].
    intros q Hq. split; [elem_tac|]. apply (list_elem_of_fmap_2 fst) in Hq. split.
    + intros E. apply Hn3. rewrite <- E. apply elem_of_app. right. by right.
    + intros E. apply Hn6. by rewrite <- E.
Qed.

Lemma set_rem b1 : bits_of n b →
  (∀ q, 0 <= q < n → bget b1 q = if decide (q = id e) then Some true else bget b q) →
  rem b1 = without (id e) (rem b).
Proof using Hids.
  intros Hb Hget. unfold rem at 2. rewrite list_filter_filter. apply list_filter_ext_in. intros p Hp.
  rewrite Hget by (by apply Hids). case_decide as E; split; [done|by intros [? ?]|done|by intros [_ ?]].
Qed.

(** Setting the bit and lifting the nodes lead to the configuration without the
    operation. *)
Lemma take_spec : ∃ b1 g,
  bset b (id e) = Some b1 ∧ lift x h = Some ((), mkHeap g (next_free h))
  ∧ conf (mkHeap g (next_free h)) b1 (without (id e) ps)
  ∧ unlift x (mkHeap g (next_free h)) = Some ((), h)
  ∧ ∃ n1, g !! x = Some n1 ∧ n_id n1 = id e.
Proof using Hwf Hnd H0 Hids HC Hcall.
  destruct take_match as (nx & B & m & r & C & Hx & _ & Hi & Hm & _ & Esuf & _ & _ & _ & Hwo).
  pose proof HC as [Hb Hr Hd Hs]. fold ps in Hr, Hd, Hs.
  destruct (rem_list b) as [Hn1 Hn0]. rewrite Hr in Hn1, Hn0. unfold ps in Hn1, Hn0, Hd.
  rewrite Esuf in Hn1, Hn0, Hd. rewrite !fmap_app, fmap_cons, fmap_app, fmap_cons in Hn1, Hn0, Hd.
  cbn [fst] in Hn1, Hn0, Hd.
  destruct (lift_spec h head pre.*1 B.*1 C.*1 x m nx Hn1 Hn0 Hd Hx Hm) as (g & E & D & S & U).
  assert ((x, e) ∈ all) as Hin by (apply (rem_in b); rewrite Hr; unfold ps; elem_tac).
  destruct (bset_spec n b (id e) Hb (Hids _ Hin)) as (b1 & Eb & Hb1 & Hget).
  exists b1, g. split_and!; try done.
  2:{ specialize (S x). rewrite Hx in S. destruct (g !! x) as [n1|]; [|done]. injection S as _ _ S.
      exists n1. by rewrite <- S. }
  split; try done.
  - rewrite (set_rem b1) by done. by rewrite Hr.
  - rewrite Hwo, !fmap_app. exact D.
  - apply (shape_content (nodes h)); [done|]. intros y e' [Hne Hy]%list_elem_of_filter.
    destruct (Hs y e' Hy) as (ny & H1 & H2 & H3 & H4). exists ny. split_and!; try done.
    destruct (kind e'); [done|]. destruct H4 as (r' & Hr' & Hk' & Hi'). exists r'. split; [|done].
    apply list_elem_of_filter. simpl in *. split; [congruence|done].
Qed.

(** Clearing the bit leads back. *)
Lemma put_spec b2 : bits_of n b2 → rem b2 = without (id e) ps →
  ∃ b3, bclear b2 (id e) = Some b3 ∧ conf h b3 ps.
Proof using Hids HC.
  intros Hb2 Hr2. pose proof HC as [Hb Hr Hd Hs]. fold ps in Hr, Hd, Hs.
  assert ((x, e) ∈ rem b) as [Hin Hbit]%rem_in by (rewrite Hr; unfold ps; elem_tac). simpl in Hbit.
  destruct (bclear_spec n b2 (id e) Hb2 (Hids _ Hin)) as (b3 & Eb & Hb3 & Hget).
  exists b3. split; [done|]. split; try done. rewrite <- Hr. apply list_filter_ext_in. intros p Hp.
  rewrite Hget by (by apply Hids). case_decide as E; [by rewrite E|].
  assert (p ∈ rem b2 ↔ p ∈ rem b) as Hiff.
  { rewrite Hr2, Hr. rewrite list_elem_of_filter. tauto. }
  rewrite !rem_in in Hiff. tauto.
Qed.
End take.

(** ** Runs of the loop *)
Abbreviation kstep := (check_step model equal 0 head).
Definition run (fuel : nat) (s : Check (St := St) (V := V)) : option bool :=
  check_loop model equal fuel 0 (λ _, 0) head s.

Lemma run_S fuel s :
  run (S fuel) s = match kstep s with
                   | None => None
                   | Some (Done b) => Some b
                   | Some (More s') => run fuel s'
                   end.
Proof.
  assert (∀ f i j s, check_loop model equal f i (λ _, 0) head s = check_loop model equal f j (λ _, 0) head s) as Hi.
  { induction f as [|f IH]; intros i j s0; [done|]. cbn [check_loop].
    destruct (kstep s0) as [[b|s']|]; simpl; auto. }
  unfold run. cbn [check_loop]. destruct (kstep s) as [[b|s']|]; simpl; auto.
Qed.

Definition reaches s s' : Prop := ∃ k, ∀ fuel, run (k + fuel) s = run fuel s'.
Definition returns s (r : bool) : Prop := ∃ k, ∀ fuel, (k <= fuel)%nat → run fuel s = Some r.

#[local] Instance reaches_refl : Reflexive reaches.
Proof. intros s. by exists 0%nat. Qed.
#[local] Instance reaches_trans : Transitive reaches.
Proof.
  intros s1 s2 s3 [k1 H1] [k2 H2]. exists (k1 + k2)%nat. intros fuel. by rewrite <- Nat.add_assoc, H1, H2.
Qed.

Lemma reaches_step s s' : kstep s = Some (More s') → reaches s s'.
Proof. intros E. exists 1%nat. intros fuel. simpl. by rewrite run_S, E. Qed.

Lemma returns_done s r : kstep s = Some (Done r) → returns s r.
Proof. intros E. exists 1%nat. intros [|fuel] Hf; [lia|]. by rewrite run_S, E. Qed.

Lemma returns_reaches s s' r : reaches s s' → returns s' r → returns s r.
Proof.
  intros [k1 H1] [k2 H2]. exists (k1 + k2)%nat. intros fuel Hf.
  replace fuel with (k1 + (fuel - k1))%nat by lia. rewrite H1. apply H2. lia.
Qed.

Lemma conf_head h b ps : conf h b ps →
  ∃ nh, nodes h !! head = Some nh ∧ n_next nh = hd 0%nat ps.*1 ∧ (ps ≠ [] → n_next nh ≠ 0%nat).
Proof using Hnd H0.
  intros HC. destruct (cf_dll _ _ _ HC) as (nh & Hh & _ & Hn & _). exists nh. split_and!; [done|done|].
  intros Hne. rewrite Hn. destruct (rem_list b) as [_ Hz]. rewrite (cf_rem _ _ _ HC) in Hz.
  destruct ps as [|[x e] ps]; [done|]. simpl. intros ->. apply Hz. right. left.
Qed.

(** ** Steps *)
Lemma step_empty h b C K st x : conf h b [] → kstep (mkCheck h b C K st x) = Some (Done true).
Proof using Hnd H0.
  intros HC. destruct (conf_head _ _ _ HC) as (nh & Hh & Hn & _). unfold check_step. simpl. rewrite Hh. simpl.
  by rewrite Hn.
Qed.

Section call_step.
Context h b pre x e suf (C : gmap Z (list (cacheEntry (St := St)))) (K : list (loc * St)) st (HC : conf h b (pre ++ (x, e) :: suf)) (Hcall : is_call e).
Let ps := pre ++ (x, e) :: suf.
Let s := mkCheck h b C K st x.
Context (nx nm : node V) (m : loc) (Hx : nodes h !! x = Some nx) (Hv : n_value nx = value e) (Hi : n_id nx = id e).
Context (Hm : n_match nx = m) (Hm0 : m ≠ 0%nat) (Hnm : nodes h !! m = Some nm).

Lemma next_eq : n_next nx = hd 0%nat suf.*1.
Proof using HC Hx.
  pose proof (cf_dll _ _ _ HC) as Hd. rewrite fmap_app, fmap_cons, app_comm_cons in Hd.
  destruct (dll_mid _ _ _ _ _ _ Hd) as (n' & Hx' & _ & Hn). simpl in Hx'. by rewrite Hx in Hx'; injection Hx' as <-.
Qed.

Let pass := mkCheck h b C K st (hd 0%nat suf.*1).

Lemma call_step :
  kstep s =
  let '(ok, st') := Step model st (value e) (n_value nm) in
  if ok then
    b1 ← bset b (id e);
    if cacheContains equal C (mkCacheEntry b1 st') then Some (More pass)
    else
      '(_, h1) ← lift x h;
      nh ← nodes h1 !! head;
      Some (More (mkCheck h1 b1
        (<[hash b1 := default [] (C !! hash b1) ++ [mkCacheEntry b1 st']]> C) ((x, st) :: K) st' (n_next nh)))
  else Some (More pass).
Proof using HC Hx Hv Hi Hm Hm0 Hnm Hnd H0.
  destruct (conf_head _ _ _ HC) as (nh & Hh & Hn & Hnz). unfold check_step, s, pass. simpl. rewrite Hh. simpl.
  rewrite decide_False by (apply Hnz; by destruct pre). rewrite Hx. simpl. rewrite Hm, decide_True by done.
  rewrite Hnm. simpl. rewrite Hv, Hi. destruct (Step model st (value e) (n_value nm)) as [[|] st']; [|by rewrite next_eq].
  unfold clone. destruct (bset b (id e)) as [b1|]; [|done]. simpl.
  destruct (cacheContains equal C (mkCacheEntry b1 st')); simpl; [by rewrite next_eq|].
  done.
Qed.
End call_step.

Lemma return_step h b C top st0 K st x nx ps :
  conf h b ps → ps ≠ [] → nodes h !! x = Some nx → n_match nx = 0%nat →
  kstep (mkCheck h b C ((top, st0) :: K) st x) =
  (e ← nodes h !! top; b' ← bclear b (n_id e); '(_, h') ← unlift top h; e ← nodes h' !! top;
   Some (More (mkCheck h' b' C K st0 (n_next e)))).
Proof using Hnd H0.
  intros HC Hne Hx Hm. destruct (conf_head _ _ _ HC) as (nh & Hh & Hn & Hnz). unfold check_step. simpl.
  rewrite Hh. simpl. rewrite decide_False by auto. rewrite Hx. simpl. by rewrite Hm.
Qed.

Lemma return_step_nil h b C st x nx ps :
  conf h b ps → ps ≠ [] → nodes h !! x = Some nx → n_match nx = 0%nat →
  kstep (mkCheck h b C [] st x) = Some (Done false).
Proof using Hnd H0.
  intros HC Hne Hx Hm. destruct (conf_head _ _ _ HC) as (nh & Hh & Hn & Hnz). unfold check_step. simpl.
  rewrite Hh. simpl. rewrite decide_False by auto. rewrite Hx. simpl. by rewrite Hm.
Qed.

(** ** The cache *)
Abbreviation Cache := (gmap Z (list (cacheEntry (St := St)))).
Implicit Types (C : Cache).

Definition dead (ce : cacheEntry) : Prop := ¬ lin (rem (ce_linearized ce)).*2 (ce_state ce).
Definition in_cache C (ce : cacheEntry) : Prop := ∃ k, ce ∈ default [] (C !! k).
Definition cache_ok C (m : nat) : Prop :=
  ∀ ce, in_cache C ce → (length (rem (ce_linearized ce)) < m)%nat → dead ce.
Definition grown C C' : Prop := ∀ ce, in_cache C' ce → in_cache C ce ∨ dead ce.

Lemma lin_equal es s1 s2 : equal s1 s2 = true → lin es s1 → lin es s2.
Proof using Hequal.
  intros He HL. revert s2 He. induction HL as [s1|es pre e suf r s1 s1' E Hp Hc Hr Hk Hi Hs _ IH]; intros s2 He.
  { constructor. }
  destruct (Hequal s1 s2 He (value e) (value r)) as [H1 H2]. rewrite Hs in H1, H2. simpl in H1, H2.
  destruct (Step model s2 (value e) (value r)) as [ok s2'] eqn:Es. simpl in H1, H2. subst ok.
  eapply (lin_take _ es pre e suf r); try done. by apply IH.
Qed.

Lemma contains_dead C ce m :
  cacheContains equal C ce = true → cache_ok C m → (length (rem (ce_linearized ce)) < m)%nat → dead ce.
Proof using Hequal.
  unfold cacheContains. rewrite existsb_exists. intros (c & Hin & [He Hs]%andb_true_iff) Hok Hlt.
  apply equals_eq in He. apply list_elem_of_In in Hin. unfold dead. intros HL.
  apply (Hok c); [by eexists|by rewrite <- He|]. rewrite <- He. by eapply lin_equal.
Qed.

Lemma in_cache_insert C k ce ce' :
  in_cache (<[k := default [] (C !! k) ++ [ce]]> C) ce' → in_cache C ce' ∨ ce' = ce.
Proof.
  intros [k' Hin]. destruct (decide (k' = k)) as [->|Hne].
  - rewrite lookup_insert_eq in Hin. simpl in Hin. apply elem_of_app in Hin as [Hin|Hin].
    + left. by exists k.
    + right. by apply list_elem_of_singleton in Hin.
  - rewrite lookup_insert_ne in Hin by done. left. by exists k'.
Qed.

Lemma grown_ok C C' m : cache_ok C m → grown C C' → cache_ok C' m.
Proof. intros Hok Hg ce Hin Hlt. destruct (Hg ce Hin) as [?|?]; [by apply Hok|done]. Qed.

(** ** The search *)

(** No linearization starts with [e]. *)
Definition blocked ps st (e : entry V) : Prop :=
  ∀ r st', r ∈ ps.*2 → is_return r → id r = id e → Step model st (value e) (value r) = (true, st') →
    ¬ lin (without (id e) ps).*2 st'.

Lemma blocked_not_lin ps pre x r suf st :
  ps = pre ++ (x, r) :: suf → is_return r → Forall (λ p, blocked ps st p.2) pre → ¬ lin ps.*2 st.
Proof.
  intros Eps Hr Hb HL. assert (ps.*2 = pre.*2 ++ r :: suf.*2) as E by (by rewrite Eps, fmap_app).
  remember ps.*2 as es eqn:Ees0. destruct HL as [st|es pre0 e suf0 r0 st st' Ees Hp Hc Hr0 Hk Hi Hs Hl].
  { by destruct pre. }
  rewrite E in Ees. rewrite Ees0 in Hr0, Hl.
  destruct (decide (length pre0 < length pre)%nat) as [Hlt|Hge].
  - assert (e ∈ pre.*2) as Hin.
    { apply (list_elem_of_lookup_2 _ (length pre0)). apply (f_equal (λ l, l !! length pre0)) in Ees.
      rewrite lookup_app_l in Ees by (by rewrite length_fmap). rewrite Ees.
      rewrite lookup_app_r, Nat.sub_diag by lia. done. }
    apply list_elem_of_fmap in Hin as (p & -> & Hin). rewrite Forall_forall in Hb.
    apply (Hb p Hin r0 st' Hr0 Hk Hi Hs). by rewrite without_snd.
  - assert (r ∈ pre0 ++ [e]) as Hin.
    { apply (list_elem_of_lookup_2 _ (length pre)). apply (f_equal (λ l, l !! length pre)) in Ees.
      rewrite lookup_app_r in Ees by (by rewrite length_fmap). rewrite length_fmap, Nat.sub_diag in Ees.
      simpl in Ees. rewrite Ees. replace (pre0 ++ e :: suf0) with ((pre0 ++ [e]) ++ suf0) by (by rewrite <- app_assoc).
      rewrite (lookup_app_l (pre0 ++ [e]) suf0); [done|]. rewrite length_app. simpl. lia. }
    assert (is_call r) as Hcr.
    { apply elem_of_app in Hin as [Hin| ->%list_elem_of_singleton]; [|done].
      rewrite Forall_forall in Hp. by apply Hp. }
    unfold is_call, is_return, callEntry, returnEntry in *. congruence.
Qed.

Lemma without_shorter ps p : p ∈ ps → (length (without (id p.2) ps) < length ps)%nat.
Proof.
  intros Hin. apply list_elem_of_split in Hin as (l1 & l2 & ->).
  rewrite filter_app, filter_cons_False by (intros Hf; by apply Hf). rewrite !length_app. cbn [length].
  pose proof (length_filter (λ p0 : loc * entry V, id p0.2 ≠ id p.2) l1).
  pose proof (length_filter (λ p0 : loc * entry V, id p0.2 ≠ id p.2) l2). lia.
Qed.

(** Where the search of the operations [ps] in state [st] ends. *)
Definition found ps st s : Prop := lin ps.*2 st ∧ returns s true.
Definition exhausted h ps C K st s : Prop :=
  ¬ lin ps.*2 st ∧ ps ≠ [] ∧
  ∃ b' C' x nx, reaches s (mkCheck h b' C' K st x) ∧ nodes h !! x = Some nx ∧ n_match nx = 0%nat
    ∧ conf h b' ps ∧ grown C C'.

Lemma exhausted_reaches h ps C C1 K st s s1 :
  reaches s s1 → grown C C1 → exhausted h ps C1 K st s1 → exhausted h ps C K st s.
Proof.
  intros Hr Hg (HL & Hne & b' & C' & x & nx & Hr' & Hx & Hm & Hc & Hg'). split; [done|]. split; [done|].
  exists b', C', x, nx. split_and!; try done; [by etransitivity|].
  intros ce Hin. destruct (Hg' ce Hin) as [Hin'|?]; [by apply Hg|by right].
Qed.

Lemma found_reaches ps st s s1 : reaches s s1 → found ps st s1 → found ps st s.
Proof. intros Hr [HL Hf]. split; [done|]. by eapply returns_reaches. Qed.

Lemma search k : ∀ ps h b C K st pre suf,
  (length ps <= k)%nat → ps = pre ++ suf → conf h b ps → cache_ok C (length ps) →
  Forall (λ p, is_call p.2) pre → Forall (λ p, blocked ps st p.2) pre →
  found ps st (mkCheck h b C K st (hd 0%nat suf.*1))
  ∨ exhausted h ps C K st (mkCheck h b C K st (hd 0%nat suf.*1)).
Proof using Hequal Hids Hwf Hnd H0.
  induction k as [|k IHk]; intros ps h b C K st pre suf Hk Eps HC Hok Hpre Hbl.
  { destruct ps; [|simpl in Hk; lia]. left. split; [constructor|]. by apply returns_done, step_empty. }
  revert b C pre Eps HC Hok Hpre Hbl. induction suf as [|[x e] suf IHsuf]; intros b C pre Eps HC Hok Hpre Hbl.
  { rewrite app_nil_r in Eps. destruct ps as [|p ps].
    { left. split; [constructor|]. by apply returns_done, step_empty. }
    exfalso. pose proof (rem_wf b) as W. rewrite (cf_rem _ _ _ HC) in W. rewrite <- Eps in Hpre.
    apply Forall_cons in Hpre as [Hp Hpre].
    destruct (wf_call _ W [] p.2 ps.*2 eq_refl Hp) as (r & Hr & Hkr & _).
    apply list_elem_of_fmap in Hr as (q & -> & Hq). rewrite Forall_forall in Hpre. apply Hpre in Hq.
    unfold is_call, is_return, callEntry, returnEntry in *. congruence. }
  destruct (kind e) eqn:Hke.
  { right. split; [by eapply (blocked_not_lin ps pre x e suf)|]. split; [by rewrite Eps; destruct pre|].
    destruct (cf_shape _ _ _ HC x e) as (nx & Hx & _ & _ & Hm); [rewrite Eps; elem_tac|].
    rewrite Hke in Hm. exists b, C, x, nx. split_and!; try done. intros ce Hin. by left. }
  rewrite Eps in HC. pose proof HC as HC'.
  destruct (take_match h b pre x e suf HC Hke)
    as (nx & B & m & r & D & Hx & Hv & Hi & Hm & Hm0 & Esuf & Hkr & Hir & (nm & Hnm & Hvm) & Hwo).
  rewrite <- Eps in Hwo, HC'.
  pose proof (call_step h b pre x e suf C K st HC nx nm m Hx Hv Hi Hm Hm0 Hnm) as Hstep. rewrite Hvm in Hstep.
  assert (r ∈ ps.*2) as Hrin.
  { apply list_elem_of_fmap. exists (m, r). split; [done|]. rewrite Eps, Esuf. elem_tac. }
  assert (∀ r', r' ∈ ps.*2 → is_return r' → id r' = id e → r' = r) as Hru.
  { intros r' Hr' Hkr' Hir'. pose proof (rem_wf b) as W. rewrite (cf_rem _ _ _ HC') in W.
    apply (wf_unique ps.*2); try done; unfold is_return in *; congruence. }
  (* passing over [e] *)
  assert (∀ b' C', blocked ps st e → conf h b' ps → cache_ok C' (length ps) →
    found ps st (mkCheck h b' C' K st (hd 0%nat suf.*1))
    ∨ exhausted h ps C' K st (mkCheck h b' C' K st (hd 0%nat suf.*1))) as Hpass.
  { intros b' C' Hb' HC1 Hok'. apply (IHsuf b' C' (pre ++ [(x, e)])); try done.
    - by rewrite <- app_assoc.
    - apply Forall_app. split; [done|]. by apply Forall_singleton.
    - apply Forall_app. split; [done|]. by apply Forall_singleton. }
  assert (∀ st', Step model st (value e) (value r) = (true, st') → ¬ lin (without (id e) ps).*2 st' → blocked ps st e)
    as Hblock.
  { intros st' Es Hnl r' st'' Hr' Hkr' Hir' Es'. rewrite (Hru r' Hr' Hkr' Hir'), Es in Es'. by injection Es' as <-. }
  destruct (Step model st (value e) (value r)) as [[|] st'] eqn:Es; simpl in Hstep; last first.
  { apply reaches_step in Hstep. destruct (Hpass b C) as [Hf|Hf]; try done.
    - intros r' st'' Hr' Hkr' Hir' Es'. rewrite (Hru r' Hr' Hkr' Hir'), Es in Es'. done.
    - left. by eapply found_reaches.
    - right. eapply exhausted_reaches; [exact Hstep| |exact Hf]. by left. }
  destruct (take_spec h b pre x e suf HC Hke) as (b1 & g & Eb & El & HC1 & Eu & n1 & Hx1 & Hi1).
  rewrite <- Eps in HC1. set (ps1 := without (id e) ps) in *. rewrite Eb, El in Hstep. simpl in Hstep.
  assert (length ps1 < length ps)%nat as Hlt.
  { apply (without_shorter ps (x, e)). rewrite Eps. elem_tac. }
  destruct (cacheContains equal C (mkCacheEntry b1 st')) eqn:Ec.
  { apply reaches_step in Hstep. destruct (Hpass b C) as [Hf|Hf]; try done.
    - apply (Hblock st'); [done|]. pose proof (contains_dead _ _ _ Ec Hok) as Hd. unfold dead in Hd. simpl in Hd.
      rewrite (cf_rem _ _ _ HC1) in Hd. by apply Hd.
    - left. by eapply found_reaches.
    - right. eapply exhausted_reaches; [exact Hstep| |exact Hf]. by left. }
  destruct (conf_head _ _ _ HC1) as (nh & Hh & Hn & _). simpl in Hh. rewrite Hh in Hstep. simpl in Hstep.
  rewrite Hn in Hstep. apply reaches_step in Hstep.
  set (C1 := <[hash b1 := default [] (C !! hash b1) ++ [mkCacheEntry b1 st']]> C) in *.
  destruct (IHk ps1 (mkHeap g (next_free h)) b1 C1 ((x, st) :: K) st' [] ps1) as [[HL Hf]|Hf]; try done.
  { lia. }
  { intros ce Hin Hl. apply in_cache_insert in Hin as [Hin| ->]; [apply Hok; [done|lia]|].
    simpl in Hl. rewrite (cf_rem _ _ _ HC1) in Hl. lia. }
  - left. split; [|by eapply returns_reaches]. unfold ps1 in HL. rewrite without_snd in HL.
    apply (lin_take _ ps.*2 pre.*2 e suf.*2 r st st'); try done.
    + by rewrite Eps, fmap_app.
    + by apply Forall_fmap.
  - destruct Hf as (HL & Hne1 & b2 & C2 & y & ny & Hr & Hy & Hmy & HC2 & Hg).
    destruct (put_spec h b pre x e suf HC b2) as (b3 & Eb3 & HC3); [apply HC2|rewrite (cf_rem _ _ _ HC2), <- Eps; done|].
    rewrite <- Eps in HC3.
    pose proof (return_step _ b2 C2 x st K st' y ny ps1 HC2 Hne1 Hy Hmy) as Hpop. simpl in Hpop.
    rewrite Hx1 in Hpop. simpl in Hpop. rewrite Hi1, Eb3 in Hpop. simpl in Hpop. rewrite Eu in Hpop. simpl in Hpop.
    rewrite Hx in Hpop. simpl in Hpop. rewrite (next_eq h b pre x e suf HC nx Hx) in Hpop.
    apply reaches_step in Hpop.
    assert (grown C C2) as Hg2.
    { intros ce Hin. destruct (Hg ce Hin) as [Hin1|]; [|by right].
      apply in_cache_insert in Hin1 as [?| ->]; [by left|right]. unfold dead. simpl. by rewrite (cf_rem _ _ _ HC1). }
    assert (reaches (mkCheck h b C K st (hd 0%nat ((x, e) :: suf).*1)) (mkCheck h b3 C2 K st (hd 0%nat suf.*1))) as Hall.
    { etransitivity; [exact Hstep|]. by etransitivity. }
    destruct (Hpass b3 C2) as [Hf|Hf]; [by apply (Hblock st')|done|by eapply grown_ok| |].
    + left. by eapply found_reaches.
    + right. by eapply exhausted_reaches.
Qed.
End search.
