(* ===== verification/LinCheck.v ===== *)
(** LinCheck: the checker on operations and events.

    [checkSingle] returns for every well-formed history, with the answer of the
    definition of linearizability ([checker_decides]); CheckOperations therefore
    answers for histories of timed operations, partition by partition. *)
From Stdlib Require Import ZArith Lia.
From stdpp Require Import gmap strings list sorting.
From S2P Require Import Prelude.
From S2P Require Import Bitset.
From S2P Require Import Linearizability.
From S2P Require Import LinSpec.
From S2P Require Import LinList.
From S2P Require Import LinProof.
Open Scope Z_scope.

(** ** One partition *)
Section single.
Context {St V : Type} {ED : EqDecision St} (model : Model St V) (nil_value : V).

Definition state_equal : St → St → bool := default ShallowEqual (Equal model).

(** States the model calls equal behave the same. *)
Definition equal_ok : Prop :=
  ∀ s1 s2, state_equal s1 s2 = true → ∀ i o,
    fst (Step model s1 i o) = fst (Step model s2 i o)
    ∧ state_equal (snd (Step model s1 i o)) (snd (Step model s2 i o)) = true.

Lemma shallow_equal_ok : Equal model = None ∨ Equal model = Some ShallowEqual → equal_ok.
Proof.
  intros HE s1 s2. unfold state_equal.
  assert (default ShallowEqual (Equal model) = ShallowEqual) as -> by (by destruct HE as [-> | ->]).
  unfold ShallowEqual. rewrite bool_decide_eq_true. intros -> i o. split; [done|]. by apply bool_decide_eq_true.
Qed.

(** Operations are numbered from 0. *)
Definition dense (es : list (entry V)) : Prop :=
  ∀ e, e ∈ es → 0 <= id e < Z.of_nat (length es) / 2.

Lemma NoDup_bounded (l : list nat) m : NoDup l → (∀ x, x ∈ l → (x < m)%nat) → (length l <= m)%nat.
Proof.
  intros Hn Hb. rewrite <- (length_seq m 0). apply submseteq_length, NoDup_submseteq; [done|].
  intros x Hx. apply elem_of_seq. specialize (Hb x Hx). lia.
Qed.

Lemma check_partition_lin es :
  equal_ok → wf_history es → dense es → Z.of_nat (length es) < 2 ^ 64 →
  ∃ b N, (∀ fuel, (N <= fuel)%nat → check_partition model nil_value fuel es = Some b)
    ∧ (b = true ↔ lin (Step model) es (Init model)).
Proof.
  intros He W Hden Hlen.
  destruct (makeLinked_spec es (wf_nodup _ W) (wf_call _ W)) as (mtch & h & ps & E & B & Eps & _).
  destruct B as [B1 B2 B3 B4 B5]. set (n := Z.of_nat (length es) / 2).
  assert (length ps.*1 = length es) as Hl by (by rewrite <- Eps, !length_fmap).
  assert (0%nat ∉ ps.*1) as Hz by (intros Hin; apply B3 in Hin; lia).
  assert (length_from (next_free h) (hd 0%nat ps.*1) 0 h = Some (Z.of_nat (length es), h)) as Elen.
  { rewrite (length_from_spec h 0 ps.*1); try done; try lia; [by rewrite Hl|].
    apply NoDup_bounded; [done|]. intros x Hx. by apply B3. }
  set (x := next_free h). set (nd := mkNode nil_value 0%nat (2 ^ 64 - 1) 0%nat 0%nat).
  set (h1 := mkHeap (<[x := nd]> (nodes h)) (S x)).
  assert (x ∉ ps.*1) as Hx by (intros Hin; apply B3 in Hin; unfold x in Hin; lia).
  destruct (insertBefore_spec h1 x ps.*1 nd) as (g & Ei & D & Sc); try done.
  { simpl. by rewrite lookup_insert_eq. }
  { unfold x. lia. }
  { by apply dll_frame. }
  assert (NoDup (x :: ps.*1)) as Hnd by (by apply NoDup_cons).
  assert (0%nat ∉ x :: ps.*1) as Hz1 by (apply not_elem_of_cons; split; [unfold x; lia|done]).
  assert (wf_history ps.*2) as W' by (by rewrite Eps).
  assert (∀ p, p ∈ ps → 0 <= id p.2 < n) as Hids.
  { intros p Hp. apply Hden. rewrite <- Eps. by apply list_elem_of_fmap_2. }
  set (hg := mkHeap g (next_free h1)).
  assert (conf x ps n hg (newBitset n) ps) as HC.
  { split.
    - apply newBitset_bits. unfold n. apply Z.div_pos; lia.
    - apply list_filter_all. intros p Hp. apply newBitset_get. by apply Hids.
    - done.
    - apply (shape_content (nodes h1)); [done|]. intros y e Hy. destruct (B5 y e Hy) as (ny & Hny & Hrest).
      exists ny. split; [|done]. simpl. rewrite lookup_insert_ne; [done|]. intros <-. apply Hx.
      by apply (list_elem_of_fmap_2 fst) in Hy. }
  assert (∀ fuel, check_partition model nil_value fuel es
            = run model state_equal x fuel (mkCheck hg (newBitset n) ∅ [] (Init model) (hd 0%nat ps.*1))) as Erun.
  { intros fuel. unfold check_partition. change (@empty_heap V) with (mkHeap (V := V) ∅ 1). rewrite E. simpl.
    unfold checkSingle. rewrite Elen. simpl. fold x nd h1. rewrite Ei. simpl. fold n hg. done. }
  destruct (search model state_equal x ps n He Hids W' Hnd Hz1 (length ps) ps hg (newBitset n) ∅ [] (Init model) [] ps)
    as [[HL [N HN]]|Hex]; try done.
  { intros ce [k Hk]. rewrite lookup_empty in Hk. by apply not_elem_of_nil in Hk. }
  - exists true, N. split; [|by rewrite Eps in HL]. intros fuel Hf. rewrite Erun. by apply HN.
  - destruct Hex as (HL & Hne & b' & C' & y & ny & Hr & Hy & Hm & HC' & _).
    pose proof (return_step_nil model state_equal x ps n Hnd Hz1 hg b' C' (Init model) y ny ps HC' Hne Hy Hm) as Hs.
    apply returns_done in Hs. destruct (returns_reaches _ _ _ _ _ _ Hr Hs) as [N HN].
    exists false, N. split; [|by rewrite Eps in HL]. intros fuel Hf. rewrite Erun. by apply HN.
Qed.
End single.

(** ** Timed operations *)
Section operations.
Context {St V : Type} {ED : EqDecision St} {SO : Sorter} (model : Model St V) (nil_value : V).
Implicit Types (history : list (Operation V)).

(** Times are distinct and every operation returns after its call. *)
Record timed history : Prop := {
  tm_order : Forall (λ o, Call o < Return o) history;
  tm_distinct : NoDup (Call <$> history) ∧ NoDup (Return <$> history)
    ∧ ∀ o1 o2, o1 ∈ history → o2 ∈ history → Call o1 ≠ Return o2;
  tm_length : Z.of_nat (length history) < 2 ^ 63
}.

(** Operation number [i]. *)
Definition op_at history (i : Z) (o : Operation V) : Prop := 0 <= i ∧ history !! Z.to_nat i = Some o.

(** A run of the model over the operations in the order [ord]. *)
Inductive legal_ops history : list Z → St → Prop :=
| legal_ops_nil st : legal_ops history [] st
| legal_ops_cons i ord o st st' :
    op_at history i o → Step model st (Input o) (Output o) = (true, st') →
    legal_ops history ord st' → legal_ops history (i :: ord) st.

(** Some order of all operations keeps the order of those that do not overlap in
    time and is a run of the model. *)
Definition linearizable_ops history : Prop :=
  ∃ ord, NoDup ord ∧ (∀ i, i ∈ ord ↔ ∃ o, op_at history i o)
    ∧ (∀ i j o1 o2, op_at history i o1 → op_at history j o2 → Return o1 < Call o2 → before ord i j)
    ∧ legal_ops history ord (Init model).

Definition call_of (i : Z) (o : Operation V) : entry V := mkEntry callEntry (Input o) i (Call o).
Definition return_of (i : Z) (o : Operation V) : entry V := mkEntry returnEntry (Output o) i (Return o).

Lemma op_at_cons o history i o' : 0 <= i →
  op_at (o :: history) i o' ↔ (i = 0 ∧ o' = o) ∨ op_at history (i - 1) o' ∧ 0 < i.
Proof.
  intros Hi. unfold op_at. destruct (decide (i = 0)) as [->|Hne].
  - simpl. split; [intros [_ [= ->]]; by left|]. intros [[_ ->]|[[_ _] ?]]; [done|lia].
  - replace (Z.to_nat i) with (S (Z.to_nat (i - 1))) by lia. simpl. split; [intros [_ H]; right; split; [|lia]; split; [lia|done]|].
    intros [[? _]|[[_ H] _]]; [lia|]. split; [lia|done].
Qed.

Lemma elem_of_entries_from history e k :
  0 <= k → k + Z.of_nat (length history) < 2 ^ 64 →
  e ∈ entries_from history k ↔ ∃ i o, op_at history i o ∧ (e = call_of (k + i) o ∨ e = return_of (k + i) o).
Proof.
  revert k. induction history as [|o history IH]; intros k Hk Hl.
  { simpl. split; [by intros ?%not_elem_of_nil|]. intros (i & o & [_ H] & _). by rewrite lookup_nil in H. }
  cbn [entries_from length] in *. rewrite u64_small by (unfold is_u64; lia).
  rewrite !elem_of_cons, IH by lia. split.
  - intros [->|[->|(i & o' & Hat & He)]].
    + exists 0, o. split; [by apply op_at_cons; [lia|left]|left]. by rewrite Z.add_0_r.
    + exists 0, o. split; [by apply op_at_cons; [lia|left]|right]. by rewrite Z.add_0_r.
    + exists (i + 1), o'. pose proof (proj1 Hat). split.
      * apply op_at_cons; [lia|right]. by replace (i + 1 - 1) with i by lia; split; [|lia].
      * by replace (k + (i + 1)) with (k + 1 + i) by lia.
  - intros (i & o' & Hat & He). pose proof (proj1 Hat) as Hi. apply op_at_cons in Hat as [[-> ->]|[Hat Hp]]; [| |done].
    + rewrite Z.add_0_r in He. destruct He as [->| ->]; [by left|by right; left].
    + right. right. exists (i - 1), o'. split; [done|]. by replace (k + 1 + (i - 1)) with (k + i) by lia.
Qed.

Section entries.
Context (history : list (Operation V)) (T : timed history).
Let es := makeEntries history.

Lemma elem_of_makeEntries e : e ∈ es ↔ ∃ i o, op_at history i o ∧ (e = call_of i o ∨ e = return_of i o).
Proof using T.
  unfold es, makeEntries. rewrite sort_perm, elem_of_entries_from; [done|lia|]. pose proof (tm_length _ T). lia.
Qed.

Lemma op_at_elem i o : op_at history i o → o ∈ history.
Proof. intros [_ H]. by eapply list_elem_of_lookup_2. Qed.

Lemma op_at_fun i o1 o2 : op_at history i o1 → op_at history i o2 → o1 = o2.
Proof. intros [_ H1] [_ H2]. congruence. Qed.

(** The entries of an operation. *)
Lemma entry_call e : e ∈ es → is_call e → ∃ o, op_at history (id e) o ∧ e = call_of (id e) o.
Proof using T.
  intros (i & o & Hat & [->| ->])%elem_of_makeEntries Hk; [by exists o|]. done.
Qed.
Lemma entry_return e : e ∈ es → is_return e → ∃ o, op_at history (id e) o ∧ e = return_of (id e) o.
Proof using T.
  intros (i & o & Hat & [->| ->])%elem_of_makeEntries Hk; [done|by exists o].
Qed.
Lemma call_in i o : op_at history i o → call_of i o ∈ es.
Proof using T. intros H. apply elem_of_makeEntries. exists i, o. by split; [|left]. Qed.
Lemma return_in i o : op_at history i o → return_of i o ∈ es.
Proof using T. intros H. apply elem_of_makeEntries. exists i, o. by split; [|right]. Qed.

Lemma entries_sorted pre x suf y : es = pre ++ x :: suf →
  (y ∈ pre → time y <= time x) ∧ (y ∈ suf → time x <= time y).
Proof using.
  intros E. pose proof (sort_sorted (entries_from history 0)) as Hs.
  change (sort_by_time (entries_from history 0)) with es in Hs. rewrite E in Hs.
  apply StronglySorted_app in Hs as (H1 & _ & H2). split; intros Hy.
  - apply (H1 y x Hy). left.
  - inversion H2 as [|a l Hl Ha]; subst. rewrite Forall_forall in Ha. by apply Ha.
Qed.

Lemma time_inj e1 e2 : e1 ∈ es → e2 ∈ es → time e1 = time e2 → e1 = e2.
Proof using T.
  destruct T as [_ (Hc & Hr & Hcr) _].
  assert (∀ (f : Operation V → Z) i j o1 o2, NoDup (f <$> history) → op_at history i o1 → op_at history j o2 →
    f o1 = f o2 → i = j ∧ o1 = o2) as Hinj.
  { intros f i j o1 o2 Hn [Hi H1] [Hj H2] Hf.
    assert (Z.to_nat i = Z.to_nat j) as E.
    { apply (NoDup_lookup (f <$> history) _ _ (f o1) Hn); rewrite list_lookup_fmap, ?H1, ?H2; simpl; by f_equal. }
    split; [lia|]. rewrite E in H1. congruence. }
  intros (i & o1 & H1 & He1)%elem_of_makeEntries (j & o2 & H2 & He2)%elem_of_makeEntries.
  destruct He1 as [-> | ->], He2 as [-> | ->]; simpl; intros E.
  - by destruct (Hinj Call i j o1 o2 Hc H1 H2 E) as [-> ->].
  - exfalso. by apply (Hcr o1 o2); [eapply op_at_elem|eapply op_at_elem|].
  - exfalso. by apply (Hcr o2 o1); [eapply op_at_elem|eapply op_at_elem|].
  - by destruct (Hinj Return i j o1 o2 Hr H1 H2 E) as [-> ->].
Qed.

Lemma time_before x y : x ∈ es → y ∈ es → time x < time y → before es x y.
Proof using.
  intros Hx Hy Hlt. apply list_elem_of_split in Hx as (pre & suf & E). rewrite E in Hy.
  apply elem_of_app in Hy as [Hy|[->|Hy]%elem_of_cons]; [| lia |].
  - apply (entries_sorted pre x suf y E) in Hy. lia.
  - apply list_elem_of_split in Hy as (s1 & s2 & ->). by exists pre, s1, s2.
Qed.

Lemma before_time x y : before es x y → time x <= time y.
Proof using.
  intros (l1 & l2 & l3 & E). apply (entries_sorted l1 x (l2 ++ y :: l3) y E). elem_tac.
Qed.

Lemma entries_nodup k : 0 <= k → k + Z.of_nat (length history) < 2 ^ 64 →
  NoDup ((λ e, (kind e, id e)) <$> entries_from history k).
Proof using.
  clear T es. revert k. induction history as [|o l IH]; intros k Hk Hl; [constructor|].
  cbn [entries_from length fmap list_fmap] in *. rewrite u64_small by (unfold is_u64; lia).
  assert (∀ b, (b, k) ∉ (λ e : entry V, (kind e, id e)) <$> entries_from l (k + 1)) as Hno.
  { intros b (e & [= _ E] & He)%list_elem_of_fmap. apply elem_of_entries_from in He as (i & o' & [Hi _] & He); [|lia|lia].
    destruct He as [-> | ->]; simpl in E; lia. }
  apply NoDup_cons. split; [|apply NoDup_cons; split; [apply Hno|apply IH; lia]].
  simpl. intros [?|Hin]%elem_of_cons; [done|by apply (Hno callEntry)].
Qed.

Lemma makeEntries_wf : wf_history es.
Proof using T.
  pose proof (tm_length _ T) as Hlen. split.
  - eapply NoDup_Permutation_proper; [apply fmap_Permutation, sort_perm|]. apply entries_nodup; lia.
  - intros pre e suf E Hk. assert (e ∈ es) as He by (rewrite E; elem_tac).
    destruct (entry_call e He Hk) as (o & Hat & Ee). pose proof (return_in _ _ Hat) as Hr.
    exists (return_of (id e) o). split; [|done]. rewrite E in Hr.
    pose proof (tm_order _ T) as Ho. rewrite Forall_forall in Ho. specialize (Ho o (op_at_elem _ _ Hat)).
    apply elem_of_app in Hr as [Hr|[Hr|Hr]%elem_of_cons]; [|by rewrite Ee in Hr|done].
    apply (entries_sorted pre e suf _ E) in Hr. rewrite Ee in Hr. simpl in Hr. lia.
  - intros pre r suf E Hk. assert (r ∈ es) as Hr by (rewrite E; elem_tac).
    destruct (entry_return r Hr Hk) as (o & Hat & Ee). pose proof (call_in _ _ Hat) as Hc.
    exists (call_of (id r) o). split; [|done]. rewrite E in Hc.
    pose proof (tm_order _ T) as Ho. rewrite Forall_forall in Ho. specialize (Ho o (op_at_elem _ _ Hat)).
    apply elem_of_app in Hc as [Hc|[Hc|Hc]%elem_of_cons]; [done|by rewrite Ee in Hc|].
    apply (entries_sorted pre r suf _ E) in Hc. rewrite Ee in Hc. simpl in Hc. lia.
Qed.

Lemma length_entries_from k l : length (entries_from (V := V) l k) = (2 * length l)%nat.
Proof using. revert k. induction l as [|o l IH]; intros k; simpl; [done|]. rewrite IH. lia. Qed.

Lemma length_makeEntries : Z.of_nat (length es) = 2 * Z.of_nat (length history).
Proof using.
  unfold es, makeEntries. rewrite (Permutation_length (sort_perm (entries_from history 0))), length_entries_from. lia.
Qed.

Lemma makeEntries_dense : dense es.
Proof using T.
  intros e (i & o & [Hi Ho] & He)%elem_of_makeEntries. rewrite length_makeEntries, Z.mul_comm, Z.div_mul by lia.
  apply lookup_lt_Some in Ho. destruct He as [-> | ->]; simpl; lia.
Qed.

Lemma legal_entries ord st : legal (Step model) es ord st ↔ legal_ops history ord st.
Proof using T.
  split.
  - induction 1 as [|i ord e r st st' He Hk <- Hr Hkr Hi Hs _ IH]; [constructor|].
    destruct (entry_call e He Hk) as (o & Ho & Ee). destruct (entry_return r Hr Hkr) as (o' & Ho' & Er).
    rewrite Hi in Ho'. rewrite (op_at_fun _ _ _ Ho' Ho) in Er. rewrite Ee, Er in Hs. simpl in Hs.
    by apply (legal_ops_cons _ _ _ o st st').
  - induction 1 as [|i ord o st st' Ho Hs _ IH]; [constructor|].
    apply (legal_cons _ es i ord (call_of i o) (return_of i o) st st'); try done; [by apply call_in|by apply return_in].
Qed.

Lemma precedes_entries i j :
  precedes es i j ↔ ∃ o1 o2, op_at history i o1 ∧ op_at history j o2 ∧ Return o1 < Call o2.
Proof using T.
  split.
  - intros (r & c & Hb & Hr & <- & Hc & <-). pose proof (before_elem _ _ _ Hb) as [Hrin Hcin].
    destruct (entry_return r Hrin Hr) as (o1 & H1 & E1). destruct (entry_call c Hcin Hc) as (o2 & H2 & E2).
    exists o1, o2. split_and!; try done. apply before_time in Hb.
    assert (time r ≠ time c) as Hne.
    { intros E. apply time_inj in E; [|done|done]. subst c. unfold is_call, is_return, callEntry, returnEntry in *. congruence. }
    rewrite E1, E2 in Hb, Hne. simpl in Hb, Hne. lia.
  - intros (o1 & o2 & H1 & H2 & Hlt). exists (return_of i o1), (call_of j o2). split_and!; try done.
    apply time_before; [by apply return_in|by apply call_in|done].
Qed.

Lemma linearizable_entries : linearizable (Step model) es (Init model) ↔ linearizable_ops history.
Proof using T.
  assert (∀ i, i ∈ id <$> es ↔ ∃ o, op_at history i o) as Hids.
  { intros i. rewrite elem_of_ids. split.
    - intros (e & (j & o & Hat & He)%elem_of_makeEntries & <-). exists o. by destruct He as [-> | ->].
    - intros (o & Ho). exists (call_of i o). split; [by apply call_in|done]. }
  split; intros (ord & Hn & Hm & Hp & Hl); exists ord; split_and!; try done.
  - intros i. by rewrite Hm, Hids.
  - intros i j o1 o2 H1 H2 Hlt. apply Hp, precedes_entries. by exists o1, o2.
  - by apply legal_entries.
  - intros i. by rewrite Hm, Hids.
  - intros i j (o1 & o2 & H1 & H2 & Hlt)%precedes_entries. by apply (Hp i j o1 o2).
  - by apply legal_entries.
Qed.
End entries.

(** ** CheckOperations *)
Lemma collect_all bs : bs ≠ [] → ∀ count m, (m = count + length bs)%nat →
  collect m count true (Result <$> bs) = Some (forallb (λ b, b) bs).
Proof.
  induction bs as [|b bs IH]; [done|]. intros _ count m Hm. simpl in *. destruct b; simpl; [|done].
  destruct bs as [|b' bs]; [by rewrite decide_True by (simpl in Hm; lia)|].
  rewrite decide_False by (simpl in Hm; lia). apply IH; [done|]. simpl in *. lia.
Qed.

Lemma check_partitions_lin parts :
  equal_ok model → Forall timed parts →
  ∃ bs N, (∀ fuel, (N <= fuel)%nat → check_partitions model nil_value fuel (makeEntries <$> parts) = Some bs)
    ∧ Forall2 (λ b part, b = true ↔ linearizable_ops part) bs parts.
Proof.
  intros He HT. induction HT as [|part parts T HT (bs & N2 & E2 & F)]; [by exists [], 0%nat|].
  destruct (check_partition_lin model nil_value (makeEntries part) He) as (b & N1 & E1 & Hb).
  { by apply makeEntries_wf. }
  { by apply makeEntries_dense. }
  { rewrite length_makeEntries. pose proof (tm_length _ T). lia. }
  exists (b :: bs), (N1 + N2)%nat. split.
  - intros fuel Hf. rewrite fmap_cons. cbn [check_partitions]. rewrite E1 by lia. simpl. by rewrite E2 by lia.
  - constructor; [|done]. rewrite Hb, lin_linearizable by (by apply makeEntries_wf). by apply linearizable_entries.
Qed.

Lemma forallb_Forall2 (bs : list bool) {A} (P : A → Prop) (l : list A) :
  Forall2 (λ b x, b = true ↔ P x) bs l → forallb (λ b, b) bs = true ↔ Forall P l.
Proof.
  induction 1 as [|b x bs l Hb _ IH]; simpl; [by split; [constructor|]|].
  rewrite andb_true_iff, IH, Hb, Forall_cons. done.
Qed.

Lemma forallb_perm (bs bs' : list bool) : bs ≡ₚ bs' → forallb (λ b, b) bs = forallb (λ b, b) bs'.
Proof. induction 1 as [|b l l' _ IH|b b' l|l1 l2 l3 _ IH1 _ IH2]; simpl; [done|by rewrite IH|by destruct b, b'|congruence]. Qed.

Lemma CheckOperations_spec order history parts :
  equal_ok model → default NoPartition (Partition model) history = parts → Forall timed parts → parts ≠ [] →
  (∀ bs, order bs ≡ₚ bs) →
  ∃ b N, (∀ fuel, (N <= fuel)%nat → CheckOperations model nil_value fuel order history = Some b)
    ∧ (b = true ↔ Forall linearizable_ops parts).
Proof.
  intros He <- HT Hne Ho. set (parts := default NoPartition (Partition model) history) in *.
  destruct (check_partitions_lin parts He HT) as (bs & N & E & F).
  assert (bs ≠ []) as Hbs by (intros ->; by inversion F).
  exists (forallb (λ b, b) bs), N. split; [|by apply forallb_Forall2].
  intros fuel Hf. unfold CheckOperations, CheckOperationsTimeout, operation_parts. fold parts. rewrite (E fuel Hf). simpl.
  rewrite (collect_all (order bs)); [by rewrite (forallb_perm _ _ (Ho bs))| |].
  - intros E0. apply Hbs. specialize (Ho bs). rewrite E0 in Ho. by apply Permutation_nil in Ho.
  - by rewrite (Permutation_length (Ho bs)).
Qed.

Lemma collect_false m count ok arrivals :
  collect m count ok arrivals = Some false → ok = true → Result false ∈ arrivals.
Proof.
  revert count ok. induction arrivals as [|[b|] l IH]; intros count ok E Hok; simpl in E; subst ok; [done| |done].
  destruct b; simpl in E; [|left]. case_decide; [done|]. right. by apply (IH (S count) true).
Qed.
End operations.

(** ** More fuel does not change an answer *)
Lemma check_loop_mono {St V} (model : Model St V) equal fuel fuel' i kill head s b :
  (fuel <= fuel')%nat → check_loop model equal fuel i kill head s = Some b →
  check_loop model equal fuel' i kill head s = Some b.
Proof.
  revert fuel' i s. induction fuel as [|fuel IH]; intros [|fuel'] i s Hf E; try done; [lia|].
  cbn [check_loop] in *. destruct (check_step model equal (kill i) head s) as [[b'|s']|]; simpl in *; try done.
  apply IH; [lia|done].
Qed.

Lemma check_partitions_mono {St V} `{!EqDecision St} (model : Model St V) nil_value fuel fuel' parts bs :
  (fuel <= fuel')%nat → check_partitions model nil_value fuel parts = Some bs →
  check_partitions model nil_value fuel' parts = Some bs.
Proof.
  intros Hf. revert bs. induction parts as [|p parts IH]; intros bs E; [done|]. cbn [check_partitions] in *.
  destruct (check_partition model nil_value fuel p) as [b|] eqn:Eb; [|done].
  assert (check_partition model nil_value fuel' p = Some b) as ->.
  { unfold check_partition, checkSingle in *. destruct (makeLinkedEntries p empty_heap) as [[r h]|]; [|done].
    simpl in *. destruct (length_from (next_free h) r.1 0 h) as [[l h1]|]; [|done]. simpl in *.
    destruct (insertBefore _ _ _) as [[hd h2]|]; [|done]. simpl in *. by eapply check_loop_mono. }
  simpl in *. destruct (check_partitions model nil_value fuel parts) as [bs'|]; [|done].
  by rewrite (IH bs' eq_refl).
Qed.

(** ** The key-value model *)
Section kv.
Context {SO : Sorter} {RO : RangeOrder}.
Implicit Types (history : list (Operation KvValue)).

Definition of_key history (k : string) : list (Operation KvValue) := filter (λ o, op_key o = k) history.

Lemma kv_partition_elem history part :
  part ∈ kv_partition history ↔ ∃ k, part = of_key history k ∧ part ≠ [].
Proof.
  set (m := foldl (λ (m : gmap string (list (Operation KvValue))) v,
             <[op_key v := default [] (m !! op_key v) ++ [v]]> m) ∅ history).
  assert (∀ k, m !! k = if decide (of_key history k = []) then None else Some (of_key history k)) as Hm.
  { unfold m. clear m. intros k. revert k.
    assert (∀ l (m0 : gmap string (list (Operation KvValue))) k,
      foldl (λ (m : gmap string (list (Operation KvValue))) v,
             <[op_key v := default [] (m !! op_key v) ++ [v]]> m) m0 l !! k
      = if decide (of_key l k = []) then m0 !! k else Some (default [] (m0 !! k) ++ of_key l k)) as Hg.
    { induction l as [|o l IH]; intros m0 k; [done|]. simpl. rewrite IH.
      assert (of_key (o :: l) k = if decide (op_key o = k) then o :: of_key l k else of_key l k) as ->
        by (unfold of_key; by rewrite filter_cons).
      destruct (decide (op_key o = k)) as [<-|Hne].
      - rewrite lookup_insert_eq. simpl.
        destruct (decide (of_key l (op_key o) = [])) as [E|E]; [by rewrite E|]. by rewrite <- app_assoc.
      - by rewrite lookup_insert_ne. }
    intros k. rewrite Hg, lookup_empty. simpl. done. }
  unfold kv_partition. fold m. rewrite list_elem_of_fmap. split.
  - intros ([k p] & -> & Hin). apply elem_of_go_range in Hin. rewrite Hm in Hin. exists k. simpl.
    case_decide; [done|]. by injection Hin as <-.
  - intros (k & -> & Hne). exists (k, of_key history k). split; [done|]. apply elem_of_go_range. rewrite Hm.
    by rewrite decide_False.
Qed.

Lemma timed_sublist {V} (l l' : list (Operation V)) : l `sublist_of` l' → timed l' → timed l.
Proof.
  intros Hs [T1 (T2 & T3 & T4) T5]. assert (∀ o, o ∈ l → o ∈ l') as Hin.
  { intros o Ho. by eapply elem_of_submseteq; [|apply sublist_submseteq]. }
  split.
  - rewrite Forall_forall in *. auto.
  - split_and!; [by eapply sublist_NoDup; [|apply fmap_sublist]|by eapply sublist_NoDup; [|apply fmap_sublist]|auto].
  - apply sublist_length in Hs. lia.
Qed.

Lemma linearizable_ops_nil {St V} (model : Model St V) : linearizable_ops model [].
Proof.
  exists []. split_and!; [constructor| | |constructor].
  - intros i. split; [by intros ?%not_elem_of_nil|]. intros (o & _ & Ho). by rewrite lookup_nil in Ho.
  - intros i j o1 o2 [_ H]. by rewrite lookup_nil in H.
Qed.
End kv.

(** ** Theorems *)

(** C2. The checker decides linearizability: on every well-formed history of entries it
    returns - whatever the model, provided that its Equal (if it has one) decides equality
    of states - and the answer is [true] exactly when some order of the operations keeps the
    order of those that do not overlap and is a run of the model. Neither the depth-first
    search over the linked list nor the cache of visited states loses or invents a
    linearization. *)
Theorem checker_decides {St V} `{!EqDecision St} (model : Model St V) (nil_value : V) es :
  equal_ok model → wf_history es → dense es → Z.of_nat (length es) < 2 ^ 64 →
  ∃ b N, (∀ fuel, (N <= fuel)%nat → check_partition model nil_value fuel es = Some b)
    ∧ (b = true ↔ linearizable (Step model) es (Init model)).
Proof.
  intros He W Hd Hl. destruct (check_partition_lin model nil_value es He W Hd Hl) as (b & N & E & Hb).
  exists b, N. split; [done|]. by rewrite Hb, lin_linearizable.
Qed.

(** [unlift] undoes [lift]: taking a call and its return out of the linked
    history leaves the list of the remaining nodes, and putting them back restores
    every node of the heap as it was. *)
Theorem unlift_restores {V} (h : Heap V) head A x B m C n :
  NoDup (head :: A ++ x :: B ++ m :: C) → 0%nat ∉ head :: A ++ x :: B ++ m :: C →
  dll (nodes h) 0 (head :: A ++ x :: B ++ m :: C) 0 → nodes h !! x = Some n → n_match n = m →
  ∃ h', lift x h = Some ((), h') ∧ dll (nodes h') 0 (head :: A ++ B ++ C) 0 ∧ unlift x h' = Some ((), h).
Proof.
  intros Hn H0 Hd Hx Hm. destruct (lift_spec h head A B C x m n Hn H0 Hd Hx Hm) as (g & E & D & _ & U).
  by exists (mkHeap g (next_free h)).
Qed.

(** CheckOperations on key-value histories: for operations with distinct
    times, the answer is [true] exactly when the operations on every single key
    are linearizable, in whatever order the partitions report. *)
Theorem kv_check_correct {SO : Sorter} {RO : RangeOrder} nil_value order history :
  timed history → history ≠ [] → (∀ bs, order bs ≡ₚ bs) →
  ∃ b N, (∀ fuel, (N <= fuel)%nat → CheckOperations KvModel nil_value fuel order history = Some b)
    ∧ (b = true ↔ ∀ k, linearizable_ops KvModel (of_key history k)).
Proof.
  intros T Hne Ho.
  destruct (CheckOperations_spec KvModel nil_value order history (kv_partition history)) as (b & N & E & Hb).
  - apply shallow_equal_ok. by right.
  - done.
  - apply Forall_forall. intros part (k & -> & _)%kv_partition_elem. eapply timed_sublist; [|exact T].
    apply sublist_filter.
  - destruct history as [|o l]; [done|]. intros E.
    assert (of_key (o :: l) (op_key o) ∈ kv_partition (o :: l)) as Hin.
    { apply kv_partition_elem. exists (op_key o). split; [done|]. unfold of_key. by rewrite filter_cons_True. }
    rewrite E in Hin. by apply not_elem_of_nil in Hin.
  - done.
  - exists b, N. split; [done|]. rewrite Hb, Forall_forall. split.
    + intros Hp k. destruct (decide (of_key history k = [])) as [-> | Hk]; [apply linearizable_ops_nil|].
      apply Hp, kv_partition_elem. by exists k.
    + intros Hk part (k & -> & _)%kv_partition_elem. apply Hk.
Qed.

(** CheckOperations never answers for an empty key-value history: KvModel
    makes no partition of it, so no result is ever sent and the collecting loop,
    which looks at the count only after a result, waits for ever. *)
Theorem empty_kv_history_hangs {SO : Sorter} {RO : RangeOrder} nil_value order :
  (∀ bs, order bs ≡ₚ bs) → ∀ fuel, CheckOperations KvModel nil_value fuel order [] = None.
Proof.
  intros Ho fuel. unfold CheckOperations, CheckOperationsTimeout, operation_parts.
  assert (default NoPartition (Partition KvModel) [] = []) as ->.
  { apply elem_of_nil_inv. intros part (k & -> & Hne)%kv_partition_elem. done. }
  simpl. specialize (Ho []). symmetry in Ho. apply Permutation_nil in Ho. by rewrite Ho.
Qed.

(** A time-out can only turn a [false] into a [true]: when the loop receives
    some of the results of the partitions, and perhaps the time-out, the answer
    [false] still means that some partition is not linearizable. *)
Theorem timeout_false_is_right {St V} `{!EqDecision St} {SO : Sorter} (model : Model St V) nil_value history fuel arrive :
  equal_ok model → Forall timed (default NoPartition (Partition model) history) →
  (∀ bs b, Result b ∈ arrive bs → b ∈ bs) →
  CheckOperationsTimeout model nil_value fuel arrive history = Some false →
  ¬ Forall (linearizable_ops model) (default NoPartition (Partition model) history).
Proof.
  intros He HT Ha. destruct (check_partitions_lin model nil_value _ He HT) as (bs & N & E & F).
  unfold CheckOperationsTimeout, operation_parts.
  destruct (check_partitions model nil_value fuel _) as [bs'|] eqn:E'; [|done]. simpl.
  assert (bs' = bs) as ->.
  { apply (check_partitions_mono _ _ _ (fuel + N)) in E'; [|lia]. rewrite E in E' by lia. by injection E' as ->. }
  intros Hc. apply collect_false in Hc; [|done]. apply Ha in Hc.
  intros Hall. apply (forallb_Forall2 _ _ _ F) in Hall. rewrite forallb_forall in Hall.
  specialize (Hall false). rewrite <- list_elem_of_In in Hall. by apply Hall in Hc.
Qed.

(** ** Concrete histories *)
Definition kv_op (op : Z) (k v : string) (call : Z) (out : string) (ret : Z) : Operation KvValue :=
  mkOp (KvI (mkKvInput op k v)) call (KvO out) ret.

(** A put overlaps a get that still reads the old value and precedes one that
    reads the new one. *)
Definition good_history : list (Operation KvValue) :=
  [kv_op 1 "x" "a" 1 "" 6; kv_op 0 "x" "" 2 "" 3; kv_op 0 "x" "" 4 "a" 5; kv_op 2 "y" "b" 7 "" 8].

Lemma good_history_timed : timed good_history.
Proof.
  split; [|split; [|split]|].
  - repeat constructor.
  - refine (bool_decide_unpack _ _). vm_compute. exact I.
  - refine (bool_decide_unpack _ _). vm_compute. exact I.
  - intros o1 o2 H1 H2. unfold good_history in *.
    rewrite !elem_of_cons, elem_of_nil in H1, H2. intros E.
    destruct H1 as [->|[->|[->|[->|[]]]]], H2 as [->|[->|[->|[->|[]]]]]; discriminate E.
  - reflexivity.
Qed.

(** Insertion sort by time. *)
Fixpoint insert_entry {V} (e : entry V) (l : list (entry V)) : list (entry V) :=
  match l with
  | [] => [e]
  | x :: l' => if time e <=? time x then e :: l else x :: insert_entry e l'
  end.

Lemma insert_entry_perm {V} (e : entry V) l : insert_entry e l ≡ₚ e :: l.
Proof.
  induction l as [|x l IH]; simpl; [done|]. destruct (time e <=? time x); [done|]. rewrite IH. apply Permutation_swap.
Qed.

#[refine] Definition insertion_sort : Sorter :=
  {| sort_by_time V := foldr insert_entry [] |}.
Proof.
  - intros V l. induction l as [|e l IH]; simpl; [done|]. by rewrite insert_entry_perm, IH.
  - intros V l. induction l as [|e l IH]; simpl; [constructor|].
    revert IH. generalize (foldr insert_entry [] l). clear l. intros l Hs. induction Hs as [|x l Hs IH Hx]; simpl.
    { repeat constructor. }
    destruct (Z.leb_spec (time e) (time x)) as [H|H].
    + constructor; [by constructor|]. constructor; [done|]. eapply Forall_impl; [exact Hx|]. intros y Hy. simpl in Hy. lia.
    + constructor; [done|]. apply Forall_forall. intros y Hy. rewrite insert_entry_perm in Hy.
      apply elem_of_cons in Hy as [->|Hy]; [lia|]. rewrite Forall_forall in Hx. by apply Hx.
Defined.

Lemma kv_check_correct_witness :
  ∃ b N, CheckOperations (SO := insertion_sort) (KvModel (RO := source_order)) (KvO "") 200 (λ bs, bs) good_history = Some true
    ∧ (∀ fuel, (N <= fuel)%nat → CheckOperations (SO := insertion_sort) (KvModel (RO := source_order)) (KvO "") fuel (λ bs, bs) good_history = Some b)
    ∧ (b = true ↔ ∀ k, linearizable_ops (KvModel (RO := source_order)) (of_key good_history k)).
Proof.
  destruct (kv_check_correct (SO := insertion_sort) (RO := source_order) (KvO "") (λ bs, bs) good_history)
    as (b & N & E & H).
  - apply good_history_timed.
  - discriminate.
  - intros bs. reflexivity.
  - exists b, N. refine (conj _ (conj E H)). vm_compute. reflexivity.
Defined.

Lemma empty_kv_history_hangs_witness :
  CheckOperations (SO := insertion_sort) (KvModel (RO := source_order)) (KvO "") 1000 (λ bs, bs) [] = None.
Proof. apply (empty_kv_history_hangs (SO := insertion_sort) (RO := source_order) (KvO "") (λ bs, bs)). intros bs. reflexivity. Defined.

(** The operations on one key, without a partition function. *)
Definition key_model : Model string KvValue := mkModel None None "" kv_step None.

Lemma checker_decides_witness :
  ∃ b N, check_partition key_model (KvO "") 100 (makeEntries (SO := insertion_sort) (take 3 good_history)) = Some true
    ∧ (∀ fuel, (N <= fuel)%nat →
         check_partition key_model (KvO "") fuel (makeEntries (SO := insertion_sort) (take 3 good_history)) = Some b)
    ∧ (b = true ↔ linearizable kv_step (makeEntries (SO := insertion_sort) (take 3 good_history)) "").
Proof.
  assert (timed (take 3 good_history)) as T.
  { eapply timed_sublist; [|apply good_history_timed]. apply sublist_take. }
  destruct (checker_decides key_model (KvO "") (makeEntries (SO := insertion_sort) (take 3 good_history)))
    as (b & N & E & H).
  - apply shallow_equal_ok. left. reflexivity.
  - apply makeEntries_wf, T.
  - apply makeEntries_dense, T.
  - vm_compute. reflexivity.
  - exists b, N. refine (conj _ (conj E H)). vm_compute. reflexivity.
Defined.

Definition demo_list : Heap nat :=
  mkHeap {[1%nat := mkNode 0%nat 0 9 2 0; 2%nat := mkNode 5%nat 3 0 3 1; 3%nat := mkNode 6%nat 0 0 0 2]} 4.

Lemma unlift_restores_witness :
  ∃ h', lift 2%nat demo_list = Some ((), h') ∧ unlift 2%nat h' = Some ((), demo_list).
Proof.
  destruct (unlift_restores demo_list 1%nat [] 2%nat [] 3%nat [] (mkNode 5%nat 3 0 3 1)) as (h' & E & _ & U).
  - refine (bool_decide_unpack _ _). vm_compute. exact I.
  - refine (bool_decide_unpack _ _). vm_compute. exact I.
  - simpl. repeat eexists; reflexivity.
  - reflexivity.
  - reflexivity.
  - exists h'. exact (conj E U).
Defined.

Definition bad_history : list (Operation KvValue) := [kv_op 1 "x" "a" 1 "" 2; kv_op 0 "x" "" 3 "b" 4].

Lemma timeout_false_is_right_witness :
  ¬ Forall (linearizable_ops key_model) [bad_history].
Proof.
  apply (timeout_false_is_right (SO := insertion_sort) key_model (KvO "") bad_history 100 (λ bs, (Result <$> bs) ++ [TimedOut])).
  - apply shallow_equal_ok. left. reflexivity.
  - apply Forall_singleton. split; [repeat constructor|split; [|split]|reflexivity].
    + refine (bool_decide_unpack _ _). vm_compute. exact I.
    + refine (bool_decide_unpack _ _). vm_compute. exact I.
    + intros o1 o2 H1 H2. unfold bad_history in *. rewrite !elem_of_cons, elem_of_nil in H1, H2. intros E.
      destruct H1 as [->|[->|[]]], H2 as [->|[->|[]]]; discriminate E.
  - intros bs b [Hb|Hb]%elem_of_app.
    + apply list_elem_of_fmap in Hb as (b' & [= ->] & Hb). exact Hb.
    + apply list_elem_of_singleton in Hb. discriminate Hb.
  - vm_compute. reflexivity.
Defined.
