(* ===== verification/LinLocal.v ===== *)
(** LinLocal: checking a key-value store key by key.

    Source: lab4-mapreduce/src/linearizability/models.go.  [KvModel] splits a
    history by key and checks every part with a register.  The theorem of this
    file is that this decides linearizability of the whole store: orders of the
    single keys can be merged into one order, because every operation can be
    given a point in time between its call and its return. *)
From Stdlib Require Import ZArith Lia Permutation.
From stdpp Require Import gmap strings list sorting.
From S2P Require Import Prelude.
From S2P Require Import Linearizability.
From S2P Require Import LinSpec.
From S2P Require Import LinCheck.
Open Scope Z_scope.

(** ** Orders as lists of operations *)
Section runs.
Context {St V : Type} (model : Model St V).
Implicit Types (history ord : list (Operation V)) (o : Operation V).

Fixpoint legal_run ord (st : St) : Prop :=
  match ord with
  | [] => True
  | o :: ord' => fst (Step model st (Input o) (Output o)) = true ∧ legal_run ord' (snd (Step model st (Input o) (Output o)))
  end.

Definition keeps_time history ord : Prop :=
  ∀ o1 o2, o1 ∈ history → o2 ∈ history → Return o1 < Call o2 → before ord o1 o2.

Definition linearizable_list history : Prop :=
  ∃ ord, ord ≡ₚ history ∧ keeps_time history ord ∧ legal_run ord (Init model).

Lemma legal_ops_run history ids ord st : Forall2 (op_at history) ids ord → legal_ops model history ids st ↔ legal_run ord st.
Proof.
  intros H. revert st. induction H as [|i o ids ord Hi H IH]; intros st; split; cbn [legal_run]; [done|constructor|..].
  - inversion 1 as [|? ? o' ? st' Ho Hs Hl]; subst. pose proof (op_at_fun _ _ _ _ Hi Ho) as <-. rewrite Hs. split; [done|]. by apply IH.
  - intros [Hs Hl]. destruct (Step model st (Input o) (Output o)) as [b st'] eqn:E. cbn in *. subst b.
    eapply legal_ops_cons; [exact Hi|exact E|]. by apply IH.
Qed.

Lemma Forall2_elem_l {A B} (R : A → B → Prop) l l' x : Forall2 R l l' → x ∈ l → ∃ y, y ∈ l' ∧ R x y.
Proof.
  induction 1 as [|a b l l' Hab H IH]; [by intros ?%not_elem_of_nil|]. intros [->|Hx]%elem_of_cons.
  - exists b. split; [constructor|done].
  - destruct (IH Hx) as (y & Hy & HR). exists y. split; [by constructor|done].
Qed.

Lemma Forall2_NoDup_l {A B} (R : A → B → Prop) l l' :
  (∀ x y y', R x y → R x y' → y = y') → Forall2 R l l' → NoDup l' → NoDup l.
Proof.
  intros Hf H. induction H as [|a b l l' Hab H IH]; [constructor|]. intros [Hb Hn]%NoDup_cons. constructor; [|auto].
  intros Ha. destruct (Forall2_elem_l _ _ _ _ H Ha) as (y & Hy & HR). by rewrite <- (Hf _ _ _ Hab HR) in Hy.
Qed.

Lemma Forall2_before {A B} (R : A → B → Prop) l l' x y x' y' :
  (∀ x y y', R x y → R x y' → y = y') → Forall2 R l l' → before l x y → R x x' → R y y' → before l' x' y'.
Proof.
  intros Hf H (l1 & l2 & l3 & ->) Hx Hy. apply Forall2_app_inv_l in H as (m1 & r1 & _ & H & ->).
  apply Forall2_cons_inv_l in H as (x1 & r2 & Hx1 & H & ->). apply Forall2_app_inv_l in H as (m2 & r3 & _ & H & ->).
  apply Forall2_cons_inv_l in H as (y1 & r4 & Hy1 & _ & ->). rewrite (Hf _ _ _ Hx1 Hx), (Hf _ _ _ Hy1 Hy). by exists m1, m2, r4.
Qed.

Lemma Forall2_exists {A B} (R : A → B → Prop) l : Forall (λ x, ∃ y, R x y) l → ∃ l', Forall2 R l l'.
Proof.
  induction 1 as [|x l [y Hy] _ [l' IH]]; [by exists []|]. exists (y :: l'). by constructor.
Qed.

Lemma op_at_inj history i j o : NoDup history → op_at history i o → op_at history j o → i = j.
Proof. intros Hn [Hi H1] [Hj H2]. pose proof (NoDup_lookup _ _ _ _ Hn H1 H2). lia. Qed.

(** The two ways to write an order of the operations. *)
Lemma linearizable_ops_list history : NoDup history → linearizable_ops model history ↔ linearizable_list history.
Proof.
  intros Hn. split.
  - intros (ids & Hids & Hel & Hrt & Hl).
    destruct (Forall2_exists (op_at history) ids) as [ord H].
    { apply Forall_forall. intros i Hi. by apply Hel. }
    exists ord. split_and!.
    + apply NoDup_Permutation; [|done|].
      * apply (Forall2_NoDup_l (λ o i, op_at history i o) ord ids); [|by apply Forall2_flip|done]. intros o i j. by apply op_at_inj.
      * intros o. split.
        -- intros Ho. destruct (Forall2_elem_l _ _ _ o (proj1 (Forall2_flip _ _ _) H) Ho) as (i & _ & Hi). by eapply op_at_elem.
        -- intros Ho. apply list_elem_of_lookup_1 in Ho as [n Ho].
           assert (op_at history (Z.of_nat n) o) as Hat by (split; [lia|by rewrite Nat2Z.id]).
           destruct (Forall2_elem_l _ _ _ (Z.of_nat n) H) as (o' & Ho' & Hat'); [apply Hel; by eexists|].
           by rewrite (op_at_fun _ _ _ _ Hat Hat').
    + intros o1 o2 [n1 H1]%list_elem_of_lookup_1 [n2 H2]%list_elem_of_lookup_1 Ht.
      assert (∀ n o, history !! n = Some o → op_at history (Z.of_nat n) o) as Hat by (intros n o E; split; [lia|by rewrite Nat2Z.id]).
      apply Hat in H1, H2. apply (Forall2_before (op_at history) ids ord (Z.of_nat n1) (Z.of_nat n2)); try done; [apply op_at_fun|].
      by apply (Hrt _ _ o1 o2).
    + by apply (legal_ops_run history ids ord).
  - intros (ord & Hp & Hrt & Hl).
    destruct (Forall2_exists (λ o i, op_at history i o) ord) as [ids H].
    { apply Forall_forall. intros o Ho. rewrite Hp in Ho. apply list_elem_of_lookup_1 in Ho as [n Ho]. exists (Z.of_nat n).
      split; [lia|by rewrite Nat2Z.id]. }
    apply Forall2_flip in H. exists ids. split_and!.
    + apply (Forall2_NoDup_l (op_at history) ids ord); [apply op_at_fun|done|by rewrite Hp].
    + intros i. split.
      * intros Hi. destruct (Forall2_elem_l _ _ _ i H Hi) as (o & _ & Ho). by exists o.
      * intros [o Ho]. pose proof (op_at_elem _ _ _ Ho) as Hin. rewrite <- Hp in Hin.
        destruct (Forall2_elem_l _ _ _ o (proj1 (Forall2_flip _ _ _) H) Hin) as (j & Hj & Hat). by rewrite (op_at_inj _ _ _ _ Hn Ho Hat).
    + intros i j o1 o2 H1 H2 Ht. apply (Forall2_before (λ o i, op_at history i o) ord ids o1 o2); try done.
      * intros o i' j'. by apply op_at_inj.
      * by apply Forall2_flip.
      * apply Hrt; [by eapply op_at_elem|by eapply op_at_elem|done].
    + by apply (legal_ops_run history ids ord).
Qed.
End runs.

(** ** Points in time *)
Section points.
Context {V : Type}.
Implicit Types (l : list (Operation V)) (o : Operation V) (L : list (Z * Operation V)).

(** The latest call so far. *)
Fixpoint stamp (acc : Z) l : list (Z * Operation V) :=
  match l with
  | [] => []
  | o :: l' => (Z.max acc (Call o), o) :: stamp (Z.max acc (Call o)) l'
  end.

Definition earlier (p q : Z * Operation V) : Prop := p.1 <= q.1.
#[export] Instance earlier_dec p q : Decision (earlier p q).
Proof. unfold earlier. apply _. Defined.
#[export] Instance earlier_total : Total earlier.
Proof. intros p q. unfold earlier. lia. Qed.
#[export] Instance earlier_trans : Transitive earlier.
Proof. intros p q r. unfold earlier. lia. Qed.

Definition within (p : Z * Operation V) : Prop := Call p.2 <= p.1 <= Return p.2.

Lemma stamp_ops acc l : (stamp acc l).*2 = l.
Proof. revert acc. induction l as [|o l IH]; intros acc; [done|]. cbn. by rewrite IH. Qed.

Lemma stamp_ge acc l p : p ∈ stamp acc l → acc <= p.1.
Proof.
  revert acc. induction l as [|o l IH]; intros acc; cbn [stamp]; [by intros ?%not_elem_of_nil|].
  intros [->|Hp]%elem_of_cons; cbn; [lia|]. apply IH in Hp. lia.
Qed.

Lemma stamp_sorted acc l : StronglySorted earlier (stamp acc l).
Proof.
  revert acc. induction l as [|o l IH]; intros acc; constructor; [apply IH|].
  apply Forall_forall. intros p Hp%stamp_ge. exact Hp.
Qed.

Lemma stamp_within acc l : (∀ o, o ∈ l → acc <= Return o) → (∀ o, o ∈ l → Call o <= Return o) →
  (∀ o1 o2, before l o1 o2 → Call o1 <= Return o2) → Forall within (stamp acc l).
Proof.
  revert acc. induction l as [|o l IH]; intros acc Ha Hc Hb; constructor.
  - unfold within. cbn. specialize (Ha o ltac:(constructor)). specialize (Hc o ltac:(constructor)). lia.
  - apply IH.
    + intros o' Ho'. specialize (Ha o' ltac:(by constructor)).
      assert (Call o <= Return o') by (apply Hb; apply list_elem_of_split in Ho' as (l1 & l2 & ->); by exists [], l1, l2). lia.
    + intros o' Ho'. apply Hc. by constructor.
    + intros o1 o2 (l1 & l2 & l3 & ->). apply Hb. by exists (o :: l1), l2, l3.
Qed.

(** A linearization gives points; points give an order that keeps the time. *)
Lemma stamp_start l : (∀ o, o ∈ l → Call o <= Return o) → (∀ o1 o2, before l o1 o2 → Call o1 <= Return o2) →
  ∃ L, L.*2 = l ∧ StronglySorted earlier L ∧ Forall within L.
Proof.
  intros Hc Hb. destruct l as [|o l]; [exists []; split_and!; constructor|].
  exists (stamp (Call o) (o :: l)). split_and!; [apply stamp_ops|apply stamp_sorted|]. apply stamp_within; [|done|done].
  intros o' [->|Ho']%elem_of_cons; [apply Hc; constructor|]. apply Hb. apply list_elem_of_split in Ho' as (l1 & l2 & ->). by exists [], l1, l2.
Qed.

Lemma sorted_before L p q : StronglySorted earlier L → p ∈ L → q ∈ L → p.1 < q.1 → before L.*2 p.2 q.2.
Proof.
  induction 1 as [|x L Hs IH Hx]; [by intros ?%not_elem_of_nil|]. rewrite Forall_forall in Hx.
  intros [->|Hp]%elem_of_cons [->|Hq]%elem_of_cons Hlt; [lia| | |].
  - apply list_elem_of_split in Hq as (l1 & l2 & ->). rewrite fmap_cons, fmap_app, fmap_cons. by exists [], l1.*2, l2.*2.
  - specialize (Hx _ Hp). unfold earlier in Hx. lia.
  - destruct (IH Hp Hq Hlt) as (l1 & l2 & l3 & E). rewrite fmap_cons, E. by exists (x.2 :: l1), l2, l3.
Qed.

Lemma points_keep_time L : StronglySorted earlier L → Forall within L → keeps_time L.*2 L.*2.
Proof.
  intros Hs Hw o1 o2 ([t1 ?] & -> & H1)%list_elem_of_fmap ([t2 ?] & -> & H2)%list_elem_of_fmap Ht.
  rewrite Forall_forall in Hw. pose proof (Hw _ H1) as [_ ?]. pose proof (Hw _ H2) as [? _]. cbn in *.
  apply (sorted_before L (t1, o) (t2, o0)); try done. cbn. lia.
Qed.

(** Merging does not disturb a part that one of the lists does not have. *)
Lemma filter_merge_l (P : Z * Operation V → Prop) {HP : ∀ p, Decision (P p)} L1 L2 :
  (∀ p, p ∈ L2 → ¬ P p) → filter P (list_merge earlier L1 L2) = filter P L1.
Proof.
  revert L2. induction L1 as [|p L1 IH1]; intros L2.
  - intros H. rewrite list_merge_nil_l. by apply list_filter_none.
  - induction L2 as [|q L2 IH2]; intros H; [done|]. rewrite list_merge_cons. case_decide.
    + rewrite !filter_cons, IH1 by done. done.
    + rewrite filter_cons_False by (apply H; constructor). apply IH2. intros x Hx. apply H. by constructor.
Qed.

Lemma filter_merge_r (P : Z * Operation V → Prop) {HP : ∀ p, Decision (P p)} L1 L2 :
  (∀ p, p ∈ L1 → ¬ P p) → filter P (list_merge earlier L1 L2) = filter P L2.
Proof.
  revert L2. induction L1 as [|p L1 IH1]; intros L2 H.
  - by rewrite list_merge_nil_l.
  - induction L2 as [|q L2 IH2]; [by rewrite list_merge_nil_r, list_filter_none|]. rewrite list_merge_cons. case_decide.
    + rewrite filter_cons_False by (apply H; constructor). apply IH1. intros x Hx. apply H. by constructor.
    + rewrite !filter_cons, IH2. done.
Qed.

Lemma merge_sorted L1 L2 : StronglySorted earlier L1 → StronglySorted earlier L2 → StronglySorted earlier (list_merge earlier L1 L2).
Proof.
  intros H1%StronglySorted_Sorted H2%StronglySorted_Sorted. apply Sorted_StronglySorted; [apply _|]. by apply Sorted_list_merge; [apply _|..].
Qed.
End points.

(** ** The store *)

(** A key-value store as one object: Get, Put and Append on a map, in which a key
    that is not there has the empty value. *)
Definition store_step (m : gmap string string) (input output : KvValue) : bool * gmap string string :=
  match input, output with
  | KvI i, KvO out =>
      let old := default "" (m !! kv_Key i) in
      if kv_Op i =? 0 then (bool_decide (out = old), m)
      else if kv_Op i =? 1 then (true, <[kv_Key i := kv_In i]> m)
      else (true, <[kv_Key i := old +:+ kv_In i]> m)
  | _, _ => (false, m)
  end.

Definition StoreModel : Model (gmap string string) KvValue := mkModel None None ∅ store_step None.

(** The register of one key. *)
Definition value_of (m : gmap string string) (k : string) : string := default "" (m !! k).

Section store.
Context {RO : RangeOrder}.
Implicit Types (history ord : list (Operation KvValue)) (o : Operation KvValue).

Lemma store_step_key m o :
  fst (store_step m (Input o) (Output o)) = fst (kv_step (value_of m (op_key o)) (Input o) (Output o))
  ∧ (fst (store_step m (Input o) (Output o)) = true → ∀ k, value_of (snd (store_step m (Input o) (Output o))) k
     = if decide (op_key o = k) then snd (kv_step (value_of m (op_key o)) (Input o) (Output o)) else value_of m k).
Proof.
  unfold store_step, kv_step, kv_Step, op_key, op_Key, value_of. destruct (Input o) as [i|out0]; [|by destruct (Output o)].
  destruct (Output o) as [i'|out]; [done|]. cbn [from_option Datatypes.id]. destruct (kv_Op i =? 0); [|destruct (kv_Op i =? 1)]; cbn [fst snd]; split; try done; intros _ k.
  - by case_decide; subst.
  - rewrite lookup_insert. by case_decide.
  - rewrite lookup_insert. by case_decide.
Qed.

(** A run of the store is a run of every register. *)
Lemma store_run ord m : legal_run StoreModel ord m ↔ ∀ k, legal_run KvModel (of_key ord k) (value_of m k).
Proof.
  revert m. induction ord as [|o ord IH]; intros m; [done|]. cbn [legal_run].
  change (Step StoreModel m (Input o) (Output o)) with (store_step m (Input o) (Output o)).
  destruct (store_step_key m o) as [Hb Hv]. split.
  - intros [Ht Hl] k. rewrite IH in Hl. specialize (Hl k). rewrite (Hv Ht) in Hl. unfold of_key in *.
    destruct (decide (op_key o = k)) as [<-|Hk]; [|by rewrite filter_cons_False].
    rewrite filter_cons_True by done. cbn [legal_run]. split; [|exact Hl]. by rewrite <- Ht, Hb.
  - intros Hl. assert (fst (store_step m (Input o) (Output o)) = true) as Ht.
    { specialize (Hl (op_key o)). unfold of_key in Hl. rewrite filter_cons_True in Hl by done. rewrite Hb. apply Hl. }
    split; [done|]. apply IH. intros k. rewrite (Hv Ht). specialize (Hl k). unfold of_key in *.
    destruct (decide (op_key o = k)) as [<-|Hk]; [|by rewrite filter_cons_False in Hl].
    rewrite filter_cons_True in Hl by done. apply Hl.
Qed.

Lemma of_key_elem history k o : o ∈ of_key history k ↔ op_key o = k ∧ o ∈ history.
Proof. unfold of_key. by rewrite list_elem_of_filter. Qed.

(** An order of the store orders every key. *)
Lemma local_of_global history k : linearizable_list StoreModel history → linearizable_list KvModel (of_key history k).
Proof.
  intros (ord & Hp & Hrt & Hl). exists (of_key ord k). split_and!.
  - unfold of_key. by rewrite Hp.
  - intros o1 o2 [E1 H1]%of_key_elem [E2 H2]%of_key_elem Ht. apply before_filter. split; [by apply Hrt|done].
  - rewrite store_run in Hl. apply (Hl k).
Qed.

(** Operations whose order is that of the list were not called after the later
    one had returned. *)
Lemma order_in_time history ord o1 o2 : NoDup history → ord ≡ₚ history → keeps_time history ord → before ord o1 o2 → Call o1 <= Return o2.
Proof.
  intros Hn Hp Hrt Hb. destruct (Z_le_gt_dec (Call o1) (Return o2)) as [?|Hgt]; [done|exfalso].
  destruct (before_elem _ _ _ Hb) as [H1 H2]. rewrite Hp in H1, H2.
  assert (before ord o2 o1) as Hb' by (apply Hrt; [done|done|lia]). rewrite <- Hp in Hn.
  destruct Hb as (l1 & l2 & l3 & ->). apply before_split in Hb'; [|done].
  apply NoDup_app in Hn as (_ & Hd & _). apply (Hd _ Hb'). apply elem_of_cons; right. apply elem_of_app; right. constructor.
Qed.

(** The operations of one more key. *)
Lemma filter_key history k ks : k ∉ ks →
  of_key history k ++ filter (λ o, op_key o ∈ ks) history ≡ₚ filter (λ o, op_key o ∈ k :: ks) history.
Proof.
  intros Hk. unfold of_key. induction history as [|o l IH]; [done|]. rewrite !filter_cons.
  destruct (decide (op_key o = k)) as [E|E].
  - rewrite (decide_False (P := op_key o ∈ ks)) by (by rewrite E). rewrite decide_True by (rewrite E; constructor). cbn. by rewrite IH.
  - destruct (decide (op_key o ∈ ks)) as [E'|E'].
    + rewrite decide_True by (by constructor). by rewrite <- Permutation_middle, IH.
    + rewrite decide_False; [done|]. by intros [?|?]%elem_of_cons.
Qed.

(** Orders of some keys can be merged. *)
Lemma merge_keys history ks : timed history → NoDup ks → (∀ k, linearizable_list KvModel (of_key history k)) →
  ∃ L, StronglySorted earlier L ∧ Forall within L ∧ L.*2 ≡ₚ filter (λ o, op_key o ∈ ks) history
    ∧ ∀ k, k ∈ ks → legal_run KvModel (of_key L.*2 k) "".
Proof.
  intros T Hks Hlin. assert (NoDup history) as Hn by (apply (NoDup_fmap_1 Call), T).
  induction Hks as [|k ks Hk Hks (L0 & Hs0 & Hw0 & Hp0 & Hl0)].
  { exists []. split_and!; [constructor|constructor| |by intros ? ?%not_elem_of_nil].
    rewrite list_filter_none; [done|]. by intros o _ ?%not_elem_of_nil. }
  destruct (Hlin k) as (ord & Hp & Hrt & Hl).
  assert (NoDup (of_key history k)) as Hnk by (by apply NoDup_filter).
  assert (∀ o, o ∈ ord → op_key o = k ∧ o ∈ history) as Hord by (intros o Ho; rewrite Hp in Ho; by apply of_key_elem).
  destruct (stamp_start ord) as (S & HS & Hs & Hw).
  { intros o Ho. apply Hord in Ho as [_ Ho]. pose proof (tm_order _ T) as H. rewrite Forall_forall in H. specialize (H o Ho). lia. }
  { intros o1 o2 Hb. by apply (order_in_time (of_key history k) ord). }
  assert (∀ p, p ∈ S → op_key p.2 = k) as HSk by (intros p Hin; apply Hord; rewrite <- HS; by apply list_elem_of_fmap_2).
  assert (∀ p, p ∈ L0 → op_key p.2 ∈ ks) as HLk.
  { intros p Hin. apply (list_elem_of_fmap_2 snd) in Hin. rewrite Hp0 in Hin. by apply list_elem_of_filter in Hin as [? _]. }
  exists (list_merge earlier S L0). split_and!.
  - by apply merge_sorted.
  - rewrite merge_Permutation. by apply Forall_app.
  - rewrite merge_Permutation, fmap_app, HS, Hp, Hp0. by apply filter_key.
  - intros k' Hk'. unfold of_key. rewrite list_filter_fmap. destruct (decide (k' = k)) as [->|Hne].
    + rewrite filter_merge_l by (intros p Hin E; apply Hk; rewrite <- E; by apply HLk). rewrite list_filter_all by done. by rewrite HS.
    + rewrite filter_merge_r by (intros p Hin E; apply Hne; by rewrite <- E, HSk).
      apply elem_of_cons in Hk' as [?|Hk']; [done|]. specialize (Hl0 k' Hk'). unfold of_key in Hl0. by rewrite list_filter_fmap in Hl0.
Qed.

(** Orders of all keys give an order of the store. *)
Lemma global_of_local history : timed history → (∀ k, linearizable_list KvModel (of_key history k)) → linearizable_list StoreModel history.
Proof.
  intros T Hlin. set (ks := remove_dups (op_key <$> history)).
  destruct (merge_keys history ks T (NoDup_remove_dups _) Hlin) as (L & Hs & Hw & Hp & Hl).
  rewrite list_filter_all in Hp by (intros o Ho; unfold ks; rewrite elem_of_remove_dups; by apply list_elem_of_fmap_2).
  exists L.*2. split_and!; [done| |].
  - intros o1 o2 H1 H2. apply (points_keep_time L); [done|done|by rewrite Hp..].
  - apply store_run. intros k. change (value_of (Init StoreModel) k) with "". destruct (decide (k ∈ ks)) as [Hk|Hk]; [by apply Hl|].
    unfold of_key. rewrite list_filter_none; [done|]. intros o Ho E. apply Hk. unfold ks. rewrite elem_of_remove_dups, <- E.
    apply list_elem_of_fmap_2. by rewrite <- Hp.
Qed.

Lemma timed_of_key history k : timed history → timed (of_key history k).
Proof. apply timed_sublist, sublist_filter. Qed.

(** C11. CheckOperations with KvModel decides linearizability of the key-value store:
    for a history that is not empty, of operations with distinct times that hold a KvInput
    and a KvOutput, no type assertion of the model fails, and the answer is [true] exactly
    when all the operations together have one order that keeps those that do not overlap
    and is a run of the store, in whatever order the partitions report.  On an empty history
    the checker never answers (empty_kv_history_hangs), on an input of another type it
    panics ([untyped_history_panics]). *)
Theorem kv_store_check {SO : Sorter} nil_value order history :
  timed history → Forall kv_typed history → history ≠ [] → (∀ bs, order bs ≡ₚ bs) →
  (∀ v st, v ∈ history → kv_Step st (Input v) (Output v) = Some (Step KvModel st (Input v) (Output v)))
  ∧ ∃ b N, (∀ fuel, (N <= fuel)%nat → kv_CheckOperations nil_value fuel order history = Some b)
    ∧ (b = true ↔ linearizable_ops StoreModel history).
Proof.
  intros T Ht Hne Ho. rewrite Forall_forall in Ht. split; [intros v st Hv; by apply kv_typed_step, Ht|].
  assert (∀ fuel, kv_CheckOperations nil_value fuel order history = CheckOperations KvModel nil_value fuel order history) as Hcheck.
  { intros fuel. unfold kv_CheckOperations. replace (forallb _ history) with true; [done|]. symmetry. apply forallb_forall.
    intros v Hv. apply bool_decide_eq_true. rewrite (kv_typed_key v); [by eexists|]. apply Ht. by apply list_elem_of_In. }
  setoid_rewrite Hcheck. destruct (kv_check_correct nil_value order history T Hne Ho) as (b & N & E & Hb).
  exists b, N. split; [done|]. rewrite Hb, linearizable_ops_list by (apply (NoDup_fmap_1 Call), T).
  assert (∀ k, NoDup (of_key history k)) as Hn by (intros k; apply (NoDup_fmap_1 Call), (timed_of_key _ _ T)).
  split.
  - intros Hk. apply global_of_local; [done|]. intros k. by apply linearizable_ops_list.
  - intros Hs k. apply linearizable_ops_list; [done|]. by apply local_of_global.
Qed.

(** An operation whose input is not a KvInput makes the check panic. *)
Lemma untyped_history_panics {SO : Sorter} nil_value fuel order history v : v ∈ history → op_Key v = None →
  kv_CheckOperations nil_value fuel order history = None.
Proof.
  intros Hv E. unfold kv_CheckOperations. replace (forallb _ history) with false; [done|]. symmetry. apply not_true_iff_false.
  rewrite forallb_forall. intros H. apply list_elem_of_In in Hv. specialize (H v Hv). rewrite E in H. by apply bool_decide_eq_true in H as [? ?].
Qed.
End store.

Lemma kv_store_check_witness :
  ∃ b N, kv_CheckOperations (SO := insertion_sort) (RO := source_order) (KvO "") 200 (λ bs, bs) good_history = Some true
    ∧ (∀ fuel, (N <= fuel)%nat → kv_CheckOperations (SO := insertion_sort) (RO := source_order) (KvO "") fuel (λ bs, bs) good_history = Some b)
    ∧ (b = true ↔ linearizable_ops StoreModel good_history).
Proof.
  destruct (kv_store_check (SO := insertion_sort) (RO := source_order) (KvO "") (λ bs, bs) good_history) as (_ & b & N & E & H).
  - apply good_history_timed.
  - repeat constructor.
  - discriminate.
  - intros bs. reflexivity.
  - exists b, N. refine (conj _ (conj E H)). vm_compute. reflexivity.
Defined.
