(* ===== verification/GoStd.v ===== *)
(** GoStd: the functions of strconv, strings, sort and unicode/utf8 the programs use.

    Strings are byte strings, as in Go. *)
From Stdlib Require Import ZArith Lia Ascii.
From stdpp Require Import gmap strings list sorting pretty.
From S2P Require Import Prelude.
Open Scope Z_scope.

(** ** strconv *)

(** The decimal digits of a number that is not negative. *)
Definition Itoa (n : nat) : string := pretty (N.of_nat n).

Definition digit_of (c : ascii) : option Z :=
  let n := Z.of_N (N_of_ascii c) in
  if decide (48 <= n <= 57) then Some (n - 48) else None.

Fixpoint parse_digits (s : string) (acc : Z) : option Z :=
  match s with
  | EmptyString => Some acc
  | String c s' => d ← digit_of c; parse_digits s' (10 * acc + d)
  end.

(** [strconv.Atoi]: an optional sign and decimal digits, in the range of int. *)
Definition Atoi (s : string) : option Z :=
  let '(neg, t) := match s with
                   | String c s' => if decide (c = "-"%char) then (true, s') else if decide (c = "+"%char) then (false, s')
                                    else (false, s)
                   | EmptyString => (false, s)
                   end in
  if decide (t = "") then None else
  v ← parse_digits t 0;
  let v := if neg : bool then - v else v in
  if decide (is_i64 v) then Some v else None.

(** ** strings *)
Fixpoint trim_left (cut : ascii → bool) (l : list ascii) : list ascii :=
  match l with
  | c :: l' => if cut c then trim_left cut l' else l
  | [] => []
  end.

Definition trim_right (cut : ascii → bool) (l : list ascii) : list ascii := rev (trim_left cut (rev l)).

Definition in_set (cs : list ascii) (c : ascii) : bool := bool_decide (c ∈ cs).

(** [strings.Trim] and [strings.TrimRight] with a set of ASCII characters. *)
Definition Trim (s : string) (cs : list ascii) : string :=
  String.string_of_list_ascii (trim_right (in_set cs) (trim_left (in_set cs) (String.list_ascii_of_string s))).
Definition TrimRight (s : string) (cs : list ascii) : string :=
  String.string_of_list_ascii (trim_right (in_set cs) (String.list_ascii_of_string s)).

(** ** UTF-8 *)
Definition rune := Z.
Definition RuneError : rune := 0xFFFD.

Definition byte_val (c : ascii) : Z := Z.of_N (N_of_ascii c).
Definition cont (c : ascii) : bool := bool_decide (0x80 <= byte_val c <= 0xBF).
Definition low6 (c : ascii) : Z := Z.land (byte_val c) 0x3F.

(** The first rune of a string and its width; an invalid encoding is
    [RuneError] of width one. *)
Definition decode_rune (l : list ascii) : rune * nat :=
  match l with
  | [] => (RuneError, 0%nat)
  | a :: l1 =>
      let x := byte_val a in
      if decide (x < 0x80) then (x, 1%nat)
      else match l1 with
      | b :: l2 =>
          if decide (0xC2 <= x <= 0xDF) then
            if cont b then (Z.lor (Z.shiftl (Z.land x 0x1F) 6) (low6 b), 2%nat) else (RuneError, 1%nat)
          else match l2 with
          | c :: l3 =>
              if decide (0xE0 <= x <= 0xEF) then
                let r := Z.lor (Z.shiftl (Z.land x 0x0F) 12) (Z.lor (Z.shiftl (low6 b) 6) (low6 c)) in
                if cont b && cont c && bool_decide (0x800 <= r) && negb (bool_decide (0xD800 <= r <= 0xDFFF))
                then (r, 3%nat) else (RuneError, 1%nat)
              else match l3 with
              | d :: _ =>
                  if decide (0xF0 <= x <= 0xF4) then
                    let r := Z.lor (Z.shiftl (Z.land x 0x07) 18)
                               (Z.lor (Z.shiftl (low6 b) 12) (Z.lor (Z.shiftl (low6 c) 6) (low6 d))) in
                    if cont b && cont c && cont d && bool_decide (0x10000 <= r <= 0x10FFFF)
                    then (r, 4%nat) else (RuneError, 1%nat)
                  else (RuneError, 1%nat)
              | [] => (RuneError, 1%nat)
              end
          | [] => (RuneError, 1%nat)
          end
      | [] => (RuneError, 1%nat)
      end
  end.

(** The runes of a string with their bytes, as [for range] gives them. *)
Fixpoint runes_from (fuel : nat) (l : list ascii) : list (rune * list ascii) :=
  match fuel, l with
  | S fuel', _ :: _ => let '(r, n) := decode_rune l in (r, take n l) :: runes_from fuel' (drop n l)
  | _, _ => []
  end.
Definition runes (s : string) : list (rune * list ascii) :=
  let l := String.list_ascii_of_string s in runes_from (length l) l.

(** [strings.FieldsFunc]: the maximal runs of runes for which [f] is false. *)
Fixpoint fields_go (f : rune → bool) (rs : list (rune * list ascii)) (cur : list ascii) : list (list ascii) :=
  match rs with
  | [] => match cur with [] => [] | _ => [cur] end
  | (r, bs) :: rs' =>
      if f r then match cur with [] => fields_go f rs' [] | _ => cur :: fields_go f rs' [] end
      else fields_go f rs' (cur ++ bs)
  end.
Definition FieldsFunc (s : string) (f : rune → bool) : list string :=
  String.string_of_list_ascii <$> fields_go f (runes s) [].

(** ** Lemmas *)
Lemma decode_rune_width a l : (1 ≤ (decode_rune (a :: l)).2 ≤ length (a :: l))%nat.
Proof.
  unfold decode_rune. destruct l as [|b [|c [|d l]]]; repeat case_match; cbn [snd length] in *; lia.
Qed.

(** Decoding loses no byte. *)
Lemma runes_concat fuel l : (length l ≤ fuel)%nat → concat (runes_from fuel l).*2 = l.
Proof.
  revert l. induction fuel as [|fuel IH]; intros [|a l] Hf; simpl in Hf; try done; [lia|].
  cbn [runes_from]. pose proof (decode_rune_width a l) as Hw.
  destruct (decode_rune (a :: l)) as [r n]. cbn [snd] in Hw. rewrite fmap_cons. cbn [concat snd].
  rewrite IH; [apply take_drop|]. rewrite length_drop. simpl in *. lia.
Qed.

(** No field is empty, and the fields together are the runes that are kept. *)
Lemma fields_concat f rs cur :
  concat (fields_go f rs cur) = cur ++ concat (filter (λ p, f p.1 = false) rs).*2.
Proof.
  revert cur. induction rs as [|[r bs] rs IH]; intros cur; cbn [fields_go].
  { destruct cur; cbn; by rewrite ?app_nil_r. }
  rewrite filter_cons. destruct (f r) eqn:Ef; cbn [fst].
  - rewrite decide_False by congruence. destruct cur as [|a cur]; [by rewrite IH|]. cbn [concat]. by rewrite IH.
  - rewrite decide_True by done. rewrite IH, fmap_cons. cbn [concat snd]. by rewrite app_assoc.
Qed.

Lemma fields_nonempty f rs cur : (∀ p, p ∈ rs → p.2 ≠ []) → [] ∉ fields_go f rs cur.
Proof.
  revert cur. induction rs as [|[r bs] rs IH]; intros cur Hrs; cbn [fields_go].
  { destruct cur; [apply not_elem_of_nil|]. by rewrite list_elem_of_singleton. }
  assert (∀ p, p ∈ rs → p.2 ≠ []) as Hrs' by (intros; apply Hrs; by right).
  destruct (f r); [|by apply IH]. destruct cur; [by apply IH|]. rewrite elem_of_cons. intros [?|?]; [done|].
  by apply (IH [] Hrs').
Qed.

(** ** sort *)
(** [sort.Strings]: byte-wise. *)
Definition str_le (a b : string) : Prop := String.leb a b = true.
#[export] Instance str_le_dec a b : Decision (str_le a b).
Proof. unfold str_le. apply _. Defined.
Definition sort_Strings (keys : list string) : list string := merge_sort str_le keys.

Lemma ascii_compare_N a b : Ascii.compare a b = N.compare (N_of_ascii a) (N_of_ascii b).
Proof. done. Qed.

#[export] Instance str_le_trans : Transitive str_le.
Proof.
  unfold str_le, String.leb. intros a. induction a as [|x a IH]; intros [|y b] [|z c]; simpl; try done.
  rewrite !ascii_compare_N. intros H1 H2.
  destruct (N.compare_spec (N_of_ascii x) (N_of_ascii y)) as [E1|E1|E1]; [| |done];
    destruct (N.compare_spec (N_of_ascii y) (N_of_ascii z)) as [E2|E2|E2]; [| |done| | |done].
  - rewrite (proj2 (N.compare_eq_iff _ _)) by congruence. by apply (IH b c).
  - rewrite (proj2 (N.compare_lt_iff _ _)); [done|]. congruence.
  - rewrite (proj2 (N.compare_lt_iff _ _)); [done|]. congruence.
  - rewrite (proj2 (N.compare_lt_iff _ _)); [done|]. by etransitivity.
Qed.

#[export] Instance str_le_total : Total str_le.
Proof. intros a b. apply String.leb_total. Qed.

#[export] Instance str_le_antisymm : AntiSymm (=) str_le.
Proof. intros a b. apply String.leb_antisym. Qed.

Lemma sort_Strings_perm l : sort_Strings l ≡ₚ l.
Proof. apply merge_sort_Permutation. Qed.

(** Sorting only depends on the strings, not on their order. *)
Lemma sort_Strings_proper l l' : l ≡ₚ l' → sort_Strings l = sort_Strings l'.
Proof.
  intros Hp. apply (StronglySorted_unique str_le); [apply StronglySorted_merge_sort; apply _..|].
  by rewrite !sort_Strings_perm.
Qed.
