(* ===== verification/Election.v ===== *)
(** Election: which node of a group is the primary.

    Source: sheetfs/election/election.go.

    Every node creates an ephemeral sequential znode, its proposal; the node with
    the smallest one is the primary, the others watch their predecessor.
    ZooKeeper is the class [ZooKeeper] with its documented behaviour as
    [ZooKeeperLaws]; [MemZk] is an instance.  [TryBeLeader] makes two calls,
    between which other nodes act, so it is two steps here ([look], [watch]). *)
From Stdlib Require Import ZArith Lia Ascii.
From stdpp Require Import gmap strings list sorting.
From S2P Require Import Prelude.
From S2P Require Import GoStd.
Open Scope Z_scope.

(** ** Sequence numbers *)
Definition digit (d : Z) : ascii := ascii_of_N (Z.to_N (48 + d)).

(** A number with [k] decimal digits, filled up with zeros. *)
Fixpoint pad (k : nat) (n : Z) : string :=
  match k with O => "" | S k' => String (digit ((n / 10 ^ Z.of_nat k') mod 10)) (pad k' n) end.

(** ** ZooKeeper *)
Inductive ZkError := ErrNodeExists | ErrNoNode | ErrConnectionClosed.

Class ZooKeeper (Zs : Type) := {
  zk_Create : string → Zs → result ZkError () * Zs;             (* a plain znode *)
  zk_CreateSeq : string → Zs → result ZkError string * Zs;      (* FlagEphemeral|FlagSequence *)
  zk_Children : string → string → Zs → result ZkError (list string) * Zs; (* in the session that made the second *)
  zk_GetW : string → Zs → result ZkError () * Zs;
  zk_Set : string → string → Zs → result ZkError () * Zs;
  zk_expire : string → Zs → Zs;      (* the session that owns this znode ends *)
  zk_fired : string → Zs → bool      (* a watch on this znode was triggered *)
}.

Definition no_slash (s : string) : Prop := "/"%char ∉ String.list_ascii_of_string s.
#[export] Instance no_slash_dec s : Decision (no_slash s).
Proof. unfold no_slash. apply _. Defined.

(** The counter of a znode is a signed 32-bit number, which overflows. *)
Abbreviation seq_limit := (2 ^ 31).

(** Children have unique names with a growing 10-digit number, as long as the counter
    has not overflowed; an ephemeral znode lives as long as its session.  A call that
    fails may have been executed.  A read may be stale: it shows the children as they
    were at some time, but not before the last write of the session, so that it
    contains every child that still lives and was made before the proposal [own] of the
    session, and possibly children that are gone. *)
Class ZooKeeperLaws (Zs : Type) {ZK : ZooKeeper Zs} := {
  zk_live : Zs → string → list string;
  zk_next : Zs → string → Z;
  zk_CreateSeq_ok : ∀ dir prefix s r s', no_slash prefix → 0 <= zk_next s dir < seq_limit → zk_CreateSeq (dir +:+ "/" +:+ prefix) s = (r, s') →
    let name := prefix +:+ pad 10 (zk_next s dir) in
    (∃ e, r = Err e ∧ zk_live s' dir ≡ₚ zk_live s dir ∧ zk_next s' dir = zk_next s dir)
    ∨ zk_live s' dir ≡ₚ name :: zk_live s dir ∧ zk_next s' dir = zk_next s dir + 1
      ∧ (r = Ok (dir +:+ "/" +:+ name) ∨ ∃ e, r = Err e);
  zk_Children_ok : ∀ dir own s r s', zk_Children dir own s = (r, s') →
    zk_live s' dir ≡ₚ zk_live s dir ∧ zk_next s' dir = zk_next s dir
    ∧ ∀ l, r = Ok l → (∀ c, c ∈ l → c ∈ zk_live s dir ∨ c ≠ "" ∧ no_slash c)
        ∧ ∀ prefix k m, 0 <= k <= m → m < seq_limit → own = prefix +:+ pad 10 m → own ∈ zk_live s dir →
            prefix +:+ pad 10 k ∈ zk_live s dir → prefix +:+ pad 10 k ∈ l;
  zk_GetW_ok : ∀ dir name s r s', no_slash name → zk_GetW (dir +:+ "/" +:+ name) s = (r, s') →
    zk_live s' dir ≡ₚ zk_live s dir ∧ zk_next s' dir = zk_next s dir ∧ (r = Ok () → name ∈ zk_live s dir);
  zk_expire_ok : ∀ dir name s, no_slash name →
    zk_live (zk_expire (dir +:+ "/" +:+ name) s) dir ≡ₚ filter (λ n, n ≠ name) (zk_live s dir)
    ∧ zk_next (zk_expire (dir +:+ "/" +:+ name) s) dir = zk_next s dir;
  zk_fired_ok : ∀ dir name s, no_slash name → zk_fired (dir +:+ "/" +:+ name) s = true ↔ name ∉ zk_live s dir
}.

(** ** election.go *)
Record Elector := mkElector { electionZnode : string; proposePath : string; electionAck : string; proposal : string }.

(** Go's [<] on strings. *)
Definition str_lt (a b : string) : Prop := String.compare a b = Lt.
#[export] Instance str_lt_dec a b : Decision (str_lt a b).
Proof. unfold str_lt. apply _. Defined.

Section elector.
Context {Zs : Type} {ZK : ZooKeeper Zs}.

Definition NewElector (znode prefix ack : string) (s : Zs) : result ZkError Elector * Zs :=
  let '(r, s) := zk_Create znode s in
  match r with
  | Err ErrNodeExists | Ok _ =>
      let '(r, s) := zk_Create ack s in
      match r with
      | Err ErrNodeExists | Ok _ => (Ok (mkElector znode (znode +:+ "/" +:+ prefix) ack ""), s)
      | Err e => (Err e, s)
      end
  | Err e => (Err e, s)
  end.

(** [proposal[len(e.electionZnode)+1:]] *)
Definition strip (znode path : string) : string := String.substring (String.length znode + 1) (String.length path) path.

Definition CreateProposal (e : Elector) (s : Zs) : result ZkError Elector * Zs :=
  let '(r, s) := zk_CreateSeq (proposePath e) s in
  match r with
  | Err err => (Err err, s)
  | Ok path => (Ok (mkElector (electionZnode e) (proposePath e) (electionAck e) (strip (electionZnode e) path)), s)
  end.

(** The loop over the sorted children. *)
Fixpoint last_below (proposal lastLt : string) (children : list string) : string :=
  match children with
  | [] => lastLt
  | child :: children' => if decide (str_lt child proposal) then last_below proposal child children' else lastLt
  end.

(** The first half of [TryBeLeader]: the predecessor, "" for the leader. *)
Definition look (e : Elector) (s : Zs) : result ZkError string * Zs :=
  let '(r, s) := zk_Children (electionZnode e) (proposal e) s in
  match r with
  | Err err => (Err err, s)
  | Ok children => (Ok (last_below (proposal e) "" (sort_Strings children)), s)
  end.

(** The second half, for a predecessor [lastLt]. *)
Definition watch (e : Elector) (lastLt : string) (s : Zs) : result ZkError () * Zs :=
  zk_GetW (electionZnode e +:+ "/" +:+ lastLt) s.

Definition TryBeLeader (e : Elector) (s : Zs) : result ZkError (bool * string) * Zs :=
  let '(r, s) := look e s in
  match r with
  | Err err => (Err err, s)
  | Ok lastLt =>
      if decide (lastLt = "") then (Ok (true, ""), s)
      else
        let '(r, s) := watch e lastLt s in
        match r with
        | Err err => (Err err, s)
        | Ok _ => (Ok (false, electionZnode e +:+ "/" +:+ lastLt), s)
        end
  end.

Definition AckLeader (e : Elector) (info : string) (s : Zs) : result ZkError () * Zs := zk_Set (electionAck e) info s.

(** ** A group of nodes *)
Inductive Phase :=
| PNew                      (* before CreateProposal *)
| PTry                      (* about to call TryBeLeader *)
| PSeen (lastLt : string)   (* between its two calls *)
| PWatch (lastLt : string)  (* waiting for an event *)
| PLeader
| PFailed                   (* an error was returned, the node stops *)
| PGone.                    (* its session has ended *)

Record ENode := mkENode { en_elector : Elector; en_phase : Phase }.
Record EState := mkEState { es_zk : Zs; es_nodes : list ENode }.

Inductive ELabel := EPropose (i : nat) | ELook (i : nat) | EWatch (i : nat) | EWake (i : nat) | EExpire (i : nat) | EVanish (name : string).

(** In the group, with a proposal of its own. *)
Definition active (p : Phase) : bool := match p with PTry | PSeen _ | PWatch _ | PLeader => true | _ => false end.

Definition set_node (i : nat) (e : Elector) (p : Phase) (z : Zs) (s : EState) : EState :=
  mkEState z (<[i := mkENode e p]> (es_nodes s)).

Definition estep (l : ELabel) (s : EState) : option EState :=
  match l with
  | EPropose i =>
      n ← es_nodes s !! i;
      match en_phase n with
      | PNew =>
          let '(r, z) := CreateProposal (en_elector n) (es_zk s) in
          Some match r with Ok e => set_node i e PTry z s | Err _ => set_node i (en_elector n) PFailed z s end
      | _ => None
      end
  | ELook i =>
      n ← es_nodes s !! i;
      match en_phase n with
      | PTry =>
          let '(r, z) := look (en_elector n) (es_zk s) in
          Some (set_node i (en_elector n)
                 match r with
                 | Ok lastLt => if decide (lastLt = "") then PLeader else PSeen lastLt
                 | Err _ => PFailed
                 end z s)
      | _ => None
      end
  | EWatch i =>
      n ← es_nodes s !! i;
      match en_phase n with
      | PSeen lastLt =>
          let '(r, z) := watch (en_elector n) lastLt (es_zk s) in
          Some (set_node i (en_elector n) match r with Ok _ => PWatch lastLt | Err _ => PFailed end z s)
      | _ => None
      end
  | EWake i =>
      n ← es_nodes s !! i;
      match en_phase n with
      | PWatch lastLt =>
          if zk_fired (electionZnode (en_elector n) +:+ "/" +:+ lastLt) (es_zk s)
          then Some (set_node i (en_elector n) PTry (es_zk s) s) else None
      | _ => None
      end
  | EExpire i =>
      n ← es_nodes s !! i;
      match en_phase n with
      | PNew | PGone => None
      | _ => Some (set_node i (en_elector n) PGone
                     (zk_expire (electionZnode (en_elector n) +:+ "/" +:+ proposal (en_elector n)) (es_zk s)) s)
      end
  | EVanish name =>   (* a proposal whose creation was reported as failed *)
      n ← head (es_nodes s);
      if decide (¬ no_slash name ∨ Exists (λ n, active (en_phase n) = true ∧ proposal (en_elector n) = name) (es_nodes s)) then None
      else Some (mkEState (zk_expire (electionZnode (en_elector n) +:+ "/" +:+ name) (es_zk s)) (es_nodes s))
  end.

Fixpoint erun (ls : list ELabel) (s : EState) : option EState :=
  match ls with [] => Some s | l :: ls' => s' ← estep l s; erun ls' s' end.

(** All nodes before their first step. *)
Definition group (znode prefix ack : string) (n : nat) (z : Zs) : EState :=
  mkEState z (replicate n (mkENode (mkElector znode (znode +:+ "/" +:+ prefix) ack "") PNew)).
End elector.
Arguments EState : clear implicits.

(** ** Order of proposals *)
Lemma compare_app p a b : String.compare (p +:+ a) (p +:+ b) = String.compare a b.
Proof.
  induction p as [|c p IH]; [done|]. change (String c p +:+ a) with (String c (p +:+ a)). change (String c p +:+ b) with (String c (p +:+ b)).
  cbn [String.compare]. rewrite ascii_compare_N, N.compare_refl. apply IH.
Qed.

Lemma digit_val d : 0 <= d < 10 → N_of_ascii (digit d) = Z.to_N (48 + d).
Proof. intros H. unfold digit. apply N_ascii_embedding. lia. Qed.

Lemma pad_lt k n m : n mod 10 ^ Z.of_nat k < m mod 10 ^ Z.of_nat k → str_lt (pad k n) (pad k m).
Proof.
  unfold str_lt. induction k as [|k IH]; [cbn; rewrite !Z.mod_1_r; lia|]. intros H.
  assert (10 ^ Z.of_nat (S k) = 10 ^ Z.of_nat k * 10) as E by (rewrite Nat2Z.inj_succ, Z.pow_succ_r by lia; lia).
  rewrite E, !Z.rem_mul_r in H by lia. cbn [pad String.compare]. rewrite ascii_compare_N.
  set (dn := (n / 10 ^ Z.of_nat k) mod 10) in *. set (dm := (m / 10 ^ Z.of_nat k) mod 10) in *.
  assert (0 <= dn < 10) by (apply Z.mod_pos_bound; lia). assert (0 <= dm < 10) by (apply Z.mod_pos_bound; lia).
  pose proof (Z.mod_pos_bound n (10 ^ Z.of_nat k) ltac:(lia)). pose proof (Z.mod_pos_bound m (10 ^ Z.of_nat k) ltac:(lia)).
  rewrite !digit_val by done. destruct (Z.lt_trichotomy dn dm) as [Hd|[Hd|Hd]].
  - assert ((Z.to_N (48 + dn) ?= Z.to_N (48 + dm))%N = Lt) as -> by (apply N.compare_lt_iff; lia). done.
  - rewrite Hd, N.compare_refl. apply IH. nia.
  - nia.
Qed.

(** Proposals are ordered as their numbers. *)
Lemma proposal_lt prefix n m : 0 <= n < m → m < 10 ^ 10 → str_lt (prefix +:+ pad 10 n) (prefix +:+ pad 10 m).
Proof. intros H Hm. unfold str_lt. rewrite compare_app. apply pad_lt. change (Z.of_nat 10) with 10. rewrite !Z.mod_small by lia. lia. Qed.

Lemma str_lt_irrefl a : ¬ str_lt a a.
Proof. unfold str_lt. intros H. pose proof (String.compare_antisym a a) as E. by rewrite H in E. Qed.

Lemma str_lt_asym a b : str_lt a b → ¬ str_lt b a.
Proof. unfold str_lt. rewrite (String.compare_antisym a b). by destruct (String.compare b a). Qed.

Lemma proposal_inj prefix n m : 0 <= n < 10 ^ 10 → 0 <= m < 10 ^ 10 → prefix +:+ pad 10 n = prefix +:+ pad 10 m → n = m.
Proof.
  intros Hn Hm E. destruct (Z.lt_trichotomy n m) as [H|[H|H]]; [|done|]; exfalso.
  - apply (str_lt_irrefl (prefix +:+ pad 10 n)). rewrite E at 2. apply proposal_lt; lia.
  - apply (str_lt_irrefl (prefix +:+ pad 10 n)). rewrite E at 1. apply proposal_lt; lia.
Qed.

(** ** The loop over the children *)
Lemma last_below_elem p acc l : last_below p acc l = acc ∨ (last_below p acc l ∈ l ∧ str_lt (last_below p acc l) p).
Proof.
  revert acc. induction l as [|c l IH]; intros acc; [by left|]. cbn [last_below]. case_decide as H; [|by left].
  right. destruct (IH c) as [->|[Hin Hlt]]; split; try done; by constructor.
Qed.

(** Nothing is below the proposal when the loop finds nothing. *)
Lemma str_lt_le a b c : str_lt a c → str_le b a → str_lt b c.
Proof.
  intros H1 H2. unfold str_lt in *. destruct (String.compare b c) eqn:E; [|done|]; exfalso.
  - apply String.compare_eq_iff in E as ->. unfold str_le, String.leb in H2. rewrite (String.compare_antisym c a), H1 in H2. done.
  - assert (str_le c b) as H3 by (unfold str_le, String.leb; by rewrite (String.compare_antisym c b), E).
    assert (str_le c a) as H4 by (by etransitivity). unfold str_le, String.leb in H4. by rewrite (String.compare_antisym c a), H1 in H4.
Qed.

Lemma last_below_none p l : StronglySorted str_le l → (∀ c, c ∈ l → c ≠ "") → last_below p "" l = "" → ∀ c, c ∈ l → ¬ str_lt c p.
Proof.
  intros Hs Hne Hl c Hc Hlt. destruct l as [|d l]; [by apply not_elem_of_nil in Hc|]. cbn [last_below] in Hl. case_decide as Hd.
  - destruct (last_below_elem p d l) as [E|[Hin _]].
    + apply (Hne d); [constructor|congruence].
    + apply (Hne (last_below p d l)); [by constructor|done].
  - apply StronglySorted_inv in Hs as [_ Hs]. rewrite Forall_forall in Hs. apply Hd.
    apply elem_of_cons in Hc as [->|Hc]; [done|]. by apply (str_lt_le c), Hs.
Qed.

(** ** Paths *)
Lemma substring_all s : String.substring 0 (String.length s) s = s.
Proof. induction s as [|c s IH]; [done|]. cbn. by rewrite IH. Qed.

Lemma substring_more s n : (String.length s ≤ n)%nat → String.substring 0 n s = s.
Proof. revert n. induction s as [|c s IH]; intros [|n] H; cbn in *; try done; [lia|]. by rewrite IH by lia. Qed.

Lemma strip_path dir name : strip dir (dir +:+ "/" +:+ name) = name.
Proof.
  unfold strip. assert (∀ n s, (String.length s ≤ n)%nat → String.substring (String.length dir + 1) n (dir +:+ "/" +:+ s) = s) as H.
  { intros n s Hn. induction dir as [|c dir IH]; [cbn; by apply substring_more|]. exact IH. }
  apply H. clear. induction dir as [|c dir IH].
  - change (String.length name ≤ S (String.length name))%nat. lia.
  - change (String.length name ≤ S (String.length (dir +:+ "/" +:+ name)))%nat. lia.
Qed.

Lemma pad_digits k n c : c ∈ String.list_ascii_of_string (pad k n) → (48 <= N_of_ascii c <= 57)%N.
Proof.
  induction k as [|k IH]; [by intros ?%not_elem_of_nil|]. intros [->|Hc]%elem_of_cons; [|by apply IH].
  pose proof (Z.mod_pos_bound (n / 10 ^ Z.of_nat k) 10 ltac:(lia)). rewrite digit_val by done. lia.
Qed.

Lemma no_slash_proposal prefix k n : no_slash prefix → no_slash (prefix +:+ pad k n).
Proof.
  unfold no_slash. intros Hp. induction prefix as [|c p IH]; [intros H%pad_digits; change (N_of_ascii "/") with 47%N in H; lia|].
  change (String.list_ascii_of_string (String c p +:+ pad k n)) with (c :: String.list_ascii_of_string (p +:+ pad k n)).
  cbn in Hp. apply not_elem_of_cons in Hp as [Hc Hp]. apply not_elem_of_cons. split; [done|by apply IH].
Qed.

Lemma proposal_not_nil prefix n : prefix +:+ pad 10 n ≠ "".
Proof. by destruct prefix. Qed.

(** ** Safety *)
Section safety.
Context {Zs : Type} {ZK : ZooKeeper Zs} {ZL : ZooKeeperLaws Zs} (znode prefix ack : string) (Hslash : no_slash prefix).
Implicit Types (s : EState Zs) (n : ENode).

Definition numbered s (name : string) : Prop := ∃ k, 0 <= k < zk_next (es_zk s) znode ∧ name = prefix +:+ pad 10 k.

Abbreviation live s := (zk_live (es_zk s) znode).
Abbreviation prop n := (proposal (en_elector n)).

Record einv s : Prop := {
  ei_live : ∀ name, name ∈ live s → numbered s name;
  ei_elector : ∀ i n, es_nodes s !! i = Some n →
    electionZnode (en_elector n) = znode ∧ proposePath (en_elector n) = znode +:+ "/" +:+ prefix ∧ (prop n = "" ∨ numbered s (prop n));
  ei_distinct : ∀ i j n m, es_nodes s !! i = Some n → es_nodes s !! j = Some m → i ≠ j → prop n = prop m → prop n = "";
  ei_active : ∀ i n, es_nodes s !! i = Some n → active (en_phase n) = true → prop n ≠ "" ∧ prop n ∈ live s;
  ei_leader : ∀ i n, es_nodes s !! i = Some n → en_phase n = PLeader → ∀ name, name ∈ live s → ¬ str_lt name (prop n);
  ei_watch : ∀ i n w, es_nodes s !! i = Some n → en_phase n = PSeen w ∨ en_phase n = PWatch w → no_slash w ∧ str_lt w (prop n)
}.

Lemma numbered_mono s s' name : zk_next (es_zk s) znode <= zk_next (es_zk s') znode → numbered s name → numbered s' name.
Proof. intros H (k & Hk & ->). exists k. split; [lia|done]. Qed.

Lemma numbered_slash s name : numbered s name → no_slash name.
Proof using Hslash. intros (k & _ & ->). by apply no_slash_proposal. Qed.

(** A step of node [i] that leaves the children alone and keeps its elector. *)
Lemma einv_phase s i n p z : einv s → es_nodes s !! i = Some n →
  zk_live z znode ≡ₚ live s → zk_next z znode = zk_next (es_zk s) znode →
  (active p = true → active (en_phase n) = true) →
  (p = PLeader → ∀ name, name ∈ live s → ¬ str_lt name (prop n)) →
  (∀ w, p = PSeen w ∨ p = PWatch w → no_slash w ∧ str_lt w (prop n)) →
  einv (set_node i (en_elector n) p z s).
Proof.
  intros [H1 H2 H3 H4 H5 H6] Hi Hz Hnx Hact Hlead Hw.
  assert (∀ name, numbered s name ↔ numbered (set_node i (en_elector n) p z s) name) as Hnum.
  { intros name. unfold numbered, set_node. cbn [es_zk]. by rewrite Hnx. }
  assert (∀ j m, es_nodes (set_node i (en_elector n) p z s) !! j = Some m →
    (j = i ∧ m = mkENode (en_elector n) p) ∨ (j ≠ i ∧ es_nodes s !! j = Some m)) as Hnodes.
  { intros j m. cbn [es_nodes set_node]. rewrite list_lookup_insert_Some. intros [(<- & <- & _)|[? ?]]; [by left|by right]. }
  assert (∀ j m, es_nodes (set_node i (en_elector n) p z s) !! j = Some m → ∃ m0, es_nodes s !! j = Some m0 ∧ en_elector m0 = en_elector m) as Hel.
  { intros j m [[-> ->]|[_ H]]%Hnodes; eauto. }
  split; cbn [es_zk set_node].
  - intros name Hn. rewrite Hz in Hn. by apply Hnum, H1.
  - intros j m (m0 & Hm & <-)%Hel. destruct (H2 j m0 Hm) as (? & ? & H). split_and!; [done..|]. rewrite <- Hnum. done.
  - intros j1 j2 m1 m2 (n1 & Hn1 & <-)%Hel (n2 & Hn2 & <-)%Hel. by apply (H3 j1 j2).
  - intros j m [[-> ->]|[_ Hm]]%Hnodes Ha; rewrite Hz; [|by apply (H4 j)]. apply (H4 i n Hi). by apply Hact.
  - intros j m [[-> ->]|[_ Hm]]%Hnodes Hp name; rewrite Hz; [by apply Hlead|by apply (H5 j)].
  - intros j m w [[-> ->]|[_ Hm]]%Hnodes Hp; [by apply Hw|by apply (H6 j)].
Qed.

(** A step that removes one child that no active node needs. *)
Lemma einv_expire s name nodes : einv s → no_slash name →
  (∀ i n, nodes !! i = Some n → ∃ n0, es_nodes s !! i = Some n0 ∧ en_elector n = en_elector n0 ∧ (active (en_phase n) = true → n = n0)) →
  (∀ i n, nodes !! i = Some n → active (en_phase n) = true → prop n ≠ name) →
  einv (mkEState (zk_expire (znode +:+ "/" +:+ name) (es_zk s)) nodes).
Proof.
  intros [H1 H2 H3 H4 H5 H6] Hns Hnodes Hnot. destruct (zk_expire_ok znode name (es_zk s) Hns) as [Hl Hx].
  assert (∀ x, numbered s x ↔ numbered (mkEState (zk_expire (znode +:+ "/" +:+ name) (es_zk s)) nodes) x) as Hnum
    by (intros x; unfold numbered; cbn [es_zk]; by rewrite Hx).
  split; cbn [es_zk es_nodes].
  - intros x. rewrite Hl, list_elem_of_filter. intros [_ Hx']. by apply Hnum, H1.
  - intros i n Hi. destruct (Hnodes i n Hi) as (n0 & H0 & -> & _). destruct (H2 i n0 H0) as (? & ? & H). rewrite <- Hnum. done.
  - intros i j n m Hi Hj. destruct (Hnodes i n Hi) as (n0 & Hn0 & -> & _), (Hnodes j m Hj) as (m0 & Hm0 & -> & _). by apply (H3 i j).
  - intros i n Hi Ha. destruct (Hnodes i n Hi) as (n0 & H0 & _ & Hsame). specialize (Hsame Ha). subst n0.
    destruct (H4 i n H0 Ha) as [Hne Hin]. split; [done|]. rewrite Hl, list_elem_of_filter. split; [by apply (Hnot i)|done].
  - intros i n Hi Hp x. rewrite Hl, list_elem_of_filter. intros [_ Hx']. destruct (Hnodes i n Hi) as (n0 & H0 & _ & Hsame).
    assert (n = n0) as <- by (apply Hsame; by rewrite Hp). by apply (H5 i).
  - intros i n w Hi Hp. destruct (Hnodes i n Hi) as (n0 & H0 & _ & Hsame).
    assert (n = n0) as <- by (apply Hsame; by destruct Hp as [-> | ->]). by apply (H6 i).
Qed.

(** A new proposal is larger than all others. *)
Lemma einv_propose s i n e p z : einv s → es_nodes s !! i = Some n → zk_next (es_zk s) znode < seq_limit → 0 <= zk_next (es_zk s) znode →
  zk_live z znode ≡ₚ (prefix +:+ pad 10 (zk_next (es_zk s) znode)) :: live s → zk_next z znode = zk_next (es_zk s) znode + 1 →
  electionZnode e = znode → proposePath e = znode +:+ "/" +:+ prefix →
  (p = PTry ∧ proposal e = prefix +:+ pad 10 (zk_next (es_zk s) znode)) ∨ (p = PFailed ∧ proposal e = prop n) →
  einv (set_node i e p z s).
Proof.
  intros [H1 H2 H3 H4 H5 H6] Hi Hb H0 Hz Hx He1 He2 Hp. set (k := zk_next (es_zk s) znode) in *.
  assert (∀ name, numbered s name → numbered (set_node i e p z s) name) as Hmono.
  { intros name. apply numbered_mono. cbn. lia. }
  assert (∀ name, numbered s name → name ≠ prefix +:+ pad 10 k) as Hfresh.
  { intros name (k' & Hk' & ->) E%proposal_inj; lia. }
  assert (∀ name, numbered s name → str_lt name (prefix +:+ pad 10 k)) as Hbelow.
  { intros name (k' & Hk' & ->). apply proposal_lt; lia. }
  assert (numbered (set_node i e p z s) (prefix +:+ pad 10 k)) as Hnew by (exists k; cbn; split; [lia|done]).
  assert (∀ j m, es_nodes (set_node i e p z s) !! j = Some m →
    (j = i ∧ m = mkENode e p) ∨ (j ≠ i ∧ es_nodes s !! j = Some m)) as Hnodes.
  { intros j m. cbn [es_nodes set_node]. rewrite list_lookup_insert_Some. intros [(<- & <- & _)|[? ?]]; [by left|by right]. }
  assert (∀ j m, es_nodes s !! j = Some m → j ≠ i → prop m = proposal e → prop m = "") as Hother.
  { intros j m Hj Hne E. destruct Hp as [[_ Hp]|[_ Hp]]; [|rewrite Hp in E; by apply (H3 j i m n)].
    destruct (H2 j m Hj) as (_ & _ & [?|Hnum]); [done|]. apply Hfresh in Hnum. congruence. }
  split; cbn [es_zk set_node].
  - intros name. rewrite Hz, elem_of_cons. intros [->|Hin]; [done|by apply Hmono, H1].
  - intros j m [[-> ->]|[_ Hm]]%Hnodes; cbn [en_elector].
    + split_and!; [done..|]. destruct Hp as [[_ ->]|[_ ->]]; [by right|]. destruct (H2 i n Hi) as (_ & _ & [?|?]); [by left|right; auto].
    + destruct (H2 j m Hm) as (? & ? & [?|?]); split_and!; auto.
  - intros j1 j2 m1 m2 [[-> ->]|[Hn1 Hm1]]%Hnodes [[-> ->]|[Hn2 Hm2]]%Hnodes Hne E; cbn [en_elector] in *; try done.
    + rewrite E. by apply (Hother j2 m2).
    + by apply (Hother j1 m1).
    + by apply (H3 j1 j2 m1 m2).
  - intros j m [[-> ->]|[_ Hm]]%Hnodes Ha; rewrite Hz; cbn [en_elector en_phase] in *.
    + destruct Hp as [[_ ->]|[-> _]]; [|done]. split; [apply proposal_not_nil|constructor].
    + destruct (H4 j m Hm Ha). split; [done|by constructor].
  - intros j m [[-> ->]|[_ Hm]]%Hnodes Hl name; rewrite Hz; [by destruct Hp as [[-> _]|[-> _]]|].
    intros [->|Hin]%elem_of_cons; [|by apply (H5 j)]. apply str_lt_asym, Hbelow.
    destruct (H4 j m Hm) as [_ Hin]; [by rewrite Hl|by apply H1].
  - intros j m w [[-> ->]|[_ Hm]]%Hnodes Hw; cbn [en_phase] in Hw; [by destruct Hp as [[-> _]|[-> _]], Hw|].
    by apply (H6 j m w Hm).
Qed.

Lemma look_spec s i n r z : einv s → es_nodes s !! i = Some n → active (en_phase n) = true → zk_next (es_zk s) znode <= seq_limit →
  look (en_elector n) (es_zk s) = (r, z) →
  zk_live z znode ≡ₚ live s ∧ zk_next z znode = zk_next (es_zk s) znode
  ∧ (∀ w, r = Ok w → (w = "" ∧ ∀ name, name ∈ live s → ¬ str_lt name (prop n)) ∨ (w ≠ "" ∧ no_slash w ∧ str_lt w (prop n))).
Proof using Hslash ZL.
  intros Hinv Hi Ha Hlim. destruct (ei_elector _ Hinv i n Hi) as (Ez & _ & _). unfold look. rewrite Ez.
  destruct (zk_Children znode (prop n) (es_zk s)) as [r0 z0] eqn:E. destruct (zk_Children_ok _ _ _ _ _ E) as (Hl & Hx & Hc).
  destruct r0 as [l|e]; intros [= <- <-]; split_and!; try done. intros w [= <-]. destruct (Hc l eq_refl) as [Hname Hall].
  assert (∀ c, c ∈ sort_Strings l → c ≠ "" ∧ no_slash c) as Hin.
  { intros c. rewrite sort_Strings_perm. intros [Hlive|?]%Hname; [|done]. apply (ei_live _ Hinv) in Hlive.
    split; [destruct Hlive as (k & _ & ->); apply proposal_not_nil|by eapply numbered_slash]. }
  destruct (last_below_elem (prop n) "" (sort_Strings l)) as [E0|[Hel Hlt]].
  - left. split; [done|]. intros name Hlive Hlt. destruct (ei_active _ Hinv i n Hi Ha) as [_ Hown].
    destruct (ei_live _ Hinv _ Hlive) as (k & Hk & ->), (ei_live _ Hinv _ Hown) as (m & Hm & Em).
    apply (last_below_none (prop n) (sort_Strings l)) with (c := prefix +:+ pad 10 k); [|by intros c [? _]%Hin|done| |done].
    + apply (StronglySorted_merge_sort str_le).
    + rewrite sort_Strings_perm. apply (Hall prefix k m); try done; [|lia]. split; [lia|].
      destruct (Z.le_gt_cases k m) as [|Hgt]; [done|]. exfalso. rewrite Em in Hlt. apply (str_lt_asym _ _ Hlt), proposal_lt; lia.
  - right. split; [by apply Hin|]. split; [by apply Hin|done].
Qed.

Lemma estep_einv l s s' : einv s → 0 <= zk_next (es_zk s) znode < seq_limit → estep l s = Some s' →
  einv s' ∧ zk_next (es_zk s) znode <= zk_next (es_zk s') znode <= zk_next (es_zk s) znode + 1.
Proof.
  intros Hinv Hb Hs. destruct l as [i|i|i|i|i|name]; cbn [estep] in Hs; apply bind_Some in Hs as (n & Hn & Hs).
  - destruct (en_phase n) eqn:Ep; try done. unfold CreateProposal in Hs. destruct (ei_elector _ Hinv i n Hn) as (Ez & Ep' & _).
    rewrite Ep' in Hs. destruct (zk_CreateSeq (znode +:+ "/" +:+ prefix) (es_zk s)) as [r z] eqn:E.
    destruct (zk_CreateSeq_ok znode prefix _ _ _ Hslash Hb E) as [(e & -> & Hl & Hx)|(Hl & Hx & Hr)].
    + injection Hs as <-. split; [|cbn; lia]. apply einv_phase; try done. by intros w [?|?].
    + assert (∀ e p, s' = set_node i e p z s → zk_next (es_zk s) znode <= zk_next (es_zk s') znode <= zk_next (es_zk s) znode + 1) as Hbd
        by (intros e p ->; cbn; lia).
      destruct Hr as [->|[e ->]]; injection Hs as <-; (split; [|by eapply Hbd]); apply (einv_propose s i n); try done; try lia.
      * left. split; [done|]. cbn. rewrite Ez. apply strip_path.
      * by right.
  - destruct (en_phase n) eqn:Ep; try done. destruct (look (en_elector n) (es_zk s)) as [r z] eqn:E.
    destruct (look_spec s i n r z Hinv Hn ltac:(by rewrite Ep) ltac:(lia) E) as (Hl & Hx & Hr). injection Hs as <-. split; [|cbn; lia]. apply einv_phase; try done.
    + by rewrite Ep.
    + destruct r as [w|e]; [|done]. case_decide; [|done]. intros _. by destruct (Hr w eq_refl) as [[_ ?]|[? _]].
    + destruct r as [w'|e]; [|by intros w [?|?]]. case_decide; [by intros w [?|?]|]. intros w [[= ->]|?]; [|done].
      by destruct (Hr w eq_refl) as [[? _]|[_ ?]].
  - destruct (en_phase n) as [| |w| | | |] eqn:Ep; try done. unfold watch in Hs. destruct (ei_elector _ Hinv i n Hn) as (Ez & _ & _).
    rewrite Ez in Hs. destruct (ei_watch _ Hinv i n w Hn (or_introl Ep)) as [Hw1 Hw2].
    destruct (zk_GetW (znode +:+ "/" +:+ w) (es_zk s)) as [r z] eqn:E.
    destruct (zk_GetW_ok _ _ _ _ _ Hw1 E) as (Hl & Hx & _). injection Hs as <-. split; [|cbn; lia].
    apply einv_phase; try done; [by rewrite Ep|by destruct r|]. destruct r; intros w' [?|?]; simplify_eq; done.
  - destruct (en_phase n) as [| | |w| | |] eqn:Ep; try done. destruct (zk_fired _ _); [|done]. injection Hs as <-. split; [|cbn; lia].
    apply einv_phase; try done; [by rewrite Ep|]. by intros w' [?|?].
  - destruct (ei_elector _ Hinv i n Hn) as (Ez & _ & Hp). rewrite Ez in Hs.
    assert (no_slash (prop n)) as Hns by (destruct Hp as [->|Hp]; [by apply (bool_decide_unpack (no_slash ""))|by eapply numbered_slash]).
    assert (s' = set_node i (en_elector n) PGone (zk_expire (znode +:+ "/" +:+ prop n) (es_zk s)) s) as -> by (by destruct (en_phase n); simplify_eq).
    destruct (zk_expire_ok znode (prop n) (es_zk s) Hns) as [_ Hx]. split; [|cbn; lia]. apply einv_expire; [done|done|..].
    + intros j m. rewrite list_lookup_insert_Some. intros [(<- & <- & _)|[_ Hm]]; [|by exists m]. by exists n.
    + intros j m. rewrite list_lookup_insert_Some. intros [(<- & <- & _)|[Hne Hm]] Ha; [done|]. intros E.
      destruct (ei_active _ Hinv j m Hm Ha) as [Hm0 _]. apply Hm0. by apply (ei_distinct _ Hinv j i m n).
  - case_decide as Hd; [done|]. injection Hs as <-. assert (no_slash name) as Hns by (apply dec_stable; tauto).
    assert (¬ Exists (λ n, active (en_phase n) = true ∧ prop n = name) (es_nodes s)) as Hex by tauto. clear Hd.
    destruct (es_nodes s) as [|n0 ns] eqn:En; [done|]. injection Hn as ->.
    destruct (ei_elector _ Hinv 0%nat n) as (Ez & _ & _); [by rewrite En|]. rewrite Ez.
    destruct (zk_expire_ok znode name (es_zk s) Hns) as [_ Hx]. split; [|cbn; lia]. rewrite <- En in *. apply einv_expire; [done|done|eauto|].
    intros j m Hm Ha E. apply Hex, Exists_exists. exists m. split; [by eapply list_elem_of_lookup_2|done].
Qed.

Lemma erun_einv ls s s' : einv s → 0 <= zk_next (es_zk s) znode → zk_next (es_zk s) znode + Z.of_nat (length ls) <= seq_limit →
  erun ls s = Some s' → einv s' ∧ zk_next (es_zk s') znode <= seq_limit.
Proof.
  revert s. induction ls as [|l ls IH]; intros s Hinv H0 Hb; cbn [erun length] in *; [intros [= <-]; split; [done|lia]|].
  intros (s1 & E & Hr)%bind_Some. destruct (estep_einv l s s1 Hinv ltac:(lia) E) as [Hinv1 Hx]. apply (IH s1); [done|lia|lia|done].
Qed.

Lemma group_einv k z : zk_live z znode = [] → einv (group znode prefix ack k z).
Proof.
  intros Hl. split; cbn [es_zk es_nodes group].
  - rewrite Hl. by intros ? ?%not_elem_of_nil.
  - intros i n [-> _]%lookup_replicate. cbn. by split_and!; [..|left].
  - by intros i j n m [-> _]%lookup_replicate.
  - by intros i n [-> _]%lookup_replicate.
  - by intros i n [-> _]%lookup_replicate.
  - by intros i n w [-> _]%lookup_replicate [?|?].
Qed.

Lemma leader_unique s i j n m : einv s → zk_next (es_zk s) znode <= seq_limit →
  es_nodes s !! i = Some n → es_nodes s !! j = Some m → en_phase n = PLeader → en_phase m = PLeader → i = j.
Proof.
  intros Hinv Hx Hi Hj Hpi Hpj. destruct (decide (i = j)) as [->|Hne]; [done|exfalso].
  destruct (ei_active _ Hinv i n Hi) as [Hin Hlive]; [by rewrite Hpi|]. destruct (ei_active _ Hinv j m Hj) as [Hjn Hjlive]; [by rewrite Hpj|].
  destruct (ei_live _ Hinv _ Hlive) as (a & Ha & Ea), (ei_live _ Hinv _ Hjlive) as (b & Hb' & Eb).
  destruct (Z.lt_trichotomy a b) as [Hab|[->|Hab]].
  - apply (ei_leader _ Hinv j m Hj Hpj (prop n) Hlive). rewrite Ea, Eb. apply proposal_lt; lia.
  - apply Hin. apply (ei_distinct _ Hinv i j n m); try done. by rewrite Ea, Eb.
  - apply (ei_leader _ Hinv i n Hi Hpi (prop m) Hjlive). rewrite Ea, Eb. apply proposal_lt; lia.
Qed.

(** C12. In a group that starts without proposals, at any time at most one node of the group
    whose session lives is the primary, and its proposal is the oldest one, however the
    nodes propose, look, watch, wake up, fail and lose their sessions, whatever calls of
    ZooKeeper fail (executed or not) and however stale its answers are, as long as the
    sequence counter, a signed 32-bit number, has not reached 2^31. *)
Theorem one_leader k z ls s i j n m :
  zk_live z znode = [] → 0 <= zk_next z znode → zk_next z znode + Z.of_nat (length ls) <= seq_limit →
  erun ls (group znode prefix ack k z) = Some s →
  es_nodes s !! i = Some n → en_phase n = PLeader → es_nodes s !! j = Some m →
  (en_phase m = PLeader → i = j) ∧ (active (en_phase m) = true → ¬ str_lt (prop m) (prop n)).
Proof using Hslash ZL.
  intros Hl H0 Hb Hr Hi Hpi Hj. destruct (erun_einv ls _ s (group_einv k z Hl) H0 Hb Hr) as [Hinv Hx].
  assert (active (en_phase m) = true → ¬ str_lt (prop m) (prop n)) as Hold.
  { intros Ha. apply (ei_leader _ Hinv i n Hi Hpi). by apply (ei_active _ Hinv j m Hj). }
  split; [|done]. intros Hpj. by apply (leader_unique s i j n m).
Qed.

(** ** Progress *)

(** Every child is the proposal of an active node. *)
Definition no_orphans s : Prop :=
  ∀ name, name ∈ live s → ∃ i n, es_nodes s !! i = Some n ∧ active (en_phase n) = true ∧ prop n = name.

(** The node with the oldest proposal. *)
Definition oldest s (i : nat) : Prop := ∃ n, es_nodes s !! i = Some n ∧ active (en_phase n) = true
  ∧ ∀ j m, es_nodes s !! j = Some m → active (en_phase m) = true → ¬ str_lt (prop m) (prop n).

(** C19. The group never waits for a node that is gone: when the primary has lost its
    session, the node with the oldest proposal is not blocked - if it waits for a
    predecessor, that watch has been triggered - and once it looks at the
    proposals it is the primary.  Provided: every proposal that lives belongs to a node that
    takes part ([no_orphans]; a creation that was executed but reported as failed leaves one
    that blocks the group until its session ends, [orphan_blocks]); ZooKeeper answers, with the
    children as they are now and not as they were; its counter has not reached 2^31; and the
    node is not between the two calls of TryBeLeader when its predecessor vanishes - it then
    stops with an error ([predecessor_race]). *)
Theorem oldest_takes_over k z ls s i n :
  zk_live z znode = [] → 0 <= zk_next z znode → zk_next z znode + Z.of_nat (length ls) <= seq_limit →
  (∀ own z, ∃ l z', zk_Children znode own z = (Ok l, z') ∧ l ≡ₚ zk_live z znode) →
  erun ls (group znode prefix ack k z) = Some s → no_orphans s → oldest s i → es_nodes s !! i = Some n →
  (∀ w, en_phase n = PWatch w → ∃ s', estep (EWake i) s = Some s')
  ∧ (en_phase n = PTry → ∃ s' n', estep (ELook i) s = Some s' ∧ es_nodes s' !! i = Some n' ∧ en_phase n' = PLeader).
Proof using Hslash ZL.
  intros Hl H0 Hb Hans Hr Hor (n0 & Hn0 & Ha & Hmin) Hi. assert (n0 = n) as -> by congruence.
  destruct (erun_einv ls _ s (group_einv k z Hl) H0 Hb Hr) as [Hinv Hlim].
  assert (∀ name, name ∈ live s → ¬ str_lt name (prop n)) as Hnone.
  { intros name (j & m & Hj & Hm & <-)%Hor. by apply (Hmin j). }
  destruct (ei_elector _ Hinv i n Hi) as (Ez & _ & _). split.
  - intros w Hw. destruct (ei_watch _ Hinv i n w Hi (or_intror Hw)) as [Hns Hlt]. cbn [estep]. rewrite Hi. cbn [mbind option_bind].
    rewrite Hw, Ez. rewrite (proj2 (zk_fired_ok znode w (es_zk s) Hns)); [by eexists|].
    intros Hin. by apply (Hnone w Hin).
  - intros Hp. cbn [estep]. rewrite Hi. cbn [mbind option_bind]. rewrite Hp.
    destruct (look (en_elector n) (es_zk s)) as [r z'] eqn:E.
    unfold look in E. rewrite Ez in E. destruct (Hans (prop n) (es_zk s)) as (l & z1 & El & Hcur). rewrite El in E. injection E as <- <-.
    eexists _, _. split; [reflexivity|]. split; [apply list_lookup_insert_eq; by eapply lookup_lt_Some|]. cbn [en_phase].
    destruct (last_below_elem (prop n) "" (sort_Strings l)) as [->|[Hel Hlt]]; [by rewrite decide_True|exfalso].
    set (w := last_below _ _ _) in *. apply (Hnone w); [|done]. by rewrite sort_Strings_perm, Hcur in Hel.
Qed.
End safety.

(** ** An instance *)

(** The path up to the last slash, and the rest. *)
Fixpoint split_path (s : string) : option (string * string) :=
  match s with
  | EmptyString => None
  | String c s' =>
      match split_path s' with
      | Some (dir, name) => Some (String c dir, name)
      | None => if decide (c = "/"%char) then Some ("", s') else None
      end
  end.

Lemma split_none name : no_slash name → split_path name = None.
Proof.
  unfold no_slash. induction name as [|c s IH]; [done|]. cbn [String.list_ascii_of_string split_path]. intros [Hc Hs]%not_elem_of_cons.
  rewrite IH by done. rewrite decide_False; [done|]. by intros ->.
Qed.

Lemma split_path_eq dir name : no_slash name → split_path (dir +:+ "/" +:+ name) = Some (dir, name).
Proof.
  intros Hn. induction dir as [|c dir IH].
  - change ("" +:+ "/" +:+ name) with (String "/" name). cbn [split_path]. rewrite split_none by done. by rewrite decide_True.
  - change (String c dir +:+ "/" +:+ name) with (String c (dir +:+ "/" +:+ name)). cbn [split_path]. by rewrite IH.
Qed.

(** The children and the counter of every znode. *)
Abbreviation MemZk := (gmap string (list string * Z)).
Definition mem_dir (s : MemZk) (dir : string) : list string * Z := default ([], 0) (s !! dir).

Definition mem_CreateSeq (path : string) (s : MemZk) : result ZkError string * MemZk :=
  match split_path path with
  | None => (Err ErrNoNode, s)
  | Some (dir, prefix) =>
      let '(l, n) := mem_dir s dir in
      let name := prefix +:+ pad 10 n in
      (Ok (dir +:+ "/" +:+ name), <[dir := (name :: l, n + 1)]> s)
  end.

Definition mem_has (path : string) (s : MemZk) : bool :=
  match split_path path with Some (dir, name) => bool_decide (name ∈ fst (mem_dir s dir)) | None => false end.

Definition mem_expire (path : string) (s : MemZk) : MemZk :=
  match split_path path with
  | Some (dir, name) => let '(l, n) := mem_dir s dir in <[dir := (filter (λ x, x ≠ name) l, n)]> s
  | None => s
  end.

#[export] Instance mem_zk : ZooKeeper MemZk := {
  zk_Create path := λ s, (Ok (), s);
  zk_CreateSeq := mem_CreateSeq;
  zk_Children dir own := λ s, (Ok (fst (mem_dir s dir)), s);
  zk_GetW path := λ s, (if mem_has path s then Ok () else Err ErrNoNode, s);
  zk_Set path info := λ s, (Ok (), s);
  zk_expire := mem_expire;
  zk_fired path s := negb (mem_has path s)
}.

Lemma mem_dir_insert dir v s : mem_dir (<[dir := v]> s) dir = v.
Proof. unfold mem_dir. by rewrite lookup_insert_eq. Qed.

#[export] Instance mem_zk_laws : ZooKeeperLaws MemZk.
Proof.
  refine {| zk_live s dir := fst (mem_dir s dir); zk_next s dir := snd (mem_dir s dir) |}.
  - intros dir prefix s r s' Hp _. cbn [zk_CreateSeq mem_zk]. unfold mem_CreateSeq. rewrite split_path_eq by done.
    destruct (mem_dir s dir) as [l n] eqn:E. intros [= <- <-]. right. rewrite mem_dir_insert. split_and!; [done..|by left].
  - intros dir own s r s' [= <- <-]. split_and!; [done..|]. intros l [= <-]. split; [by left|done].
  - intros dir name s r s' Hn. cbn [zk_GetW mem_zk]. unfold mem_has. rewrite split_path_eq by done. intros [= <- <-]. split_and!; [done..|].
    case_bool_decide; [done|]. done.
  - intros dir name s Hn. cbn [zk_expire mem_zk]. unfold mem_expire. rewrite split_path_eq by done.
    destruct (mem_dir s dir) as [l n] eqn:E. by rewrite mem_dir_insert.
  - intros dir name s Hn. cbn [zk_fired mem_zk]. unfold mem_has. rewrite split_path_eq by done.
    case_bool_decide; split; try done.
Defined.

(** ** Examples *)
Definition demo_group : EState MemZk := group "/e" "n_" "/ack" 3 ∅.

(** Three nodes; the first becomes the primary and loses its session, the second
    is woken up and takes over. *)
Definition demo_election : list ELabel :=
  [EPropose 0; ELook 0; EPropose 1; EPropose 2; ELook 1; EWatch 1; ELook 2; EWatch 2; EExpire 0; EWake 1; ELook 1].

Definition phase_of (i : nat) (s : EState MemZk) : option Phase := en_phase <$> es_nodes s !! i.

Example demo_election_phases :
  (λ s, (phase_of 0 s, phase_of 1 s, phase_of 2 s)) <$> erun demo_election demo_group
  = Some (Some PGone, Some PLeader, Some (PWatch "n_0000000001")).
Proof. vm_compute. reflexivity. Qed.

(** A predecessor that goes away between the two calls of TryBeLeader makes it
    return an error, and the node gives up. *)
Example predecessor_race :
  phase_of 1 <$> erun [EPropose 0; EPropose 1; ELook 1; EExpire 0; EWatch 1] demo_group = Some (Some PFailed).
Proof. vm_compute. reflexivity. Qed.

(** The proposal of a creation that was executed and reported as failed, with its session
    alive: the only node of the group waits for it, and nothing wakes it up. *)
Definition orphan_group : EState MemZk := group "/e" "n_" "/ack" 1 {["/e" := (["n_0000000000"], 1)]}.

Example orphan_blocks :
  phase_of 0 <$> erun [EPropose 0; ELook 0; EWatch 0] orphan_group = Some (Some (PWatch "n_0000000000"))
  ∧ erun [EPropose 0; ELook 0; EWatch 0; EWake 0] orphan_group = None.
Proof. split; vm_compute; reflexivity. Qed.

Lemma demo_prefix : no_slash "n_".
Proof. by apply (bool_decide_unpack (no_slash "n_")). Qed.

Definition after_election : EState MemZk := default demo_group (erun demo_election demo_group).

Lemma demo_run : erun demo_election demo_group = Some after_election.
Proof.
  unfold after_election. destruct (erun demo_election demo_group) as [s|] eqn:E; [done|].
  assert (match erun demo_election demo_group with Some _ => true | None => false end = true) as H by (vm_compute; reflexivity).
  by rewrite E in H.
Qed.

Definition node_of (i : nat) (s : EState MemZk) : ENode := default (mkENode (mkElector "" "" "" "") PNew) (es_nodes s !! i).

Lemma node_of_eq i s : (i < length (es_nodes s))%nat → es_nodes s !! i = Some (node_of i s).
Proof. intros [n Hn]%lookup_lt_is_Some. unfold node_of. by rewrite Hn. Qed.

Lemma node_of_lookup i s n : es_nodes s !! i = Some n → n = node_of i s.
Proof. unfold node_of. by intros ->. Qed.

Lemma demo_length : length (es_nodes after_election) = 3%nat.
Proof. vm_compute. reflexivity. Qed.

Lemma one_leader_witness :
  (en_phase (node_of 2 after_election) = PLeader → 1%nat = 2%nat)
  ∧ (active (en_phase (node_of 2 after_election)) = true
     → ¬ str_lt (proposal (en_elector (node_of 2 after_election))) (proposal (en_elector (node_of 1 after_election)))).
Proof.
  apply (one_leader "/e" "n_" "/ack" demo_prefix 3 ∅ demo_election after_election 1 2); [done|done|done|apply demo_run| | |].
  - apply node_of_eq. rewrite demo_length. lia.
  - vm_compute. reflexivity.
  - apply node_of_eq. rewrite demo_length. lia.
Defined.

(** After the primary has gone and before the second node has noticed. *)
Definition demo_handover : list ELabel := take 9 demo_election.
Definition at_handover : EState MemZk := default demo_group (erun demo_handover demo_group).

Lemma handover_run : erun demo_handover demo_group = Some at_handover.
Proof.
  unfold at_handover. destruct (erun demo_handover demo_group) as [s|] eqn:E; [done|].
  assert (match erun demo_handover demo_group with Some _ => true | None => false end = true) as H by (vm_compute; reflexivity).
  by rewrite E in H.
Qed.

Lemma handover_length : length (es_nodes at_handover) = 3%nat.
Proof. vm_compute. reflexivity. Qed.

Lemma handover_no_orphans : no_orphans "/e" at_handover.
Proof.
  intros name. change (zk_live (es_zk at_handover) "/e") with (fst (mem_dir (es_zk at_handover) "/e")).
  assert (fst (mem_dir (es_zk at_handover) "/e") = ["n_0000000002"; "n_0000000001"]) as -> by (vm_compute; reflexivity).
  intros [->|[->|[]%not_elem_of_nil]%elem_of_cons]%elem_of_cons.
  - exists 2%nat, (node_of 2 at_handover). split; [apply node_of_eq; rewrite handover_length; lia|]. vm_compute. done.
  - exists 1%nat, (node_of 1 at_handover). split; [apply node_of_eq; rewrite handover_length; lia|]. vm_compute. done.
Qed.

Lemma handover_oldest : oldest at_handover 1.
Proof.
  exists (node_of 1 at_handover). split; [apply node_of_eq; rewrite handover_length; lia|]. split; [vm_compute; reflexivity|].
  intros j m Hj Ha. pose proof (lookup_lt_Some _ _ _ Hj) as Hlt. rewrite handover_length in Hlt.
  apply node_of_lookup in Hj. subst m.
  assert (forallb (λ j, negb (active (en_phase (node_of j at_handover)))
    || bool_decide (¬ str_lt (proposal (en_elector (node_of j at_handover))) (proposal (en_elector (node_of 1 at_handover))))) [0; 1; 2]%nat = true)
    as H by (vm_compute; reflexivity).
  rewrite forallb_forall in H. specialize (H j ltac:(apply in_seq with (start := 0%nat) (len := 3%nat); lia)).
  rewrite Ha in H. by apply bool_decide_eq_true in H.
Qed.

Lemma oldest_takes_over_witness :
  (∀ w, en_phase (node_of 1 at_handover) = PWatch w → ∃ s', estep (EWake 1) at_handover = Some s')
  ∧ (en_phase (node_of 1 at_handover) = PTry →
     ∃ s' n', estep (ELook 1) at_handover = Some s' ∧ es_nodes s' !! 1%nat = Some n' ∧ en_phase n' = PLeader).
Proof.
  apply (oldest_takes_over "/e" "n_" "/ack" demo_prefix 3 ∅ demo_handover at_handover 1 (node_of 1 at_handover)); [done|done|done|..].
  - intros own z. by eexists _, _.
  - apply handover_run.
  - apply handover_no_orphans.
  - apply handover_oldest.
  - apply node_of_eq. rewrite handover_length. lia.
Defined.
