(* ===== verification/TakeOver.v ===== *)
(** TakeOver: a secondary node follows the journal and becomes the primary.

    Source: sheetfs/datanode/node/node.go and sheetfs/master/journal/listener.go,
    master/node/node.go (RunAsSecondary, handleJournal, handleCheckpoint).

    Both programs run the same loops: try to be the leader; while there is
    another one, fetch and apply entries until the watch on the predecessor
    cancels the fetch; then fetch what is left.  [secondary] is these loops; its
    inputs are what the election and the broker answer, call by call. *)
From Stdlib Require Import ZArith Lia Strings.Byte.
From stdpp Require Import gmap strings list.
From S2P Require Import Prelude.
From S2P Require Import DataNode.
From S2P Require Import DataNodeAlloc.
From S2P Require Import MasterData.
From S2P Require Import SheetFile.
From S2P Require Import JournalEntry.
From S2P Require Import CommonJournal.
From S2P Require Import FileMgr.
From S2P Require Import MasterReplica.
From S2P Require Import Election.
Open Scope Z_scope.

(** ** The loops *)

(** What the next call of the node gets: [k] is the topic at that moment. *)
Inductive SecIn (K : Type) :=
| InElect (r : result ZkError bool)                              (* TryBeLeader *)
| InFetch (err : option FetchError) (k : K)                      (* FetchEntry *)
| InTry (lag_err err : option FetchError) (k : K).               (* TryFetchEntry *)
Arguments InElect {K} _.
Arguments InFetch {K} _ _.
Arguments InTry {K} _ _ _.

Inductive Mode := MElect | MFollow | MForward.

Inductive Outcome (St : Type) :=
| OWaiting (m : Mode) (r : Receiver) (s : St)
| OPrimary (r : Receiver) (s : St)
| OError (s : St)      (* an error ends the node *)
| OPanic.
Arguments OWaiting {St} _ _ _.
Arguments OPrimary {St} _ _.
Arguments OError {St} _.
Arguments OPanic {St}.

(** TryFetchEntry returns a pointer to a new [NoMoreMessageError], the loops compare it
    by [errors.Is] with another new one.  The struct has no fields and no method [Is], and
    Go leaves it open whether pointers to two zero-size variables are equal. *)
Class PtrEq := ptr_eq : bool.

Section loops.
Context {K : Type} {KO : Kafka K} {CC : Codec Checkpoint} {PE : PtrEq} {St : Type}.
(** One entry is applied: [None] is a panic, [Err] an error. *)
Context (handle : bytes → option Checkpoint → St → option (result () St)).

(** An input that the node does not wait for in its mode is not for it. *)
Fixpoint secondary (m : Mode) (ins : list (SecIn K)) (r : Receiver) (s : St) : Outcome St :=
  match ins with
  | [] => OWaiting m r s
  | i :: ins' =>
      match m, i with
      | MElect, InElect (Err _) => OError s
      | MElect, InElect (Ok success) => secondary (if success : bool then MForward else MFollow) ins' r s
      | MFollow, InFetch err k =>
          match FetchEntry err k r with
          | None => secondary MFollow ins' r s
          | Some (Err Canceled, r') => secondary MElect ins' r' s
          | Some (Err _, _) => OError s
          | Some (Ok (msg, ckpt), r') =>
              match handle msg ckpt s with
              | None => OPanic
              | Some (Err _) => OError s
              | Some (Ok s') => secondary MFollow ins' r' s'
              end
          end
      | MForward, InTry lag_err err k =>
          match TryFetchEntry lag_err err k r with
          | None => secondary MForward ins' r s
          | Some (Err NoMoreMessageError, r') => if ptr_eq then OPrimary r' s else OError s
          | Some (Err _, _) => OError s
          | Some (Ok (msg, ckpt), r') =>
              match handle msg ckpt s with
              | None => OPanic
              | Some (Err _) => OError s
              | Some (Ok s') => secondary MForward ins' r' s'
              end
          end
      | _, _ => secondary m ins' r s
      end
  end.

(** Where the pointers differ no node ever takes over: the end of the journal is an error. *)
Lemma no_take_over m ins r s : ptr_eq = false → ∀ r' s', secondary m ins r s ≠ OPrimary r' s'.
Proof.
  intros Hp. revert m r s. induction ins as [|i ins IH]; intros m r s r' s'; cbn [secondary]; [done|].
  rewrite Hp. destruct m, i; repeat case_match; by simplify_eq || apply IH.
Qed.

Fixpoint handle_all (xs : list (bytes * option Checkpoint)) (s : St) : option (result () St) :=
  match xs with
  | [] => Some (Ok s)
  | (msg, ckpt) :: xs' =>
      match handle msg ckpt s with
      | None => None
      | Some (Err e) => Some (Err e)
      | Some (Ok s') => handle_all xs' s'
      end
  end.

(** The primary wrote [ms] after [pre] before it went; the election and the
    broker answer, except that fetches are cancelled. *)
Definition in_ok (kF : K) (i : SecIn K) : Prop :=
  match i with
  | InElect r => ∃ b, r = Ok b
  | InFetch err k => (err = None ∨ err = Some Canceled) ∧ k_log k `prefix_of` k_log kF
  | InTry lag_err err k => lag_err = None ∧ err = None ∧ k_log k = k_log kF
  end.

Section run.
Context (kF : K) (pre ms : list Message) (xs : list (bytes * option Checkpoint)) (r0 : Receiver) (s0 sF : St).
Context (Hlog : k_log kF = pre ++ ms) (Hdec : Forall2 (decodes (r_checkpointsKey r0)) ms xs) (Hall : handle_all xs s0 = Some (Ok sF)) (Hptr : ptr_eq = true).

(** The first [n] entries have been applied. *)
Definition at_entry (n : nat) (r : Receiver) (s : St) : Prop :=
  r = SetOffset r0 (Z.of_nat (length pre + n)) ∧ (n <= length xs)%nat ∧ handle_all (drop n xs) s = Some (Ok sF)
  ∧ (n = length xs → s = sF).

Lemma at_entry_next n r s x : at_entry n r s → xs !! n = Some x →
  ∃ s', handle x.1 x.2 s = Some (Ok s') ∧ at_entry (S n) (SetOffset r0 (Z.of_nat (length pre + S n))) s'.
Proof.
  intros (-> & Hn & Hh & _) Hx. rewrite (drop_S xs x n Hx) in Hh. cbn [handle_all] in Hh. destruct x as [msg ckpt].
  destruct (handle msg ckpt s) as [[s'|]|] eqn:E; try done. exists s'. split; [done|]. apply lookup_lt_Some in Hx.
  split_and!; [done|lia|done|]. intros En. rewrite drop_ge in Hh by lia. cbn in Hh. by simplify_eq.
Qed.

Lemma fetch_next n k s r m0 x : at_entry n r s → k_log k `prefix_of` k_log kF → k_log k !! (length pre + n)%nat = Some m0 → xs !! n = Some x →
  FetchEntry None k r = Some (Ok x, SetOffset r0 (Z.of_nat (length pre + S n))).
Proof using Hlog Hdec.
  intros (-> & _) Hk Hm Hx. unfold FetchEntry, ReadMessage. cbn [r_offset SetOffset].
  destruct (Z.ltb_spec (Z.of_nat (length pre + n)) 0); [lia|]. rewrite Nat2Z.id, Hm. cbn [mbind option_bind].
  assert (ms !! n = Some m0) as Hms.
  { eapply prefix_lookup_Some in Hm; [|exact Hk]. rewrite Hlog, lookup_app_r in Hm by lia. by replace (length pre + n - length pre)%nat with n in Hm by lia. }
  destruct (Forall2_lookup_l _ _ _ _ _ Hdec Hms) as (x' & Hx' & Hv & Hc). simplify_eq. destruct x as [v c]. cbn [fst snd] in *. subst v.
  replace (Z.of_nat (length pre + n) + 1) with (Z.of_nat (length pre + S n)) by lia. cbn [r_checkpointsKey SetOffset].
  destruct (decide (Key m0 = r_checkpointsKey r0)); [|by subst c]. destruct Hc as (c' & -> & ->). done.
Qed.

(** Waiting for more, or the next entry. *)
Lemma fetch_cases n k s r : at_entry n r s → k_log k `prefix_of` k_log kF →
  FetchEntry None k r = None
  ∨ ∃ x, xs !! n = Some x ∧ FetchEntry None k r = Some (Ok x, SetOffset r0 (Z.of_nat (length pre + S n))).
Proof using Hlog Hdec.
  intros Hat Hk. destruct (k_log k !! (length pre + n)%nat) as [m0|] eqn:Em.
  - assert (is_Some (xs !! n)) as [x Hx].
    { apply lookup_lt_is_Some. rewrite <- (Forall2_length _ _ _ Hdec). eapply prefix_lookup_Some in Em; [|exact Hk].
      apply lookup_lt_Some in Em. rewrite Hlog, length_app in Em. lia. }
    right. exists x. split; [done|]. by eapply fetch_next.
  - left. destruct Hat as (-> & _). unfold FetchEntry, ReadMessage. cbn [r_offset SetOffset].
    destruct (Z.ltb_spec (Z.of_nat (length pre + n)) 0); [lia|]. by rewrite Nat2Z.id, Em.
Qed.

Lemma try_cases n k s r : at_entry n r s → k_log k = k_log kF →
  (n = length xs ∧ TryFetchEntry None None k r = Some (Err NoMoreMessageError, r))
  ∨ ∃ x, xs !! n = Some x ∧ TryFetchEntry None None k r = Some (Ok x, SetOffset r0 (Z.of_nat (length pre + S n))).
Proof using Hlog Hdec.
  intros Hat Hk. pose proof Hat as (Er & Hn & _). pose proof (Forall2_length _ _ _ Hdec) as Hlen.
  unfold TryFetchEntry, ReadLag. rewrite Hk, Hlog, length_app, Hlen, Er. cbn [r_offset SetOffset]. rewrite <- Er.
  destruct (decide (n = length xs)) as [->|Hne].
  - left. split; [done|]. destruct (Z.eqb_spec (Z.of_nat (length pre + length xs) - Z.of_nat (length pre + length xs)) 0); [done|lia].
  - right. destruct (lookup_lt_is_Some_2 xs n ltac:(lia)) as [x Hx]. exists x. split; [done|].
    destruct (Z.eqb_spec (Z.of_nat (length pre + length xs) - Z.of_nat (length pre + n)) 0); [lia|].
    destruct (lookup_lt_is_Some_2 (k_log k) (length pre + n)) as [m0 Hm]; [rewrite Hk, Hlog, length_app, Hlen; lia|].
    eapply fetch_next; [exact Hat|by rewrite Hk|exact Hm|exact Hx].
Qed.

(** Once it forwards, the node ends as the primary, with everything applied. *)
Lemma forward_ends n r s d ins : at_entry n r s → (length xs - n <= d)%nat →
  ∃ r', secondary MForward (replicate (S d) (InTry None None kF) ++ ins) r s = OPrimary r' sF.
Proof using Hlog Hdec Hptr.
  revert n r s. induction d as [|d IH]; intros n r s Hat Hd; rewrite replicate_S; cbn [app secondary]; rewrite Hptr.
  - destruct (try_cases n kF s r Hat eq_refl) as [[En ->]|(x & Hx & _)].
    + exists r. f_equal. by apply Hat.
    + apply lookup_lt_Some in Hx. lia.
  - destruct (try_cases n kF s r Hat eq_refl) as [[En ->]|([msg ckpt] & Hx & ->)].
    + exists r. f_equal. by apply Hat.
    + destruct (at_entry_next n r s _ Hat Hx) as (s' & Eh & Hat'). cbn [fst snd] in Eh. rewrite Eh. apply (IH (S n)); [done|lia].
Qed.

Lemma elected_ends m n r s : at_entry n r s →
  ∃ r', secondary m (InFetch (Some Canceled) kF :: InElect (Ok true) :: replicate (S (length xs)) (InTry None None kF)) r s = OPrimary r' sF.
Proof using Hlog Hdec Hptr.
  intros Hat. destruct (forward_ends n r s (length xs) [] Hat ltac:(lia)) as [r' E]. rewrite app_nil_r in E. exists r'.
  by destruct m.
Qed.

(** Whatever happened before, the node that wins the election ends as the primary
    with every entry applied once and in order. *)
Lemma secondary_ends ins m n r s : at_entry n r s → Forall (in_ok kF) ins →
  ∃ r', secondary m (ins ++ InFetch (Some Canceled) kF :: InElect (Ok true) :: replicate (S (length xs)) (InTry None None kF)) r s
        = OPrimary r' sF.
Proof using Hlog Hdec Hptr.
  intros Hat Hok. revert m n r s Hat. induction Hok as [|i ins Hi Hok IH]; intros m n r s Hat; [by eapply elected_ends|].
  cbn [app]. destruct i as [res|err k|lag_err err k]; cbn [in_ok] in Hi.
  - destruct Hi as [b ->]. destruct m; cbn [secondary]; by eapply IH.
  - destruct Hi as [Herr Hk]. destruct m; cbn [secondary]; try by eapply IH. destruct Herr as [->| ->]; [|by eapply IH].
    destruct (fetch_cases n k s r Hat Hk) as [->|([msg ckpt] & Hx & ->)]; [by eapply IH|].
    destruct (at_entry_next n r s _ Hat Hx) as (s' & Eh & Hat'). cbn [fst snd] in Eh. rewrite Eh. by eapply IH.
  - destruct Hi as (-> & -> & Hk). destruct m; cbn [secondary]; try by eapply IH. rewrite Hptr.
    destruct (try_cases n k s r Hat Hk) as [[En ->]|([msg ckpt] & Hx & ->)].
    + exists r. f_equal. by apply Hat.
    + destruct (at_entry_next n r s _ Hat Hx) as (s' & Eh & Hat'). cbn [fst snd] in Eh. rewrite Eh. by eapply IH.
Qed.
End run.
End loops.

(** ** Data nodes *)

(** [HandleMsg] on what was fetched, whether it is a checkpoint or not. *)
Definition dn_handle (msg : bytes) (ckpt : option Checkpoint) (s : Server) : option (result () Server) := HandleMsg no_faults s msg.

(** [RunAsSecondary]; [proposed] is what CreateProposal returned. *)
Definition DataNode_RunAsSecondary {K} {KO : Kafka K} {CC : Codec Checkpoint} {PE : PtrEq}
    (proposed : result ZkError ()) (ins : list (SecIn K)) (receiver : Receiver) (rpcsrv : Server) : Outcome Server :=
  match proposed with
  | Err _ => OError rpcsrv
  | Ok _ => secondary dn_handle MElect ins receiver rpcsrv
  end.

Definition entry_message (topic : string) (e : bytes) : Message := mkMessage (entries_key topic) e.

Lemma replay_is_handle entries s : handle_all dn_handle ((λ e, (e, None)) <$> entries) s = replay_log s entries.
Proof.
  revert s. induction entries as [|e es IH]; intros s; [done|]. cbn. unfold dn_handle. destruct (HandleMsg no_faults s e) as [[s'|x]|]; [|done|done].
  apply IH.
Qed.

Lemma entries_decode {CC : Codec Checkpoint} topic (es : list bytes) :
  Forall2 (decodes (checkpoints_key topic)) (entry_message topic <$> es) ((λ e, (e, None)) <$> es).
Proof.
  induction es as [|e es IH]; constructor; [|done]. split; [done|]. cbn. by rewrite decide_False by apply keys_differ.
Qed.

(** What the node is told once its predecessors are gone: the fetch is cancelled,
    it wins the election, and the topic does not grow any more. *)
Definition elected {K} (kF : K) (n : nat) : list (SecIn K) :=
  InFetch (Some Canceled) kF :: InElect (Ok true) :: replicate (S n) (InTry None None kF).


(** ** Masters *)
Section master.
Context {db : Type} {DB : MetaDB db} {DL : MetaDBLaws db} {K : Type} {KO : Kafka K} {KL : KafkaLaws K}.
Context {ME : Codec MasterEntry} {ML : CodecLaws MasterEntry} {CC : Codec Checkpoint} {PE : PtrEq} {RO : RangeOrder}.
Abbreviation FMState := (FileManager db K).

(** [l.db] is the database of the file manager. *)
Definition handleCheckpoint (ckpt : Checkpoint) : GoM FMState (result MasterError ()) :=
  r ← Persistent;
  match r with
  | Err e => mret (Err e)
  | Ok _ => go_modify (λ f, set_db f (RecordCheckpoint (fm_db f) (NextEntryOffset ckpt))) ≫= λ _, mret (Ok ())
  end.

Definition handleJournal (entry : bytes) (ckpt : option Checkpoint) : GoM FMState (result () ()) :=
  match ckpt with
  | Some ckpt => r ← handleCheckpoint ckpt; mret match r with Ok _ => Ok () | Err _ => Err () end
  | None =>
      match unmarshal entry with
      | Err _ => mret (Err ())
      | Ok masterEntry => r ← HandleMasterEntry masterEntry; mret match r with Ok _ => Ok () | Err _ => Err () end
      end
  end.

Definition lm_handle (msg : bytes) (ckpt : option Checkpoint) (f : FMState) : option (result () FMState) :=
  match handleJournal msg ckpt f with
  | None => None
  | Some (Ok _, f') => Some (Ok f')
  | Some (Err _, _) => Some (Err ())
  end.

(** [Listener.RunAsSecondary]; [set_err] is what SetOffset of the reader returned. *)
Definition Listener_RunAsSecondary (set_err : bool) (ins : list (SecIn K)) (receiver : Receiver) (f : FMState) : Outcome FMState :=
  let '(ckptOffset, d) := ReadCheckpoint (fm_db f) in
  let f := set_db f d in
  if set_err then OError f else secondary lm_handle MElect ins (SetOffset receiver ckptOffset) f.

(** [MasterNode.RunAsSecondary] *)
Definition MasterNode_RunAsSecondary (proposed : result ZkError ()) (set_err : bool) (ins : list (SecIn K)) (receiver : Receiver) (f : FMState)
  : Outcome FMState :=
  match proposed with
  | Err _ => OError f
  | Ok _ => Listener_RunAsSecondary set_err ins receiver f
  end.

Lemma replay_handles ms es xs f f' :
  Forall2 (λ m e, unmarshal (Value m) = Ok e) ms es → xs = (λ m, (Value m, None)) <$> ms →
  replay es f = Some (Ok (), f') → handle_all lm_handle xs f = Some (Ok f').
Proof.
  intros Hm ->. revert f. induction Hm as [|m e ms es He Hm IH]; intros f; cbn [replay fmap list_fmap handle_all]; [by intros [= <-]|].
  unfold mbind, GoM_bind. destruct (HandleMasterEntry e f) as [[[[]|x] f1]|] eqn:E; [|done|done]. intros Hr.
  unfold lm_handle, handleJournal. rewrite He. unfold mbind, GoM_bind. rewrite E. by apply IH.
Qed.

Lemma agree_ckpt P (f : FMState) d : agree P f → db_find_cells d = db_find_cells (fm_db f) → agree P (set_db f d).
Proof. intros [A1 A2 A3 A4 A5 A6 A7] Hd. split; cbn [set_db Entries Opened fm_db] in *; try done. intros name. rewrite Hd. apply A7. Qed.

End master.


(** The same run, evaluated: two lost elections, one entry fetched in between. *)
Example data_node_failover :
  match serve_all s0 history1 with
  | Some (_, s') =>
      let kF := mkUpTopic (entry_message "t" <$> log s') in
      match DataNode_RunAsSecondary (CC := demo_codec) (PE := true) (Ok ())
              ([InElect (Ok false); InFetch None kF; InFetch (Some Canceled) kF; InElect (Ok false)] ++ elected kF 3)
              (mkReceiver 0 (entries_key "t") (checkpoints_key "t")) s0 with
      | OPrimary r s => bool_decide (files s = files s') && bool_decide (r_offset r = 3)
      | _ => false
      end
  | None => false
  end = true.
Proof. vm_compute. reflexivity. Qed.

