(* ===== verification/LabRpc.v ===== *)
(** LabRpc: the simulated network of the raft labs.

    Source: lab4-mapreduce/src/labrpc/labrpc.go.

    Client ends send requests; the network looks up the server an end is
    connected to, runs the handler in a goroutine and replies, unless it drops
    the request or the reply, or the server was deleted meanwhile.  A call is a
    goroutine that goes through the phases of [ProcessReq]; random choices, timers
    and the order of steps are the labels of [nstep].  Arguments and replies are
    the bytes that labgob makes of them. *)
From Stdlib Require Import ZArith Lia Strings.Byte Ascii.
From stdpp Require Import gmap strings list.
From S2P Require Import Prelude.
Open Scope Z_scope.

Definition i32 (z : Z) : Z := (z + 2 ^ 31) mod 2 ^ 32 - 2 ^ 31.

(** ** Servers and services *)

(** [strings.LastIndex(s, ".")], and the parts around it; [None] without a dot,
    where the slice expression panics. *)
Fixpoint split_dot (s : string) : option (string * string) :=
  match s with
  | EmptyString => None
  | String c s' =>
      match split_dot s' with
      | Some (a, b) => Some (String c a, b)
      | None => if decide (c = "."%char) then Some ("", s') else None
      end
  end.

Record replyMsg := mkReplyMsg { rm_ok : bool; rm_reply : list byte }.
Definition failed : replyMsg := mkReplyMsg false [].

Section servers.
(** The objects whose methods are called. *)
Context {App : Type}.

(** What a method does to the objects, and its reply, as one step ([LRun] below); a method
    that blocks is one whose step is not taken.  A method that panics ends the process, and
    with it every call; it is not a [Method]. *)
Abbreviation Method := (list byte → App → list byte * App).

(** A method as [reflect] shows it. *)
Record MethodInfo := mkMethodInfo {
  mi_Name : string; mi_PkgPath : string; mi_NumIn : nat; mi_In2_Ptr : bool; mi_NumOut : nat; mi_Func : Method }.

Record Service := mkService { sc_name : string; sc_methods : gmap string Method }.
Record RpcServer := mkRpcServer { rs_services : gmap string Service; rs_count : Z }.

Definition suitable (m : MethodInfo) : bool :=
  bool_decide (mi_PkgPath m = "") && bool_decide (mi_NumIn m = 3%nat) && mi_In2_Ptr m && bool_decide (mi_NumOut m = 0%nat).

Definition MakeService (name : string) (ms : list MethodInfo) : Service :=
  mkService name (foldl (λ acc m, if suitable m then <[mi_Name m := mi_Func m]> acc else acc) ∅ ms).

Definition MakeServer : RpcServer := mkRpcServer ∅ 0.
Definition AddService (svc : Service) (rs : RpcServer) : RpcServer := mkRpcServer (<[sc_name svc := svc]> (rs_services rs)) (rs_count rs).

(** Both [dispatch] methods; [None] ends the process. *)
Definition Service_dispatch (svc : Service) (methname : string) (args : list byte) (app : App) : option (replyMsg * App) :=
  method ← sc_methods svc !! methname;
  let '(reply, app') := method args app in Some (mkReplyMsg true reply, app').

Definition Server_dispatch (rs : RpcServer) (svcMeth : string) (args : list byte) (app : App) : option (replyMsg * RpcServer * App) :=
  '(serviceName, methodName) ← split_dot svcMeth;
  service ← rs_services rs !! serviceName;
  '(r, app') ← Service_dispatch service methodName args app;
  Some (r, mkRpcServer (rs_services rs) (i64 (rs_count rs + 1)), app').

(** ** The network *)
Context {EN SN : Type} `{Countable EN, Countable SN}.

(** [servers] and [connections] hold nil ([None]) as the code does; servers are
    pointers. *)
Record Network := mkNetwork {
  nw_reliable : bool;
  nw_longDelays : bool;
  nw_longReordering : bool;
  nw_ends : gset EN;
  nw_enabled : gmap EN bool;
  nw_servers : gmap SN (option nat);
  nw_connections : gmap EN (option SN);
  nw_done : bool;
  nw_count : Z
}.

Definition MakeNetwork : Network := mkNetwork true false false ∅ ∅ ∅ ∅ false 0.

Definition Reliable (yes : bool) (rn : Network) : Network :=
  mkNetwork yes (nw_longDelays rn) (nw_longReordering rn) (nw_ends rn) (nw_enabled rn) (nw_servers rn) (nw_connections rn) (nw_done rn) (nw_count rn).
Definition LongReordering (yes : bool) (rn : Network) : Network :=
  mkNetwork (nw_reliable rn) (nw_longDelays rn) yes (nw_ends rn) (nw_enabled rn) (nw_servers rn) (nw_connections rn) (nw_done rn) (nw_count rn).
Definition LongDelays (yes : bool) (rn : Network) : Network :=
  mkNetwork (nw_reliable rn) yes (nw_longReordering rn) (nw_ends rn) (nw_enabled rn) (nw_servers rn) (nw_connections rn) (nw_done rn) (nw_count rn).
Definition set_enabled (m : gmap EN bool) (rn : Network) : Network :=
  mkNetwork (nw_reliable rn) (nw_longDelays rn) (nw_longReordering rn) (nw_ends rn) m (nw_servers rn) (nw_connections rn) (nw_done rn) (nw_count rn).
Definition set_servers (m : gmap SN (option nat)) (rn : Network) : Network :=
  mkNetwork (nw_reliable rn) (nw_longDelays rn) (nw_longReordering rn) (nw_ends rn) (nw_enabled rn) m (nw_connections rn) (nw_done rn) (nw_count rn).
Definition Cleanup (rn : Network) : Network :=
  mkNetwork (nw_reliable rn) (nw_longDelays rn) (nw_longReordering rn) (nw_ends rn) (nw_enabled rn) (nw_servers rn) (nw_connections rn) true (nw_count rn).
Definition count_rpc (rn : Network) : Network :=
  mkNetwork (nw_reliable rn) (nw_longDelays rn) (nw_longReordering rn) (nw_ends rn) (nw_enabled rn) (nw_servers rn) (nw_connections rn) (nw_done rn)
    (i32 (nw_count rn + 1)).

Definition Connect (endname : EN) (servername : SN) (rn : Network) : Network :=
  mkNetwork (nw_reliable rn) (nw_longDelays rn) (nw_longReordering rn) (nw_ends rn) (nw_enabled rn) (nw_servers rn)
    (<[endname := Some servername]> (nw_connections rn)) (nw_done rn) (nw_count rn).
Definition Enable (endname : EN) (enabled : bool) (rn : Network) : Network := set_enabled (<[endname := enabled]> (nw_enabled rn)) rn.
Definition AddServer (servername : SN) (rs : nat) (rn : Network) : Network := set_servers (<[servername := Some rs]> (nw_servers rn)) rn.
Definition DeleteServer (servername : SN) (rn : Network) : Network := set_servers (<[servername := None]> (nw_servers rn)) rn.

(** [None]: the name is taken and the process ends. *)
Definition MakeEnd (endname : EN) (rn : Network) : option Network :=
  if decide (endname ∈ nw_ends rn) then None
  else Some (mkNetwork (nw_reliable rn) (nw_longDelays rn) (nw_longReordering rn) ({[endname]} ∪ nw_ends rn)
              (<[endname := false]> (nw_enabled rn)) (nw_servers rn) (<[endname := None]> (nw_connections rn)) (nw_done rn) (nw_count rn)).

Definition is_enabled (rn : Network) (endname : EN) : bool := default false (nw_enabled rn !! endname).
Definition server_of (rn : Network) (servername : SN) : option nat := mjoin (nw_servers rn !! servername).

(** (enabled, servername, server, reliable, longreordering) *)
Definition ReadEndnameInfo (rn : Network) (endname : EN) : bool * option SN * option nat * bool * bool :=
  let servername := mjoin (nw_connections rn !! endname) in
  let server := match servername with Some sn => server_of rn sn | None => None end in
  (is_enabled rn endname, servername, server, nw_reliable rn, nw_longReordering rn).

Definition IsServerDead (rn : Network) (endname : EN) (servername : SN) (server : nat) : bool :=
  negb (is_enabled rn endname) || bool_decide (server_of rn servername ≠ Some server).

(** What the owner of the network does to it. *)
Inductive NetOp :=
| OReliable (yes : bool)
| OLongReordering (yes : bool)
| OLongDelays (yes : bool)
| OConnect (endname : EN) (servername : SN)
| OEnable (endname : EN) (enabled : bool)
| OAddServer (servername : SN) (p : nat)
| ODeleteServer (servername : SN)
| OCleanup.

Definition apply_op (o : NetOp) : Network → Network :=
  match o with
  | OReliable yes => Reliable yes
  | OLongReordering yes => LongReordering yes
  | OLongDelays yes => LongDelays yes
  | OConnect e sn => Connect e sn
  | OEnable e b => Enable e b
  | OAddServer sn p => AddServer sn p
  | ODeleteServer sn => DeleteServer sn
  | OCleanup => Cleanup
  end.

(** ** Calls *)

(** Where the goroutine of a request is. *)
Inductive QPhase :=
| QStart                                                        (* before ReadEndnameInfo *)
| QAccepted (sn : SN) (srv : nat) (reliable longreordering : bool)
| QWaiting (sn : SN) (srv : nat) (reliable longreordering : bool) (* in the loop with the handler running *)
| QLooped (sn : SN) (srv : nat) (reliable longreordering : bool) (replyOK : option replyMsg)
| QSend (m : replyMsg)                                          (* before the send to replyCh *)
| QDone (m : replyMsg).                                         (* Call has the reply *)

(** [rq_server] is the server whose handler was started, [rq_ran] its result. *)
Record Request := mkRequest {
  rq_endname : EN; rq_svcMeth : string; rq_args : list byte; rq_phase : QPhase; rq_server : option nat; rq_ran : option replyMsg }.

Definition set_phase (p : QPhase) (q : Request) : Request :=
  mkRequest (rq_endname q) (rq_svcMeth q) (rq_args q) p (rq_server q) (rq_ran q).

(** [ns_runs] records the handlers that ran: the request, the server, the reply. *)
Record NetState := mkNetState {
  ns_net : Network;
  ns_heap : gmap nat RpcServer;
  ns_app : App;
  ns_reqs : list Request;
  ns_runs : list (nat * nat * list byte);
  ns_loop : bool;                          (* the goroutine of MakeNetwork runs *)
  ns_fatal : bool                          (* the process has ended *)
}.

Inductive NLabel :=
| LAdmin (o : NetOp)
| LMakeEnd (endname : EN)
| LMakeServer (p : nat) (svcs : list Service) (* MakeServer and AddService *)
| LCall (endname : EN) (svcMeth : string) (args : list byte)
| LCallDone (endname : EN) (svcMeth : string) (args : list byte) (* Call after Cleanup *)
| LLoopExit
| LRead (i : nat)
| LStart (i : nat) (drop : bool)            (* the request is dropped if [drop] *)
| LRun (i : nat)                            (* the handler *)
| LReceive (i : nat)                        (* reply = <-ech *)
| LPoll (i : nat)                           (* 100 ms without a reply *)
| LFinish (i : nat) (drop : bool)           (* the last check, and the reply dropped *)
| LDeliver (i : nat).

Definition put_req (i : nat) (q : Request) (s : NetState) : NetState :=
  mkNetState (ns_net s) (ns_heap s) (ns_app s) (<[i := q]> (ns_reqs s)) (ns_runs s) (ns_loop s) (ns_fatal s).
Definition put_net (rn : Network) (s : NetState) : NetState :=
  mkNetState rn (ns_heap s) (ns_app s) (ns_reqs s) (ns_runs s) (ns_loop s) (ns_fatal s).
Definition exit_process (s : NetState) : NetState :=
  mkNetState (ns_net s) (ns_heap s) (ns_app s) (ns_reqs s) (ns_runs s) (ns_loop s) true.

(** Lines 208-225: what is read once, and whether the request goes on. *)
Definition process_read (rn : Network) (q : Request) : Request :=
  match ReadEndnameInfo rn (rq_endname q) with
  | (true, Some sn, Some srv, reliable, longreordering) => set_phase (QAccepted sn srv reliable longreordering) q
  | _ => set_phase (QSend failed) q
  end.

Definition process_start (drop : bool) (q : Request) : option Request :=
  match rq_phase q with
  | QAccepted sn srv reliable longreordering =>
      Some (if negb reliable && drop then set_phase (QSend failed) q
            else mkRequest (rq_endname q) (rq_svcMeth q) (rq_args q) (QWaiting sn srv reliable longreordering) (Some srv) None)
  | _ => None
  end.

Definition process_receive (q : Request) : option Request :=
  match rq_phase q, rq_ran q with
  | QWaiting sn srv reliable longreordering, Some r => Some (set_phase (QLooped sn srv reliable longreordering (Some r)) q)
  | _, _ => None
  end.

Definition process_poll (rn : Network) (q : Request) : option Request :=
  match rq_phase q with
  | QWaiting sn srv reliable longreordering =>
      Some (if IsServerDead rn (rq_endname q) sn srv then set_phase (QLooped sn srv reliable longreordering None) q else q)
  | _ => None
  end.

(** Lines 259-278; a reply that is delayed is delivered later, as every reply may be. *)
Definition process_finish (rn : Network) (drop : bool) (q : Request) : option Request :=
  match rq_phase q with
  | QLooped sn srv reliable longreordering replyOK =>
      Some (set_phase (QSend match replyOK with
                             | None => failed
                             | Some reply =>
                                 if IsServerDead rn (rq_endname q) sn srv then failed
                                 else if negb reliable && drop then failed
                                 else reply
                             end) q)
  | _ => None
  end.

Definition process_deliver (q : Request) : option Request :=
  match rq_phase q with QSend m => Some (set_phase (QDone m) q) | _ => None end.

Definition on_request (i : nat) (f : Request → option Request) (s : NetState) : option NetState :=
  q ← ns_reqs s !! i; q' ← f q; Some (put_req i q' s).

Definition run_handler (i : nat) (s : NetState) : option NetState :=
  q ← ns_reqs s !! i;
  p ← rq_server q;
  match rq_ran q with
  | Some _ => None
  | None =>
      rs ← ns_heap s !! p;
      Some match Server_dispatch rs (rq_svcMeth q) (rq_args q) (ns_app s) with
           | None => exit_process s
           | Some (r, rs', app') =>
               mkNetState (ns_net s) (<[p := rs']> (ns_heap s)) app'
                 (<[i := mkRequest (rq_endname q) (rq_svcMeth q) (rq_args q) (rq_phase q) (rq_server q) (Some r)]> (ns_reqs s))
                 (ns_runs s ++ [(i, p, rm_reply r)]) (ns_loop s) (ns_fatal s)
           end
  end.

Definition add_request (q : Request) (rn : Network) (s : NetState) : NetState :=
  mkNetState rn (ns_heap s) (ns_app s) (ns_reqs s ++ [q]) (ns_runs s) (ns_loop s) (ns_fatal s).

Definition nstep (l : NLabel) (s : NetState) : option NetState :=
  if ns_fatal s then None
  else
    match l with
    | LAdmin o => Some (put_net (apply_op o (ns_net s)) s)
    | LMakeEnd endname => Some match MakeEnd endname (ns_net s) with Some rn => put_net rn s | None => exit_process s end
    | LMakeServer p svcs =>
        match ns_heap s !! p with
        | Some _ => None
        | None => Some (mkNetState (ns_net s) (<[p := foldl (λ rs svc, AddService svc rs) MakeServer svcs]> (ns_heap s)) (ns_app s) (ns_reqs s) (ns_runs s) (ns_loop s) (ns_fatal s))
        end
    | LCall endname svcMeth args =>
        if ns_loop s then Some (add_request (mkRequest endname svcMeth args QStart None None) (count_rpc (ns_net s)) s) else None
    | LCallDone endname svcMeth args =>
        if nw_done (ns_net s) then Some (add_request (mkRequest endname svcMeth args (QDone failed) None None) (ns_net s) s) else None
    | LLoopExit =>
        if nw_done (ns_net s) then Some (mkNetState (ns_net s) (ns_heap s) (ns_app s) (ns_reqs s) (ns_runs s) false (ns_fatal s)) else None
    | LRead i => on_request i (λ q, match rq_phase q with QStart => Some (process_read (ns_net s) q) | _ => None end) s
    | LStart i drop => on_request i (process_start drop) s
    | LRun i => run_handler i s
    | LReceive i => on_request i process_receive s
    | LPoll i => on_request i (process_poll (ns_net s)) s
    | LFinish i drop => on_request i (process_finish (ns_net s) drop) s
    | LDeliver i => on_request i process_deliver s
    end.

Fixpoint nrun (ls : list NLabel) (s : NetState) : option NetState :=
  match ls with [] => Some s | l :: ls' => s' ← nstep l s; nrun ls' s' end.

Definition new_net (app : App) : NetState := mkNetState MakeNetwork ∅ app [] [] true false.

Definition GetCount (rn : Network) (heap : gmap nat RpcServer) (servername : SN) : option Z :=
  p ← server_of rn servername; rs_count <$> heap !! p.
Definition GetTotalCount (rn : Network) : Z := nw_count rn.

(** ** Every run *)
Definition runs_of (i : nat) (s : NetState) : list (nat * nat * list byte) := filter (λ e, e.1.1 = i) (ns_runs s).

(** What a request knows of its handler is what happened. *)
Definition recorded (i : nat) (q : Request) : list (nat * nat * list byte) :=
  match rq_server q, rq_ran q with Some p, Some r => [(i, p, rm_reply r)] | _, _ => [] end.

Definition phase_ok (q : Request) : Prop :=
  match rq_phase q with
  | QStart | QAccepted _ _ _ _ => rq_server q = None
  | QWaiting _ srv _ _ | QLooped _ srv _ _ None => rq_server q = Some srv
  | QLooped _ srv _ _ (Some r) => rq_server q = Some srv ∧ rq_ran q = Some r
  | QSend m | QDone m => rm_ok m = true → rq_ran q = Some m ∧ is_Some (rq_server q)
  end.

Definition req_ok (q : Request) : Prop :=
  phase_ok q ∧ (∀ r, rq_ran q = Some r → rm_ok r = true) ∧ (rq_server q = None → rq_ran q = None).

Definition net_ok (s : NetState) : Prop :=
  ∀ i, match ns_reqs s !! i with None => runs_of i s = [] | Some q => req_ok q ∧ runs_of i s = recorded i q end.

(** A step of a request that leaves its handler alone. *)
Lemma on_request_ok i f s s' : net_ok s → on_request i f s = Some s' →
  (∀ q q', req_ok q → f q = Some q' → req_ok q' ∧ recorded i q' = recorded i q) → net_ok s'.
Proof.
  intros Hok E Hf. unfold on_request in E. apply bind_Some in E as (q & Eq & E). apply bind_Some in E as (q' & Ef & [= <-]). intros j.
  specialize (Hok j) as Hj. cbn. unfold runs_of in *. cbn. destruct (decide (j = i)) as [->|Hne].
  - rewrite Eq in Hj. destruct Hj as [Hq Hr]. rewrite list_lookup_insert_eq by (by apply lookup_lt_Some in Eq).
    destruct (Hf q q' Hq Ef) as [? Hrec]. by rewrite Hrec.
  - by rewrite list_lookup_insert_ne.
Qed.

Lemma process_ok rn i q q' : req_ok q →
  (∃ drop, process_start drop q = Some q') ∨ process_receive q = Some q' ∨ process_poll rn q = Some q'
  ∨ (∃ drop, process_finish rn drop q = Some q') ∨ process_deliver q = Some q'
  ∨ (rq_phase q = QStart ∧ process_read rn q = q') →
  req_ok q' ∧ recorded i q' = recorded i q.
Proof.
  intros (Hp & Hr & Hs). unfold phase_ok in Hp.
  unfold process_start, process_receive, process_poll, process_finish, process_deliver, process_read, recorded, req_ok, phase_ok, set_phase.
  intros [(d & E)|[E|[E|[(d & E)|[E|[E0 E]]]]]]; destruct q as [en sm ar ph sv ran]; cbn in *;
    repeat case_match; simplify_eq; cbn in *; split_and!; try done; naive_solver.
Qed.
Lemma net_ok_same s s' : net_ok s → ns_reqs s' = ns_reqs s → ns_runs s' = ns_runs s → net_ok s'.
Proof. intros Hok E1 E2 i. specialize (Hok i). unfold runs_of in *. by rewrite E1, E2. Qed.

Lemma add_request_ok q rn s : net_ok s → req_ok q → rq_ran q = None → net_ok (add_request q rn s).
Proof.
  intros Hok Hq Hr i. specialize (Hok i). unfold runs_of in *. cbn. destruct (decide (i = length (ns_reqs s))) as [->|Hne].
  - rewrite list_lookup_middle by done. rewrite lookup_ge_None_2 in Hok by done. split; [done|]. rewrite Hok. unfold recorded. rewrite Hr.
    by destruct (rq_server q).
  - destruct (decide (i < length (ns_reqs s))%nat); [by rewrite lookup_app_l by lia|].
    rewrite lookup_ge_None_2 in Hok by lia. by rewrite lookup_ge_None_2 by (rewrite length_app; cbn; lia).
Qed.

Lemma dispatch_replies rs m a app r rs' app' : Server_dispatch rs m a app = Some (r, rs', app') →
  rm_ok r = true ∧ rs_services rs' = rs_services rs ∧ rs_count rs' = i64 (rs_count rs + 1).
Proof.
  unfold Server_dispatch, Service_dispatch. intros E. apply bind_Some in E as ([sn mn] & _ & E). apply bind_Some in E as (svc & _ & E).
  apply bind_Some in E as ([r1 app1] & E1 & [= <- <- <-]). apply bind_Some in E1 as (method & _ & E1).
  destruct (method a app) as [reply app2]. by injection E1 as <- <-.
Qed.

(** The handler of a request runs: the process ends, or the run is recorded. *)
Lemma run_handler_cases i s s' : run_handler i s = Some s' →
  s' = exit_process s
  ∨ ∃ q p r rs rs' app', ns_reqs s !! i = Some q ∧ rq_server q = Some p ∧ rq_ran q = None ∧ ns_heap s !! p = Some rs
    ∧ Server_dispatch rs (rq_svcMeth q) (rq_args q) (ns_app s) = Some (r, rs', app')
    ∧ s' = mkNetState (ns_net s) (<[p := rs']> (ns_heap s)) app'
             (<[i := mkRequest (rq_endname q) (rq_svcMeth q) (rq_args q) (rq_phase q) (Some p) (Some r)]> (ns_reqs s))
             (ns_runs s ++ [(i, p, rm_reply r)]) (ns_loop s) (ns_fatal s).
Proof.
  unfold run_handler. intros E. apply bind_Some in E as (q & Eq & E). apply bind_Some in E as (p & Ep & E).
  destruct (rq_ran q) eqn:Er; [done|]. apply bind_Some in E as (rs & Ers & [= E]).
  destruct (Server_dispatch rs (rq_svcMeth q) (rq_args q) (ns_app s)) as [[[r rs'] app']|] eqn:Ed; [|by left].
  right. exists q, p, r, rs, rs', app'. rewrite Ep in E. by rewrite <- E.
Qed.

Lemma run_handler_ok i s s' : net_ok s → run_handler i s = Some s' → net_ok s'.
Proof.
  intros Hok E. apply run_handler_cases in E as [->|(q & p & r & rs & rs' & app' & Eq & Ep & Er & Ers & Ed & ->)]; [done|].
  apply dispatch_replies in Ed as (Hr & _). intros j. specialize (Hok j). unfold runs_of in *. cbn. rewrite filter_app, filter_cons, filter_nil. cbn.
  destruct (decide (j = i)) as [->|Hne].
  - rewrite Eq in Hok. destruct Hok as [(Hp & Hr0 & Hs) Hrec]. rewrite list_lookup_insert_eq by (by apply lookup_lt_Some in Eq).
    rewrite decide_True by done. split.
    + split_and!; [|by intros r' [= <-]|done]. unfold phase_ok in *. cbn. destruct (rq_phase q); cbn in *; try congruence.
      * case_match; naive_solver congruence.
      * intros Hm. destruct (Hp Hm) as [? _]. congruence.
      * intros Hm. destruct (Hp Hm) as [? _]. congruence.
    + rewrite Hrec. unfold recorded. by rewrite Ep, Er.
  - rewrite list_lookup_insert_ne by done. rewrite decide_False by congruence. by rewrite app_nil_r.
Qed.

Lemma net_ok_step l s s' : net_ok s → nstep l s = Some s' → net_ok s'.
Proof.
  intros Hok. unfold nstep. destruct (ns_fatal s); [done|].
  destruct l as [o|e|p svcs|e m a|e m a| |i|i d|i|i|i|i d|i]; intros E.
  - injection E as <-. by apply (net_ok_same s).
  - injection E as <-. by destruct (MakeEnd e (ns_net s)); apply (net_ok_same s).
  - destruct (ns_heap s !! p); [done|]. injection E as <-. by apply (net_ok_same s).
  - destruct (ns_loop s); [|done]. injection E as <-. by apply add_request_ok.
  - destruct (nw_done (ns_net s)); [|done]. injection E as <-. by apply add_request_ok.
  - destruct (nw_done (ns_net s)); [|done]. injection E as <-. by apply (net_ok_same s).
  - apply (on_request_ok i _ s s' Hok E). intros q q' Hq Ef. destruct (rq_phase q) eqn:Ep; try done. injection Ef as <-.
    apply (process_ok (ns_net s)); [done|naive_solver].
  - apply (on_request_ok i _ s s' Hok E). intros q q' Hq Ef. apply (process_ok (ns_net s)); [done|naive_solver].
  - by apply (run_handler_ok i s).
  - apply (on_request_ok i _ s s' Hok E). intros q q' Hq Ef. apply (process_ok (ns_net s)); [done|naive_solver].
  - apply (on_request_ok i _ s s' Hok E). intros q q' Hq Ef. apply (process_ok (ns_net s)); [done|naive_solver].
  - apply (on_request_ok i _ s s' Hok E). intros q q' Hq Ef. apply (process_ok (ns_net s)); [done|naive_solver].
  - apply (on_request_ok i _ s s' Hok E). intros q q' Hq Ef. apply (process_ok (ns_net s)); [done|naive_solver].
Qed.

Lemma nrun_inv (P : NetState → Prop) ls s s' : (∀ l s s', l ∈ ls → P s → nstep l s = Some s' → P s') → P s → nrun ls s = Some s' → P s'.
Proof.
  revert s. induction ls as [|l ls IH]; intros s Hstep Hs; cbn; [by intros [= <-]|]. intros (s1 & E1 & E2)%bind_Some.
  apply (IH s1); [|apply (Hstep l s s1); [set_solver|done|done]|done]. intros l' s2 s3 Hl. apply Hstep. set_solver.
Qed.
(** *** Counters *)
Lemma i64_step z : i64 (i64 z + 1) = i64 (z + 1).
Proof. unfold i64. replace ((z + 2 ^ 63) mod 2 ^ 64 - 2 ^ 63 + 1 + 2 ^ 63) with ((z + 2 ^ 63) mod 2 ^ 64 + 1) by lia.
  rewrite Zplus_mod_idemp_l. do 2 f_equal. lia. Qed.
Lemma i32_step z : i32 (i32 z + 1) = i32 (z + 1).
Proof. unfold i32. replace ((z + 2 ^ 31) mod 2 ^ 32 - 2 ^ 31 + 1 + 2 ^ 31) with ((z + 2 ^ 31) mod 2 ^ 32 + 1) by lia.
  rewrite Zplus_mod_idemp_l. do 2 f_equal. lia. Qed.

Definition runs_at (p : nat) (s : NetState) : list (nat * nat * list byte) := filter (λ e, e.1.2 = p) (ns_runs s).

Definition counts_ok (s : NetState) : Prop :=
  ∀ p, match ns_heap s !! p with
       | None => runs_at p s = []
       | Some rs => rs_count rs = i64 (Z.of_nat (length (runs_at p s)))
       end.

Lemma on_request_same i f s s' : on_request i f s = Some s' →
  ns_net s' = ns_net s ∧ ns_heap s' = ns_heap s ∧ ns_runs s' = ns_runs s ∧ ns_fatal s' = ns_fatal s.
Proof. unfold on_request. intros E. apply bind_Some in E as (q & _ & E). by apply bind_Some in E as (q' & _ & [= <-]). Qed.

Lemma count_services svcs rs : rs_count (foldl (λ rs svc, AddService svc rs) rs svcs) = rs_count rs.
Proof. revert rs. induction svcs as [|svc svcs IH]; intros rs; [done|]. cbn. by rewrite IH. Qed.

Lemma counts_ok_step l s s' : counts_ok s → nstep l s = Some s' → counts_ok s'.
Proof.
  intros Hok. unfold nstep. destruct (ns_fatal s); [done|].
  assert (∀ s', ns_heap s' = ns_heap s → ns_runs s' = ns_runs s → counts_ok s') as Hsame.
  { intros s1 E1 E2 p. specialize (Hok p). unfold runs_at in *. by rewrite E1, E2. }
  destruct l as [o|e|p svcs|e m a|e m a| |i|i d|i|i|i|i d|i]; intros E;
    try by (apply on_request_same in E as (_ & ? & ? & _); apply Hsame).
  - injection E as <-. by apply Hsame.
  - injection E as <-. by destruct (MakeEnd e (ns_net s)); apply Hsame.
  - destruct (ns_heap s !! p) eqn:Ep; [done|]. injection E as <-. intros p'. specialize (Hok p'). unfold runs_at in *. cbn.
    destruct (decide (p' = p)) as [->|Hne]; [|by rewrite lookup_insert_ne].
    rewrite Ep in Hok. rewrite lookup_insert_eq, count_services, Hok. done.
  - destruct (ns_loop s); [|done]. injection E as <-. by apply Hsame.
  - destruct (nw_done (ns_net s)); [|done]. injection E as <-. by apply Hsame.
  - destruct (nw_done (ns_net s)); [|done]. injection E as <-. by apply Hsame.
  - apply run_handler_cases in E as [->|(q & p & r & rs & rs' & app' & Eq & Ep & Er & Ers & Ed & ->)]; [by apply Hsame|].
    apply dispatch_replies in Ed as (_ & _ & Hc). intros p'. specialize (Hok p'). unfold runs_at in *. cbn.
    rewrite filter_app, filter_cons, filter_nil. cbn. destruct (decide (p' = p)) as [->|Hne].
    + rewrite Ers in Hok. rewrite lookup_insert_eq, Hc, Hok, i64_step. rewrite decide_True by done. rewrite length_app. cbn. f_equal. lia.
    + rewrite lookup_insert_ne by done. rewrite decide_False by congruence. by rewrite app_nil_r.
Qed.

Definition is_call (l : NLabel) : bool := match l with LCall _ _ _ => true | _ => false end.

Lemma total_step l s s' : nstep l s = Some s' → nw_count (ns_net s') = if is_call l then i32 (nw_count (ns_net s) + 1) else nw_count (ns_net s).
Proof.
  unfold nstep. destruct (ns_fatal s); [done|].
  destruct l as [o|e|p svcs|e m a|e m a| |i|i d|i|i|i|i d|i]; intros E; cbn [is_call];
    try by (apply on_request_same in E as (-> & _)).
  - injection E as <-. by destruct o.
  - injection E as <-. unfold MakeEnd. by case_decide.
  - destruct (ns_heap s !! p); [done|]. by injection E as <-.
  - destruct (ns_loop s); [|done]. by injection E as <-.
  - destruct (nw_done (ns_net s)); [|done]. by injection E as <-.
  - destruct (nw_done (ns_net s)); [|done]. by injection E as <-.
  - by apply run_handler_cases in E as [->|(q & p & r & rs & rs' & app' & _ & _ & _ & _ & _ & ->)].
Qed.

Lemma total_run ls s s' k : nw_count (ns_net s) = i32 k → nrun ls s = Some s' →
  nw_count (ns_net s') = i32 (k + Z.of_nat (length (filter (λ l, is_call l = true) ls))).
Proof.
  revert s k. induction ls as [|l ls IH]; intros s k Hk; cbn [nrun].
  - intros [= <-]. rewrite Hk. f_equal. cbn. lia.
  - intros (s1 & E1 & E2)%bind_Some. rewrite filter_cons. apply total_step in E1. destruct (is_call l).
    + rewrite decide_True by done. rewrite Hk, i32_step in E1. rewrite (IH s1 (k + 1) E1 E2). f_equal. cbn [length]. lia.
    + rewrite decide_False by done. rewrite Hk in E1. apply (IH s1 k E1 E2).
Qed.

Lemma net_ok_new app : net_ok (new_net app).
Proof. by intros i. Qed.

(** C16. Whatever the network drops, delays and reorders, and whichever servers are
    deleted, the handler of a call runs once at most, and a call that returns
    true got the reply of the one run of its handler.  A call that returns false
    says nothing: its handler may have run, or run later.  The counters are the
    numbers of handlers run and of calls made. *)
Theorem call_outcome ls app s : nrun ls (new_net app) = Some s →
  (∀ i q, ns_reqs s !! i = Some q → (length (runs_of i s) ≤ 1)%nat
    ∧ ∀ r, rq_phase q = QDone (mkReplyMsg true r) → ∃ p, rq_server q = Some p ∧ runs_of i s = [(i, p, r)])
  ∧ (∀ p rs, ns_heap s !! p = Some rs → rs_count rs = i64 (Z.of_nat (length (runs_at p s))))
  ∧ GetTotalCount (ns_net s) = i32 (Z.of_nat (length (filter (λ l, is_call l = true) ls))).
Proof.
  intros E. pose proof (nrun_inv net_ok ls _ s (λ l s s' _, net_ok_step l s s') (net_ok_new app) E) as Hok.
  assert (counts_ok (new_net app)) as Hc0 by (intros p; cbn; by rewrite lookup_empty).
  pose proof (nrun_inv counts_ok ls _ s (λ l s s' _, counts_ok_step l s s') Hc0 E) as Hc. split_and!.
  - intros i q Hq. specialize (Hok i). rewrite Hq in Hok. destruct Hok as [(Hp & _) ->]. split.
    + unfold recorded. destruct (rq_server q), (rq_ran q); cbn; lia.
    + intros r Er. unfold phase_ok in Hp. rewrite Er in Hp. destruct (Hp eq_refl) as [Hran [p Hs]]. exists p. unfold recorded. by rewrite Hs, Hran.
  - intros p rs Hrs. specialize (Hc p). by rewrite Hrs in Hc.
  - unfold GetTotalCount. by rewrite (total_run ls (new_net app) s 0 eq_refl E).
Qed.
(** *** Deleted servers *)
Definition positive (q : Request) : Prop := ∃ m, rm_ok m = true ∧ (rq_phase q = QSend m ∨ rq_phase q = QDone m).

Definition adds (p : nat) (l : NLabel) : bool := match l with LAdmin (OAddServer _ p') => bool_decide (p' = p) | _ => false end.

Definition gone (p : nat) (s : NetState) : Prop := ∀ sn, server_of (ns_net s) sn ≠ Some p.

Lemma server_of_insert rn sn x sn' : server_of (set_servers (<[sn := x]> (nw_servers rn)) rn) sn' = if decide (sn' = sn) then x else server_of rn sn'.
Proof. unfold server_of. cbn. case_decide; [subst; by rewrite lookup_insert_eq|by rewrite lookup_insert_ne]. Qed.

Lemma gone_step p l s s' : gone p s → adds p l = false → nstep l s = Some s' → gone p s'.
Proof.
  intros Hg Ha. unfold nstep. destruct (ns_fatal s); [done|].
  destruct l as [o|e|p' svcs|e m a|e m a| |i|i d|i|i|i|i d|i]; intros E;
    try by (apply on_request_same in E as (E & _); unfold gone; rewrite E).
  - injection E as <-. intros sn. specialize (Hg sn). cbn. destruct o; try done.
    + cbn [apply_op]. unfold AddServer. rewrite server_of_insert. case_decide; [|done]. cbn in Ha. apply bool_decide_eq_false in Ha. congruence.
    + cbn [apply_op]. unfold DeleteServer. rewrite server_of_insert. by case_decide.
  - injection E as <-. unfold MakeEnd. by case_decide.
  - destruct (ns_heap s !! p'); [done|]. by injection E as <-.
  - destruct (ns_loop s); [|done]. by injection E as <-.
  - destruct (nw_done (ns_net s)); [|done]. by injection E as <-.
  - destruct (nw_done (ns_net s)); [|done]. by injection E as <-.
  - by apply run_handler_cases in E as [->|(q & p0 & r & rs & rs' & app' & _ & _ & _ & _ & _ & ->)].
Qed.

(** The request [i] is not answered by [p]. *)
Definition silent (p i : nat) (s : NetState) : Prop := ∀ q, ns_reqs s !! i = Some q → rq_server q = Some p → ¬ positive q.

Lemma silent_request p i j f s s' : silent p i s → on_request j f s = Some s' →
  (∀ q q', ns_reqs s !! j = Some q → f q = Some q' → rq_server q' = Some p → positive q' → rq_server q = Some p ∧ positive q) → silent p i s'.
Proof.
  intros Hs E Hf. unfold on_request in E. apply bind_Some in E as (q & Eq & E). apply bind_Some in E as (q' & Ef & [= <-]). intros x. cbn.
  destruct (decide (i = j)) as [->|Hne]; [|rewrite list_lookup_insert_ne by done; apply Hs].
  rewrite list_lookup_insert_eq by (by apply lookup_lt_Some in Eq). intros [= <-] Hsv Hpos.
  destruct (Hf q q' Eq Ef Hsv Hpos) as [? ?]. by apply (Hs q Eq).
Qed.

Lemma silent_add p i q rn s : silent p i s → rq_server q = None → silent p i (add_request q rn s).
Proof.
  intros Hs Hq x. cbn. rewrite lookup_app. destruct (ns_reqs s !! i) as [y|] eqn:E; [intros [= <-]; by apply Hs|].
  intros Hx%list_lookup_singleton_Some. destruct Hx as [_ <-]. by rewrite Hq.
Qed.

(** No step of a request but the last check makes a reply positive. *)
Lemma positive_before rn q q' : 
  (∃ drop, process_start drop q = Some q') ∨ process_receive q = Some q' ∨ process_poll rn q = Some q' ∨ process_deliver q = Some q'
  ∨ (rq_phase q = QStart ∧ process_read rn q = q') →
  positive q' → rq_server q' = rq_server q ∧ positive q.
Proof.
  unfold process_start, process_receive, process_poll, process_deliver, process_read, set_phase, positive.
  intros [(d & E)|[E|[E|[E|[E0 E]]]]] (m & Hm & Hph); destruct q as [en sm ar ph sv ran]; cbn in *;
    repeat case_match; simplify_eq; cbn in *; destruct Hph; simplify_eq; (split; [done|exists m; auto]).
Qed.

Lemma finish_gone p rn drop q q' : phase_ok q → (∀ sn, server_of rn sn ≠ Some p) → rq_server q = Some p →
  process_finish rn drop q = Some q' → ¬ positive q'.
Proof.
  unfold phase_ok, process_finish. intros Hp Hg Hq E (m & Hm & Hph). destruct (rq_phase q) as [| | |sn srv rel lr [r|]| |]; try done;
    injection E as <-; cbn in Hph.
  - destruct Hp as [Hsv _]. assert (srv = p) as -> by congruence. unfold IsServerDead in Hph. rewrite (bool_decide_true (server_of rn sn ≠ Some p)) in Hph by apply Hg.
    rewrite orb_true_r in Hph. by destruct Hph; simplify_eq.
  - by destruct Hph; simplify_eq.
Qed.

Lemma silent_step p i l s s' : net_ok s → gone p s → silent p i s → nstep l s = Some s' → silent p i s'.
Proof.
  intros Hok Hg Hs. unfold nstep. destruct (ns_fatal s); [done|].
  assert (∀ j f, on_request j f s = Some s' → (∀ q q', f q = Some q' → positive q' → rq_server q' = rq_server q ∧ positive q) → silent p i s') as Hreq.
  { intros j f E Hf. apply (silent_request p i j f s s' Hs E). intros q q' _ Ef Hsv Hpos. destruct (Hf q q' Ef Hpos) as [? ?]. by split; [congruence|]. }
  destruct l as [o|e|p' svcs|e m a|e m a| |j|j d|j|j|j|j d|j]; intros E;
    try by (apply (Hreq j _ E); intros q q' Ef; apply (positive_before (ns_net s)); eauto 10).
  - by injection E as <-.
  - injection E as <-. by destruct (MakeEnd e (ns_net s)).
  - destruct (ns_heap s !! p'); [done|]. by injection E as <-.
  - destruct (ns_loop s); [|done]. injection E as <-. by apply silent_add.
  - destruct (nw_done (ns_net s)); [|done]. injection E as <-. by apply silent_add.
  - destruct (nw_done (ns_net s)); [|done]. by injection E as <-.
  - apply (Hreq j _ E). intros q q' Ef. destruct (rq_phase q) eqn:Ep; try done. injection Ef as <-. apply (positive_before (ns_net s)). eauto 10.
  - apply run_handler_cases in E as [->|(q & p0 & r & rs & rs' & app' & Eq & Ep & Er & Ers & _ & ->)]; [done|]. intros x. cbn.
    destruct (decide (i = j)) as [->|Hne]; [|rewrite list_lookup_insert_ne by done; apply Hs].
    rewrite list_lookup_insert_eq by (by apply lookup_lt_Some in Eq). intros [= <-] [= ->] (m & Hm & Hph).
    apply (Hs q Eq Ep). by exists m.
  - apply (silent_request p i j _ s s' Hs E). intros q q' Hq Ef Hsv Hpos. exfalso. specialize (Hok j). rewrite Hq in Hok. destruct Hok as [(Hp & _) _].
    refine (finish_gone p (ns_net s) d q q' Hp Hg _ Ef Hpos). unfold process_finish in Ef. by destruct (rq_phase q); try done; injection Ef as <-.
Qed.

(** C17. Once a server has been deleted (and the same server is not added again), a
    call that was not answered before gets no positive reply from it, even if the
    handler finishes: a client never hears of a change that the server makes after
    its persistent state was taken over. *)
Theorem deleted_server_silent ls1 ls2 app s1 s2 p i q r : nrun ls1 (new_net app) = Some s1 → nrun ls2 s1 = Some s2 →
  (∀ sn, server_of (ns_net s1) sn ≠ Some p) → Forall (λ l, adds p l = false) ls2 →
  (∀ q1, ns_reqs s1 !! i = Some q1 → ¬ positive q1) →
  ns_reqs s2 !! i = Some q → rq_phase q = QDone (mkReplyMsg true r) → rq_server q ≠ Some p.
Proof.
  intros E1 E2 Hg Hadd Hneg Hq Hph Hsv. pose proof (nrun_inv net_ok ls1 _ s1 (λ l s s' _, net_ok_step l s s') (net_ok_new app) E1) as Hok.
  pose proof (nrun_inv (λ s, net_ok s ∧ gone p s ∧ silent p i s) ls2 s1 s2) as Hinv. destruct Hinv as (_ & _ & Hs); [| |done|].
  - intros l s s' Hl (H1 & H2 & H3) E. rewrite Forall_forall in Hadd. split_and!; [by apply (net_ok_step l s)| |by apply (silent_step p i l s)].
    apply (gone_step p l s); [done|by apply Hadd|done].
  - split_and!; [done|done|]. intros q1 Hq1 _. by apply Hneg.
  - apply (Hs q Hq Hsv). exists (mkReplyMsg true r). auto.
Qed.
(** *** A network that is left alone *)
Definition undisturbed (l : NLabel) : bool := match l with LAdmin _ | LMakeEnd _ => false | _ => true end.

Section reliable.
Context (e : EN) (sn : SN) (p i : nat) (svcs : gmap string Service) (m : string) (svc meth : string) (service : Service) (f : Method).
Context (Hm : split_dot m = Some (svc, meth)) (Hsvc : svcs !! svc = Some service) (Hf : sc_methods service !! meth = Some f).

(** The end is connected to the server, which has the method. *)
Record connected_to (s : NetState) : Prop := {
  ct_reliable : nw_reliable (ns_net s) = true;
  ct_enabled : is_enabled (ns_net s) e = true;
  ct_connected : nw_connections (ns_net s) !! e = Some (Some sn);
  ct_server : server_of (ns_net s) sn = Some p;
  ct_services : ∃ rs, ns_heap s !! p = Some rs ∧ rs_services rs = svcs
}.

(** The call [i] can only succeed. *)
Definition succeeding (q : Request) : Prop :=
  rq_endname q = e ∧ rq_svcMeth q = m ∧
  match rq_phase q with
  | QStart => True
  | QAccepted sn' srv rel _ | QWaiting sn' srv rel _ => sn' = sn ∧ srv = p ∧ rel = true
  | QLooped sn' srv rel _ r => sn' = sn ∧ srv = p ∧ rel = true ∧ is_Some r
  | QSend r | QDone r => rm_ok r = true ∧ rq_server q = Some p
  end.

Definition on_its_way (s : NetState) : Prop := net_ok s ∧ connected_to s ∧ ∃ q, ns_reqs s !! i = Some q ∧ succeeding q.

Lemma connected_same s s' : connected_to s → ns_net s' = ns_net s → ns_heap s' = ns_heap s → connected_to s'.
Proof. intros [? ? ? ? ?] E1 E2. by split; rewrite ?E1, ?E2. Qed.

Lemma alive s : connected_to s → IsServerDead (ns_net s) e sn p = false.
Proof. intros [_ H1 _ H2 _]. unfold IsServerDead. rewrite H1, bool_decide_false; [done|]. intros Hne. by apply Hne. Qed.

Lemma process_succeeds s q q' drop : connected_to s → req_ok q → succeeding q →
  process_start drop q = Some q' ∨ process_receive q = Some q' ∨ process_poll (ns_net s) q = Some q'
  ∨ process_finish (ns_net s) drop q = Some q' ∨ process_deliver q = Some q'
  ∨ (rq_phase q = QStart ∧ process_read (ns_net s) q = q') → succeeding q'.
Proof.
  intros Hc (Hp & Hr & _) (He & Hme & Hq). pose proof (alive s Hc) as Ha. destruct Hc as [C1 C2 C3 C4 _].
  unfold process_start, process_receive, process_poll, process_finish, process_deliver, process_read, ReadEndnameInfo, succeeding, set_phase, phase_ok in *.
  destruct q as [en sm ar ph sv ran]; cbn in *. subst en sm. rewrite C3. cbn [mjoin option_join]. rewrite C1, C2, C4.
  intros [E|[E|[E|[E|[E|[E0 E]]]]]]; repeat case_match; simplify_eq; cbn in *; destruct_and?; subst; try congruence; try done; naive_solver.
Qed.

Lemma way_request j g s s' : on_its_way s → net_ok s' → on_request j g s = Some s' →
  (∀ q q', req_ok q → succeeding q → g q = Some q' → succeeding q') → on_its_way s'.
Proof.
  intros (Hok & Hc & q & Hq & Hs) Hok' E Hg. pose proof (on_request_same j g s s' E) as (E1 & E2 & _). unfold on_request in E.
  apply bind_Some in E as (q0 & Eq & E). apply bind_Some in E as (q' & Ef & [= <-]).
  split_and!; [done|by apply (connected_same s)|]. cbn. destruct (decide (j = i)) as [->|Hne].
  - simplify_eq. exists q'. rewrite list_lookup_insert_eq by (by apply lookup_lt_Some in Hq). split; [done|]. apply (Hg q); [|done|done].
    specialize (Hok i). rewrite Hq in Hok. apply Hok.
  - exists q. by rewrite list_lookup_insert_ne.
Qed.

Lemma way_step l s s' : undisturbed l = true → on_its_way s → nstep l s = Some s' → on_its_way s'.
Proof.
  intros Hl Hw E. pose proof (net_ok_step l s s' (proj1 Hw) E) as Hok'. revert E. unfold nstep. destruct (ns_fatal s); [done|].
  pose proof Hw as (Hok & Hc & q & Hq & Hs).
  assert (∀ x, ns_net x = ns_net s → ns_heap x = ns_heap s → ns_reqs x = ns_reqs s → net_ok x → on_its_way x) as Hsame.
  { intros x E1 E2 E3 Hx. split_and!; [done|by apply (connected_same s)|]. exists q. by rewrite E3. }
  destruct l as [o|en|p' ss|en m' a|en m' a| |j|j d|j|j|j|j d|j]; try done; intros E.
  all: try by (apply (way_request j _ s s' Hw Hok' E); intros x x' Hx Hsx Ef; apply (process_succeeds s x x' d Hc Hx Hsx); eauto 10).
  all: try by (apply (way_request j _ s s' Hw Hok' E); intros x x' Hx Hsx Ef; apply (process_succeeds s x x' false Hc Hx Hsx); eauto 10).
  - destruct (ns_heap s !! p') eqn:Ep; [done|]. injection E as <-. split_and!; [done| |by exists q]. destruct Hc as [? ? ? ? (rs & Hrs & Hss)].
    split; try done. exists rs. cbn. rewrite lookup_insert_ne by congruence. done.
  - destruct (ns_loop s); [|done]. injection E as <-. split_and!; [done|by destruct Hc|]. exists q. cbn. split; [by apply lookup_app_l_Some|done].
  - destruct (nw_done (ns_net s)); [|done]. injection E as <-. split_and!; [done|by destruct Hc|]. exists q. cbn. split; [by apply lookup_app_l_Some|done].
  - destruct (nw_done (ns_net s)); [|done]. injection E as <-. by apply Hsame.
  - apply (way_request j _ s s' Hw Hok' E). intros x x' Hx Hsx Ef. destruct (rq_phase x) eqn:Ep; try done. injection Ef as <-.
    apply (process_succeeds s x _ false Hc Hx Hsx). eauto 10.
  - apply run_handler_cases in E as [->|(q0 & p0 & r & rs & rs' & app' & Eq & Ep & Er & Ers & Ed & ->)]; [by apply Hsame|].
    apply dispatch_replies in Ed as (_ & Hsv & _). split_and!; [done| |].
    + destruct Hc as [? ? ? ? (rs0 & Hrs & Hss)]. split; try done. cbn. destruct (decide (p0 = p)) as [->|Hne].
      * exists rs'. rewrite lookup_insert_eq. split; [done|]. congruence.
      * exists rs0. by rewrite lookup_insert_ne.
    + cbn. destruct (decide (j = i)) as [->|Hne]; [|exists q; by rewrite list_lookup_insert_ne].
      simplify_eq. rewrite list_lookup_insert_eq by (by apply lookup_lt_Some in Hq). eexists. split; [done|].
      destruct Hs as (? & ? & Hs). split_and!; [done|done|]. cbn. rewrite <- Ep. exact Hs.
Qed.
(** How many steps the call is away from its end. *)
Definition steps_left (q : Request) : nat :=
  match rq_phase q with
  | QStart => 6
  | QAccepted _ _ _ _ => 5
  | QWaiting _ _ _ _ => match rq_ran q with None => 4 | Some _ => 3 end
  | QLooped _ _ _ _ _ => 2
  | QSend _ => 1
  | QDone _ => 0
  end.

Lemma dispatch_runs rs a app : rs_services rs = svcs → ∃ x, Server_dispatch rs m a app = Some x.
Proof using Hm Hsvc Hf.
  intros E. unfold Server_dispatch, Service_dispatch. rewrite Hm. cbn. rewrite E, Hsvc. cbn. rewrite Hf. cbn. destruct (f a app). by eexists.
Qed.

Lemma advance s q k : on_its_way s → ns_fatal s = false → ns_reqs s !! i = Some q → steps_left q = S k →
  ∃ l s' q', undisturbed l = true ∧ nstep l s = Some s' ∧ ns_fatal s' = false ∧ ns_reqs s' !! i = Some q' ∧ steps_left q' = k.
Proof using Hm Hsvc Hf.
  intros (Hok & Hc & q1 & Hq1 & Hs) Hfatal Hq Hk. assert (q1 = q) as -> by congruence. clear Hq1. specialize (Hok i). rewrite Hq in Hok. destruct Hok as [(Hp & Hr & _) _].
  assert (i < length (ns_reqs s))%nat as Hi by (by apply lookup_lt_Some in Hq).
  assert (∀ l g q', (∀ x, nstep l x = if ns_fatal x then None else on_request i (g (ns_net x)) x) → undisturbed l = true → g (ns_net s) q = Some q' → steps_left q' = k →
    ∃ l s' q', undisturbed l = true ∧ nstep l s = Some s' ∧ ns_fatal s' = false ∧ ns_reqs s' !! i = Some q' ∧ steps_left q' = k) as Hreq.
  { intros l g q' El Hu Eg Hk'. exists l, (put_req i q' s), q'. rewrite El, Hfatal. unfold on_request. rewrite Hq. cbn. rewrite Eg.
    split_and!; [done|done|done|by rewrite list_lookup_insert_eq|done]. }
  destruct Hs as (He & Hme & Hs). unfold steps_left, phase_ok in *. destruct (rq_phase q) as [|sn' srv rel lr|sn' srv rel lr|sn' srv rel lr r|r|r] eqn:Ep.
  - eapply (Hreq (LRead i) (λ rn q, match rq_phase q with QStart => Some (process_read rn q) | _ => None end)); [done|done|by rewrite Ep|].
    unfold process_read, ReadEndnameInfo. destruct Hc as [C1 C2 C3 C4 _]. rewrite He, C3. cbn [mjoin option_join]. rewrite C2, C4. cbn. lia.
  - destruct Hs as (-> & -> & ->). eapply (Hreq (LStart i false) (λ _, process_start false)); [done|done|by unfold process_start; rewrite Ep|]. cbn. lia.
  - destruct (rq_ran q) as [r|] eqn:Er.
    + eapply (Hreq (LReceive i) (λ _, process_receive)); [done|done|by unfold process_receive; rewrite Ep, Er|]. cbn. lia.
    + destruct Hs as (-> & -> & ->). destruct (ct_services s Hc) as (rs & Hrs & Hss).
      destruct (dispatch_runs rs (rq_args q) (ns_app s) Hss) as [[[r rs'] app'] Ed]. 
      set (q' := mkRequest (rq_endname q) (rq_svcMeth q) (rq_args q) (rq_phase q) (rq_server q) (Some r)).
      exists (LRun i), (mkNetState (ns_net s) (<[p := rs']> (ns_heap s)) app' (<[i := q']> (ns_reqs s)) (ns_runs s ++ [(i, p, rm_reply r)])
        (ns_loop s) (ns_fatal s)), q'. split_and!; [done| |done|by apply list_lookup_insert_eq|].
      * unfold nstep. rewrite Hfatal. unfold run_handler. rewrite Hq. cbn. unfold q'. rewrite Hp. cbn. rewrite Er, Hrs. cbn. by rewrite Hme, Ed, Hfatal.
      * cbn. rewrite Ep. lia.
  - eapply (Hreq (LFinish i false) (λ rn, process_finish rn false)); [done|done|by unfold process_finish; rewrite Ep|]. cbn. lia.
  - eapply (Hreq (LDeliver i) (λ _, process_deliver)); [done|done|by unfold process_deliver; rewrite Ep|]. cbn. lia.
  - lia.
Qed.

Lemma completes k s q : on_its_way s → ns_fatal s = false → ns_reqs s !! i = Some q → steps_left q = k →
  ∃ ls s' q' r, length ls = k ∧ nrun ls s = Some s' ∧ ns_reqs s' !! i = Some q' ∧ rq_phase q' = QDone (mkReplyMsg true r) ∧ runs_of i s' = [(i, p, r)].
Proof using Hm Hsvc Hf.
  revert s q. induction k as [|k IH]; intros s q Hw Hfatal Hq Hk.
  - exists []. cbn. destruct Hw as (Hok & _ & q1 & Hq1 & _ & _ & Hs). assert (q1 = q) as -> by congruence. specialize (Hok i). rewrite Hq in Hok.
    destruct Hok as [(Hp & _) Hrec]. unfold steps_left, phase_ok in *. destruct (rq_phase q) as [| | | | |[ok r]] eqn:Ep; try done.
    { by destruct (rq_ran q). }
    destruct Hs as [Hr Hs]. cbn in Hr. subst ok. destruct (Hp eq_refl) as [Hran _]. exists s, q, r. split_and!; try done.
    rewrite Hrec. unfold recorded. by rewrite Hs, Hran.
  - destruct (advance s q k Hw Hfatal Hq Hk) as (l & s1 & q1 & Hl & E1 & Hf1 & Hq1 & Hk1).
    destruct (IH s1 q1 (way_step l s s1 Hl Hw E1) Hf1 Hq1 Hk1) as (ls & s' & q' & r & Hlen & E & H').
    exists (l :: ls), s', q', r. cbn. rewrite E1. cbn. split_and!; [lia|done|apply H'..].
Qed.
End reliable.

(** C20. On a reliable network that is left alone, a call through an enabled end that
    is connected to a server with that method succeeds: whatever the steps of this
    and of other calls so far, it is never answered with false, and at most six
    more steps of its own end it with the reply of its handler. *)
Theorem reliable_call ls0 app ls s1 s2 e sn p rs m svc meth service f i q :
  nrun ls0 (new_net app) = Some s1 → ns_reqs s1 !! i = Some q → rq_endname q = e → rq_svcMeth q = m → rq_phase q = QStart →
  split_dot m = Some (svc, meth) → ns_heap s1 !! p = Some rs → rs_services rs !! svc = Some service → sc_methods service !! meth = Some f →
  nw_reliable (ns_net s1) = true → is_enabled (ns_net s1) e = true → nw_connections (ns_net s1) !! e = Some (Some sn) →
  server_of (ns_net s1) sn = Some p →
  Forall (λ l, undisturbed l = true) ls → nrun ls s1 = Some s2 → ns_fatal s2 = false →
  ∃ ls' s3 q' r, (length ls' ≤ 6)%nat ∧ nrun ls' s2 = Some s3 ∧ ns_reqs s3 !! i = Some q'
    ∧ rq_phase q' = QDone (mkReplyMsg true r) ∧ runs_of i s3 = [(i, p, r)].
Proof.
  intros E0 Hq He Hme Hph Hm Hrs Hsvc Hf H1 H2 H3 H4 Hls E Hfatal.
  pose proof (nrun_inv net_ok ls0 _ s1 (λ l s s' _, net_ok_step l s s') (net_ok_new app) E0) as Hok.
  assert (on_its_way e sn p i (rs_services rs) m s2) as Hw.
  { apply (nrun_inv (on_its_way e sn p i (rs_services rs) m) ls s1 s2); [| |done].
    - intros l s s' Hl. rewrite Forall_forall in Hls. by apply way_step, Hls.
    - split_and!; [done|split; eauto|]. exists q. split; [done|]. unfold succeeding. by rewrite Hph. }
  destruct Hw as (Hok2 & Hc & q2 & Hq2 & Hs2).
  destruct (completes e sn p i (rs_services rs) m svc meth service f Hm Hsvc Hf (steps_left q2) s2 q2) as (ls' & s3 & q' & r & Hlen & Hrest); try done.
  { split_and!; [done|done|by exists q2]. }
  exists ls', s3, q', r. split_and!; try apply Hrest. rewrite Hlen. unfold steps_left. destruct (rq_phase q2); try lia. destruct (rq_ran q2); lia.
Qed.
End servers.

(** ** A counter *)
Definition inc_method : MethodInfo (App := nat) := mkMethodInfo "Inc" "" 3 true 0 (λ _ n, ([x01], S n)).
Definition hidden_method : MethodInfo (App := nat) := mkMethodInfo "reset" "counter" 3 true 0 (λ _ _, ([], 0%nat)).
Definition counter_service : Service (App := nat) := MakeService "Counter" [inc_method; hidden_method].

Abbreviation CounterNet := (NetState (App := nat) (EN := string) (SN := Z)).
Abbreviation CounterLabel := (NLabel (App := nat) (EN := string) (SN := Z)).

Definition setup : list CounterLabel :=
  [LMakeServer 0 [counter_service]; LMakeEnd "e"; LAdmin (OConnect "e" 7); LAdmin (OAddServer 7 0); LAdmin (OEnable "e" true)].
Definition one_call : list CounterLabel := [LCall "e" "Counter.Inc" []; LRead 0; LStart 0 false].
Definition rest_of (i : nat) : list CounterLabel := [LRun i; LReceive i; LFinish i false; LDeliver i].

Definition net_after (ls : list CounterLabel) : CounterNet := default (new_net 0%nat) (nrun ls (new_net 0%nat)).
Definition phase_at (s : CounterNet) (i : nat) : option (QPhase (SN := Z)) := rq_phase <$> ns_reqs s !! i.

Definition answered : list CounterLabel := setup ++ one_call ++ rest_of 0.

Lemma call_outcome_witness :
  (∀ i q, ns_reqs (net_after answered) !! i = Some q → (length (runs_of i (net_after answered)) ≤ 1)%nat
    ∧ ∀ r, rq_phase q = QDone (mkReplyMsg true r) → ∃ p, rq_server q = Some p ∧ runs_of i (net_after answered) = [(i, p, r)])
  ∧ (∀ p rs, ns_heap (net_after answered) !! p = Some rs → rs_count rs = i64 (Z.of_nat (length (runs_at p (net_after answered)))))
  ∧ GetTotalCount (ns_net (net_after answered)) = i32 1.
Proof. apply (call_outcome answered 0%nat (net_after answered)). vm_compute. reflexivity. Defined.

Example counter_counts : phase_at (net_after answered) 0 = Some (QDone (mkReplyMsg true [x01])) ∧ ns_app (net_after answered) = 1%nat.
Proof. split; vm_compute; reflexivity. Qed.

(** The server is replaced while its handler runs: the call fails although the
    handler ran, and the next call is answered by the new server. *)
Definition replaced : list CounterLabel := setup ++ one_call ++ [LAdmin (ODeleteServer 7)].
Definition afterwards : list CounterLabel :=
  [LMakeServer 1 [counter_service]; LAdmin (OAddServer 7 1)] ++ rest_of 0 ++ [LCall "e" "Counter.Inc" []; LRead 1; LStart 1 false] ++ rest_of 1.

Example replaced_while_running :
  phase_at (net_after (replaced ++ afterwards)) 0 = Some (QDone failed) ∧ phase_at (net_after (replaced ++ afterwards)) 1 = Some (QDone (mkReplyMsg true [x01]))
  ∧ ns_app (net_after (replaced ++ afterwards)) = 2%nat.
Proof. split_and!; vm_compute; reflexivity. Qed.

Definition request_at (s : CounterNet) (i : nat) : Request (EN := string) (SN := Z) :=
  default (mkRequest "" "" [] QStart None None) (ns_reqs s !! i).

Lemma deleted_server_silent_witness : rq_server (request_at (net_after (replaced ++ afterwards)) 1) ≠ Some 0%nat.
Proof.
  apply (deleted_server_silent replaced afterwards 0%nat (net_after replaced) (net_after (replaced ++ afterwards)) 0 1
    (request_at (net_after (replaced ++ afterwards)) 1) [x01]).
  - vm_compute. reflexivity.
  - vm_compute. reflexivity.
  - intros sn. destruct (decide (sn = 7)) as [->|Hne]; [vm_compute; discriminate|].
    unfold server_of. replace (nw_servers (ns_net (net_after replaced))) with ({[7 := None]} : gmap Z (option nat)) by (vm_compute; reflexivity).
    by rewrite lookup_singleton_ne.
  - repeat constructor.
  - intros q1 E. vm_compute in E. discriminate.
  - vm_compute. reflexivity.
  - vm_compute. reflexivity.
Defined.

Lemma reliable_call_witness : ∃ ls' s3 q' r, (length ls' ≤ 6)%nat ∧ nrun ls' (net_after (setup ++ take 1 one_call)) = Some s3 ∧ ns_reqs s3 !! 0%nat = Some q'
  ∧ rq_phase q' = QDone (mkReplyMsg true r) ∧ runs_of 0 s3 = [(0%nat, 0%nat, r)].
Proof.
  apply (reliable_call (setup ++ take 1 one_call) 0%nat [] (net_after (setup ++ take 1 one_call)) (net_after (setup ++ take 1 one_call)) "e" 7 0
    (AddService counter_service MakeServer) "Counter.Inc" "Counter" "Inc" counter_service (mi_Func inc_method) 0
    (request_at (net_after (setup ++ take 1 one_call)) 0)); try (vm_compute; reflexivity).
  constructor.
Defined.
