(* ===== verification/RaftConfig.v ===== *)
(** RaftConfig: the harness that starts, crashes, partitions and checks raft servers.

    Source: lab4-mapreduce/src/raft/config.go, raft/persister.go, and the type
    ApplyMsg of raft/raft.go.

    The raft server itself is an exercise without an implementation: what an
    instance does (persist a state, report a committed command, claim to be the
    leader) is an input.  [cstep] interleaves the operations of the harness with
    the instances, also with those that were crashed and cannot be stopped. *)
From Stdlib Require Import ZArith Lia Strings.Byte.
From stdpp Require Import gmap strings list.
From S2P Require Import Prelude.
From S2P Require Import LabRpc.
Open Scope Z_scope.

(** ** persister.go *)
Record Persister := mkPersister { ps_raftstate : list byte; ps_snapshot : list byte }.

Definition MakePersister : Persister := mkPersister [] [].
Definition SaveRaftState (state : list byte) (ps : Persister) : Persister := mkPersister state (ps_snapshot ps).
Definition SaveStateAndSnapshot (state snapshot : list byte) (ps : Persister) : Persister := mkPersister state snapshot.
Definition ReadRaftState (ps : Persister) : list byte := ps_raftstate ps.
Definition ReadSnapshot (ps : Persister) : list byte := ps_snapshot ps.
Definition RaftStateSize (ps : Persister) : Z := Z.of_nat (length (ps_raftstate ps)).
Definition SnapshotSize (ps : Persister) : Z := Z.of_nat (length (ps_snapshot ps)).
Definition Persister_Copy (ps : Persister) : Persister := mkPersister (ps_raftstate ps) (ps_snapshot ps).

(** ** config *)
Abbreviation RaftNet := (Network (EN := string) (SN := nat)).

(** [cf_saved] holds pointers into [cf_heap]; an instance of a raft server is a
    number, [cf_holds] says which persister it was made with.  [cf_next] is the
    next pointer, instance and server. *)
Record config := mkConfig {
  cf_net : RaftNet;
  cf_n : nat;
  cf_rafts : list (option nat);
  cf_connected : list bool;
  cf_saved : list (option nat);
  cf_endnames : list (option (list string));
  cf_logs : list (gmap Z Z);
  cf_maxIndex : Z;
  cf_heap : gmap nat Persister;
  cf_holds : gmap nat nat;
  cf_next : nat
}.

Definition set_net (rn : RaftNet) (c : config) : config :=
  mkConfig rn (cf_n c) (cf_rafts c) (cf_connected c) (cf_saved c) (cf_endnames c) (cf_logs c) (cf_maxIndex c) (cf_heap c) (cf_holds c) (cf_next c).
Definition set_connected (l : list bool) (c : config) : config :=
  mkConfig (cf_net c) (cf_n c) (cf_rafts c) l (cf_saved c) (cf_endnames c) (cf_logs c) (cf_maxIndex c) (cf_heap c) (cf_holds c) (cf_next c).
Definition set_endnames (l : list (option (list string))) (c : config) : config :=
  mkConfig (cf_net c) (cf_n c) (cf_rafts c) (cf_connected c) (cf_saved c) l (cf_logs c) (cf_maxIndex c) (cf_heap c) (cf_holds c) (cf_next c).
Definition set_rafts (l : list (option nat)) (holds : gmap nat nat) (c : config) : config :=
  mkConfig (cf_net c) (cf_n c) l (cf_connected c) (cf_saved c) (cf_endnames c) (cf_logs c) (cf_maxIndex c) (cf_heap c) holds (cf_next c).
Definition set_logs (l : list (gmap Z Z)) (maxIndex : Z) (c : config) : config :=
  mkConfig (cf_net c) (cf_n c) (cf_rafts c) (cf_connected c) (cf_saved c) (cf_endnames c) l maxIndex (cf_heap c) (cf_holds c) (cf_next c).
Definition set_heap (h : gmap nat Persister) (c : config) : config :=
  mkConfig (cf_net c) (cf_n c) (cf_rafts c) (cf_connected c) (cf_saved c) (cf_endnames c) (cf_logs c) (cf_maxIndex c) h (cf_holds c) (cf_next c).

(** [cfg.saved[i] = ] a new object. *)
Definition save_new (i : nat) (ps : Persister) (c : config) : config :=
  mkConfig (cf_net c) (cf_n c) (cf_rafts c) (cf_connected c) (<[i := Some (cf_next c)]> (cf_saved c)) (cf_endnames c) (cf_logs c) (cf_maxIndex c)
    (<[cf_next c := ps]> (cf_heap c)) (cf_holds c) (S (cf_next c)).

Definition saved_persister (i : nat) (c : config) : option Persister := p ← mjoin (cf_saved c !! i); cf_heap c !! p.

(** [cfg.endnames[i][j]] *)
Definition end_name (c : config) (i j : nat) : option string := l ← mjoin (cf_endnames c !! i); l !! j.
Definition is_connected (c : config) (i : nat) : bool := default false (cf_connected c !! i).

(** A loop; [None] is a panic or the end of the process. *)
Fixpoint for_each {A St} (xs : list A) (f : A → St → option St) (s : St) : option St :=
  match xs with [] => Some s | x :: xs' => s' ← f x s; for_each xs' f s' end.

Definition enable_end (c : config) (i j : nat) (b : bool) (rn : RaftNet) : option RaftNet :=
  endname ← end_name c i j; Some (Enable endname b rn).

(** attach server i to the net *)
Definition connect (i : nat) (c : config) : option config :=
  let c := set_connected (<[i := true]> (cf_connected c)) c in
  rn ← for_each (seq 0 (cf_n c)) (λ j rn, if is_connected c j then enable_end c i j true rn else Some rn) (cf_net c);
  rn ← for_each (seq 0 (cf_n c)) (λ j rn, if is_connected c j then enable_end c j i true rn else Some rn) rn;
  Some (set_net rn c).

(** detach server i from the net *)
Definition disconnect (i : nat) (c : config) : option config :=
  let c := set_connected (<[i := false]> (cf_connected c)) c in
  rn ← for_each (seq 0 (cf_n c)) (λ j rn, match mjoin (cf_endnames c !! i) with None => Some rn | Some _ => enable_end c i j false rn end) (cf_net c);
  rn ← for_each (seq 0 (cf_n c)) (λ j rn, match mjoin (cf_endnames c !! j) with None => Some rn | Some _ => enable_end c j i false rn end) rn;
  Some (set_net rn c).

Definition copy_saved (i : nat) (c : config) : config :=
  match saved_persister i c with Some ps => save_new i (Persister_Copy ps) c | None => c end.

Definition crash1 (i : nat) (c : config) : option config :=
  c ← disconnect i c;
  let c := set_net (DeleteServer i (cf_net c)) c in
  let c := copy_saved i c in
  let c := match mjoin (cf_rafts c !! i) with Some _ => set_rafts (<[i := None]> (cf_rafts c)) (cf_holds c) c | None => c end in
  Some match saved_persister i c with
       | Some ps => save_new i (SaveRaftState (ReadRaftState ps) MakePersister) c
       | None => c
       end.

(** [names] is what randstring returned. *)
Definition make_ends (names : list string) (c : config) : option config :=
  rn ← for_each (zip (seq 0 (length names)) names) (λ '(j, name) rn, rn ← MakeEnd name rn; Some (Connect name j rn)) (cf_net c);
  Some (set_net rn c).

Definition start1 (i : nat) (names : list string) (c : config) : option config :=
  c ← crash1 i c;
  let c := set_endnames (<[i := Some names]> (cf_endnames c)) c in
  c ← make_ends names c;
  let c := match saved_persister i c with Some ps => save_new i (Persister_Copy ps) c | None => save_new i MakePersister c end in
  p ← mjoin (cf_saved c !! i);
  let rf := cf_next c in
  let c := set_rafts (<[i := Some rf]> (cf_rafts c)) (<[rf := p]> (cf_holds c)) c in
  Some (mkConfig (AddServer i (S rf) (cf_net c)) (cf_n c) (cf_rafts c) (cf_connected c) (cf_saved c) (cf_endnames c) (cf_logs c) (cf_maxIndex c)
          (cf_heap c) (cf_holds c) (S (S rf))).

(** make_config before its loops. *)
Definition blank_config (n : nat) (unreliable : bool) : config :=
  mkConfig (LongDelays true (Reliable (negb unreliable) MakeNetwork)) n (replicate n None) (replicate n false) (replicate n None) (replicate n None)
    (replicate n ∅) 0 ∅ ∅ 0.

Definition make_config (n : nat) (unreliable : bool) (names : nat → list string) : option config :=
  c ← for_each (seq 0 n) (λ i c, start1 i (names i) c) (blank_config n unreliable);
  for_each (seq 0 n) connect c.

(** ** What the harness checks *)

(** [Command] is an interface value: an int, or something else. *)
Record ApplyMsg := mkApplyMsg { am_CommandValid : bool; am_Command : option Z; am_CommandIndex : Z }.

(** The goroutine that reads the apply channel of server [i], one message;
    [None] is log.Fatalf. *)
Definition disagrees (index v : Z) (log : gmap Z Z) : bool := match log !! index with Some old => negb (old =? v) | None => false end.

Definition apply_msg (i : nat) (m : ApplyMsg) (c : config) : option config :=
  if negb (am_CommandValid m) then Some c
  else
    v ← am_Command m;
    let index := am_CommandIndex m in
    let conflict := existsb (disagrees index v) (cf_logs c) in
    log ← cf_logs c !! i;
    let prevok := bool_decide (is_Some (log !! (index - 1))) in
    let c' := set_logs (<[i := <[index := v]> log]> (cf_logs c)) (if cf_maxIndex c <? index then index else cf_maxIndex c) c in
    if conflict || ((1 <? index) && negb prevok) then None else Some c'.

(** how many servers think a log entry is committed? *)
Fixpoint count_committed (index count cmd : Z) (logs : list (gmap Z Z)) : option (Z * Z) :=
  match logs with
  | [] => Some (count, cmd)
  | log :: logs' =>
      match log !! index with
      | Some cmd1 => if (0 <? count) && negb (cmd =? cmd1) then None else count_committed index (count + 1) cmd1 logs'
      | None => count_committed index count cmd logs'
      end
  end.

Definition nCommitted (index : Z) (c : config) : option (Z * Z) := count_committed index 0 (-1) (cf_logs c).

(** What the servers answer to GetState: (term, leader). *)
Abbreviation States := (list (Z * bool)).

Definition add_leader (c : config) (st : States) (i : nat) (leaders : gmap Z (list nat)) : gmap Z (list nat) :=
  match st !! i with
  | Some (term, true) => if is_connected c i then <[term := default [] (leaders !! term) ++ [i]]> leaders else leaders
  | _ => leaders
  end.

Definition collect_leaders (c : config) (st : States) : gmap Z (list nat) :=
  foldl (λ leaders i, add_leader c st i leaders) ∅ (seq 0 (cf_n c)).

(** The loop over the map: the last term with a leader, [None] if a term has two. *)
Fixpoint last_term (entries : list (Z * list nat)) (lastTermWithLeader : Z) : option Z :=
  match entries with
  | [] => Some lastTermWithLeader
  | (term, l) :: entries' =>
      if (1 <? Z.of_nat (length l)) then None
      else last_term entries' (if lastTermWithLeader <? term then term else lastTermWithLeader)
  end.

(** One turn of checkOneLeader: [None] is Fatalf, [Some None] tries again. *)
Definition check_leaders `{RangeOrder} (c : config) (st : States) : option (option nat) :=
  let leaders := collect_leaders c st in
  last ← last_term (go_range leaders) (-1);
  if decide (leaders = ∅) then Some None else l ← leaders !! last; Some (head l).

(** [sts] is what the servers answer in each of the ten turns. *)
Fixpoint checkOneLeader `{RangeOrder} (c : config) (sts : list States) : option nat :=
  match sts with
  | [] => None
  | st :: sts' =>
      match check_leaders c st with
      | None => None
      | Some (Some i) => Some i
      | Some None => checkOneLeader c sts'
      end
  end.

(** check that everyone agrees on the term *)
Fixpoint check_terms (c : config) (st : States) (ids : list nat) (term : Z) : option Z :=
  match ids with
  | [] => Some term
  | i :: ids' =>
      if is_connected c i then
        match st !! i with
        | None => None
        | Some (xterm, _) => if term =? -1 then check_terms c st ids' xterm else if term =? xterm then check_terms c st ids' term else None
        end
      else check_terms c st ids' term
  end.

Definition checkTerms (c : config) (st : States) : option Z := check_terms c st (seq 0 (cf_n c)) (-1).

(** check that there's no leader *)
Definition checkNoLeader (c : config) (st : States) : bool :=
  forallb (λ i, negb (is_connected c i && match st !! i with Some (_, b) => b | None => false end)) (seq 0 (cf_n c)).

(** ** Runs *)
Inductive CLabel :=
| CStart (i : nat) (names : list string)
| CCrash (i : nat)
| CConnect (i : nat)
| CDisconnect (i : nat)
| CPersist (rf : nat) (f : Persister → Persister)   (* an instance saves its state *)
| CApply (i : nat) (m : ApplyMsg).

Definition persist (rf : nat) (f : Persister → Persister) (c : config) : option config :=
  p ← cf_holds c !! rf; ps ← cf_heap c !! p; Some (set_heap (<[p := f ps]> (cf_heap c)) c).

Definition cstep (l : CLabel) (c : config) : option config :=
  match l with
  | CStart i names => if decide ((i < cf_n c)%nat ∧ length names = cf_n c) then start1 i names c else None
  | CCrash i => if decide (i < cf_n c)%nat then crash1 i c else None
  | CConnect i => if decide (i < cf_n c)%nat then connect i c else None
  | CDisconnect i => if decide (i < cf_n c)%nat then disconnect i c else None
  | CPersist rf f => persist rf f c
  | CApply i m => if decide (i < cf_n c)%nat then apply_msg i m c else None
  end.

Definition crun (ls : list CLabel) (c : config) : option config := for_each ls cstep c.

(** ** Loops *)
Lemma for_each_inv {A St} (P : St → Prop) (f : A → St → option St) xs s s' :
  (∀ x s s', x ∈ xs → P s → f x s = Some s' → P s') → P s → for_each xs f s = Some s' → P s'.
Proof.
  revert s. induction xs as [|x xs IH]; intros s Hf Hs; cbn; [by intros [= <-]|]. intros (s1 & E1 & E2)%bind_Some.
  apply (IH s1); [|apply (Hf x s); [set_solver|done|done]|done]. intros y s2 s3 Hy. apply Hf. set_solver.
Qed.

Lemma for_each_ran {A St} (f : A → St → option St) xs s s' x : for_each xs f s = Some s' → x ∈ xs → ∃ s1 s2, f x s1 = Some s2.
Proof.
  revert s. induction xs as [|y xs IH]; intros s; [by intros _ ?%elem_of_nil|]. cbn. intros (s1 & E1 & E2)%bind_Some.
  intros [->|Hx]%elem_of_cons; [eauto|by apply (IH s1)].
Qed.

(** Networks that differ in nothing but the enabled ends. *)
Definition same_links (rn rn' : RaftNet) : Prop :=
  nw_ends rn' = nw_ends rn ∧ nw_connections rn' = nw_connections rn ∧ nw_servers rn' = nw_servers rn.

Lemma is_enabled_Enable (e : string) b (rn : RaftNet) e' : is_enabled (Enable e b rn) e' = if decide (e' = e) then b else is_enabled rn e'.
Proof. unfold is_enabled. cbn. case_decide; [subst; by rewrite lookup_insert_eq|by rewrite lookup_insert_ne]. Qed.

(** A loop that enables or disables the ends that [g] names. *)
Lemma enable_loop {A} (f : A → RaftNet → option RaftNet) (g : A → option string) b xs rn rn' :
  (∀ x r r', x ∈ xs → f x r = Some r' → r' = match g x with Some e => Enable e b r | None => r end) → for_each xs f rn = Some rn' →
  same_links rn rn' ∧ ∀ e, is_enabled rn' e = if decide (e ∈ omap g xs) then b else is_enabled rn e.
Proof.
  revert rn. induction xs as [|x xs IH]; intros rn Hf; cbn [for_each].
  - intros [= <-]. split; [done|]. intros e. by rewrite decide_False by (cbn; apply not_elem_of_nil).
  - intros (r1 & E1 & E2)%bind_Some. destruct (IH r1) as [(H1 & H2 & H3) He]; [intros y r r' Hy; apply Hf; set_solver|done|].
    apply Hf in E1; [|set_solver]. cbn [omap list_omap]. destruct (g x) as [e0|]; subst r1; [|done]. split; [done|]. intros e. rewrite He, is_enabled_Enable.
    destruct (decide (e ∈ omap g xs)), (decide (e = e0)), (decide (e ∈ e0 :: omap g xs)); set_solver.
Qed.

(** ** The network is what the harness says *)
Record wired (c : config) : Prop := {
  wr_len : length (cf_connected c) = cf_n c ∧ length (cf_endnames c) = cf_n c;
  wr_names : ∀ i l, mjoin (cf_endnames c !! i) = Some l → length l = cf_n c;
  wr_known : ∀ i j e, end_name c i j = Some e → e ∈ nw_ends (cf_net c);
  wr_inj : ∀ i j i' j' e, end_name c i j = Some e → end_name c i' j' = Some e → i' = i ∧ j' = j;
  wr_conn : ∀ i j e, end_name c i j = Some e → nw_connections (cf_net c) !! e = Some (Some j);
  wr_started : ∀ i, is_connected c i = true → is_Some (mjoin (cf_endnames c !! i));
  wr_enabled : ∀ e, is_enabled (cf_net c) e = true ↔
    ∃ i j, end_name c i j = Some e ∧ is_connected c i = true ∧ is_connected c j = true
}.

Lemma end_name_lt c i j e : wired c → end_name c i j = Some e → (i < cf_n c)%nat ∧ (j < cf_n c)%nat.
Proof.
  intros Hw E. unfold end_name in E. apply bind_Some in E as (l & El & Ej). split.
  - destruct (cf_endnames c !! i) eqn:Ei; [|done]. apply lookup_lt_Some in Ei. by rewrite (proj2 (wr_len c Hw)) in Ei.
  - apply lookup_lt_Some in Ej. by rewrite (wr_names c Hw i l El) in Ej.
Qed.

Lemma is_connected_insert c i b k : (i < length (cf_connected c))%nat →
  is_connected (set_connected (<[i := b]> (cf_connected c)) c) k = if decide (k = i) then b else is_connected c k.
Proof.
  intros Hi. unfold is_connected. cbn. case_decide; [subst; by rewrite list_lookup_insert_eq|by rewrite list_lookup_insert_ne].
Qed.

(** What is left to show when only the enabled ends and the marks change. *)
Lemma wired_relinked c c' rn : wired c → cf_n c' = cf_n c → cf_endnames c' = cf_endnames c → length (cf_connected c') = length (cf_connected c) →
  cf_net c' = rn → same_links (cf_net c) rn → (∀ i, is_connected c' i = true → is_Some (mjoin (cf_endnames c !! i))) →
  (∀ e, is_enabled rn e = true ↔ ∃ i j, end_name c i j = Some e ∧ is_connected c' i = true ∧ is_connected c' j = true) → wired c'.
Proof.
  intros [Hl Hn Hk Hi Hc Hs He] E1 E2 E3 E4 (L1 & L2 & L3) Hs' He'.
  assert (∀ i j, end_name c' i j = end_name c i j) as En by (intros; unfold end_name; by rewrite E2).
  split; rewrite ?E1, ?E2, ?E3, ?E4, ?L1, ?L2; try setoid_rewrite En; auto.
Qed.

Lemma connect_wired i c c' : wired c → (i < cf_n c)%nat → connect i c = Some c' →
  wired c' ∧ cf_connected c' = <[i := true]> (cf_connected c).
Proof.
  intros Hw Hi E. unfold connect in E. apply bind_Some in E as (r1 & E1 & E). apply bind_Some in E as (r2 & E2 & [= <-]).
  cbn [cf_n cf_net set_connected] in E1, E2. set (c1 := set_connected _ c) in *.
  assert (Hcon : ∀ k, is_connected c1 k = if decide (k = i) then true else is_connected c k).
  { intros k. apply is_connected_insert. by rewrite (proj1 (wr_len c Hw)). }
  assert (∀ k j, end_name c1 k j = end_name c k j) as Hen by done.
  pose proof E1 as Hran. apply (for_each_ran _ _ _ _ i) in Hran as (s1 & s2 & Hran); [|apply elem_of_seq; lia].
  rewrite Hcon, decide_True in Hran by done. unfold enable_end in Hran. apply bind_Some in Hran as (e0 & He0 & _).
  apply (enable_loop _ (λ j, if is_connected c1 j then end_name c1 i j else None) true) in E1 as [(L1 & L2 & L3) G1].
  2:{ intros x r r' _. unfold enable_end. destruct (is_connected c1 x); [|congruence]. intros (e & -> & [= <-])%bind_Some. done. }
  apply (enable_loop _ (λ j, if is_connected c1 j then end_name c1 j i else None) true) in E2 as [(M1 & M2 & M3) G2].
  2:{ intros x r r' _. unfold enable_end. destruct (is_connected c1 x); [|congruence]. intros (e & -> & [= <-])%bind_Some. done. }
  split; [|done]. apply (wired_relinked c _ r2); try done; [by cbn; rewrite length_insert|split_and!; congruence|..].
  - intros k Hk. change (is_connected c1 k = true) in Hk. rewrite Hcon in Hk. case_decide; [subst|by apply (wr_started c Hw)].
    unfold end_name in He0. apply bind_Some in He0 as (l & Hl & _). by exists l.
  - intros e. change (is_enabled r2 e = true ↔ ∃ a b, end_name c a b = Some e ∧ is_connected c1 a = true ∧ is_connected c1 b = true).
    rewrite G2, G1. split.
    + destruct (decide (e ∈ _)) as [(j & _ & Hj)%list_elem_of_omap|_]; [|destruct (decide (e ∈ _)) as [(j & _ & Hj)%list_elem_of_omap|_]].
      * intros _. destruct (is_connected c1 j) eqn:Ec; [|done]. exists j, i. rewrite !Hcon in *. rewrite (decide_True _ _ (eq_refl i)). done.
      * intros _. destruct (is_connected c1 j) eqn:Ec; [|done]. exists i, j. rewrite !Hcon in *. rewrite (decide_True _ _ (eq_refl i)). done.
      * intros He. apply (wr_enabled c Hw) in He as (a & b & Hab & Ha & Hb). exists a, b. rewrite !Hcon. by repeat case_decide.
    + intros (a & b & Hab & Ha & Hb). destruct (end_name_lt c a b e Hw Hab) as [Hla Hlb].
      case_decide as Hn1; [done|]. case_decide as Hn2; [done|]. apply (wr_enabled c Hw). exists a, b.
      assert (b ≠ i) as Hbi. { intros ->. apply Hn1, list_elem_of_omap. exists a. rewrite Ha. split; [apply elem_of_seq; lia|done]. }
      assert (a ≠ i) as Hai. { intros ->. apply Hn2, list_elem_of_omap. exists b. rewrite Hb. split; [apply elem_of_seq; lia|done]. }
      rewrite !Hcon in *. rewrite decide_False in Ha by done. rewrite decide_False in Hb by done. done.
Qed.

Lemma disconnect_wired i c c' : wired c → (i < cf_n c)%nat → disconnect i c = Some c' →
  wired c' ∧ cf_connected c' = <[i := false]> (cf_connected c).
Proof.
  intros Hw Hi E. unfold disconnect in E. apply bind_Some in E as (r1 & E1 & E). apply bind_Some in E as (r2 & E2 & [= <-]).
  cbn [cf_n cf_net set_connected] in E1, E2. set (c1 := set_connected _ c) in *.
  assert (Hcon : ∀ k, is_connected c1 k = if decide (k = i) then false else is_connected c k).
  { intros k. apply is_connected_insert. by rewrite (proj1 (wr_len c Hw)). }
  assert (∀ a b r r', match mjoin (cf_endnames c1 !! a) with Some _ => enable_end c1 a b false r | None => Some r end = Some r' →
    r' = match end_name c a b with Some e => Enable e false r | None => r end) as Hstep.
  { intros a b r r'. unfold enable_end, end_name. cbn [cf_endnames c1 set_connected]. destruct (mjoin (cf_endnames c !! a)) as [l|]; cbn; [|congruence].
    intros (e & -> & [= <-])%bind_Some. done. }
  apply (enable_loop _ (λ j, end_name c i j) false) in E1 as [(L1 & L2 & L3) G1]; [|intros x r r' _; apply Hstep].
  apply (enable_loop _ (λ j, end_name c j i) false) in E2 as [(M1 & M2 & M3) G2]; [|intros x r r' _; apply Hstep].
  split; [|done]. apply (wired_relinked c _ r2); try done; [by cbn; rewrite length_insert|split_and!; congruence|..].
  - intros k Hk. change (is_connected c1 k = true) in Hk. rewrite Hcon in Hk. case_decide; [done|by apply (wr_started c Hw)].
  - intros e. change (is_enabled r2 e = true ↔ ∃ a b, end_name c a b = Some e ∧ is_connected c1 a = true ∧ is_connected c1 b = true).
    rewrite G2, G1. split.
    + case_decide as Hn1; [done|]. case_decide as Hn2; [done|]. intros He. apply (wr_enabled c Hw) in He as (a & b & Hab & Ha & Hb).
      destruct (end_name_lt c a b e Hw Hab) as [Hla Hlb]. exists a, b. rewrite !Hcon.
      assert (b ≠ i) as Hbi. { intros ->. apply Hn1, list_elem_of_omap. exists a. split; [apply elem_of_seq; lia|done]. }
      assert (a ≠ i) as Hai. { intros ->. apply Hn2, list_elem_of_omap. exists b. split; [apply elem_of_seq; lia|done]. }
      by rewrite !decide_False.
    + intros (a & b & Hab & Ha & Hb). rewrite !Hcon in *. destruct (decide (a = i)); [done|]. destruct (decide (b = i)); [done|].
      rewrite !decide_False.
      * apply (wr_enabled c Hw). eauto.
      * intros (j & _ & Hj)%list_elem_of_omap. destruct (wr_inj c Hw _ _ _ _ _ Hab Hj). congruence.
      * intros (j & _ & Hj)%list_elem_of_omap. destruct (wr_inj c Hw _ _ _ _ _ Hab Hj). congruence.
Qed.

(** Steps that leave the ends alone. *)
Definition same_wires (c c' : config) : Prop :=
  cf_n c' = cf_n c ∧ cf_connected c' = cf_connected c ∧ cf_endnames c' = cf_endnames c ∧ nw_ends (cf_net c') = nw_ends (cf_net c)
  ∧ nw_enabled (cf_net c') = nw_enabled (cf_net c) ∧ nw_connections (cf_net c') = nw_connections (cf_net c).

Lemma wired_same c c' : wired c → same_wires c c' → wired c'.
Proof.
  intros [Hl Hn Hk Hi Hc Hs He] (E1 & E2 & E3 & E4 & E5 & E6).
  assert (∀ i j, end_name c' i j = end_name c i j) as En by (intros; unfold end_name; by rewrite E3).
  assert (∀ i, is_connected c' i = is_connected c i) as Ec by (intros; unfold is_connected; by rewrite E2).
  assert (∀ e, is_enabled (cf_net c') e = is_enabled (cf_net c) e) as Ee by (intros; unfold is_enabled; by rewrite E5).
  split; rewrite ?E1, ?E2, ?E3, ?E4, ?E6; try setoid_rewrite En; try setoid_rewrite Ec; try setoid_rewrite Ee; auto.
Qed.

#[export] Instance same_wires_trans : Transitive same_wires.
Proof. intros c1 c2 c3 (? & ? & ? & ? & ? & ?) (? & ? & ? & ? & ? & ?). split_and!; congruence. Qed.

Lemma crash_after_disconnect i c c1 c' : disconnect i c = Some c1 → crash1 i c = Some c' → same_wires c1 c'.
Proof.
  intros E1. unfold crash1. rewrite E1. cbn [mbind option_bind]. intros [= <-]. unfold copy_saved.
  repeat case_match; done.
Qed.

Lemma crash1_wired i c c' : wired c → (i < cf_n c)%nat → crash1 i c = Some c' →
  wired c' ∧ cf_connected c' = <[i := false]> (cf_connected c) ∧ cf_n c' = cf_n c ∧ cf_endnames c' = cf_endnames c.
Proof.
  intros Hw Hi E. destruct (disconnect i c) as [c1|] eqn:E1; [|by unfold crash1 in E; rewrite E1 in E].
  destruct (disconnect_wired i c c1 Hw Hi E1) as [Hw1 Hc1]. pose proof (crash_after_disconnect i c c1 c' E1 E) as Hs.
  split; [by apply (wired_same c1)|]. destruct Hs as (-> & -> & -> & _). split; [done|].
  unfold disconnect in E1. apply bind_Some in E1 as (r1 & _ & E1). by apply bind_Some in E1 as (r2 & _ & [= <-]).
Qed.

(** The ends of a new instance. *)
Lemma make_ends_loop k (names : list string) (rn rn' : RaftNet) :
  for_each (zip (seq k (length names)) names) (λ '(j, name) rn, rn ← MakeEnd name rn; Some (Connect name j rn)) rn = Some rn' →
  NoDup names ∧ (∀ e, e ∈ names → e ∉ nw_ends rn) ∧ (∀ e, e ∈ nw_ends rn' ↔ e ∈ names ∨ e ∈ nw_ends rn)
  ∧ (∀ e, is_enabled rn' e = if decide (e ∈ names) then false else is_enabled rn e)
  ∧ (∀ j e, names !! j = Some e → nw_connections rn' !! e = Some (Some (k + j)%nat))
  ∧ (∀ e, e ∉ names → nw_connections rn' !! e = nw_connections rn !! e).
Proof.
  revert k rn. induction names as [|x names IH]; intros k rn; cbn [length seq zip zip_with for_each].
  { intros [= <-]. split_and!; [constructor|set_solver|set_solver| |done|done]. intros e. by rewrite decide_False by apply not_elem_of_nil. }
  intros (r1 & E1 & E2)%bind_Some. apply bind_Some in E1 as (r0 & E0 & [= <-]). unfold MakeEnd in E0. case_decide as Hx; [done|]. injection E0 as <-.
  destruct (IH _ _ E2) as (H1 & H2 & H3 & H4 & H5 & H6). cbn in H2, H3. split_and!.
  - apply NoDup_cons. split; [|done]. intros Hin. apply (H2 x Hin). set_solver.
  - intros e [->|He]%elem_of_cons; [done|]. intros Hin. apply (H2 e He). set_solver.
  - intros e. rewrite H3, elem_of_cons. set_solver.
  - intros e. rewrite H4. unfold is_enabled at 1. cbn. destruct (decide (e ∈ names)) as [Hin|Hin]; [by rewrite decide_True by (by right)|].
    destruct (decide (e = x)) as [->|Hne].
    + rewrite lookup_insert_eq. by rewrite decide_True by (by left).
    + rewrite lookup_insert_ne by done. rewrite decide_False; [done|]. by intros [?|?]%elem_of_cons.
  - intros [|j] e; cbn [lookup list_lookup].
    + intros [= <-]. rewrite H6 by (intros Hin; apply (H2 x Hin); set_solver). cbn. rewrite lookup_insert_eq. do 2 f_equal. lia.
    + intros He. rewrite (H5 j e He). do 2 f_equal. lia.
  - intros e He. rewrite H6 by set_solver. cbn. rewrite !lookup_insert_ne by set_solver. done.
Qed.

Lemma end_name_insert c i names a b : (i < length (cf_endnames c))%nat →
  end_name (set_endnames (<[i := Some names]> (cf_endnames c)) c) a b = if decide (a = i) then names !! b else end_name c a b.
Proof.
  intros Hi. unfold end_name. cbn. case_decide; [subst; by rewrite list_lookup_insert_eq|by rewrite list_lookup_insert_ne].
Qed.

Lemma make_ends_wired i names c c' : wired c → (i < cf_n c)%nat → length names = cf_n c → is_connected c i = false →
  make_ends names (set_endnames (<[i := Some names]> (cf_endnames c)) c) = Some c' → wired c'.
Proof.
  intros Hw Hi Hlen Hcon E. unfold make_ends in E. apply bind_Some in E as (rn & E & [= <-]). cbn [cf_net set_endnames] in E.
  destruct (make_ends_loop 0 names _ _ E) as (H1 & H2 & H3 & H4 & H5 & H6). clear E. set (c1 := set_endnames _ c).
  assert (i < length (cf_endnames c))%nat as Hi' by (by rewrite (proj2 (wr_len c Hw))).
  assert (∀ a b, end_name c1 a b = if decide (a = i) then names !! b else end_name c a b) as Hen by (intros; by apply end_name_insert).
  assert (∀ a b e, end_name c a b = Some e → e ∉ names) as Hold by (intros a b e Hab Hin; apply (H2 e Hin), (wr_known c Hw a b e Hab)).
  split; cbn [cf_n cf_connected cf_endnames cf_net set_net]; change (end_name (set_net rn c1)) with (end_name c1);
    change (is_connected (set_net rn c1)) with (is_connected c).
  - destruct (wr_len c Hw). cbn. by rewrite length_insert.
  - intros a l. cbn. destruct (decide (a = i)) as [->|Hne]; [rewrite list_lookup_insert_eq by done; cbn; congruence|].
    rewrite list_lookup_insert_ne by done. apply (wr_names c Hw).
  - intros a b e. rewrite Hen, H3. case_decide; [intros ?%list_elem_of_lookup_2; by left|intros; right; by eapply (wr_known c Hw)].
  - intros a b a' b' e. rewrite !Hen. repeat case_decide; subst.
    + intros E1 E2. split; [done|]. by apply (NoDup_lookup names b' b e).
    + intros E1%list_elem_of_lookup_2 E2. by apply Hold in E2.
    + intros E1 E2%list_elem_of_lookup_2. by apply Hold in E1.
    + apply (wr_inj c Hw).
  - intros a b e. rewrite Hen. case_decide; [by intros E; rewrite (H5 b e E)|]. intros E. rewrite H6 by (by eapply Hold). by eapply (wr_conn c Hw).
  - intros a Ha. cbn. assert (a ≠ i) by congruence. rewrite list_lookup_insert_ne by done. by apply (wr_started c Hw).
  - intros e. rewrite H4. split.
    + case_decide as Hin; [done|]. intros He. apply (wr_enabled c Hw) in He as (a & b & Hab & Ha & Hb). exists a, b.
      rewrite Hen, decide_False by congruence. done.
    + intros (a & b & Hab & Ha & Hb). rewrite Hen, decide_False in Hab by congruence. rewrite decide_False by (by eapply Hold).
      apply (wr_enabled c Hw). eauto.
Qed.

Lemma start1_wired i names c c' : wired c → (i < cf_n c)%nat → length names = cf_n c → start1 i names c = Some c' → wired c'.
Proof.
  intros Hw Hi Hlen E. unfold start1 in E. apply bind_Some in E as (c1 & E1 & E). apply bind_Some in E as (c2 & E2 & E).
  destruct (crash1_wired i c c1 Hw Hi E1) as (Hw1 & Hc1 & Hn1 & He1).
  assert (is_connected c1 i = false) as Hcon.
  { unfold is_connected. rewrite Hc1, list_lookup_insert_eq by (by rewrite (proj1 (wr_len c Hw))). done. }
  apply (make_ends_wired i names c1) in E2; [|done|lia|lia|done]. apply bind_Some in E as (p & _ & [= <-]).
  apply (wired_same c2); [done|]. by destruct (saved_persister i c2).
Qed.

Lemma apply_msg_cases i m c c' : apply_msg i m c = Some c' →
  c' = c ∨ ∃ v log, am_Command m = Some v ∧ cf_logs c !! i = Some log ∧ existsb (disagrees (am_CommandIndex m) v) (cf_logs c) = false
    ∧ (1 < am_CommandIndex m → is_Some (log !! (am_CommandIndex m - 1)))
    ∧ c' = set_logs (<[i := <[am_CommandIndex m := v]> log]> (cf_logs c))
             (if cf_maxIndex c <? am_CommandIndex m then am_CommandIndex m else cf_maxIndex c) c.
Proof.
  unfold apply_msg. destruct (am_CommandValid m); cbn [negb]; [|intros [= <-]; by left]. intros (v & Ev & E)%bind_Some.
  apply bind_Some in E as (log & El & E). destruct (existsb _ _) eqn:Ex; [done|]. cbn [orb] in E.
  destruct (1 <? am_CommandIndex m) eqn:E1; cbn [andb] in E.
  - case_bool_decide as Hp; [|done]. injection E as <-. right. by exists v, log.
  - injection E as <-. right. exists v, log. split_and!; try done. lia.
Qed.

Lemma cstep_wired l c c' : wired c → cstep l c = Some c' → wired c'.
Proof.
  intros Hw. destruct l as [i names|i|i|i|rf f|i m]; cbn.
  - case_decide as Hd; [|done]. destruct Hd. by apply start1_wired.
  - case_decide as Hi; [|done]. intros E. by apply (crash1_wired i c).
  - case_decide as Hi; [|done]. intros E. by apply (connect_wired i c).
  - case_decide as Hi; [|done]. intros E. by apply (disconnect_wired i c).
  - unfold persist. intros (p & _ & (ps & _ & [= <-])%bind_Some)%bind_Some. by apply (wired_same c).
  - case_decide as Hi; [|done]. intros [->|(v & log & _ & _ & _ & _ & ->)]%apply_msg_cases; [done|]. by apply (wired_same c).
Qed.

Lemma blank_end n u i j : end_name (blank_config n u) i j = None.
Proof. unfold end_name. cbn. destruct (replicate n None !! i) as [x|] eqn:E; [|done]. by apply lookup_replicate in E as [-> _]. Qed.

Lemma blank_connected n u i : is_connected (blank_config n u) i = false.
Proof. unfold is_connected. cbn. destruct (replicate n false !! i) as [x|] eqn:E; [|done]. by apply lookup_replicate in E as [-> _]. Qed.

Lemma blank_wired n u : wired (blank_config n u).
Proof.
  split; try setoid_rewrite blank_end; try setoid_rewrite blank_connected; try done.
  - cbn. by rewrite !length_replicate.
  - intros i l. cbn. destruct (replicate n None !! i) as [x|] eqn:E; [|done]. by apply lookup_replicate in E as [-> _].
  - intros e. split; [|by intros (i & j & ? & _)]. unfold is_enabled. cbn. by rewrite lookup_empty.
Qed.

(** C25. However servers are started, crashed, restarted, connected and
    disconnected, the network is the one the harness records: the end through
    which server [i] calls server [j] leads to [j] and is enabled exactly if both
    are connected, and no other end is enabled, so that an instance that was
    replaced cannot send; and a crash disables all ends from and to the server, until
    it is connected again (connect does not ask whether the server runs, so that
    a crashed instance that is connected before it is started again can send:
    [crashed_can_send]). *)
Theorem partition_matrix n unreliable ls c : crun ls (blank_config n unreliable) = Some c →
  (∀ i j e, end_name c i j = Some e →
    nw_connections (cf_net c) !! e = Some (Some j) ∧ is_enabled (cf_net c) e = (is_connected c i && is_connected c j))
  ∧ (∀ e, is_enabled (cf_net c) e = true → ∃ i j, end_name c i j = Some e)
  ∧ (∀ i c', cstep (CCrash i) c = Some c' → is_connected c' i = false
      ∧ ∀ j e, end_name c' i j = Some e ∨ end_name c' j i = Some e → is_enabled (cf_net c') e = false).
Proof.
  intros E. pose proof (for_each_inv wired cstep ls _ c (λ l c c' _, cstep_wired l c c') (blank_wired n unreliable) E) as Hw. split_and!.
  - intros i j e He. split; [by apply (wr_conn c Hw i j)|]. apply eq_bool_prop_intro. rewrite !Is_true_true, andb_true_iff, (wr_enabled c Hw e).
    split; [|by exists i, j]. intros (i' & j' & He' & ? & ?). by destruct (wr_inj c Hw _ _ _ _ _ He He') as [-> ->].
  - intros e He. apply (wr_enabled c Hw) in He as (i & j & ? & _). by exists i, j.
  - intros i c'. cbn. case_decide as Hi; [|done]. intros Ec. destruct (crash1_wired i c c' Hw Hi Ec) as (Hw' & Hc & _).
    assert (is_connected c' i = false) as Hoff by (unfold is_connected; rewrite Hc, list_lookup_insert_eq by (by rewrite (proj1 (wr_len c Hw))); done).
    split; [done|]. intros j e Hje. apply not_true_iff_false. intros (a & b & Hab & Ha & Hb)%(wr_enabled c' Hw').
    destruct Hje as [Hje|Hje]; destruct (wr_inj c' Hw' _ _ _ _ _ Hje Hab); congruence.
Qed.

(** ** Persisters *)
Definition holds_of (c : config) (p : nat) : Prop := ∃ rf, cf_holds c !! rf = Some p.

(** Nothing but the current instance of a server can write its saved state. *)
Record stored (c : config) : Prop := {
  sr_len : length (cf_saved c) = cf_n c ∧ length (cf_rafts c) = cf_n c;
  sr_saved : ∀ i p, cf_saved c !! i = Some (Some p) → (p < cf_next c)%nat ∧ is_Some (cf_heap c !! p);
  sr_holds : ∀ rf p, cf_holds c !! rf = Some p → (rf < cf_next c)%nat ∧ (p < cf_next c)%nat;
  sr_inj : ∀ i j p, cf_saved c !! i = Some (Some p) → cf_saved c !! j = Some (Some p) → j = i;
  sr_own : ∀ i p rf, cf_saved c !! i = Some (Some p) → cf_holds c !! rf = Some p → cf_rafts c !! i = Some (Some rf)
}.

(** No instance holds the saved state of [i]. *)
Definition unheld (i : nat) (c : config) : Prop := ∀ p rf, cf_saved c !! i = Some (Some p) → cf_holds c !! rf ≠ Some p.

(** The saved states of the servers other than [i] are as they were. *)
Definition others_keep (i : nat) (c c' : config) : Prop :=
  ∀ j, j ≠ i → cf_saved c' !! j = cf_saved c !! j ∧ saved_persister j c' = saved_persister j c
    ∧ (unheld j c → unheld j c').

Lemma saved_is c i p : cf_saved c !! i = Some (Some p) → saved_persister i c = cf_heap c !! p.
Proof. intros E. unfold saved_persister. by rewrite E. Qed.

Lemma save_new_stored i ps c : stored c → (i < cf_n c)%nat →
  stored (save_new i ps c) ∧ unheld i (save_new i ps c) ∧ saved_persister i (save_new i ps c) = Some ps ∧ others_keep i c (save_new i ps c).
Proof.
  intros [[Hl1 Hl2] Hs Hh Hi Ho] Hn. assert (i < length (cf_saved c))%nat as Hi' by lia.
  assert (∀ j p, <[i := Some (cf_next c)]> (cf_saved c) !! j = Some (Some p) →
    (j = i ∧ p = cf_next c) ∨ (j ≠ i ∧ cf_saved c !! j = Some (Some p) ∧ (p < cf_next c)%nat)) as Hcase.
  { intros j p. destruct (decide (j = i)) as [->|Hne]; [rewrite list_lookup_insert_eq by done; intros [= <-]; by left|].
    rewrite list_lookup_insert_ne by done. intros E. right. split_and!; [done|done|by apply (Hs j p)]. }
  assert (∀ rf, cf_holds c !! rf ≠ Some (cf_next c)) as Hfresh by (intros rf E; apply Hh in E; lia).
  split_and!.
  - split; cbn.
    + by rewrite length_insert.
    + intros j p Hj. destruct (Hcase j p Hj) as [[-> ->]|(_ & E & Hp)]; [rewrite lookup_insert_eq; split; [lia|by eexists]|].
      rewrite lookup_insert_ne by lia. destruct (Hs j p E). split; [lia|done].
    + intros rf p E. apply Hh in E. lia.
    + intros j k p Hj Hk. apply Hcase in Hj, Hk. destruct Hj as [[-> ->]|(Hj & E & Hp)], Hk as [[-> ?]|(Hk & E' & Hp')]; try lia.
      by apply (Hi j k p).
    + intros j p rf Hj E. destruct (Hcase j p Hj) as [[-> ->]|(_ & E' & _)]; [by apply Hfresh in E|]. by apply (Ho j p).
  - intros p rf Hj E. cbn in *. destruct (Hcase i p Hj) as [[_ ->]|[? _]]; [|done]. by apply Hfresh in E.
  - unfold saved_persister. cbn. rewrite list_lookup_insert_eq by done. cbn. by rewrite lookup_insert_eq.
  - intros j Hne. unfold saved_persister, unheld. cbn. rewrite list_lookup_insert_ne by done. split_and!; [done| |done].
    destruct (cf_saved c !! j) as [[p|]|] eqn:E; [|done|done]. cbn. destruct (Hs j p E). by rewrite lookup_insert_ne by lia.
Qed.

(** Steps that touch neither the persisters nor who holds them. *)
Definition same_store (c c' : config) : Prop :=
  cf_n c' = cf_n c ∧ cf_saved c' = cf_saved c ∧ cf_heap c' = cf_heap c ∧ cf_holds c' = cf_holds c ∧ cf_rafts c' = cf_rafts c ∧ cf_next c' = cf_next c.

Lemma same_store_stored c c' i : same_store c c' → (stored c → stored c') ∧ (unheld i c → unheld i c') ∧ saved_persister i c' = saved_persister i c.
Proof.
  intros (E1 & E2 & E3 & E4 & E5 & E6). split_and!.
  - intros [H1 H2 H3 H4 H5]. split; by rewrite ?E1, ?E2, ?E3, ?E4, ?E5, ?E6.
  - unfold unheld. by rewrite E2, E4.
  - unfold saved_persister. by rewrite E2, E3.
Qed.

Lemma links_store i c c' : connect i c = Some c' ∨ disconnect i c = Some c' → same_store c c'.
Proof.
  unfold connect, disconnect. intros [E|E]; apply bind_Some in E as (r1 & _ & E); by apply bind_Some in E as (r2 & _ & [= <-]).
Qed.

Lemma copy_saved_stored i c : stored c → (i < cf_n c)%nat →
  stored (copy_saved i c) ∧ unheld i (copy_saved i c) ∧ saved_persister i (copy_saved i c) = saved_persister i c ∧ others_keep i c (copy_saved i c)
  ∧ cf_n (copy_saved i c) = cf_n c.
Proof.
  intros Hs Hi. unfold copy_saved. destruct (saved_persister i c) as [ps|] eqn:E.
  - destruct (save_new_stored i (Persister_Copy ps) c Hs Hi) as (? & ? & Hp & ?). split_and!; try done. rewrite Hp. by destruct ps.
  - split_and!; try done. intros p rf Hp. rewrite (saved_is c i p Hp) in E. destruct (sr_saved c Hs i p Hp) as [_ [x Hx]]. by rewrite Hx in E.
Qed.

Lemma stop_stored i c : stored c → unheld i c →
  stored (set_rafts (<[i := None]> (cf_rafts c)) (cf_holds c) c).
Proof.
  intros [[H1 H2] H3 H4 H5 H6] Hu. split; cbn; try done; [by rewrite length_insert|].
  intros j p rf Hj E. destruct (decide (j = i)) as [->|Hne]; [by apply (Hu p rf Hj) in E|]. rewrite list_lookup_insert_ne by done. by apply (H6 j p).
Qed.

Lemma others_keep_trans i c1 c2 c3 : others_keep i c1 c2 → others_keep i c2 c3 → others_keep i c1 c3.
Proof. intros H1 H2 j Hj. destruct (H2 j Hj) as (-> & -> & ?), (H1 j Hj) as (-> & -> & ?). split_and!; auto. Qed.

Lemma same_store_keeps i c c' : same_store c c' → others_keep i c c'.
Proof. intros Hs j _. destruct (same_store_stored c c' j Hs) as (_ & ? & ?). split_and!; [by destruct Hs as (_ & -> & _)|done|done]. Qed.

(** A crash leaves a copy of the raft state that no instance holds. *)
Lemma crash1_stored i c c' : stored c → (i < cf_n c)%nat → crash1 i c = Some c' →
  stored c' ∧ unheld i c' ∧ others_keep i c c' ∧ cf_n c' = cf_n c
  ∧ saved_persister i c' = (λ ps, mkPersister (ReadRaftState ps) []) <$> saved_persister i c.
Proof.
  intros Hs Hi E. unfold crash1 in E. apply bind_Some in E as (c1 & E1 & [= E]). set (c2 := set_net _ c1) in *.
  assert (same_store c c2) as Hs2. { destruct (links_store i c c1) as (? & ? & ? & ? & ? & ?); [by right|]. by split_and!. }
  destruct (same_store_stored c c2 i Hs2) as (Hst & _ & Hp2). assert (cf_n c2 = cf_n c) as Hn2 by apply Hs2.
  destruct (copy_saved_stored i c2 (Hst Hs) ltac:(lia)) as (H3 & Hu3 & Hp3 & Hk3 & Hn3). set (c3 := copy_saved i c2) in *.
  set (c4 := match mjoin (cf_rafts c3 !! i) with Some _ => set_rafts (<[i := None]> (cf_rafts c3)) (cf_holds c3) c3 | None => c3 end) in *.
  assert (stored c4) as H4 by (unfold c4; destruct (mjoin _); [by apply stop_stored|done]).
  assert (unheld i c4 ∧ saved_persister i c4 = saved_persister i c ∧ others_keep i c3 c4 ∧ cf_n c4 = cf_n c) as (Hu4 & Hp4 & Hk4 & Hn4).
  { unfold c4. destruct (mjoin _); (split_and!; [done|by rewrite <- Hp2, <- Hp3|by intros j|transitivity (cf_n c3); [done|congruence]]). }
  assert (others_keep i c c4) as Hk by (by apply (others_keep_trans i c c3), Hk4; apply (others_keep_trans i c c2), Hk3; apply same_store_keeps).
  rewrite Hp4 in E. destruct (saved_persister i c) as [ps|] eqn:Ep; [|subst c'; by rewrite Hp4].
  destruct (save_new_stored i (SaveRaftState (ReadRaftState ps) MakePersister) c4 H4 ltac:(lia)) as (H5 & Hu5 & Hp5 & Hk5). rewrite E in *.
  split_and!; [done|done|by apply (others_keep_trans i c c4)|by rewrite <- E|by rewrite Hp5].
Qed.

Lemma make_ends_store names c c' : make_ends names c = Some c' → same_store c c'.
Proof. unfold make_ends. by intros (rn & _ & [= <-])%bind_Some. Qed.

(** The new instance holds a copy of the saved state. *)
Lemma start1_stored i names c c' : stored c → (i < cf_n c)%nat → start1 i names c = Some c' →
  stored c' ∧ others_keep i c c' ∧ cf_n c' = cf_n c
  ∧ ∃ rf p, cf_rafts c' !! i = Some (Some rf) ∧ cf_holds c' !! rf = Some p ∧ cf_saved c' !! i = Some (Some p)
    ∧ cf_heap c' !! p = Some (mkPersister (default [] (ReadRaftState <$> saved_persister i c)) []).
Proof.
  intros Hs Hi E. unfold start1 in E. apply bind_Some in E as (c1 & E1 & E). apply bind_Some in E as (c2 & E2 & E).
  destruct (crash1_stored i c c1 Hs Hi E1) as (H1 & Hu1 & Hk1 & Hn1 & Hp1). apply make_ends_store in E2.
  assert (same_store c1 c2) as Hs2 by (destruct E2 as (? & ? & ? & ? & ? & ?); by split_and!).
  destruct (same_store_stored c1 c2 i Hs2) as (Hst & _ & Hp2). assert (cf_n c2 = cf_n c) as Hn2 by (rewrite <- Hn1; apply Hs2).
  set (ps := mkPersister (default [] (ReadRaftState <$> saved_persister i c)) []).
  assert (match saved_persister i c2 with Some ps => save_new i (Persister_Copy ps) c2 | None => save_new i MakePersister c2 end = save_new i ps c2) as Ec.
  { rewrite Hp2, Hp1. unfold ps. by destruct (saved_persister i c) as [[]|]. }
  rewrite Ec in E. clear Ec. destruct (save_new_stored i ps c2 (Hst H1) ltac:(lia)) as (H3 & Hu3 & Hp3 & Hk3). set (c3 := save_new i ps c2) in *.
  assert (cf_n c3 = cf_n c) as Hn3 by done. clearbody c3.
  apply bind_Some in E as (p & Ep & [= <-]). destruct (cf_saved c3 !! i) as [[p'|]|] eqn:Es; try done. cbn in Ep. injection Ep as ->.
  assert (others_keep i c c3) as Hk by (apply (others_keep_trans i c c2), Hk3; apply (others_keep_trans i c c1), same_store_keeps; done).
  assert (∀ rf q, cf_holds c3 !! rf = Some q → (rf < cf_next c3)%nat) as Hlt by (intros rf q Eh; by apply (sr_holds c3 H3 rf q)).
  destruct H3 as [[L1 L2] Sv Sh Si So]. split_and!.
  - split; cbn.
    + by rewrite length_insert.
    + intros j q Hj. destruct (Sv j q Hj). split; [lia|done].
    + intros rf q [[<- <-]|[_ Eh]]%lookup_insert_Some; [destruct (Sv i p Es); lia|]. apply Sh in Eh. lia.
    + done.
    + intros j q rf Hj [[<- <-]|[Hne Eh]]%lookup_insert_Some.
      * rewrite (Si i j p Es Hj), list_lookup_insert_eq by lia. done.
      * destruct (decide (j = i)) as [->|Hji]; [by apply (Hu3 q rf Hj) in Eh|]. rewrite list_lookup_insert_ne by done. by apply (So j q).
  - intros j Hj. destruct (Hk j Hj) as (K1 & K2 & K3). unfold saved_persister, unheld in *. cbn. split_and!; [done|done|].
    intros Hun q rf Hq [[<- <-]|[_ Eh]]%lookup_insert_Some; [by apply Hj, (Si i j p)|]. by apply (K3 Hun q rf).
  - done.
  - exists (cf_next c3), p. cbn. rewrite list_lookup_insert_eq by lia. rewrite lookup_insert_eq. split_and!; try done.
    rewrite <- Hp3. symmetry. by apply saved_is.
Qed.

Lemma persist_stored rf f c c' i : stored c → persist rf f c = Some c' →
  stored c' ∧ (unheld i c → unheld i c' ∧ saved_persister i c' = saved_persister i c) ∧ cf_n c' = cf_n c.
Proof.
  intros [[H1 H2] H3 H4 H5 H6]. unfold persist. intros (p & Ep & (ps & Eps & [= <-])%bind_Some)%bind_Some. split_and!; [| |done].
  - split; cbn; try done. intros j q Hj. destruct (H3 j q Hj) as [? Hq]. split; [done|]. rewrite lookup_insert_is_Some'. by right.
  - intros Hu. split; [done|]. unfold saved_persister. cbn. destruct (cf_saved c !! i) as [[q|]|] eqn:E; [|done|done]. cbn.
    rewrite lookup_insert_ne; [done|]. intros ->. by apply (Hu q rf E).
Qed.

Definition concerns (i : nat) (l : CLabel) : bool := match l with CStart j _ | CCrash j => bool_decide (j = i) | _ => false end.

Lemma cstep_stored l c c' i : stored c → cstep l c = Some c' →
  stored c' ∧ cf_n c' = cf_n c ∧ (concerns i l = false → unheld i c → unheld i c' ∧ saved_persister i c' = saved_persister i c).
Proof.
  intros Hs. destruct l as [j names|j|j|j|rf f|j m]; cbn.
  - case_decide as Hd; [|done]. destruct Hd as [Hj _]. intros E. destruct (start1_stored j names c c' Hs Hj E) as (H1 & Hk & Hn & _).
    split_and!; [done|done|]. intros Hne%bool_decide_eq_false Hu. destruct (Hk i) as (_ & ? & ?); [done|]. auto.
  - case_decide as Hj; [|done]. intros E. destruct (crash1_stored j c c' Hs Hj E) as (H1 & _ & Hk & Hn & _).
    split_and!; [done|done|]. intros Hne%bool_decide_eq_false Hu. destruct (Hk i) as (_ & ? & ?); [done|]. auto.
  - case_decide as Hj; [|done]. intros E. assert (same_store c c') as Hss by (by apply (links_store j); left).
    destruct (same_store_stored c c' i Hss) as (? & ? & ?). split_and!; [auto|apply Hss|auto].
  - case_decide as Hj; [|done]. intros E. assert (same_store c c') as Hss by (by apply (links_store j); right).
    destruct (same_store_stored c c' i Hss) as (? & ? & ?). split_and!; [auto|apply Hss|auto].
  - intros E. destruct (persist_stored rf f c c' i Hs E) as (? & ? & ?). auto.
  - case_decide as Hj; [|done]. intros [->|(v & log & _ & _ & _ & _ & ->)]%apply_msg_cases; [auto|]. by split_and!; [destruct Hs| |].
Qed.

Lemma blank_stored n u : stored (blank_config n u).
Proof.
  split; cbn.
  - by rewrite !length_replicate.
  - by intros i p [? _]%lookup_replicate.
  - done.
  - by intros i j p [? _]%lookup_replicate.
  - by intros i p rf [? _]%lookup_replicate.
Qed.

(** The running instance of a server saves into the persister that the harness keeps. *)
Definition running_saves (c : config) : Prop :=
  ∀ i rf, cf_rafts c !! i = Some (Some rf) → ∃ p, cf_holds c !! rf = Some p ∧ cf_saved c !! i = Some (Some p).

Lemma running_same c c' : running_saves c → same_store c c' → running_saves c'.
Proof. intros Hr (_ & E2 & _ & E4 & E5 & _) i rf. rewrite E2, E4, E5. apply Hr. Qed.

Lemma crash1_rafts i c c' : crash1 i c = Some c' → (i < length (cf_rafts c))%nat →
  cf_rafts c' = <[i := None]> (cf_rafts c) ∧ cf_holds c' = cf_holds c ∧ (cf_next c <= cf_next c')%nat.
Proof.
  unfold crash1. intros (c1 & E1 & [= <-])%bind_Some Hi. destruct (links_store i c c1 (or_intror E1)) as (_ & _ & _ & <- & E & <-). rewrite <- E in *.
  unfold copy_saved. destruct (lookup_lt_is_Some_2 _ _ Hi) as [[rf|] Hrf]; repeat case_match; cbn in *; rewrite ?Hrf in *; try done;
    (split_and!; [|done|lia]); try done; by rewrite list_insert_id.
Qed.

Lemma crash1_running i c c' : stored c → (i < cf_n c)%nat → crash1 i c = Some c' → running_saves c → running_saves c'.
Proof.
  intros Hs Hi E Hr j rf. destruct (crash1_stored i c c' Hs Hi E) as (_ & _ & Hk & _). destruct (sr_len c Hs) as [_ Hl].
  destruct (crash1_rafts i c c' E) as (-> & -> & _); [lia|]. destruct (decide (j = i)) as [->|Hne]; [by rewrite list_lookup_insert_eq by lia|].
  rewrite list_lookup_insert_ne by done. destruct (Hk j Hne) as (-> & _). apply Hr.
Qed.

Lemma start1_running i names c c' : stored c → (i < cf_n c)%nat → start1 i names c = Some c' → running_saves c → running_saves c'.
Proof.
  intros Hs Hi E Hr. destruct (start1_stored i names c c' Hs Hi E) as (_ & Hk & _ & rf0 & p0 & Hrf0 & Hh0 & Hs0 & _).
  unfold start1 in E. apply bind_Some in E as (c1 & E1 & E). apply bind_Some in E as (c2 & E2 & E). apply make_ends_store in E2 as (_ & _ & _ & Eh & Er & En).
  pose proof (crash1_running i c c1 Hs Hi E1 Hr) as Hr1. destruct (crash1_stored i c c1 Hs Hi E1) as (_ & _ & Hk1 & _).
  destruct (sr_len c Hs) as [_ Hl]. destruct (crash1_rafts i c c1 E1 ltac:(lia)) as (Er1 & Eh1 & En1). cbn in Eh, Er, En.
  apply bind_Some in E as (p & _ & [= E]). intros j rf Hj. destruct (decide (j = i)) as [->|Hne]; [exists p0; naive_solver|].
  destruct (Hk j Hne) as (-> & _).
  assert (cf_rafts c1 !! j = Some (Some rf) ∧ ∀ q, cf_holds c1 !! rf = Some q → cf_holds c' !! rf = Some q) as [Hj1 Hmono].
  { subst c'. cbn in Hj. destruct (saved_persister i c2); cbn in Hj |- *; rewrite Er, list_lookup_insert_ne in Hj by done; (split; [done|]);
      intros q Hq; rewrite Eh; (rewrite lookup_insert_ne; [done|]); rewrite Eh1 in Hq; apply (sr_holds c Hs) in Hq; lia. }
  destruct (Hr1 j rf Hj1) as (q & Hq & Hsq). exists q. split; [by apply Hmono|]. by rewrite <- (proj1 (Hk1 j Hne)).
Qed.

Lemma cstep_running l c c' : stored c → cstep l c = Some c' → running_saves c → running_saves c'.
Proof.
  intros Hs. destruct l as [i names|i|i|i|rf f|i m]; cbn.
  - case_decide as Hd; [|done]. destruct Hd. by apply start1_running.
  - case_decide; [|done]. by apply crash1_running.
  - case_decide; [|done]. intros E Hr. apply (running_same c); [done|]. by apply (links_store i); left.
  - case_decide; [|done]. intros E Hr. apply (running_same c); [done|]. by apply (links_store i); right.
  - unfold persist. by intros (p & _ & (ps & _ & [= <-])%bind_Some)%bind_Some.
  - case_decide; [|done]. by intros [->|(v & log & _ & _ & _ & _ & ->)]%apply_msg_cases.
Qed.

(** C26. A server that is crashed and started again gets the raft state that the instance
    which ran until the crash saved last (if none ran, the one the harness kept), whatever the harness does to other servers meanwhile
    and whatever earlier instances, which cannot be stopped, go on to save. *)
Theorem restart_keeps_state n unreliable ls0 ls c c1 c2 c3 i names :
  crun ls0 (blank_config n unreliable) = Some c → cstep (CCrash i) c = Some c1 →
  crun ls c1 = Some c2 → Forall (λ l, concerns i l = false) ls → cstep (CStart i names) c2 = Some c3 →
  ∃ rf p ps, cf_rafts c3 !! i = Some (Some rf) ∧ cf_holds c3 !! rf = Some p ∧ cf_heap c3 !! p = Some ps
    ∧ ReadRaftState ps = default [] (ReadRaftState <$> saved_persister i c)
    ∧ ∀ rf0, cf_rafts c !! i = Some (Some rf0) →
        ∃ p0 ps0, cf_holds c !! rf0 = Some p0 ∧ cf_heap c !! p0 = Some ps0 ∧ ReadRaftState ps = ReadRaftState ps0.
Proof.
  intros E0 E1 E2 Hls E3.
  assert (stored c ∧ running_saves c) as [Hs Hrun].
  { apply (for_each_inv (λ x, stored x ∧ running_saves x) cstep ls0 (blank_config n unreliable) c); [| |done].
    - intros l x x' _ [Hx Hr] E. split; [by apply (cstep_stored l x x' 0 Hx E)|by apply (cstep_running l x)].
    - split; [apply blank_stored|]. by intros j rf [? _]%lookup_replicate. }
  cbn in E1. case_decide as Hi; [|done]. destruct (crash1_stored i c c1 Hs Hi E1) as (Hs1 & Hu1 & _ & Hn1 & Hp1).
  destruct (for_each_inv (λ x, stored x ∧ unheld i x ∧ saved_persister i x = saved_persister i c1) cstep ls c1 c2) as (Hs2 & Hu2 & Hp2);
    [|done|done|].
  { intros l x x' Hl (H1 & H2 & H3) E. rewrite Forall_forall in Hls. destruct (cstep_stored l x x' i H1 E) as (? & _ & Hr).
    destruct (Hr (Hls l Hl) H2) as [? Hsp]. split_and!; [done|done|congruence]. }
  cbn in E3. case_decide as Hd; [|done]. destruct Hd as [Hi2 _].
  destruct (start1_stored i names c2 c3 Hs2 Hi2 E3) as (_ & _ & _ & rf & p & Hr & Hh & _ & Hps).
  exists rf, p. eexists. split_and!; [done|done|done|cbn; rewrite Hp2, Hp1; by destruct (saved_persister i c)|].
  intros rf0 Hrf0. destruct (Hrun i rf0 Hrf0) as (p0 & Hp0 & Hsv). destruct (sr_saved c Hs i p0 Hsv) as [_ [ps0 Hps0]].
  exists p0, ps0. split_and!; [done|done|]. cbn. by rewrite Hp2, Hp1, (saved_is c i p0 Hsv), Hps0.
Qed.

(** ** Committed commands *)
Record agreed (c : config) : Prop := {
  ag_same : ∀ i j li lj index v w, cf_logs c !! i = Some li → cf_logs c !! j = Some lj → li !! index = Some v → lj !! index = Some w → v = w;
  ag_order : ∀ i log index, cf_logs c !! i = Some log → is_Some (log !! index) → 1 < index → is_Some (log !! (index - 1));
  ag_max : ∀ i log index, cf_logs c !! i = Some log → is_Some (log !! index) → index <= cf_maxIndex c
}.

Lemma existsb_disagrees index v logs : existsb (disagrees index v) logs = false →
  ∀ j log w, logs !! j = Some log → log !! index = Some w → w = v.
Proof.
  intros E j log w Hj Hw. assert (disagrees index v log = false) as Hd.
  { destruct (disagrees index v log) eqn:Ed; [|done]. rewrite <- E. symmetry. apply existsb_exists. exists log. split; [|done].
    by apply list_elem_of_In, (list_elem_of_lookup_2 _ j). }
  unfold disagrees in Hd. rewrite Hw in Hd. apply negb_false_iff in Hd. lia.
Qed.

Lemma apply_msg_agreed i m c c' : agreed c → apply_msg i m c = Some c' → agreed c'.
Proof.
  intros Ha [->|(v & log & Ev & El & Ex & Hp & ->)]%apply_msg_cases; [done|]. destruct Ha as [H1 H2 H3].
  pose proof (existsb_disagrees _ _ _ Ex) as Hv. set (index := am_CommandIndex m) in *.
  assert (∀ j lj, <[i := <[index := v]> log]> (cf_logs c) !! j = Some lj →
    ∃ l0, cf_logs c !! j = Some l0 ∧ ∀ k, lj !! k = if decide (j = i ∧ k = index) then Some v else l0 !! k) as Hlog.
  { intros j lj. destruct (decide (j = i)) as [->|Hne].
    - rewrite list_lookup_insert_eq by (by apply lookup_lt_Some in El). intros [= <-]. exists log. split; [done|]. intros k.
      destruct (decide (k = index)) as [->|Hk]; [by rewrite lookup_insert_eq, decide_True|]. rewrite lookup_insert_ne, decide_False by naive_solver. done.
    - rewrite list_lookup_insert_ne by done. intros E. exists lj. split; [done|]. intros k. by rewrite decide_False by naive_solver. }
  split; cbn [cf_logs set_logs cf_maxIndex].
  - intros a b la lb k x y Ea Eb Ex' Ey. destruct (Hlog a la Ea) as (a0 & Ha0 & Hla), (Hlog b lb Eb) as (b0 & Hb0 & Hlb).
    rewrite Hla in Ex'. rewrite Hlb in Ey. destruct (decide (a = i ∧ k = index)) as [[-> ->]|Hna].
    + injection Ex' as <-. case_decide; [congruence|]. symmetry. by apply (Hv b b0).
    + case_decide as Hnb; [destruct Hnb as [-> ->]; injection Ey as <-; by apply (Hv a a0)|]. by apply (H1 a b a0 b0 k).
  - intros a la k Ea. destruct (Hlog a la Ea) as (a0 & Ha0 & Hla). rewrite !Hla. intros Hk Hgt.
    destruct (decide (a = i ∧ k - 1 = index)); [by eexists|]. destruct (decide (a = i ∧ k = index)) as [[-> ->]|]; [|by apply (H2 a)].
    assert (a0 = log) as -> by congruence. auto.
  - intros a la k Ea. destruct (Hlog a la Ea) as (a0 & Ha0 & Hla). rewrite Hla.
    assert (index <= (if cf_maxIndex c <? index then index else cf_maxIndex c) ∧ cf_maxIndex c <= (if cf_maxIndex c <? index then index else cf_maxIndex c))
      as [Hm1 Hm2] by (destruct (Z.ltb_spec (cf_maxIndex c) index); lia).
    destruct (decide (a = i ∧ k = index)) as [[-> ->]|]; [done|]. intros Hk. apply (H3 a a0) in Hk; [lia|done].
Qed.

(** Every other operation leaves the logs alone. *)
Lemma logs_kept l c c' : cstep l c = Some c' → (∃ i m, l = CApply i m) ∨ (cf_logs c' = cf_logs c ∧ cf_maxIndex c' = cf_maxIndex c).
Proof.
  assert (∀ i c c', connect i c = Some c' ∨ disconnect i c = Some c' → cf_logs c' = cf_logs c ∧ cf_maxIndex c' = cf_maxIndex c) as Hlink.
  { intros i x x'. unfold connect, disconnect. intros [E|E]; apply bind_Some in E as (r1 & _ & E); by apply bind_Some in E as (r2 & _ & [= <-]). }
  assert (∀ i c c', crash1 i c = Some c' → cf_logs c' = cf_logs c ∧ cf_maxIndex c' = cf_maxIndex c) as Hcrash.
  { intros i x x'. unfold crash1. intros (x1 & E1 & [= <-])%bind_Some. destruct (Hlink i x x1 (or_intror E1)) as [<- <-]. unfold copy_saved.
    by repeat case_match. }
  destruct l as [i names|i|i|i|rf f|i m]; cbn; [..|left; eauto]; try (case_decide; [|done]); intros E; right.
  - unfold start1 in E. apply bind_Some in E as (c1 & E1 & E). apply bind_Some in E as (c2 & E2 & E). apply bind_Some in E as (p & _ & [= <-]).
    destruct (Hcrash i c c1 E1) as [<- <-]. unfold make_ends in E2. apply bind_Some in E2 as (rn & _ & [= <-]). by destruct (saved_persister i _).
  - by apply (Hcrash i).
  - by apply (Hlink i); left.
  - by apply (Hlink i); right.
  - unfold persist in E. by apply bind_Some in E as (p & _ & (ps & _ & [= <-])%bind_Some).
Qed.

Lemma cstep_agreed l c c' : agreed c → cstep l c = Some c' → agreed c'.
Proof.
  intros Ha E. destruct (logs_kept l c c' E) as [(i & m & ->)|[E1 E2]].
  - cbn in E. case_decide; [|done]. by apply (apply_msg_agreed i m c).
  - destruct Ha as [H1 H2 H3]. split; by rewrite ?E1, ?E2.
Qed.

Lemma count_committed_spec index logs count cmd : (∀ log v, log ∈ logs → log !! index = Some v → 0 < count → v = cmd) →
  (∀ l1 l2 v w, l1 ∈ logs → l2 ∈ logs → l1 !! index = Some v → l2 !! index = Some w → v = w) → 0 <= count →
  ∃ cmd', count_committed index count cmd logs = Some (count + Z.of_nat (length (filter (λ log, is_Some (log !! index)) logs)), cmd')
    ∧ (∀ log v, log ∈ logs → log !! index = Some v → cmd' = v) ∧ ((∀ log, log ∈ logs → log !! index = None) → cmd' = cmd).
Proof.
  revert count cmd. induction logs as [|log logs IH]; intros count cmd Hc Hs Hpos; cbn [count_committed].
  - exists cmd. cbn. split_and!; [f_equal; f_equal; lia|by intros log v ?%elem_of_nil|done].
  - rewrite filter_cons. destruct (log !! index) as [v|] eqn:E.
    + assert ((0 <? count) && negb (cmd =? v) = false) as ->.
      { destruct (Z.ltb_spec 0 count); [|done]. rewrite (Hc log v) by set_solver. by rewrite Z.eqb_refl. }
      destruct (IH (count + 1) v) as (cmd' & -> & H1 & H2); [intros l x Hl Hx _; apply (Hs l log); set_solver|intros l1 l2 x y H1 H2; apply Hs; set_solver|lia|].
      rewrite decide_True by (by eexists). exists cmd'. split_and!.
      * cbn [length]. f_equal. f_equal. lia.
      * intros l x [->|Hl]%elem_of_cons Hx; [|by apply (H1 l)]. rewrite E in Hx. injection Hx as <-.
        destruct (decide (Exists (λ l, is_Some (l !! index)) logs)) as [He|He].
        -- apply Exists_exists in He as (l & Hl & [y Hy]). rewrite (H1 l y Hl Hy). apply (Hs l log); set_solver.
        -- apply H2. intros l Hl. apply eq_None_not_Some. intros Hy. apply He, Exists_exists. eauto.
      * intros Hnone. rewrite (Hnone log) in E by set_solver. done.
    + destruct (IH count cmd) as (cmd' & -> & H1 & H2); [intros l x Hl; apply Hc; set_solver|intros l1 l2 x y H1 H2; apply Hs; set_solver|lia|].
      rewrite decide_False by (by intros [? ?]). exists cmd'. split_and!; [done| |].
      * intros l x [->|Hl]%elem_of_cons Hx; [congruence|by apply (H1 l)].
      * intros Hnone. apply H2. intros l Hl. apply Hnone. set_solver.
Qed.

(** C27. As long as the readers of the apply channels report no error, no two servers
    have committed different commands at an index, every server has committed
    without gaps, [maxIndex] bounds all indexes, and nCommitted never fails: it
    counts the servers that have committed the index and returns the one command
    there (-1 if there is none). *)
Theorem committed_agree n unreliable ls c index : crun ls (blank_config n unreliable) = Some c →
  (∀ i j li lj k v w, cf_logs c !! i = Some li → cf_logs c !! j = Some lj → li !! k = Some v → lj !! k = Some w → v = w)
  ∧ (∀ i log k, cf_logs c !! i = Some log → is_Some (log !! k) → 1 < k → is_Some (log !! (k - 1)))
  ∧ (∀ i log k, cf_logs c !! i = Some log → is_Some (log !! k) → k <= cf_maxIndex c)
  ∧ ∃ cmd, nCommitted index c = Some (Z.of_nat (length (filter (λ log, is_Some (log !! index)) (cf_logs c))), cmd)
      ∧ (∀ log v, log ∈ cf_logs c → log !! index = Some v → cmd = v) ∧ ((∀ log, log ∈ cf_logs c → log !! index = None) → cmd = -1).
Proof.
  intros E. assert (agreed (blank_config n unreliable)) as Hb.
  { split; cbn.
    - intros i j li lj k v w [-> _]%lookup_replicate _. by rewrite lookup_empty.
    - intros i log k [-> _]%lookup_replicate. rewrite lookup_empty. by intros [? ?].
    - intros i log k [-> _]%lookup_replicate. rewrite lookup_empty. by intros [? ?]. }
  pose proof (for_each_inv agreed cstep ls _ c (λ l c c' _, cstep_agreed l c c') Hb E) as [H1 H2 H3]. split_and!; [done|done|done|].
  destruct (count_committed_spec index (cf_logs c) 0 (-1)) as (cmd & Ec & Hcmd); [lia| |lia|].
  - intros l1 l2 v w (i & Hi)%list_elem_of_lookup (j & Hj)%list_elem_of_lookup. by apply (H1 i j).
  - exists cmd. unfold nCommitted. rewrite Ec. split; [|done]. f_equal.
Qed.

(** ** Leaders *)
Definition leads (c : config) (st : States) (i : nat) (t : Z) : Prop := is_connected c i = true ∧ st !! i = Some (t, true).
#[export] Instance leads_dec c st i t : Decision (leads c st i t).
Proof. unfold leads. apply _. Defined.

Definition leaders_at (c : config) (st : States) (t : Z) : list nat := filter (λ i, leads c st i t) (seq 0 (cf_n c)).

Lemma add_leader_lookup c st i m t : default [] (add_leader c st i m !! t) = default [] (m !! t) ++ filter (λ i, leads c st i t) [i].
Proof.
  rewrite filter_cons, filter_nil. unfold add_leader. destruct (decide (leads c st i t)) as [[Hc Hs]|Hn].
  - by rewrite Hs, Hc, lookup_insert_eq.
  - rewrite app_nil_r. destruct (st !! i) as [[t' [|]]|] eqn:Es; [|done..]. destruct (is_connected c i) eqn:Ec; [|done].
    rewrite lookup_insert_ne; [done|]. intros ->. by apply Hn.
Qed.

Lemma add_leader_nonempty c st i m : (∀ t, m !! t ≠ Some []) → ∀ t, add_leader c st i m !! t ≠ Some [].
Proof.
  intros Hm t. unfold add_leader. repeat case_match; try apply Hm. rewrite lookup_insert_Some. intros [[_ Hq]|[_ Hq]]; [|by apply (Hm t)].
  by destruct (default [] _).
Qed.

Lemma collect_from c st xs m t : (∀ t, m !! t ≠ Some []) →
  default [] (foldl (λ ls i, add_leader c st i ls) m xs !! t) = default [] (m !! t) ++ filter (λ i, leads c st i t) xs
  ∧ foldl (λ ls i, add_leader c st i ls) m xs !! t ≠ Some [].
Proof.
  revert m. induction xs as [|x xs IH]; intros m Hm; cbn [foldl].
  - by rewrite filter_nil, app_nil_r.
  - destruct (IH (add_leader c st x m) (add_leader_nonempty c st x m Hm)) as [-> H2]. split; [|done].
    rewrite add_leader_lookup, <- app_assoc. f_equal. change (x :: xs) with ([x] ++ xs). by rewrite filter_app.
Qed.

(** The map of the source: the terms that have leaders, each with all of them. *)
Lemma collect_spec c st t : collect_leaders c st !! t = if decide (leaders_at c st t = []) then None else Some (leaders_at c st t).
Proof.
  destruct (collect_from c st (seq 0 (cf_n c)) ∅ t) as [H1 H2]; [intros t'; by rewrite lookup_empty|]. rewrite lookup_empty in H1. cbn [default app] in H1.
  unfold collect_leaders, leaders_at in *. case_decide as Hd.
  - rewrite Hd in H1. destruct (foldl _ _ _ !! t) as [l|]; [|done]. cbn in H1. by subst.
  - destruct (foldl _ _ _ !! t) as [l|]; cbn in H1; [by subst|]. by rewrite <- H1 in Hd.
Qed.

Lemma last_term_spec l x :
  match last_term l x with
  | None => ∃ e, e ∈ l ∧ (1 < length e.2)%nat
  | Some y => (∀ e, e ∈ l → (length e.2 ≤ 1)%nat ∧ e.1 <= y) ∧ x <= y ∧ (y = x ∨ y ∈ l.*1)
  end.
Proof.
  revert x. induction l as [|[t ls] l IH]; intros x; cbn [last_term].
  - split_and!; [by intros e ?%elem_of_nil|lia|by left].
  - destruct (Z.ltb_spec 1 (Z.of_nat (length ls))) as [Hlt|Hle]; [exists (t, ls); cbn; split; [by left|lia]|].
    set (x' := if x <? t then t else x). assert (x <= x' ∧ t <= x' ∧ (x' = x ∨ x' = t)) as (Hx1 & Hx2 & Hx3) by (unfold x'; destruct (Z.ltb_spec x t); lia).
    specialize (IH x'). destruct (last_term l x') as [y|].
    + destruct IH as (H1 & H2 & H3). split_and!.
      * intros e [->|He]%elem_of_cons; cbn; [split; lia|auto].
      * lia.
      * cbn. rewrite elem_of_cons. destruct H3 as [->|H3]; [|auto]. destruct Hx3; auto.
    + destruct IH as (e & He & Hlen). exists e. split; [by right|done].
Qed.

Lemma leaders_at_elem c st t i : i ∈ leaders_at c st t ↔ (i < cf_n c)%nat ∧ leads c st i t.
Proof. unfold leaders_at. rewrite list_elem_of_filter, elem_of_seq. split; intros [? ?]; split; auto; lia. Qed.

(** Two leaders of a term. *)
Lemma two_leaders c st t : (1 < length (leaders_at c st t))%nat ↔
  ∃ i j, i ≠ j ∧ (i < cf_n c)%nat ∧ (j < cf_n c)%nat ∧ leads c st i t ∧ leads c st j t.
Proof.
  assert (NoDup (leaders_at c st t)) as Hnd by (apply NoDup_filter, NoDup_seq). split.
  - intros Hlen. pose proof (leaders_at_elem c st t) as He. destruct (leaders_at c st t) as [|i [|j l]]; cbn in Hlen; [lia|lia|].
    exists i, j. apply NoDup_cons in Hnd as [Hi _]. destruct (proj1 (He i)) as [? ?]; [by left|]. destruct (proj1 (He j)) as [? ?]; [by right; left|].
    split_and!; try done. intros ->. apply Hi. by left.
  - intros (i & j & Hne & Hi & Hj & Li & Lj). assert (i ∈ leaders_at c st t) as Ei by (by apply leaders_at_elem).
    assert (j ∈ leaders_at c st t) as Ej by (by apply leaders_at_elem). destruct (leaders_at c st t) as [|a [|b l]]; cbn; [by apply elem_of_nil in Ei| |lia].
    apply list_elem_of_singleton in Ei, Ej. congruence.
Qed.

(** [i] leads the latest term that has a leader, and no term has two. *)
Definition latest_leader (c : config) (st : States) (i : nat) : Prop :=
  (i < cf_n c)%nat ∧ (∃ t, leads c st i t ∧ ∀ j t', (j < cf_n c)%nat → leads c st j t' → j = i ∨ t' < t)
  ∧ ∀ j k t, (j < cf_n c)%nat → (k < cf_n c)%nat → leads c st j t → leads c st k t → j = k.
Definition two_claim (c : config) (st : States) : Prop :=
  ∃ t i j, i ≠ j ∧ (i < cf_n c)%nat ∧ (j < cf_n c)%nat ∧ leads c st i t ∧ leads c st j t.
Definition none_claims (c : config) (st : States) : Prop := ∀ i t, (i < cf_n c)%nat → ¬ leads c st i t.

(** A turn of checkOneLeader fails exactly if two connected servers claim to lead
    one term, finds nothing exactly if no connected server claims to lead, and
    otherwise returns the leader of the latest term that has one. *)
Lemma check_leaders_correct `{RangeOrder} c st : (∀ i t, leads c st i t → 0 <= t) →
  match check_leaders c st with
  | None => two_claim c st
  | Some None => none_claims c st
  | Some (Some i) => latest_leader c st i
  end.
Proof.
  intros Hpos. unfold check_leaders. set (m := collect_leaders c st).
  assert (∀ e, e ∈ go_range m ↔ m !! e.1 = Some e.2) as Hin.
  { intros [t l]. unfold go_range. rewrite range_order_perm. apply elem_of_map_to_list. }
  assert (∀ t l, m !! t = Some l → l = leaders_at c st t ∧ l ≠ []) as Hm.
  { intros t l. unfold m. rewrite collect_spec. case_decide; [done|]. by intros [= <-]. }
  assert (∀ j t, (j < cf_n c)%nat → leads c st j t → m !! t = Some (leaders_at c st t)) as Hlead.
  { intros j t Hj Hl. unfold m. rewrite collect_spec, decide_False; [done|]. intros E. apply (not_elem_of_nil j). rewrite <- E. by apply leaders_at_elem. }
  pose proof (last_term_spec (go_range m) (-1)) as Hlast. destruct (last_term (go_range m) (-1)) as [y|]; cbn [mbind option_bind].
  2:{ destruct Hlast as ([t l] & He & Hlen). apply Hin in He. cbn in He, Hlen. destruct (Hm t l He) as [-> _]. exists t. by apply two_leaders. }
  destruct Hlast as (H1 & H2 & H3). case_decide as Hempty.
  { intros i t Hi Hl. pose proof (Hlead i t Hi Hl) as E. rewrite Hempty in E. by rewrite lookup_empty in E. }
  assert (∃ l, m !! y = Some l) as [l Hl].
  { destruct H3 as [->|(e & -> & He)%list_elem_of_fmap]; [|exists e.2; by apply Hin]. apply map_choose in Hempty as (t & l & E). destruct (Hm t l E) as [-> Hne].
    destruct (leaders_at c st t) as [|i ls] eqn:El; [done|]. assert (leads c st i t) as Hli by (apply leaders_at_elem; rewrite El; by left).
    apply Hpos in Hli. destruct (H1 (t, i :: ls)) as [_ Hle]; [by apply Hin|]. cbn in Hle. lia. }
  rewrite Hl. cbn. destruct (Hm y l Hl) as [-> Hne]. destruct (leaders_at c st y) as [|i ls] eqn:El; [done|]. cbn.
  assert ((i < cf_n c)%nat ∧ leads c st i y) as [Hi Hli] by (apply leaders_at_elem; rewrite El; by left). split_and!; [done| |].
  2:{ intros j k t Hj Hk Lj Lk. destruct (decide (j = k)) as [|Hjk]; [done|exfalso]. pose proof (Hlead j t Hj Lj) as E.
      destruct (H1 (t, leaders_at c st t)) as [Hlen _]; [by apply Hin|]. cbn in Hlen.
      assert (1 < length (leaders_at c st t))%nat by (apply two_leaders; by exists j, k). lia. }
  exists y. split; [done|]. intros j t' Hj Hlj. pose proof (Hlead j t' Hj Hlj) as E. destruct (H1 (t', leaders_at c st t')) as [Hlen Hle]; [by apply Hin|]. cbn in Hlen, Hle.
  destruct (decide (t' = y)) as [->|]; [|right; lia]. left. destruct (decide (j = i)); [done|]. exfalso.
  assert (1 < length (leaders_at c st y))%nat by (apply two_leaders; exists j, i; done). lia.
Qed.

(** C31. checkOneLeader, for servers that answer with terms that are not negative, tries again
    as long as no connected server claims to lead, returns the leader of the latest term of
    the first turn in which some do, provided that no term then has two, and fails exactly
    if two connected servers claim the same term in that turn, or none claims any in all turns;
    the order in which Go runs through the map of the leaders does not matter. *)
Theorem one_leader_found `{RangeOrder} c sts : (∀ st i t, st ∈ sts → leads c st i t → 0 <= t) →
  match checkOneLeader c sts with
  | Some i => ∃ k st, sts !! k = Some st ∧ Forall (none_claims c) (take k sts) ∧ latest_leader c st i
  | None => Forall (none_claims c) sts ∨ ∃ k st, sts !! k = Some st ∧ Forall (none_claims c) (take k sts) ∧ two_claim c st
  end.
Proof.
  induction sts as [|st sts IH]; intros Hpos; cbn [checkOneLeader]; [left; constructor|].
  pose proof (check_leaders_correct c st (λ i t, Hpos st i t ltac:(by left))) as Hc.
  destruct (check_leaders c st) as [[i|]|].
  - exists 0%nat, st. split_and!; [done|constructor|done].
  - specialize (IH (λ st' i t Hin, Hpos st' i t ltac:(by right))). destruct (checkOneLeader c sts) as [i|].
    + destruct IH as (k & st' & Hk & Hn & Hl). exists (S k), st'. split_and!; [done|by constructor|done].
    + destruct IH as [Hn|(k & st' & Hk & Hn & Hl)]; [left; by constructor|right]. exists (S k), st'. split_and!; [done|by constructor|done].
  - right. exists 0%nat, st. split_and!; [done|constructor|done].
Qed.

(** ** Two servers *)
Definition pair_up : list CLabel := [CStart 0 ["a"; "b"]; CStart 1 ["c"; "d"]; CConnect 0; CConnect 1].
Definition conf_after (ls : list CLabel) (c : config) : config := default c (crun ls c).
Definition pair : config := conf_after pair_up (blank_config 2 false).

Lemma partition_matrix_witness :
  let c := conf_after [CDisconnect 0] pair in
  cf_n c = 2%nat ∧ (∀ i j e, end_name c i j = Some e →
    nw_connections (cf_net c) !! e = Some (Some j) ∧ is_enabled (cf_net c) e = (is_connected c i && is_connected c j))
  ∧ (∀ e, is_enabled (cf_net c) e = true → ∃ i j, end_name c i j = Some e).
Proof.
  split; [vm_compute; reflexivity|].
  destruct (partition_matrix 2 false (pair_up ++ [CDisconnect 0]) (conf_after [CDisconnect 0] pair)) as (H1 & H2 & _); [vm_compute; reflexivity|].
  by split.
Defined.

(** A server that is connected after its crash: nothing runs as server 0, and the end
    through which its old instance calls server 1 is enabled. *)
Definition reconnected : config := conf_after [CCrash 0; CConnect 0] pair.
Example crashed_can_send : cf_rafts reconnected !! 0%nat = Some None ∧ end_name reconnected 0 1 = Some "b"
  ∧ is_enabled (cf_net reconnected) "b" = true ∧ nw_connections (cf_net reconnected) !! "b" = Some (Some 1%nat).
Proof. vm_compute. done. Qed.

(** Server 0 is crashed and started again while its old instance goes on saving. *)
Definition saved_once : config := conf_after [CPersist 1 (SaveStateAndSnapshot [x01] [x05])] pair.
Definition crashed : config := default pair (crash1 0 saved_once).
Definition old_writes : config := conf_after [CPersist 1 (SaveRaftState [x02])] crashed.
Definition restarted : config := default pair (start1 0 ["e"; "f"] old_writes).

Lemma restart_keeps_state_witness : ∃ rf p ps, cf_rafts restarted !! 0%nat = Some (Some rf) ∧ cf_holds restarted !! rf = Some p
  ∧ cf_heap restarted !! p = Some ps ∧ ReadRaftState ps = default [] (ReadRaftState <$> saved_persister 0 saved_once)
  ∧ ∀ rf0, cf_rafts saved_once !! 0%nat = Some (Some rf0) →
      ∃ p0 ps0, cf_holds saved_once !! rf0 = Some p0 ∧ cf_heap saved_once !! p0 = Some ps0 ∧ ReadRaftState ps = ReadRaftState ps0.
Proof.
  apply (restart_keeps_state 2 false (pair_up ++ [CPersist 1 (SaveStateAndSnapshot [x01] [x05])]) [CPersist 1 (SaveRaftState [x02])]
    saved_once crashed old_writes restarted 0 ["e"; "f"]); try (vm_compute; reflexivity).
  repeat constructor.
Defined.

Example restarted_state : saved_persister 0 saved_once = Some (mkPersister [x01] [x05]) ∧ saved_persister 0 restarted = Some (mkPersister [x01] []).
Proof. split; vm_compute; reflexivity. Qed.

(** crash1 keeps the raft state only: a snapshot saved with it is lost. *)
Example crash_drops_snapshot : ReadSnapshot <$> saved_persister 0 saved_once = Some [x05] ∧ ReadSnapshot <$> saved_persister 0 crashed = Some [].
Proof. split; vm_compute; reflexivity. Qed.

Definition some_commits : list CLabel :=
  [CApply 0 (mkApplyMsg true (Some 100) 1); CApply 1 (mkApplyMsg true (Some 100) 1); CApply 0 (mkApplyMsg false None 0); CApply 0 (mkApplyMsg true (Some 101) 2)].
Definition committed : config := conf_after some_commits pair.

Lemma committed_agree_witness : ∃ cmd, nCommitted 1 committed = Some (2, cmd)
  ∧ (∀ log v, log ∈ cf_logs committed → log !! 1 = Some v → cmd = v).
Proof.
  destruct (committed_agree 2 false (pair_up ++ some_commits) committed 1) as (_ & _ & _ & cmd & H1 & H2 & _); [vm_compute; reflexivity|].
  exists cmd. split; [|exact H2]. rewrite H1. vm_compute. reflexivity.
Defined.

Example commit_conflict : crun [CApply 1 (mkApplyMsg true (Some 102) 2)] committed = None ∧ crun [CApply 1 (mkApplyMsg true (Some 103) 4)] committed = None.
Proof. split; vm_compute; reflexivity. Qed.

#[local] Instance list_order : RangeOrder.
Proof. by refine {| range_order := λ A l, l |}. Defined.

(** Nobody leads in the first turn; in the second one both claim to, for different terms. *)
Definition two_turns : list States := [[(1, false); (1, false)]; [(3, true); (2, true)]].

Lemma one_leader_found_witness : checkOneLeader pair two_turns = Some 0%nat
  ∧ ∃ k st, two_turns !! k = Some st ∧ Forall (none_claims pair) (take k two_turns) ∧ latest_leader pair st 0.
Proof.
  assert (checkOneLeader pair two_turns = Some 0%nat) as E by (vm_compute; reflexivity). split; [exact E|].
  pose proof (one_leader_found pair two_turns) as Hc. rewrite E in Hc. apply Hc.
  intros st i t Hst [_ Hl]. apply elem_of_cons in Hst as [->|Hst].
  - apply list_elem_of_lookup_2 in Hl. apply elem_of_cons in Hl as [[=]|Hl]. by apply list_elem_of_singleton in Hl as [=].
  - apply list_elem_of_singleton in Hst as ->. apply list_elem_of_lookup_2 in Hl. apply elem_of_cons in Hl as [[= ->]|Hl]; [done|].
    by apply list_elem_of_singleton in Hl as [= ->].
Defined.

Example two_leaders_fail : checkOneLeader pair [[(1, false); (1, false)]; [(3, true); (3, true)]] = None.
Proof. vm_compute. reflexivity. Qed.
