(* ===== verification/KvConfig.v ===== *)
(** KvConfig: the harness of the key-value labs, which partitions servers and clients.

    Source: lab4-mapreduce/src/kvraft/config.go (SmConfig.v is the harness of the
    shard master).

    The servers are exercises without an implementation; the harness moves their
    persisters and switches the ends of the simulated network. *)
From Stdlib Require Import ZArith Lia Strings.Byte.
From stdpp Require Import gmap strings list.
From S2P Require Import Prelude.
From S2P Require Import LabRpc.
From S2P Require Import RaftConfig.
Open Scope Z_scope.

(** [kc_saved] holds pointers into [kc_heap]; [kc_next] is the next pointer,
    server and clerk. *)
Record kvconfig := mkKvConfig {
  kc_net : RaftNet;
  kc_n : nat;
  kc_kvservers : list (option nat);
  kc_saved : list (option nat);
  kc_endnames : list (option (list string));
  kc_clerks : gmap nat (list string);
  kc_nextClientId : Z;
  kc_maxraftstate : Z;
  kc_heap : gmap nat Persister;
  kc_next : nat
}.

Definition kv_set_net (rn : RaftNet) (c : kvconfig) : kvconfig :=
  mkKvConfig rn (kc_n c) (kc_kvservers c) (kc_saved c) (kc_endnames c) (kc_clerks c) (kc_nextClientId c) (kc_maxraftstate c) (kc_heap c) (kc_next c).

Definition kv_save_new (i : nat) (ps : Persister) (c : kvconfig) : kvconfig :=
  mkKvConfig (kc_net c) (kc_n c) (kc_kvservers c) (<[i := Some (kc_next c)]> (kc_saved c)) (kc_endnames c) (kc_clerks c) (kc_nextClientId c)
    (kc_maxraftstate c) (<[kc_next c := ps]> (kc_heap c)) (S (kc_next c)).

Definition kv_saved (i : nat) (c : kvconfig) : option Persister := p ← mjoin (kc_saved c !! i); kc_heap c !! p.

(** [cfg.endnames[i][j]] *)
Definition kv_end (c : kvconfig) (i j : nat) : option string := l ← mjoin (kc_endnames c !! i); l !! j.
Definition switch (c : kvconfig) (b : bool) (i j : nat) (rn : RaftNet) : option RaftNet := e ← kv_end c i j; Some (Enable e b rn).

(** attach server i to servers listed in to *)
Definition connectUnlocked (i : nat) (to : list nat) (c : kvconfig) : option kvconfig :=
  rn ← for_each to (λ j, switch c true i j) (kc_net c);
  rn ← for_each to (λ j, switch c true j i) rn;
  Some (kv_set_net rn c).

(** detach server i from the servers listed in from; the second loop looks at
    [cfg.endnames[j]] for an index [j] of the list. *)
Definition disconnectUnlocked (i : nat) (from : list nat) (c : kvconfig) : option kvconfig :=
  rn ← for_each from (λ x rn, l ← kc_endnames c !! i; match l with None => Some rn | Some _ => switch c false i x rn end) (kc_net c);
  rn ← for_each (zip (seq 0 (length from)) from)
         (λ '(j, x) rn, l ← kc_endnames c !! j; match l with None => Some rn | Some _ => switch c false x i rn end) rn;
  Some (kv_set_net rn c).

Definition All (c : kvconfig) : list nat := seq 0 (kc_n c).
Definition ConnectAll (c : kvconfig) : option kvconfig := for_each (All c) (λ i c, connectUnlocked i (All c) c) c.

(** Sets up 2 partitions with connectivity between servers in each partition. *)
Definition partition (p1 p2 : list nat) (c : kvconfig) : option kvconfig :=
  c ← for_each p1 (λ i c, c ← disconnectUnlocked i p2 c; connectUnlocked i p1 c) c;
  for_each p2 (λ i c, c ← disconnectUnlocked i p1 c; connectUnlocked i p2 c) c.

(** ** Clients *)
Definition ConnectClientUnlocked (ck : nat) (to : list nat) (c : kvconfig) : option kvconfig :=
  let endnames := default [] (kc_clerks c !! ck) in
  rn ← for_each to (λ j rn, s ← endnames !! j; Some (Enable s true rn)) (kc_net c);
  Some (kv_set_net rn c).

Definition DisconnectClientUnlocked (ck : nat) (from : list nat) (c : kvconfig) : option kvconfig :=
  let endnames := default [] (kc_clerks c !! ck) in
  rn ← for_each from (λ j rn, s ← endnames !! j; Some (Enable s false rn)) (kc_net c);
  Some (kv_set_net rn c).

Definition fresh_ends (names : list string) (rn : RaftNet) : option RaftNet :=
  for_each (zip (seq 0 (length names)) names) (λ '(j, name) rn, rn ← MakeEnd name rn; Some (Connect name j rn)) rn.

(** [names] is what randstring returned; the new clerk is a pointer. *)
Definition makeClient (names : list string) (to : list nat) (c : kvconfig) : option (nat * kvconfig) :=
  rn ← fresh_ends names (kc_net c);
  let ck := kc_next c in
  c ← ConnectClientUnlocked ck to
        (mkKvConfig rn (kc_n c) (kc_kvservers c) (kc_saved c) (kc_endnames c) (<[ck := names]> (kc_clerks c)) (i64 (kc_nextClientId c + 1))
          (kc_maxraftstate c) (kc_heap c) (S ck));
  Some (ck, c).

(** The files of the name [os.Remove] takes do not exist. *)
Definition deleteClient (ck : nat) (c : kvconfig) : kvconfig :=
  mkKvConfig (kc_net c) (kc_n c) (kc_kvservers c) (kc_saved c) (kc_endnames c) (delete ck (kc_clerks c)) (kc_nextClientId c) (kc_maxraftstate c)
    (kc_heap c) (kc_next c).

(** ** Servers *)
Definition ShutdownServer (i : nat) (c : kvconfig) : option kvconfig :=
  c ← disconnectUnlocked i (All c) c;
  let c := kv_set_net (DeleteServer i (kc_net c)) c in
  _ ← kc_saved c !! i;
  let c := match kv_saved i c with Some ps => kv_save_new i (Persister_Copy ps) c | None => c end in
  Some (mkKvConfig (kc_net c) (kc_n c) (<[i := None]> (kc_kvservers c)) (kc_saved c) (kc_endnames c) (kc_clerks c) (kc_nextClientId c)
          (kc_maxraftstate c) (kc_heap c) (kc_next c)).

Definition StartServer (i : nat) (names : list string) (c : kvconfig) : option kvconfig :=
  _ ← kc_endnames c !! i;
  rn ← fresh_ends names (kc_net c);
  let c := mkKvConfig rn (kc_n c) (kc_kvservers c) (kc_saved c) (<[i := Some names]> (kc_endnames c)) (kc_clerks c) (kc_nextClientId c)
             (kc_maxraftstate c) (kc_heap c) (kc_next c) in
  let c := match kv_saved i c with Some ps => kv_save_new i (Persister_Copy ps) c | None => kv_save_new i MakePersister c end in
  let kv := kc_next c in
  Some (mkKvConfig (AddServer i (S kv) (kc_net c)) (kc_n c) (<[i := Some kv]> (kc_kvservers c)) (kc_saved c) (kc_endnames c) (kc_clerks c)
          (kc_nextClientId c) (kc_maxraftstate c) (kc_heap c) (S (S kv))).

Definition kv_blank (n : nat) (maxraftstate : Z) : kvconfig :=
  mkKvConfig MakeNetwork n (replicate n None) (replicate n None) (replicate n None) ∅ (Z.of_nat n + 1000) maxraftstate ∅ 0.

Definition kv_make_config (n : nat) (unreliable : bool) (maxraftstate : Z) (names : nat → list string) : option kvconfig :=
  c ← for_each (seq 0 n) (λ i c, StartServer i (names i) c) (kv_blank n maxraftstate);
  c ← ConnectAll c;
  Some (kv_set_net (Reliable (negb unreliable) (kc_net c)) c).

(** Maximum log and snapshot size across all servers; a nil persister panics. *)
Definition max_size (size : Persister → Z) (c : kvconfig) : option Z :=
  for_each (All c) (λ i m, ps ← kv_saved i c; let n := size ps in Some (if m <? n then n else m)) 0.
Definition LogSize (c : kvconfig) : option Z := max_size RaftStateSize c.
Definition kv_SnapshotSize (c : kvconfig) : option Z := max_size SnapshotSize c.

(** ** Partitions around the leader *)

(** [leads !! i] is what server [i] answers to GetState; [Some None] is a server that
    was shut down: [cfg.kvservers[i].rf] panics. *)
Fixpoint find_leader (i : nat) (leads : list (option bool)) : option (bool * nat) :=
  match leads with
  | [] => Some (false, 0%nat)
  | o :: leads' => b ← o; if (b : bool) then Some (true, i) else find_leader (S i) leads'
  end.
Definition Leader (leads : list (option bool)) : option (bool * nat) := find_leader 0 leads.

(** [l[k] = x] *)
Definition store_at (k x : nat) (l : list nat) : option (list nat) := if decide (k < length l)%nat then Some (<[k := x]> l) else None.

Definition place (l i : nat) (st : list nat * list nat * nat) : option (list nat * list nat * nat) :=
  let '(p1, p2, j) := st in
  if decide (i = l) then Some st
  else if decide (j < length p1)%nat then p1' ← store_at j i p1; Some (p1', p2, S j)
  else p2' ← store_at (j - length p1) i p2; Some (p1, p2', S j).

(** Partition servers into 2 groups and put current leader in minority *)
Definition make_partition (n : nat) (leads : list (option bool)) : option (list nat * list nat) :=
  '(_, l) ← Leader leads;
  '(p1, p2, _) ← for_each (seq 0 n) (place l) (replicate (n / 2 + 1) 0%nat, replicate (n / 2) 0%nat, 0%nat);
  match length p2 with
  | O => None
  | S k => p2' ← store_at k l p2; Some (p1, p2')
  end.

(** ** Partitions split the network *)
Record ready (c : kvconfig) : Prop := {
  rd_len : length (kc_endnames c) = kc_n c;
  rd_end : ∀ i, (i < kc_n c)%nat → ∃ l, kc_endnames c !! i = Some (Some l) ∧ length l = kc_n c;
  rd_inj : ∀ i j i' j' e, kv_end c i j = Some e → kv_end c i' j' = Some e → (i', j') = (i, j)
}.

Lemma kv_end_some c i j : ready c → (i < kc_n c)%nat → (j < kc_n c)%nat → ∃ e, kv_end c i j = Some e.
Proof.
  intros Hr Hi Hj. destruct (rd_end c Hr i Hi) as (l & El & Hl). unfold kv_end. rewrite El. cbn. apply lookup_lt_is_Some. lia.
Qed.

(** A loop that switches the ends of the pairs [g]. *)
Lemma switches {A} (f : A → RaftNet → option RaftNet) (g : A → nat * nat) b xs c rn : ready c →
  (∀ x rn, x ∈ xs → f x rn = switch c b (g x).1 (g x).2 rn) → (∀ x, x ∈ xs → ((g x).1 < kc_n c)%nat ∧ ((g x).2 < kc_n c)%nat) →
  ∃ rn', for_each xs f rn = Some rn' ∧ ∀ i j e, kv_end c i j = Some e → is_enabled rn' e = if decide ((i, j) ∈ g <$> xs) then b else is_enabled rn e.
Proof.
  intros Hr. revert rn. induction xs as [|x xs IH]; intros rn Hf Hb; cbn [for_each].
  - exists rn. split; [done|]. intros i j e _. by rewrite decide_False by apply not_elem_of_nil.
  - destruct (Hb x) as [H1 H2]; [by left|]. destruct (kv_end_some c (g x).1 (g x).2 Hr H1 H2) as [e0 He0].
    rewrite Hf by (by left). unfold switch at 1. rewrite He0. cbn.
    destruct (IH (Enable e0 b rn)) as (rn' & E & Hen); [intros y r Hy; apply Hf; by right|intros y Hy; apply Hb; by right|].
    exists rn'. split; [done|]. intros i j e He. rewrite (Hen i j e He), is_enabled_Enable.
    assert (e = e0 ↔ (i, j) = g x) as Heq.
    { split; [intros ->; rewrite (rd_inj c Hr _ _ _ _ _ He0 He); by destruct (g x)|]. intros Eq. rewrite <- Eq in He0. cbn in He0. congruence. }
    destruct (decide ((i, j) ∈ g <$> xs)) as [Hin|Hin]; [by rewrite decide_True by (by right)|].
    destruct (decide (e = e0)) as [Hee|Hne]; [rewrite (proj1 Heq Hee); by rewrite decide_True by (by left)|].
    rewrite decide_False; [done|]. intros [Eq|?]%elem_of_cons; [|done]. by apply Hne, Heq.
Qed.

Definition linked (x : nat) (ys : list nat) (i j : nat) : Prop := (i = x ∧ j ∈ ys) ∨ (j = x ∧ i ∈ ys).
#[export] Instance linked_dec x ys i j : Decision (linked x ys i j).
Proof. unfold linked. apply _. Defined.

(** What is enabled between the servers. *)
Definition sees (c : kvconfig) (i j : nat) : bool := match kv_end c i j with Some e => is_enabled (kc_net c) e | None => false end.

(** The server of the network at which a call of server [i] to server [j] arrives. *)
Definition calls (c : kvconfig) (i j : nat) : option nat :=
  e ← kv_end c i j;
  match ReadEndnameInfo (kc_net c) e with (true, Some _, Some server, _, _) => Some server | _ => None end.

(** [c'] has the names of [c], and the links of [m]. *)
Definition switched (c c' : kvconfig) (m : nat → nat → bool) : Prop :=
  (∀ i j, kv_end c' i j = kv_end c i j) ∧ kc_endnames c' = kc_endnames c ∧ kc_n c' = kc_n c
  ∧ ∀ i j, (i < kc_n c)%nat → (j < kc_n c)%nat → sees c' i j = m i j.

Lemma switched_ready c c' m : ready c → switched c c' m → ready c'.
Proof. intros [H1 H2 H3] (E1 & E2 & E3 & _). split; rewrite ?E2, ?E3; [done|done|]. intros i j i' j' e. rewrite !E1. apply H3. Qed.

Lemma sees_end c rn i j e : kv_end c i j = Some e → sees (kv_set_net rn c) i j = is_enabled rn e.
Proof. intros E. unfold sees. change (kv_end (kv_set_net rn c) i j) with (kv_end c i j). by rewrite E. Qed.

Lemma pairs_linked x ys i j : (i, j) ∈ ((λ y, (x, y)) <$> ys) ∨ (i, j) ∈ ((λ y, (y, x)) <$> ys) ↔ linked x ys i j.
Proof.
  unfold linked. rewrite !list_elem_of_fmap. split.
  - intros [(y & [= -> ->] & ?)|(y & [= -> ->] & ?)]; auto.
  - intros [[-> ?]|[-> ?]]; eauto.
Qed.

(** Both loops of connectUnlocked and disconnectUnlocked. *)
Lemma two_loops c x ys b (f1 : nat → RaftNet → option RaftNet) {B} (zs : list B) (f2 : B → RaftNet → option RaftNet) (h : B → nat) :
  ready c → (x < kc_n c)%nat → Forall (λ y, y < kc_n c)%nat ys → h <$> zs = ys →
  (∀ y rn, y ∈ ys → f1 y rn = switch c b x y rn) → (∀ z rn, z ∈ zs → f2 z rn = switch c b (h z) x rn) →
  ∃ c', (rn ← for_each ys f1 (kc_net c); rn ← for_each zs f2 rn; Some (kv_set_net rn c)) = Some c'
    ∧ switched c c' (λ i j, if decide (linked x ys i j) then b else sees c i j).
Proof.
  intros Hr Hx Hys Hzs Hf1 Hf2. rewrite Forall_forall in Hys.
  destruct (switches f1 (λ y, (x, y)) b ys c (kc_net c) Hr) as (r1 & E1 & G1); [done|intros y Hy; cbn; auto|].
  destruct (switches f2 (λ z, (h z, x)) b zs c r1 Hr) as (r2 & E2 & G2); [done|intros z Hz; cbn; split; [apply Hys; subst ys; by apply list_elem_of_fmap_2|done]|].
  rewrite E1. cbn. rewrite E2. cbn. exists (kv_set_net r2 c). split; [done|]. split_and!; [done|done|done|]. intros i j Hi Hj.
  destruct (kv_end_some c i j Hr Hi Hj) as [e He]. rewrite (sees_end c r2 i j e He), (G2 i j e He), (G1 i j e He).
  assert (((λ z, (h z, x)) <$> zs) = ((λ y, (y, x)) <$> ys)) as Ez by (subst ys; by rewrite <- list_fmap_compose). rewrite Ez.
  unfold sees. rewrite He. destruct (decide ((i, j) ∈ (λ y, (y, x)) <$> ys)) as [Ha|Ha].
  { rewrite decide_True; [done|]. apply pairs_linked. by right. }
  destruct (decide ((i, j) ∈ (λ y, (x, y)) <$> ys)) as [Hb|Hb]; [rewrite decide_True; [done|]; apply pairs_linked; by left|].
  rewrite decide_False; [done|]. by intros [?|?]%pairs_linked.
Qed.

Lemma connect_switches c x ys : ready c → (x < kc_n c)%nat → Forall (λ y, y < kc_n c)%nat ys →
  ∃ c', connectUnlocked x ys c = Some c' ∧ switched c c' (λ i j, if decide (linked x ys i j) then true else sees c i j).
Proof. intros Hr Hx Hys. apply (two_loops c x ys true _ ys _ id); try done. apply list_fmap_id. Qed.

Lemma disconnect_switches c x ys : ready c → (x < kc_n c)%nat → Forall (λ y, y < kc_n c)%nat ys → (length ys ≤ kc_n c)%nat →
  ∃ c', disconnectUnlocked x ys c = Some c' ∧ switched c c' (λ i j, if decide (linked x ys i j) then false else sees c i j).
Proof.
  intros Hr Hx Hys Hlen. apply (two_loops c x ys false _ (zip (seq 0 (length ys)) ys) _ snd); try done.
  - apply snd_zip. rewrite length_seq. lia.
  - intros y rn _. destruct (rd_end c Hr x Hx) as (l & -> & _). done.
  - intros [j y] rn Hz. assert (j < kc_n c)%nat as Hj.
    { apply elem_of_zip_l in Hz. apply elem_of_seq in Hz. lia. }
    destruct (rd_end c Hr j Hj) as (l & -> & _). done.
Qed.

Lemma switched_trans c1 c2 c3 m : ready c1 → (∃ m1, switched c1 c2 m1) → switched c2 c3 m → switched c1 c3 m.
Proof. intros Hr (m1 & E1 & E2 & E3 & _) (F1 & F2 & F3 & F4). split_and!; [intros; by rewrite F1|congruence|congruence|]. rewrite <- E3. done. Qed.

Lemma switched_ext c c' m m' : switched c c' m → (∀ i j, (i < kc_n c)%nat → (j < kc_n c)%nat → m i j = m' i j) → switched c c' m'.
Proof. intros (E1 & E2 & E3 & E4) Hm. split_and!; try done. intros i j Hi Hj. rewrite E4 by done. auto. Qed.

(** One of the two loops of partition. *)
Lemma partition_half c p q xs : ready c → Forall (λ y, y < kc_n c)%nat p → Forall (λ y, y < kc_n c)%nat q → (length q ≤ kc_n c)%nat →
  (∀ x, x ∈ p → x ∈ q → False) → (∀ x, x ∈ xs → x ∈ p) →
  ∃ c', for_each xs (λ i c, c ← disconnectUnlocked i q c; connectUnlocked i p c) c = Some c'
    ∧ switched c c' (λ i j, if decide (Exists (λ x, linked x p i j) xs) then true
                            else if decide (Exists (λ x, linked x q i j) xs) then false else sees c i j).
Proof.
  revert c. induction xs as [|x xs IH]; intros c Hr Hp Hq Hlen Hdisj Hxs; cbn [for_each].
  - exists c. split; [done|]. split_and!; [done|done|done|]. intros i j _ _. by rewrite !decide_False by (by intros ?%Exists_nil).
  - assert (x < kc_n c)%nat as Hx by (rewrite Forall_forall in Hp; apply Hp, Hxs; by left).
    destruct (disconnect_switches c x q Hr Hx Hq Hlen) as (c1 & E1 & S1). pose proof (switched_ready c c1 _ Hr S1) as Hr1.
    pose proof S1 as (_ & _ & N1 & M1). destruct (connect_switches c1 x p Hr1) as (c2 & E2 & S2); [lia|by rewrite N1|].
    pose proof (switched_ready c1 c2 _ Hr1 S2) as Hr2. pose proof S2 as (_ & _ & N2 & M2). rewrite E1. cbn. rewrite E2. cbn.
    destruct (IH c2) as (c' & E & S3); [done|by rewrite N2, N1|by rewrite N2, N1|lia|done|intros y Hy; apply Hxs; by right|].
    exists c'. split; [done|]. apply (switched_trans c c2 c' _ Hr) in S3; [|eexists; by apply (switched_trans c c1 c2 _ Hr); [eexists|]].
    refine (switched_ext _ _ _ _ S3 _). intros i j Hi Hj. rewrite N1 in M2. rewrite M2, M1 by done.
    assert (∀ y, y ∈ xs → y ∈ p) as Hxs' by (intros y Hy; apply Hxs; by right).
    assert (Exists (λ x, linked x q i j) xs → ¬ linked x p i j) as Hcon.
    { intros (y & Hy & Hl)%Exists_exists Hlp. assert (x ∈ p) by (apply Hxs; by left). specialize (Hxs' y Hy).
      destruct Hl as [[-> ?]|[-> ?]], Hlp as [[? ?]|[? ?]]; subst; eauto. }
    destruct (decide (Exists (λ x, linked x p i j) xs)) as [He1|He1].
    { rewrite decide_True; [done|]. by right. }
    destruct (decide (linked x p i j)) as [Hlp|Hlp].
    + rewrite (decide_True _ _ (Exists_cons_hd _ x xs Hlp)). rewrite decide_False; [done|]. intros He2. by apply Hcon in He2.
    + rewrite (decide_False (P := Exists (λ x, linked x p i j) (x :: xs))) by (by intros [?|?]%Exists_cons).
      destruct (decide (Exists (λ x, linked x q i j) xs)) as [He2|He2]; [rewrite decide_True; [done|by right]|].
      destruct (decide (linked x q i j)) as [Hlq|Hlq]; [rewrite decide_True; [done|by left]|].
      rewrite decide_False; [done|]. by intros [?|?]%Exists_cons.
Qed.

Lemma exists_linked p xs i j : Exists (λ x, linked x p i j) xs ↔ (i ∈ xs ∧ j ∈ p) ∨ (j ∈ xs ∧ i ∈ p).
Proof.
  rewrite Exists_exists. unfold linked. split.
  - intros (x & Hx & [[-> ?]|[-> ?]]); auto.
  - intros [[? ?]|[? ?]]; eauto.
Qed.

(** [partition] splits the network: afterwards two servers of one part can call
    each other and two servers of different parts cannot, in either direction,
    whatever was enabled before; nothing changes for servers outside the parts. *)
Theorem partition_splits c p1 p2 : ready c → Forall (λ y, y < kc_n c)%nat p1 → Forall (λ y, y < kc_n c)%nat p2 →
  (length p1 ≤ kc_n c)%nat → (length p2 ≤ kc_n c)%nat → (∀ x, x ∈ p1 → x ∈ p2 → False) →
  ∃ c', partition p1 p2 c = Some c' ∧ ready c' ∧ ∀ i j, (i < kc_n c)%nat → (j < kc_n c)%nat →
    sees c' i j = if decide ((i ∈ p1 ∧ j ∈ p1) ∨ (i ∈ p2 ∧ j ∈ p2)) then true
                  else if decide ((i ∈ p1 ∧ j ∈ p2) ∨ (i ∈ p2 ∧ j ∈ p1)) then false else sees c i j.
Proof.
  intros Hr H1 H2 L1 L2 Hd. destruct (partition_half c p1 p2 p1 Hr H1 H2 L2 Hd) as (c1 & E1 & S1); [done|].
  pose proof (switched_ready c c1 _ Hr S1) as Hr1. destruct S1 as (_ & _ & N1 & M1).
  destruct (partition_half c1 p2 p1 p2 Hr1) as (c' & E' & S'); [by rewrite N1|by rewrite N1|lia|naive_solver|done|].
  pose proof (switched_ready c1 c' _ Hr1 S') as Hr'. destruct S' as (_ & _ & N' & M'). exists c'. unfold partition. rewrite E1. cbn. split_and!; [done|done|].
  intros i j Hi Hj. rewrite N1 in M'. rewrite M', M1 by done. repeat case_decide; rewrite ?exists_linked in *; naive_solver.
Qed.

(** ** A new configuration *)

(** The servers below [k] have been started. *)
Record started (k : nat) (c : kvconfig) : Prop := {
  sd_len : length (kc_endnames c) = kc_n c;
  sd_end : ∀ i, (i < k)%nat → ∃ l, kc_endnames c !! i = Some (Some l) ∧ length l = kc_n c;
  sd_known : ∀ i j e, kv_end c i j = Some e → e ∈ nw_ends (kc_net c);
  sd_inj : ∀ i j i' j' e, kv_end c i j = Some e → kv_end c i' j' = Some e → (i', j') = (i, j)
}.

Lemma StartServer_ends i names c c' : StartServer i names c = Some c' →
  ∃ rn, fresh_ends names (kc_net c) = Some rn ∧ kc_endnames c' = <[i := Some names]> (kc_endnames c) ∧ kc_n c' = kc_n c ∧ nw_ends (kc_net c') = nw_ends rn.
Proof.
  unfold StartServer. intros (_ & _ & (rn & E & [= <-])%bind_Some)%bind_Some. exists rn. split; [done|]. by destruct (kv_saved i _).
Qed.

Lemma start_started k x names c c' : started k c → (x ≤ k)%nat → (x < kc_n c)%nat → length names = kc_n c → StartServer x names c = Some c' →
  started (k `max` S x) c' ∧ kc_n c' = kc_n c.
Proof.
  intros [H1 H2 H3 H4] Hx Hk Hlen E. destruct (StartServer_ends x names c c' E) as (rn & Ef & Een & En & Eends). split; [|done].
  destruct (make_ends_loop 0 names (kc_net c) rn Ef) as (Hnd & Hnew & Hends & _).
  assert (∀ i j, kv_end c' i j = if decide (i = x) then names !! j else kv_end c i j) as Hkv.
  { intros i j. unfold kv_end. rewrite Een. case_decide; [subst; by rewrite list_lookup_insert_eq by lia|by rewrite list_lookup_insert_ne]. }
  assert (∀ i j e, kv_end c i j = Some e → e ∉ names) as Hold by (intros i j e He Hin; by apply (Hnew e Hin), (H3 i j)).
  split; rewrite ?Een, ?En, ?Eends.
  - by rewrite length_insert.
  - intros i Hi. destruct (decide (i = x)) as [->|Hne]; [exists names; by rewrite list_lookup_insert_eq by lia|].
    rewrite list_lookup_insert_ne by done. apply H2. lia.
  - intros i j e. rewrite Hkv, Hends. case_decide; [intros ?%list_elem_of_lookup_2; by left|intros; right; by apply (H3 i j)].
  - intros i j i' j' e. rewrite !Hkv. destruct (decide (i = x)) as [->|], (decide (i' = x)) as [->|].
    + intros E1 E2. by rewrite (NoDup_lookup names j' j e Hnd E2 E1).
    + intros E1%list_elem_of_lookup_2 E2. by apply Hold in E2.
    + intros E1 E2%list_elem_of_lookup_2. by apply Hold in E1.
    + apply H4.
Qed.

Lemma started_ready c : started (kc_n c) c → ready c.
Proof. intros [H1 H2 _ H4]. by split. Qed.

Lemma start_all names m k c c' : started k c → (k + m = kc_n c)%nat → (∀ i, length (names i) = kc_n c) →
  for_each (seq k m) (λ i c, StartServer i (names i) c) c = Some c' → started (kc_n c) c' ∧ kc_n c' = kc_n c.
Proof.
  revert k c. induction m as [|m IH]; intros k c Hs Hk Hn; cbn [seq for_each].
  - intros [= <-]. split; [|done]. by replace (kc_n c) with k by lia.
  - intros (c1 & E1 & E2)%bind_Some. destruct (start_started k k (names k) c c1 Hs) as [Hs1 Hn1]; [lia|lia|done|done|]. rewrite Nat.max_r in Hs1 by lia.
    rewrite <- Hn1. apply (IH (S k) c1); [done|lia|by rewrite Hn1|done].
Qed.

Lemma connect_all_loop xs c : ready c → Forall (λ y, y < kc_n c)%nat xs →
  ∃ c', for_each xs (λ i c, connectUnlocked i (All c) c) c = Some c' ∧ switched c c' (λ i j, if decide (i ∈ xs ∨ j ∈ xs) then true else sees c i j).
Proof.
  revert c. induction xs as [|x xs IH]; intros c Hr Hxs; cbn [for_each].
  - exists c. split; [done|]. split_and!; [done|done|done|]. intros i j _ _. by rewrite decide_False by (by intros [?%elem_of_nil|?%elem_of_nil]).
  - apply Forall_cons in Hxs as [Hx Hxs]. destruct (connect_switches c x (All c) Hr Hx) as (c1 & E1 & S1).
    { apply Forall_forall. intros y [_ Hy]%elem_of_seq. lia. }
    pose proof (switched_ready c c1 _ Hr S1) as Hr1. pose proof S1 as (_ & _ & N1 & M1). rewrite E1. cbn.
    destruct (IH c1 Hr1) as (c' & E & S'); [by rewrite N1|]. exists c'. split; [done|]. apply (switched_trans c c1 c' _ Hr) in S'; [|by eexists].
    refine (switched_ext _ _ _ _ S' _). intros i j Hi Hj. rewrite M1 by done.
    assert (linked x (All c) i j ↔ i = x ∨ j = x) as Hl. { unfold linked, All. rewrite !elem_of_seq. split; [naive_solver|]. intros [->| ->]; [left|right]; split; lia || done. }
    repeat case_decide; set_solver.
Qed.

Lemma blank_started n maxraftstate : started 0 (kv_blank n maxraftstate).
Proof.
  assert (∀ i j, kv_end (kv_blank n maxraftstate) i j = None) as Hblank.
  { intros i j. unfold kv_end. cbn. destruct (replicate n None !! i) as [x|] eqn:E; [|done]. by apply lookup_replicate in E as [-> _]. }
  split; [cbn; by rewrite length_replicate|lia|intros i j e; by rewrite Hblank|intros i j i' j' e; by rewrite Hblank].
Qed.

Lemma kv_make_config_ready n unreliable maxraftstate names c : (∀ i, length (names i) = n) →
  kv_make_config n unreliable maxraftstate names = Some c →
  ready c ∧ kc_n c = n ∧ ∀ i j, (i < n)%nat → (j < n)%nat → sees c i j = true.
Proof.
  intros Hn. unfold kv_make_config. intros (c1 & E1 & (c2 & E2 & [= <-])%bind_Some)%bind_Some.
  destruct (start_all names n 0 (kv_blank n maxraftstate) c1) as [Hs1 Hn1]; [apply blank_started|done|done|done|].
  assert (ready c1) as Hr1 by (apply started_ready; by rewrite Hn1).
  destruct (connect_all_loop (All c1) c1 Hr1) as (c2' & E2' & S2); [apply Forall_forall; intros y [_ Hy]%elem_of_seq; lia|].
  unfold ConnectAll in E2. assert (c2' = c2) as -> by congruence. cbn in Hn1. pose proof (switched_ready c1 c2 _ Hr1 S2) as [R1 R2 R3].
  destruct S2 as (_ & _ & N2 & M2). rewrite Hn1 in N2. split_and!; [by split|done|]. intros i j Hi Hj.
  change (sees c2 i j = true). rewrite M2 by lia. rewrite decide_True; [done|]. left. apply elem_of_seq. lia.
Qed.

(** ** The leader in the minority *)

(** The two slices as one. *)
Lemma place_buffer l i p1 p2 j : (j < length p1 + length p2)%nat → i ≠ l →
  ∃ p1' p2', place l i (p1, p2, j) = Some (p1', p2', S j) ∧ p1' ++ p2' = <[j := i]> (p1 ++ p2) ∧ length p1' = length p1.
Proof.
  intros Hj Hne. unfold place. rewrite decide_False by done. unfold store_at. case_decide as Hlt.
  - exists (<[j := i]> p1), p2. rewrite insert_app_l by done. by rewrite length_insert.
  - rewrite decide_True by lia. cbn. exists p1, (<[(j - length p1)%nat := i]> p2). split_and!; [done| |done].
    rewrite insert_app_r_alt by lia. done.
Qed.

Lemma insert_next (a b : list nat) i : b ≠ [] → <[length a := i]> (a ++ b) = (a ++ [i]) ++ tail b.
Proof. destruct b as [|x b]; [done|]. intros _. rewrite <- app_assoc. cbn. replace (length a) with (length a + 0)%nat by lia. by rewrite insert_app_r. Qed.

Lemma place_all l xs p1 p2 a b : p1 ++ p2 = a ++ b → (length (filter (λ i, i ≠ l) xs) ≤ length b)%nat →
  ∃ p1' p2' j, for_each xs (place l) (p1, p2, length a) = Some (p1', p2', j) ∧ length p1' = length p1
    ∧ p1' ++ p2' = (a ++ filter (λ i, i ≠ l) xs) ++ drop (length (filter (λ i, i ≠ l) xs)) b.
Proof.
  revert p1 p2 a b. induction xs as [|x xs IH]; intros p1 p2 a b Hab Hlen; cbn [for_each].
  - exists p1, p2, (length a). split_and!; [done|done|]. by rewrite filter_nil, app_nil_r.
  - rewrite filter_cons in *. destruct (decide (x ≠ l)) as [Hne|Heq].
    + cbn [length] in Hlen. assert (b ≠ []) as Hb by (intros ->; cbn in Hlen; lia).
      assert (length p1 + length p2 = length a + length b)%nat as Hl by (by rewrite <- !length_app, Hab).
      destruct (place_buffer l x p1 p2 (length a)) as (q1 & q2 & -> & Hq & Hq1); [destruct b; [done|cbn in *; lia]|done|]. cbn [mbind option_bind].
      rewrite Hab, insert_next in Hq by done. replace (S (length a)) with (length (a ++ [x])) by (rewrite length_app; cbn; lia).
      destruct (IH q1 q2 (a ++ [x]) (tail b) Hq) as (r1 & r2 & j & E & Hr1 & Hr); [destruct b; cbn in *; lia|].
      exists r1, r2, j. split_and!; [done|lia|]. rewrite Hr. destruct b as [|y b]; [done|]. cbn [tail length drop]. by rewrite <- !app_assoc.
    + assert (x = l) as -> by (destruct (decide (x = l)); [done|by destruct Heq]). 
      assert (place l l (p1, p2, length a) = Some (p1, p2, length a)) as -> by (unfold place; by rewrite decide_True).
      by apply IH.
Qed.

(** Servers that are all up. *)
Lemma find_leader_up i leads : ∃ known l, find_leader i (Some <$> leads) = Some (known, l) ∧ (l < i + length leads ∨ l = 0)%nat.
Proof.
  revert i. induction leads as [|b leads IH]; intros i; cbn; [eauto|]. destruct b; cbn; [exists true, i; split; [done|lia]|].
  destruct (IH (S i)) as (known & l & -> & Hl). exists known, l. split; [done|]. lia.
Qed.

Lemma others_length n l : (l < n)%nat → length (filter (λ i, i ≠ l) (seq 0 n)) = (n - 1)%nat ∧ l :: filter (λ i, i ≠ l) (seq 0 n) ≡ₚ seq 0 n.
Proof.
  intros Hl. assert (l :: filter (λ i, i ≠ l) (seq 0 n) ≡ₚ seq 0 n) as Hp.
  { apply NoDup_Permutation; [|apply NoDup_seq|].
    - apply NoDup_cons. split; [by intros [? _]%list_elem_of_filter|apply NoDup_filter, NoDup_seq].
    - intros x. rewrite elem_of_cons, list_elem_of_filter, !elem_of_seq. destruct (decide (x = l)) as [->|]; [|naive_solver lia].
      split; [lia|by left]. }
  split; [|done]. apply Permutation_length in Hp. cbn in Hp. rewrite length_seq in Hp. lia.
Qed.

(** For an odd number of servers, at least three, [make_partition] divides them
    into a majority and a minority, each server in exactly one of them, and puts
    the leader into the minority. *)
Theorem make_partition_minority k leads : (1 ≤ k)%nat → length leads = (2 * k + 1)%nat →
  ∃ known l p1 p2, Leader (Some <$> leads) = Some (known, l) ∧ make_partition (2 * k + 1) (Some <$> leads) = Some (p1, p2)
    ∧ p1 ++ p2 ≡ₚ seq 0 (2 * k + 1) ∧ length p1 = (k + 1)%nat ∧ length p2 = k ∧ l ∈ p2.
Proof.
  intros Hk Hlen. unfold make_partition. set (n := (2 * k + 1)%nat) in *. destruct (find_leader_up 0 leads) as (known & l & El & Hl').
  unfold Leader. rewrite El. cbn [mbind option_bind]. assert (l < n)%nat as Hl by lia.
  assert (n / 2 = k)%nat as Hdiv by (unfold n; replace (2 * k + 1)%nat with (1 + k * 2)%nat by lia; by rewrite Nat.div_add by lia).
  destruct (others_length n l Hl) as [Ho Hp]. replace (n - 1)%nat with (2 * k)%nat in Ho by (unfold n; lia). set (others := filter (λ i, i ≠ l) (seq 0 n)) in *. rewrite Hdiv.
  destruct (place_all l (seq 0 n) (replicate (k + 1) 0%nat) (replicate k 0%nat) [] (replicate (k + 1) 0%nat ++ replicate k 0%nat)) as (p1 & p2 & j & E & L1 & Hb).
  { done. }
  { fold others. rewrite length_app, !length_replicate. lia. }
  cbn [length] in E. rewrite E. cbn [mbind option_bind]. fold others in Hb. cbn [app] in Hb. rewrite length_replicate in L1.
  rewrite <- replicate_add, drop_replicate in Hb. replace (k + 1 + k - length others)%nat with 1%nat in Hb by lia. change (replicate 1 0%nat) with [0%nat] in Hb.
  assert (length p2 = k) as L2. { apply (f_equal length) in Hb. rewrite !length_app in Hb. cbn [length] in Hb. lia. }
  assert (∃ q, p2 = q ++ [0%nat] ∧ p1 ++ q = others) as (q & -> & Hq).
  { destruct p2 as [|x p2] using rev_ind; [cbn in L2; lia|]. rewrite app_assoc in Hb. apply app_inj_tail in Hb as [? ->]. eauto. }
  rewrite length_app in L2. cbn [length] in L2. rewrite length_app. cbn [length]. replace (length q + 1)%nat with (S (length q)) by lia.
  unfold store_at. rewrite decide_True by (rewrite length_app; cbn; lia). cbn. exists known, l, p1, (q ++ [l]).
  replace (<[length q := l]> (q ++ [0%nat])) with (q ++ [l]) by (rewrite (insert_next q [0%nat] l) by done; by rewrite app_nil_r).
  split_and!; [done|done| |done|rewrite length_app; cbn; lia|set_solver]. rewrite app_assoc, Hq, Permutation_app_comm. done.
Qed.

(** ** Three servers *)
Definition three_names (i : nat) : list string := match i with 0%nat => ["a"; "b"; "c"] | 1%nat => ["d"; "e"; "f"] | _ => ["g"; "h"; "i"] end.
Definition three : kvconfig := default (kv_blank 3 (-1)) (kv_make_config 3 false (-1) three_names).

Lemma three_ready : ready three ∧ kc_n three = 3%nat ∧ ∀ i j, (i < 3)%nat → (j < 3)%nat → sees three i j = true.
Proof. apply (kv_make_config_ready 3 false (-1) three_names); [by intros [|[|i]]|]. vm_compute. reflexivity. Qed.

Lemma partition_splits_witness : ∃ c', partition [0; 1]%nat [2%nat] three = Some c' ∧ ready c'
  ∧ ∀ i j, (i < kc_n three)%nat → (j < kc_n three)%nat →
    sees c' i j = if decide ((i ∈ [0; 1]%nat ∧ j ∈ [0; 1]%nat) ∨ (i ∈ [2%nat] ∧ j ∈ [2%nat])) then true
                  else if decide ((i ∈ [0; 1]%nat ∧ j ∈ [2%nat]) ∨ (i ∈ [2%nat] ∧ j ∈ [0; 1]%nat)) then false else sees three i j.
Proof.
  destruct three_ready as (Hr & Hn & _). apply (partition_splits three [0; 1]%nat [2%nat] Hr); rewrite ?Hn.
  - repeat constructor.
  - repeat constructor.
  - cbn. lia.
  - cbn. lia.
  - intros x. rewrite !elem_of_cons, !elem_of_nil. lia.
Defined.

Lemma make_partition_minority_witness : ∃ known l p1 p2, Leader (Some <$> [false; true; false; false; false]) = Some (known, l)
  ∧ make_partition (2 * 2 + 1) (Some <$> [false; true; false; false; false]) = Some (p1, p2)
  ∧ p1 ++ p2 ≡ₚ seq 0 (2 * 2 + 1) ∧ length p1 = (2 + 1)%nat ∧ length p2 = 2%nat ∧ l ∈ p2.
Proof. apply (make_partition_minority 2 [false; true; false; false; false]); [lia|reflexivity]. Defined.

(** With an even number of servers a slot of the minority is not filled: server 0
    is in both parts. *)
Example even_partition : make_partition 4 (Some <$> [false; false; false; true]) = Some ([0; 1; 2]%nat, [0; 3]%nat).
Proof. vm_compute. reflexivity. Qed.

(** disconnectUnlocked tests the ends of server [j] and uses those of server
    [from[j]]: with a server that was not started it panics. *)
Definition two_started : kvconfig :=
  default (kv_blank 3 (-1)) (c ← StartServer 0 (three_names 0) (kv_blank 3 (-1)); StartServer 1 (three_names 1) c).
Example disconnect_wrong_index : disconnectUnlocked 0 [2%nat] two_started = None ∧ is_Some (disconnectUnlocked 0 [0; 1; 2]%nat two_started).
Proof. split; [vm_compute; reflexivity|]. vm_compute. by eexists. Qed.
