(* ===== verification/MapReduce.v ===== *)
(** MapReduce: map and reduce tasks, the merge, and jobs run in one process.

    Source: lab4-mapreduce/src/mapreduce/{common.go, common_map.go,
    common_reduce.go, master_splitmerge.go, master.go} (Sequential, run).

    The shared file system is a map from names to contents.  encoding/json is a
    parameter ([Json]): the text of one record and the records read back from a
    file until the first error.  [can_open] says which files the operating system
    lets the tasks create or open for writing; reading a file that is not there behaves
    as the code does (an error is printed, the contents are empty). *)
From Stdlib Require Import ZArith Lia Strings.Byte.
From stdpp Require Import gmap strings list sorting pretty.
From S2P Require Import Prelude.
From S2P Require Import GoStd.
Open Scope Z_scope.

Record KeyValue := mkKV { Key : string; Value : string }.

(** [enc.Encode(&kv)] writes one record; repeated [dec.Decode] reads them. *)
Class Json := {
  json_encode : KeyValue → string;
  json_decode : string → list KeyValue;
  json_ok : KeyValue → Prop;
  (** what was encoded is decoded (strings of valid UTF-8) *)
  json_round : ∀ kvs, Forall json_ok kvs →
    json_decode (foldr String.append "" (json_encode <$> kvs)) = kvs
}.

(** ** common.go *)
Definition reduceName (jobName : string) (mapTask reduceTask : nat) : string :=
  "mrtmp." +:+ jobName +:+ "-" +:+ Itoa mapTask +:+ "-" +:+ Itoa reduceTask.

Definition mergeName (jobName : string) (reduceTask : nat) : string :=
  "mrtmp." +:+ jobName +:+ "-res-" +:+ Itoa reduceTask.

(** ** common_map.go *)

(** FNV-1a, 32 bits (hash/fnv). *)
Definition fnv32a (s : string) : Z :=
  foldl (λ h b, u32 (Z.lxor h (Z_of_byte b) * 16777619)) 2166136261 (String.list_byte_of_string s).

Definition ihash (s : string) : Z := Z.land (fnv32a s) 0x7fffffff.

Abbreviation Files := (gmap string string).

Section tasks.
Context {J : Json}.

(** The file of a pair, [r := hash % nReduce]; a modulus of zero panics. *)
Definition bucket (nReduce : nat) (kv : KeyValue) : nat := Z.to_nat (ihash (Key kv) mod Z.of_nat nReduce).

Definition append_pair (can_open : string → bool) (jobName : string) (mapTask nReduce : nat)
    (fs : Files) (kv : KeyValue) : Files :=
  let fn := reduceName jobName mapTask (bucket nReduce kv) in
  if can_open fn then <[fn := default "" (fs !! fn) +:+ json_encode kv]> fs else fs.

Definition doMap (can_open : string → bool) (jobName : string) (mapTask : nat) (inFile : string) (nReduce : nat)
    (mapF : string → string → list KeyValue) (fs : Files) : option Files :=
  let inputFile := default "" (fs !! inFile) in
  let res := mapF inFile inputFile in
  match nReduce, res with
  | O, _ :: _ => None
  | _, _ => Some (foldl (append_pair can_open jobName mapTask nReduce) fs res)
  end.

(** ** common_reduce.go *)
Definition add_value (kvs : gmap string (list string)) (kv : KeyValue) : gmap string (list string) :=
  <[Key kv := default [] (kvs !! Key kv) ++ [Value kv]]> kvs.

(** The records of the file of map task [m]; none when it cannot be opened. *)
Definition read_records (fs : Files) (fn : string) : list KeyValue :=
  match fs !! fn with Some c => json_decode c | None => [] end.

Definition doReduce {RO : RangeOrder} (can_open : string → bool) (jobName : string) (reduceTask : nat) (outFile : string) (nMap : nat)
    (reduceF : string → list string → string) (fs : Files) : Files :=
  let kvs := foldl (λ kvs m, foldl add_value kvs (read_records fs (reduceName jobName m reduceTask)))
               ∅ (seq 0 nMap) in
  let keys := sort_Strings (go_range kvs).*1 in
  let out := (λ k, json_encode (mkKV k (reduceF k (default [] (kvs !! k))))) <$> keys in
  if can_open outFile then <[outFile := foldr String.append "" out]> fs else fs.

(** ** The tasks, action by action *)

(** What an execution of a task still does to the files; the actions of executions that run
    at the same time interleave.  An append opens the file with O_APPEND, [os.Create]
    truncates, and every record is written at the offset of the descriptor. *)
Inductive Exec :=
| XRead                                                 (* doMap, before ReadFile *)
| XAppend (res : list KeyValue)                         (* doMap, the pairs left *)
| XGather (m : nat) (kvs : gmap string (list string))   (* doReduce, before the file of map task [m] is read *)
| XWrite (off : nat) (out : list string).               (* doReduce, the offset and the records left *)

Definition ended (e : Exec) : bool := match e with XAppend [] | XWrite _ [] => true | _ => false end.

(** The next action of doMap; [None] is the panic of a modulus of zero, or a task that has
    ended. *)
Definition doMap_action (can_open : string → bool) (jobName : string) (mapTask : nat) (inFile : string) (nReduce : nat)
    (mapF : string → string → list KeyValue) (e : Exec) (fs : Files) : option (Exec * Files) :=
  match e, nReduce with
  | XRead, _ => Some (XAppend (mapF inFile (default "" (fs !! inFile))), fs)
  | XAppend (kv :: res), S _ => Some (XAppend res, append_pair can_open jobName mapTask nReduce fs kv)
  | _, _ => None
  end.

(** Writing [s] at an offset: what lies between the end of the file and the offset is zeros. *)
Fixpoint zeros (n : nat) : string := match n with O => "" | S n => String (Ascii.ascii_of_nat 0) (zeros n) end.
Definition write_at (off : nat) (s c : string) : string :=
  String.substring 0 off (c +:+ zeros (off - String.length c)) +:+ s
  +:+ String.substring (off + String.length s) (String.length c - (off + String.length s)) c.

Definition doReduce_action {RO : RangeOrder} (can_open : string → bool) (jobName : string) (reduceTask : nat) (outFile : string) (nMap : nat)
    (reduceF : string → list string → string) (e : Exec) (fs : Files) : option (Exec * Files) :=
  match e with
  | XGather m kvs =>
      if decide (m < nMap)%nat
      then Some (XGather (S m) (foldl add_value kvs (read_records fs (reduceName jobName m reduceTask))), fs)
      else
        let keys := sort_Strings (go_range kvs).*1 in
        let out := (λ k, json_encode (mkKV k (reduceF k (default [] (kvs !! k))))) <$> keys in
        Some (if can_open outFile then (XWrite 0 out, <[outFile := ""]> fs) else (XWrite 0 [], fs))
  | XWrite off (s :: out) => Some (XWrite (off + String.length s) out, <[outFile := write_at off s (default "" (fs !! outFile))]> fs)
  | _ => None
  end.

(** ** master_splitmerge.go *)

(** [log.Fatal] when an output is missing or the result cannot be created: [None]. *)
Definition merge {RO : RangeOrder} (can_open : string → bool) (jobName : string) (nReduce : nat) (fs : Files) : option Files :=
  kvs ← foldl (λ acc i,
          kvs ← acc;
          c ← fs !! mergeName jobName i;
          Some (foldl (λ kvs kv, <[Key kv := Value kv]> kvs) kvs (json_decode c)))
        (Some (∅ : gmap string string)) (seq 0 nReduce);
  let keys := sort_Strings (go_range kvs).*1 in
  let lines := (λ k, k +:+ ": " +:+ default "" (kvs !! k) +:+ String (Ascii.ascii_of_nat 10) "") <$> keys in
  if can_open ("mrtmp." +:+ jobName)
  then Some (<["mrtmp." +:+ jobName := foldr String.append "" lines]> fs) else None.

(** [log.Fatal] when the file is missing. *)
Definition removeFile (n : string) (fs : Files) : option Files :=
  match fs !! n with None => None | Some _ => Some (delete n fs) end.

Definition removeFiles (ns : list string) (fs : Files) : option Files :=
  foldl (λ acc n, fs ← acc; removeFile n fs) (Some fs) ns.

Definition CleanupFiles (jobName : string) (files : list string) (nReduce : nat) (fs : Files) : option Files :=
  fs ← removeFiles (i ← seq 0 (length files); (λ j, reduceName jobName i j) <$> seq 0 nReduce) fs;
  fs ← removeFiles (mergeName jobName <$> seq 0 nReduce) fs;
  removeFile ("mrtmp." +:+ jobName) fs.

(** ** common.go, master.go: the master and [run] *)
Inductive jobPhase := mapPhase | reducePhase.

(** The master's own fields; its lock, condition and channels are the order of
    the calls in [run]. *)
Record Master := mkMaster {
  mr_address : string;
  mr_workers : list string;
  mr_jobName : string;
  mr_files : list string;
  mr_nReduce : nat;
  mr_stats : list Z
}.

Definition newMaster (master : string) : Master := mkMaster master [] "" [] 0 [].

Definition with_stats (mr : Master) (stats : list Z) : Master :=
  mkMaster (mr_address mr) (mr_workers mr) (mr_jobName mr) (mr_files mr) (mr_nReduce mr) stats.
Definition with_workers (mr : Master) (ws : list string) : Master :=
  mkMaster (mr_address mr) ws (mr_jobName mr) (mr_files mr) (mr_nReduce mr) (mr_stats mr).

(** Both phases, [finish], then the merge; [W] is what the phases change besides the
    master.  [None] when a step terminates the process. *)
Definition run {W} (schedule : jobPhase → Master * W → option (Master * W)) (finish : Master * W → option (Master * W))
    (merge : Master * W → option (Master * W)) (jobName : string) (files : list string) (nreduce : nat) (s : Master * W) : option (Master * W) :=
  let mr := mkMaster (mr_address s.1) (mr_workers s.1) jobName files nreduce (mr_stats s.1) in
  s ← schedule mapPhase (mr, s.2);
  s ← schedule reducePhase s;
  s ← finish s;
  merge s.

(** ** master.go: Sequential *)
Section job.
Context {RO : RangeOrder}.
Context (can_open : string → bool) (mapF : string → string → list KeyValue) (reduceF : string → list string → string).

Definition map_phase (jobName : string) (files : list string) (nReduce : nat) (fs : Files) : option Files :=
  foldl (λ acc it, fs ← acc; doMap can_open jobName it.1 it.2 nReduce mapF fs)
    (Some fs) (imap pair files).

Definition reduce_phase (jobName : string) (files : list string) (nReduce : nat) (fs : Files) : Files :=
  foldl (λ fs i, doReduce can_open jobName i (mergeName jobName i) (length files) reduceF fs) fs (seq 0 nReduce).

Definition sequential_schedule (phase : jobPhase) (s : Master * Files) : option (Master * Files) :=
  let mr := s.1 in
  match phase with
  | mapPhase => pair mr <$> map_phase (mr_jobName mr) (mr_files mr) (mr_nReduce mr) s.2
  | reducePhase => Some (mr, reduce_phase (mr_jobName mr) (mr_files mr) (mr_nReduce mr) s.2)
  end.

Definition merge_files (s : Master * Files) : option (Master * Files) :=
  pair s.1 <$> merge can_open (mr_jobName s.1) (mr_nReduce s.1) s.2.

Definition Sequential (jobName : string) (files : list string) (nreduce : nat) (fs : Files) : option (Master * Files) :=
  run sequential_schedule (λ s, Some (with_stats s.1 [Z.of_nat (length files + nreduce)], s.2)) merge_files
    jobName files nreduce (newMaster "master", fs).
End job.
End tasks.
