(* ===== verification/MapReduceProps.v ===== *)
(** MapReduceProps: what a MapReduce job computes.

    The reference is a function of the input files: all pairs of the map function
    are grouped by key, reduced, and written in the order of the keys.  A
    sequential job in a clean directory produces exactly that, whatever the
    number of reduce tasks; map tasks may run in any order, but not twice. *)
From Stdlib Require Import ZArith Lia Strings.Byte Ascii.
From stdpp Require Import gmap strings list sorting pretty.
From S2P Require Import Prelude.
From S2P Require Import GoStd.
From S2P Require Import MapReduce.
Open Scope Z_scope.

(** ** File names *)
Fixpoint digits (s : string) : Prop :=
  match s with
  | EmptyString => True
  | String c s' => (48 <= N_of_ascii c <= 57)%N ∧ digits s'
  end.

Lemma Itoa_digits n : digits (Itoa n) ∧ Itoa n ≠ "".
Proof.
  unfold Itoa, pretty, pretty_N. assert (∀ x s, digits s → digits (pretty_N_go x s)) as Hg.
  { intros x. induction (N.lt_wf_0 x) as [x _ IH]. intros s Hs.
    destruct (decide (x = 0%N)) as [->|Hx]; [by rewrite pretty_N_go_0|].
    rewrite pretty_N_go_step by lia. apply IH; [apply N.div_lt; lia|]. split; [|done].
    assert (x `mod` 10 < 10)%N as Hm by (apply N.mod_lt; lia).
    destruct (x `mod` 10)%N as [|[[[|[]|]|[|[]|]|]|[[|[]|]|[|[]|]|]|]]; simpl; lia || (cbn; lia). }
  case_decide as E; [by split|]. split; [by apply Hg|].
  assert (∀ x s, s ≠ "" → pretty_N_go x s ≠ "") as Hne.
  { intros x. induction (N.lt_wf_0 x) as [x _ IH]. intros s Hs.
    destruct (decide (x = 0%N)) as [->|Hx]; [by rewrite pretty_N_go_0|].
    rewrite pretty_N_go_step by lia. apply IH; [apply N.div_lt; lia|done]. }
  rewrite pretty_N_go_step by lia. by apply Hne.
Qed.

Lemma digits_split a a' b b' :
  digits a → digits a' → a +:+ String "-" b = a' +:+ String "-" b' → a = a' ∧ b = b'.
Proof.
  revert a'. induction a as [|c a IH]; intros [|c' a'] Ha Ha' E; simpl in *.
  - by injection E.
  - injection E as <- _. destruct Ha' as [Hc _]. cbn in Hc. lia.
  - injection E as -> _. destruct Ha as [Hc _]. cbn in Hc. lia.
  - injection E as -> E. destruct (IH a') as [-> ->]; [apply Ha|apply Ha'|done|done].
Qed.

#[export] Instance Itoa_inj : Inj (=) (=) Itoa.
Proof. intros m n E. unfold Itoa in E. apply (inj pretty) in E. lia. Qed.

Lemma reduceName_inj job m r m' r' : reduceName job m r = reduceName job m' r' → m = m' ∧ r = r'.
Proof.
  unfold reduceName. intros E. apply (inj (String.append _)) in E. apply (inj (String.append _)) in E.
  apply (inj (String.append _)) in E.
  destruct (digits_split _ _ _ _ (proj1 (Itoa_digits m)) (proj1 (Itoa_digits m')) E) as [H1 H2].
  by apply (inj Itoa) in H1, H2.
Qed.

Lemma mergeName_inj job r r' : mergeName job r = mergeName job r' → r = r'.
Proof.
  unfold mergeName. intros E. do 3 apply (inj (String.append _)) in E. by apply (inj Itoa) in E.
Qed.

Lemma reduce_merge_name job m r i : reduceName job m r ≠ mergeName job i.
Proof.
  unfold reduceName, mergeName. intros E. do 2 apply (inj (String.append _)) in E.
  destruct (Itoa_digits m) as [Hd Hne]. destruct (Itoa m) as [|c s]; [done|]. simpl in E.
  injection E as -> _. destruct Hd as [Hc _]. cbn in Hc. lia.
Qed.

Lemma append_ne (a b : string) : b ≠ "" → a +:+ b ≠ a.
Proof. intros Hb. induction a as [|c a IH]; simpl; [done|]. intros E. injection E as E. by apply IH. Qed.

Lemma out_merge_name job i : "mrtmp." +:+ job ≠ mergeName job i.
Proof.
  unfold mergeName. intros E. apply (inj (String.append _)) in E. symmetry in E. by apply append_ne in E.
Qed.

Lemma append_cons c (a b : string) : String c a +:+ b = String c (a +:+ b).
Proof. done. Qed.

Lemma append_assoc' (a b c : string) : a +:+ b +:+ c = (a +:+ b) +:+ c.
Proof. induction a as [|x a IH]; [done|]. by rewrite !append_cons, IH. Qed.

Lemma append_nil_r (a : string) : a +:+ "" = a.
Proof. induction a as [|x a IH]; [done|]. by rewrite append_cons, IH. Qed.

Section job.
Context {J : Json} {RO : RangeOrder}.
Context (can_open : string → bool) (mapF : string → string → list KeyValue) (reduceF : string → list string → string).
Context (job : string) (nReduce : nat).
Implicit Types (fs : Files) (kvs : list KeyValue).

Definition enc kvs : string := foldr String.append "" (json_encode <$> kvs).

Lemma enc_cons kv kvs : enc (kv :: kvs) = json_encode kv +:+ enc kvs.
Proof. done. Qed.

Lemma enc_app kvs kvs' : enc (kvs ++ kvs') = enc kvs +:+ enc kvs'.
Proof. induction kvs as [|kv kvs IH]; [done|]. cbn [app]. by rewrite !enc_cons, IH, append_assoc'. Qed.

(** ** Map tasks *)
Definition in_bucket (r : nat) kvs : list KeyValue := filter (λ kv, bucket nReduce kv = r) kvs.

(** What appending [kvs] does to a file. *)
Definition appended (old : option string) kvs : option string :=
  match kvs with [] => old | _ => Some (default "" old +:+ enc kvs) end.

Lemma append_pairs_lookup m kvs fs fn : (∀ n, can_open n = true) →
  foldl (append_pair can_open job m nReduce) fs kvs !! fn
  = appended (fs !! fn) (filter (λ kv, reduceName job m (bucket nReduce kv) = fn) kvs).
Proof.
  intros Hopen. revert fs. induction kvs as [|kv kvs IH]; intros fs; [done|]. cbn [foldl].
  rewrite IH. unfold append_pair at 1. rewrite Hopen, filter_cons.
  destruct (decide (reduceName job m (bucket nReduce kv) = fn)) as [->|Hne].
  - rewrite lookup_insert_eq. unfold appended at 2. rewrite enc_cons.
    destruct (filter _ kvs) as [|kv' l]; unfold appended; simpl default.
    + unfold enc. simpl. by rewrite append_nil_r.
    + by rewrite append_assoc'.
  - by rewrite lookup_insert_ne.
Qed.

Lemma bucket_lt kv : (0 < nReduce)%nat → (bucket nReduce kv < nReduce)%nat.
Proof.
  intros Hn. unfold bucket. pose proof (Z.mod_pos_bound (ihash (Key kv)) (Z.of_nat nReduce)). lia.
Qed.

Lemma filter_bucket m m' r kvs :
  filter (λ kv, reduceName job m (bucket nReduce kv) = reduceName job m' r) kvs
  = if decide (m = m') then in_bucket r kvs else [].
Proof.
  case_decide as E.
  - subst m'. apply list_filter_iff. intros kv. split; [|by intros ->]. intros [_ ?]%reduceName_inj. done.
  - induction kvs as [|kv kvs IH]; [done|]. rewrite filter_cons_False; [done|]. by intros [? _]%reduceName_inj.
Qed.

(** The file system after one map task. *)
Lemma doMap_spec m f fs : (∀ n, can_open n = true) → (0 < nReduce)%nat →
  ∃ fs', doMap can_open job m f nReduce mapF fs = Some fs'
    ∧ (∀ m' r, fs' !! reduceName job m' r
         = if decide (m' = m) then appended (fs !! reduceName job m r) (in_bucket r (mapF f (default "" (fs !! f))))
           else fs !! reduceName job m' r)
    ∧ (∀ fn, (∀ r, (r < nReduce)%nat → fn ≠ reduceName job m r) → fs' !! fn = fs !! fn).
Proof.
  intros Ho Hn. unfold doMap. destruct nReduce as [|n] eqn:En; [lia|]. rewrite <- En in *.
  eexists. split; [reflexivity|]. split.
  - intros m' r. rewrite append_pairs_lookup by done. rewrite filter_bucket.
    destruct (decide (m = m')) as [->|Hne]; [by rewrite decide_True|by rewrite decide_False].
  - intros fn Hfn. rewrite append_pairs_lookup by done.
    assert (filter (λ kv, reduceName job m (bucket nReduce kv) = fn) (mapF f (default "" (fs !! f))) = []) as ->; [|done].
    apply list_filter_none. intros kv _ E. by apply (Hfn (bucket nReduce kv)); [apply bucket_lt|].
Qed.

(** An execution that nothing disturbs is the task. *)
Fixpoint run_alone (fuel : nat) (act : Exec → Files → option (Exec * Files)) (e : Exec) fs : option (Exec * Files) :=
  match fuel with
  | O => Some (e, fs)
  | S fuel => if ended e then Some (e, fs) else '(e, fs) ← act e fs; run_alone fuel act e fs
  end.

Lemma doMap_alone m f fs : (0 < nReduce)%nat →
  ∃ n fs', doMap can_open job m f nReduce mapF fs = Some fs'
    ∧ run_alone n (doMap_action can_open job m f nReduce mapF) XRead fs = Some (XAppend [], fs').
Proof.
  intros Hn. unfold doMap. destruct nReduce as [|n0] eqn:En; [lia|]. rewrite <- En.
  exists (S (length (mapF f (default "" (fs !! f))))), (foldl (append_pair can_open job m nReduce) fs (mapF f (default "" (fs !! f)))).
  split; [done|]. cbn [run_alone ended doMap_action mbind option_bind]. generalize (mapF f (default "" (fs !! f))). intros res.
  revert fs. induction res as [|kv res IH]; intros fs; [done|]. cbn [length run_alone ended]. rewrite En. cbn [doMap_action mbind option_bind].
  rewrite <- En. apply IH.
Qed.

Lemma string_length_app (a b : string) : String.length (a +:+ b) = (String.length a + String.length b)%nat.
Proof. induction a as [|c a IH]; [done|]. rewrite append_cons. cbn. by rewrite IH. Qed.

Lemma substring_past i n s : (String.length s ≤ i)%nat → String.substring i n s = "".
Proof.
  revert i. induction s as [|c s IH]; intros i Hi; cbn in *; [by destruct i, n|]. destruct i; [lia|]. apply IH. lia.
Qed.

Lemma substring_whole s : String.substring 0 (String.length s) s = s.
Proof. induction s as [|c s IH]; [done|]. cbn. by rewrite IH. Qed.

(** Writing at the end appends. *)
Lemma write_at_end s c : write_at (String.length c) s c = c +:+ s.
Proof.
  unfold write_at. rewrite Nat.sub_diag. cbn [zeros]. rewrite append_nil_r, substring_whole, substring_past by lia. by rewrite append_nil_r.
Qed.

Definition concat_all (out : list string) : string := foldr String.append "" out.

Lemma concat_all_snoc pre s : concat_all (pre ++ [s]) = concat_all pre +:+ s.
Proof. unfold concat_all. induction pre as [|x pre IH]; cbn [app foldr]; [by rewrite append_nil_r|]. by rewrite IH, append_assoc'. Qed.

(** What a reduce task reads from the first [m] files, and the records it writes. *)
Definition gathered (r m : nat) fs : gmap string (list string) :=
  foldl (λ g m, foldl add_value g (read_records fs (reduceName job m r))) ∅ (seq 0 m).
Definition out_records (r nMap : nat) fs : list string :=
  let g := gathered r nMap fs in
  (λ k, json_encode (mkKV k (reduceF k (default [] (g !! k))))) <$> sort_Strings (go_range g).*1.

Lemma gathered_S r m fs : gathered r (S m) fs = foldl add_value (gathered r m fs) (read_records fs (reduceName job m r)).
Proof. unfold gathered. rewrite seq_S, foldl_app. done. Qed.

Lemma doReduce_records r out nMap fs : can_open out = true →
  doReduce can_open job r out nMap reduceF fs = <[out := concat_all (out_records r nMap fs)]> fs.
Proof. intros Ho. unfold doReduce. by rewrite Ho. Qed.

Lemma writes_alone r out nMap fs pre left : fs !! out = Some (concat_all pre) →
  run_alone (length left) (doReduce_action can_open job r out nMap reduceF) (XWrite (String.length (concat_all pre)) left) fs
  = Some (XWrite (String.length (concat_all (pre ++ left))) [], <[out := concat_all (pre ++ left)]> fs).
Proof.
  revert pre fs. induction left as [|s left IH]; intros pre fs E; [by rewrite app_nil_r, insert_id|].
  cbn [length run_alone ended doReduce_action mbind option_bind]. rewrite E. cbn [default from_option Datatypes.id]. rewrite write_at_end.
  rewrite <- string_length_app, <- concat_all_snoc. rewrite IH by (by rewrite lookup_insert_eq).
  rewrite <- app_assoc. by rewrite insert_insert_eq.
Qed.

Lemma gathers_alone r out nMap fs m fuel : (m ≤ nMap)%nat →
  run_alone (nMap - m + fuel) (doReduce_action can_open job r out nMap reduceF) (XGather m (gathered r m fs)) fs
  = run_alone fuel (doReduce_action can_open job r out nMap reduceF) (XGather nMap (gathered r nMap fs)) fs.
Proof.
  intros Hm. remember (nMap - m)%nat as d eqn:Ed. revert m Hm Ed. induction d as [|d IH]; intros m Hm Ed; [by replace m with nMap by lia|].
  cbn [Nat.add run_alone ended doReduce_action]. rewrite decide_True by lia. cbn [mbind option_bind]. rewrite <- gathered_S. apply IH; lia.
Qed.

Lemma doReduce_alone r out nMap fs : can_open out = true →
  ∃ n off, run_alone n (doReduce_action can_open job r out nMap reduceF) (XGather 0 ∅) fs
    = Some (XWrite off [], doReduce can_open job r out nMap reduceF fs).
Proof.
  intros Ho. exists (nMap - 0 + S (length (out_records r nMap fs)))%nat. eexists. change (∅ : gmap string (list string)) with (gathered r 0 fs).
  rewrite gathers_alone by lia. cbn [run_alone ended doReduce_action]. rewrite decide_False by lia. rewrite Ho. cbn [mbind option_bind].
  change ((λ k, json_encode (mkKV k (reduceF k (default [] (gathered r nMap fs !! k))))) <$> sort_Strings (go_range (gathered r nMap fs)).*1)
    with (out_records r nMap fs).
  rewrite (writes_alone r out nMap _ []) by (by rewrite lookup_insert_eq). rewrite doReduce_records by done. by rewrite insert_insert_eq.
Qed.

(** No input is an intermediate file. *)
Definition inputs_apart (files : list string) : Prop := ∀ f m r, f ∈ files → f ≠ reduceName job m r.

(** Map tasks in any order, each one once. *)
Lemma map_tasks_spec (ts : list (nat * string)) fs :
  (∀ n, can_open n = true) → (0 < nReduce)%nat → NoDup ts.*1 → inputs_apart ts.*2 →
  ∃ fs', foldl (λ acc it, fs ← acc; doMap can_open job it.1 it.2 nReduce mapF fs) (Some fs) ts = Some fs'
    ∧ (∀ m f r, (m, f) ∈ ts → fs' !! reduceName job m r
         = appended (fs !! reduceName job m r) (in_bucket r (mapF f (default "" (fs !! f)))))
    ∧ (∀ fn, (∀ m r, m ∈ ts.*1 → (r < nReduce)%nat → fn ≠ reduceName job m r) → fs' !! fn = fs !! fn).
Proof.
  intros Ho Hn. revert fs. induction ts as [|[m f] ts IH]; intros fs Hnd Hap.
  { exists fs. split_and!; [done| |done]. by intros m f r ?%not_elem_of_nil. }
  rewrite fmap_cons in Hnd. apply NoDup_cons in Hnd as [Hm Hnd]. simpl in Hm.
  destruct (doMap_spec m f fs Ho Hn) as (fs1 & E1 & H1 & H1'). cbn [foldl fst snd]. simpl mbind. rewrite E1.
  destruct (IH fs1 Hnd) as (fs' & E & H2 & H2').
  { intros g m' r Hg. apply Hap. by right. }
  assert (∀ g, g ∈ ts.*2 → fs1 !! g = fs !! g) as Hin.
  { intros g Hg. apply H1'. intros r _. apply Hap. by right. }
  exists fs'. split; [done|]. split.
  - intros m' g r [[= -> ->]|Hin']%elem_of_cons.
    + rewrite H2'; [|by intros m' r' Hm' _ [-> _]%reduceName_inj]. by rewrite H1, decide_True.
    + rewrite (H2 m' g r Hin'), H1, decide_False.
      * rewrite (Hin g); [done|]. by apply (list_elem_of_fmap_2 snd) in Hin'.
      * intros ->. apply Hm. by apply (list_elem_of_fmap_2 fst) in Hin'.
  - intros fn Hfn. rewrite H2'; [|intros m' r Hm'; apply Hfn; by right].
    apply H1'. intros r. apply Hfn. by left.
Qed.

(** ** Grouping by key *)
Definition values_of (k : string) kvs : list string := Value <$> filter (λ kv, Key kv = k) kvs.

Definition keys_of kvs : list string := remove_dups (Key <$> kvs).

Lemma add_values_lookup kvs g k :
  foldl add_value g kvs !! k
  = match values_of k kvs with [] => g !! k | vs => Some (default [] (g !! k) ++ vs) end.
Proof.
  revert g. induction kvs as [|kv kvs IH]; intros g; [done|]. cbn [foldl]. rewrite IH.
  unfold values_of, add_value. rewrite filter_cons.
  destruct (decide (Key kv = k)) as [->|Hne].
  - rewrite lookup_insert_eq, fmap_cons. destruct (Value <$> filter _ kvs); [done|].
    simpl. by rewrite <- app_assoc.
  - by rewrite lookup_insert_ne.
Qed.

Lemma values_of_nil k kvs : values_of k kvs = [] ↔ k ∉ Key <$> kvs.
Proof.
  unfold values_of. split.
  - intros E Hin. apply list_elem_of_fmap in Hin as (kv & -> & Hin). apply fmap_nil_inv in E.
    assert (kv ∈ filter (λ kv', Key kv' = Key kv) kvs) as H by by apply list_elem_of_filter.
    rewrite E in H. by apply not_elem_of_nil in H.
  - intros Hk. rewrite list_filter_none; [done|]. intros kv Hkv <-. apply Hk. by apply list_elem_of_fmap_2.
Qed.

Lemma grouped_lookup kvs k :
  foldl add_value ∅ kvs !! k = if decide (k ∈ Key <$> kvs) then Some (values_of k kvs) else None.
Proof.
  rewrite add_values_lookup, lookup_empty. case_decide as E.
  - destruct (values_of k kvs) eqn:Ev; [|done]. by apply values_of_nil in Ev.
  - by apply values_of_nil in E as ->.
Qed.

(** The sorted keys of a map whose domain is known. *)
Lemma sorted_keys {V} (g : gmap string V) (ks : list string) :
  (∀ k, is_Some (g !! k) ↔ k ∈ ks) → sort_Strings (go_range g).*1 = sort_Strings (remove_dups ks).
Proof.
  intros Hg. apply sort_Strings_proper. apply NoDup_Permutation; [apply NoDup_go_range_fst|apply NoDup_remove_dups|].
  intros k. rewrite elem_of_remove_dups, <- Hg, list_elem_of_fmap. split.
  - intros ([k' v] & -> & Hin). apply elem_of_go_range in Hin. by eexists.
  - intros [v Hv]. exists (k, v). split; [done|]. by apply elem_of_go_range.
Qed.

(** ** The reference *)

(** The output of the map function on all inputs, in the order of the files. *)
Definition job_pairs (files : list string) fs : list KeyValue := f ← files; mapF f (default "" (fs !! f)).

Definition reduced kvs (k : string) : KeyValue := mkKV k (reduceF k (values_of k kvs)).

Definition job_output (files : list string) fs : string :=
  let kvs := job_pairs files fs in
  foldr String.append ""
    ((λ k, k +:+ ": " +:+ reduceF k (values_of k kvs) +:+ String (Ascii.ascii_of_nat 10) "") <$> sort_Strings (keys_of kvs)).

(** ** Reduce tasks *)
Lemma in_bucket_values k kvs : values_of k (in_bucket (bucket nReduce (mkKV k "")) kvs) = values_of k kvs.
Proof.
  unfold values_of, in_bucket. rewrite list_filter_filter. f_equal. apply list_filter_iff.
  intros kv. split; [tauto|]. intros <-. by split.
Qed.

Lemma elem_of_keys_bucket k r kvs :
  k ∈ Key <$> in_bucket r kvs ↔ k ∈ Key <$> kvs ∧ bucket nReduce (mkKV k "") = r.
Proof.
  rewrite !list_elem_of_fmap. unfold in_bucket. setoid_rewrite list_elem_of_filter. split.
  - intros (kv & -> & <- & ?). eauto.
  - intros ((kv & -> & ?) & <-). eauto.
Qed.

Lemma foldl_bind {A B C} (g : A → B → A) (h : C → list B) a cs :
  foldl (λ acc c, foldl g acc (h c)) a cs = foldl g a (cs ≫= h).
Proof. revert a. induction cs as [|c cs IH]; intros a; [done|]. simpl. by rewrite IH, foldl_app. Qed.

(** The intermediate files of all map tasks hold [kvs], bucket by bucket. *)
Definition intermediate fs (nMap : nat) kvs : Prop :=
  ∀ r, (seq 0 nMap ≫= λ m, read_records fs (reduceName job m r)) = in_bucket r kvs.

Lemma doReduce_spec r out nMap kvs fs : (∀ n, can_open n = true) → intermediate fs nMap kvs →
  doReduce can_open job r out nMap reduceF fs
  = <[out := enc (reduced (in_bucket r kvs) <$> sort_Strings (keys_of (in_bucket r kvs)))]> fs.
Proof.
  intros Ho Hi. unfold doReduce. rewrite Ho, foldl_bind, Hi. f_equal. unfold enc. f_equal.
  rewrite <- list_fmap_compose. rewrite (sorted_keys _ (Key <$> in_bucket r kvs)).
  - apply list_fmap_ext. intros i k Hk. simpl. rewrite grouped_lookup. unfold reduced. do 3 f_equal.
    rewrite Hi, decide_True; [done|].
    apply list_elem_of_lookup_2 in Hk. unfold keys_of in Hk. rewrite sort_Strings_perm, elem_of_remove_dups in Hk. done.
  - intros k. rewrite grouped_lookup. case_decide; [by split|]. split; [by intros []|done].
Qed.

Definition reduce_output kvs (r : nat) : list KeyValue :=
  reduced (in_bucket r kvs) <$> sort_Strings (keys_of (in_bucket r kvs)).

Lemma intermediate_insert fs nMap kvs i c :
  intermediate fs nMap kvs → intermediate (<[mergeName job i := c]> fs) nMap kvs.
Proof.
  intros Hi r. rewrite <- Hi. apply list_bind_ext; [|done]. intros m. unfold read_records.
  rewrite lookup_insert_ne; [done|]. intros E. by apply (reduce_merge_name job m r i).
Qed.

(** Reduce tasks in any order (and repeated: the output is truncated first). *)
Lemma reduce_tasks_spec (rs : list nat) nMap kvs fs : (∀ n, can_open n = true) → intermediate fs nMap kvs →
  ∀ fs', fs' = foldl (λ fs i, doReduce can_open job i (mergeName job i) nMap reduceF fs) fs rs →
  intermediate fs' nMap kvs
  ∧ (∀ r, fs' !! mergeName job r = if decide (r ∈ rs) then Some (enc (reduce_output kvs r)) else fs !! mergeName job r).
Proof.
  intros Ho. revert fs. induction rs as [|i rs IH]; intros fs Hi fs' ->; [by split|].
  cbn [foldl]. rewrite (doReduce_spec i (mergeName job i) nMap kvs fs Ho Hi).
  destruct (IH _ (intermediate_insert fs nMap kvs i (enc (reduce_output kvs i)) Hi) _ eq_refl) as [H1 H2].
  split; [done|]. intros r. rewrite H2. destruct (decide (r ∈ rs)) as [Hr|Hr].
  - by rewrite decide_True by (by right).
  - destruct (decide (r = i)) as [->|Hne].
    + rewrite lookup_insert_eq. by rewrite decide_True by left.
    + rewrite lookup_insert_ne by (by intros ->%mergeName_inj). rewrite decide_False; [done|].
      by rewrite elem_of_cons; intros [|].
Qed.

(** ** The merge *)
Lemma gather_lookup (g : string → string) kvs (m : gmap string string) k :
  (∀ kv, kv ∈ kvs → Value kv = g (Key kv)) →
  foldl (λ m kv, <[Key kv := Value kv]> m) m kvs !! k = if decide (k ∈ Key <$> kvs) then Some (g k) else m !! k.
Proof.
  revert m. induction kvs as [|kv kvs IH]; intros m Hg; [done|]. cbn [foldl].
  rewrite IH by (intros; apply Hg; by right). rewrite fmap_cons.
  destruct (decide (k ∈ Key <$> kvs)) as [Hk|Hk]; [by rewrite decide_True by (by right)|].
  destruct (decide (k = Key kv)) as [->|Hne].
  - rewrite lookup_insert_eq, decide_True by left. f_equal. apply Hg. by left.
  - rewrite lookup_insert_ne by done. rewrite decide_False; [done|]. by rewrite elem_of_cons; intros [|].
Qed.

Definition gather (m : gmap string string) kvs : gmap string string :=
  foldl (λ m kv, <[Key kv := Value kv]> m) m kvs.

Lemma merge_read (outs : nat → list KeyValue) (rs : list nat) fs m :
  (∀ r, r ∈ rs → fs !! mergeName job r = Some (enc (outs r)) ∧ Forall json_ok (outs r)) →
  foldl (λ acc i, kvs ← acc; c ← fs !! mergeName job i; Some (gather kvs (json_decode c))) (Some m) rs
  = Some (gather m (rs ≫= outs)).
Proof.
  revert m. induction rs as [|r rs IH]; intros m Hr; [done|]. cbn [foldl]. simpl mbind.
  destruct (Hr r ltac:(left)) as [-> Hok]. simpl mbind. unfold enc. rewrite json_round by done.
  rewrite IH by (intros; apply Hr; by right). f_equal. unfold gather. simpl. by rewrite foldl_app.
Qed.

Lemma elem_of_reduce_output kv r kvs : kv ∈ reduce_output kvs r →
  Key kv ∈ Key <$> kvs ∧ bucket nReduce (mkKV (Key kv) "") = r ∧ Value kv = reduceF (Key kv) (values_of (Key kv) kvs).
Proof.
  unfold reduce_output. intros (k & -> & Hk)%list_elem_of_fmap. cbn [Key Value reduced].
  unfold keys_of in Hk. rewrite sort_Strings_perm, elem_of_remove_dups, elem_of_keys_bucket in Hk.
  destruct Hk as [Hk <-]. by rewrite in_bucket_values.
Qed.

Lemma elem_of_reduce_keys k kvs : (0 < nReduce)%nat →
  k ∈ Key <$> (seq 0 nReduce ≫= reduce_output kvs) ↔ k ∈ Key <$> kvs.
Proof.
  intros Hn. rewrite list_elem_of_fmap. split.
  - intros (kv & -> & (r & Hkv & _)%list_elem_of_bind). by apply elem_of_reduce_output in Hkv as [? _].
  - intros Hk. exists (reduced (in_bucket (bucket nReduce (mkKV k "")) kvs) k). split; [done|].
    apply list_elem_of_bind. exists (bucket nReduce (mkKV k "")). split.
    + apply list_elem_of_fmap_2. unfold keys_of. rewrite sort_Strings_perm, elem_of_remove_dups.
      by apply elem_of_keys_bucket.
    + apply elem_of_seq. pose proof (bucket_lt (mkKV k "") Hn). lia.
Qed.

(** What the reduced values must be to survive the text format. *)
Definition outputs_ok kvs : Prop := ∀ k, k ∈ Key <$> kvs → json_ok (reduced kvs k).

Lemma merge_spec kvs fs : (∀ n, can_open n = true) → (0 < nReduce)%nat → outputs_ok kvs →
  (∀ r, (r < nReduce)%nat → fs !! mergeName job r = Some (enc (reduce_output kvs r))) →
  merge can_open job nReduce fs
  = Some (<["mrtmp." +:+ job := foldr String.append ""
       ((λ k, k +:+ ": " +:+ reduceF k (values_of k kvs) +:+ String (Ascii.ascii_of_nat 10) "")
          <$> sort_Strings (keys_of kvs))]> fs).
Proof.
  intros Ho Hn Hok Hout. unfold merge.
  pose proof (merge_read (reduce_output kvs) (seq 0 nReduce) fs ∅) as E. unfold gather in E. rewrite E; clear E.
  2:{ intros r [_ Hr]%elem_of_seq. split; [apply Hout; lia|]. apply Forall_forall. intros kv Hkv.
      destruct (elem_of_reduce_output kv r kvs Hkv) as (Hk & _ & Hv). specialize (Hok _ Hk). unfold reduced in Hok.
      rewrite <- Hv in Hok. by destruct kv. }
  simpl mbind. rewrite Ho.
  pose proof (λ k, gather_lookup (λ k, reduceF k (values_of k kvs)) (seq 0 nReduce ≫= reduce_output kvs) ∅ k) as Hl.
  assert (∀ kv, kv ∈ seq 0 nReduce ≫= reduce_output kvs → Value kv = reduceF (Key kv) (values_of (Key kv) kvs)) as Hv.
  { intros kv (r & Hkv & _)%list_elem_of_bind. by apply elem_of_reduce_output in Hkv as (_ & _ & ?). }
  rewrite (sorted_keys _ (Key <$> kvs)).
  - do 3 f_equal. apply list_fmap_ext. intros i k Hk. cbn beta. rewrite Hl by done.
    rewrite decide_True; [done|]. apply elem_of_reduce_keys; [done|].
    apply list_elem_of_lookup_2 in Hk. unfold keys_of in Hk. by rewrite sort_Strings_perm, elem_of_remove_dups in Hk.
  - intros k. rewrite Hl, lookup_empty by done. case_decide as Hk.
    + apply (proj1 (elem_of_reduce_keys k kvs Hn)) in Hk. by split.
    + split; [by intros []|]. intros Hk'. destruct Hk. by apply (proj2 (elem_of_reduce_keys k kvs Hn)).
Qed.

(** ** Whole jobs *)

(** No intermediate file of this job is left from an earlier run. *)
Definition clean_dir (nMap : nat) fs : Prop := ∀ m r, (m < nMap)%nat → fs !! reduceName job m r = None.

Lemma appended_records kvs : Forall json_ok kvs →
  match appended None kvs with Some c => json_decode c | None => [] end = kvs.
Proof. intros Hok. destruct kvs as [|kv kvs]; [done|]. cbn [appended default]. by apply json_round. Qed.

Lemma bucket_json_ok r kvs : Forall json_ok kvs → Forall json_ok (in_bucket r kvs).
Proof. rewrite !Forall_forall. intros H kv [_ Hkv]%list_elem_of_filter. by apply H. Qed.

Lemma bind_seq_lookup {A B} (g : A → list B) (h : nat → list B) (l : list A) (n : nat) :
  (∀ m x, l !! m = Some x → h (n + m)%nat = g x) → seq n (length l) ≫= h = l ≫= g.
Proof.
  revert n. induction l as [|x l IH]; intros n Hh; [done|]. simpl. f_equal.
  - specialize (Hh 0%nat x eq_refl). by rewrite Nat.add_0_r in Hh.
  - apply IH. intros m y Hy. specialize (Hh (S m) y Hy). by rewrite Nat.add_succ_r in Hh.
Qed.

Lemma in_bucket_bind {A} r (g : A → list KeyValue) (l : list A) :
  (l ≫= λ x, in_bucket r (g x)) = in_bucket r (l ≫= g).
Proof.
  induction l as [|x l IH]; [done|]. rewrite !bind_cons, IH. unfold in_bucket. by rewrite filter_app.
Qed.

(** All map tasks, in any order, leave the pairs of all inputs. *)
Lemma map_tasks_intermediate (ts : list (nat * string)) files fs :
  (∀ n, can_open n = true) → (0 < nReduce)%nat → ts ≡ₚ imap pair files →
  inputs_apart files → clean_dir (length files) fs → Forall json_ok (job_pairs files fs) →
  ∃ fs', foldl (λ acc it, fs ← acc; doMap can_open job it.1 it.2 nReduce mapF fs) (Some fs) ts = Some fs'
    ∧ intermediate fs' (length files) (job_pairs files fs).
Proof.
  intros Ho Hn Hp Hap Hcl Hok.
  assert (∀ m f, (m, f) ∈ ts ↔ files !! m = Some f) as Hts.
  { intros m f. rewrite Hp. rewrite list_elem_of_lookup. setoid_rewrite list_lookup_imap.
    setoid_rewrite fmap_Some. split; [by intros (i & f' & ? & [= -> ->])|eauto]. }
  destruct (map_tasks_spec ts fs Ho Hn) as (fs' & E & H1 & _).
  { rewrite Hp, fmap_imap. apply NoDup_alt. intros i j m.
    rewrite !list_lookup_imap, !fmap_Some. intros (f & _ & ->) (g & _ & E). exact E. }
  { intros f m r Hf. apply Hap. apply list_elem_of_fmap in Hf as ([m' f'] & -> & Hf).
    apply Hts in Hf. by eapply list_elem_of_lookup_2. }
  exists fs'. split; [done|]. intros r. unfold job_pairs. rewrite <- in_bucket_bind.
  apply bind_seq_lookup. intros m f Hf. cbn [Nat.add]. unfold read_records.
  rewrite (H1 m f r) by (by apply Hts). rewrite Hcl by (by eapply lookup_lt_Some).
  apply appended_records. apply bucket_json_ok.
  rewrite Forall_forall in Hok |- *. intros kv Hkv. apply Hok. apply list_elem_of_bind.
  exists f. split; [done|]. by eapply list_elem_of_lookup_2.
Qed.

(** Running the map tasks in any order, then the reduce tasks in any order
    and any number of times each, then the merge produces the reference output:
    every key of the map function's pairs, in byte order, with its values in
    file order reduced, whatever the number of reduce tasks. *)
Theorem tasks_compute_job (ts : list (nat * string)) (rs : list nat) files fs :
  (∀ n, can_open n = true) → (0 < nReduce)%nat →
  ts ≡ₚ imap pair files → (∀ r, r ∈ rs ↔ (r < nReduce)%nat) →
  inputs_apart files → clean_dir (length files) fs →
  Forall json_ok (job_pairs files fs) → outputs_ok (job_pairs files fs) →
  ∃ fs1 fs2,
    foldl (λ acc it, fs ← acc; doMap can_open job it.1 it.2 nReduce mapF fs) (Some fs) ts = Some fs1
    ∧ merge can_open job nReduce
        (foldl (λ fs i, doReduce can_open job i (mergeName job i) (length files) reduceF fs) fs1 rs) = Some fs2
    ∧ fs2 !! ("mrtmp." +:+ job) = Some (job_output files fs).
Proof.
  intros Ho Hn Hp Hrs Hap Hcl Hok Hout.
  destruct (map_tasks_intermediate ts files fs Ho Hn Hp Hap Hcl Hok) as (fs1 & E1 & Hi).
  destruct (reduce_tasks_spec rs _ _ fs1 Ho Hi _ eq_refl) as [_ Hr].
  eexists fs1, _. split; [done|]. split.
  - apply (merge_spec (job_pairs files fs)); [done..|]. intros r Hlt. rewrite Hr. by rewrite decide_True by by apply Hrs.
  - by rewrite lookup_insert_eq.
Qed.

(** A sequential job in a clean directory terminates and writes the
    reference output, for every number of reduce tasks above zero. *)
Theorem sequential_job files fs :
  (∀ n, can_open n = true) → (0 < nReduce)%nat → inputs_apart files → clean_dir (length files) fs →
  Forall json_ok (job_pairs files fs) → outputs_ok (job_pairs files fs) →
  ∃ mr fs', Sequential can_open mapF reduceF job files nReduce fs = Some (mr, fs')
    ∧ fs' !! ("mrtmp." +:+ job) = Some (job_output files fs) ∧ mr_stats mr = [Z.of_nat (length files + nReduce)].
Proof.
  intros Ho Hn Hap Hcl Hok Hout. unfold Sequential, run, sequential_schedule, merge_files, map_phase, reduce_phase.
  destruct (map_tasks_intermediate (imap pair files) files fs Ho Hn (reflexivity _) Hap Hcl Hok) as (fs1 & E1 & Hi).
  destruct (reduce_tasks_spec (seq 0 nReduce) _ _ fs1 Ho Hi _ eq_refl) as [_ Hr].
  cbn [fst snd mr_jobName mr_files mr_nReduce newMaster mr_address mr_workers mr_stats]. rewrite E1.
  cbn [mbind option_bind fmap option_fmap option_map fst snd with_stats mr_jobName mr_files mr_nReduce mr_address mr_workers mr_stats].
  rewrite (merge_spec (job_pairs files fs)).
  - eexists _, _. split_and!; [done|by rewrite lookup_insert_eq|done].
  - done.
  - done.
  - done.
  - intros r Hlt. rewrite Hr. by rewrite decide_True by (apply elem_of_seq; lia).
Qed.

(** A map task is not idempotent: the intermediate files are opened for
    appending, so a task that is executed again (as [schedule] does when a reply
    is lost) leaves every pair twice. *)
Theorem map_task_rerun m f fs fs1 fs2 :
  (∀ n, can_open n = true) → (0 < nReduce)%nat → (∀ r, f ≠ reduceName job m r) →
  (∀ r, fs !! reduceName job m r = None) → Forall json_ok (mapF f (default "" (fs !! f))) →
  doMap can_open job m f nReduce mapF fs = Some fs1 →
  doMap can_open job m f nReduce mapF fs1 = Some fs2 →
  ∀ r, read_records fs1 (reduceName job m r) = in_bucket r (mapF f (default "" (fs !! f)))
    ∧ read_records fs2 (reduceName job m r)
      = in_bucket r (mapF f (default "" (fs !! f))) ++ in_bucket r (mapF f (default "" (fs !! f))).
Proof.
  intros Ho Hn Hf Hcl Hok E1 E2 r.
  destruct (doMap_spec m f fs Ho Hn) as (fs1' & E1' & H1 & H1').
  destruct (doMap_spec m f fs1 Ho Hn) as (fs2' & E2' & H2 & _). simplify_eq.
  specialize (H1 m r). specialize (H2 m r). rewrite decide_True in H1, H2 by done.
  rewrite (H1' f) in H2 by done. rewrite Hcl in H1.
  pose proof (bucket_json_ok r _ Hok) as Hb. revert H1 H2 Hb. generalize (in_bucket r (mapF f (default "" (fs !! f)))).
  intros kvs H1 H2 Hb. unfold read_records. rewrite H2, H1. split; [by apply appended_records|].
  destruct kvs as [|kv kvs]; [done|]. cbn [appended default].
  change (json_decode (enc (kv :: kvs) +:+ enc (kv :: kvs)) = (kv :: kvs) ++ kv :: kvs).
  rewrite <- enc_app. apply json_round. by apply Forall_app.
Qed.

(** ** Cleaning up *)
Definition job_files (nMap : nat) : list string :=
  (i ← seq 0 nMap; reduceName job i <$> seq 0 nReduce) ++ (mergeName job <$> seq 0 nReduce) ++ ["mrtmp." +:+ job].

Definition removed (ns : list string) fs (o : option Files) : Prop :=
  match o with
  | Some fs' => (∀ n, n ∈ ns → is_Some (fs !! n)) ∧ (∀ n, fs' !! n = if decide (n ∈ ns) then None else fs !! n)
  | None => ∃ n, n ∈ ns ∧ fs !! n = None
  end.

Lemma removeFiles_None ns : foldl (λ acc n, fs ← acc; removeFile n fs) None ns = None.
Proof. by induction ns. Qed.

Lemma removeFiles_app ns ns' fs :
  removeFiles (ns ++ ns') fs = (fs ← removeFiles ns fs; removeFiles ns' fs).
Proof.
  unfold removeFiles. rewrite foldl_app. destruct (foldl _ (Some fs) ns); [done|]. by rewrite removeFiles_None.
Qed.

Lemma removeFiles_spec ns fs : NoDup ns → removed ns fs (removeFiles ns fs).
Proof.
  unfold removeFiles. revert fs. induction ns as [|n ns IH]; intros fs Hnd.
  { split; [by intros n ?%not_elem_of_nil|done]. }
  apply NoDup_cons in Hnd as [Hn Hnd]. cbn [foldl]. simpl mbind. unfold removeFile at 2.
  destruct (fs !! n) as [c|] eqn:E.
  2:{ rewrite removeFiles_None. exists n. split; [left|done]. }
  specialize (IH (delete n fs) Hnd). destruct (foldl _ _ ns) as [fs'|].
  - destruct IH as [H1 H2]. split.
    + intros n' [->|Hn']%elem_of_cons; [by eexists|]. specialize (H1 n' Hn').
      rewrite lookup_delete_ne in H1; [done|congruence].
    + intros n'. rewrite H2. destruct (decide (n' ∈ ns)) as [Hn'|Hn']; [by rewrite decide_True by (by right)|].
      destruct (decide (n' = n)) as [->|Hne].
      * rewrite lookup_delete_eq. by rewrite decide_True by left.
      * rewrite lookup_delete_ne by done. rewrite decide_False; [done|]. by rewrite elem_of_cons; intros [|].
  - destruct IH as (n' & Hn' & Hl). exists n'. split; [by right|]. rewrite lookup_delete_ne in Hl; [done|congruence].
Qed.

Lemma out_reduce_name m r : "mrtmp." +:+ job ≠ reduceName job m r.
Proof. unfold reduceName. intros E. apply (inj (String.append _)) in E. symmetry in E. by apply append_ne in E. Qed.

Lemma job_files_NoDup nMap : NoDup (job_files nMap).
Proof.
  unfold job_files. apply NoDup_app. split_and!.
  - apply NoDup_bind; [|intros i _; apply NoDup_fmap_2; [|apply NoDup_seq]|apply NoDup_seq].
    + intros i j n _ _ (r & -> & _)%list_elem_of_fmap (r' & E & _)%list_elem_of_fmap. by apply reduceName_inj in E as [? _].
    + intros r r' E. by apply reduceName_inj in E as [_ ?].
  - intros n (i & (r & -> & _)%list_elem_of_fmap & _)%list_elem_of_bind [(r' & E & _)%list_elem_of_fmap|E]%elem_of_app.
    + by apply reduce_merge_name in E.
    + apply list_elem_of_singleton in E. by apply (out_reduce_name i r).
  - apply NoDup_app. split_and!; [apply NoDup_fmap_2; [|apply NoDup_seq]| |apply NoDup_singleton].
    + intros r r' E. by apply mergeName_inj in E.
    + intros n (r & -> & _)%list_elem_of_fmap E%list_elem_of_singleton. by apply (out_merge_name job r).
Qed.

(** Cleaning up removes exactly the files of the job and nothing else; it
    terminates the process exactly when one of them is missing. *)
Theorem cleanup_removes_job (files : list string) fs :
  removed (job_files (length files)) fs (CleanupFiles job files nReduce fs).
Proof.
  replace (CleanupFiles job files nReduce fs) with (removeFiles (job_files (length files)) fs).
  { apply removeFiles_spec, job_files_NoDup. }
  unfold job_files, CleanupFiles. rewrite removeFiles_app.
  destruct (removeFiles _ fs) as [fs1|]; [|done]. simpl mbind. rewrite removeFiles_app.
  by destruct (removeFiles _ fs1) as [fs2|].
Qed.
End job.

(** ** Concrete jobs *)

(** A record format: every character is marked, every field terminated. *)
Fixpoint mark (s : string) : string :=
  match s with
  | EmptyString => "1"
  | String c s' => String "0" (String c (mark s'))
  end.

Fixpoint unmark (key : option string) (cur s : string) : list KeyValue :=
  match s with
  | EmptyString => []
  | String t s' =>
      if Ascii.eqb t "1" then
        match key with
        | None => unmark (Some cur) "" s'
        | Some k => mkKV k cur :: unmark None "" s'
        end
      else match s' with
           | EmptyString => []
           | String c s'' => unmark key (cur +:+ String c "") s''
           end
  end.

Lemma unmark_mark key cur s r : unmark key cur (mark s +:+ r) = unmark key (cur +:+ s) (String "1" r).
Proof.
  revert cur. induction s as [|c s IH]; intros cur; [by rewrite append_nil_r|].
  change (unmark key (cur +:+ String c "") (mark s +:+ r) = unmark key (cur +:+ String c s) (String "1" r)).
  rewrite IH. f_equal. by rewrite <- append_assoc'.
Qed.

Lemma mark_round kvs : unmark None "" (foldr String.append "" ((λ kv, mark (Key kv) +:+ mark (Value kv)) <$> kvs)) = kvs.
Proof.
  induction kvs as [|[k v] kvs IH]; [done|]. rewrite fmap_cons. cbn [foldr Key Value].
  rewrite <- append_assoc', unmark_mark. cbn. rewrite unmark_mark. cbn. by f_equal.
Qed.

Definition mark_json : Json := {|
  json_encode := λ kv, mark (Key kv) +:+ mark (Value kv);
  json_decode := unmark None "";
  json_ok := λ _, True;
  json_round := λ kvs _, mark_round kvs
|}.

Definition example_dir : Files := {[ "a" := "x"; "b" := "y" ]}.
Definition example_map (f c : string) : list KeyValue := [mkKV c f; mkKV "k" c].
Definition example_reduce (k : string) (vs : list string) : string := foldr String.append "" vs.

Lemma example_apart job m r f : f ∈ ["a"; "b"] → f ≠ reduceName job m r.
Proof. unfold reduceName. intros [->|[->|?%not_elem_of_nil]%elem_of_cons]%elem_of_cons E; [discriminate..|done]. Qed.

Lemma example_clean job nMap : clean_dir job nMap example_dir.
Proof.
  intros m r _. unfold example_dir. rewrite lookup_insert_ne by (apply example_apart; left).
  rewrite lookup_singleton_ne by (apply example_apart; right; left). done.
Qed.

Lemma tasks_compute_job_witness :
  ∃ fs1 fs2,
    foldl (λ acc it, fs ← acc; doMap (J := mark_json) (λ _, true) "job" it.1 it.2 3 example_map fs)
      (Some example_dir) [(1%nat, "b"); (0%nat, "a")] = Some fs1
    ∧ merge (J := mark_json) (RO := source_order) (λ _, true) "job" 3
        (foldl (λ fs i, doReduce (J := mark_json) (RO := source_order) (λ _, true) "job" i (mergeName "job" i) 2
                          example_reduce fs) fs1 [2%nat; 0%nat; 2%nat; 1%nat]) = Some fs2
    ∧ fs2 !! "mrtmp.job" = Some (job_output example_map example_reduce ["a"; "b"] example_dir).
Proof.
  apply (tasks_compute_job (J := mark_json) (RO := source_order) (λ _, true) example_map example_reduce "job" 3
           [(1%nat, "b"); (0%nat, "a")] [2%nat; 0%nat; 2%nat; 1%nat] ["a"; "b"] example_dir).
  - done.
  - lia.
  - apply Permutation_swap.
  - intros r. rewrite !elem_of_cons, elem_of_nil. lia.
  - intros f m r. apply example_apart.
  - apply example_clean.
  - apply Forall_forall. intros ??. exact I.
  - intros ??. exact I.
Defined.

Lemma sequential_job_witness :
  ∃ mr fs', Sequential (J := mark_json) (RO := source_order) (λ _, true) example_map example_reduce "job" ["a"; "b"] 3 example_dir
         = Some (mr, fs')
    ∧ fs' !! "mrtmp.job" = Some (job_output example_map example_reduce ["a"; "b"] example_dir) ∧ mr_stats mr = [5%Z].
Proof.
  apply (sequential_job (J := mark_json) (RO := source_order) (λ _, true) example_map example_reduce "job" 3
           ["a"; "b"] example_dir).
  - done.
  - lia.
  - intros f m r. apply example_apart.
  - apply example_clean.
  - apply Forall_forall. intros ??. exact I.
  - intros ??. exact I.
Defined.

(** The reference output of this job, evaluated. *)
Example example_output :
  job_output example_map example_reduce ["a"; "b"] example_dir
  = foldr String.append "" ["k: xy"; String (Ascii.ascii_of_nat 10) ""; "x: a"; String (Ascii.ascii_of_nat 10) "";
                            "y: b"; String (Ascii.ascii_of_nat 10) ""].
Proof. vm_compute. reflexivity. Qed.

Definition run_twice : option (Files * Files) :=
  fs1 ← doMap (J := mark_json) (λ _, true) "job" 0 "a" 1 example_map example_dir;
  fs2 ← doMap (J := mark_json) (λ _, true) "job" 0 "a" 1 example_map fs1;
  Some (fs1, fs2).

Lemma map_task_rerun_witness :
  ∃ fs1 fs2, run_twice = Some (fs1, fs2)
    ∧ read_records (J := mark_json) fs2 (reduceName "job" 0 0) = [mkKV "x" "a"; mkKV "k" "x"; mkKV "x" "a"; mkKV "k" "x"].
Proof.
  assert (match run_twice with Some _ => true | None => false end = true) as Hs by (vm_compute; reflexivity).
  destruct run_twice as [[fs1 fs2]|] eqn:E; [clear Hs|discriminate Hs].
  exists fs1, fs2. split; [reflexivity|]. unfold run_twice in E.
  apply bind_Some in E as (fs1' & E1 & E). apply bind_Some in E as (fs2' & E2 & E). injection E as -> ->.
  refine (eq_trans (proj2 (map_task_rerun (J := mark_json) (λ _, true) example_map "job" 1 0 "a" example_dir fs1 fs2
    _ _ _ _ _ E1 E2 0%nat)) _).
  - done.
  - lia.
  - intros r. apply example_apart. left.
  - intros r. apply (example_clean "job" 1). lia.
  - apply Forall_forall. intros ??. exact I.
  - vm_compute. reflexivity.
Defined.

(** Cleaning up after a job that succeeded terminates the process when a
    map task had no pair for some reduce task: [doMap] creates the file of a
    bucket only when it writes to it. *)
Theorem cleanup_after_job_fatal :
  (Sequential (J := mark_json) (RO := source_order) (λ _, true) example_map example_reduce "job" ["a"; "b"] 3 example_dir
     ≫= λ s, CleanupFiles "job" ["a"; "b"] 3 s.2) = None.
Proof. vm_compute. reflexivity. Qed.
