(* ===== verification/Schedule.v ===== *)
(** Schedule: a phase of a distributed MapReduce job.

    Source: lab4-mapreduce/src/mapreduce/{schedule.go, worker.go, master.go,
    common_rpc.go}.

    The goroutines of [schedule] (one per task), of [forwardRegistrations] and of
    the workers run concurrently; a state holds where each of them is.  A step is an
    [event] of the scheduler or of a worker, and before it any number of the actions on the
    files of the tasks that are being executed, in any order; a run is a list of such
    [label]s.  The channel is unbuffered: receiving takes one of the goroutines that
    are blocked in a send ([pool] for registrations, [Offer] for workers handed
    back).  A call may fail at any moment, before or after the worker has executed
    it; the worker goes on with such a task on its own ([orphans]), also when the phase has
    returned and the next one has begun. *)
From Stdlib Require Import ZArith Lia.
From stdpp Require Import gmap strings list.
From S2P Require Import Prelude.
From S2P Require Import MapReduce.
Open Scope Z_scope.

(** ** common_rpc.go, worker.go: data *)
Record DoTaskArgs := mkArgs {
  JobName : string;
  File : string;
  Phase : jobPhase;
  TaskNumber : nat;
  NumOtherPhase : nat
}.

Record Parallelism := mkPar { now : Z; max : Z }.

Record Worker := mkWorker {
  nRPC : Z;
  nTasks : Z;
  concurrent : Z;
  parallelism : bool   (* the worker shares the [Parallelism] of its caller *)
}.

(** ** worker.go *)
Definition RunWorker (nRPC : Z) (par : bool) : Worker := mkWorker nRPC 0 0 par.

(** One turn of the accept loop: [None] when the listener is closed. *)
Definition accept (wk : Worker) : option Worker :=
  if decide (nRPC wk = 0) then None
  else Some (mkWorker (i64 (nRPC wk - 1)) (nTasks wk) (concurrent wk) (parallelism wk)).

Definition i32 (z : Z) : Z := (z + 2 ^ 31) mod 2 ^ 32 - 2 ^ 31.

(** The part of [DoTask] before the task itself; [concurrent] counts goroutines and
    stays far below the bounds of an int.  [None]: [log.Fatal]; the
    boolean says whether the worker pauses. *)
Definition DoTask_enter (wk : Worker) (p : Parallelism) : option (Worker * Parallelism * bool) :=
  let wk := mkWorker (nRPC wk) (i64 (nTasks wk + 1)) (concurrent wk + 1) (parallelism wk) in
  let nc := concurrent wk in
  if decide (nc > 1) then None
  else if parallelism wk then
    let now' := i32 (now p + 1) in
    let max' := if decide (now' > max p) then now' else max p in
    Some (wk, mkPar now' max', bool_decide (max' < 2))
  else Some (wk, p, false).

Definition DoTask_leave (wk : Worker) (p : Parallelism) : Worker * Parallelism :=
  let wk := mkWorker (nRPC wk) (nTasks wk) (concurrent wk - 1) (parallelism wk) in
  (wk, if parallelism wk then mkPar (i32 (now p - 1)) (max p) else p).

Definition Worker_Shutdown (wk : Worker) : Z * Worker :=
  (nTasks wk, mkWorker 1 (nTasks wk) (concurrent wk) (parallelism wk)).

(** ** schedule.go *)
Definition ntasks (mapFiles : list string) (nReduce : nat) (phase : jobPhase) : nat :=
  match phase with mapPhase => length mapFiles | reducePhase => nReduce end.

Definition n_other (mapFiles : list string) (nReduce : nat) (phase : jobPhase) : nat :=
  match phase with mapPhase => nReduce | reducePhase => length mapFiles end.

(** The arguments of a task; [mapFiles[number]] panics out of range. *)
Definition task_args (jobName : string) (mapFiles : list string) (nReduce : nat) (phase : jobPhase)
    (number : nat) : option DoTaskArgs :=
  f ← mapFiles !! number;
  Some (mkArgs jobName f phase number (n_other mapFiles nReduce phase)).

(** An execution whose call has failed. *)
Record Orphan := mkOrphan { o_worker : string; o_arg : DoTaskArgs; o_exec : Exec }.

(** Where the goroutine of a task is. *)
Inductive Task :=
| Idle                  (* created, not run yet *)
| Wait                  (* blocked in [<- registerChan] *)
| Sent (w : string)     (* in [call], not accepted by the worker *)
| Running (w : string) (e : Exec)  (* in [call], the worker is executing it *)
| Served (w : string)   (* in [call], the worker has executed it *)
| Offer (w : string)    (* [wg.Done] called, blocked in [registerChan <- worker] *)
| Fin.
#[export] Instance KeyValue_eq_dec : EqDecision KeyValue.
Proof. solve_decision. Defined.
#[export] Instance Exec_eq_dec : EqDecision Exec.
Proof. solve_decision. Defined.
#[export] Instance Task_eq_dec : EqDecision Task.
Proof. solve_decision. Defined.

Inductive Crash :=
| IndexPanic      (* [mapFiles[number]] *)
| WorkerFatal     (* more than one DoTask sent concurrently *)
| TaskPanic.      (* the task itself: modulus zero *)

Record Sched := mkSched {
  workers : list string;            (* mr.workers *)
  fwd : nat;                        (* i of forwardRegistrations *)
  pool : list string;               (* goroutines blocked in [ch <- w] *)
  tasks : list Task;
  orphans : list Orphan;            (* executions whose call has failed *)
  wks : gmap string Worker;
  par : Parallelism;
  files : Files;
  crash : option Crash;
  executed : list nat;              (* ghost: tasks executed to their end, in order *)
  dropped : list string             (* ghost: workers whose call failed *)
}.

Inductive event :=
| LRegister (w : string) (nrpc : Z) (p : bool)
| LForward
| LStart (i : nat)
| LRecvPool (i k : nat)
| LRecvOffer (i j : nat)
| LBegin (i : nat)
| LEnd (i : nat)
| LOk (i : nat)
| LRefused (i : nat)    (* the call fails and the worker has not seen it *)
| LLost (i : nat)       (* the call fails while or after the worker executes it *)
| LOrphanEnd (k : nat).

(** Who acts on the files: the execution of a task, or an orphan. *)
Inductive actor := ATask (i : nat) | AOrphan (k : nat).
Abbreviation label := (list actor * event)%type.

Section phase.
Context {J : Json} {RO : RangeOrder}.
Context (can_open : string → bool) (mapF : string → string → list KeyValue) (reduceF : string → list string → string).
Context (jobName : string) (mapFiles : list string) (nReduce : nat) (phase : jobPhase).

(** The body of [DoTask]: the switch on the phase, and the next action of what it runs. *)
Definition DoTask_start (arg : DoTaskArgs) : Exec := match Phase arg with mapPhase => XRead | reducePhase => XGather 0 ∅ end.
Definition DoTask_action (arg : DoTaskArgs) : Exec → Files → option (Exec * Files) :=
  match Phase arg with
  | mapPhase => doMap_action can_open (JobName arg) (TaskNumber arg) (File arg) (NumOtherPhase arg) mapF
  | reducePhase => doReduce_action can_open (JobName arg) (TaskNumber arg) (mergeName (JobName arg) (TaskNumber arg))
                     (NumOtherPhase arg) reduceF
  end.

(** [orph] runs on from the phase before. *)
Definition schedule_init (ws : list string) (orph : list Orphan) (wm : gmap string Worker) (p : Parallelism) (fs : Files) : Sched :=
  mkSched ws 0 [] (replicate (ntasks mapFiles nReduce phase) Idle) orph wm p fs None [] [].

Definition set_task (i : nat) (t : Task) (s : Sched) : Sched :=
  mkSched (workers s) (fwd s) (pool s) (<[i := t]> (tasks s)) (orphans s) (wks s) (par s) (files s) (crash s)
    (executed s) (dropped s).

Definition set_crash (c : Crash) (s : Sched) : Sched :=
  mkSched (workers s) (fwd s) (pool s) (tasks s) (orphans s) (wks s) (par s) (files s) (Some c)
    (executed s) (dropped s).

(** [mr.workers = append(mr.workers, args.Worker)]; the worker has been created
    by [RunWorker]. *)
Definition Register (w : string) (nrpc : Z) (p : bool) (s : Sched) : Sched :=
  mkSched (workers s ++ [w]) (fwd s) (pool s) (tasks s) (orphans s) (<[w := RunWorker nrpc p]> (wks s)) (par s) (files s)
    (crash s) (executed s) (dropped s).

Definition forwardRegistrations (s : Sched) : option Sched :=
  w ← workers s !! fwd s;
  Some (mkSched (workers s) (S (fwd s)) (pool s ++ [w]) (tasks s) (orphans s) (wks s) (par s) (files s) (crash s)
    (executed s) (dropped s)).

Definition start_task (i : nat) (s : Sched) : option Sched :=
  t ← tasks s !! i;
  match t, task_args jobName mapFiles nReduce phase i with
  | Idle, Some _ => Some (set_task i Wait s)
  | Idle, None => Some (set_crash IndexPanic s)
  | _, _ => None
  end.

Definition recv_pool (i k : nat) (s : Sched) : option Sched :=
  t ← tasks s !! i;
  w ← pool s !! k;
  match t with
  | Wait => Some (mkSched (workers s) (fwd s) (delete k (pool s)) (<[i := Sent w]> (tasks s)) (orphans s) (wks s)
                    (par s) (files s) (crash s) (executed s) (dropped s))
  | _ => None
  end.

Definition recv_offer (i j : nat) (s : Sched) : option Sched :=
  t ← tasks s !! i;
  t' ← tasks s !! j;
  match t, t' with
  | Wait, Offer w => Some (set_task i (Sent w) (set_task j Fin s))
  | _, _ => None
  end.

(** The worker accepts the connection and enters [DoTask]. *)
Definition begin_task (i : nat) (s : Sched) : option Sched :=
  t ← tasks s !! i;
  match t with
  | Sent w =>
      wk ← wks s !! w;
      wk ← accept wk;
      arg ← task_args jobName mapFiles nReduce phase i;
      match DoTask_enter wk (par s) with
      | None => Some (set_crash WorkerFatal s)
      | Some (wk, p, _) =>
          Some (mkSched (workers s) (fwd s) (pool s) (<[i := Running w (DoTask_start arg)]> (tasks s)) (orphans s) (<[w := wk]> (wks s)) p
                  (files s) (crash s) (executed s) (dropped s))
      end
  | _ => None
  end.

(** One action of an execution on the files; none after its end. *)
Definition set_files (ts : list Task) (orph : list Orphan) (fs : Files) (s : Sched) : Sched :=
  mkSched (workers s) (fwd s) (pool s) ts orph (wks s) (par s) fs (crash s) (executed s) (dropped s).

Definition orphan_action (k : nat) (orph : list Orphan) (fs : Files) : option (option (list Orphan * Files)) :=
  o ← orph !! k;
  if ended (o_exec o) then None
  else Some ('(e, fs) ← DoTask_action (o_arg o) (o_exec o) fs; Some (<[k := mkOrphan (o_worker o) (o_arg o) e]> orph, fs)).

Definition work (a : actor) (s : Sched) : option Sched :=
  match a with
  | ATask i =>
      t ← tasks s !! i;
      match t with
      | Running w e =>
          arg ← task_args jobName mapFiles nReduce phase i;
          if ended e then None
          else Some match DoTask_action arg e (files s) with
                    | None => set_crash TaskPanic s
                    | Some (e, fs) => set_files (<[i := Running w e]> (tasks s)) (orphans s) fs s
                    end
      | _ => None
      end
  | AOrphan k =>
      r ← orphan_action k (orphans s) (files s);
      Some match r with
           | None => set_crash TaskPanic s
           | Some (orph, fs) => set_files (tasks s) orph fs s
           end
  end.

Fixpoint works (acts : list actor) (s : Sched) : option Sched :=
  match acts with
  | [] => Some s
  | a :: acts' => match crash s with Some _ => None | None => s' ← work a s; works acts' s' end
  end.

(** The rest of [DoTask] on worker [w], after the task. *)
Definition finish_task (w : string) (ts : list Task) (orph : list Orphan) (ex : list nat) (s : Sched) : option Sched :=
  wk ← wks s !! w;
  let '(wk, p) := DoTask_leave wk (par s) in
  Some (mkSched (workers s) (fwd s) (pool s) ts orph (<[w := wk]> (wks s)) p (files s) (crash s) ex (dropped s)).

Definition end_task (i : nat) (s : Sched) : option Sched :=
  t ← tasks s !! i;
  match t with
  | Running w e => if ended e then finish_task w (<[i := Served w]> (tasks s)) (orphans s) (executed s ++ [i]) s else None
  | _ => None
  end.

Definition orphan_end (k : nat) (s : Sched) : option Sched :=
  o ← orphans s !! k;
  if ended (o_exec o) then finish_task (o_worker o) (tasks s) (delete k (orphans s)) (executed s) s else None.

(** [ok = true]: [wg.Done()], then the worker is offered again. *)
Definition reply_ok (i : nat) (s : Sched) : option Sched :=
  t ← tasks s !! i;
  match t with
  | Served w => Some (set_task i (Offer w) s)
  | _ => None
  end.

(** [ok = false]: the worker is forgotten, the loop goes on. *)
Definition forget_worker (i : nat) (w : string) (orph : list Orphan) (s : Sched) : Sched :=
  mkSched (workers s) (fwd s) (pool s) (<[i := Wait]> (tasks s)) (orph ++ orphans s) (wks s) (par s) (files s)
    (crash s) (executed s) (dropped s ++ [w]).

Definition call_refused (i : nat) (s : Sched) : option Sched :=
  t ← tasks s !! i;
  match t with Sent w => Some (forget_worker i w [] s) | _ => None end.

Definition call_lost (i : nat) (s : Sched) : option Sched :=
  t ← tasks s !! i;
  match t with
  | Running w e => arg ← task_args jobName mapFiles nReduce phase i; Some (forget_worker i w [mkOrphan w arg e] s)
  | Served w => Some (forget_worker i w [] s)
  | _ => None
  end.

Definition happen (l : event) (s : Sched) : option Sched :=
  match l with
  | LRegister w n p => Some (Register w n p s)
  | LForward => forwardRegistrations s
  | LStart i => start_task i s
  | LRecvPool i k => recv_pool i k s
  | LRecvOffer i j => recv_offer i j s
  | LBegin i => begin_task i s
  | LEnd i => end_task i s
  | LOk i => reply_ok i s
  | LRefused i => call_refused i s
  | LLost i => call_lost i s
  | LOrphanEnd k => orphan_end k s
  end.

(** One step; none after a crash.  When an action of a task panics the event does not
    happen. *)
Definition step (l : label) (s : Sched) : option Sched :=
  match crash s with
  | Some _ => None
  | None => s' ← works l.1 s; match crash s' with Some _ => Some s' | None => happen l.2 s' end
  end.

Fixpoint steps (ls : list label) (s : Sched) : option Sched :=
  match ls with
  | [] => Some s
  | l :: ls' => s' ← step l s; steps ls' s'
  end.

(** [wg.Wait()] returns: every task has called [wg.Done()]. *)
Definition wg_done (t : Task) : bool := match t with Offer _ | Fin => true | _ => false end.
Definition schedule_returns (s : Sched) : Prop := crash s = None ∧ forallb wg_done (tasks s) = true.
End phase.

(** ** master.go: killWorkers *)

(** What becomes of the Shutdown that is sent to a worker. *)
Inductive ShutdownFate := Answered | Unreachable | ReplyLost.

(** Every registered worker is sent a Shutdown, the [i]-th one with [fate i]; those that
    answer report the number of their tasks. *)
Fixpoint killWorkers (fate : nat → ShutdownFate) (ws : list string) (wm : gmap string Worker) : list Z * gmap string Worker :=
  match ws with
  | [] => ([], wm)
  | w :: ws =>
      let fate' i := fate (S i) in
      match wk ← wm !! w; accept wk, fate 0%nat with
      | None, _ | _, Unreachable => killWorkers fate' ws wm
      | Some wk, f =>
          let '(n, wk) := Worker_Shutdown wk in
          let '(ns, wm) := killWorkers fate' ws (<[w := wk]> wm) in
          (if f is Answered then n :: ns else ns, wm)
      end
  end.
