(* ===== verification/ScheduleProps.v ===== *)
(** ScheduleProps: a phase of a distributed job is safe, complete and terminates.

    Workers are counted: each registered worker is at any moment in exactly one
    of the pool, a task or the dropped ones, so it never executes two tasks; a
    phase that returns has executed every task; without lost replies it has
    executed each one once, which makes a distributed job compute what a
    sequential one does. *)
From Stdlib Require Import ZArith Lia.
From stdpp Require Import gmap strings list.
From S2P Require Import Prelude.
From S2P Require Import MapReduce.
From S2P Require Import MapReduceProps.
From S2P Require Import Schedule.
Open Scope Z_scope.

(** ** Counting *)
Definition cnt {A} `{EqDecision A} (x : A) (l : list A) : nat := length (filter (λ y, y = x) l).

Section cnt.
Context {A : Type} `{EqDecision A}.
Implicit Types (x y : A) (l : list A).

Lemma cnt_nil x : cnt x [] = 0%nat.
Proof. done. Qed.
Lemma cnt_cons x y l : cnt x (y :: l) = ((if decide (y = x) then 1 else 0) + cnt x l)%nat.
Proof. unfold cnt. rewrite filter_cons. by case_decide. Qed.
Lemma cnt_app x l l' : cnt x (l ++ l') = (cnt x l + cnt x l')%nat.
Proof. unfold cnt. by rewrite filter_app, length_app. Qed.

Lemma cnt_delete x y l k : l !! k = Some y →
  cnt x l = ((if decide (y = x) then 1 else 0) + cnt x (delete k l))%nat.
Proof.
  intros E. rewrite delete_take_drop. rewrite <- (take_drop_middle l k y E) at 1.
  rewrite !cnt_app, cnt_cons. lia.
Qed.

Lemma cnt_bind_insert {B} (f : B → list A) x (l : list B) i t t' : l !! i = Some t →
  (cnt x (<[i := t']> l ≫= f) + cnt x (f t) = cnt x (l ≫= f) + cnt x (f t'))%nat.
Proof.
  intros E. rewrite (insert_take_drop l i t') by (by eapply lookup_lt_Some).
  rewrite <- (take_drop_middle l i t E) at 3. rewrite !bind_app, !bind_cons, !cnt_app. lia.
Qed.

Lemma cnt_bind_ge {B} (f : B → list A) x (l : list B) i t : l !! i = Some t → (cnt x (f t) ≤ cnt x (l ≫= f))%nat.
Proof.
  intros E. rewrite <- (take_drop_middle l i t E). rewrite bind_app, bind_cons, !cnt_app. lia.
Qed.

Lemma cnt_bind_le {B} (f g : B → list A) x (l : list B) :
  (∀ b, cnt x (f b) ≤ cnt x (g b))%nat → (cnt x (l ≫= f) ≤ cnt x (l ≫= g))%nat.
Proof.
  intros Hfg. induction l as [|b l IH]; [done|]. rewrite !bind_cons, !cnt_app. specialize (Hfg b). lia.
Qed.

Lemma cnt_elem x l : x ∈ l ↔ (0 < cnt x l)%nat.
Proof.
  induction l as [|y l IH]; [rewrite elem_of_nil, cnt_nil; lia|].
  rewrite elem_of_cons, cnt_cons, IH. case_decide; [|intuition (congruence || lia)].
  split; [lia|]. left. congruence.
Qed.

Lemma cnt_NoDup x l : NoDup l → (cnt x l ≤ 1)%nat.
Proof.
  induction 1 as [|y l Hy Hnd IH]; [by rewrite cnt_nil; lia|]. rewrite cnt_cons.
  case_decide as E; [|lia]. subst. rewrite cnt_elem in Hy. lia.
Qed.

Lemma cnt_take_le x l n : (cnt x (take n l) ≤ cnt x l)%nat.
Proof. rewrite <- (take_drop n l) at 2. rewrite cnt_app. lia. Qed.

Lemma cnt_Permutation l l' : (∀ x, cnt x l = cnt x l') → l ≡ₚ l'.
Proof.
  revert l'. induction l as [|x l IH]; intros l' H.
  - destruct l' as [|y l']; [done|]. specialize (H y). rewrite cnt_nil, cnt_cons, decide_True in H; done || lia.
  - assert (x ∈ l') as Hx. { rewrite cnt_elem, <- H, cnt_cons, decide_True by done. lia. }
    apply list_elem_of_split in Hx as (l1 & l2 & ->). rewrite <- Permutation_middle. constructor. apply IH.
    intros y. specialize (H y). rewrite cnt_app, !cnt_cons in H. rewrite cnt_app. lia.
Qed.
End cnt.

(** ** Where the workers are *)
Definition holder (t : Task) : list string :=
  match t with Sent w | Running w _ | Served w | Offer w => [w] | _ => [] end.
Definition runner (t : Task) : list string := match t with Running w _ => [w] | _ => [] end.
Definition was_served (t : Task) : bool := match t with Served _ | Offer _ | Fin => true | _ => false end.

Section inv.
Context {J : Json} {RO : RangeOrder}.
Context (can_open : string → bool) (mapF : string → string → list KeyValue) (reduceF : string → list string → string).
Context (jobName : string) (mapFiles : list string) (nReduce : nat) (phase : jobPhase).
Implicit Types (s : Sched).
Local Abbreviation step := (step can_open mapF reduceF jobName mapFiles nReduce phase).
Local Abbreviation steps := (steps can_open mapF reduceF jobName mapFiles nReduce phase).

(** Every worker that was forwarded is in one place. *)
Definition workers_counted s : Prop := ∀ w,
  cnt w (take (fwd s) (workers s)) = (cnt w (pool s) + cnt w (tasks s ≫= holder) + cnt w (dropped s))%nat.

Definition orphans_dropped s : Prop := ∀ w, (cnt w (o_worker <$> orphans s) ≤ cnt w (dropped s))%nat.

(** A worker's own counter is the number of tasks it executes. *)
Definition concurrent_exact s : Prop := ∀ w wk, wks s !! w = Some wk →
  concurrent wk = Z.of_nat (cnt w (tasks s ≫= runner) + cnt w (o_worker <$> orphans s)).

Record safe s : Prop := {
  safe_fwd : (fwd s ≤ length (workers s))%nat;
  safe_counted : workers_counted s;
  safe_orphans : orphans_dropped s;
  safe_concurrent : crash s = None → concurrent_exact s;
  safe_crash : crash s ≠ Some WorkerFatal
}.

Lemma runner_holder w t : (cnt w (runner t) ≤ cnt w (holder t))%nat.
Proof. destruct t; cbn [runner holder]; rewrite ?cnt_nil; lia. Qed.

(** With distinct names, a registered worker executes at most one task. *)
Lemma running_le s w : NoDup (workers s) → workers_counted s → orphans_dropped s →
  (cnt w (tasks s ≫= runner) + cnt w (o_worker <$> orphans s) ≤ 1)%nat.
Proof.
  intros Hnd Hc Ho. specialize (Hc w). specialize (Ho w).
  pose proof (cnt_bind_le runner holder w (tasks s) (runner_holder w)).
  pose proof (cnt_take_le w (workers s) (fwd s)). pose proof (cnt_NoDup w _ Hnd). lia.
Qed.

(** ... and none while a call to it is on its way. *)
Lemma sent_idle s i w : NoDup (workers s) → workers_counted s → orphans_dropped s →
  tasks s !! i = Some (Sent w) → (cnt w (tasks s ≫= runner) + cnt w (o_worker <$> orphans s) = 0)%nat.
Proof.
  intros Hnd Hc Ho E. specialize (Hc w). specialize (Ho w).
  pose proof (cnt_bind_insert runner w (tasks s) i _ Wait E) as H1.
  pose proof (cnt_bind_insert holder w (tasks s) i _ Wait E) as H2.
  pose proof (cnt_bind_le runner holder w (<[i := Wait]> (tasks s)) (runner_holder w)).
  cbn [runner holder] in H1, H2. rewrite cnt_cons, decide_True in H2 by done. rewrite !cnt_nil in *.
  pose proof (cnt_take_le w (workers s) (fwd s)). pose proof (cnt_NoDup w _ Hnd). lia.
Qed.

(** Reduce the fields of an updated state. *)
Ltac proj := cbn [workers fwd pool tasks orphans wks par files crash executed dropped set_task set_crash set_files Register
  forget_worker RunWorker concurrent nRPC nTasks parallelism o_worker o_arg o_exec].

(** The counts after the goroutine of task [i] has moved to [t']. *)
Ltac task_counts E t' :=
  let H1 := fresh "Hrun" in let H2 := fresh "Hhold" in
  pose proof (λ w, cnt_bind_insert runner w _ _ _ t' E) as H1;
  pose proof (λ w, cnt_bind_insert holder w _ _ _ t' E) as H2;
  cbn [runner holder] in H1, H2.

(** Instantiate the counts at [w] and finish by arithmetic. *)
Ltac count_at w :=
  repeat match goal with H : ∀ _ : string, _ = _ |- _ => specialize (H w) end;
  repeat match goal with H : ∀ _ : string, (_ ≤ _)%nat |- _ => specialize (H w) end;
  rewrite ?cnt_app, ?cnt_cons, ?cnt_nil in *; try lia.

(** Only the goroutine of task [i] moves, and it keeps its worker. *)
Lemma safe_set_task s i t t' : tasks s !! i = Some t → holder t = holder t' → runner t = runner t' →
  safe s → safe (set_task i t' s).
Proof.
  intros E Hh Hr [Hf Hc Ho Hx Hk]. task_counts E t'. rewrite Hh in Hhold. rewrite Hr in Hrun.
  split; proj; try done.
  - intros w. proj. specialize (Hhold w). specialize (Hc w). lia.
  - intros Hcr w wk Hw. proj. rewrite (Hx Hcr w wk Hw). specialize (Hrun w). proj; lia.
Qed.

Lemma safe_set_crash s c : c ≠ WorkerFatal → safe s → safe (set_crash c s).
Proof. intros Hc [Hf Hct Ho Hx Hk]. split; try done. proj. congruence. Qed.

Lemma safe_register s w n p : NoDup (workers s ++ [w]) → safe s → safe (Register w n p s).
Proof.
  intros Hnd [Hf Hc Ho Hx Hk]. split; proj; try done.
  - rewrite length_app. lia.
  - intros v. proj. rewrite take_app_le by done. apply Hc.
  - intros Hcr v wk. proj. destruct (decide (v = w)) as [->|Hne].
    + rewrite lookup_insert_eq. intros [= <-]. cbn.
      apply NoDup_app in Hnd as (_ & Hw & _).
      assert (cnt w (take (fwd s) (workers s)) = 0)%nat as Hz.
      { pose proof (cnt_take_le w (workers s) (fwd s)). destruct (cnt w (workers s)) eqn:E; [lia|].
        destruct (Hw w); [apply cnt_elem; lia|left]. }
      specialize (Hc w). specialize (Ho w).
      pose proof (cnt_bind_le runner holder w (tasks s) (runner_holder w)). lia.
    + rewrite lookup_insert_ne by done. by apply Hx.
Qed.

Lemma safe_forward s s' : forwardRegistrations s = Some s' → safe s → safe s'.
Proof.
  unfold forwardRegistrations. intros (w & E & [= <-])%bind_Some [Hf Hc Ho Hx Hk].
  pose proof (lookup_lt_Some _ _ _ E). split; proj; try done.
  intros v. proj. rewrite (take_S_r _ _ w) by done. rewrite !cnt_app. specialize (Hc v). lia.
Qed.

Lemma safe_recv_pool i k s s' : recv_pool i k s = Some s' → safe s → safe s'.
Proof.
  unfold recv_pool. intros (t & E & (w & Ek & H)%bind_Some)%bind_Some [Hf Hc Ho Hx Hk].
  destruct t; simplify_eq. task_counts E (Sent w). split; proj; try done.
  - intros v. proj. specialize (Hc v). specialize (Hhold v). rewrite (cnt_delete v w _ _ Ek) in Hc.
    rewrite cnt_cons, cnt_nil in *. lia.
  - intros Hcr v wk Hv. proj. rewrite (Hx Hcr v wk Hv). specialize (Hrun v). lia.
Qed.

Lemma safe_recv_offer i j s s' : recv_offer i j s = Some s' → safe s → safe s'.
Proof.
  unfold recv_offer. intros (t & E & (t' & Ej & H)%bind_Some)%bind_Some [Hf Hc Ho Hx Hk].
  destruct t, t'; simplify_eq. assert (i ≠ j) as Hij by congruence.
  assert (<[j := Fin]> (tasks s) !! i = Some Wait) as E' by (by rewrite list_lookup_insert_ne).
  task_counts Ej Fin. task_counts E' (Sent w). split; proj; try done.
  - intros v. proj. specialize (Hc v). specialize (Hhold v). specialize (Hhold0 v). rewrite ?cnt_cons, ?cnt_nil in *. lia.
  - intros Hcr v wk Hv. proj. rewrite (Hx Hcr v wk Hv). specialize (Hrun v). specialize (Hrun0 v). lia.
Qed.

Lemma accept_concurrent wk wk' : accept wk = Some wk' → concurrent wk' = concurrent wk.
Proof. unfold accept. case_decide; [done|]. by intros [= <-]. Qed.

Lemma enter_spec wk p : concurrent wk = 0 →
  ∃ wk' p' b, DoTask_enter wk p = Some (wk', p', b) ∧ concurrent wk' = 1.
Proof.
  intros H. unfold DoTask_enter. proj. rewrite H. rewrite decide_False by lia.
  destruct (parallelism wk); eauto 6.
Qed.

Lemma safe_begin i s s' : NoDup (workers s) → begin_task jobName mapFiles nReduce phase i s = Some s' → crash s = None → safe s → safe s'.
Proof.
  intros Hnd H Hcr [Hf Hc Ho Hx Hk]. unfold begin_task in H. apply bind_Some in H as (t & E & H).
  destruct t as [| |w| | | |]; try done.
  apply bind_Some in H as (wk & Ew & H). apply bind_Some in H as (wk1 & Ea & H). apply bind_Some in H as (arg & _ & H).
  pose proof (sent_idle s i w Hnd Hc Ho E) as Hz.
  destruct (enter_spec wk1 (par s)) as (wk2 & p & b & Ee & Hwk2).
  { rewrite (accept_concurrent wk wk1 Ea), (Hx Hcr w wk Ew). lia. }
  rewrite Ee in H. injection H as <-. task_counts E (Running w (DoTask_start arg)). split; proj; try done.
  - intros v. proj. specialize (Hc v). specialize (Hhold v). lia.
  - intros _ v wk' Hv. revert Hv. proj. specialize (Hrun v). rewrite cnt_cons, !cnt_nil in Hrun.
    destruct (decide (w = v)) as [<-|Hne].
    + rewrite lookup_insert_eq. intros [= <-]. lia.
    + rewrite lookup_insert_ne by done. intros Hv. rewrite (Hx Hcr v wk' Hv). lia.
Qed.

(** What the end of an execution changes. *)
Lemma finish_spec w ts orph ex s s' : finish_task w ts orph ex s = Some s' →
  workers s' = workers s ∧ fwd s' = fwd s ∧ pool s' = pool s ∧ tasks s' = ts ∧ orphans s' = orph ∧ dropped s' = dropped s
  ∧ crash s' = crash s ∧ executed s' = ex ∧ files s' = files s
  ∧ ∃ wk wk', wks s !! w = Some wk ∧ concurrent wk' = concurrent wk - 1 ∧ wks s' = <[w := wk']> (wks s).
Proof.
  unfold finish_task. intros (wk & Ew & H)%bind_Some. cbn [DoTask_leave] in H. simplify_eq. split_and!; try done.
  by exists wk, (DoTask_leave wk (par s)).1.
Qed.

Lemma end_spec i s s' : end_task i s = Some s' → ∃ w e, tasks s !! i = Some (Running w e) ∧ ended e = true
  ∧ finish_task w (<[i := Served w]> (tasks s)) (orphans s) (executed s ++ [i]) s = Some s'.
Proof.
  unfold end_task. intros (t & E & H)%bind_Some. destruct t as [| | |w e| | |]; try done. destruct (ended e) eqn:Ee; [|done]. by exists w, e.
Qed.

Lemma orphan_end_spec k s s' : orphan_end k s = Some s' → ∃ o, orphans s !! k = Some o ∧ ended (o_exec o) = true
  ∧ finish_task (o_worker o) (tasks s) (delete k (orphans s)) (executed s) s = Some s'.
Proof. unfold orphan_end. intros (o & E & H)%bind_Some. destruct (ended (o_exec o)) eqn:Ee; [|done]. by exists o. Qed.

Lemma safe_end i s s' : end_task i s = Some s' → crash s = None → safe s → safe s'.
Proof.
  intros (w & e & E & _ & H)%end_spec Hcr [Hf Hc Ho Hx Hk].
  destruct (finish_spec _ _ _ _ s s' H) as (Ew & Ef & Ep & Et & Eo & Ed & Ec & _ & _ & wk0 & wk1 & Hw & Hd & Hwks).
  task_counts E (Served w). split; rewrite ?Ew, ?Ef, ?Ec; try done.
  - intros v. rewrite Ew, Ef, Ep, Et, Ed. specialize (Hc v). specialize (Hhold v). lia.
  - intros v. rewrite Eo, Ed. apply Ho.
  - intros _ v wk. rewrite Et, Eo, Hwks. specialize (Hrun v). rewrite cnt_cons, !cnt_nil in Hrun.
    destruct (decide (w = v)) as [<-|Hne].
    + rewrite lookup_insert_eq. intros [= <-]. rewrite Hd, (Hx Hcr w wk0 Hw). lia.
    + rewrite lookup_insert_ne by done. intros Hv. rewrite (Hx Hcr v wk Hv). lia.
Qed.

Lemma safe_orphan_end k s s' : orphan_end k s = Some s' → crash s = None → safe s → safe s'.
Proof.
  intros (o & E & _ & H)%orphan_end_spec Hcr [Hf Hc Ho Hx Hk].
  destruct (finish_spec _ _ _ _ s s' H) as (Ew & Ef & Ep & Et & Eo & Ed & Ec & _ & _ & wk0 & wk1 & Hw & Hd & Hwks).
  assert ((o_worker <$> orphans s) !! k = Some (o_worker o)) as Ek by (by rewrite list_lookup_fmap, E).
  assert (∀ v, cnt v (o_worker <$> orphans s) = (if decide (o_worker o = v) then 1 else 0) + cnt v (o_worker <$> delete k (orphans s)))%nat as Hdel.
  { intros v. rewrite (cnt_delete v (o_worker o) _ k Ek). by rewrite list_fmap_delete. }
  split; rewrite ?Ew, ?Ef, ?Ec; try done.
  - intros v. rewrite Ew, Ef, Ep, Et, Ed. apply Hc.
  - intros v. rewrite Eo, Ed. specialize (Ho v). rewrite Hdel in Ho. lia.
  - intros _ v wk. rewrite Et, Eo, Hwks. destruct (decide (o_worker o = v)) as [<-|Hne].
    + rewrite lookup_insert_eq. intros [= <-]. rewrite Hd, (Hx Hcr _ wk0 Hw), Hdel, decide_True by done. lia.
    + rewrite lookup_insert_ne by done. intros Hv. rewrite (Hx Hcr v wk Hv), Hdel, decide_False by done. lia.
Qed.

(** ** What the executions change *)

(** Where a goroutine is, whatever its execution has done. *)
Definition whereabouts (t : Task) : Task := match t with Running w _ => Running w XRead | t => t end.

Record same_places s s' : Prop := {
  sp_workers : workers s' = workers s;
  sp_fwd : fwd s' = fwd s;
  sp_pool : pool s' = pool s;
  sp_tasks : whereabouts <$> tasks s' = whereabouts <$> tasks s;
  sp_orphans : o_worker <$> orphans s' = o_worker <$> orphans s;
  sp_wks : wks s' = wks s;
  sp_executed : executed s' = executed s;
  sp_dropped : dropped s' = dropped s;
  sp_crash : crash s' = crash s ∨ crash s' = Some TaskPanic
}.
#[local] Instance same_places_preorder : PreOrder same_places.
Proof.
  split; [split; auto|]. intros s1 s2 s3 [A1 A2 A3 A4 A5 A6 A7 A8 A9] [B1 B2 B3 B4 B5 B6 B7 B8 B9]. split; [congruence..|].
  destruct B9 as [->|]; auto.
Qed.

Lemma work_places a s s' : work can_open mapF reduceF jobName mapFiles nReduce phase a s = Some s' → same_places s s'.
Proof.
  destruct a as [i|k]; cbn [work].
  - intros (t & E & H)%bind_Some. destruct t as [| | |w e| | |]; try done. apply bind_Some in H as (arg & _ & H).
    destruct (ended e); [done|]. injection H as <-. destruct (DoTask_action _ _ _ arg e (files s)) as [[e' fs']|]; [|split; auto].
    split; proj; auto. rewrite list_fmap_insert. apply list_insert_id. by rewrite list_lookup_fmap, E.
  - intros (r & H & [= <-])%bind_Some. unfold orphan_action in H. apply bind_Some in H as (o & Eo & H). destruct (ended (o_exec o)); [done|].
    injection H as <-. destruct (DoTask_action _ _ _ (o_arg o) (o_exec o) (files s)) as [[e' fs']|]; [|split; auto].
    cbn [mbind option_bind]. split; proj; auto. rewrite list_fmap_insert. apply list_insert_id. by rewrite list_lookup_fmap, Eo.
Qed.

Lemma works_places acts s s' : works can_open mapF reduceF jobName mapFiles nReduce phase acts s = Some s' → same_places s s'.
Proof.
  revert s. induction acts as [|a acts IH]; intros s; cbn [works]; [by intros [= <-]|]. destruct (crash s); [done|].
  intros (s1 & H1%work_places & H2)%bind_Some. etrans; [exact H1|by apply IH].
Qed.

Lemma places_bind {B} (f : Task → list B) s s' : (∀ t, f (whereabouts t) = f t) → same_places s s' → tasks s' ≫= f = tasks s ≫= f.
Proof.
  intros Hf Hp. transitivity ((whereabouts <$> tasks s') ≫= f).
  - clear Hp. induction (tasks s') as [|t l IH]; [done|]. rewrite fmap_cons, !bind_cons, Hf. by rewrite IH.
  - rewrite (sp_tasks s s' Hp). clear Hp. induction (tasks s) as [|t l IH]; [done|]. rewrite fmap_cons, !bind_cons, Hf. by rewrite IH.
Qed.

Lemma safe_places s s' : same_places s s' → safe s → safe s'.
Proof.
  intros Hp [Hf Hc Ho Hx Hk]. pose proof (places_bind holder s s' ltac:(by intros []) Hp) as Hh.
  pose proof (places_bind runner s s' ltac:(by intros []) Hp) as Hr. destruct Hp as [A1 A2 A3 A4 A5 A6 A7 A8 A9].
  split; rewrite ?A1, ?A2; try done.
  - intros w. rewrite A1, A2, A3, A8, Hh. apply Hc.
  - intros w. rewrite A5, A8. apply Ho.
  - intros Hcr w wk. rewrite A5, A6, Hr. apply Hx. destruct A9; congruence.
  - destruct A9 as [->| ->]; done.
Qed.

(** A step is the actions of the executions, then the event. *)
Lemma step_inv l s s' : step l s = Some s' → crash s = None
  ∧ ∃ s1, same_places s s1 ∧ works can_open mapF reduceF jobName mapFiles nReduce phase l.1 s = Some s1
    ∧ ((crash s1 = Some TaskPanic ∧ s' = s1) ∨ (crash s1 = None ∧ happen jobName mapFiles nReduce phase l.2 s1 = Some s')).
Proof.
  unfold Schedule.step. destruct (crash s) eqn:Hcr; [done|]. intros (s1 & H1 & H)%bind_Some. split; [done|]. exists s1.
  pose proof (works_places _ _ _ H1) as Hp. split_and!; [done|done|]. destruct (crash s1) eqn:Hc1; [left|by right].
  injection H as <-. split; [|done]. destruct (sp_crash s s1 Hp); congruence.
Qed.

Lemma safe_forget i t w orph s : tasks s !! i = Some t → holder t = [w] → runner t = (o_worker <$> orph) → crash s = None →
  safe s → safe (forget_worker i w orph s).
Proof.
  intros E Hh Hr Hcr [Hf Hc Ho Hx Hk]. task_counts E Wait. rewrite Hh in Hhold. rewrite Hr in Hrun.
  split; proj; try done.
  - intros v. proj. specialize (Hc v). specialize (Hhold v). rewrite cnt_app, cnt_nil in *. lia.
  - intros v. proj. rewrite fmap_app, !cnt_app. specialize (Ho v).
    pose proof (runner_holder v t) as Hle. rewrite Hh, Hr in Hle. lia.
  - intros _ v wk Hv. proj. rewrite fmap_app, cnt_app, (Hx Hcr v wk Hv). specialize (Hrun v).
    rewrite ?cnt_nil in *. lia.
Qed.

Lemma happen_safe l s s' : happen jobName mapFiles nReduce phase l s = Some s' → crash s = None → NoDup (workers s') → safe s → safe s'.
Proof.
  intros H Hcr Hnd Hs. destruct l as [w n p| |i|i k|i j|i|i|i|i|i|k]; cbn [happen] in H.
  - injection H as <-. by apply safe_register.
  - by eapply safe_forward.
  - unfold start_task in H. apply bind_Some in H as (t & E & H).
    destruct t; try done. destruct (task_args jobName mapFiles nReduce phase i); simplify_eq; [|by apply safe_set_crash].
    by eapply safe_set_task.
  - by eapply safe_recv_pool.
  - by eapply safe_recv_offer.
  - eapply safe_begin; [|done..]. unfold begin_task in H. apply bind_Some in H as (t & _ & H). destruct t; try done.
    apply bind_Some in H as (? & _ & H). apply bind_Some in H as (? & _ & H). apply bind_Some in H as (? & _ & H). repeat case_match; by simplify_eq.
  - by eapply safe_end.
  - unfold reply_ok in H. apply bind_Some in H as (t & E & H). destruct t; simplify_eq. by eapply safe_set_task.
  - unfold call_refused in H. apply bind_Some in H as (t & E & H). destruct t; simplify_eq. by eapply safe_forget.
  - unfold call_lost in H. apply bind_Some in H as (t & E & H). destruct t as [| | |w e|w| |]; try done.
    + apply bind_Some in H as (arg & _ & [= <-]). by eapply safe_forget.
    + injection H as <-. by eapply safe_forget.
  - by eapply safe_orphan_end.
Qed.

Lemma step_safe l s s' : step l s = Some s' → NoDup (workers s') → safe s → safe s'.
Proof.
  intros (_ & s1 & Hp & _ & [[_ ->]|[Hcr H]])%step_inv Hnd Hs; [by apply (safe_places s)|].
  apply (happen_safe l.2 s1); [done..|]. by apply (safe_places s).
Qed.

Lemma happen_workers l s s' : happen jobName mapFiles nReduce phase l s = Some s' → workers s `prefix_of` workers s'.
Proof.
  intros H. destruct l; cbn [happen] in H; simplify_eq; try by eexists.
  - unfold forwardRegistrations in H. apply bind_Some in H as (? & _ & [= <-]). done.
  - unfold start_task in H. apply bind_Some in H as (t & _ & H). repeat case_match; by simplify_eq.
  - unfold recv_pool in H. apply bind_Some in H as (? & _ & H). apply bind_Some in H as (? & _ & H). case_match; by simplify_eq.
  - unfold recv_offer in H. apply bind_Some in H as (? & _ & H). apply bind_Some in H as (? & _ & H). repeat case_match; by simplify_eq.
  - unfold begin_task in H. apply bind_Some in H as (t & _ & H). destruct t; try done.
    apply bind_Some in H as (? & _ & H). apply bind_Some in H as (? & _ & H). apply bind_Some in H as (? & _ & H). repeat case_match; by simplify_eq.
  - apply end_spec in H as (w & e & _ & _ & H). apply finish_spec in H as (E & _). by rewrite E.
  - unfold reply_ok in H. apply bind_Some in H as (t & _ & H). case_match; by simplify_eq.
  - unfold call_refused in H. apply bind_Some in H as (t & _ & H). case_match; by simplify_eq.
  - unfold call_lost in H. apply bind_Some in H as (t & _ & H). destruct t; try done; [|by simplify_eq].
    by apply bind_Some in H as (arg & _ & [= <-]).
  - apply orphan_end_spec in H as (o & _ & _ & H). apply finish_spec in H as (E & _). by rewrite E.
Qed.

Lemma step_workers l s s' : step l s = Some s' → workers s `prefix_of` workers s'.
Proof. intros (_ & s1 & Hp & _ & [[_ ->]|[_ H%happen_workers]])%step_inv; by rewrite <- (sp_workers s s1 Hp). Qed.

Lemma steps_workers ls s s' : steps ls s = Some s' → workers s `prefix_of` workers s'.
Proof.
  revert s. induction ls as [|l ls IH]; intros s; cbn [Schedule.steps]; [by intros [= ->]|].
  intros (s1 & H1 & H)%bind_Some. etrans; [by eapply step_workers|by apply IH].
Qed.

Lemma NoDup_prefix {A} (l l' : list A) : l `prefix_of` l' → NoDup l' → NoDup l.
Proof. intros [k ->]. by intros (? & _)%NoDup_app. Qed.

Lemma steps_safe ls s s' : steps ls s = Some s' → NoDup (workers s') → safe s → safe s'.
Proof.
  revert s. induction ls as [|l ls IH]; intros s; cbn [Schedule.steps]; [by intros [= ->]|].
  intros (s1 & H1 & H)%bind_Some Hnd Hs. apply (IH s1 H Hnd). eapply step_safe; [done| |done].
  eapply NoDup_prefix; [by eapply steps_workers|done].
Qed.

(** ** What has been executed *)

Definition served_of (o : option Task) : nat :=
  match o with Some t => if was_served t then 1 else 0 | None => 0 end.

Record logged (b : bool) s : Prop := {
  lg_len : length (tasks s) = ntasks mapFiles nReduce phase;
  lg_args : ∀ i t, tasks s !! i = Some t → t ≠ Idle → is_Some (mapFiles !! i);
  lg_count : ∀ i, (served_of (tasks s !! i) ≤ cnt i (executed s))%nat;
  lg_exact : b = true → orphans s = [] ∧ ∀ i, cnt i (executed s) = served_of (tasks s !! i)
}.

Definition is_lost (l : event) : bool := match l with LLost _ => true | _ => false end.

(** No reply is lost in a run. *)
Definition lossless (ls : list label) : bool := forallb (λ l, negb (is_lost l.2)) ls.

Lemma logged_same b s s' : tasks s' = tasks s → executed s' = executed s →
  orphans s' = orphans s → logged b s → logged b s'.
Proof. intros Et Ee Eo [H2 H3 H4 H5]. split; by rewrite ?Et, ?Ee, ?Eo. Qed.

Lemma logged_upd b s s' i t t' :
  tasks s !! i = Some t → tasks s' = <[i := t']> (tasks s) → executed s' = executed s →
  orphans s' = orphans s ∨ b = false →
  was_served t' = was_served t ∨ b = false ∧ was_served t' = false →
  is_Some (mapFiles !! i) → logged b s → logged b s'.
Proof.
  intros E Et Ee Eo Hser Hi [H2 H3 H4 H5].
  assert (∀ j, served_of (tasks s' !! j) = served_of (tasks s !! j)
           ∨ b = false ∧ (served_of (tasks s' !! j) ≤ served_of (tasks s !! j))%nat) as Hj.
  { intros j. rewrite Et. destruct (decide (i = j)) as [<-|Hne].
    - rewrite list_lookup_insert_eq by (by eapply lookup_lt_Some). rewrite E. cbn [served_of].
      destruct Hser as [->|[-> ->]]; [by left|right]. split; [done|]. destruct (was_served t); lia.
    - rewrite list_lookup_insert_ne by done. by left. }
  split; rewrite ?Ee; try done.
  - by rewrite Et, length_insert.
  - intros j u. rewrite Et. destruct (decide (i = j)) as [<-|Hne]; [done|].
    rewrite list_lookup_insert_ne by done. by apply H3.
  - intros j. specialize (H4 j). destruct (Hj j) as [->|[_ ?]]; [done|]. lia.
  - intros ->. destruct (H5 eq_refl) as [Ho Hc]. split; [by destruct Eo as [->|]|].
    intros j. rewrite Hc. destruct (Hj j) as [->|[? _]]; done.
Qed.

Lemma logged_end b i s s' : end_task i s = Some s' → logged b s → logged b s'.
Proof.
  intros (w & e & E & _ & H)%end_spec [H2 H3 H4 H5].
  destruct (finish_spec _ _ _ _ s s' H) as (_ & _ & _ & Et & Eo & _ & _ & Ee & _).
  assert (∀ j, served_of (<[i := Served w]> (tasks s) !! j)
    = (served_of (tasks s !! j) + (if decide (i = j) then 1 else 0))%nat) as Hj.
  { intros j. case_decide as Ej.
    - subst j. rewrite list_lookup_insert_eq by (by eapply lookup_lt_Some). by rewrite E.
    - rewrite list_lookup_insert_ne by done. lia. }
  split; rewrite ?Et, ?Ee, ?Eo.
  - by rewrite length_insert.
  - intros j u. destruct (decide (i = j)) as [<-|Hne].
    + intros _ _. by apply (H3 i _ E).
    + rewrite list_lookup_insert_ne by done. by apply H3.
  - intros j. rewrite Hj, cnt_app, cnt_cons, cnt_nil. specialize (H4 j). lia.
  - intros Hb. destruct (H5 Hb) as [Ho Hc]. split; [done|].
    intros j. rewrite Hj, cnt_app, cnt_cons, cnt_nil, Hc. lia.
Qed.

Lemma logged_orphan b k s s' : orphan_end k s = Some s' → logged b s → logged b s'.
Proof.
  intros (o & E & _ & H)%orphan_end_spec [H2 H3 H4 H5].
  destruct (finish_spec _ _ _ _ s s' H) as (_ & _ & _ & Et & Eo & _ & _ & Ee & _).
  split; rewrite ?Et, ?Ee, ?Eo; try done. intros Hb. destruct (H5 Hb) as [Ho _]. by rewrite Ho in E.
Qed.

Lemma logged_places b s s' : same_places s s' → logged b s → logged b s'.
Proof.
  intros [_ _ _ At Ao _ Ae _ _] [H2 H3 H4 H5].
  assert (∀ i, whereabouts <$> tasks s' !! i = whereabouts <$> tasks s !! i) as Hi by (intros i; rewrite <- !list_lookup_fmap; by rewrite At).
  assert (∀ i, served_of (tasks s' !! i) = served_of (tasks s !! i)) as Hs.
  { intros i. specialize (Hi i). destruct (tasks s' !! i) as [[]|], (tasks s !! i) as [[]|]; cbn in *; simplify_eq; done. }
  split; rewrite ?Ae.
  - rewrite <- H2. apply (f_equal length) in At. by rewrite !length_fmap in At.
  - intros i t' E' Hn. specialize (Hi i). rewrite E' in Hi. destruct (tasks s !! i) as [t|] eqn:E; [|done].
    apply (H3 i t E). intros ->. by destruct t'.
  - intros i. rewrite Hs. apply H4.
  - intros Hb. destruct (H5 Hb) as [Ho Hc]. rewrite Ho in Ao. split; [by apply fmap_nil_inv in Ao|]. intros i. by rewrite Hs.
Qed.

Lemma happen_logged b l s s' : happen jobName mapFiles nReduce phase l s = Some s' → crash s' = None → crash s = None →
  (b = true → is_lost l = false) → logged b s → logged b s'.
Proof.
  intros H Hcr' Hcr Hl Hs.
  assert (∀ i t, tasks s !! i = Some t → t ≠ Idle → is_Some (mapFiles !! i)) as Ha by apply Hs.
  destruct l as [w n p| |i|i k|i j|i|i|i|i|i|k]; cbn [happen] in H.
  - injection H as <-. by apply (logged_same b s).
  - unfold forwardRegistrations in H. apply bind_Some in H as (? & _ & [= <-]). by apply (logged_same b s).
  - unfold start_task in H. apply bind_Some in H as (t & E & H). destruct t; try done.
    destruct (task_args jobName mapFiles nReduce phase i) eqn:Et; simplify_eq.
    eapply (logged_upd _ s _ i _ _ E); eauto. unfold task_args in Et. apply bind_Some in Et as (? & ? & _). by eexists.
  - unfold recv_pool in H. apply bind_Some in H as (t & E & H). apply bind_Some in H as (? & _ & H).
    destruct t; simplify_eq. eapply (logged_upd _ s _ i _ _ E); eauto.
  - unfold recv_offer in H. apply bind_Some in H as (t & E & H). apply bind_Some in H as (t' & Ej & H).
    destruct t, t'; simplify_eq. assert (i ≠ j) as Hij by congruence.
    assert (<[j := Fin]> (tasks s) !! i = Some Wait) as E' by (by rewrite list_lookup_insert_ne).
    eapply (logged_upd _ (set_task j Fin s) _ i _ _ E'); [try done; eauto..|].
    eapply (logged_upd _ s _ j _ _ Ej); eauto.
  - unfold begin_task in H. apply bind_Some in H as (t & E & H). destruct t; try done.
    apply bind_Some in H as (? & _ & H). apply bind_Some in H as (? & _ & H). apply bind_Some in H as (? & _ & H). repeat case_match; simplify_eq.
    eapply (logged_upd _ s _ i _ _ E); eauto.
  - by eapply logged_end.
  - unfold reply_ok in H. apply bind_Some in H as (t & E & H). destruct t; simplify_eq.
    eapply (logged_upd _ s _ i _ _ E); eauto.
  - unfold call_refused in H. apply bind_Some in H as (t & E & H). destruct t; simplify_eq.
    eapply (logged_upd _ s _ i _ _ E); eauto.
  - destruct b; [by specialize (Hl eq_refl)|]. unfold call_lost in H. apply bind_Some in H as (t & E & H).
    destruct t; try done; [apply bind_Some in H as (arg & _ & H)|]; simplify_eq; eapply (logged_upd _ s _ i _ _ E); eauto.
  - by eapply logged_orphan.
Qed.

Lemma step_logged b l s s' : step l s = Some s' → crash s' = None → (b = true → is_lost l.2 = false) → logged b s → logged b s'.
Proof.
  intros (_ & s1 & Hp & _ & [[? ->]|[Hcr H]])%step_inv Hcr' Hl Hs; [congruence|].
  apply (happen_logged b l.2 s1); [done..|]. by apply (logged_places b s).
Qed.

Lemma crash_stays l s s' : step l s = Some s' → crash s = None.
Proof. unfold Schedule.step. by destruct (crash s). Qed.

Lemma steps_logged b ls s s' : steps ls s = Some s' → crash s' = None →
  (b = true → lossless ls = true) → logged b s → logged b s'.
Proof.
  revert s. induction ls as [|l ls IH]; intros s; cbn [Schedule.steps]; [by intros [= ->]|].
  intros (s1 & H1 & H)%bind_Some Hcr Hl Hs.
  assert (b = true → is_lost l.2 = false ∧ lossless ls = true) as Hl'.
  { intros Hb. specialize (Hl Hb). cbn in Hl. apply andb_true_iff in Hl as [Hl ?]. by destruct (is_lost l.2). }
  apply (IH s1 H Hcr); [intros Hb; by apply Hl'|]. eapply step_logged; [done| |intros Hb; by apply Hl'|done].
  destruct ls; cbn [Schedule.steps] in H; [congruence|]. apply bind_Some in H as (? & H & _). by eapply crash_stays.
Qed.

(** ** A phase from its beginning *)
Context (ws : list string) (orph : list Orphan) (wm : gmap string Worker) (p : Parallelism) (fs : Files).
Local Abbreviation init := (schedule_init mapFiles nReduce phase ws orph wm p fs).

(** No worker is executing anything, for the phase before either. *)
Definition quiet : Prop := orph = [] ∧ ∀ w wk, wm !! w = Some wk → concurrent wk = 0.

Lemma bind_replicate_idle {B} (f : Task → list B) n : f Idle = [] → replicate n Idle ≫= f = [].
Proof. intros E. induction n as [|n IH]; [done|]. rewrite replicate_S, bind_cons, E. exact IH. Qed.

Lemma init_safe : quiet → safe init.
Proof.
  intros [Ho Hq]. rewrite Ho. split; unfold schedule_init; proj; [lia| | |intros _|done].
  - intros w. proj. rewrite take_0, bind_replicate_idle; done.
  - intros w. done.
  - intros w wk Hw. proj. rewrite bind_replicate_idle by done. by apply (Hq w).
Qed.

Lemma init_logged b : (b = true → orph = []) → logged b init.
Proof.
  intros Ho. split; unfold schedule_init; proj.
  - apply length_replicate.
  - intros i t [-> _]%lookup_replicate. done.
  - intros i. destruct (_ !! i) as [t|] eqn:E; [|done]. by apply lookup_replicate in E as [-> _].
  - intros Hb. split; [by apply Ho|]. intros i. destruct (_ !! i) as [t|] eqn:E; [|done]. by apply lookup_replicate in E as [-> _].
Qed.

(** C33. In a phase that begins while no worker executes anything ([quiet]) and with workers
    of different names, whatever the interleaving and whichever calls fail, a worker is never
    sent a task while it executes another one, so no worker terminates with
    "more than one DoTask sent concurrently"; its own counter is the number of
    tasks it executes.  A worker that still executes a task whose reply was lost in the
    phase before is offered again and does terminate ([busy_worker_offered]). *)
Theorem worker_runs_one_task ls s :
  quiet → steps ls init = Some s → NoDup (workers s) →
  crash s ≠ Some WorkerFatal
  ∧ (∀ w, cnt w (tasks s ≫= runner) + cnt w (o_worker <$> orphans s) ≤ 1)%nat
  ∧ (crash s = None → concurrent_exact s).
Proof.
  intros Hq H Hnd. destruct (steps_safe ls _ _ H Hnd (init_safe Hq)) as [Hf Hc Ho Hx Hk].
  split_and!; [done| |done]. intros w. by apply running_le.
Qed.

Lemma returned_served s i : schedule_returns s → length (tasks s) = ntasks mapFiles nReduce phase →
  (i < ntasks mapFiles nReduce phase)%nat → ∃ t, tasks s !! i = Some t ∧ wg_done t = true.
Proof.
  intros [_ Hr] Hl Hi. destruct (lookup_lt_is_Some_2 (tasks s) i) as [t Et]; [lia|]. exists t. split; [done|].
  rewrite forallb_forall in Hr. apply Hr. apply list_elem_of_In. by eapply list_elem_of_lookup_2.
Qed.

Lemma wg_done_served t : wg_done t = true → was_served t = true ∧ t ≠ Idle.
Proof. by destruct t. Qed.

(** When [schedule] returns, every task has been executed. *)
Lemma returned_executed ls s : steps ls init = Some s → schedule_returns s →
  (∀ i, (i < ntasks mapFiles nReduce phase)%nat → i ∈ executed s)
  ∧ (lossless ls = true → orph = [] → orphans s = [] ∧ executed s ≡ₚ seq 0 (ntasks mapFiles nReduce phase)).
Proof.
  intros H Hret. pose proof (steps_logged false ls _ _ H (proj1 Hret) ltac:(done) (init_logged false ltac:(done))) as [H2 H3 H4 _].
  split.
  - intros i Hi. destruct (returned_served s i Hret H2 Hi) as (t & Et & Ht). apply wg_done_served in Ht as [Ht _].
    specialize (H4 i). rewrite Et in H4. cbn [served_of] in H4. rewrite Ht in H4. apply cnt_elem. lia.
  - intros Hl Ho. pose proof (steps_logged true ls _ _ H (proj1 Hret) (λ _, Hl) (init_logged true (λ _, Ho))) as [_ _ _ H5].
    destruct (H5 eq_refl) as [Horph Hc]. split; [done|]. apply cnt_Permutation. intros i. rewrite Hc.
    destruct (decide (i < ntasks mapFiles nReduce phase)%nat) as [Hi|Hi].
    + destruct (returned_served s i Hret H2 Hi) as (t & Et & Ht). apply wg_done_served in Ht as [Ht _].
      rewrite Et. cbn [served_of]. rewrite Ht.
      pose proof (cnt_NoDup i _ (NoDup_seq 0 (ntasks mapFiles nReduce phase))).
      assert (0 < cnt i (seq 0 (ntasks mapFiles nReduce phase)))%nat by (apply cnt_elem, elem_of_seq; lia). lia.
    + rewrite lookup_ge_None_2 by lia. cbn [served_of].
      destruct (cnt i (seq 0 (ntasks mapFiles nReduce phase))) eqn:E; [done|].
      assert (i ∈ seq 0 (ntasks mapFiles nReduce phase)) as Hin by (apply cnt_elem; lia).
      apply elem_of_seq in Hin. lia.
Qed.

(** A phase with more tasks than input files never returns: the goroutine
    of task [len(mapFiles)] indexes the input files also in the reduce phase. *)
Theorem too_many_reduce_tasks ls s :
  (length mapFiles < ntasks mapFiles nReduce phase)%nat → steps ls init = Some s → ~ schedule_returns s.
Proof.
  intros Hlt H Hret. pose proof (steps_logged false ls _ _ H (proj1 Hret) ltac:(done) (init_logged false ltac:(done))) as [H2 H3 _ _].
  destruct (returned_served s (length mapFiles) Hret H2 Hlt) as (t & Et & Ht). apply wg_done_served in Ht as [_ Ht].
  destruct (H3 _ t Et Ht) as [f Hf]. apply lookup_lt_Some in Hf. lia.
Qed.

(** ** Termination *)

(** How far the goroutine of a task is from its end. *)
Definition task_weight (t : Task) : nat :=
  match t with Idle => 6 | Wait => 5 | Sent _ => 4 | Running _ _ => 3 | Served _ => 2 | Offer _ => 1 | Fin => 0 end.

Definition tasks_weight (ts : list Task) : nat := sum_list_with task_weight ts.

(** The steps left: of the tasks, of the executions whose call failed, of the
    registrations; losing a worker costs less than the worker is worth. *)
Definition weight s : nat :=
  tasks_weight (tasks s) + length (orphans s) + (length (workers s) - fwd s)
  + 5 * (length (workers s) - length (dropped s)).

Definition is_register (l : label) : bool := match l.2 with LRegister _ _ _ => true | _ => false end.

Lemma tasks_weight_insert ts i t t' : ts !! i = Some t →
  (tasks_weight (<[i := t']> ts) + task_weight t = tasks_weight ts + task_weight t')%nat.
Proof.
  apply sum_list_with_insert.
Qed.

Lemma counted_perm s : workers_counted s →
  take (fwd s) (workers s) ≡ₚ pool s ++ (tasks s ≫= holder) ++ dropped s.
Proof. intros Hc. apply cnt_Permutation. intros w. rewrite !cnt_app, Hc. lia. Qed.

(** A worker held by a task has not been dropped. *)
Lemma held_not_dropped s i t w : safe s → tasks s !! i = Some t → w ∈ holder t →
  (length (dropped s) < length (workers s))%nat.
Proof.
  intros [Hf Hc _ _ _] E Hw. pose proof (Permutation_length (counted_perm s Hc)) as Hl.
  rewrite length_take, !length_app in Hl.
  assert (w ∈ tasks s ≫= holder) as Hin. { apply list_elem_of_bind. exists t. split; [done|]. by eapply list_elem_of_lookup_2. }
  destruct (tasks s ≫= holder); [by apply not_elem_of_nil in Hin|]. cbn [length] in Hl. lia.
Qed.

Lemma places_weight s s' : same_places s s' → weight s' = weight s.
Proof.
  intros [A1 A2 A3 At Ao _ _ A8 _]. unfold weight, tasks_weight. rewrite A1, A2, A8.
  assert (length (orphans s') = length (orphans s)) as -> by (apply (f_equal length) in Ao; by rewrite !length_fmap in Ao).
  assert (∀ ts, sum_list_with task_weight (whereabouts <$> ts) = sum_list_with task_weight ts) as Hw.
  { intros ts. induction ts as [|x ts IH]; [done|]. cbn. rewrite IH. by destruct x. }
  by rewrite <- (Hw (tasks s')), At, Hw.
Qed.

(** Every event but a registration brings the phase closer to its end, unless
    it ends it with a panic. *)
Lemma happen_weight l s s' : happen jobName mapFiles nReduce phase l s = Some s' → is_register ([], l) = false → safe s →
  (weight s' < weight s)%nat ∨ crash s' ≠ None.
Proof.
  intros H Hl Hs. destruct l as [w n pp| |i|i k|i j|i|i|i|i|i|k]; [done|..]; cbn [happen] in H.
  - unfold forwardRegistrations in H. apply bind_Some in H as (w & E & [= <-]).
    apply lookup_lt_Some in E. left. unfold weight. proj. lia.
  - unfold start_task in H. apply bind_Some in H as (t & E & H). destruct t; try done.
    destruct (task_args jobName mapFiles nReduce phase i); simplify_eq; [left|by right].
    unfold weight. proj. pose proof (tasks_weight_insert _ i _ Wait E) as Hw. cbn [task_weight] in Hw. lia.
  - unfold recv_pool in H. apply bind_Some in H as (t & E & H). apply bind_Some in H as (w & _ & H).
    destruct t; simplify_eq. left. unfold weight. proj.
    pose proof (tasks_weight_insert _ i _ (Sent w) E) as Hw. cbn [task_weight] in Hw. lia.
  - unfold recv_offer in H. apply bind_Some in H as (t & E & H). apply bind_Some in H as (t' & Ej & H).
    destruct t, t'; simplify_eq. assert (i ≠ j) as Hij by congruence.
    assert (<[j := Fin]> (tasks s) !! i = Some Wait) as E' by (by rewrite list_lookup_insert_ne).
    left. unfold weight. proj. pose proof (tasks_weight_insert _ i _ (Sent w) E') as H1.
    pose proof (tasks_weight_insert _ j _ Fin Ej) as H2. cbn [task_weight] in H1, H2. lia.
  - unfold begin_task in H. apply bind_Some in H as (t & E & H). destruct t; try done.
    apply bind_Some in H as (? & _ & H). apply bind_Some in H as (? & _ & H). apply bind_Some in H as (arg & _ & H).
    repeat case_match; simplify_eq; [left|by right].
    unfold weight. proj. pose proof (tasks_weight_insert _ i _ (Running w (DoTask_start arg)) E) as Hw. cbn [task_weight] in Hw. lia.
  - apply end_spec in H as (w & e & E & _ & H). apply finish_spec in H as (E1 & E2 & _ & E3 & E4 & E5 & _).
    left. unfold weight. rewrite E1, E2, E3, E4, E5.
    pose proof (tasks_weight_insert _ i _ (Served w) E) as Hw. cbn [task_weight] in Hw. lia.
  - unfold reply_ok in H. apply bind_Some in H as (t & E & H). destruct t; simplify_eq. left. unfold weight. proj.
    pose proof (tasks_weight_insert _ i _ (Offer w) E) as Hw. cbn [task_weight] in Hw. lia.
  - unfold call_refused in H. apply bind_Some in H as (t & E & H). destruct t; simplify_eq. left.
    pose proof (held_not_dropped s i _ w Hs E ltac:(left)). unfold weight. proj. rewrite !length_app. cbn [length app].
    pose proof (tasks_weight_insert _ i _ Wait E) as Hw. cbn [task_weight] in Hw. lia.
  - unfold call_lost in H. apply bind_Some in H as (t & E & H). destruct t; try done; [apply bind_Some in H as (arg & _ & H)|]; simplify_eq; left;
      pose proof (held_not_dropped s i _ w Hs E ltac:(left)); unfold weight; proj; rewrite !length_app; cbn [length app];
      pose proof (tasks_weight_insert _ i _ Wait E) as Hw; cbn [task_weight] in Hw; lia.
  - apply orphan_end_spec in H as (o & E & _ & H). apply finish_spec in H as (E1 & E2 & _ & E3 & E4 & E5 & _).
    left. unfold weight. rewrite E1, E2, E3, E4, E5. pose proof (lookup_lt_Some _ _ _ E).
    rewrite length_delete by done. lia.
Qed.

Lemma step_weight l s s' : step l s = Some s' → is_register l = false → safe s →
  (weight s' < weight s)%nat ∨ crash s' ≠ None.
Proof.
  intros (_ & s1 & Hp & _ & [[? ->]|[Hcr H]])%step_inv Hl Hs; [right; congruence|]. rewrite <- (places_weight s s1 Hp).
  apply (happen_weight l.2); [done|done|]. by apply (safe_places s).
Qed.

Lemma steps_bounded ls s s' : steps ls s = Some s' → forallb (negb ∘ is_register) ls = true →
  NoDup (workers s') → safe s → (length ls ≤ S (weight s))%nat.
Proof.
  revert s. induction ls as [|l ls IH]; intros s; cbn [Schedule.steps]; [simpl; lia|].
  intros (s1 & H1 & H)%bind_Some Hl Hnd Hs. cbn in Hl. apply andb_true_iff in Hl as [Hl Hls].
  apply negb_true_iff in Hl.
  assert (safe s1) as Hs1.
  { eapply step_safe; [done| |done]. eapply NoDup_prefix; [by eapply steps_workers|done]. }
  destruct (step_weight l s s1 H1 Hl Hs) as [Hw|Hc].
  - specialize (IH s1 H Hls Hnd Hs1). cbn [length]. lia.
  - destruct ls as [|l' ls]; [cbn [length]; lia|]. cbn [Schedule.steps] in H.
    apply bind_Some in H as (s2 & H2 & _). unfold Schedule.step in H2. by destruct (crash s1).
Qed.

(** A phase that cannot go on has crashed, returned, or lost every worker. *)
Lemma stuck_state s : crash s = None → safe s → (∀ i t, tasks s !! i = Some t → t ≠ Idle → is_Some (mapFiles !! i)) →
  (∀ l, is_register l = false → step l s = None) →
  schedule_returns s ∨ workers s ≡ₚ dropped s.
Proof.
  intros Hcr Hs Ha Hstuck.
  assert (∀ ev, is_register ([], ev) = false → happen jobName mapFiles nReduce phase ev s = None) as Hst.
  { intros ev Hev. specialize (Hstuck ([], ev) Hev). unfold Schedule.step in Hstuck. rewrite Hcr in Hstuck. cbn [fst snd works mbind option_bind] in Hstuck.
    by rewrite Hcr in Hstuck. }
  assert (∀ i t, tasks s !! i = Some t → t = Wait ∨ wg_done t = true) as Ht.
  { intros i t E. destruct t; try (by right); [exfalso|by left|exfalso..].
    - specialize (Hst (LStart i) eq_refl). unfold happen, start_task in Hst. rewrite E in Hst.
      cbn [mbind option_bind] in Hst. by destruct (task_args jobName mapFiles nReduce phase i).
    - specialize (Hst (LRefused i) eq_refl). unfold happen, call_refused in Hst. by rewrite E in Hst.
    - specialize (Hst (LLost i) eq_refl). unfold happen, call_lost in Hst. rewrite E in Hst.
      destruct (Ha i _ E ltac:(done)) as [f Hf]. cbn [mbind option_bind] in Hst. unfold task_args in Hst. by rewrite Hf in Hst.
    - specialize (Hst (LOk i) eq_refl). unfold happen, reply_ok in Hst. by rewrite E in Hst. }
  destruct (decide (Wait ∈ tasks s)) as [Hw|Hw]; [right|left].
  - apply list_elem_of_lookup in Hw as [i Hi].
    assert (pool s = []) as Hp.
    { destruct (pool s) as [|w l] eqn:Ep; [done|]. specialize (Hst (LRecvPool i 0) eq_refl).
      unfold happen, recv_pool in Hst. by rewrite Hi, Ep in Hst. }
    assert (tasks s ≫= holder = []) as Hh.
    { destruct (tasks s ≫= holder) as [|w l] eqn:Eh; [done|]. exfalso.
      assert (w ∈ tasks s ≫= holder) as Hin by (rewrite Eh; left).
      apply list_elem_of_bind in Hin as (t & Hwt & [j Hj]%list_elem_of_lookup).
      specialize (Hst (LRecvOffer i j) eq_refl). unfold happen, recv_offer in Hst.
      rewrite Hi, Hj in Hst. destruct (Ht j t Hj) as [->|Hd]; [by apply not_elem_of_nil in Hwt|].
      destruct t; try done. by apply not_elem_of_nil in Hwt. }
    destruct Hs as [Hf Hc _ _ _]. pose proof (counted_perm s Hc) as Hperm. rewrite Hp, Hh in Hperm.
    assert (fwd s = length (workers s)) as Hfw.
    { destruct (workers s !! fwd s) as [w|] eqn:E; [|apply lookup_ge_None_1 in E; lia].
      specialize (Hst LForward eq_refl). unfold happen, forwardRegistrations in Hst. by rewrite E in Hst. }
    by rewrite Hfw, firstn_all in Hperm.
  - split; [done|]. apply forallb_forall. intros t [i Hi]%list_elem_of_In%list_elem_of_lookup.
    destruct (Ht i t Hi) as [->|]; [|done]. destruct Hw. by eapply list_elem_of_lookup_2.
Qed.

(** ** The actions of the executions end *)

(** Before its writes an execution has this many actions left, then one per record. *)
Definition reads_left (n : nat) (e : Exec) : nat := match e with XRead => 1 | XGather m _ => S (n - m) | _ => 0 end.
Definition writes_left (e : Exec) : nat := match e with XAppend res => length res | XWrite _ out => length out | _ => 0 end.

Definition all_left (f : nat → Exec → nat) s : nat :=
  sum_list_with (λ t, match t with Running _ e => f (n_other mapFiles nReduce phase) e | _ => 0%nat end) (tasks s)
  + sum_list_with (λ o, f (NumOtherPhase (o_arg o)) (o_exec o)) (orphans s).

Lemma action_left arg e fs0 e' fs1 : DoTask_action can_open mapF reduceF arg e fs0 = Some (e', fs1) →
  (reads_left (NumOtherPhase arg) e' < reads_left (NumOtherPhase arg) e)%nat
  ∨ (reads_left (NumOtherPhase arg) e' = reads_left (NumOtherPhase arg) e ∧ (writes_left e' < writes_left e)%nat).
Proof.
  unfold DoTask_action. destruct (Phase arg).
  - destruct e as [|[|kv res]|m g|off out]; cbn [doMap_action].
    + intros [= <- <-]. left. cbn. lia.
    + by destruct (NumOtherPhase arg).
    + destruct (NumOtherPhase arg); [done|]. intros [= <- <-]. right. cbn. lia.
    + by destruct (NumOtherPhase arg).
    + by destruct (NumOtherPhase arg).
  - destruct e as [|res|m g|off [|x out]]; cbn [doReduce_action]; try done.
    + case_decide; [intros [= <- <-]; left; cbn; lia|]. destruct (can_open _); intros [= <- <-]; left; cbn; lia.
    + intros [= <- <-]. right. cbn. lia.
Qed.

Lemma work_left a s s' : work can_open mapF reduceF jobName mapFiles nReduce phase a s = Some s' → crash s' = None →
  (all_left reads_left s' < all_left reads_left s)%nat
  ∨ (all_left reads_left s' = all_left reads_left s ∧ (all_left (λ _, writes_left) s' < all_left (λ _, writes_left) s)%nat).
Proof.
  destruct a as [i|k]; cbn [work].
  - intros (t & E & H)%bind_Some Hcr. destruct t as [| | |w e| | |]; try done. apply bind_Some in H as (arg & Ea & H).
    destruct (ended e); [done|]. injection H as <-. destruct (DoTask_action _ _ _ arg e (files s)) as [[e' fs']|] eqn:Ex; [|done].
    apply action_left in Ex. assert (NumOtherPhase arg = n_other mapFiles nReduce phase) as En.
    { unfold task_args in Ea. by apply bind_Some in Ea as (f & _ & [= <-]). }
    rewrite En in Ex. unfold all_left. proj.
    pose proof (λ f : nat → Exec → nat, sum_list_with_insert
      (λ t, match t with Running _ e => f (n_other mapFiles nReduce phase) e | _ => 0%nat end) (tasks s) i _ (Running w e') E) as Hs.
    pose proof (Hs reads_left) as H1. pose proof (Hs (λ _, writes_left)) as H2. cbn beta iota in H1, H2. lia.
  - intros (r & H & [= <-])%bind_Some Hcr. unfold orphan_action in H. apply bind_Some in H as (o & Eo & H). destruct (ended (o_exec o)); [done|].
    injection H as <-. destruct (DoTask_action _ _ _ (o_arg o) (o_exec o) (files s)) as [[e' fs']|] eqn:Ex; [|done].
    apply action_left in Ex. unfold all_left. cbn [mbind option_bind]. proj.
    pose proof (λ f : nat → Exec → nat, sum_list_with_insert (λ o, f (NumOtherPhase (o_arg o)) (o_exec o)) (orphans s) k _
      (mkOrphan (o_worker o) (o_arg o) e') Eo) as Hs.
    pose proof (Hs reads_left) as H1. pose proof (Hs (λ _, writes_left)) as H2. cbn beta iota in H1, H2. proj. cbn [o_arg o_exec] in H1, H2. lia.
Qed.

(** Between two events only finitely many actions are possible. *)
Definition acts_on s' s : Prop := crash s = None ∧ ∃ a, work can_open mapF reduceF jobName mapFiles nReduce phase a s = Some s'.

Lemma actions_end s : Acc acts_on s.
Proof.
  remember (all_left reads_left s) as n eqn:En. revert s En. induction (lt_wf n) as [n _ IH1]. intros s En.
  remember (all_left (λ _, writes_left) s) as m eqn:Em. revert s En Em. induction (lt_wf m) as [m _ IH2]. intros s En Em.
  constructor. intros s' [_ [a H]]. destruct (crash s') eqn:Hc.
  { constructor. intros s2 [Hcr _]. congruence. }
  destruct (work_left a s s' H Hc) as [Hlt|[Heq Hlt]].
  - by apply (IH1 (all_left reads_left s')); [lia|].
  - apply (IH2 (all_left (λ _, writes_left) s')); [lia|lia|done].
Qed.

Lemma steps_app ls ls' s s1 s2 : steps ls s = Some s1 → steps ls' s1 = Some s2 → steps (ls ++ ls') s = Some s2.
Proof.
  revert s. induction ls as [|l ls IH]; intros s; cbn [Schedule.steps app]; [by intros [= ->]|].
  intros (s0 & -> & H)%bind_Some H'. cbn [mbind option_bind]. by apply IH.
Qed.

(** C7. A phase that begins while no worker executes anything (quiet), with workers of
    different names, terminates: from any state it reaches, only finitely many steps (a
    bound that is computed from the state) are possible until another worker registers,
    whatever the interleaving and the failures, each of them after finitely many actions of
    the executions ([acts_on]); and when no step is possible, [schedule] has returned, or
    crashed, or the call to every worker that ever registered has failed. *)
Theorem schedule_terminates ls s ls' s' :
  quiet → steps ls init = Some s → steps ls' s = Some s' → NoDup (workers s') →
  forallb (negb ∘ is_register) ls' = true →
  (length ls' ≤ S (weight s))%nat ∧ Acc acts_on s'
  ∧ ((∀ l, is_register l = false → step l s' = None) →
     crash s' ≠ None ∨ schedule_returns s' ∨ workers s' ≡ₚ dropped s').
Proof.
  intros Hq H H' Hnd Hl.
  assert (safe s) as Hs.
  { eapply steps_safe; [done| |by apply init_safe]. eapply NoDup_prefix; [by eapply steps_workers|done]. }
  split_and!; [by eapply steps_bounded|apply actions_end|]. intros Hst. destruct (crash s') eqn:Hcr; [by left|right].
  apply stuck_state; [done|by eapply steps_safe| |done].
  apply (steps_logged false (ls ++ ls') init s'); [by eapply steps_app|done|done|by apply init_logged].
Qed.
End inv.
