(* ===== verification/PhaseFiles.v ===== *)
(** PhaseFiles: what a phase leaves in the files.

    The executions of the tasks of a phase act on the files in any order
    (Schedule.v).  Two tasks write different files, and no task reads what another one of
    its phase writes; so a phase in which no reply is lost leaves exactly the files of the
    sequential phase (MapReduce.v).  With a lost reply that is not so: the examples at the
    end. *)
From Stdlib Require Import ZArith Lia.
From stdpp Require Import gmap strings list.
From S2P Require Import Prelude.
From S2P Require Import GoStd.
From S2P Require Import MapReduce.
From S2P Require Import MapReduceProps.
From S2P Require Import Schedule.
From S2P Require Import ScheduleProps.
Open Scope Z_scope.

Section files.
Context {J : Json} {RO : RangeOrder}.
Context (can_open : string → bool) (mapF : string → string → list KeyValue) (reduceF : string → list string → string).
Context (jobName : string) (mapFiles : list string) (nReduce : nat).
Context (Hopen : ∀ n, can_open n = true) (HnR : (0 < nReduce)%nat).
Implicit Types (s : Sched).

(** How a goroutine moves by an event, unless its reply is lost. *)
Definition moves (phase : jobPhase) (i : nat) (t t' : Task) : Prop :=
  match t, t' with
  | Idle, Wait | Wait, Sent _ | Sent _, Wait | Served _, Offer _ | Offer _, Fin => True
  | Sent _, Running _ e => ∃ arg, task_args jobName mapFiles nReduce phase i = Some arg ∧ e = DoTask_start arg
  | Running _ e, Served _ => ended e = true
  | _, _ => False
  end.

Record quiet_event (phase : jobPhase) s s' : Prop := {
  qe_files : files s' = files s;
  qe_orphans : orphans s' = [];
  qe_len : length (tasks s') = length (tasks s);
  qe_tasks : ∀ i t', tasks s' !! i = Some t' → ∃ t, tasks s !! i = Some t ∧ (t' = t ∨ moves phase i t t')
}.

Lemma quiet_upd phase s s' i t t' : tasks s !! i = Some t → moves phase i t t' → tasks s' = <[i := t']> (tasks s) →
  files s' = files s → orphans s' = [] → quiet_event phase s s'.
Proof.
  intros E Hm Et Ef Eo. split; [done|done|by rewrite Et, length_insert|]. intros j u. rewrite Et. intros [(<- & -> & _)|[_ Hj]]%list_lookup_insert_Some; [by exists t; auto|].
  exists u. auto.
Qed.

Lemma quiet_same phase s s' : tasks s' = tasks s → files s' = files s → orphans s' = [] → quiet_event phase s s'.
Proof. intros Et Ef Eo. split; [done|done|by rewrite Et|]. intros i t. rewrite Et. exists t. auto. Qed.

Lemma happen_quiet phase l s s' : happen jobName mapFiles nReduce phase l s = Some s' → is_lost l = false → orphans s = [] →
  quiet_event phase s s'.
Proof.
  intros H Hl Ho. destruct l as [w n p| |i|i k|i j|i|i|i|i|i|k]; cbn [happen] in H; try done.
  - injection H as <-. by apply quiet_same.
  - unfold forwardRegistrations in H. apply bind_Some in H as (? & _ & [= <-]). by apply quiet_same.
  - unfold start_task in H. apply bind_Some in H as (t & E & H). destruct t; try done.
    destruct (task_args jobName mapFiles nReduce phase i); simplify_eq; [by apply (quiet_upd _ s _ i _ Wait E)|by apply quiet_same].
  - unfold recv_pool in H. apply bind_Some in H as (t & E & H). apply bind_Some in H as (w & _ & H). destruct t; simplify_eq.
    by apply (quiet_upd _ s _ i _ (Sent w) E).
  - unfold recv_offer in H. apply bind_Some in H as (t & E & H). apply bind_Some in H as (t' & Ej & H).
    destruct t, t'; simplify_eq. split; [done|done|by cbn; rewrite !length_insert|]. intros a u. cbn.
    intros [(<- & <- & _)|[_ [(<- & <- & _)|[_ Ha]]%list_lookup_insert_Some]]%list_lookup_insert_Some;
      [exists Wait; split; [done|by right]|exists (Offer w); split; [done|by right]|exists u; split; [done|by left]].
  - unfold begin_task in H. apply bind_Some in H as (t & E & H). destruct t; try done.
    apply bind_Some in H as (? & _ & H). apply bind_Some in H as (? & _ & H). apply bind_Some in H as (arg & Ea & H).
    repeat case_match; simplify_eq; [|by apply quiet_same]. apply (quiet_upd _ s _ i _ (Running w (DoTask_start arg)) E); [by exists arg|done|done|done].
  - apply end_spec in H as (w & e & E & Ee & H). apply finish_spec in H as (_ & _ & _ & Et & Eo & _ & _ & _ & Ef & _).
    apply (quiet_upd _ s s' i _ (Served w) E); [exact Ee|exact Et|done|by rewrite Eo].
  - unfold reply_ok in H. apply bind_Some in H as (t & E & H). destruct t; simplify_eq. by apply (quiet_upd _ s _ i _ (Offer w) E).
  - unfold call_refused in H. apply bind_Some in H as (t & E & H). destruct t; simplify_eq. by apply (quiet_upd _ s _ i _ Wait E).
  - apply orphan_end_spec in H as (o & E & _). by rewrite Ho in E.
Qed.

(** One action of a task, when there are no orphans. *)
Lemma work_quiet phase a s s' : work can_open mapF reduceF jobName mapFiles nReduce phase a s = Some s' → crash s' = None → orphans s = [] →
  ∃ i w e arg e', tasks s !! i = Some (Running w e) ∧ task_args jobName mapFiles nReduce phase i = Some arg
    ∧ DoTask_action can_open mapF reduceF arg e (files s) = Some (e', files s')
    ∧ tasks s' = <[i := Running w e']> (tasks s) ∧ orphans s' = [].
Proof.
  destruct a as [i|k]; cbn [work].
  - intros (t & E & H)%bind_Some Hcr Ho. destruct t as [| | |w e| | |]; try done. apply bind_Some in H as (arg & Ea & H).
    destruct (ended e); [done|]. injection H as <-. destruct (DoTask_action _ _ _ arg e (files s)) as [[e' fs']|] eqn:Ex; [|done].
    by exists i, w, e, arg, e'.
  - intros (r & H & _)%bind_Some _ Ho. unfold orphan_action in H. by rewrite Ho in H.
Qed.

(** An invariant that the events and the actions keep holds at the end. *)
Lemma phase_invariant phase (P : Sched → Prop) ls s s' :
  (∀ s1 s2, P s1 → orphans s1 = [] → quiet_event phase s1 s2 → P s2) →
  (∀ s1 s2 i w e arg e', P s1 → orphans s1 = [] → tasks s1 !! i = Some (Running w e) → task_args jobName mapFiles nReduce phase i = Some arg →
     DoTask_action can_open mapF reduceF arg e (files s1) = Some (e', files s2) → tasks s2 = <[i := Running w e']> (tasks s1) → P s2) →
  steps can_open mapF reduceF jobName mapFiles nReduce phase ls s = Some s' → crash s' = None → lossless ls = true → orphans s = [] →
  P s → P s'.
Proof.
  intros Hev Hact. assert (∀ acts s s', works can_open mapF reduceF jobName mapFiles nReduce phase acts s = Some s' → crash s' = None →
    orphans s = [] → P s → P s' ∧ orphans s' = []) as Hworks.
  { intros acts. induction acts as [|a acts IH]; intros s1 s2; cbn [works]; [by intros [= <-]|]. destruct (crash s1); [done|].
    intros (s3 & H1 & H2)%bind_Some Hcr Ho HP. assert (crash s3 = None) as Hc3.
    { destruct acts; cbn [works] in H2; [congruence|]. by destruct (crash s3). }
    destruct (work_quiet phase a s1 s3 H1 Hc3 Ho) as (i & w & e & arg & e' & E1 & E2 & E3 & E4 & E5). apply (IH s3 s2 H2 Hcr E5). by eapply Hact. }
  revert s. induction ls as [|l ls IH]; intros s; cbn [steps]; [by intros [= ->]|].
  intros (s1 & H1 & H2)%bind_Some Hcr Hl Ho HP. cbn in Hl. apply andb_true_iff in Hl as [Hl Hls]. apply negb_true_iff in Hl.
  assert (crash s1 = None) as Hc1.
  { destruct ls; cbn [steps] in H2; [congruence|]. apply bind_Some in H2 as (? & H & _). by eapply crash_stays. }
  apply step_inv in H1 as (_ & s2 & _ & Hw & [[? ->]|[Hc2 H]]); [congruence|].
  destruct (Hworks l.1 s s2 Hw Hc2 Ho HP) as [HP2 Ho2]. pose proof (happen_quiet phase l.2 s2 s1 H Hl Ho2) as Hq.
  apply (IH s1 H2 Hcr Hls); [apply Hq|by apply (Hev s2)].
Qed.

(** ** The map phase *)
Section map.
Context (fs : Files) (Hapart : inputs_apart jobName mapFiles).

(** All pairs of task [i]. *)
Definition task_pairs (i : nat) : list KeyValue := match mapFiles !! i with Some f => mapF f (default "" (fs !! f)) | None => [] end.

(** [done] has been appended. *)
Definition mapped (i : nat) (t : Task) (done : list KeyValue) : Prop :=
  match t with
  | Idle | Wait | Sent _ | Running _ XRead => done = []
  | Running _ (XAppend rest) => done ++ rest = task_pairs i
  | Running _ _ => False
  | Served _ | Offer _ | Fin => done = task_pairs i
  end.

Record map_files s : Prop := {
  mf_task : ∀ i t, tasks s !! i = Some t → ∃ done, mapped i t done
    ∧ ∀ r, files s !! reduceName jobName i r = appended (fs !! reduceName jobName i r) (in_bucket nReduce r done);
  mf_rest : ∀ fn, (∀ i t r, tasks s !! i = Some t → (r < nReduce)%nat → fn ≠ reduceName jobName i r) → files s !! fn = fs !! fn
}.

Lemma mapped_moves i t t' done : moves mapPhase i t t' → mapped i t done → mapped i t' done.
Proof.
  destruct t as [| |w|w e|w|w|], t' as [| |w'|w' e'|w'|w'|]; cbn; try done.
  - intros (arg & Ea & ->). unfold task_args in Ea. apply bind_Some in Ea as (f & _ & [= <-]). done.
  - destruct e as [|[|]|m g|off [|]]; cbn; try done. by rewrite app_nil_r.
Qed.

Lemma map_files_event s1 s2 : map_files s1 → quiet_event mapPhase s1 s2 → map_files s2.
Proof.
  intros [H1 H2] [Ef _ Hlen Ht]. split; rewrite ?Ef.
  - intros i t' E. destruct (Ht i t' E) as (t & Et & Hm). destruct (H1 i t Et) as (done & Hd & Hr). exists done. split; [|done].
    destruct Hm as [->|Hm]; [done|by eapply mapped_moves].
  - intros fn Hfn. apply H2. intros i t r Et Hr. destruct (lookup_lt_is_Some_2 (tasks s2) i) as [t' Et'].
    { rewrite Hlen. by eapply lookup_lt_Some. }
    by apply (Hfn i t').
Qed.

Lemma appended_snoc old kvs kv : appended (appended old kvs) [kv] = appended old (kvs ++ [kv]).
Proof.
  destruct kvs as [|x kvs]; [done|]. cbn [appended app default from_option Datatypes.id]. rewrite <- append_assoc', <- enc_app. done.
Qed.

(** What an action of a map task changes. *)
Lemma map_action_lookup i f e e' fs1 fs2 : mapFiles !! i = Some f → (fs1 !! f = fs !! f) →
  doMap_action can_open jobName i f nReduce mapF e fs1 = Some (e', fs2) →
  (e = XRead ∧ e' = XAppend (task_pairs i) ∧ fs2 = fs1)
  ∨ (∃ kv rest, e = XAppend (kv :: rest) ∧ e' = XAppend rest ∧ fs2 = append_pair can_open jobName i nReduce fs1 kv).
Proof.
  intros Hf Hin. unfold task_pairs. rewrite Hf, <- Hin. destruct e as [|[|kv rest]|m g|off out]; cbn [doMap_action]; destruct nReduce; try done;
    intros [= <- <-]; [by left|by left|right; by exists kv, rest].
Qed.

Lemma append_pair_lookup i kv fs1 fn : append_pair can_open jobName i nReduce fs1 kv !! fn
  = if decide (fn = reduceName jobName i (bucket nReduce kv)) then Some (default "" (fs1 !! fn) +:+ json_encode kv) else fs1 !! fn.
Proof. unfold append_pair. rewrite Hopen. case_decide; [subst; by rewrite lookup_insert_eq|by rewrite lookup_insert_ne]. Qed.

Lemma map_files_action s1 s2 i w e arg e' : map_files s1 → tasks s1 !! i = Some (Running w e) →
  task_args jobName mapFiles nReduce mapPhase i = Some arg →
  DoTask_action can_open mapF reduceF arg e (files s1) = Some (e', files s2) → tasks s2 = <[i := Running w e']> (tasks s1) → map_files s2.
Proof.
  intros [H1 H2] E Ea Hx Et. unfold task_args in Ea. apply bind_Some in Ea as (f & Hf & [= <-]). cbn in Hx.
  assert (files s1 !! f = fs !! f) as Hin.
  { apply H2. intros j t r _ _. apply Hapart. by eapply list_elem_of_lookup_2. }
  assert (∀ fn, (∀ j t r, tasks s2 !! j = Some t → (r < nReduce)%nat → fn ≠ reduceName jobName j r) →
    ∀ j t r, tasks s1 !! j = Some t → (r < nReduce)%nat → fn ≠ reduceName jobName j r) as Hsame.
  { intros fn Hfn j t r Hj Hr. destruct (decide (j = i)) as [->|Hne].
    - apply (Hfn i (Running w e')); [|done]. rewrite Et, list_lookup_insert_eq; [done|by eapply lookup_lt_Some].
    - apply (Hfn j t); [|done]. by rewrite Et, list_lookup_insert_ne. }
  destruct (map_action_lookup i f e e' _ _ Hf Hin Hx) as [(-> & -> & Ef)|(kv & rest & -> & -> & Ef)].
  - split; rewrite Ef; [|intros fn Hfn; by apply H2, Hsame]. intros j t. rewrite Et.
    intros [(<- & <- & _)|[_ Hj]]%list_lookup_insert_Some; [|by apply H1]. destruct (H1 i _ E) as (done & -> & Hr). by exists [].
  - split.
    + intros j t. rewrite Et. intros [(<- & <- & _)|[Hne Hj]]%list_lookup_insert_Some.
      * destruct (H1 i _ E) as (done & Hd & Hr). cbn in Hd. exists (done ++ [kv]). split; [cbn; by rewrite <- app_assoc|]. intros r.
        rewrite Ef, append_pair_lookup, Hr. unfold in_bucket. rewrite filter_app, filter_cons, filter_nil. case_decide as Hb.
        -- apply reduceName_inj in Hb as [_ <-]. rewrite decide_True by done. rewrite <- appended_snoc.
           unfold enc. cbn [appended foldr fmap list_fmap]. unfold enc. cbn. by rewrite append_nil_r.
        -- rewrite decide_False by (intros Hk; by subst r). by rewrite app_nil_r.
      * destruct (H1 j t Hj) as (done & Hd & Hr). exists done. split; [done|]. intros r. rewrite Ef, append_pair_lookup, Hr.
        rewrite decide_False; [done|]. by intros [? _]%reduceName_inj.
    + intros fn Hfn. rewrite Ef, append_pair_lookup, decide_False; [by apply H2, Hsame|]. apply (Hsame fn Hfn i _ _ E), bucket_lt, HnR.
Qed.

Lemma map_phase_files ls s ws wm p : lossless ls = true →
  steps can_open mapF reduceF jobName mapFiles nReduce mapPhase ls (schedule_init mapFiles nReduce mapPhase ws [] wm p fs) = Some s →
  schedule_returns s → map_phase can_open mapF jobName mapFiles nReduce fs = Some (files s).
Proof.
  intros Hl H Hret. set (init := schedule_init mapFiles nReduce mapPhase ws [] wm p fs) in *.
  assert (map_files s ∧ length (tasks s) = length mapFiles) as [[M1 M2] Hlen].
  { apply (phase_invariant mapPhase (λ s, map_files s ∧ length (tasks s) = length mapFiles) ls init s); [| |done|apply Hret|done|done|].
    - intros s1 s2 [HM HL] Ho Hq. split; [by apply (map_files_event s1)|]. by rewrite (qe_len _ _ _ Hq).
    - intros s1 s2 i w e arg e' [HM HL] _ E Ea Hx Et. split; [by eapply map_files_action|]. by rewrite Et, length_insert.
    - split; [|apply length_replicate]. split; [|done]. intros i t [-> _]%lookup_replicate. by exists []. }
  assert (∀ m f, (m, f) ∈ imap pair mapFiles ↔ mapFiles !! m = Some f) as Hts.
  { intros m f. rewrite list_elem_of_lookup. setoid_rewrite list_lookup_imap. setoid_rewrite fmap_Some.
    split; [by intros (i & f' & ? & [= -> ->])|eauto]. }
  destruct (map_tasks_spec can_open mapF jobName nReduce (imap pair mapFiles) fs Hopen HnR) as (fs' & E & S1 & S2).
  { rewrite fmap_imap. apply NoDup_alt. intros i j m.
    rewrite !list_lookup_imap, !fmap_Some. intros (f & _ & ->) (g & _ & E). exact E. }
  { intros f m r ([m' f'] & -> & Hf%Hts)%list_elem_of_fmap. apply Hapart. by eapply list_elem_of_lookup_2. }
  unfold map_phase. rewrite E. f_equal. apply map_eq. intros fn.
  destruct (decide (fn ∈ (i ← seq 0 (length mapFiles); reduceName jobName i <$> seq 0 nReduce))) as [Hin|Hout].
  - apply list_elem_of_bind in Hin as (i & (r & -> & _)%list_elem_of_fmap & [_ Hi]%elem_of_seq).
    destruct (returned_served mapFiles nReduce mapPhase s i Hret Hlen Hi) as (t & Et & Ht). destruct (M1 i t Et) as (done & Hd & ->).
    assert (done = task_pairs i) as -> by (by destruct t). destruct (lookup_lt_is_Some_2 mapFiles i Hi) as [f Hf].
    rewrite (S1 i f r) by (by apply Hts). unfold task_pairs. by rewrite Hf.
  - assert (∀ i r, (i < length mapFiles)%nat → (r < nReduce)%nat → fn ≠ reduceName jobName i r) as Hne.
    { intros i r Hi Hr ->. apply Hout, list_elem_of_bind. exists i. split; [|apply elem_of_seq; lia]. apply list_elem_of_fmap_2, elem_of_seq. lia. }
    rewrite M2; [apply S2|].
    + intros m r ([m' f'] & -> & Hf%Hts)%list_elem_of_fmap. apply Hne. by eapply lookup_lt_Some.
    + intros i t r Et%lookup_lt_Some. apply Hne. lia.
Qed.
End map.

(** ** The reduce phase *)
Section reduce.
Context (fs : Files).
Local Abbreviation nMap := (length mapFiles).
Local Abbreviation records i := (out_records reduceF jobName i nMap fs).

(** How far a reduce task is, with the output file [out]. *)
Definition reduced_to (i : nat) (t : Task) (out : option string) : Prop :=
  match t with
  | Idle | Wait | Sent _ => True
  | Running _ (XGather m g) => (m ≤ nMap)%nat ∧ g = gathered jobName i m fs
  | Running _ (XWrite off rest) => ∃ pre, pre ++ rest = records i ∧ off = String.length (concat_all pre) ∧ out = Some (concat_all pre)
  | Running _ _ => False
  | Served _ | Offer _ | Fin => out = Some (concat_all (records i))
  end.

Record reduce_files s : Prop := {
  rf_len : length (tasks s) = nReduce;
  rf_task : ∀ i t, tasks s !! i = Some t → reduced_to i t (files s !! mergeName jobName i);
  rf_rest : ∀ fn, (∀ i, (i < nReduce)%nat → fn ≠ mergeName jobName i) → files s !! fn = fs !! fn
}.

Lemma reduced_moves i t t' out : moves reducePhase i t t' → reduced_to i t out → reduced_to i t' out.
Proof.
  destruct t as [| |w|w e|w|w|], t' as [| |w'|w' e'|w'|w'|]; cbn; try done.
  - intros (arg & Ea & ->) _. unfold task_args in Ea. apply bind_Some in Ea as (f & _ & [= <-]). cbn. split; [lia|done].
  - destruct e as [|[|]|m g|off [|]]; cbn; try done. intros _ (pre & Hp & _ & ->). by rewrite app_nil_r in Hp; subst.
Qed.

Lemma reduce_files_event s1 s2 : reduce_files s1 → quiet_event reducePhase s1 s2 → reduce_files s2.
Proof.
  intros [H1 H2 H3] [Ef _ Hlen Ht]. split; rewrite ?Ef; [congruence| |done].
  intros i t' E. destruct (Ht i t' E) as (t & Et & Hm). specialize (H2 i t Et). destruct Hm as [->|Hm]; [done|by eapply reduced_moves].
Qed.

(** The intermediate files are as they were. *)
Lemma reduce_reads s m i : reduce_files s → read_records (files s) (reduceName jobName m i) = read_records fs (reduceName jobName m i).
Proof. intros Hs. unfold read_records. rewrite (rf_rest s Hs); [done|]. intros j _. apply reduce_merge_name. Qed.

(** An action of task [i] changes its output only, and brings it one step on. *)
Lemma reduce_action_spec s i w e e' fs2 : reduce_files s → tasks s !! i = Some (Running w e) →
  doReduce_action can_open jobName i (mergeName jobName i) nMap reduceF e (files s) = Some (e', fs2) →
  reduced_to i (Running w e') (fs2 !! mergeName jobName i) ∧ ∀ fn, fn ≠ mergeName jobName i → fs2 !! fn = files s !! fn.
Proof.
  intros Hs E. pose proof (rf_task s Hs i _ E) as Hr. destruct e as [|res|m g|off [|x rest]]; cbn [doReduce_action]; try done.
  - destruct Hr as [Hm ->]. case_decide as Hlt.
    + intros [= <- <-]. split; [|done]. split; [lia|]. by rewrite gathered_S, reduce_reads.
    + rewrite Hopen. intros [= <- <-]. split; [|intros fn Hne; by rewrite lookup_insert_ne]. cbn. exists []. rewrite lookup_insert_eq.
      split_and!; [|done|done]. by replace m with nMap by lia.
  - destruct Hr as (pre & Hp & -> & Hout). intros [= <- <-]. split; [|intros fn Hne; by rewrite lookup_insert_ne].
    exists (pre ++ [x]). rewrite lookup_insert_eq, Hout. cbn [default from_option Datatypes.id]. rewrite write_at_end, concat_all_snoc, string_length_app.
    split_and!; [by rewrite <- app_assoc|done|done].
Qed.

Lemma reduce_files_action s1 s2 i w e arg e' : reduce_files s1 → tasks s1 !! i = Some (Running w e) →
  task_args jobName mapFiles nReduce reducePhase i = Some arg →
  DoTask_action can_open mapF reduceF arg e (files s1) = Some (e', files s2) → tasks s2 = <[i := Running w e']> (tasks s1) → reduce_files s2.
Proof.
  intros Hs E Ea Hx Et. unfold task_args in Ea. apply bind_Some in Ea as (f & _ & [= <-]). cbn in Hx.
  destruct (reduce_action_spec s1 i w e e' _ Hs E Hx) as [Hi Hrest]. destruct Hs as [H1 H2 H3]. split.
  - by rewrite Et, length_insert.
  - intros j t. rewrite Et. intros [(<- & <- & _)|[Hne Hj]]%list_lookup_insert_Some; [done|].
    rewrite Hrest by (by intros ?%mergeName_inj). by apply H2.
  - intros fn Hfn. rewrite Hrest; [by apply H3|]. apply Hfn. apply lookup_lt_Some in E. lia.
Qed.

Lemma reduce_all_lookup rs fs0 : (∀ m r, read_records fs0 (reduceName jobName m r) = read_records fs (reduceName jobName m r)) →
  ∀ fn, foldl (λ fs i, doReduce can_open jobName i (mergeName jobName i) nMap reduceF fs) fs0 rs !! fn
    = if decide (fn ∈ mergeName jobName <$> rs)
      then match filter (λ i, mergeName jobName i = fn) rs with i :: _ => Some (concat_all (records i)) | [] => None end
      else fs0 !! fn.
Proof.
  revert fs0. induction rs as [|i rs IH] using rev_ind; intros fs0 Hread fn; [by rewrite decide_False by apply not_elem_of_nil|].
  rewrite foldl_snoc, fmap_app, filter_app. set (fs1 := foldl _ fs0 rs).
  assert (∀ m r, read_records fs1 (reduceName jobName m r) = read_records fs (reduceName jobName m r)) as Hread1.
  { intros m r. rewrite <- Hread. unfold read_records, fs1. rewrite IH by done. rewrite decide_False; [done|].
    intros (j & Hj & _)%list_elem_of_fmap. by apply reduce_merge_name in Hj. }
  assert (∀ m, gathered jobName i m fs1 = gathered jobName i m fs) as Hg.
  { intros m. induction m as [|m IHm]; [done|]. by rewrite !gathered_S, IHm, Hread1. }
  rewrite doReduce_records by done. unfold out_records at 1. rewrite Hg. fold (records i).
  assert (filter (λ j, mergeName jobName j = fn) [i] = if decide (mergeName jobName i = fn) then [i] else []) as ->.
  { rewrite filter_cons, filter_nil. done. }
  destruct (decide (fn = mergeName jobName i)) as [->|Hne].
  - rewrite lookup_insert_eq, decide_True by (apply elem_of_app; right; by left). rewrite (decide_True _ _ eq_refl).
    destruct (filter _ rs) as [|j l] eqn:Ef; [done|]. cbn.
    assert (j ∈ filter (λ k, mergeName jobName k = mergeName jobName i) rs) as [Hj _]%list_elem_of_filter by (rewrite Ef; by left).
    by apply mergeName_inj in Hj as ->.
  - rewrite lookup_insert_ne by done. unfold fs1. rewrite IH by done. rewrite (decide_False (P := mergeName jobName i = fn)) by congruence.
    rewrite app_nil_r. destruct (decide (fn ∈ mergeName jobName <$> rs)) as [Hin|Hout].
    + by rewrite decide_True by (apply elem_of_app; by left).
    + rewrite decide_False; [done|]. rewrite elem_of_app. intros [?|?%list_elem_of_singleton]; done.
Qed.

Lemma reduce_phase_files ls s ws wm p : lossless ls = true →
  steps can_open mapF reduceF jobName mapFiles nReduce reducePhase ls (schedule_init mapFiles nReduce reducePhase ws [] wm p fs) = Some s →
  schedule_returns s → reduce_phase can_open reduceF jobName mapFiles nReduce fs = files s.
Proof.
  intros Hl H Hret. set (init := schedule_init mapFiles nReduce reducePhase ws [] wm p fs) in *.
  assert (reduce_files s) as [R1 R2 R3].
  { apply (phase_invariant reducePhase reduce_files ls init s); [| |done|apply Hret|done|done|].
    - intros s1 s2 HR _ Hq. by apply (reduce_files_event s1).
    - intros s1 s2 i w e arg e' HR _. by apply reduce_files_action.
    - split; [apply length_replicate| |done]. by intros i t [-> _]%lookup_replicate. }
  unfold reduce_phase. apply map_eq. intros fn. rewrite reduce_all_lookup by done. case_decide as Hin.
  - apply list_elem_of_fmap in Hin as (i & -> & Hi). destruct (filter _ _) as [|j l] eqn:Ef.
    { assert (i ∈ filter (λ k, mergeName jobName k = mergeName jobName i) (seq 0 nReduce)) as Hf by (by apply list_elem_of_filter).
      rewrite Ef in Hf. by apply not_elem_of_nil in Hf. }
    assert (j ∈ filter (λ k, mergeName jobName k = mergeName jobName i) (seq 0 nReduce)) as [Hj _]%list_elem_of_filter by (rewrite Ef; by left).
    apply mergeName_inj in Hj as ->. apply elem_of_seq in Hi.
    destruct (returned_served mapFiles nReduce reducePhase s i Hret R1) as (t & Et & Ht); [cbn; lia|].
    specialize (R2 i t Et). by destruct t.
  - symmetry. apply R3. intros i Hi ->. apply Hin, list_elem_of_fmap_2, elem_of_seq. lia.
Qed.
End reduce.

(** The files that the sequential phase leaves. *)
Definition sequential_phase (phase : jobPhase) (fs : Files) : option Files :=
  match phase with
  | mapPhase => map_phase can_open mapF jobName mapFiles nReduce fs
  | reducePhase => Some (reduce_phase can_open reduceF jobName mapFiles nReduce fs)
  end.

(** C34. When [schedule] returns, every task of the phase has been executed to its end; and
    when no reply of the phase was lost (calls to dead workers may have failed) and no
    execution of the phase before goes on, each one exactly once, nothing is still being
    executed, and - if every file can be opened, there is a reduce task and no input is an
    intermediate file - the files are exactly those that the sequential phase
    leaves, however the actions of the executions interleaved. *)
Theorem phase_executes_all phase ls s ws orph wm p fs :
  inputs_apart jobName mapFiles →
  steps can_open mapF reduceF jobName mapFiles nReduce phase ls (schedule_init mapFiles nReduce phase ws orph wm p fs) = Some s →
  schedule_returns s →
  (∀ i, (i < ntasks mapFiles nReduce phase)%nat → i ∈ executed s)
  ∧ (lossless ls = true → orph = [] →
     orphans s = [] ∧ executed s ≡ₚ seq 0 (ntasks mapFiles nReduce phase) ∧ sequential_phase phase fs = Some (files s)).
Proof using Hopen HnR.
  intros Hap H Hret. destruct (returned_executed _ _ _ _ _ _ _ _ _ _ _ _ _ _ H Hret) as [H1 H2]. split; [done|].
  intros Hl ->. destruct (H2 Hl eq_refl) as [H3 H4]. split_and!; [done|done|]. destruct phase; cbn [sequential_phase].
  - by eapply map_phase_files.
  - f_equal. by eapply reduce_phase_files.
Qed.
End files.
