(* ===== verification/Distributed.v ===== *)
(** Distributed: a MapReduce job on workers, from the first registration to the
    merged output.

    Source: lab4-mapreduce/src/mapreduce/master.go (Distributed, with run of MapReduce.v).  Each
    phase is a run of the scheduler of Schedule.v; the workers that registered in
    the map phase are offered again in the reduce phase, and an execution whose reply was
    lost goes on until it ends. *)
From Stdlib Require Import ZArith Lia.
From stdpp Require Import gmap strings list.
From S2P Require Import Prelude.
From S2P Require Import MapReduce.
From S2P Require Import MapReduceProps.
From S2P Require Import Schedule.
From S2P Require Import ScheduleProps.
From S2P Require Import PhaseFiles.
Open Scope Z_scope.

Section distributed.
Context {J : Json} {RO : RangeOrder}.
Context (can_open : string → bool) (mapF : string → string → list KeyValue) (reduceF : string → list string → string).
Context (jobName : string) (mapFiles : list string) (nReduce : nat).

(** What a job changes besides the master: the workers, the parallelism they count,
    the files, and the executions whose reply was lost. *)
Record World := mkWorld { w_wks : gmap string Worker; w_par : Parallelism; w_files : Files; w_orphans : list Orphan }.
Definition empty_world (fs : Files) : World := mkWorld ∅ (mkPar 0 0) fs [].

(** One call of [schedule], along the interleaving [ls]: [None] when it has not
    returned at the end of it. *)
Definition run_phase (phase : jobPhase) (ls : list label) (ws : list string) (w : World) : option Sched :=
  s ← steps can_open mapF reduceF jobName mapFiles nReduce phase ls
        (schedule_init mapFiles nReduce phase ws (w_orphans w) (w_wks w) (w_par w) (w_files w));
  if bool_decide (crash s = None) && forallb wg_done (tasks s) then Some s else None.

Definition after_phase (s : Sched) : World := mkWorld (wks s) (par s) (files s) (orphans s).

(** A phase along its interleaving; workers that register go to the master. *)
Definition distributed_schedule (ls1 ls2 : list label) (phase : jobPhase) (s : Master * World) : option (Master * World) :=
  let ls := match phase with mapPhase => ls1 | reducePhase => ls2 end in
  s' ← run_phase phase ls (mr_workers s.1) s.2;
  Some (with_workers s.1 (workers s'), after_phase s').

Definition distributed_finish (fate : nat → ShutdownFate) (s : Master * World) : option (Master * World) :=
  let '(stats, wm) := killWorkers fate (mr_workers s.1) (w_wks s.2) in
  Some (with_stats s.1 stats, mkWorld wm (w_par s.2) (w_files s.2) (w_orphans s.2)).

(** What the executions that go on do before the merge reads the outputs. *)
Fixpoint late_actions (late : list nat) (orph : list Orphan) (fs : Files) : option (list Orphan * Files) :=
  match late with
  | [] => Some (orph, fs)
  | k :: late' => r ← orphan_action can_open mapF reduceF k orph fs; '(orph, fs) ← r; late_actions late' orph fs
  end.

Definition merge_world (late : list nat) (s : Master * World) : option (Master * World) :=
  '(orph, fs) ← late_actions late (w_orphans s.2) (w_files s.2);
  fs ← merge can_open (mr_jobName s.1) (mr_nReduce s.1) fs;
  Some (s.1, mkWorld (w_wks s.2) (w_par s.2) fs orph).

Definition Distributed (ls1 ls2 : list label) (fate : nat → ShutdownFate) (late : list nat) (master : string) (fs : Files) :
    option (Master * World) :=
  run (distributed_schedule ls1 ls2) (distributed_finish fate) (merge_world late) jobName mapFiles nReduce
    (newMaster master, empty_world fs).

Lemma run_phase_Some phase ls ws w s : run_phase phase ls ws w = Some s →
  steps can_open mapF reduceF jobName mapFiles nReduce phase ls
    (schedule_init mapFiles nReduce phase ws (w_orphans w) (w_wks w) (w_par w) (w_files w)) = Some s
  ∧ schedule_returns s.
Proof.
  unfold run_phase. intros (s' & H & Hs)%bind_Some. case_match eqn:E; [|done]. injection Hs as ->.
  apply andb_true_iff in E as [E1 E2]. apply bool_decide_eq_true in E1. done.
Qed.

(** C6. A distributed job computes what a sequential one does.  For a job with at least one
    reduce task, whose inputs are not intermediate files, in a directory without intermediate
    files of an earlier run ([clean_dir]) where every file can be opened, and with keys and
    values that survive the JSON format ([json_ok], [outputs_ok]): if both phases return
    along some interleaving of workers, calls and file actions in which workers may die and
    calls to them fail, but no reply of a task that a worker has accepted is lost ([lossless]),
    then [Distributed] ends, the output it leaves is the reference output of the inputs, in
    the order of the keys, and the statistics are the task counts of the
    workers that answer the Shutdown.  With a lost reply the output can be wrong
    ([lost_map_reply], [truncated_before_merge]). *)
Theorem distributed_job ls1 ls2 fate master fs s1 s2 :
  (∀ n, can_open n = true) → (0 < nReduce)%nat → inputs_apart jobName mapFiles → clean_dir jobName (length mapFiles) fs →
  Forall json_ok (job_pairs mapF mapFiles fs) → outputs_ok reduceF (job_pairs mapF mapFiles fs) →
  lossless ls1 = true → lossless ls2 = true →
  run_phase mapPhase ls1 [] (empty_world fs) = Some s1 →
  run_phase reducePhase ls2 (workers s1) (after_phase s1) = Some s2 →
  ∃ mr w, Distributed ls1 ls2 fate [] master fs = Some (mr, w)
    ∧ w_files w !! ("mrtmp." +:+ jobName) = Some (job_output mapF reduceF mapFiles fs)
    ∧ mr_workers mr = workers s2 ∧ (mr_stats mr, w_wks w) = killWorkers fate (workers s2) (wks s2).
Proof.
  intros Ho Hn Hap Hcl Hok Hout Hl1 Hl2 H1 H2. unfold Distributed, run, distributed_schedule, distributed_finish, merge_world.
  cbn [fst snd newMaster mr_address mr_workers mr_jobName mr_files mr_nReduce mr_stats]. rewrite H1.
  cbn [mbind option_bind fst snd with_workers with_stats mr_address mr_workers mr_jobName mr_files mr_nReduce mr_stats]. rewrite H2.
  cbn [mbind option_bind fst snd with_workers with_stats mr_address mr_workers mr_jobName mr_files mr_nReduce mr_stats after_phase w_wks w_par w_files w_orphans].
  destruct (killWorkers fate (workers s2) (wks s2)) as [stats wm'].
  cbn [mbind option_bind fst snd late_actions with_workers with_stats mr_address mr_workers mr_jobName mr_files mr_nReduce mr_stats after_phase w_wks w_par w_files w_orphans].
  destruct (run_phase_Some _ _ _ _ _ H1) as [R1 Q1]. destruct (run_phase_Some _ _ _ _ _ H2) as [R2 Q2]. cbn [after_phase w_wks w_par w_files w_orphans] in *.
  destruct (proj2 (returned_executed _ _ _ _ _ _ _ _ _ _ _ _ _ _ R1 Q1) Hl1 eq_refl) as [O1 _]. rewrite O1 in R2.
  pose proof (map_phase_files _ _ _ _ _ _ Ho Hn _ Hap _ _ _ _ _ Hl1 R1 Q1) as F1.
  assert (reduce_phase can_open reduceF jobName mapFiles nReduce (files s1) = files s2) as F2 by (by eapply reduce_phase_files).
  destruct (map_tasks_intermediate can_open mapF jobName nReduce (imap pair mapFiles) mapFiles fs Ho Hn (reflexivity _) Hap Hcl Hok) as (fs1 & E1 & Hi).
  change (w_files (empty_world fs)) with fs in F1. unfold map_phase in F1. rewrite E1 in F1. injection F1 as ->.
  destruct (reduce_tasks_spec can_open reduceF jobName nReduce (seq 0 nReduce) _ _ (files s1) Ho Hi _ eq_refl) as [_ Hr].
  unfold reduce_phase in F2. rewrite F2 in Hr.
  rewrite (merge_spec can_open mapF reduceF jobName nReduce (job_pairs mapF mapFiles fs)); [|done..|].
  - eexists _, _. split_and!; [done|cbn; by rewrite lookup_insert_eq|done|done].
  - intros r Hlt. rewrite Hr. by rewrite decide_True by (apply elem_of_seq; lia).
Qed.
End distributed.

(** ** A concrete job: two inputs, two workers, one of which dies *)
Definition acts (n i : nat) : list actor := replicate n (ATask i).
Definition does (l : event) : label := ([], l).

(** The executions of the two map tasks interleave. *)
Definition example_map_run : list label :=
  [does (LRegister "w1" 100 false); does LForward; does (LStart 0); does (LStart 1); does (LRecvPool 1 0); does (LBegin 1);
   does (LRegister "w3" 100 false); does LForward; does (LRecvPool 0 0); (acts 2 1, LBegin 0);
   (acts 1 0 ++ acts 1 1 ++ acts 2 0, LEnd 1); does (LEnd 0); does (LOk 1); does (LOk 0);
   does (LRegister "w2" 0 false); does LForward].

Definition example_reduce_run : list label :=
  [does LForward; does LForward; does LForward; does (LStart 1); does (LRecvPool 1 2); does (LStart 0); does (LRecvPool 0 0);
   does (LRefused 1); does (LBegin 0); does (LRecvPool 1 0); (acts 4 0, LBegin 1); (acts 3 1 ++ acts 1 0 ++ acts 1 1, LEnd 1); does (LEnd 0);
   does (LOk 0); does (LOk 1)].

Definition example_phase1 : option Sched :=
  run_phase (J := mark_json) (RO := source_order) (λ _, true) example_map example_reduce "job" ["a"; "b"] 2
    mapPhase example_map_run [] (empty_world example_dir).

Definition example_phase2 (s1 : Sched) : option Sched :=
  run_phase (J := mark_json) (RO := source_order) (λ _, true) example_map example_reduce "job" ["a"; "b"] 2
    reducePhase example_reduce_run (workers s1) (after_phase s1).

Definition has_value {A} (o : option A) : bool := match o with Some _ => true | None => false end.

(** The second worker does not answer the Shutdown. *)
Definition example_fate (i : nat) : ShutdownFate := match i with 1%nat => Unreachable | _ => Answered end.

Lemma distributed_job_witness :
  has_value (example_phase1 ≫= example_phase2) = true
  ∧ ∃ s2 mr w, example_phase1 ≫= example_phase2 = Some s2
     ∧ Distributed (J := mark_json) (RO := source_order) (λ _, true) example_map example_reduce "job" ["a"; "b"] 2
       example_map_run example_reduce_run example_fate [] "m" example_dir = Some (mr, w)
     ∧ w_files w !! "mrtmp.job" = Some (job_output example_map example_reduce ["a"; "b"] example_dir)
     ∧ mr_workers mr = workers s2 ∧ (mr_stats mr, w_wks w) = killWorkers example_fate (workers s2) (wks s2).
Proof.
  assert (has_value (example_phase1 ≫= example_phase2) = true) as Hs by (vm_compute; reflexivity).
  split; [exact Hs|].
  destruct example_phase1 as [s1|] eqn:E1; [|discriminate Hs]. cbn [mbind option_bind] in Hs.
  destruct (example_phase2 s1) as [s2|] eqn:E2; [|discriminate Hs]. exists s2.
  cut (∃ mr w, Distributed (J := mark_json) (RO := source_order) (λ _, true) example_map example_reduce "job" ["a"; "b"] 2
       example_map_run example_reduce_run example_fate [] "m" example_dir = Some (mr, w)
     ∧ w_files w !! "mrtmp.job" = Some (job_output example_map example_reduce ["a"; "b"] example_dir)
     ∧ mr_workers mr = workers s2 ∧ (mr_stats mr, w_wks w) = killWorkers example_fate (workers s2) (wks s2)).
  { intros (mr & w & H). exists mr, w. split; [exact E2|exact H]. }
  apply (distributed_job (J := mark_json) (RO := source_order) (λ _, true) example_map example_reduce "job" ["a"; "b"] 2
    example_map_run example_reduce_run example_fate "m" example_dir s1 s2).
  - done.
  - lia.
  - intros f m r. apply example_apart.
  - apply example_clean.
  - apply Forall_forall. intros ??. exact I.
  - intros ??. exact I.
  - reflexivity.
  - reflexivity.
  - exact E1.
  - exact E2.
Defined.

(** The workers' counts: the one that did not answer is not reported, nor is the one
    that had died. *)
Example example_stats :
  ((λ x, mr_stats x.1) <$> Distributed (J := mark_json) (RO := source_order) (λ _, true) example_map example_reduce "job" ["a"; "b"] 2
     example_map_run example_reduce_run example_fate [] "m" example_dir) = Some [2].
Proof. vm_compute. reflexivity. Qed.

(** ** Witnesses of the theorems on one phase *)
Definition example_init : Sched := schedule_init ["a"; "b"] 2 mapPhase [] [] ∅ (mkPar 0 0) example_dir.

Definition example_state : option Sched :=
  steps (J := mark_json) (RO := source_order) (λ _, true) example_map example_reduce "job" ["a"; "b"] 2 mapPhase
    example_map_run example_init.

Definition example_facts (s : Sched) : bool :=
  bool_decide (workers s = ["w1"; "w3"; "w2"]) && bool_decide (crash s = None) && forallb wg_done (tasks s).

Lemma example_state_ok : match example_state with Some s => example_facts s | None => false end = true.
Proof. vm_compute. reflexivity. Qed.

Lemma example_facts_spec s : example_facts s = true → NoDup (workers s) ∧ schedule_returns s.
Proof.
  unfold example_facts, schedule_returns. rewrite !andb_true_iff, !bool_decide_eq_true. intros [[-> ->] ->].
  split; [|done]. by apply (bool_decide_unpack _).
Qed.

Lemma example_quiet : quiet [] ∅.
Proof. split; [done|]. intros w wk Hw. by rewrite lookup_empty in Hw. Qed.

Lemma worker_runs_one_task_witness : ∃ s, example_state = Some s
  ∧ (∀ w, cnt w (tasks s ≫= runner) + cnt w (o_worker <$> orphans s) ≤ 1)%nat.
Proof.
  pose proof example_state_ok as Hs. destruct example_state as [s|] eqn:E; [|discriminate Hs].
  exists s. split; [reflexivity|].
  apply (worker_runs_one_task (J := mark_json) (RO := source_order) (λ _, true) example_map example_reduce "job"
    ["a"; "b"] 2 mapPhase [] [] ∅ (mkPar 0 0) example_dir example_map_run s).
  - apply example_quiet.
  - exact E.
  - apply (example_facts_spec s Hs).
Defined.

Lemma phase_executes_all_witness : ∃ s, example_state = Some s ∧ executed s ≡ₚ [0%nat; 1%nat]
  ∧ sequential_phase (J := mark_json) (RO := source_order) (λ _, true) example_map example_reduce "job" ["a"; "b"] 2 mapPhase example_dir = Some (files s).
Proof.
  pose proof example_state_ok as Hs. destruct example_state as [s|] eqn:E; [|discriminate Hs].
  exists s. split; [reflexivity|].
  destruct (phase_executes_all (J := mark_json) (RO := source_order) (λ _, true) example_map example_reduce "job"
    ["a"; "b"] 2 (λ _, eq_refl) ltac:(lia) mapPhase example_map_run s [] [] ∅ (mkPar 0 0) example_dir) as [_ H].
  - intros f m r. apply example_apart.
  - exact E.
  - apply (example_facts_spec s Hs).
  - destruct (H eq_refl eq_refl) as (_ & H1 & H2). split; [exact H1|exact H2].
Defined.

Lemma too_many_reduce_tasks_witness :
  ~ schedule_returns (schedule_init ["a"; "b"] 3 reducePhase [] [] ∅ (mkPar 0 0) example_dir).
Proof.
  apply (too_many_reduce_tasks (J := mark_json) (RO := source_order) (λ _, true) example_map example_reduce "job"
    ["a"; "b"] 3 reducePhase [] [] ∅ (mkPar 0 0) example_dir []).
  - cbn. lia.
  - reflexivity.
Defined.

Definition example_middle : option Sched :=
  steps (J := mark_json) (RO := source_order) (λ _, true) example_map example_reduce "job" ["a"; "b"] 2 mapPhase
    (take 7 example_map_run) example_init.

(** No worker registers in this part of the run. *)
Definition example_rest (s : Sched) : option Sched :=
  steps (J := mark_json) (RO := source_order) (λ _, true) example_map example_reduce "job" ["a"; "b"] 2 mapPhase
    (take 7 (drop 7 example_map_run)) s.

Definition middle_facts (s : Sched) : bool := bool_decide (workers s = ["w1"; "w3"]).
Lemma example_middle_ok : match example_middle ≫= example_rest with Some s => middle_facts s | None => false end = true.
Proof. vm_compute. reflexivity. Qed.

Lemma schedule_terminates_witness : ∃ s, example_middle = Some s ∧ (length (take 7 (drop 7 example_map_run)) ≤ S (weight s))%nat.
Proof.
  pose proof example_middle_ok as Hs. destruct example_middle as [s|] eqn:E; [|discriminate Hs].
  cbn [mbind option_bind] in Hs. destruct (example_rest s) as [s'|] eqn:E'; [|discriminate Hs].
  exists s. split; [reflexivity|].
  apply (schedule_terminates (J := mark_json) (RO := source_order) (λ _, true) example_map example_reduce "job"
    ["a"; "b"] 2 mapPhase [] [] ∅ (mkPar 0 0) example_dir (take 7 example_map_run) s (take 7 (drop 7 example_map_run)) s').
  - apply example_quiet.
  - exact E.
  - exact E'.
  - unfold middle_facts in Hs. apply bool_decide_eq_true in Hs. rewrite Hs. by apply (bool_decide_unpack _).
  - reflexivity.
Defined.

(** ** Replies that are lost *)
Definition demo_phase (phase : jobPhase) (ls : list label) (ws : list string) (w : World) : option Sched :=
  run_phase (J := mark_json) (RO := source_order) (λ _, true) example_map example_reduce "job" ["a"; "b"] 2 phase ls ws w.
Definition demo_job (ls1 ls2 : list label) (late : list nat) : option (Master * World) :=
  Distributed (J := mark_json) (RO := source_order) (λ _, true) example_map example_reduce "job" ["a"; "b"] 2 ls1 ls2 (λ _, Answered) late "m" example_dir.
Definition demo_output (o : option (Master * World)) : option string := '(_, w) ← o; w_files w !! "mrtmp.job".

(** Task 0 is sent to w1, whose reply is lost; w2 executes both tasks. *)
Definition lost_once (phase : jobPhase) (acts0 orph : list actor) : list label :=
  match phase with mapPhase => [does (LRegister "w1" 100 false); does (LRegister "w2" 100 false)] | reducePhase => [] end
  ++ [does LForward; does LForward; does (LStart 0); does (LStart 1); does (LRecvPool 0 0); does (LBegin 0); (acts0, LLost 0);
      does (LRecvPool 0 0); does (LBegin 0)]
  ++ match phase with
     | mapPhase => [(acts 2 0 ++ orph ++ acts 1 0, LEnd 0); does (LOk 0); does (LRecvOffer 1 0); does (LBegin 1); (acts 3 1, LEnd 1); does (LOk 1)]
     | reducePhase => [(acts 5 0, LEnd 0); does (LOk 0); does (LRecvOffer 1 0); does (LBegin 1); (acts 4 1, LEnd 1); does (LOk 1)]
     end.

(** The next phase offers w1 again while it still executes its task: it terminates. *)
Definition busy_phase (s1 : Sched) : option (option Crash) :=
  crash <$> steps (J := mark_json) (RO := source_order) (λ _, true) example_map example_reduce "job" ["a"; "b"] 2 reducePhase
    [does LForward; does (LStart 0); does (LRecvPool 0 0); does (LBegin 0)]
    (schedule_init ["a"; "b"] 2 reducePhase (workers s1) (orphans s1) (wks s1) (par s1) (files s1)).
Example busy_worker_offered : (demo_phase mapPhase (lost_once mapPhase [] []) [] (empty_world example_dir) ≫= busy_phase) = Some (Some WorkerFatal).
Proof. vm_compute. reflexivity. Qed.

(** The appends of the execution that was given up and of the new one interleave, and the
    pairs of the input are counted twice. *)
Definition lost_map_run : list label := lost_once mapPhase (acts 2 0) [AOrphan 0] ++ [does (LOrphanEnd 0)].
Definition plain_reduce_run : list label :=
  [does LForward; does (LStart 0); does (LStart 1); does (LRecvPool 0 0); does (LBegin 0); (acts 5 0, LEnd 0); does (LOk 0);
   does (LRecvOffer 1 0); does (LBegin 1); (acts 4 1, LEnd 1); does (LOk 1)].
Example lost_map_reply :
  demo_output (demo_job lost_map_run plain_reduce_run [])
  = Some (foldr String.append "" ["k: xxy"; String (Ascii.ascii_of_nat 10) ""; "x: aa"; String (Ascii.ascii_of_nat 10) "";
                                  "y: b"; String (Ascii.ascii_of_nat 10) ""]).
Proof. vm_compute. reflexivity. Qed.

(** The execution of reduce task 0 that was given up creates its output again, which
    truncates it, after the phase has returned and before the merge. *)
Definition plain_map_run : list label :=
  [does (LRegister "w1" 100 false); does (LRegister "w2" 100 false); does LForward; does (LStart 0); does (LStart 1); does (LRecvPool 0 0); does (LBegin 0);
   (acts 3 0, LEnd 0); does (LOk 0); does (LRecvOffer 1 0); does (LBegin 1); (acts 3 1, LEnd 1); does (LOk 1)].
Example truncated_before_merge :
  demo_output (demo_job plain_map_run (lost_once reducePhase (acts 2 0) []) [0%nat])
  = Some (foldr String.append "" ["x: a"; String (Ascii.ascii_of_nat 10) ""]).
Proof. vm_compute. reflexivity. Qed.
