(* ===== verification/WordCount.v ===== *)
(** WordCount: the two applications of the MapReduce library.

    Source: lab4-mapreduce/src/main/wc.go ([wc_mapF], [wc_reduceF])
    and main/ii.go ([ii_mapF], [ii_reduceF]).
    [IsLetter] is the table of unicode.IsLetter. *)
From Stdlib Require Import ZArith Lia Ascii.
From stdpp Require Import gmap strings list pretty.
From S2P Require Import Prelude.
From S2P Require Import GoStd.
From S2P Require Import MapReduce.
From S2P Require Import MapReduceProps.
Open Scope Z_scope.

Section apps.
Context (IsLetter : rune → bool).

(** The words of a text: both programs split at runes that are no letters. *)
Definition words (contents : string) : list string := FieldsFunc contents (λ c, negb (IsLetter c)).

(** ** wc.go *)
Definition wc_mapF (filename contents : string) : list KeyValue := (λ w, mkKV w "1") <$> words contents.

Definition wc_sum (values : list string) : Z :=
  foldl (λ res num, match Atoi num with Some n => i64 (res + n) | None => res end) 0 values.

(** [strconv.Itoa] of the sum, which may have wrapped around. *)
Definition Itoa_int (z : Z) : string := pretty z.

Definition wc_reduceF (key : string) (values : list string) : string := Itoa_int (wc_sum values).

(** ** ii.go *)
Definition ii_mapF (document value : string) : list KeyValue := (λ w, mkKV w document) <$> words value.

(** The loop: the documents seen so far, their number, the text of the list. *)
Definition ii_step (st : gset string * Z * string) (document : string) : gset string * Z * string :=
  let '(isExist, sum, fileList) := st in
  if decide (document ∈ isExist) then st
  else ({[document]} ∪ isExist, i64 (sum + 1), (fileList +:+ document) +:+ ",").

Definition ii_reduceF (key : string) (values : list string) : string :=
  let '(_, sum, fileList) := foldl ii_step (∅, 0, "") values in
  Itoa_int sum +:+ " " +:+ TrimRight fileList [","%char].

(** ** Word counts *)

(** The occurrences of a word in the input files. *)
Definition occurrences (fs : Files) (files : list string) (w : string) : nat :=
  length (filter (λ x, x = w) (f ← files; words (default "" (fs !! f)))).

Lemma wc_pairs fs files : job_pairs wc_mapF files fs = (λ w, mkKV w "1") <$> (f ← files; words (default "" (fs !! f))).
Proof.
  unfold job_pairs. induction files as [|f files IH]; [done|]. rewrite !bind_cons, fmap_app, IH. done.
Qed.

Lemma wc_values fs files w : values_of w (job_pairs wc_mapF files fs) = replicate (occurrences fs files w) "1".
Proof.
  rewrite wc_pairs. unfold values_of, occurrences. rewrite list_filter_fmap.
  induction (filter _ _) as [|x l IH]; [done|]. cbn [length]. rewrite replicate_S, !fmap_cons, IH. done.
Qed.

Lemma wc_keys fs files : keys_of (job_pairs wc_mapF files fs) = remove_dups (f ← files; words (default "" (fs !! f))).
Proof. rewrite wc_pairs. unfold keys_of. rewrite <- list_fmap_compose. f_equal. apply list_fmap_id. Qed.

Lemma wc_sum_ones n z : is_i64 z → is_i64 (z + Z.of_nat n) →
  foldl (λ res num, match Atoi num with Some n => i64 (res + n) | None => res end) z (replicate n "1") = z + Z.of_nat n.
Proof.
  revert z. induction n as [|n IH]; intros z H1 H2; [by rewrite Z.add_0_r|]. rewrite replicate_S. cbn [foldl].
  replace (Atoi "1") with (Some 1) by reflexivity. unfold is_i64 in *.
  rewrite i64_small by (unfold is_i64; lia). rewrite IH by lia. lia.
Qed.

(** Word count counts words: the reference output of the job, which the
    sequential and the distributed runs produce, has one line per distinct word
    of the inputs, in byte order, with the number of its occurrences in all
    files (as long as that fits an int). *)
Theorem word_count_correct (fs : Files) (files : list string) :
  Z.of_nat (length (f ← files; words (default "" (fs !! f)))) < 2 ^ 63 →
  job_output wc_mapF wc_reduceF files fs
  = foldr String.append ""
      ((λ w, w +:+ ": " +:+ Itoa_int (Z.of_nat (occurrences fs files w)) +:+ String (ascii_of_nat 10) "")
         <$> sort_Strings (remove_dups (f ← files; words (default "" (fs !! f))))).
Proof.
  intros Hlt. unfold job_output. cbv zeta. rewrite wc_keys. f_equal.
  apply list_fmap_ext. intros i w _. cbn beta. rewrite wc_values. unfold wc_reduceF, wc_sum.
  assert (occurrences fs files w ≤ length (f ← files; words (default "" (fs !! f))))%nat as Hle by apply length_filter.
  rewrite wc_sum_ones by (unfold is_i64; lia). done.
Qed.

(** ** Inverted index *)

(** The documents of a list, each one at its first place. *)
Fixpoint first_seen (seen : gset string) (ds : list string) : list string :=
  match ds with
  | [] => []
  | d :: ds' => if decide (d ∈ seen) then first_seen seen ds' else d :: first_seen ({[d]} ∪ seen) ds'
  end.

Fixpoint join_docs (ds : list string) : string :=
  match ds with
  | [] => ""
  | [d] => d
  | d :: ds' => d +:+ "," +:+ join_docs ds'
  end.

Lemma first_seen_NoDup seen ds : NoDup (first_seen seen ds) ∧ ∀ d, d ∈ first_seen seen ds ↔ d ∈ ds ∧ d ∉ seen.
Proof.
  revert seen. induction ds as [|d ds IH]; intros seen; cbn [first_seen].
  { split; [constructor|]. intros d. rewrite !elem_of_nil. tauto. }
  case_decide as Hd.
  - destruct (IH seen) as [H1 H2]. split; [done|]. intros x. rewrite H2, elem_of_cons. split; [tauto|].
    intros [[->|?] ?]; done.
  - destruct (IH ({[d]} ∪ seen)) as [H1 H2]. split.
    + constructor; [|done]. rewrite H2, elem_of_union, elem_of_singleton. tauto.
    + intros x. rewrite !elem_of_cons, H2, elem_of_union, elem_of_singleton.
      destruct (decide (x = d)) as [->|]; tauto.
Qed.

Lemma length_first_seen seen ds : (length (first_seen seen ds) ≤ length ds)%nat.
Proof.
  revert seen. induction ds as [|d ds IH]; intros seen; cbn [first_seen]; [done|].
  case_decide; cbn [length]; [specialize (IH seen)|specialize (IH ({[d]} ∪ seen))]; lia.
Qed.

Definition with_commas (ds : list string) : string := foldr (λ d s, d +:+ "," +:+ s) "" ds.

Lemma ii_loop ds seen sum text : is_i64 sum → is_i64 (sum + Z.of_nat (length ds)) →
  ∃ seen', foldl ii_step (seen, sum, text) ds
    = (seen', sum + Z.of_nat (length (first_seen seen ds)), text +:+ with_commas (first_seen seen ds)).
Proof.
  revert seen sum text. induction ds as [|d ds IH]; intros seen sum text H1 H2; cbn [foldl first_seen ii_step].
  { exists seen. cbn. by rewrite Z.add_0_r, append_nil_r. }
  cbn [length] in H2. case_decide as Hd.
  - apply IH; [done|]. unfold is_i64 in *. lia.
  - unfold is_i64 in *. rewrite i64_small by (unfold is_i64; lia).
    destruct (IH ({[d]} ∪ seen) (sum + 1) ((text +:+ d) +:+ ",")) as [seen' ->]; [lia..|].
    exists seen'. cbn [length with_commas foldr]. f_equal; [f_equal; lia|]. by rewrite <- !append_assoc'.
Qed.

(** A name that survives [TrimRight]: its last character is no comma. *)
Definition ends_well (s : string) : Prop :=
  match last (String.list_ascii_of_string s) with Some c => c ≠ ","%char | None => False end.

Lemma list_ascii_app a b :
  String.list_ascii_of_string (a +:+ b) = String.list_ascii_of_string a ++ String.list_ascii_of_string b.
Proof.
  induction a as [|c a IH]; [done|].
  change (c :: String.list_ascii_of_string (a +:+ b) = c :: (String.list_ascii_of_string a ++ String.list_ascii_of_string b)).
  by rewrite IH.
Qed.

Lemma ends_well_app a b : ends_well b → ends_well (a +:+ b).
Proof.
  unfold ends_well. rewrite list_ascii_app, last_app. by destruct (last (String.list_ascii_of_string b)).
Qed.

Lemma join_ends_well ds : ds ≠ [] → Forall ends_well ds → ends_well (join_docs ds).
Proof.
  induction ds as [|d [|d' ds] IH]; intros Hne Hall; [done| |].
  - by apply Forall_cons in Hall as [? _].
  - apply Forall_cons in Hall as [_ Hall]. cbn [join_docs]. do 2 apply ends_well_app. by apply IH.
Qed.

Lemma with_commas_join ds : ds ≠ [] → with_commas ds = join_docs ds +:+ ",".
Proof.
  induction ds as [|d [|d' ds] IH]; intros Hne; [done|done|].
  change (d +:+ "," +:+ with_commas (d' :: ds) = (d +:+ "," +:+ join_docs (d' :: ds)) +:+ ",").
  rewrite IH by done. by rewrite <- !append_assoc'.
Qed.

Lemma TrimRight_comma s : ends_well s → TrimRight (s +:+ ",") [","%char] = s.
Proof.
  unfold ends_well, TrimRight, trim_right. intros He. rewrite list_ascii_app.
  change (String.list_ascii_of_string ",") with [","%char]. rewrite rev_app_distr. cbn [rev app trim_left].
  change (in_set [","%char] ",") with true. cbn iota.
  destruct (last (String.list_ascii_of_string s)) as [c|] eqn:El; [|done].
  apply last_Some in El as [l' El]. rewrite El. rewrite rev_app_distr. cbn [rev app trim_left].
  replace (in_set [","%char] c) with false.
  - cbn [rev]. rewrite rev_involutive, <- El. apply String.string_of_list_ascii_of_string.
  - symmetry. apply bool_decide_eq_false. by rewrite list_elem_of_singleton.
Qed.

(** The inverted index lists each document once: for a word found in the
    documents [ds] (in the order of the pairs), the answer is the number of
    distinct documents, a space, and their names in the order in which they
    first appear, separated by commas; for names that do not end in a comma,
    which would be trimmed. *)
Theorem inverted_index_correct (key : string) (ds : list string) :
  ds ≠ [] → Forall ends_well ds → Z.of_nat (length ds) < 2 ^ 63 →
  ii_reduceF key ds
  = Itoa_int (Z.of_nat (length (first_seen ∅ ds))) +:+ " " +:+ join_docs (first_seen ∅ ds)
  ∧ NoDup (first_seen ∅ ds) ∧ ∀ d, d ∈ first_seen ∅ ds ↔ d ∈ ds.
Proof.
  intros Hne Hall Hlt. destruct (first_seen_NoDup ∅ ds) as [Hnd Hin].
  assert (∀ d, d ∈ first_seen ∅ ds ↔ d ∈ ds) as Hin'.
  { intros d. rewrite Hin. split; [by intros [? _]|]. intros ?. split; [done|apply not_elem_of_empty]. }
  split; [|done]. unfold ii_reduceF.
  destruct (ii_loop ds ∅ 0 "") as [seen' ->]; [done|unfold is_i64; lia|].
  assert (first_seen ∅ ds ≠ []) as Hfs.
  { destruct ds as [|d ds']; [done|]. intros E. specialize (Hin' d). rewrite E in Hin'.
    assert (d ∈ @nil string) as Hd by (apply Hin'; left). by apply not_elem_of_nil in Hd. }
  change ("" +:+ with_commas (first_seen ∅ ds)) with (with_commas (first_seen ∅ ds)).
  assert (ends_well (join_docs (first_seen ∅ ds))) as Hj.
  { apply join_ends_well; [done|]. apply Forall_forall. intros d Hd. rewrite Forall_forall in Hall. by apply Hall, Hin'. }
  by rewrite with_commas_join, TrimRight_comma.
Qed.
End apps.

(** ** Concrete texts *)
Definition ascii_letter (r : rune) : bool := bool_decide (65 <= r <= 90) || bool_decide (97 <= r <= 122).

Example words_example : words ascii_letter "to be, or not to be" = ["to"; "be"; "or"; "not"; "to"; "be"].
Proof. vm_compute. reflexivity. Qed.

Definition text_dir : Files := {[ "a" := "to be, or not"; "b" := "to be" ]}.

Lemma word_count_correct_witness :
  job_output (wc_mapF ascii_letter) wc_reduceF ["a"; "b"] text_dir
  = foldr String.append "" ["be: 2"; String (ascii_of_nat 10) ""; "not: 1"; String (ascii_of_nat 10) "";
      "or: 1"; String (ascii_of_nat 10) ""; "to: 2"; String (ascii_of_nat 10) ""].
Proof.
  refine (eq_trans (word_count_correct ascii_letter text_dir ["a"; "b"] _) _).
  - vm_compute. reflexivity.
  - vm_compute. reflexivity.
Defined.

Lemma inverted_index_correct_witness : ii_reduceF "w" ["x.txt"; "y.txt"; "x.txt"] = "2 x.txt,y.txt".
Proof.
  refine (eq_trans (proj1 (inverted_index_correct "w" ["x.txt"; "y.txt"; "x.txt"] _ _ _)) _).
  - done.
  - repeat constructor; cbn; discriminate.
  - cbn. lia.
  - vm_compute. reflexivity.
Defined.
