(* ===== verification/Locks.v ===== *)
(** Locks: the lock tables of the gDoc backend.

    Source: gDoc_backend/lock/lock.go.

    [FileLockMap] and [FileRWLockMap] hold pointers to mutexes, so mutexes have
    identities here and the tables map names to them.  Each goroutine runs one
    lock-use-unlock sequence; [lock_step] executes one atomic action of one of
    them.  Sections under [FileLock] are one action; a read of a table is one
    action too (the Go run time may also abort on unsynchronised map accesses,
    which is not modelled).  A reader does not wait for pending writers, which
    allows more interleavings than sync.RWMutex does. *)
From Stdlib Require Import ZArith Lia.
From stdpp Require Import gmap strings list pretty.
From S2P Require Import Prelude.
Open Scope nat_scope.

(** ** State *)
Record Tables := mkTables {
  FileLockMap : gmap string (gmap string nat);
  FileRWLockMap : gmap string nat;
  locked : gmap nat bool;          (* sync.Mutex *)
  rwlocks : gmap nat (nat * bool); (* sync.RWMutex: readers, writer *)
  fresh_id : nat
}.

(** The key of a cell: [row-column] in decimal. *)
Definition cell_key (row column : N) : string := pretty row +:+ "-" +:+ pretty column.

Definition META_ROW : N := 2 ^ 32 - 1.
Definition META_COL : N := 2 ^ 32 - 1.
Definition meta_key : string := cell_key META_ROW META_COL.

(** [make(map)] and [&sync.RWMutex{}] only where they are missing. *)
Definition AddFileLock (filename : string) (s : Tables) : Tables :=
  let lm := match FileLockMap s !! filename with
            | Some _ => FileLockMap s
            | None => <[filename := ∅]> (FileLockMap s)
            end in
  match FileRWLockMap s !! filename with
  | Some _ => mkTables lm (FileRWLockMap s) (locked s) (rwlocks s) (fresh_id s)
  | None => mkTables lm (<[filename := fresh_id s]> (FileRWLockMap s)) (locked s)
              (<[fresh_id s := (0, false)]> (rwlocks s)) (S (fresh_id s))
  end.

Definition DeleteFileLock (filename : string) (s : Tables) : Tables :=
  mkTables (delete filename (FileLockMap s)) (delete filename (FileRWLockMap s)) (locked s) (rwlocks s) (fresh_id s).

(** [FileLockMap[filename][cell] = &sync.Mutex{}]; a nil inner map panics. *)
Definition add_cell_lock (filename cell : string) (s : Tables) : option Tables :=
  cells ← FileLockMap s !! filename;
  Some (mkTables (<[filename := <[cell := fresh_id s]> cells]> (FileLockMap s)) (FileRWLockMap s)
          (<[fresh_id s := false]> (locked s)) (rwlocks s) (S (fresh_id s))).

Definition find_cell_lock (filename cell : string) (s : Tables) : option nat :=
  cells ← FileLockMap s !! filename; cells !! cell.

Definition set_locked (m : nat) (b : bool) (s : Tables) : Tables :=
  mkTables (FileLockMap s) (FileRWLockMap s) (<[m := b]> (locked s)) (rwlocks s) (fresh_id s).

Definition set_rw (r : nat) (v : nat * bool) (s : Tables) : Tables :=
  mkTables (FileLockMap s) (FileRWLockMap s) (locked s) (<[r := v]> (rwlocks s)) (fresh_id s).

(** ** Goroutines *)
Inductive LockOp :=
| UseCell (filename cell : string)    (* LockCell ... UnlockCell; LockMeta with [meta_key] *)
| UseFile (filename : string)         (* LockFile ... UnlockFile *)
| DropFile (filename : string).       (* DeleteFileLock *)

Inductive Pc :=
| PStart              (* before [FileRWLockMap[filename]] is looked at *)
| PAdd                (* it was missing: before AddFileLock *)
| PReady              (* before RLock or Lock *)
| PRead               (* read lock held, before the lookup of the cell's mutex *)
| PMissing            (* it was missing: before it is created *)
| PCreated            (* before the second lookup *)
| PWait (m : nat)     (* before [m.Lock()] *)
| PHeld (m : nat)     (* in the critical section of the cell, holding [m] *)
| PReleased           (* the mutex is unlocked, the read lock not yet *)
| PFile               (* in the critical section of the file *)
| PDone.

Record Goroutine := mkG { g_op : LockOp; g_pc : Pc }.

(** The first lines of [LockCell], [LockFile] and [UnlockFile]. *)
Definition check_file (f : string) (s : Tables) : Pc :=
  match FileRWLockMap s !! f with Some _ => PReady | None => PAdd end.

(** The next action of a goroutine.  [Some None]: it is blocked; [None]: a
    panic (nil map or pointer, unlock of an unlocked mutex). *)
Definition cell_action (f c : string) (pc : Pc) (s : Tables) : option (option (Pc * Tables)) :=
  match pc with
  | PStart => Some (Some (check_file f s, s))
  | PAdd => Some (Some (PReady, AddFileLock f s))
  | PReady =>
      r ← FileRWLockMap s !! f;
      rw ← rwlocks s !! r;
      if (snd rw : bool) then Some None else Some (Some (PRead, set_rw r (S (fst rw), false) s))
  | PRead => Some (Some (match find_cell_lock f c s with Some m => PWait m | None => PMissing end, s))
  | PMissing => s' ← add_cell_lock f c s; Some (Some (PCreated, s'))
  | PCreated => m ← find_cell_lock f c s; Some (Some (PWait m, s))
  | PWait m =>
      b ← locked s !! m;
      if (b : bool) then Some None else Some (Some (PHeld m, set_locked m true s))
  | PHeld _ =>
      m ← find_cell_lock f c s;
      b ← locked s !! m;
      if (b : bool) then Some (Some (PReleased, set_locked m false s)) else None
  | PReleased =>
      r ← FileRWLockMap s !! f;
      rw ← rwlocks s !! r;
      match fst rw with
      | S readers => Some (Some (PDone, set_rw r (readers, snd rw) s))
      | 0 => None
      end
  | PFile | PDone => Some None
  end.

Definition file_action (f : string) (pc : Pc) (s : Tables) : option (option (Pc * Tables)) :=
  match pc with
  | PStart => Some (Some (check_file f s, s))
  | PAdd => Some (Some (PReady, AddFileLock f s))
  | PReady =>
      r ← FileRWLockMap s !! f;
      rw ← rwlocks s !! r;
      if snd rw || bool_decide (fst rw ≠ 0) then Some None else Some (Some (PFile, set_rw r (0, true) s))
  | PFile =>
      let s := match FileRWLockMap s !! f with Some _ => s | None => AddFileLock f s end in
      r ← FileRWLockMap s !! f;
      rw ← rwlocks s !! r;
      if (snd rw : bool) then Some (Some (PDone, set_rw r (fst rw, false) s)) else None
  | _ => Some None
  end.

Definition lock_action (g : Goroutine) (s : Tables) : option (option (Pc * Tables)) :=
  match g_op g with
  | UseCell f c => cell_action f c (g_pc g) s
  | UseFile f => file_action f (g_pc g) s
  | DropFile f => match g_pc g with PStart => Some (Some (PDone, DeleteFileLock f s)) | _ => Some None end
  end.

Record LockState := mkLS { tables : Tables; gs : list Goroutine; lock_panic : bool }.

(** Goroutine [i] executes its next action; [None] when there is none. *)
Definition lock_step (i : nat) (s : LockState) : option LockState :=
  if lock_panic s then None else
  g ← gs s !! i;
  match lock_action g (tables s) with
  | None => Some (mkLS (tables s) (gs s) true)
  | Some None => None
  | Some (Some (pc, t)) => Some (mkLS t (<[i := mkG (g_op g) pc]> (gs s)) false)
  end.

Fixpoint lock_run (sched : list nat) (s : LockState) : option LockState :=
  match sched with
  | [] => Some s
  | i :: sched' => s' ← lock_step i s; lock_run sched' s'
  end.

Definition start_goroutines (ops : list LockOp) : list Goroutine := (λ o, mkG o PStart) <$> ops.
Definition empty_tables : Tables := mkTables ∅ ∅ ∅ ∅ 0.

(** In the critical section of a cell or of a file. *)
Definition in_cell (f c : string) (g : Goroutine) : Prop :=
  g_op g = UseCell f c ∧ match g_pc g with PHeld _ => True | _ => False end.
Definition in_file (f : string) (g : Goroutine) : Prop := g_op g = UseFile f ∧ g_pc g = PFile.

(** ** Counting goroutines *)
Definition reads (f : string) (g : Goroutine) : nat :=
  match g_op g, g_pc g with
  | UseCell f' _, (PRead | PMissing | PCreated | PWait _ | PHeld _ | PReleased) => if decide (f' = f) then 1 else 0
  | _, _ => 0
  end.

Definition writes (f : string) (g : Goroutine) : nat :=
  match g_op g, g_pc g with UseFile f', PFile => if decide (f' = f) then 1 else 0 | _, _ => 0 end.

Definition holds (m : nat) (g : Goroutine) : nat :=
  match g_pc g with PHeld m' => if decide (m' = m) then 1 else 0 | _ => 0 end.

Abbreviation total f l := (sum_list_with f l).
Definition b2n (b : bool) : nat := if b then 1 else 0.

Definition not_drop (g : Goroutine) : Prop := match g_op g with DropFile _ => False | _ => True end.

(** The read-write lock of a file counts its readers and its writer. *)
Definition rw_counted (t : Tables) (l : list Goroutine) : Prop := ∀ f,
  match FileRWLockMap t !! f with
  | Some r => r < fresh_id t ∧ ∃ w, rwlocks t !! r = Some (total (reads f) l, w)
      ∧ total (writes f) l = b2n w ∧ (w = true → total (reads f) l = 0)
  | None => total (reads f) l = 0 ∧ total (writes f) l = 0
  end.

Definition rw_distinct (t : Tables) : Prop := ∀ f f' r,
  FileRWLockMap t !! f = Some r → FileRWLockMap t !! f' = Some r → f = f'.

Record rw_inv (s : LockState) : Prop := {
  rwi_counted : rw_counted (tables s) (gs s);
  rwi_distinct : rw_distinct (tables s);
  rwi_ops : Forall not_drop (gs s)
}.

Lemma rw_AddFileLock f t l : rw_counted t l → rw_distinct t →
  rw_counted (AddFileLock f t) l ∧ rw_distinct (AddFileLock f t).
Proof.
  intros Hc Hd. unfold AddFileLock. destruct (FileRWLockMap t !! f) as [r|] eqn:E; [by split|]. split.
  - intros f'. cbn [FileRWLockMap rwlocks fresh_id]. destruct (decide (f = f')) as [<-|Hne].
    + rewrite lookup_insert_eq. specialize (Hc f). rewrite E in Hc. destruct Hc as [H1 H2]. split; [lia|].
      exists false. rewrite lookup_insert_eq, H1. done.
    + rewrite lookup_insert_ne by done. specialize (Hc f'). destruct (FileRWLockMap t !! f') as [r|]; [|done].
      destruct Hc as [Hr Hw]. split; [lia|]. by rewrite lookup_insert_ne by lia.
  - intros f1 f2 r. cbn [FileRWLockMap]. rewrite !lookup_insert_Some.
    assert (∀ g, FileRWLockMap t !! g = Some (fresh_id t) → False) as Hf.
    { intros g Hg. specialize (Hc g). rewrite Hg in Hc. destruct Hc as [? _]. lia. }
    intros [[<- <-]|[Hn1 H1]] [[<- H2]|[Hn2 H2]]; [done|by destruct (Hf f2)|subst; by destruct (Hf f1)|by eapply Hd].
Qed.

(** Goroutine [i] moves without changing any read-write lock. *)
Lemma rw_move t l i g g' : l !! i = Some g → (∀ f, reads f g' = reads f g ∧ writes f g' = writes f g) →
  rw_counted t l → rw_counted t (<[i := g']> l).
Proof.
  intros E Hg Hc f. specialize (Hc f). destruct (Hg f) as [Hr Hw].
  pose proof (sum_list_with_insert (reads f) l i g g' E). pose proof (sum_list_with_insert (writes f) l i g g' E).
  replace (total (reads f) (<[i := g']> l)) with (total (reads f) l) by lia.
  by replace (total (writes f) (<[i := g']> l)) with (total (writes f) l) by lia.
Qed.

(** Goroutine [i] moves and the lock of [f] changes accordingly. *)
Lemma rw_change t l i g g' f r n' w' : l !! i = Some g → FileRWLockMap t !! f = Some r →
  (∀ f', f' ≠ f → reads f' g' = reads f' g ∧ writes f' g' = writes f' g) →
  n' + reads f g = total (reads f) l + reads f g' → b2n w' + writes f g = total (writes f) l + writes f g' →
  (w' = true → n' = 0) →
  rw_counted t l → rw_distinct t → rw_counted (set_rw r (n', w') t) (<[i := g']> l).
Proof.
  intros E Er Ho Hn Hw Hx Hc Hd f'. cbn [set_rw FileRWLockMap rwlocks fresh_id].
  pose proof (sum_list_with_insert (reads f') l i g g' E) as H1.
  pose proof (sum_list_with_insert (writes f') l i g g' E) as H2. specialize (Hc f').
  destruct (decide (f' = f)) as [->|Hne].
  - rewrite Er in Hc |- *. destruct Hc as (Hr & w & _). split; [done|]. exists w'. rewrite lookup_insert_eq.
    replace (total (reads f) (<[i := g']> l)) with n' by lia. split_and!; [done|lia|done].
  - destruct (Ho f' Hne) as [Hr' Hw'].
    replace (total (reads f') (<[i := g']> l)) with (total (reads f') l) by lia.
    replace (total (writes f') (<[i := g']> l)) with (total (writes f') l) by lia.
    destruct (FileRWLockMap t !! f') as [r'|] eqn:E'; [|done].
    rewrite lookup_insert_ne; [done|]. intros <-. apply Hne. by eapply Hd.
Qed.

Lemma rw_same_tables t t' l : FileRWLockMap t' = FileRWLockMap t → rwlocks t' = rwlocks t → fresh_id t <= fresh_id t' →
  rw_counted t l ∧ rw_distinct t → rw_counted t' l ∧ rw_distinct t'.
Proof.
  intros E1 E2 Hf [Hc Hd]. split; [|intros ???; rewrite E1; apply Hd].
  intros f. specialize (Hc f). rewrite E1, E2. destruct (FileRWLockMap t !! f); [|done].
  destruct Hc as [? Hc]. split; [lia|done].
Qed.

(** Actions of a goroutine that uses a cell of [f]. *)
Lemma rw_cell_action t l i f c pc pc' t' :
  l !! i = Some (mkG (UseCell f c) pc) → cell_action f c pc t = Some (Some (pc', t')) →
  rw_counted t l → rw_distinct t → rw_counted t' (<[i := mkG (UseCell f c) pc']> l) ∧ rw_distinct t'.
Proof.
  intros E H Hc Hd. unfold cell_action in H.
  destruct pc; simplify_eq.
  - split; [|done]. eapply rw_move; [done| |done]. intros f'. unfold check_file. by destruct (FileRWLockMap t' !! f).
  - destruct (rw_AddFileLock f t l Hc Hd) as [H1 H2]. split; [|done]. by eapply rw_move.
  - apply bind_Some in H as (r & Er & H). apply bind_Some in H as ([readers w] & Erw & H). cbn [fst snd] in H.
    destruct w; simplify_eq. split; [|by intros ???; cbn; apply Hd].
    pose proof (Hc f) as Hcf. rewrite Er in Hcf. destruct Hcf as (_ & w & Hw & Hwr & _). simplify_eq.
    eapply (rw_change t l i _ _ f r); [done|done| | | | |done|done]; cbn [reads writes g_op g_pc b2n]; try done.
    + intros f' Hne. by rewrite decide_False by congruence.
    + rewrite decide_True by done. lia.
    + rewrite Hwr. cbn. lia.
  - split; [|done]. eapply rw_move; [done| |done]. intros f'. by destruct (find_cell_lock f c t').
  - apply bind_Some in H as (t1 & H1 & H). simplify_eq. unfold add_cell_lock in H1. apply bind_Some in H1 as (cells & _ & H1).
    simplify_eq. eapply (rw_same_tables t); [done|done|cbn; lia|]. split; [|done]. by eapply rw_move.
  - apply bind_Some in H as (m & _ & H). simplify_eq. split; [|done]. by eapply rw_move.
  - apply bind_Some in H as (b & _ & H). destruct b; simplify_eq. eapply (rw_same_tables t); [done|done|done|].
    split; [|done]. by eapply rw_move.
  - apply bind_Some in H as (m' & _ & H). apply bind_Some in H as (b & _ & H). destruct b; simplify_eq.
    eapply (rw_same_tables t); [done|done|done|]. split; [|done]. by eapply rw_move.
  - apply bind_Some in H as (r & Er & H). apply bind_Some in H as ([readers w] & Erw & H). cbn [fst snd] in H.
    destruct readers as [|n]; simplify_eq. split; [|by intros ???; cbn; apply Hd].
    pose proof (Hc f) as Hcf. rewrite Er in Hcf. destruct Hcf as (_ & w' & Hw & Hwr & Hx). simplify_eq.
    eapply (rw_change t l i _ _ f r); [done|done| | | | |done|done]; cbn [reads writes g_op g_pc].
    + intros f' Hne. by rewrite decide_False by congruence.
    + rewrite decide_True by done. lia.
    + lia.
    + intros ->. specialize (Hx eq_refl). lia.
Qed.

(** Actions of a goroutine that uses the whole file. *)
Lemma rw_file_action t l i f pc pc' t' :
  l !! i = Some (mkG (UseFile f) pc) → file_action f pc t = Some (Some (pc', t')) →
  rw_counted t l → rw_distinct t → rw_counted t' (<[i := mkG (UseFile f) pc']> l) ∧ rw_distinct t'.
Proof.
  intros E H Hc Hd. unfold file_action in H. destruct pc; simplify_eq.
  - split; [|done]. eapply rw_move; [done| |done]. intros f'. unfold check_file. by destruct (FileRWLockMap t' !! f).
  - destruct (rw_AddFileLock f t l Hc Hd) as [H1 H2]. split; [|done]. by eapply rw_move.
  - apply bind_Some in H as (r & Er & H). apply bind_Some in H as ([readers w] & Erw & H). cbn [fst snd] in H.
    destruct w; [done|]. cbn [orb] in H. case_bool_decide as Hz; simplify_eq.
    split; [|by intros ???; cbn; apply Hd].
    pose proof (Hc f) as Hcf. rewrite Er in Hcf. destruct Hcf as (_ & w & Hw & Hwr & _). simplify_eq.
    eapply (rw_change t l i _ _ f r); [done|done| | | |done|done|done]; cbn [reads writes g_op g_pc b2n].
    + intros f' Hne. by rewrite decide_False by congruence.
    + lia.
    + rewrite decide_True by done. rewrite Hwr. cbn. lia.
  - pose proof (Hc f) as Hcf. pose proof (sum_list_with_ge (writes f) l i _ E) as Hge. cbn [writes g_op g_pc] in Hge.
    rewrite decide_True in Hge by done.
    destruct (FileRWLockMap t !! f) as [r|] eqn:Er; [|lia]. rewrite Er in H. cbn [mbind option_bind] in H.
    apply bind_Some in H as ([readers w] & Erw & H). cbn [fst snd] in H. destruct w; simplify_eq.
    destruct Hcf as (_ & w & Hw & Hwr & Hx). simplify_eq. split; [|by intros ???; cbn; apply Hd].
    eapply (rw_change t l i _ _ f r); [done|done| | | |done|done|done]; cbn [reads writes g_op g_pc b2n].
    + intros f' Hne. by rewrite decide_False by congruence.
    + lia.
    + rewrite decide_True by done. rewrite Hwr. cbn. lia.
Qed.

Lemma rw_inv_step i s s' : lock_step i s = Some s' → rw_inv s → rw_inv s'.
Proof.
  unfold lock_step. destruct (lock_panic s); [done|]. intros ([op pc] & E & H)%bind_Some [Hc Hd Ho]. cbn [g_op] in H.
  destruct (lock_action _ _) as [[[pc' t']|]|] eqn:Ea; simplify_eq; [|by split].
  assert (Forall not_drop (<[i := mkG op pc']> (gs s))) as Ho'.
  { apply Forall_insert; [done|]. by eapply (Forall_lookup_1 _ _ _ _ Ho) in E. }
  unfold lock_action in Ea. cbn [g_op g_pc] in Ea. destruct op as [f c|f|f].
  - destruct (rw_cell_action _ _ i _ _ _ _ _ E Ea Hc Hd). by split.
  - destruct (rw_file_action _ _ i _ _ _ _ E Ea Hc Hd). by split.
  - by eapply (Forall_lookup_1 _ _ _ _ Ho) in E.
Qed.

Lemma lock_run_inv (P : LockState → Prop) sched s s' :
  (∀ i s s', lock_step i s = Some s' → P s → P s') → lock_run sched s = Some s' → P s → P s'.
Proof.
  intros Hstep. revert s. induction sched as [|i sched IH]; intros s; cbn [lock_run]; [by intros [= ->]|].
  intros (s1 & H1 & H)%bind_Some Hs. eauto.
Qed.

(** ** The mutex of one cell *)
Section cell.
Context (f c : string) (m : nat).

(** The goroutines of this cell use [m], and no others do. *)
Definition pc_fits (g : Goroutine) : Prop :=
  match g_pc g with
  | PMissing | PCreated => g_op g ≠ UseCell f c
  | PWait m' | PHeld m' => m' = m ↔ g_op g = UseCell f c
  | _ => True
  end.

Definition entry_fixed (t : Tables) : Prop :=
  m < fresh_id t ∧ ∀ f' c', find_cell_lock f' c' t = Some m ↔ f' = f ∧ c' = c.

Record cell_inv (s : LockState) : Prop := {
  ci_entry : entry_fixed (tables s);
  ci_locked : ∃ b, locked (tables s) !! m = Some b ∧ total (holds m) (gs s) = b2n b;
  ci_pcs : Forall pc_fits (gs s);
  ci_ops : Forall not_drop (gs s)
}.

Lemma find_AddFileLock g f' c' t : find_cell_lock f' c' (AddFileLock g t) = find_cell_lock f' c' t.
Proof.
  unfold find_cell_lock, AddFileLock.
  destruct (FileLockMap t !! g) as [x|] eqn:E, (FileRWLockMap t !! g); cbn [FileLockMap]; try done;
    destruct (decide (g = f')) as [<-|Hne]; rewrite ?lookup_insert_eq, ?E, ?lookup_insert_ne by done; done.
Qed.

Lemma AddFileLock_rest g t : locked (AddFileLock g t) = locked t ∧ fresh_id t <= fresh_id (AddFileLock g t).
Proof. unfold AddFileLock. destruct (FileRWLockMap t !! g); cbn; split; done || lia. Qed.

Lemma find_add_cell g d t t' f' c' : add_cell_lock g d t = Some t' →
  find_cell_lock f' c' t' = if decide (g = f' ∧ d = c') then Some (fresh_id t) else find_cell_lock f' c' t.
Proof.
  unfold add_cell_lock. intros (cells & E & [= <-])%bind_Some. unfold find_cell_lock. cbn [FileLockMap].
  destruct (decide (g = f')) as [<-|Hne].
  - rewrite lookup_insert_eq, E. cbn [mbind option_bind]. destruct (decide (d = c')) as [<-|Hd].
    + by rewrite lookup_insert_eq, decide_True.
    + rewrite lookup_insert_ne, decide_False by (done || by intros [_ ?]). done.
  - rewrite lookup_insert_ne, decide_False by (done || by intros [? _]). done.
Qed.

Lemma entry_AddFileLock g t : entry_fixed t → entry_fixed (AddFileLock g t).
Proof.
  intros [Hm He]. split; [pose proof (AddFileLock_rest g t) as [_ ?]; lia|]. intros f' c'. by rewrite find_AddFileLock.
Qed.

Lemma pcs_insert l i g : pc_fits g → Forall pc_fits l → Forall pc_fits (<[i := g]> l).
Proof. intros Hg Hl. by apply Forall_insert. Qed.

(** Goroutine [i] moves without touching [m]. *)
Lemma cell_move t t' l i g g' : l !! i = Some g → holds m g' = holds m g →
  locked t' !! m = locked t !! m →
  (∃ b, locked t !! m = Some b ∧ total (holds m) l = b2n b) →
  ∃ b, locked t' !! m = Some b ∧ total (holds m) (<[i := g']> l) = b2n b.
Proof.
  intros E Hg -> (b & Hb & Ht). exists b. split; [done|].
  pose proof (sum_list_with_insert (holds m) l i g g' E). lia.
Qed.

Lemma cell_action_inv t l i f' c' pc pc' t' :
  l !! i = Some (mkG (UseCell f' c') pc) → cell_action f' c' pc t = Some (Some (pc', t')) →
  entry_fixed t → (∃ b, locked t !! m = Some b ∧ total (holds m) l = b2n b) → pc_fits (mkG (UseCell f' c') pc) →
  entry_fixed t' ∧ (∃ b, locked t' !! m = Some b ∧ total (holds m) (<[i := mkG (UseCell f' c') pc']> l) = b2n b)
  ∧ pc_fits (mkG (UseCell f' c') pc').
Proof.
  intros E H He Hl Hp. pose proof He as [Hm Hfind]. unfold cell_action in H. destruct pc as [| | | | | |n|n| | |]; simplify_eq.
  - split_and!; [done| |]; unfold check_file; destruct (FileRWLockMap t' !! f'); done || by eapply cell_move.
  - split_and!; [by apply entry_AddFileLock| |done]. eapply cell_move; [done|done| |done].
    by destruct (AddFileLock_rest f' t) as [-> _].
  - apply bind_Some in H as (r & _ & H). apply bind_Some in H as (rw & _ & H). destruct (snd rw); simplify_eq.
    split_and!; [done| |done]. by eapply cell_move.
  - split_and!; [done| |].
    + destruct (find_cell_lock f' c' t'); by eapply cell_move.
    + destruct (find_cell_lock f' c' t') as [n|] eqn:En; unfold pc_fits; cbn [g_pc g_op].
      * split; [intros ->; by apply Hfind in En as [-> ->]|]. intros [= -> ->].
        assert (find_cell_lock f c t' = Some m) as Ef by (by apply Hfind). congruence.
      * intros [= -> ->]. assert (find_cell_lock f c t' = Some m) as Ef by (by apply Hfind). congruence.
  - apply bind_Some in H as (t1 & H1 & H). simplify_eq. unfold pc_fits in Hp. cbn [g_pc g_op] in Hp.
    pose proof (λ f1 c1, find_add_cell f' c' t t' f1 c1 H1) as Hf1. unfold add_cell_lock in H1.
    apply bind_Some in H1 as (cells & _ & [= <-]). split_and!.
    + split; [cbn; lia|]. intros f1 c1. rewrite Hf1. case_decide as Hd; [|by apply Hfind].
      split; [intros [= ?]; lia|]. intros [-> ->]. destruct Hp. by destruct Hd as [-> ->].
    + eapply (cell_move t); [done|done| |done]. cbn. rewrite lookup_insert_ne by lia. done.
    + unfold pc_fits. cbn. done.
  - apply bind_Some in H as (n & En & H). simplify_eq. unfold pc_fits in Hp. cbn [g_pc g_op] in Hp.
    split_and!; [done|by eapply cell_move|]. unfold pc_fits. cbn [g_pc g_op]. split; [|done].
    intros ->. apply Hfind in En as [-> ->]. done.
  - apply bind_Some in H as (b & Eb & H). destruct b; simplify_eq. split_and!; [done| |done].
    destruct (decide (n = m)) as [->|Hne].
    + exists true. cbn. rewrite lookup_insert_eq. split; [done|]. destruct Hl as (b & Hb & Ht). simplify_eq.
      pose proof (sum_list_with_insert (holds m) l i _ (mkG (UseCell f' c') (PHeld m)) E) as Hs.
      cbn [holds g_pc] in Hs. rewrite decide_True in Hs by done. rewrite Ht in Hs. cbn in Hs |- *. lia.
    + eapply (cell_move t); [done| |cbn; by rewrite lookup_insert_ne|done]. cbn. by rewrite decide_False.
  - apply bind_Some in H as (n' & En & H). apply bind_Some in H as (b & Eb & H). destruct b; simplify_eq.
    unfold pc_fits in Hp. cbn [g_pc g_op] in Hp. split_and!; [done| |done].
    destruct (decide (n' = m)) as [->|Hne].
    + apply Hfind in En as [-> ->]. assert (n = m) as -> by (by apply Hp). exists false. cbn. rewrite lookup_insert_eq.
      split; [done|]. destruct Hl as (b & Hb & Ht). simplify_eq.
      pose proof (sum_list_with_insert (holds m) l i _ (mkG (UseCell f c) PReleased) E) as Hs.
      cbn [holds g_pc] in Hs. rewrite decide_True in Hs by done. rewrite Ht in Hs. cbn in Hs |- *. lia.
    + eapply (cell_move t); [done| |cbn; by rewrite lookup_insert_ne|done]. cbn. rewrite decide_False; [done|].
      intros ->. pose proof (proj1 Hp eq_refl) as [= -> ->]. assert (find_cell_lock f c t = Some m) by (by apply Hfind). congruence.
  - apply bind_Some in H as (r & _ & H). apply bind_Some in H as (rw & _ & H). destruct (fst rw); simplify_eq.
    split_and!; [done| |done]. by eapply (cell_move t).
Qed.

Lemma file_action_inv t l i f' pc pc' t' :
  l !! i = Some (mkG (UseFile f') pc) → file_action f' pc t = Some (Some (pc', t')) →
  entry_fixed t → (∃ b, locked t !! m = Some b ∧ total (holds m) l = b2n b) →
  entry_fixed t' ∧ (∃ b, locked t' !! m = Some b ∧ total (holds m) (<[i := mkG (UseFile f') pc']> l) = b2n b)
  ∧ pc_fits (mkG (UseFile f') pc').
Proof.
  intros E H He Hl. unfold file_action in H. destruct pc as [| | | | | |n|n| | |]; simplify_eq.
  - split_and!; [done| |]; unfold check_file; destruct (FileRWLockMap t' !! f'); done || by eapply cell_move.
  - split_and!; [by apply entry_AddFileLock| |done]. eapply cell_move; [done|done| |done].
    by destruct (AddFileLock_rest f' t) as [-> _].
  - apply bind_Some in H as (r & _ & H). apply bind_Some in H as (rw & _ & H).
    destruct (snd rw || bool_decide (fst rw ≠ 0)); simplify_eq. split_and!; [done| |done]. by eapply (cell_move t).
  - revert H. set (t1 := match FileRWLockMap t !! f' with Some _ => t | None => AddFileLock f' t end). intros H.
    assert (entry_fixed t1 ∧ locked t1 = locked t) as [He1 Hl1].
    { unfold t1. destruct (FileRWLockMap t !! f'); [done|]. split; [by apply entry_AddFileLock|]. apply AddFileLock_rest. }
    apply bind_Some in H as (r & _ & H). apply bind_Some in H as (rw & _ & H). destruct (snd rw); simplify_eq.
    split_and!; [done| |done]. eapply (cell_move t); [done|done| |done]. cbn. by rewrite Hl1.
Qed.

Lemma cell_inv_step i s s' : lock_step i s = Some s' → cell_inv s → cell_inv s'.
Proof.
  unfold lock_step. destruct (lock_panic s); [done|]. intros ([op pc] & E & H)%bind_Some [He Hl Hp Ho]. cbn [g_op] in H.
  destruct (lock_action _ _) as [[[pc' t']|]|] eqn:Ea; simplify_eq; [|by split].
  assert (Forall not_drop (<[i := mkG op pc']> (gs s))) as Ho'.
  { apply Forall_insert; [done|]. by eapply (Forall_lookup_1 _ _ _ _ Ho) in E. }
  pose proof (Forall_lookup_1 _ _ _ _ Hp E) as Hpi.
  unfold lock_action in Ea. cbn [g_op g_pc] in Ea. destruct op as [f' c'|f'|f'].
  - destruct (cell_action_inv _ _ i _ _ _ _ _ E Ea He Hl Hpi) as (? & ? & ?). split; [done..|by apply pcs_insert|done].
  - destruct (file_action_inv _ _ i _ _ _ _ E Ea He Hl) as (? & ? & ?). split; [done..|by apply pcs_insert|done].
  - by eapply (Forall_lookup_1 _ _ _ _ Ho) in E.
Qed.
End cell.

(** ** Mutual exclusion *)

(** Tables in which nothing is held: every entry has a mutex of its own. *)
Record tables_quiet (t : Tables) : Prop := {
  tq_cells : ∀ f c m, find_cell_lock f c t = Some m → m < fresh_id t ∧ locked t !! m = Some false;
  tq_cells_distinct : ∀ f c f' c' m, find_cell_lock f c t = Some m → find_cell_lock f' c' t = Some m → f' = f ∧ c' = c;
  tq_files : ∀ f r, FileRWLockMap t !! f = Some r → r < fresh_id t ∧ rwlocks t !! r = Some (0, false);
  tq_files_distinct : rw_distinct t
}.

Definition no_drop (o : LockOp) : Prop := match o with DropFile _ => False | _ => True end.

Lemma started_total h ops : (∀ o, h (mkG o PStart) = 0) → total h (start_goroutines ops) = 0.
Proof. intros H. induction ops as [|o ops IH]; [done|]. cbn. by rewrite H. Qed.

Lemma started_ops ops : Forall no_drop ops → Forall not_drop (start_goroutines ops).
Proof. intros H. unfold start_goroutines. rewrite Forall_fmap. eapply Forall_impl; [done|]. by intros []. Qed.

Lemma started_rw t ops : tables_quiet t → Forall no_drop ops → rw_inv (mkLS t (start_goroutines ops) false).
Proof.
  intros [_ _ Hf Hd] Ho. split; cbn [tables gs]; [|done|by apply started_ops]. intros f.
  rewrite !started_total by (by intros []). destruct (FileRWLockMap t !! f) as [r|] eqn:E; [|done].
  destruct (Hf f r E) as [Hr Hw]. split; [done|]. by exists false.
Qed.

Lemma started_cell t ops f c m : tables_quiet t → Forall no_drop ops → find_cell_lock f c t = Some m →
  cell_inv f c m (mkLS t (start_goroutines ops) false).
Proof.
  intros [Hc Hd _ _] Ho E. destruct (Hc f c m E) as [Hm Hl]. split; cbn [tables gs].
  - split; [done|]. intros f' c'. split; [by apply Hd|by intros [-> ->]].
  - exists false. split; [done|]. by apply started_total.
  - unfold start_goroutines. rewrite Forall_fmap. apply Forall_forall. by intros [].
  - by apply started_ops.
Qed.

(** The lock of a file excludes everyone else: while a goroutine is between
    [LockFile] and [UnlockFile], no other one is, and no goroutine is in the
    critical section of a cell (or of the meta cell) of that file, whatever the
    interleaving and whether or not the locks existed before. *)
Theorem file_lock_exclusive t ops sched s i j gi gj f :
  tables_quiet t → Forall no_drop ops → lock_run sched (mkLS t (start_goroutines ops) false) = Some s →
  gs s !! i = Some gi → gs s !! j = Some gj →
  in_file f gi → (in_file f gj → i = j) ∧ ∀ c, ~ in_cell f c gj.
Proof.
  intros Ht Ho Hr Ei Ej [Ho1 Hp1].
  destruct (lock_run_inv rw_inv sched _ _ rw_inv_step Hr (started_rw t ops Ht Ho)) as [Hc _ _]. specialize (Hc f).
  assert (writes f gi = 1) as Hwi. { unfold writes. rewrite Ho1, Hp1. by rewrite decide_True. }
  pose proof (sum_list_with_ge (writes f) _ i gi Ei) as Hge.
  destruct (FileRWLockMap (tables s) !! f) as [r|]; [|lia]. destruct Hc as (_ & w & _ & Hw & Hx). split.
  - intros [Ho2 Hp2]. assert (writes f gj = 1) as Hwj. { unfold writes. rewrite Ho2, Hp2. by rewrite decide_True. }
    eapply (sum_list_with_unique (writes f)); [done..|lia|lia|]. rewrite Hw. destruct w; cbn; lia.
  - intros c [Ho2 Hp2]. assert (reads f gj = 1) as Hrj.
    { unfold reads. rewrite Ho2. destruct (g_pc gj); try done. by rewrite decide_True. }
    pose proof (sum_list_with_ge (reads f) _ j gj Ej). destruct w; [|cbn in Hw; lia]. specialize (Hx eq_refl). lia.
Qed.

(** C36. Two goroutines are never in the critical section of the same cell at the same time,
    provided the cell's lock existed when they started, no lock was held then, and none of
    the goroutines drops the locks of a file ([no_drop]). [DeleteForever] does drop them
    while they may be held, and then two goroutines can be inside ([drop_breaks_exclusion]).
    *)
Theorem cell_lock_exclusive t ops sched s i j gi gj f c m :
  tables_quiet t → Forall no_drop ops → find_cell_lock f c t = Some m →
  lock_run sched (mkLS t (start_goroutines ops) false) = Some s →
  gs s !! i = Some gi → gs s !! j = Some gj → in_cell f c gi → in_cell f c gj → i = j.
Proof.
  intros Ht Ho Hm Hr Ei Ej [Ho1 Hp1] [Ho2 Hp2].
  destruct (lock_run_inv (cell_inv f c m) sched _ _ (cell_inv_step f c m) Hr (started_cell t ops f c m Ht Ho Hm))
    as [_ (b & _ & Hb) Hp _].
  assert (∀ k g, gs s !! k = Some g → g_op g = UseCell f c → match g_pc g with PHeld _ => True | _ => False end →
    holds m g = 1) as Hh.
  { intros k g Ek Hog Hpg. pose proof (Forall_lookup_1 _ _ _ _ Hp Ek) as Hfit. unfold pc_fits in Hfit. unfold holds.
    destruct (g_pc g); try done. by rewrite decide_True by (by apply Hfit). }
  eapply (sum_list_with_unique (holds m)); [done|done| | |rewrite Hb; destruct b; cbn; lia].
  - rewrite (Hh i gi Ei Ho1 Hp1). lia.
  - rewrite (Hh j gj Ej Ho2 Hp2). lia.
Qed.

(** ** Examples *)
Definition cell_of_a : string := cell_key 1 2.

(** A table with one file and the lock of one of its cells. *)
Definition table_one : Tables := mkTables {[ "a" := {[ cell_of_a := 1 ]} ]} {[ "a" := 0 ]} {[ 1 := false ]} {[ 0 := (0, false) ]} 2.

Lemma find_table_one f c m : find_cell_lock f c table_one = Some m → f = "a" ∧ c = cell_of_a ∧ m = 1.
Proof.
  unfold find_cell_lock, table_one. cbn [FileLockMap]. intros (cells & [<- <-]%lookup_singleton_Some & E)%bind_Some.
  by apply lookup_singleton_Some in E as [<- <-].
Qed.

Lemma table_one_quiet : tables_quiet table_one.
Proof.
  split.
  - intros f c m (-> & -> & ->)%find_table_one. split; [cbn; lia|reflexivity].
  - intros f c f' c' m (-> & -> & _)%find_table_one (-> & -> & _)%find_table_one. done.
  - intros f r Hf. cbn [FileRWLockMap table_one] in Hf. apply lookup_singleton_Some in Hf as [<- <-].
    split; [cbn; lia|reflexivity].
  - intros f f' r Hf Hf'. cbn [FileRWLockMap table_one] in Hf, Hf'. apply lookup_singleton_Some in Hf as [<- _].
    by apply lookup_singleton_Some in Hf' as [<- _].
Qed.

Definition pcs (s : LockState) : list Pc := g_pc <$> gs s.

Lemma file_lock_exclusive_witness : ∃ s,
  lock_run [0; 1; 0; 1] (mkLS table_one (start_goroutines [UseFile "a"; UseCell "a" cell_of_a]) false) = None
  ∧ lock_run [0; 1; 0] (mkLS table_one (start_goroutines [UseFile "a"; UseCell "a" cell_of_a]) false) = Some s
  ∧ ∀ c, ~ in_cell "a" c (mkG (UseCell "a" cell_of_a) PReady).
Proof.
  eexists. split; [vm_compute; reflexivity|]. split; [reflexivity|].
  refine (proj2 (file_lock_exclusive table_one [UseFile "a"; UseCell "a" cell_of_a] [0; 1; 0] _ 0 1
    (mkG (UseFile "a") PFile) (mkG (UseCell "a" cell_of_a) PReady) "a" table_one_quiet _ eq_refl _ _ _)).
  - repeat constructor.
  - reflexivity.
  - reflexivity.
  - split; reflexivity.
Defined.

(** The second goroutine finds no lock after the file was dropped, makes one and enters while
    the first one is inside. *)
Example drop_breaks_exclusion :
  pcs <$> lock_run [0; 0; 0; 0; 2; 1; 1; 1; 1; 1; 1; 1]
    (mkLS table_one (start_goroutines [UseCell "a" cell_of_a; UseCell "a" cell_of_a; DropFile "a"]) false)
  = Some [PHeld 1; PHeld 3; PDone].
Proof. vm_compute. reflexivity. Qed.

Lemma cell_lock_exclusive_witness : ∃ s,
  lock_run [0; 1; 0; 1; 0; 1; 0] (mkLS table_one (start_goroutines [UseCell "a" cell_of_a; UseCell "a" cell_of_a]) false) = Some s
  ∧ pcs s = [PHeld 1; PWait 1]
  ∧ ∀ i j gi gj, gs s !! i = Some gi → gs s !! j = Some gj → in_cell "a" cell_of_a gi → in_cell "a" cell_of_a gj → i = j.
Proof.
  eexists. split; [reflexivity|]. split; [reflexivity|]. intros i j gi gj.
  apply (cell_lock_exclusive table_one [UseCell "a" cell_of_a; UseCell "a" cell_of_a] [0; 1; 0; 1; 0; 1; 0] _ i j gi gj
    "a" cell_of_a 1 table_one_quiet).
  - repeat constructor.
  - reflexivity.
  - reflexivity.
Defined.

(** The first use of a cell is not protected: [LockCell] looks the mutex up
    outside [FileLock], so two goroutines that both find none create one each.
    Both are then in the critical section at the same time, and the second one
    to leave unlocks a mutex that is not locked, which is fatal. *)
Theorem first_use_race :
  (∃ s, lock_run [0; 1; 0; 1; 0; 1; 0; 0; 0; 1; 1; 1]
      (mkLS (AddFileLock "a" empty_tables) (start_goroutines [UseCell "a" cell_of_a; UseCell "a" cell_of_a]) false) = Some s
     ∧ pcs s = [PHeld 1; PHeld 2])
  ∧ lock_panic <$> lock_run [0; 1; 0; 1; 0; 1; 0; 0; 0; 1; 1; 1; 0; 1]
      (mkLS (AddFileLock "a" empty_tables) (start_goroutines [UseCell "a" cell_of_a; UseCell "a" cell_of_a]) false)
    = Some true.
Proof. split; [eexists; split|]; vm_compute; reflexivity. Qed.

(** Deleting a file while a cell of it is in use makes the unlock panic. *)
Theorem delete_while_used :
  lock_panic <$> lock_run [0; 0; 0; 0; 1; 0]
    (mkLS table_one (start_goroutines [UseCell "a" cell_of_a; DropFile "a"]) false) = Some true.
Proof. vm_compute. reflexivity. Qed.
