(* ===== verification/GdocModel.v ===== *)
(** GdocModel: the data of the gDoc backend.

    Source: gDoc_backend/model/{sheet.go, model.go, update.go, flexint.go}.

    A float64 is its bit pattern, an [interface{}] the value it holds ([Any]).
    Pointers to structs are options.  [Chart] and [Image], of which the backend
    reads no field, are values of [Any]. *)
From Stdlib Require Import ZArith Lia Ascii.
From stdpp Require Import gmap strings list sorting.
From S2P Require Import Prelude.
From S2P Require Import GoStd.
Open Scope Z_scope.

Record Float64 := F64 { f64_bits : Z }.
#[export] Instance Float64_eq_dec : EqDecision Float64.
Proof. solve_decision. Defined.

#[warnings="-register-all"]
Inductive Any :=
| ANil
| ABool (b : bool)
| AInt (z : Z)          (* an int, which no JSON decoding produces *)
| AFloat (f : Float64)
| AStr (s : string)
| AArr (l : list Any)
| AObj (l : list (string * Any)).

(** ** sheet.go *)
Record MergeCell := mkMergeCell { mc_C : Z; mc_Cs : Z; mc_R : Z; mc_Rs : Z }.

Record PS := mkPS { ps_Height : Z; ps_Width : Z; ps_Left : Z; ps_Top : Z; ps_IsShow : bool; ps_Value : string }.

Record InlineText := mkInlineText {
  it_Bl : Z; it_Cl : Z; it_Fc : string; it_Ff : string; it_Fs : Any; it_It : Z; it_Un : Z; it_V : string }.

Record CellType := mkCellType { ct_Fa : string; ct_S : list InlineText; ct_T : string }.

Record CellValue := mkCellValue {
  cv_Bg : string; cv_Bl : Z; cv_Cl : Z; cv_Ct : option CellType; cv_F : string; cv_Fc : string; cv_Ff : string;
  cv_Fs : Any; cv_It : Z; cv_M : string; cv_Mc : option MergeCell; cv_Tb : string; cv_Tr : Any; cv_V : Any;
  cv_Ht : Any; cv_Vt : Any; cv_Rt : Any; cv_Ps : option PS }.

Definition zero_CellValue : CellValue :=
  mkCellValue "" 0 0 None "" "" "" ANil 0 "" None "" ANil ANil ANil ANil ANil None.

(** [FlexInt] is an int with a JSON decoder of its own. *)
Record Cell := mkCell { c_C : Z; c_R : Z; c_V : CellValue }.
Definition zero_Cell : Cell := mkCell 0 0 zero_CellValue.

Record BorderValueStyle := mkBorderValueStyle { bs_Color : string; bs_Style : Z }.
Record IntRange := mkIntRange { ir_Column : list Z; ir_Row : list Z }.
Record BorderValue := mkBorderValue {
  bv_RowIndex : Z; bv_ColIndex : Z; bv_B : BorderValueStyle; bv_L : BorderValueStyle; bv_R : BorderValueStyle;
  bv_T : BorderValueStyle }.
Record Border := mkBorder {
  bd_BorderType : string; bd_Color : string; bd_Range : list IntRange; bd_RangeType : string; bd_Style : string;
  bd_Value : BorderValue }.

Record SheetViewZoom := mkSheetViewZoom { vz_Layout : Float64; vz_Normal : Float64; vz_Page : Float64 }.

Record ConfigMerge := mkConfigMerge { cm_C : Z; cm_Cs : Z; cm_R : Z; cm_Rs : Z }.

Record SheetConfig := mkSheetConfig {
  cfg_BorderInfo : list Border; cfg_Columnlen : gmap string Float64; cfg_CurentsheetView : string;
  cfg_CustomHeight : gmap string Float64; cfg_CustomWidth : gmap string Float64; cfg_Merge : gmap string ConfigMerge;
  cfg_Rowhidden : gmap string Float64; cfg_Colhidden : gmap string Float64; cfg_Rowlen : gmap string Float64;
  cfg_SheetViewZoom : SheetViewZoom; cfg_Authority : Any }.

Definition zero_float : Float64 := F64 0.
(** [new(model.SheetConfig)] *)
Definition zero_SheetConfig : SheetConfig :=
  mkSheetConfig [] ∅ "" ∅ ∅ ∅ ∅ ∅ ∅ (mkSheetViewZoom zero_float zero_float zero_float) ANil.

Record Filter := mkFilter {
  fl_Text : string; fl_Type : string; fl_Value : string; fl_Cindex : Float64; fl_Edc : Float64; fl_Edr : Float64;
  fl_Optionstate : bool; fl_Rowhidden : gmap string Float64; fl_Stc : Float64; fl_Str : Float64 }.

Record FilterSelect := mkFilterSelect {
  fs_Column : list Float64; fs_Row : list Float64; fs_ColumnFocus : Float64; fs_Height : Float64;
  fs_HeightMove : Float64; fs_Left : Float64; fs_LeftMove : Float64; fs_RowFocus : Float64; fs_Top : Float64;
  fs_TopMove : Float64; fs_Width : Float64; fs_WidthMove : Float64 }.

Record SelectSave := mkSelectSave {
  sv_Column : list Float64; sv_ColumnFocus : Float64; sv_Height : Float64; sv_HeightMove : Float64; sv_Left : Float64;
  sv_LeftMove : Float64; sv_Row : list Float64; sv_RowFocus : Float64; sv_Top : Float64; sv_TopMove : Float64;
  sv_Width : Float64; sv_WidthMove : Float64 }.

Record Colors := mkColors { col_Bc : string; col_Fc : string }.
Record AlternateFormatSave := mkAlternateFormatSave {
  af_Cellrange : IntRange; af_Foot : Colors; af_Head : Colors; af_One : Colors; af_Two : Colors;
  af_HasRowFooter : bool; af_HasRowHeader : bool }.

Record ConditionFormatSave := mkConditionFormatSave {
  cf_Cellrange : list IntRange; cf_ConditionName : string; cf_ConditionRange : list IntRange;
  cf_ConditionValue : list Z; cf_Format : Any; cf_Type : string }.

Record Frozen := mkFrozen { fz_ColumnFocus : Z; fz_RowFocus : Z; fz_Type : string }.

Record PivotField := mkPivotField { pf_Fullname : string; pf_Index : Z; pf_Name : string }.
Record PivotValue := mkPivotValue {
  pv_Fullname : string; pv_Index : Z; pv_Name : string; pv_Nameindex : Z; pv_Sumtype : string }.
Record PivotTable := mkPivotTable {
  pt_Column : list PivotField; pt_DrawPivotTable : bool; pt_Filter : list Any; pt_PivotDataSheetIndex : Z;
  pt_PivotDatas : list (list Z); pt_PivotTableBoundary : list Z; pt_PivotSelectSave : IntRange;
  pt_Row : list PivotField; pt_ShowType : string; pt_Values : list PivotValue }.

Record CalcChain := mkCalcChain {
  cc_C : Z; cc_Color : string; cc_Func : list Any; cc_Index : string; cc_Parent : Any; cc_R : Z; cc_Times : Z }.

Record DynamicArray := mkDynamicArray { da_C : Z; da_Data : list (list Z); da_F : string; da_R : Z }.

(** ** model.go *)
Record Sheet := mkSheet {
  sh_CalcChain : list CalcChain; sh_Celldata : list Cell; sh_ChWidth : Z; sh_Column : Z;
  sh_Config : option SheetConfig; sh_Index : string; sh_Color : string; sh_SelectSave : list SelectSave;
  sh_Name : string; sh_Order : Z; sh_RhHeight : Z; sh_Row : Z; sh_ScrollLeft : Z; sh_ScrollTop : Z;
  sh_Status : Z; sh_ShowGridLines : Z; sh_ZoomRatio : Float64; sh_Filter : gmap string Filter;
  sh_FilterSelect : option FilterSelect; sh_Images : Any; sh_AlternateFormatSave : list AlternateFormatSave;
  sh_AlternateFormatSaveModelCustom : list (gmap string Colors); sh_ConditionFormatSave : list ConditionFormatSave;
  sh_Frozen : option Frozen; sh_Chart : list Any; sh_Image : list Any; sh_IsPivotTable : bool;
  sh_PivotTable : option PivotTable; sh_DynamicArray : list DynamicArray }.

Definition zero_Sheet : Sheet :=
  mkSheet [] [] 0 0 None "" "" [] "" 0 0 0 0 0 0 0 zero_float ∅ None ANil [] [] [] None [] [] false None [].

(** The sheet a new file starts with. *)
Definition new_Sheet (filename : string) (status : Z) : Sheet :=
  mkSheet [] [] 0 0 None ("index_" +:+ filename) "" [] filename 0 0 0 0 0 status 0 zero_float ∅ None ANil [] [] []
    None [] [] false None [].

(** ** update.go *)
Record UpdateV := mkUpdateV { uv_Cell : Cell; uv_I : string; uv_T : string }.
Record UpdateRV := mkUpdateRV { rv_I : string; rv_Range : IntRange; rv_T : string; rv_V : list (list CellValue) }.
Record UpdateCG := mkUpdateCG { cg_T : string; cg_I : string; cg_K : string; cg_V : Any }.
Record UpdateCommon := mkUpdateCommon { uc_T : string; uc_I : string; uc_K : string; uc_V : Any }.
Record UpdateCalcChain := mkUpdateCalcChain { ucc_I : string; ucc_Op : string; ucc_Pos : Z; ucc_T : string; ucc_V : string }.

(** A Time is the instant in nanoseconds. *)
Record Log := mkLog { lg_File : string; lg_User : string; lg_V : Cell; lg_Old : Cell; lg_Time : Z }.

(** ** flexint.go *)

(** json.Unmarshal into an int and into a string. *)
Class JsonScalars := { json_int : list ascii → option Z; json_string : list ascii → option string }.

(** [None] is the panic of [b[0]]; otherwise the new value or an error. *)
Definition FlexInt_UnmarshalJSON {JS : JsonScalars} (fi : Z) (b : list ascii) : option (option Z) :=
  match b with
  | [] => None
  | c :: _ =>
      if decide (c ≠ "034"%char) then Some (json_int b)
      else match json_string b with
           | None => Some None
           | Some s => if decide (s = "") then Some (Some 0) else Some (Atoi s)
           end
  end.

(** The same for a float64, with strconv.ParseFloat. *)
Class FloatScalars := { json_float : list ascii → option Float64; ParseFloat : string → option Float64 }.

(** No case for the empty string here. *)
Definition FlexFloat_UnmarshalJSON {JS : JsonScalars} {FS : FloatScalars} (fi : Float64) (b : list ascii) : option (option Float64) :=
  match b with
  | [] => None
  | c :: _ =>
      if decide (c ≠ "034"%char) then Some (json_float b)
      else match json_string b with
           | None => Some None
           | Some s => Some (ParseFloat s)
           end
  end.

(** A quoted empty string is the int 0 but, as ParseFloat rejects it, not a float. *)
Lemma flex_empty_string {JS : JsonScalars} {FS : FloatScalars} fi ff b :
  head b = Some "034"%char → json_string b = Some "" → ParseFloat "" = None →
  FlexInt_UnmarshalJSON fi b = Some (Some 0) ∧ FlexFloat_UnmarshalJSON ff b = Some None.
Proof.
  destruct b as [|c b]; [done|]. intros [= ->] Hs Hf. unfold FlexInt_UnmarshalJSON, FlexFloat_UnmarshalJSON.
  rewrite decide_False by (by intros ?). rewrite Hs, Hf. by rewrite decide_True.
Qed.

(** ** model.go: cells and Format *)
Definition IsInlineCell (cell : Cell) : option string :=
  match cv_V (c_V cell), cv_Ct (c_V cell) with
  | ANil, Some ct => if decide (ct_T ct = "inlineStr") then it_V <$> head (ct_S ct) else None
  | _, _ => None
  end.

(** [== nil], [== 0] (an int) or [== ""]. *)
Definition IsEmptyCell (cell : Cell) : bool :=
  let v := match IsInlineCell cell with Some v => AStr v | None => cv_V (c_V cell) end in
  match v with
  | ANil => true
  | AInt z => bool_decide (z = 0)
  | AStr s => bool_decide (s = "")
  | _ => false
  end.

Record FormatSheet := mkFormatSheet {
  fmt_Fields : list string; fmt_Types : list string; fmt_Descs : list string; fmt_Content : list (gmap string Any) }.

(** The order of [sort.SliceStable]: by column, then by row. *)
Definition cell_before (a b : Cell) : Prop := c_C a < c_C b ∨ c_C a = c_C b ∧ c_R a < c_R b.
#[export] Instance cell_before_dec a b : Decision (cell_before a b).
Proof. unfold cell_before. apply _. Defined.

Fixpoint insert_cell (x : Cell) (l : list Cell) : list Cell :=
  match l with
  | [] => [x]
  | y :: l' => if decide (cell_before x y) then x :: l else y :: insert_cell x l'
  end.
Definition sort_cells (l : list Cell) : list Cell := foldr insert_cell [] (rev l).

(** The head of the table, rows 0 to 2. *)
Record Head := mkHead { hd_fields : list string; hd_types : list string; hd_descs : gmap Z string }.

Definition ws : list ascii := ["013"; "009"; "010"; " "]%char.
Definition ws_type : list ascii := ["013"; "009"; "010"]%char.

(** [None]: the error branch of an unknown type. *)
Definition head_cell (h : Head) (cell : Cell) : option Head :=
  if bool_decide (c_R cell < 2) && IsEmptyCell cell then Some h else
  match cv_V (c_V cell) with
  | AStr s =>
      if decide (c_R cell = 0) then Some (mkHead (hd_fields h ++ [Trim s ws]) (hd_types h) (hd_descs h))
      else if decide (c_R cell = 1) then
        let t := Trim s ws_type in
        if decide (t ≠ "string" ∧ t ≠ "int") then None
        else Some (mkHead (hd_fields h) (hd_types h ++ [t]) (hd_descs h))
      else if decide (c_R cell = 2) then Some (mkHead (hd_fields h) (hd_types h) (<[c_C cell := s]> (hd_descs h)))
      else Some h
  | _ => Some h
  end.

Fixpoint read_head (h : Head) (cells : list Cell) : option Head :=
  match cells with
  | [] => Some h
  | c :: cells' => match head_cell h c with None => None | Some h' => read_head h' cells' end
  end.

(** The rows; a row is started only when all the rows before it exist.
    [None] is an index out of range (a negative row). *)
Fixpoint read_content (fieldCount : nat) (content : list (gmap Z Any)) (cells : list Cell) : option (list (gmap Z Any)) :=
  match cells with
  | [] => Some content
  | cell :: cells' =>
      if IsEmptyCell cell || bool_decide (Z.of_nat fieldCount <= c_C cell) then read_content fieldCount content cells'
      else if bool_decide (Z.of_nat (length content) < c_R cell) then read_content fieldCount content cells'
      else
        let content := if bool_decide (Z.of_nat (length content) <= c_R cell) then content ++ [∅] else content in
        if decide (c_R cell < 0) then None
        else
          row ← content !! Z.to_nat (c_R cell);
          read_content fieldCount (<[Z.to_nat (c_R cell) := <[c_C cell := cv_V (c_V cell)]> row]> content) cells'
  end.

(** One row as a map from the names of the fields. *)
Definition format_row (fields types : list string) (columns : gmap Z Any) : gmap string Any :=
  foldl (λ m kf,
    let '(k, field) := kf : nat * string in
    let val := match types !! k with
               | Some t => if decide (t = "string") then AStr "" else AInt 0
               | None => ANil
               end in
    <[field := default val (columns !! Z.of_nat k)]> m) ∅ (imap pair fields).

(** The result and the sheet with its cells sorted; the error is always nil,
    a nil result stands for every failure.  The outer [None] is a panic. *)
Definition Format (s : Sheet) : option (option FormatSheet) :=
  let cells := sort_cells (sh_Celldata s) in
  match read_head (mkHead [] [] ∅) cells with
  | None => Some None
  | Some h =>
      let fields := hd_fields h in
      let descs := imap (λ i _, default "" (hd_descs h !! Z.of_nat i)) fields in
      let fieldCount := length fields in
      if decide (fieldCount ≠ length (hd_types h) ∨ fieldCount ≠ length descs ∨ fieldCount = 0%nat) then Some None
      else
        content ← read_content fieldCount [] cells;
        if decide (length content < 3)%nat then Some None
        else Some (Some (mkFormatSheet fields (hd_types h) descs
                           (format_row fields (hd_types h) <$> drop 3 content)))
  end.

(** ** Format *)
Lemma sort_cells_perm l : sort_cells l ≡ₚ l.
Proof.
  assert (∀ x l, insert_cell x l ≡ₚ x :: l) as Hi.
  { intros x l'. induction l' as [|y l' IH]; cbn [insert_cell]; [done|]. case_decide; [done|]. rewrite IH. constructor. }
  unfold sort_cells. rewrite <- (rev_involutive l) at 2. generalize (rev l). intros l'.
  rewrite <- Permutation_rev. induction l' as [|x l' IH]; [done|]. cbn [foldr]. by rewrite Hi, IH.
Qed.

Definition good_type (t : string) : Prop := t = "string" ∨ t = "int".

Lemma read_head_types cells h h' : read_head h cells = Some h' → Forall good_type (hd_types h) → Forall good_type (hd_types h').
Proof.
  revert h. induction cells as [|c cells IH]; intros h; cbn [read_head]; [by intros [= ->]|].
  destruct (head_cell h c) as [h1|] eqn:E; [|done]. intros H Hh. apply (IH h1 H). clear IH H.
  unfold head_cell in E. repeat case_match; simplify_eq; try done. cbn [hd_types].
  apply Forall_app. split; [done|]. constructor; [|done]. unfold good_type.
  clear H3. destruct (decide (Trim s ws_type = "string")), (decide (Trim s ws_type = "int")); tauto.
Qed.

Lemma read_content_total n cells content : Forall (λ c, 0 <= c_R c) cells → ∃ content', read_content n content cells = Some content'.
Proof.
  revert content. induction cells as [|c cells IH]; intros content Hall; cbn [read_content]; [by eexists|].
  apply Forall_cons in Hall as [Hc Hall]. destruct (IsEmptyCell c || bool_decide (Z.of_nat n <= c_C c)); [by apply IH|].
  case_bool_decide as H1; [by apply IH|]. rewrite decide_False by lia. case_bool_decide as H2.
  - rewrite lookup_app_r by lia. replace (Z.to_nat (c_R c) - length content)%nat with 0%nat by lia. by apply IH.
  - destruct (lookup_lt_is_Some_2 content (Z.to_nat (c_R c))) as [row ->]; [lia|]. by apply IH.
Qed.

Lemma snd_imap_pair {A} (l : list A) : (imap pair l).*2 = l.
Proof. rewrite fmap_imap. rewrite <- (list_fmap_id l) at 2. rewrite <- imap_const. done. Qed.

Lemma format_row_dom fields types columns : dom (format_row fields types columns) = list_to_set fields.
Proof.
  unfold format_row. rewrite <- (snd_imap_pair fields) at 2. generalize (imap pair fields). intros l.
  rewrite <- (union_empty_r_L (list_to_set l.*2)). rewrite <- (dom_empty_L (D := gset string) (A := Any)).
  generalize (∅ : gmap string Any). induction l as [|[k f] l IH]; intros m; cbn [foldl fmap list_fmap list_to_set].
  - by rewrite union_empty_l_L.
  - rewrite IH, dom_insert_L. rewrite (assoc_L (∪)), (comm_L (∪) (list_to_set l.*2) {[f]}). done.
Qed.

(** A sheet whose rows are not negative is formatted without a panic, and a
    table that comes out is regular: as many types and descriptions as fields
    and at least one, only the types [string] and [int], and every row has a
    value for exactly the fields. *)
Theorem format_table (s : Sheet) :
  Forall (λ c, 0 <= c_R c) (sh_Celldata s) →
  ∃ r, Format s = Some r
    ∧ ∀ t, r = Some t →
        length (fmt_Types t) = length (fmt_Fields t) ∧ length (fmt_Descs t) = length (fmt_Fields t)
        ∧ fmt_Fields t ≠ [] ∧ Forall good_type (fmt_Types t)
        ∧ Forall (λ row, dom row = list_to_set (C := gset string) (fmt_Fields t)) (fmt_Content t).
Proof.
  intros Hall. unfold Format. destruct (read_head _ _) as [h|] eqn:Eh; [|by eexists].
  case_decide as Hc; [by eexists|].
  destruct (read_content_total (length (hd_fields h)) (sort_cells (sh_Celldata s)) []) as [content ->].
  { by rewrite sort_cells_perm. }
  cbn [mbind option_bind]. case_decide; [by eexists|]. eexists. split; [reflexivity|]. intros t [= <-].
  cbn [fmt_Types fmt_Fields fmt_Descs fmt_Content]. split_and!.
  - lia.
  - by rewrite length_imap.
  - intros E. rewrite E in Hc. cbn in Hc. lia.
  - by eapply read_head_types; [done|constructor].
  - apply Forall_fmap, Forall_forall. intros row _. apply format_row_dom.
Qed.

(** ** A concrete table *)
Definition text_cell (r c : Z) (v : string) : Cell :=
  mkCell c r (mkCellValue "" 0 0 None "" "" "" ANil 0 "" None "" ANil (AStr v) ANil ANil ANil None).

Definition example_sheet : Sheet :=
  mkSheet [] [text_cell 3 0 "1"; text_cell 0 0 " id "; text_cell 1 0 "int"; text_cell 2 0 "key"; text_cell 0 1 "name";
              text_cell 1 1 "string"; text_cell 2 1 "who"]
    0 0 None "" "" [] "" 0 0 0 0 0 0 0 zero_float ∅ None ANil [] [] [] None [] [] false None [].

Lemma format_table_witness :
  ∃ t, Format example_sheet = Some (Some t) ∧ fmt_Fields t = ["id"; "name"]
    ∧ Forall (λ row, dom row = list_to_set (C := gset string) (fmt_Fields t)) (fmt_Content t).
Proof.
  assert (Forall (λ c, 0 <= c_R c) (sh_Celldata example_sheet)) as Hall by (repeat constructor; cbn; lia).
  destruct (format_table example_sheet Hall) as (r & Er & Hr).
  destruct r as [t|]; [|vm_compute in Er; discriminate Er].
  exists t. split; [exact Er|]. destruct (Hr t eq_refl) as (_ & _ & _ & _ & Hd). split; [|exact Hd].
  vm_compute in Er. injection Er as <-. reflexivity.
Defined.

(** A failed conversion is not an error: [Format] returns a nil sheet with a
    nil error for an unknown column type. *)
Example format_error_is_nil :
  Format (mkSheet [] [text_cell 0 0 "id"; text_cell 1 0 "float"] 0 0 None "" "" [] "" 0 0 0 0 0 0 0 zero_float ∅ None ANil
            [] [] [] None [] [] false None []) = Some None.
Proof. reflexivity. Qed.

(** A decoded number is a float64, so a cell that holds the number zero is not
    empty: the comparison with the int 0 never holds for it. *)
Example zero_cell_not_empty : IsEmptyCell (mkCell 0 0 (mkCellValue "" 0 0 None "" "" "" ANil 0 "" None "" ANil
  (AFloat zero_float) ANil ANil ANil None)) = false.
Proof. reflexivity. Qed.
