(* ===== verification/GdocFs.v ===== *)
(** GdocFs: the file layer of the gDoc backend.

    Source: gDoc_backend/fs/{api.go, client.go}.

    [SheetFs] is what the backend uses of the sheetfs client library, and
    [SheetFsLaws] what it relies on: the specification that FileSystem.v proves of
    clients, master and data nodes.  [sheetfs_laws] discharges it. *)
From Stdlib Require Import ZArith Lia Strings.Byte.
From stdpp Require Import gmap strings list.
From S2P Require Import Prelude.
From S2P Require Import DataNode.
From S2P Require Import DataNodeAlloc.
From S2P Require Import MasterData.
From S2P Require Import SheetFile.
From S2P Require Import SheetFileSpec.
From S2P Require Import JournalEntry.
From S2P Require Import CommonJournal.
From S2P Require Import FileMgr.
From S2P Require Import MasterServer.
From S2P Require Import FsClient.
From S2P Require Import EndToEnd.
From S2P Require Import FsCalls.
From S2P Require Import SheetRead.
From S2P Require Import FileSystem.
Open Scope Z_scope.

Definition comma : byte := x2c.
Definition blank : byte := x20.

(** The backend pads with blanks. *)
#[export] Instance blank_pad : PadOk := λ b, b = blank.

(** ** The interface *)
Class SheetFs (S : Type) := {
  sf_Create : string → GoM S (result ClientError File);
  sf_Open : string → GoM S (result ClientError File);
  sf_Delete : string → GoM S (result ClientError unit);
  sf_ReadAt : File → list byte → Z → Z → GoM S (result ClientError (Z * list byte));
  sf_WriteAt : File → list byte → Z → Z → list byte → GoM S (result ClientError Z);
  sf_Read : File → GoM S (list byte * Z * option ClientError)
}.

(** The store behaves as the map of [FileSystem]; [n] bounds the versions
    handed out so far. *)
Class SheetFsLaws (S : Type) {F : SheetFs S} := {
  sf_rel : S → Fs → Z → Prop;
  sf_Create_ok : ∀ s a n name, sf_rel s a n → 0 <= n < 2 ^ 64 - 1 →
    ∃ r s' a', sf_Create name s = Some (r, s') ∧ fs_step a (OCreate name) (ResFile r) a' ∧ sf_rel s' a' (n + 1);
  sf_Open_ok : ∀ s a n name, sf_rel s a n → 0 <= n < 2 ^ 64 - 1 →
    ∃ r s' a', sf_Open name s = Some (r, s') ∧ fs_step a (OOpen name) (ResFile r) a' ∧ sf_rel s' a' (n + 1);
  sf_ReadAt_ok : ∀ s a n f b row col, sf_rel s a n → 0 <= n < 2 ^ 64 - 1 → is_u32 row → is_u32 col →
    ∃ r s' a', sf_ReadAt f b row col s = Some (r, s') ∧ fs_step a (ORead f b row col) (ResData r) a' ∧ sf_rel s' a' (n + 1);
  sf_WriteAt_ok : ∀ s a n f b row col padding, sf_rel s a n → 0 <= n < 2 ^ 64 - 1 → is_u32 row → is_u32 col →
    pad_ok (default x20 (head padding)) →
    ∃ r s' a', sf_WriteAt f b row col padding s = Some (r, s')
      ∧ fs_step a (OWrite f b row col padding) (ResCount r) a' ∧ sf_rel s' a' (n + 1);
  sf_Read_ok : ∀ s a n f, sf_rel s a n → 0 <= n < 2 ^ 64 - 1 →
    ∃ r s' a', sf_Read f s = Some (r, s') ∧ fs_step a (OReadAll f) (ResSheet r) a' ∧ sf_rel s' a' (n + 1)
}.

(** ** The sheetfs system implements it, as long as it has no faults *)
Section instance.
Context {db : Type} {DB : MetaDB db} {DL : MetaDBLaws db} {K : Type} {KO : Kafka K}.
Context {ME : Codec MasterEntry} {RO : RangeOrder} {WX : Weather db K} (prefix : string).

#[export] Instance sheetfs : SheetFs (Client * Sys db K) := {
  sf_Create := Create sys_zk sys_dial sys_master id;
  sf_Open := Open sys_zk sys_dial sys_master id;
  sf_Delete := Delete sys_zk sys_dial sys_master id;
  sf_ReadAt := sys_ReadAt 1;
  sf_WriteAt := sys_WriteAt 1;
  sf_Read := sys_Read 1
}.

Definition sheetfs_rel (cs : Client * Sys db K) (a : Fs) (n : Z) : Prop := fs_rel prefix cs.2 a n ∧ client_ok prefix cs.1.

Lemma sheetfs_step {CW : Calm WX} cs a n op : sheetfs_rel cs a n → 0 <= n < 2 ^ 64 - 1 → op_coords op →
  ∃ r cs' a', run_op 1 op cs = Some (r, cs') ∧ fs_step a op r a' ∧ sheetfs_rel cs' a' (n + 1).
Proof.
  destruct cs as [c S]. intros [HR Hc] Hn Hop.
  destruct (step_op prefix S a n c 0 HR ltac:(lia) Hc op Hop) as (r & c' & S' & a' & E & Hs & HR' & Hc').
  exists r, (c', S'), a'. done.
Qed.

(** A call that is wrapped in a constructor of [Res]. *)
Lemma wrapped {A} (m : GoM (Client * Sys db K) A) (k : A → Res) cs r cs' :
  (x ← m; mret (k x)) cs = Some (r, cs') → ∃ x, m cs = Some (x, cs') ∧ r = k x.
Proof. unfold mbind, GoM_bind. destruct (m cs) as [[x s]|]; [|done]. intros [= <- <-]. eauto. Qed.

#[export] Instance sheetfs_laws {CW : Calm WX} : SheetFsLaws (Client * Sys db K).
Proof.
  refine {| sf_rel := sheetfs_rel |}.
  - intros s a n name HR Hn. destruct (sheetfs_step s a n (OCreate name) HR Hn I) as (r & s' & a' & E & Hs & HR').
    apply (wrapped _ ResFile) in E as (x & E & ->). exists x, s', a'. done.
  - intros s a n name HR Hn. destruct (sheetfs_step s a n (OOpen name) HR Hn I) as (r & s' & a' & E & Hs & HR').
    apply (wrapped _ ResFile) in E as (x & E & ->). exists x, s', a'. done.
  - intros s a n f b row col HR Hn Hr Hc.
    destruct (sheetfs_step s a n (ORead f b row col) HR Hn (conj Hr Hc)) as (r & s' & a' & E & Hs & HR').
    apply (wrapped _ ResData) in E as (x & E & ->). exists x, s', a'. done.
  - intros s a n f b row col padding HR Hn Hr Hc Hp.
    destruct (sheetfs_step s a n (OWrite f b row col padding) HR Hn (conj Hr (conj Hc Hp))) as (r & s' & a' & E & Hs & HR').
    apply (wrapped _ ResCount) in E as (x & E & ->). exists x, s', a'. done.
  - intros s a n f HR Hn. destruct (sheetfs_step s a n (OReadAll f) HR Hn I) as (r & s' & a' & E & Hs & HR').
    apply (wrapped _ ResSheet) in E as (x & E & ->). exists x, s', a'. done.
Defined.
End instance.

(** ** api.go *)
Section api.
Context {S : Type} {F : SheetFs S}.

(** The type switch on the error: only an [Invalid] status is translated. *)
Definition map_error (e : ClientError) : ClientError :=
  match e with UnexpectedStatusError Status_Invalid => ErrNotExist | _ => e end.

(** [for i := len(buffer) - 1; i > 0; i--]: the byte at 0 is not looked at. *)
Definition blank_last (buffer : list byte) : list byte :=
  match buffer with [] => [] | b :: rest => b :: blank_last_comma rest end.

(** The number of bytes, the buffer afterwards and the error. *)
Definition api_ReadAt (f : File) (buffer : list byte) (row col : Z) : GoM S (Z * list byte * option ClientError) :=
  r ← sf_ReadAt f buffer row col;
  mret match r with
       | Ok (n, buffer) => (n, blank_last buffer, None)
       | Err (UnexpectedStatusError Status_Invalid) => (-1, buffer, Some ErrNotExist)
       | Err e => (-1, blank_last buffer, Some e)
       end.

(** [buffer[1:]] shares its bytes with [buffer]; the braces are put in place
    also after an error.  [None] for an empty buffer. *)
Definition api_ReadMeta (f : File) (buffer : list byte) : GoM S (Z * list byte * option ClientError) :=
  match buffer with
  | [] => go_panic
  | _ :: rest =>
      r ← sf_ReadAt f rest SheetMetaCellRow SheetMetaCellCol;
      let '(n, rest, err) := match r with
                             | Ok (n, rest) => (n, rest, None)
                             | Err e => (-1, rest, Some (map_error e))
                             end in
      let buffer := x7b :: rest in
      mret (n, <[(length buffer - 1)%nat := x7d]> buffer, err)
  end.

Definition api_WriteAt (f : File) (buffer : list byte) (row col : Z) (padding : list byte) : GoM S (Z * option ClientError) :=
  r ← sf_WriteAt f (buffer ++ [comma]) row col padding;
  mret match r with Ok n => (n, None) | Err e => (-1, Some e) end.

(** [buffer[1:len(buffer)-1]]; [None] when it is shorter than two bytes. *)
Definition api_WriteMeta (f : File) (buffer : list byte) : GoM S (Z * option ClientError) :=
  inner ← go_deref (slice_of 1 (length buffer - 1) buffer);
  r ← sf_WriteAt f inner SheetMetaCellRow SheetMetaCellCol [blank];
  mret match r with Ok n => (n, None) | Err e => (-1, Some e) end.

Definition api_Read (f : File) : GoM S (list byte * Z * option ClientError) :=
  r ← sf_Read f;
  let '(b, n, err) := r in mret (b, n, map_error <$> err).

Definition api_Create (filename : string) : GoM S (result ClientError File) := sf_Create filename.
Definition api_Open (filename : string) : GoM S (result ClientError File) := sf_Open filename.

(** Nothing calls it, and the master panics on it (delete_stops_master of FsCalls.v). *)
Definition api_Delete (filename : string) : GoM S (option ClientError) :=
  r ← sf_Delete filename;
  mret match r with Ok _ => None | Err e => Some e end.

(** [List] of the file layer is a stub. *)
Definition api_List : list string := [].
End api.
