(* ===== verification/GdocHandler.v ===== *)
(** GdocHandler: requests of the gDoc backend.

    Source: gDoc_backend/handler/{persist.go, service.go, handler.go}.

    The state of a request is the sheet file system, the two MongoDB collections
    and the lock tables.  A handler runs in one piece here; Locks.v shows which
    of them exclude each other.  JSON is a parameter with a decoder per type
    ([Json T]); a decoder that fails returns what it had decoded.  MongoDB
    answers as the next element of [mg_faults] says: an error does not tell
    whether the write was applied.  What the log holds is what BSON keeps: times
    in milliseconds, and cells as the driver decodes them ([bson_cell], a
    parameter). *)
From Stdlib Require Import ZArith Lia Strings.Byte.
From stdpp Require Import gmap strings list sorting.
From S2P Require Import Prelude.
From S2P Require Import MasterData.
From S2P Require Import DataNode.
From S2P Require Import FsClient.
From S2P Require Import GoStd.
From S2P Require Import Locks.
From S2P Require Import GdocModel.
From S2P Require Import GdocFs.
Open Scope Z_scope.

(** ** Parameters *)
Class JsonT (T : Type) := {
  jmarshal : T → result string (list byte);
  junmarshal : list byte → T * option string
}.

(** The decoders the handlers use. *)
Class GoJson := {
  #[global] json_Cell :: JsonT Cell;
  #[global] json_Sheet :: JsonT Sheet;
  #[global] json_Any :: JsonT Any;
  #[global] json_Borders :: JsonT (list Border);
  #[global] json_Floats :: JsonT (gmap string Float64);
  #[global] json_Frozen :: JsonT Frozen;
  #[global] json_SheetConfig :: JsonT SheetConfig;
  #[global] json_FilterSelect :: JsonT FilterSelect;
  #[global] json_Filters :: JsonT (gmap string Filter);
  #[global] json_AlternateFormatSaves :: JsonT (list AlternateFormatSave);
  #[global] json_ConditionFormatSaves :: JsonT (list ConditionFormatSave);
  #[global] json_PivotTable :: JsonT PivotTable;
  #[global] json_DynamicArrays :: JsonT (list DynamicArray);
  #[global] json_CalcChain :: JsonT CalcChain;
  #[global] json_UpdateV :: JsonT UpdateV;
  #[global] json_UpdateRV :: JsonT UpdateRV;
  #[global] json_UpdateCG :: JsonT UpdateCG;
  #[global] json_UpdateCommon :: JsonT UpdateCommon;
  #[global] json_UpdateCalcChain :: JsonT UpdateCalcChain;
  json_T : list byte → string          (* the field [t] of a message, "" if there is none *)
}.

(** A cell after it was encoded to BSON and decoded again by the driver; the
    objects in fields of type interface{} come back as ordered documents. *)
Class Bson := bson_cell : Cell → Cell.

(** A datetime of BSON counts milliseconds. *)
Definition bson_time (t : Z) : Z := t / 1000000 * 1000000.

Definition bson_log {BS : Bson} (l : Log) : Log :=
  mkLog (lg_File l) (lg_User l) (bson_cell (lg_V l)) (bson_cell (lg_Old l)) (bson_time (lg_Time l)).

(** What MongoDB's sort guarantees: the documents, latest first. *)
Class LogSort := {
  log_sort : list Log → list Log;
  log_sort_perm : ∀ l, log_sort l ≡ₚ l;
  log_sort_desc : ∀ l, StronglySorted (λ a b, lg_Time b <= lg_Time a) (log_sort l)
}.

Record FileRecord := mkFileRecord { Title : string; IsDeleted : bool }.

(** An answer: success, an error of a call that had no effect, an error of a
    call that was executed. *)
Inductive MongoAnswer := MOk | MLost | MApplied.

Record Mongo := mkMongo { mg_files : list FileRecord; mg_log : list Log; mg_faults : list MongoAnswer }.

Record GState (S : Type) := mkGState { g_fs : S; g_mongo : Mongo; g_locks : Tables }.
Arguments mkGState {S} _ _ _.
Arguments g_fs {S} _.
Arguments g_mongo {S} _.
Arguments g_locks {S} _.

Inductive GError :=
| EFs (e : ClientError)
| EJson (msg : string)
| EMongo
| EDuplicate.

(** A request that runs alone goes through the actions of Locks.v up to [stop];
    being blocked for ever and a panic are both [None]. *)
Fixpoint lock_until (fuel : nat) (act : Pc → Tables → option (option (Pc * Tables))) (stop : Pc → bool) (pc : Pc) (t : Tables)
  : option Tables :=
  if stop pc then Some t else
  match fuel with
  | O => None
  | S fuel' => match act pc t with Some (Some (pc', t')) => lock_until fuel' act stop pc' t' | _ => None end
  end.

Definition at_held (pc : Pc) : bool := match pc with PHeld _ => true | _ => false end.
Definition at_file (pc : Pc) : bool := match pc with PFile => true | _ => false end.
Definition at_done (pc : Pc) : bool := match pc with PDone => true | _ => false end.

Section handlers.
Context {S : Type} {F : SheetFs S} {JS : GoJson} {LS : LogSort} {BS : Bson}.
Abbreviation GM := (GoM (GState S)).

Definition on_fs {A} (m : GoM S A) : GM A :=
  λ s, match m (g_fs s) with Some (a, f) => Some (a, mkGState f (g_mongo s) (g_locks s)) | None => None end.

Definition on_locks (m : Tables → option Tables) : GM () :=
  λ s, match m (g_locks s) with Some t => Some ((), mkGState (g_fs s) (g_mongo s) t) | None => None end.

Definition key_of (row col : Z) : string := cell_key (Z.to_N (u32 row)) (Z.to_N (u32 col)).

Definition LockCell (f : string) (row col : Z) : GM () :=
  on_locks (lock_until 8 (cell_action f (key_of row col)) at_held PStart).
Definition UnlockCell (f : string) (row col : Z) : GM () :=
  on_locks (lock_until 8 (cell_action f (key_of row col)) at_done (PHeld 0)).
Definition LockMeta (f : string) : GM () := LockCell f (2 ^ 32 - 1) (2 ^ 32 - 1).
Definition UnlockMeta (f : string) : GM () := UnlockCell f (2 ^ 32 - 1) (2 ^ 32 - 1).
Definition LockFile (f : string) : GM () := on_locks (lock_until 8 (file_action f) at_file PStart).
Definition UnlockFile (f : string) : GM () := on_locks (lock_until 8 (file_action f) at_done PFile).

(** The next answer of MongoDB. *)
Definition mongo_next : GM MongoAnswer :=
  λ s, let m := g_mongo s in
       Some (default MOk (head (mg_faults m)),
             mkGState (g_fs s) (mkMongo (mg_files m) (mg_log m) (tail (mg_faults m))) (g_locks s)).

Definition get_mongo : GM Mongo := λ s, Some (g_mongo s, s).
Definition put_files (l : list FileRecord) : GM () :=
  λ s, Some ((), mkGState (g_fs s) (mkMongo l (mg_log (g_mongo s)) (mg_faults (g_mongo s))) (g_locks s)).
Definition put_log (l : list Log) : GM () :=
  λ s, Some ((), mkGState (g_fs s) (mkMongo (mg_files (g_mongo s)) l (mg_faults (g_mongo s))) (g_locks s)).

(** A read tells whether it succeeded; a write that fails may have been done. *)
Definition mongo_ok : GM bool :=
  r ← mongo_next; mret match r with MOk => true | _ => false end.
Definition mongo_write (m : GM ()) : GM (option GError) :=
  r ← mongo_next;
  match r with
  | MOk => m;; mret None
  | MLost => mret (Some EMongo)
  | MApplied => m;; mret (Some EMongo)
  end.

(** ** persist.go: cells and the common part *)
Definition decodeCell (f : File) (row col : Z) : GM (Cell * option GError) :=
  r ← on_fs (api_ReadAt f (replicate (Z.to_nat 2048) x00) row col);
  let '(n, buffer, err) := r in
  match err with
  | Some e => mret (zero_Cell, if decide (e = ErrNotExist) then None else Some (EFs e))
  | None =>
      b ← go_deref (slice_of 0 (Z.to_nat n) buffer);
      let '(cell, e) := junmarshal b in
      mret (cell, EJson <$> e)
  end.

Definition encodeCell (f : File) (cell : Cell) : GM (option GError) :=
  match jmarshal cell with
  | Err e => mret (Some (EJson e))
  | Ok buffer =>
      r ← on_fs (api_WriteAt f buffer (u32 (c_R cell)) (u32 (c_C cell)) [blank]);
      mret (EFs <$> snd r)
  end.

Definition decodeCommon (f : File) : GM (Sheet * option GError) :=
  r ← on_fs (api_ReadMeta f (replicate (Z.to_nat 8194) x00));
  let '(_, buffer, err) := r in
  match err with
  | Some e => mret (zero_Sheet, if decide (e = ErrNotExist) then None else Some (EFs e))
  | None => let '(common, e) := junmarshal buffer in mret (common, EJson <$> e)
  end.

Definition encodeCommon (f : File) (common : Sheet) : GM (option GError) :=
  match jmarshal common with
  | Err e => mret (Some (EJson e))
  | Ok buffer => r ← on_fs (api_WriteMeta f buffer); mret (EFs <$> snd r)
  end.

(** The sheet a new file gets: marshalled and written under the meta lock. *)
Definition write_new_sheet (f : File) (filename : string) (sheet : Sheet) : GM (option GError) :=
  match jmarshal sheet with
  | Err e => mret (Some (EJson e))
  | Ok buffer =>
      LockMeta filename;;
      r ← on_fs (api_WriteMeta f buffer);
      UnlockMeta filename;;
      mret (EFs <$> snd r)
  end.

Definition set_Status (z : Z) (s : Sheet) : Sheet :=
  mkSheet (sh_CalcChain s) (sh_Celldata s) (sh_ChWidth s) (sh_Column s) (sh_Config s) (sh_Index s) (sh_Color s)
    (sh_SelectSave s) (sh_Name s) (sh_Order s) (sh_RhHeight s) (sh_Row s) (sh_ScrollLeft s) (sh_ScrollTop s) z
    (sh_ShowGridLines s) (sh_ZoomRatio s) (sh_Filter s) (sh_FilterSelect s) (sh_Images s) (sh_AlternateFormatSave s)
    (sh_AlternateFormatSaveModelCustom s) (sh_ConditionFormatSave s) (sh_Frozen s) (sh_Chart s) (sh_Image s)
    (sh_IsPivotTable s) (sh_PivotTable s) (sh_DynamicArray s).

(** After a [Read] that found nothing, [buffer[:n]] with [n = -1] panics. *)
Definition decodeFile (filename : string) : GM (Sheet * option GError) :=
  r ← on_fs (api_Open filename);
  match r with
  | Err _ =>
      r ← on_fs (api_Create filename);
      match r with
      | Err e => mret (zero_Sheet, Some (EFs e))
      | Ok f =>
          on_locks (λ t, Some (AddFileLock filename t));;
          let sheet := new_Sheet filename 1 in
          e ← write_new_sheet f filename sheet;
          match e with
          | Some e => mret (sheet, Some e)
          | None => mret (set_Status 0 sheet, None)
          end
      end
  | Ok f =>
      LockFile filename;;
      r ← on_fs (api_Read f);
      UnlockFile filename;;
      let '(buffer, n, err) := r in
      if decide (err ≠ None ∧ err ≠ Some ErrNotExist) then mret (zero_Sheet, EFs <$> err)
      else
        b ← (if decide (n < 0) then go_panic else go_deref (slice_of 0 (Z.to_nat n) buffer));
        let '(sheet, e) := junmarshal b in
        mret (sheet, EJson <$> e)
  end.

Definition initSheet (filename : string) : GM (option GError) :=
  r ← on_fs (api_Create filename);
  match r with
  | Err e => mret (Some (EFs e))
  | Ok f =>
      on_locks (λ t, Some (AddFileLock filename t));;
      write_new_sheet f filename (new_Sheet filename 1)
  end.

(** ** service.go: the log *)
Definition logGridValue (filename username : string) (new old : Cell) (now : Z) : GM (option GError) :=
  mongo_write (m ← get_mongo; put_log (mg_log m ++ [bson_log (mkLog filename username new old now)])).

(** ** persist.go: requests *)
Definition persistGridValue (req : UpdateV) (filename username : string) (now : Z) : GM () :=
  r ← on_fs (api_Open filename);
  match r with
  | Err _ => mret ()
  | Ok f =>
      let row := u32 (c_R (uv_Cell req)) in
      let col := u32 (c_C (uv_Cell req)) in
      LockCell filename row col;;
      r ← decodeCell f row col;
      let cell := match snd r with Some _ => zero_Cell | None => fst r end in
      let cell := mkCell (c_C (uv_Cell req)) (c_R (uv_Cell req)) (c_V cell) in
      _ ← logGridValue filename username (uv_Cell req) cell now;
      _ ← encodeCell f (mkCell (c_C cell) (c_R cell) (c_V (uv_Cell req)));
      UnlockCell filename row col
  end.

(** One cell of a range; [req.V[i][j]] panics out of range. *)
Definition multi_cell (req : UpdateRV) (f : File) (filename : string) (row0 col0 : Z) (i j : nat) : GM () :=
  let row := i64 (row0 + Z.of_nat i) in
  let col := i64 (col0 + Z.of_nat j) in
  LockCell filename row col;;
  v ← go_deref (rv_V req !! i ≫= lookup j);
  _ ← encodeCell f (mkCell col row v);
  UnlockCell filename row col.

Definition persistGridMulti (req : UpdateRV) (filename : string) : GM () :=
  r ← on_fs (api_Open filename);
  match r with
  | Err _ => mret ()
  | Ok f =>
      row0 ← go_deref (ir_Row (rv_Range req) !! 0%nat);
      row1 ← go_deref (ir_Row (rv_Range req) !! 1%nat);
      go_for (seq 0 (Z.to_nat (row1 - row0 + 1))) (λ i,
        col0 ← go_deref (ir_Column (rv_Range req) !! 0%nat);
        col1 ← go_deref (ir_Column (rv_Range req) !! 1%nat);
        go_for (seq 0 (Z.to_nat (col1 - col0 + 1))) (λ j, multi_cell req f filename row0 col0 i j))
  end.

(** ** Fields of the common part *)
Definition set_Config (x : option SheetConfig) (s : Sheet) : Sheet :=
    mkSheet (sh_CalcChain s) (sh_Celldata s) (sh_ChWidth s) (sh_Column s) x (sh_Index s) (sh_Color s)
    (sh_SelectSave s) (sh_Name s) (sh_Order s) (sh_RhHeight s) (sh_Row s) (sh_ScrollLeft s) (sh_ScrollTop s)
    (sh_Status s) (sh_ShowGridLines s) (sh_ZoomRatio s) (sh_Filter s) (sh_FilterSelect s) (sh_Images s)
    (sh_AlternateFormatSave s) (sh_AlternateFormatSaveModelCustom s) (sh_ConditionFormatSave s) (sh_Frozen s)
    (sh_Chart s) (sh_Image s) (sh_IsPivotTable s) (sh_PivotTable s) (sh_DynamicArray s).
Definition set_Frozen (x : option Frozen) (s : Sheet) : Sheet :=
    mkSheet (sh_CalcChain s) (sh_Celldata s) (sh_ChWidth s) (sh_Column s) (sh_Config s) (sh_Index s) (sh_Color s)
    (sh_SelectSave s) (sh_Name s) (sh_Order s) (sh_RhHeight s) (sh_Row s) (sh_ScrollLeft s) (sh_ScrollTop s)
    (sh_Status s) (sh_ShowGridLines s) (sh_ZoomRatio s) (sh_Filter s) (sh_FilterSelect s) (sh_Images s)
    (sh_AlternateFormatSave s) (sh_AlternateFormatSaveModelCustom s) (sh_ConditionFormatSave s) x (sh_Chart s)
    (sh_Image s) (sh_IsPivotTable s) (sh_PivotTable s) (sh_DynamicArray s).
Definition set_Celldata (x : list Cell) (s : Sheet) : Sheet :=
  mkSheet (sh_CalcChain s) x (sh_ChWidth s) (sh_Column s) (sh_Config s) (sh_Index s) (sh_Color s)
    (sh_SelectSave s) (sh_Name s) (sh_Order s) (sh_RhHeight s) (sh_Row s) (sh_ScrollLeft s) (sh_ScrollTop s) (sh_Status s)
    (sh_ShowGridLines s) (sh_ZoomRatio s) (sh_Filter s) (sh_FilterSelect s) (sh_Images s) (sh_AlternateFormatSave s)
    (sh_AlternateFormatSaveModelCustom s) (sh_ConditionFormatSave s) (sh_Frozen s) (sh_Chart s) (sh_Image s)
    (sh_IsPivotTable s) (sh_PivotTable s) (sh_DynamicArray s).
Definition set_Name (x : string) (s : Sheet) : Sheet :=
    mkSheet (sh_CalcChain s) (sh_Celldata s) (sh_ChWidth s) (sh_Column s) (sh_Config s) (sh_Index s) (sh_Color s)
    (sh_SelectSave s) x (sh_Order s) (sh_RhHeight s) (sh_Row s) (sh_ScrollLeft s) (sh_ScrollTop s) (sh_Status s)
    (sh_ShowGridLines s) (sh_ZoomRatio s) (sh_Filter s) (sh_FilterSelect s) (sh_Images s) (sh_AlternateFormatSave
    s) (sh_AlternateFormatSaveModelCustom s) (sh_ConditionFormatSave s) (sh_Frozen s) (sh_Chart s) (sh_Image s)
    (sh_IsPivotTable s) (sh_PivotTable s) (sh_DynamicArray s).
Definition set_Color (x : string) (s : Sheet) : Sheet :=
    mkSheet (sh_CalcChain s) (sh_Celldata s) (sh_ChWidth s) (sh_Column s) (sh_Config s) (sh_Index s) x
    (sh_SelectSave s) (sh_Name s) (sh_Order s) (sh_RhHeight s) (sh_Row s) (sh_ScrollLeft s) (sh_ScrollTop s)
    (sh_Status s) (sh_ShowGridLines s) (sh_ZoomRatio s) (sh_Filter s) (sh_FilterSelect s) (sh_Images s)
    (sh_AlternateFormatSave s) (sh_AlternateFormatSaveModelCustom s) (sh_ConditionFormatSave s) (sh_Frozen s)
    (sh_Chart s) (sh_Image s) (sh_IsPivotTable s) (sh_PivotTable s) (sh_DynamicArray s).
Definition set_FilterSelect (x : option FilterSelect) (s : Sheet) : Sheet :=
    mkSheet (sh_CalcChain s) (sh_Celldata s) (sh_ChWidth s) (sh_Column s) (sh_Config s) (sh_Index s) (sh_Color s)
    (sh_SelectSave s) (sh_Name s) (sh_Order s) (sh_RhHeight s) (sh_Row s) (sh_ScrollLeft s) (sh_ScrollTop s)
    (sh_Status s) (sh_ShowGridLines s) (sh_ZoomRatio s) (sh_Filter s) x (sh_Images s) (sh_AlternateFormatSave s)
    (sh_AlternateFormatSaveModelCustom s) (sh_ConditionFormatSave s) (sh_Frozen s) (sh_Chart s) (sh_Image s)
    (sh_IsPivotTable s) (sh_PivotTable s) (sh_DynamicArray s).
Definition set_Filter (x : gmap string GdocModel.Filter) (s : Sheet) : Sheet :=
    mkSheet (sh_CalcChain s) (sh_Celldata s) (sh_ChWidth s) (sh_Column s) (sh_Config s) (sh_Index s) (sh_Color s)
    (sh_SelectSave s) (sh_Name s) (sh_Order s) (sh_RhHeight s) (sh_Row s) (sh_ScrollLeft s) (sh_ScrollTop s)
    (sh_Status s) (sh_ShowGridLines s) (sh_ZoomRatio s) x (sh_FilterSelect s) (sh_Images s)
    (sh_AlternateFormatSave s) (sh_AlternateFormatSaveModelCustom s) (sh_ConditionFormatSave s) (sh_Frozen s)
    (sh_Chart s) (sh_Image s) (sh_IsPivotTable s) (sh_PivotTable s) (sh_DynamicArray s).
Definition set_AlternateFormatSave (x : list AlternateFormatSave) (s : Sheet) : Sheet :=
    mkSheet (sh_CalcChain s) (sh_Celldata s) (sh_ChWidth s) (sh_Column s) (sh_Config s) (sh_Index s) (sh_Color s)
    (sh_SelectSave s) (sh_Name s) (sh_Order s) (sh_RhHeight s) (sh_Row s) (sh_ScrollLeft s) (sh_ScrollTop s)
    (sh_Status s) (sh_ShowGridLines s) (sh_ZoomRatio s) (sh_Filter s) (sh_FilterSelect s) (sh_Images s) x
    (sh_AlternateFormatSaveModelCustom s) (sh_ConditionFormatSave s) (sh_Frozen s) (sh_Chart s) (sh_Image s)
    (sh_IsPivotTable s) (sh_PivotTable s) (sh_DynamicArray s).
Definition set_ConditionFormatSave (x : list ConditionFormatSave) (s : Sheet) : Sheet :=
    mkSheet (sh_CalcChain s) (sh_Celldata s) (sh_ChWidth s) (sh_Column s) (sh_Config s) (sh_Index s) (sh_Color s)
    (sh_SelectSave s) (sh_Name s) (sh_Order s) (sh_RhHeight s) (sh_Row s) (sh_ScrollLeft s) (sh_ScrollTop s)
    (sh_Status s) (sh_ShowGridLines s) (sh_ZoomRatio s) (sh_Filter s) (sh_FilterSelect s) (sh_Images s)
    (sh_AlternateFormatSave s) (sh_AlternateFormatSaveModelCustom s) x (sh_Frozen s) (sh_Chart s) (sh_Image s)
    (sh_IsPivotTable s) (sh_PivotTable s) (sh_DynamicArray s).
Definition set_PivotTable (x : option PivotTable) (s : Sheet) : Sheet :=
    mkSheet (sh_CalcChain s) (sh_Celldata s) (sh_ChWidth s) (sh_Column s) (sh_Config s) (sh_Index s) (sh_Color s)
    (sh_SelectSave s) (sh_Name s) (sh_Order s) (sh_RhHeight s) (sh_Row s) (sh_ScrollLeft s) (sh_ScrollTop s)
    (sh_Status s) (sh_ShowGridLines s) (sh_ZoomRatio s) (sh_Filter s) (sh_FilterSelect s) (sh_Images s)
    (sh_AlternateFormatSave s) (sh_AlternateFormatSaveModelCustom s) (sh_ConditionFormatSave s) (sh_Frozen s)
    (sh_Chart s) (sh_Image s) (sh_IsPivotTable s) x (sh_DynamicArray s).
Definition set_DynamicArray (x : list DynamicArray) (s : Sheet) : Sheet :=
    mkSheet (sh_CalcChain s) (sh_Celldata s) (sh_ChWidth s) (sh_Column s) (sh_Config s) (sh_Index s) (sh_Color s)
    (sh_SelectSave s) (sh_Name s) (sh_Order s) (sh_RhHeight s) (sh_Row s) (sh_ScrollLeft s) (sh_ScrollTop s)
    (sh_Status s) (sh_ShowGridLines s) (sh_ZoomRatio s) (sh_Filter s) (sh_FilterSelect s) (sh_Images s)
    (sh_AlternateFormatSave s) (sh_AlternateFormatSaveModelCustom s) (sh_ConditionFormatSave s) (sh_Frozen s)
    (sh_Chart s) (sh_Image s) (sh_IsPivotTable s) (sh_PivotTable s) x.
Definition set_Images (x : Any) (s : Sheet) : Sheet :=
    mkSheet (sh_CalcChain s) (sh_Celldata s) (sh_ChWidth s) (sh_Column s) (sh_Config s) (sh_Index s) (sh_Color s)
    (sh_SelectSave s) (sh_Name s) (sh_Order s) (sh_RhHeight s) (sh_Row s) (sh_ScrollLeft s) (sh_ScrollTop s)
    (sh_Status s) (sh_ShowGridLines s) (sh_ZoomRatio s) (sh_Filter s) (sh_FilterSelect s) x
    (sh_AlternateFormatSave s) (sh_AlternateFormatSaveModelCustom s) (sh_ConditionFormatSave s) (sh_Frozen s)
    (sh_Chart s) (sh_Image s) (sh_IsPivotTable s) (sh_PivotTable s) (sh_DynamicArray s).
Definition set_CalcChain (x : list CalcChain) (s : Sheet) : Sheet :=
    mkSheet x (sh_Celldata s) (sh_ChWidth s) (sh_Column s) (sh_Config s) (sh_Index s) (sh_Color s) (sh_SelectSave
    s) (sh_Name s) (sh_Order s) (sh_RhHeight s) (sh_Row s) (sh_ScrollLeft s) (sh_ScrollTop s) (sh_Status s)
    (sh_ShowGridLines s) (sh_ZoomRatio s) (sh_Filter s) (sh_FilterSelect s) (sh_Images s) (sh_AlternateFormatSave
    s) (sh_AlternateFormatSaveModelCustom s) (sh_ConditionFormatSave s) (sh_Frozen s) (sh_Chart s) (sh_Image s)
    (sh_IsPivotTable s) (sh_PivotTable s) (sh_DynamicArray s).

(** Decode [convert] into a variable and store it; an error ends the request. *)
Definition decode_into {T} {J : JsonT T} (convert : list byte) (store : T → Sheet) : option Sheet :=
  match junmarshal convert with (v, None) => Some (store v) | (_, Some _) => None end.

(** The switch of [persistGridConfig]: [None] is one of its early returns. *)
Definition config_case (k : string) (convert : list byte) (s : Sheet) : option Sheet :=
  let cfg := default zero_SheetConfig (sh_Config s) in
  let upd c := set_Config (Some c) s in
  if decide (k = "borderInfo") then
    decode_into convert (λ v, upd (mkSheetConfig v (cfg_Columnlen cfg) (cfg_CurentsheetView cfg) (cfg_CustomHeight cfg)
      (cfg_CustomWidth cfg) (cfg_Merge cfg) (cfg_Rowhidden cfg) (cfg_Colhidden cfg) (cfg_Rowlen cfg) (cfg_SheetViewZoom cfg) (cfg_Authority cfg)))
  else if decide (k = "rowhidden") then
    decode_into convert (λ v, upd (mkSheetConfig (cfg_BorderInfo cfg) (cfg_Columnlen cfg) (cfg_CurentsheetView cfg) (cfg_CustomHeight cfg)
      (cfg_CustomWidth cfg) (cfg_Merge cfg) v (cfg_Colhidden cfg) (cfg_Rowlen cfg) (cfg_SheetViewZoom cfg) (cfg_Authority cfg)))
  else if decide (k = "colhidden") then
    decode_into convert (λ v, upd (mkSheetConfig (cfg_BorderInfo cfg) (cfg_Columnlen cfg) (cfg_CurentsheetView cfg) (cfg_CustomHeight cfg)
      (cfg_CustomWidth cfg) (cfg_Merge cfg) (cfg_Rowhidden cfg) v (cfg_Rowlen cfg) (cfg_SheetViewZoom cfg) (cfg_Authority cfg)))
  else if decide (k = "rowlen") then
    decode_into convert (λ v, upd (mkSheetConfig (cfg_BorderInfo cfg) (cfg_Columnlen cfg) (cfg_CurentsheetView cfg) (cfg_CustomHeight cfg)
      (cfg_CustomWidth cfg) (cfg_Merge cfg) (cfg_Rowhidden cfg) (cfg_Colhidden cfg) v (cfg_SheetViewZoom cfg) (cfg_Authority cfg)))
  else if decide (k = "columnlen") then
    decode_into convert (λ v, upd (mkSheetConfig (cfg_BorderInfo cfg) v (cfg_CurentsheetView cfg) (cfg_CustomHeight cfg)
      (cfg_CustomWidth cfg) (cfg_Merge cfg) (cfg_Rowhidden cfg) (cfg_Colhidden cfg) (cfg_Rowlen cfg) (cfg_SheetViewZoom cfg) (cfg_Authority cfg)))
  else Some (upd cfg).

(** The error of [decodeCommon] is only logged. *)
Definition persistGridConfig (req : UpdateCG) (filename : string) : GM () :=
  r ← on_fs (api_Open filename);
  match r with
  | Err _ => mret ()
  | Ok f =>
      LockMeta filename;;
      r ← decodeCommon f;
      let sheet := fst r in
      match jmarshal (cg_V req) with
      | Err _ => UnlockMeta filename
      | Ok convert =>
          match config_case (cg_K req) convert sheet with
          | None => UnlockMeta filename
          | Some sheet => _ ← encodeCommon f sheet; UnlockMeta filename
          end
      end
  end.

(** [req.V.(string)]; the assertion panics on another type. *)
Definition any_string (v : Any) : option string := match v with AStr s => Some s | _ => None end.

Inductive CommonCase := CPanic | CReturn | CStore (s : Sheet).

Definition stored (o : option Sheet) : CommonCase := match o with Some s => CStore s | None => CReturn end.
Definition stored_str (v : Any) (k : string → Sheet) : CommonCase :=
  match any_string v with Some x => CStore (k x) | None => CPanic end.

(** The switch of [persistGridCommon]. *)
Definition common_case (k : string) (v : Any) (convert : list byte) (s : Sheet) : CommonCase :=
  if decide (k = "fozen") then stored (decode_into convert (λ x, set_Frozen (Some x) s))
  else if decide (k = "name") then stored_str v (λ x, set_Name x s)
  else if decide (k = "color") then stored_str v (λ x, set_Color x s)
  else if decide (k = "config") then stored (decode_into convert (λ x, set_Config (Some x) s))
  else if decide (k = "filter_select") then stored (decode_into convert (λ x, set_FilterSelect (Some x) s))
  else if decide (k = "filter") then stored (decode_into convert (λ x, set_Filter x s))
  else if decide (k = "luckysheet_alternateformat_save") then stored (decode_into convert (λ x, set_AlternateFormatSave x s))
  else if decide (k = "luckysheet_conditionformat_save") then stored (decode_into convert (λ x, set_ConditionFormatSave x s))
  else if decide (k = "pivotTable") then stored (decode_into convert (λ x, set_PivotTable (Some x) s))
  else if decide (k = "dynamicArray") then stored (decode_into convert (λ x, set_DynamicArray x s))
  else if decide (k = "images") then stored (decode_into convert (λ x, set_Images x s))
  else CStore s.

Definition persistGridCommon (req : UpdateCommon) (filename : string) : GM () :=
  r ← on_fs (api_Open filename);
  match r with
  | Err _ => mret ()
  | Ok f =>
      LockMeta filename;;
      r ← decodeCommon f;
      let sheet := fst r in
      match jmarshal (uc_V req) with
      | Err _ => UnlockMeta filename
      | Ok convert =>
          match common_case (uc_K req) (uc_V req) convert sheet with
          | CPanic => go_panic
          | CReturn => UnlockMeta filename
          | CStore sheet => _ ← encodeCommon f sheet; UnlockMeta filename
          end
      end
  end.

(** The switch of [persistCalcChain]; indices out of range panic. *)
Definition chain_case (op : string) (pos : Z) (c : CalcChain) (l : list CalcChain) : option (list CalcChain) :=
  if decide (op = "add") then Some (l ++ [c])
  else if decide (op = "update") then
    if decide (0 <= pos < Z.of_nat (length l)) then Some (<[Z.to_nat pos := c]> l) else None
  else if decide (op = "del") then
    if decide (0 <= pos < Z.of_nat (length l)) then Some (take (Z.to_nat pos) l ++ drop (Z.to_nat pos + 1) l) else None
  else Some l.

Definition persistCalcChain (req : UpdateCalcChain) (filename : string) : GM () :=
  r ← on_fs (api_Open filename);
  match r with
  | Err _ => mret ()
  | Ok f =>
      LockMeta filename;;
      r ← decodeCommon f;
      match r with
      | (_, Some _) => UnlockMeta filename
      | (sheet, None) =>
          match junmarshal (String.list_byte_of_string (ucc_V req)) with
          | (_, Some _) => UnlockMeta filename
          | (c, None) =>
              l ← go_deref (chain_case (ucc_Op req) (ucc_Pos req) c (sh_CalcChain sheet));
              _ ← encodeCommon f (set_CalcChain l sheet);
              UnlockMeta filename
          end
      end
  end.

(** ** service.go *)
Definition LoadSheet (filename : string) : GM (Sheet * option GError) := decodeFile filename.

(** [Find] and [cursor.All]; a failed [Find] leaves a nil cursor, whose use panics. *)
Definition find_all {A} (docs : Mongo → list A) : GM (list A * option GError) :=
  ok ← mongo_ok;
  if (ok : bool) then
    m ← get_mongo;
    ok ← mongo_ok;
    mret (if (ok : bool) then (docs m, None) else ([], Some EMongo))
  else go_panic.

Definition ListFiles : GM (list FileRecord * option GError) := find_all mg_files.

Definition CreateFile (fileName : string) : GM (option GError) :=
  e ← initSheet fileName;
  match e with
  | Some e => mret (Some e)
  | None =>
      ok ← mongo_ok;
      if (ok : bool) then
        m ← get_mongo;
        if decide (fileName ∈ Title <$> mg_files m) then mret (Some EDuplicate)
        else mongo_write (put_files (mg_files m ++ [mkFileRecord fileName false]))
      else mret (Some EMongo)
  end.

(** [UpdateOne]: the first document with this name. *)
Fixpoint mark_first (fileName : string) (b : bool) (l : list FileRecord) : list FileRecord :=
  match l with
  | [] => []
  | r :: l' => if decide (Title r = fileName) then mkFileRecord (Title r) b :: l' else r :: mark_first fileName b l'
  end.

Definition set_mark (fileName : string) (b : bool) : GM (option GError) :=
  mongo_write (m ← get_mongo; put_files (mark_first fileName b (mg_files m))).

Definition DeleteFile (fileName : string) : GM (option GError) := set_mark fileName true.
Definition Recycle (fileName : string) : GM (option GError) := set_mark fileName false.

(** [DeleteOne]. *)
Fixpoint drop_first (fileName : string) (l : list FileRecord) : list FileRecord :=
  match l with
  | [] => []
  | r :: l' => if decide (Title r = fileName) then l' else r :: drop_first fileName l'
  end.

Definition of_file (filename : string) (l : Log) : Prop := lg_File l = filename.
#[global] Instance of_file_dec filename l : Decision (of_file filename l).
Proof. unfold of_file. apply _. Defined.

Definition DeleteForever (fileName : string) : GM (option GError) :=
  e ← mongo_write (m ← get_mongo; put_files (drop_first fileName (mg_files m)));
  match e with
  | Some e => mret (Some e)
  | None =>
      e ← mongo_write (m ← get_mongo; put_log (filter (λ l, ¬ of_file fileName l) (mg_log m)));
      on_locks (λ t, Some (DeleteFileLock fileName t));;
      mret e
  end.

Definition GetLog (filename : string) : GM (list Log * option GError) :=
  find_all (λ m, filter (of_file filename) (mg_log m)).

(** The log entries of a file after a point in time, which the filter holds in
    milliseconds. *)
Definition after (filename : string) (timestamp : Z) (l : Log) : Prop := bson_time timestamp < lg_Time l ∧ of_file filename l.
#[global] Instance after_dec filename timestamp l : Decision (after filename timestamp l).
Proof. unfold after. apply _. Defined.

(** The loop over the log: it ends at the first error. *)
Fixpoint undo_all (f : File) (ls : list Log) : GM (option GError) :=
  match ls with
  | [] => mret None
  | l :: ls' =>
      e ← encodeCell f (lg_Old l);
      match e with Some e => mret (Some e) | None => undo_all f ls' end
  end.

Definition UndoLogs (filename : string) (timestamp : Z) : GM (option GError) :=
  r ← find_all (λ m, log_sort (filter (after filename timestamp) (mg_log m)));
  LockFile filename;;
  o ← on_fs (api_Open filename);
  match o with
  | Err e => UnlockFile filename;; mret (Some (EFs e))
  | Ok f =>
      e ← undo_all f (fst r);
      match e with
      | Some e => UnlockFile filename;; mret (Some e)
      | None =>
          e ← mongo_write (m ← get_mongo; put_log (filter (λ l, ¬ after filename timestamp l) (mg_log m)));
          UnlockFile filename;;
          mret e
      end
  end.

(** ** handler.go *)
Inductive rspType := RSP_SUCCESS | RSP_SELF | RSP_OTHER | RSP_REGION | RSP_FAIL.
Record Response := mkResponse { rsp_Type : rspType; rsp_UserName : string; rsp_Id : string; rsp_Data : list byte }.

Definition rsp_type (t : string) : rspType :=
  if decide (t ∈ ["v"; "rv"; "rv_end"; "cg"; "all"; "fc"; "drc"; "arc"; "f"; "fsc"; "fsr"; "sha"; "shc"; "shd"; "shr"; "shre";
                  "sh"; "c"; "na"]) then RSP_OTHER
  else if decide (t = "mv") then RSP_REGION
  else RSP_SELF.

(** [json.Unmarshal] into a request, which is given up on an error. *)
Definition with_req {T} {J : JsonT T} (reqmsg : list byte) (k : T → GM ()) : GM () :=
  match junmarshal reqmsg with (_, Some _) => mret () | (req, None) => k req end.

Definition updateGrid (reqmsg : list byte) (filename username : string) (now : Z) : GM () :=
  with_req reqmsg (λ req, persistGridValue req filename username now).
Definition updateGridMulti (reqmsg : list byte) (filename : string) : GM () :=
  with_req reqmsg (λ req, persistGridMulti req filename).
Definition updateGridConfig (reqmsg : list byte) (filename : string) : GM () :=
  with_req reqmsg (λ req, persistGridConfig req filename).
Definition updateGridCommon (reqmsg : list byte) (filename : string) : GM () :=
  with_req reqmsg (λ req, persistGridCommon req filename).
Definition updateCalcChain (reqmsg : list byte) (filename : string) : GM () :=
  with_req reqmsg (λ req, persistCalcChain req filename).

(** The table of handlers; the handlers of rows, columns and sheets only parse. *)
Definition dispatch (t : string) (reqmsg : list byte) (filename username : string) (now : Z) : GM () :=
  if decide (t = "v") then updateGrid reqmsg filename username now
  else if decide (t = "rv") then updateGridMulti reqmsg filename
  else if decide (t = "cg") then updateGridConfig reqmsg filename
  else if decide (t = "all") then updateGridCommon reqmsg filename
  else if decide (t = "fc") then updateCalcChain reqmsg filename
  else mret ().

Definition HandleMsg (reqmsg : list byte) (name filename : string) (now : Z) : GM Response :=
  let t := json_T reqmsg in
  dispatch t reqmsg filename name now;;
  mret (mkResponse (rsp_type t) name name reqmsg).
End handlers.
