(* ===== verification/GdocLocks.v ===== *)
(** GdocLocks: a request of the gDoc backend that runs alone gets its locks and
    gives them back.

    For lock tables in which nothing is held, [LockCell] followed by [UnlockCell]
    and [LockFile] followed by [UnlockFile] neither block nor panic, and leave
    tables in which nothing is held. *)
From Stdlib Require Import ZArith Lia.
From stdpp Require Import gmap strings list.
From S2P Require Import Prelude.
From S2P Require Import Locks.
From S2P Require Import GdocHandler.
Open Scope Z_scope.

(** Nothing is held, and files with a read-write lock have a table of cells. *)
Record locks_free (t : Tables) : Prop := {
  lf_quiet : tables_quiet t;
  lf_cells : ∀ f, is_Some (FileRWLockMap t !! f) → is_Some (FileLockMap t !! f)
}.

Lemma free_AddFileLock f t : locks_free t →
  locks_free (AddFileLock f t) ∧ is_Some (FileRWLockMap (AddFileLock f t) !! f).
Proof.
  intros [[Hc Hd Hf Hfd] Hs]. split.
  - split.
    + split.
      * intros f' c' m. rewrite find_AddFileLock. destruct (AddFileLock_rest f t) as [-> Hle]. intros E.
        destruct (Hc f' c' m E). split; [lia|done].
      * intros f1 c1 f2 c2 m. rewrite !find_AddFileLock. apply Hd.
      * intros f' r. unfold AddFileLock. destruct (FileRWLockMap t !! f) as [r0|] eqn:E; cbn; [apply Hf|].
        rewrite lookup_insert_Some. intros [[<- <-]|[Hne Hr]].
        -- split; [lia|]. by rewrite lookup_insert_eq.
        -- destruct (Hf f' r Hr) as [Hlt Hrw]. split; [lia|]. by rewrite lookup_insert_ne by lia.
      * unfold AddFileLock. destruct (FileRWLockMap t !! f) as [r0|] eqn:E; [done|].
        intros f1 f2 r. cbn. rewrite !lookup_insert_Some. intros [[<- <-]|[Hn1 H1]] [[<- H2]|[Hn2 H2]]; try done.
        -- apply Hf in H2 as [? _]. lia.
        -- subst. apply Hf in H1 as [? _]. lia.
        -- by eapply Hfd.
    + intros f'. unfold AddFileLock.
      destruct (FileLockMap t !! f) as [x|] eqn:El, (FileRWLockMap t !! f) as [r0|] eqn:E; cbn; try apply Hs.
      * rewrite lookup_insert_is_Some'. intros [<-|?]; [by eexists|by apply Hs].
      * intros H. rewrite lookup_insert_is_Some'. right. by apply Hs.
      * rewrite !lookup_insert_is_Some'. intros [?|?]; [by left|right; by apply Hs].
  - unfold AddFileLock. destruct (FileRWLockMap t !! f) as [r0|] eqn:E; cbn; [by rewrite E|]. by rewrite lookup_insert_eq.
Qed.

Lemma free_add_cell f c t t' : locks_free t → find_cell_lock f c t = None → add_cell_lock f c t = Some t' →
  locks_free t' ∧ find_cell_lock f c t' = Some (fresh_id t) ∧ FileRWLockMap t' = FileRWLockMap t.
Proof.
  intros [[Hc Hd Hf Hfd] Hs] Hn E. pose proof (λ f1 c1, find_add_cell f c t t' f1 c1 E) as Hfind.
  unfold add_cell_lock in E. apply bind_Some in E as (cells & Ef & [= <-]). split_and!; [|by rewrite Hfind, decide_True|done].
  split; [split|].
  - intros f1 c1 m. rewrite Hfind. cbn. case_decide as H1.
    + intros [= <-]. split; [lia|]. by rewrite lookup_insert_eq.
    + intros H. destruct (Hc f1 c1 m H) as [Hm Hl]. split; [lia|]. by rewrite lookup_insert_ne by lia.
  - intros f1 c1 f2 c2 m. rewrite !Hfind. case_decide as H1; case_decide as H2.
    + by destruct H1 as [<- <-], H2 as [<- <-].
    + intros [= <-] H. destruct (Hc f2 c2 _ H). lia.
    + intros H [= <-]. destruct (Hc f1 c1 _ H). lia.
    + apply Hd.
  - intros f' r H. cbn in *. destruct (Hf f' r H). split; [lia|done].
  - exact Hfd.
  - intros f' H. cbn in *. rewrite lookup_insert_is_Some'. right. by apply Hs.
Qed.

(** Taking and giving back the locks of a cell changes nothing that matters. *)
Lemma free_same t t' : locks_free t → FileLockMap t' = FileLockMap t → FileRWLockMap t' = FileRWLockMap t →
  fresh_id t' = fresh_id t → (∀ m, locked t !! m = Some false → locked t' !! m = Some false) →
  (∀ r, rwlocks t !! r = Some (0%nat, false) → rwlocks t' !! r = Some (0%nat, false)) → locks_free t'.
Proof.
  intros [[Hc Hd Hf Hfd] Hs] E1 E2 E3 H4 H5.
  assert (∀ f c, find_cell_lock f c t' = find_cell_lock f c t) as Ef by (intros; unfold find_cell_lock; by rewrite E1).
  split; [split|].
  - intros f c m. rewrite Ef, E3. intros H. destruct (Hc f c m H). auto.
  - intros f c f' c' m. rewrite !Ef. apply Hd.
  - intros f r. rewrite E2, E3. intros H. destruct (Hf f r H). auto.
  - intros f f' r. rewrite E2. apply Hfd.
  - intros f. rewrite E1, E2. apply Hs.
Qed.

Lemma lock_until_step n act stop pc t pc' t' : stop pc = false → act pc t = Some (Some (pc', t')) →
  lock_until (Datatypes.S n) act stop pc t = lock_until n act stop pc' t'.
Proof. intros Hs Ha. cbn [lock_until]. by rewrite Hs, Ha. Qed.

Lemma lock_until_stop n act stop pc t : stop pc = true → lock_until n act stop pc t = Some t.
Proof. intros Hs. destruct n; cbn [lock_until]; by rewrite Hs. Qed.

(** The first lines of [LockCell] and [LockFile] provide the locks of the file. *)
Lemma lock_ready f act stop t : locks_free t → stop PStart = false → stop PAdd = false →
  act PStart t = Some (Some (check_file f t, t)) → act PAdd t = Some (Some (PReady, AddFileLock f t)) →
  ∃ n t0, (6 ≤ n)%nat ∧ lock_until 8 act stop PStart t = lock_until n act stop PReady t0
    ∧ locks_free t0 ∧ is_Some (FileRWLockMap t0 !! f).
Proof.
  intros Hf Hs1 Hs2 Ha1 Ha2. rewrite (lock_until_step 7 act stop PStart t _ _ Hs1 Ha1). unfold check_file.
  destruct (FileRWLockMap t !! f) as [r|] eqn:E.
  - exists 7%nat, t. rewrite E. split_and!; [lia|done|done|by eexists].
  - rewrite (lock_until_step 6 act stop PAdd t _ _ Hs2 Ha2). destruct (free_AddFileLock f t Hf) as [H1 H2].
    exists 6%nat, (AddFileLock f t). done.
Qed.

Lemma lock_until_mono n n' act stop pc t t' : lock_until n act stop pc t = Some t' → (n ≤ n')%nat →
  lock_until n' act stop pc t = Some t'.
Proof.
  revert n' pc t. induction n as [|n IH]; intros n' pc t; cbn [lock_until].
  - destruct (stop pc) eqn:Hs; [|done]. intros [= <-] _. by apply lock_until_stop.
  - destruct (stop pc) eqn:Hs; [intros [= <-] _; by apply lock_until_stop|]. intros H Hn.
    destruct n' as [|n']; [lia|]. cbn [lock_until]. rewrite Hs.
    destruct (act pc t) as [[[pc' t1]|]|]; try done. apply IH; [done|lia].
Qed.

Lemma find_set_rw f c r v t : find_cell_lock f c (set_rw r v t) = find_cell_lock f c t.
Proof. done. Qed.

(** From the read lock to the mutex of the cell, which is created if needed. *)
Lemma lock_mutex f c r t0 : locks_free t0 → FileRWLockMap t0 !! f = Some r →
  ∃ t3 m, lock_until 5 (cell_action f c) at_held PRead (set_rw r (1%nat, false) t0)
      = Some (set_locked m true (set_rw r (1%nat, false) t3))
    ∧ locks_free t3 ∧ find_cell_lock f c t3 = Some m ∧ FileRWLockMap t3 = FileRWLockMap t0.
Proof.
  intros Hf Hr. destruct (find_cell_lock f c t0) as [m|] eqn:Em.
  - exists t0, m. split_and!; try done. destruct (tq_cells _ (lf_quiet _ Hf) f c m Em) as [_ Hl].
    rewrite (lock_until_step _ _ at_held PRead _ (PWait m) (set_rw r (1%nat, false) t0));
      [|done|cbn [cell_action]; by rewrite find_set_rw, Em].
    rewrite (lock_until_step _ _ at_held (PWait m) _ (PHeld m) (set_locked m true (set_rw r (1%nat, false) t0)));
      [by apply lock_until_stop|done|]. cbn [cell_action]. change (locked (set_rw r (1%nat, false) t0)) with (locked t0).
    by rewrite Hl.
  - destruct (lf_cells _ Hf f) as [cells Hcells]; [by eexists|].
    assert (∃ t3, add_cell_lock f c t0 = Some t3) as [t3 H3] by (unfold add_cell_lock; rewrite Hcells; by eexists).
    destruct (free_add_cell f c t0 t3 Hf Em H3) as (Hf3 & Hm3 & Hrw3).
    destruct (tq_cells _ (lf_quiet _ Hf3) f c _ Hm3) as [_ Hl3].
    exists t3, (fresh_id t0). split_and!; try done.
    rewrite (lock_until_step _ _ at_held PRead _ PMissing (set_rw r (1%nat, false) t0));
      [|done|cbn [cell_action]; by rewrite find_set_rw, Em].
    rewrite (lock_until_step _ _ at_held PMissing _ PCreated (set_rw r (1%nat, false) t3)); [|done|].
    2:{ cbn [cell_action]. unfold add_cell_lock in H3 |- *. rewrite Hcells in H3. cbn [mbind option_bind] in H3.
        injection H3 as <-. cbn [set_rw FileLockMap]. rewrite Hcells. done. }
    rewrite (lock_until_step _ _ at_held PCreated _ (PWait (fresh_id t0)) (set_rw r (1%nat, false) t3));
      [|done|cbn [cell_action]; by rewrite find_set_rw, Hm3].
    rewrite (lock_until_step _ _ at_held (PWait _) _ (PHeld (fresh_id t0)) (set_locked (fresh_id t0) true (set_rw r (1%nat, false) t3)));
      [by apply lock_until_stop|done|]. cbn [cell_action]. change (locked (set_rw r (1%nat, false) t3)) with (locked t3).
    by rewrite Hl3.
Qed.

Lemma cell_lock_pair f c t : locks_free t →
  ∃ t1 t2, lock_until 8 (cell_action f c) at_held PStart t = Some t1
    ∧ lock_until 8 (cell_action f c) at_done (PHeld 0) t1 = Some t2 ∧ locks_free t2.
Proof.
  intros Hf. destruct (lock_ready f (cell_action f c) at_held t Hf) as (n & t0 & Hn & -> & Hf0 & [r Hr]); [done..|].
  destruct (tq_files _ (lf_quiet _ Hf0) f r Hr) as [Hrlt Hrw].
  destruct (lock_mutex f c r t0 Hf0 Hr) as (t3 & m & H3 & Hf3 & Hm & Hrw3).
  exists (set_locked m true (set_rw r (1%nat, false) t3)), (set_rw r (0%nat, false) (set_locked m false (set_locked m true (set_rw r (1%nat, false) t3)))).
  split_and!.
  - apply (lock_until_mono 6); [|done]. rewrite (lock_until_step _ _ at_held PReady t0 PRead (set_rw r (1%nat, false) t0)); [done|done|].
    cbn [cell_action]. rewrite Hr. cbn [mbind option_bind]. by rewrite Hrw.
  - rewrite (lock_until_step _ _ at_done (PHeld 0) _ PReleased (set_locked m false (set_locked m true (set_rw r (1%nat, false) t3)))); [|done|].
    2:{ cbn [cell_action]. change (find_cell_lock f c (set_locked m true (set_rw r (1%nat, false) t3))) with (find_cell_lock f c t3).
        rewrite Hm. cbn [mbind option_bind set_locked locked]. by rewrite lookup_insert_eq. }
    rewrite (lock_until_step _ _ at_done PReleased _ PDone
      (set_rw r (0%nat, false) (set_locked m false (set_locked m true (set_rw r (1%nat, false) t3))))); [by apply lock_until_stop|done|].
    cbn [cell_action set_locked set_rw FileRWLockMap rwlocks]. rewrite Hrw3, Hr. cbn [mbind option_bind].
    rewrite lookup_insert_eq. done.
  - apply (free_same t3); try done.
    + intros m' Hm'. cbn. rewrite insert_insert_eq. destruct (decide (m = m')) as [<-|Hne];
        [by rewrite lookup_insert_eq|by rewrite lookup_insert_ne].
    + intros r' Hr'. cbn. rewrite insert_insert_eq. destruct (decide (r = r')) as [<-|Hne];
        [by rewrite lookup_insert_eq|by rewrite lookup_insert_ne].
Qed.

Lemma file_lock_pair f t : locks_free t →
  ∃ t1 t2, lock_until 8 (file_action f) at_file PStart t = Some t1
    ∧ lock_until 8 (file_action f) at_done PFile t1 = Some t2 ∧ locks_free t2.
Proof.
  intros Hf. destruct (lock_ready f (file_action f) at_file t Hf) as (n & t0 & Hn & -> & Hf0 & [r Hr]); [done..|].
  destruct (tq_files _ (lf_quiet _ Hf0) f r Hr) as [Hrlt Hrw].
  exists (set_rw r (0%nat, true) t0), (set_rw r (0%nat, false) (set_rw r (0%nat, true) t0)). split_and!.
  - apply (lock_until_mono 6); [|done].
    rewrite (lock_until_step _ _ at_file PReady t0 PFile (set_rw r (0%nat, true) t0)); [by apply lock_until_stop|done|].
    cbn [file_action]. rewrite Hr. cbn [mbind option_bind]. by rewrite Hrw.
  - rewrite (lock_until_step _ _ at_done PFile _ PDone (set_rw r (0%nat, false) (set_rw r (0%nat, true) t0))); [by apply lock_until_stop|done|].
    cbn [file_action set_rw FileRWLockMap]. rewrite Hr. cbn [set_rw FileRWLockMap rwlocks]. rewrite Hr. cbn [mbind option_bind].
    by rewrite lookup_insert_eq.
  - apply (free_same t0); try done. intros r' Hr'. cbn. rewrite insert_insert_eq.
    destruct (decide (r = r')) as [<-|Hne]; [by rewrite lookup_insert_eq|by rewrite lookup_insert_ne].
Qed.
