(* ===== verification/GdocProps.v ===== *)
(** GdocProps: what the requests of the gDoc backend do.

    Proved against the interface [SheetFs]: a cell that is written is read back,
    a change of the configuration changes that part and no other, and undoing
    the log restores the cells of an earlier point in time. *)
From Stdlib Require Import ZArith Lia Strings.Byte.
From stdpp Require Import gmap strings list sorting.
From S2P Require Import Prelude.
From S2P Require Import DataNode.
From S2P Require Import MasterData.
From S2P Require Import SheetFileSpec.
From S2P Require Import FsClient.
From S2P Require Import EndToEnd.
From S2P Require Import FsCalls.
From S2P Require Import SheetRead.
From S2P Require Import FileSystem.
From S2P Require Import GoStd.
From S2P Require Import Locks.
From S2P Require Import GdocModel.
From S2P Require Import GdocFs.
From S2P Require Import GdocHandler.
From S2P Require Import GdocLocks.
Open Scope Z_scope.

(** ** Buffers *)
Lemma blank_first_skip k l : blank_first_comma (replicate k blank ++ comma :: l) = replicate k blank ++ blank :: l.
Proof. induction k as [|k IH]; [done|]. rewrite !replicate_S. cbn. by rewrite IH. Qed.

Lemma blank_last_comma_app l k : blank_last_comma (l ++ comma :: replicate k blank) = l ++ blank :: replicate k blank.
Proof.
  unfold blank_last_comma. rewrite rev_app_distr. cbn [rev]. rewrite <- app_assoc. cbn [app].
  rewrite <- (rev_involutive (replicate k blank)) at 1.
  assert (rev (replicate k blank) = replicate k blank) as Hr.
  { induction k as [|k IH]; [done|]. rewrite replicate_S. cbn [rev]. rewrite IH. by rewrite <- replicate_cons_app. }
  rewrite rev_involutive, Hr, blank_first_skip, rev_app_distr. cbn [rev]. rewrite rev_involutive, Hr, <- app_assoc. done.
Qed.

Lemma length_blank_first l : length (blank_first_comma l) = length l.
Proof. induction l as [|b l IH]; [done|]. cbn. destruct (Byte.eqb b x2c); cbn; by rewrite ?IH. Qed.

Lemma length_blank_last l : length (blank_last l) = length l.
Proof.
  destruct l as [|b l]; [done|]. cbn [blank_last length]. unfold blank_last_comma.
  by rewrite length_rev, length_blank_first, length_rev.
Qed.

Lemma copy_at_all (b data : list byte) : length data = length b → copy_at 0 (length b) b data = data.
Proof.
  intros Hl. unfold copy_at, splice. rewrite Nat.sub_0_r, take_0, take_ge by lia. rewrite drop_ge by lia. by rewrite app_nil_r.
Qed.

Lemma slice_of_all (l : list byte) : slice_of 0 (length l) l = Some l.
Proof. unfold slice_of. rewrite decide_True by lia. by rewrite Nat.sub_0_r, drop_0, take_ge. Qed.

Section props.
Context {S : Type} {F : SheetFs S} {FL : SheetFsLaws S} {JS : GoJson} {LS : LogSort} {BS : Bson}.
Implicit Types (st : GState S) (a : Fs) (c : Cell) (f : File).

(** ** Cells *)

(** The JSON text of a cell has room in its 2048 bytes, with a separator, and is
    read back when it is followed by blanks. *)
Definition fits c : Prop := ∃ x b, jmarshal c = Ok (x :: b) ∧ (length b < 2047)%nat
  ∧ ∀ k, junmarshal (x :: b ++ replicate k blank) = (c, None).

Definition pos_ok (row col : Z) : Prop := is_u32 row ∧ is_u32 col ∧ GetCellID row col ≠ SheetMetaCellID.

Definition stored_cell a (name : string) (row col : Z) : Cell * option string :=
  match fs_cells a !! (name, GetCellID row col) with
  | Some d => junmarshal (blank_last d)
  | None => (zero_Cell, None)
  end.

(** The value of a cell as the handlers see it. *)
Definition value_at a (name : string) (row col : Z) : CellValue :=
  match stored_cell a name row col with (c, None) => c_V c | _ => zero_CellValue end.

Definition fs_sized a : Prop := ∀ name id d, fs_cells a !! (name, id) = Some d → length d = Z.to_nat (cell_size id).

Lemma sized_store a name id b padding : fs_sized a → fs_sized (fs_store a name id (cell_bytes id b padding)).
Proof.
  intros Hs name' id' d. cbn [fs_store fs_cells]. rewrite lookup_insert_Some. intros [[[= <- <-] <-]|[_ H]].
  - apply length_cell_bytes.
  - by apply (Hs name').
Qed.

Lemma plain_cell_size row col : pos_ok row col → Z.to_nat (cell_size (GetCellID row col)) = Z.to_nat 2048.
Proof. intros (_ & _ & Hm). unfold cell_size. by rewrite (proj2 (Z.eqb_neq _ _) Hm). Qed.

Lemma on_fs_eq {A} (m : GoM S A) st x s' : m (g_fs st) = Some (x, s') →
  on_fs m st = Some (x, mkGState s' (g_mongo st) (g_locks st)).
Proof. unfold on_fs. by intros ->. Qed.

Lemma decodeCell_spec st a n f name row col :
  sf_rel (g_fs st) a n → 0 <= n < 2 ^ 64 - 1 → fs_fds a !! file_fd f = Some name → pos_ok row col → fs_sized a →
  ∃ s', decodeCell f row col st
      = Some ((fst (stored_cell a name row col), EJson <$> snd (stored_cell a name row col)),
              mkGState s' (g_mongo st) (g_locks st))
    ∧ sf_rel s' a (n + 1).
Proof.
  intros HR Hn Hfd Hp Hsz. pose proof Hp as (Hr & Hc & Hm).
  destruct (sf_ReadAt_ok (g_fs st) a n f (replicate (Z.to_nat 2048) x00) row col HR Hn Hr Hc) as (r & s' & a' & E & Hs & HR').
  exists s'. unfold decodeCell, api_ReadAt.
  inversion Hs as [| | | | | | | | |? ? ? ? Hu|? ? ? ? nm Hfd'| |]; subst; [congruence|]. simplify_eq. split; [|done].
  unfold mbind at 1, GoM_bind at 1. erewrite on_fs_eq; [|unfold mbind, GoM_bind; rewrite E; reflexivity].
  unfold stored_cell. destruct (fs_cells a' !! (name, GetCellID row col)) as [d|] eqn:Ed; cbn [read_result].
  - pose proof (Hsz _ _ _ Ed) as Hd. rewrite plain_cell_size in Hd by done.
    rewrite copy_at_all by (by rewrite length_replicate, Hd).
    rewrite Nat2Z.id, <- (length_blank_last d), slice_of_all. unfold mbind, GoM_bind. cbn [go_deref mret GoM_ret].
    by destruct (junmarshal (blank_last d)).
  - rewrite (proj2 (Z.eqb_neq _ _) Hm). done.
Qed.

Lemma u32_id z : is_u32 z → u32 z = z.
Proof. unfold is_u32, u32. intros. by apply Z.mod_small. Qed.

Lemma fits_stored c : pos_ok (c_R c) (c_C c) → ∀ x b, (length b < 2047)%nat →
  ∃ k, blank_last (cell_bytes (GetCellID (c_R c) (c_C c)) ((x :: b) ++ [comma]) [blank]) = x :: b ++ replicate k blank.
Proof.
  intros Hp x b Hb. unfold cell_bytes. rewrite plain_cell_size by done. exists (Datatypes.S (Z.to_nat 2048 - length (x :: b ++ [comma]))).
  rewrite take_ge by (rewrite length_app; cbn; lia). cbn [app blank_last head default]. f_equal.
  rewrite <- app_assoc. cbn [app]. rewrite blank_last_comma_app. by rewrite replicate_S.
Qed.

(** The bytes that hold the text of a cell. *)
Definition text_bytes c (t : list byte) : list byte := cell_bytes (GetCellID (c_R c) (c_C c)) (t ++ [comma]) [blank].

Lemma encodeCell_spec st a n f name c :
  sf_rel (g_fs st) a n → 0 <= n < 2 ^ 64 - 1 → fs_fds a !! file_fd f = Some name → pos_ok (c_R c) (c_C c) → fits c →
  ∃ s' d, encodeCell f c st = Some (None, mkGState s' (g_mongo st) (g_locks st))
    ∧ sf_rel s' (fs_store a name (GetCellID (c_R c) (c_C c)) d) (n + 1)
    ∧ (∃ t, jmarshal c = Ok t ∧ d = text_bytes c t) ∧ junmarshal (blank_last d) = (c, None).
Proof.
  intros HR Hn Hfd Hp (x & b & Hj & Hb & Hu). pose proof Hp as (Hr & Hc & Hm).
  destruct (sf_WriteAt_ok (g_fs st) a n f ((x :: b) ++ [comma]) _ _ [blank] HR Hn Hr Hc eq_refl) as (r & s' & a' & E & Hs & HR').
  inversion Hs as [| | | | | | |? ? ? ? ? Hu'|? ? ? ? ? nm Hfd'| | | |]; subst; [congruence|]. simplify_eq.
  eexists s', _. split_and!; [|exact HR'|by exists (x :: b)|].
  - unfold encodeCell, api_WriteAt. rewrite Hj, !u32_id by done. unfold mbind at 1, GoM_bind at 1.
    erewrite on_fs_eq; [|unfold mbind, GoM_bind; rewrite E; reflexivity]. done.
  - destruct (fits_stored c Hp x b Hb) as [k Hk]. cbn [app] in Hk |- *. by rewrite Hk, Hu.
Qed.

(** ** Views: the values of all cells of all files *)
Definition View : Type := string * Z * Z → CellValue.
Definition view a : View := λ k, value_at a k.1.1 k.1.2 k.2.
Definition same_view (v w : View) : Prop := ∀ name row col, pos_ok row col → v (name, row, col) = w (name, row, col).
Definition put_view (name : string) (v : View) c : View :=
  λ k, if decide (k = (name, c_R c, c_C c)) then c_V c else v k.

#[local] Instance same_view_equiv : Equivalence same_view.
Proof. split; [done|intros v w H nm r c Hp; symmetry; auto|intros u v w H1 H2 nm r c Hp; rewrite H1; auto]. Qed.
#[local] Instance put_view_proper name : Proper (same_view ==> (=) ==> same_view) (put_view name).
Proof. intros v w H c _ <- nm r k Hp. unfold put_view. case_decide; auto. Qed.

Lemma foldl_put_same name cs v w : same_view v w → same_view (foldl (put_view name) v cs) (foldl (put_view name) w cs).
Proof. revert v w. induction cs as [|c cs IH]; intros v w H; [done|]. cbn. apply IH. by rewrite H. Qed.

Lemma view_store a name c d : pos_ok (c_R c) (c_C c) → junmarshal (blank_last d) = (c, None) →
  same_view (view (fs_store a name (GetCellID (c_R c) (c_C c)) d)) (put_view name (view a) c).
Proof.
  intros (Hr & Hc & _) Hj nm row col (Hr' & Hc' & _). unfold view, put_view, value_at, stored_cell. cbn [fst snd fs_store fs_cells].
  case_decide as H.
  - simplify_eq. by rewrite lookup_insert_eq, Hj.
  - rewrite lookup_insert_ne; [done|]. intros [= -> Hid]. apply H. apply GetCellID_inj in Hid as [-> ->]; done.
Qed.

(** Writing back what was there. *)
Lemma put_view_undo name v c : same_view (put_view name (put_view name v c) (mkCell (c_C c) (c_R c) (v (name, c_R c, c_C c)))) v.
Proof. intros nm r k _. unfold put_view. cbn [c_R c_C c_V]. repeat case_decide; congruence. Qed.

(** ** Requests *)

(** The file [name] exists and holds cells of the right sizes. *)
Record has_file (name : string) (s : S) a (n : Z) : Prop := {
  sd_fs : sf_rel s a n;
  sd_sized : fs_sized a;
  sd_valid : bad_name name = false;
  sd_known : name ∈ fs_names a
}.

(** A state in which requests run: no lock is held and MongoDB answers. *)
Record ready (name : string) st a (n : Z) : Prop := {
  rd_file : has_file name (g_fs st) a n;
  rd_locks : locks_free (g_locks st);
  rd_faults : mg_faults (g_mongo st) = []
}.

Lemma api_open_spec name st a n : has_file name (g_fs st) a n → 0 <= n < 2 ^ 64 - 1 →
  ∃ f s', on_fs (api_Open name) st = Some (Ok f, mkGState s' (g_mongo st) (g_locks st))
    ∧ fs_fds (fs_bind a name) !! file_fd f = Some name
    ∧ has_file name s' (fs_bind a name) (n + 1).
Proof.
  intros [HR Hs Hv Hk] Hn. destruct (sf_Open_ok (g_fs st) a n name HR Hn) as (r & s' & a' & E & Hst & HR').
  inversion Hst; subst; [congruence|done|]. eexists _, s'. split_and!; [by apply on_fs_eq|by apply lookup_insert_eq|].
  split; try done. cbn. apply elem_of_union_r, Hk.
Qed.

(** The text of a cell has replaced what was stored for it. *)
Definition text_stored a a' (name : string) c : Prop :=
  ∃ t, jmarshal c = Ok t ∧ fs_cells a' = <[(name, GetCellID (c_R c) (c_C c)) := text_bytes c t]> (fs_cells a).

(** The texts of several cells, one after the other. *)
Fixpoint texts_stored a a' (name : string) (cs : list Cell) : Prop :=
  match cs with
  | [] => fs_cells a' = fs_cells a
  | c :: cs' => ∃ a1, text_stored a a1 name c ∧ texts_stored a1 a' name cs'
  end.

Lemma texts_stored_app a1 a2 a3 name cs ds : texts_stored a1 a2 name cs → texts_stored a2 a3 name ds → texts_stored a1 a3 name (cs ++ ds).
Proof.
  revert a1. induction cs as [|c cs IH]; intros a1 H1 H2; cbn in *.
  - destruct ds as [|d ds]; cbn in *; [congruence|]. destruct H2 as (a & (t & Ht & Ha) & H2). exists a. split; [|done].
    exists t. by rewrite <- H1.
  - destruct H1 as (a & Ha & H1). exists a. split; [done|]. by apply IH.
Qed.

Lemma texts_stored_one a a' name c : text_stored a a' name c → texts_stored a a' name [c].
Proof. intros H. by exists a'. Qed.

(** Storing a cell in a file that exists. *)
Lemma store_spec name st a n f c : has_file name (g_fs st) a n → 0 <= n < 2 ^ 64 - 1 → fs_fds a !! file_fd f = Some name →
  pos_ok (c_R c) (c_C c) → fits c →
  ∃ s' a', encodeCell f c st = Some (None, mkGState s' (g_mongo st) (g_locks st)) ∧ has_file name s' a' (n + 1)
    ∧ fs_fds a' = fs_fds a ∧ same_view (view a') (put_view name (view a) c)
    ∧ stored_cell a' name (c_R c) (c_C c) = (c, None) ∧ text_stored a a' name c.
Proof.
  intros [HR Hs Hv Hk] Hn Hfd Hp Hf. destruct (encodeCell_spec st a n f name c HR Hn Hfd Hp Hf) as (s' & d & E & HR' & (t & Ht & Hb) & Hd).
  exists s', (fs_store a name (GetCellID (c_R c) (c_C c)) d). split_and!; [exact E| |done|by apply view_store| |exists t; by rewrite Hb].
  2:{ unfold stored_cell. cbn [fs_store fs_cells]. by rewrite lookup_insert_eq. }
  split; [done| |done|done]. rewrite Hb. unfold text_bytes. by apply sized_store.
Qed.

Lemma view_bind a name : view (fs_bind a name) = view a.
Proof. done. Qed.

(** The cell that [persistGridValue] records as the old one. *)
Definition old_cell (name : string) (v : View) c : Cell := mkCell (c_C c) (c_R c) (v (name, c_R c, c_C c)).

Definition eta_Cell c : Cell := mkCell (c_C c) (c_R c) (c_V c).
Lemma eta_Cell_eq c : eta_Cell c = c.
Proof. by destruct c. Qed.

(** What [persistGridValue] makes of the result of [decodeCell]. *)
Lemma old_value a name row col :
  c_V match EJson <$> snd (stored_cell a name row col) with Some _ => zero_Cell | None => fst (stored_cell a name row col) end
  = value_at a name row col.
Proof. unfold value_at. by destruct (stored_cell a name row col) as [? [?|]]. Qed.

Lemma log_spec name user new old now st : mg_faults (g_mongo st) = [] →
  logGridValue name user new old now st = Some (None, mkGState (g_fs st)
    (mkMongo (mg_files (g_mongo st)) (mg_log (g_mongo st) ++ [bson_log (mkLog name user new old now)]) []) (g_locks st)).
Proof. intros H. unfold logGridValue, mongo_write, mongo_next, get_mongo, put_log, mbind, GoM_bind. by rewrite H. Qed.

Lemma edit_spec name user st a n req now :
  ready name st a n → 0 <= n < 2 ^ 64 - 3 → pos_ok (c_R (uv_Cell req)) (c_C (uv_Cell req)) → fits (uv_Cell req) →
  ∃ st' a', persistGridValue req name user now st = Some ((), st') ∧ ready name st' a' (n + 3)
    ∧ same_view (view a') (put_view name (view a) (uv_Cell req))
    ∧ stored_cell a' name (c_R (uv_Cell req)) (c_C (uv_Cell req)) = (uv_Cell req, None) ∧ text_stored a a' name (uv_Cell req)
    ∧ mg_files (g_mongo st') = mg_files (g_mongo st)
    ∧ mg_log (g_mongo st') = mg_log (g_mongo st) ++ [bson_log (mkLog name user (uv_Cell req) (old_cell name (view a) (uv_Cell req)) now)].
Proof.
  intros Hrd Hn Hp Hfit. destruct req as [c i t]. cbn [uv_Cell] in *. pose proof Hp as (Hr & Hc & _).
  destruct Hrd as [Hst Hl Hfa]. destruct (api_open_spec name st a n Hst ltac:(lia)) as (f & s1 & E1 & Hfd & Hst1).
  destruct (cell_lock_pair name (key_of (c_R c) (c_C c)) (g_locks st) Hl) as (t1 & t2 & Hlock & Hunlock & Hl2).
  destruct (decodeCell_spec (mkGState s1 (g_mongo st) t1) (fs_bind a name) (n + 1) f name (c_R c) (c_C c)) as (s2 & E2 & H2);
    [apply Hst1|lia|done|done|apply Hst1|].
  set (st2 := mkGState s2 (mkMongo (mg_files (g_mongo st))
    (mg_log (g_mongo st) ++ [bson_log (mkLog name user c (old_cell name (view a) c) now)]) []) t1).
  destruct (store_spec name st2 (fs_bind a name) (n + 2) f c) as (s3 & a3 & E3 & Hst3 & _ & Hv3 & Hc3 & Ht3); [|lia|done|done|done|].
  { replace (n + 2) with (n + 1 + 1) by lia. split; [done|apply Hst1..]. }
  exists (mkGState s3 (g_mongo st2) t2), a3. split_and!; [| |by rewrite <- (view_bind a name)|done|done|done|done].
  - unfold persistGridValue. unfold mbind at 1, GoM_bind at 1. rewrite E1. cbn [uv_Cell]. rewrite !u32_id by done.
    unfold mbind at 1, GoM_bind at 1. unfold LockCell, on_locks. cbn [g_locks]. rewrite Hlock. cbn [g_fs g_mongo].
    unfold mbind at 1, GoM_bind at 1. rewrite E2. cbn [g_mongo g_locks fst snd].
    rewrite old_value. unfold mbind at 1, GoM_bind at 1. rewrite log_spec by done. cbn [g_mongo g_locks g_fs c_C c_R].
    unfold mbind at 1, GoM_bind at 1. change (mkCell (c_C c) (c_R c) (c_V c)) with (eta_Cell c). rewrite eta_Cell_eq.
    change (value_at (fs_bind a name) name (c_R c) (c_C c)) with (view a (name, c_R c, c_C c)). fold (old_cell name (view a) c).
    fold st2. rewrite E3. cbn [g_locks]. unfold UnlockCell, on_locks. cbn [g_locks]. change (g_locks st2) with t1. by rewrite Hunlock.
  - split; [|done|done]. by replace (n + 3) with (n + 2 + 1) by lia.
Qed.

(** ** Undo *)

(** Requests of one user, each with the time it is recorded at. *)
Fixpoint edits (name user : string) (es : list (UpdateV * Z)) : GoM (GState S) () :=
  match es with
  | [] => mret ()
  | (req, now) :: es' => persistGridValue req name user now;; edits name user es'
  end.

(** The log entries that edits leave when they start at a view. *)
Fixpoint logged (name user : string) (v : View) (es : list (UpdateV * Z)) : list Log :=
  match es with
  | [] => []
  | (req, now) :: es' =>
      bson_log (mkLog name user (uv_Cell req) (old_cell name v (uv_Cell req)) now)
      :: logged name user (put_view name v (uv_Cell req)) es'
  end.

(** The text of a cell has room, and the cell survives MongoDB. *)
Definition storable (c : Cell) : Prop := fits c ∧ bson_cell c = c.

(** The cells of a request can be stored, also with the value they replace. *)
Definition edit_ok (name : string) (v : View) (e : UpdateV * Z) : Prop :=
  let c := uv_Cell e.1 in pos_ok (c_R c) (c_C c) ∧ storable c ∧ storable (old_cell name v c).

Lemma edit_ok_put name v w c e : same_view w (put_view name v c) → storable c → edit_ok name v e → edit_ok name w e.
Proof.
  intros Hw Hc (Hp & Hf & Ho). split_and!; [done..|]. unfold old_cell in *. rewrite Hw by done.
  unfold put_view. case_decide as H; [|done]. injection H as -> ->. by destruct c.
Qed.

Lemma logged_view name user v w es : Forall (edit_ok name v) es → same_view v w → logged name user v es = logged name user w es.
Proof.
  intros Hes Hvw. revert v w Hes Hvw. induction es as [|[req now] es IH]; intros v w Hes Hvw; [done|].
  inversion Hes as [|? ? (Hp & Hf & Ho) Hes']; subst. cbn [logged]. f_equal.
  - unfold old_cell. by rewrite Hvw.
  - apply IH; [|by rewrite Hvw]. eapply Forall_impl; [exact Hes'|]. intros e He. by eapply edit_ok_put.
Qed.

Lemma edits_spec name user es st a n :
  ready name st a n → 0 <= n → n + 3 * Z.of_nat (length es) < 2 ^ 64 - 1 → Forall (edit_ok name (view a)) es →
  ∃ st' a', edits name user es st = Some ((), st') ∧ ready name st' a' (n + 3 * Z.of_nat (length es))
    ∧ same_view (view a') (foldl (put_view name) (view a) ((λ e, uv_Cell e.1) <$> es))
    ∧ mg_files (g_mongo st') = mg_files (g_mongo st)
    ∧ mg_log (g_mongo st') = mg_log (g_mongo st) ++ logged name user (view a) es.
Proof.
  revert st a n. induction es as [|[req now] es IH]; intros st a n Hrd H0 Hn Hes.
  - exists st, a. cbn. rewrite app_nil_r, Z.mul_0_r, Z.add_0_r. done.
  - inversion Hes as [|? ? (Hp & Hf & Ho) Hes']; subst. cbn [length] in *.
    destruct (edit_spec name user st a n req now Hrd ltac:(lia) Hp (proj1 Hf)) as (st1 & a1 & E1 & Hrd1 & Hv1 & _ & _ & Hfi1 & Hlo1).
    assert (Forall (edit_ok name (view a1)) es) as Hes1
      by (eapply Forall_impl; [exact Hes'|]; intros e He; by eapply edit_ok_put).
    destruct (IH st1 a1 (n + 3) Hrd1) as (st2 & a2 & E2 & Hrd2 & Hv2 & Hfi2 & Hlo2); [lia|lia|done|].
    exists st2, a2. split_and!.
    + cbn [edits]. unfold mbind, GoM_bind. by rewrite E1.
    + by replace (n + 3 * Z.of_nat (Datatypes.S (length es))) with (n + 3 + 3 * Z.of_nat (length es)) by lia.
    + rewrite Hv2. cbn. by apply foldl_put_same.
    + by rewrite Hfi2.
    + rewrite Hlo2, Hlo1, <- app_assoc. cbn [logged app]. do 2 f_equal. by apply logged_view.
Qed.

(** Writing back the old cells, latest first, leads back to the first view. *)
Lemma undo_views name user es v : Forall (edit_ok name v) es →
  same_view (foldl (put_view name) (foldl (put_view name) v ((λ e, uv_Cell e.1) <$> es)) (lg_Old <$> rev (logged name user v es))) v.
Proof.
  revert v. induction es as [|[req now] es IH]; intros v Hes; [done|]. inversion Hes as [|? ? (Hp & Hf & Ho) Hes']; subst.
  cbn [logged rev fmap list_fmap foldl fst]. rewrite fmap_app, foldl_app. cbn [fmap list_fmap foldl bson_log lg_Old].
  rewrite IH by (eapply Forall_impl; [exact Hes'|]; intros e He; by eapply edit_ok_put).
  cbn [fst] in Ho. rewrite (proj2 Ho). apply put_view_undo.
Qed.

Lemma undo_all_spec name f ls st a n :
  has_file name (g_fs st) a n → 0 <= n → n + Z.of_nat (length ls) < 2 ^ 64 - 1 → fs_fds a !! file_fd f = Some name →
  Forall (λ l, pos_ok (c_R (lg_Old l)) (c_C (lg_Old l)) ∧ fits (lg_Old l)) ls →
  ∃ s' a', undo_all f ls st = Some (None, mkGState s' (g_mongo st) (g_locks st))
    ∧ has_file name s' a' (n + Z.of_nat (length ls))
    ∧ same_view (view a') (foldl (put_view name) (view a) (lg_Old <$> ls)).
Proof.
  revert st a n. induction ls as [|l ls IH]; intros st a n Hst H0 Hn Hfd Hls.
  - exists (g_fs st), a. cbn. rewrite Z.add_0_r. by destruct st.
  - inversion Hls as [|? ? (Hp & Hf) Hls']; subst. cbn [length] in *.
    destruct (store_spec name st a n f (lg_Old l) Hst ltac:(lia) Hfd Hp Hf) as (s1 & a1 & E1 & Hst1 & Hfd1 & Hv1 & _).
    destruct (IH (mkGState s1 (g_mongo st) (g_locks st)) a1 (n + 1)) as (s2 & a2 & E2 & Hst2 & Hv2); [done|lia|lia|by rewrite Hfd1|done|].
    exists s2, a2. split_and!.
    + cbn [undo_all]. unfold mbind, GoM_bind. by rewrite E1.
    + by replace (n + Z.of_nat (Datatypes.S (length ls))) with (n + 1 + Z.of_nat (length ls)) by lia.
    + rewrite Hv2. cbn. by apply foldl_put_same.
Qed.

(** The entries of edits at increasing times. *)
Lemma logged_times name user v es : lg_Time <$> logged name user v es = bson_time <$> es.*2.
Proof. revert v. induction es as [|[req now] es IH]; intros v; [done|]. cbn. by rewrite IH. Qed.

Lemma logged_file name user v es : Forall (of_file name) (logged name user v es).
Proof. revert v. induction es as [|[req now] es IH]; intros v; constructor; [done|apply IH]. Qed.

Lemma logged_old_ok name user v es : Forall (edit_ok name v) es →
  Forall (λ l, pos_ok (c_R (lg_Old l)) (c_C (lg_Old l)) ∧ fits (lg_Old l)) (logged name user v es).
Proof.
  revert v. induction es as [|[req now] es IH]; intros v Hes; [constructor|].
  inversion Hes as [|? ? (Hp & Hf & Ho) Hes']; subst. constructor; [cbn [bson_log lg_Old fst] in *; rewrite (proj2 Ho); by destruct Ho|]. apply IH.
  eapply Forall_impl; [exact Hes'|]. intros e He. by eapply edit_ok_put.
Qed.

Lemma elem_of_rev {A} (x : A) l : x ∈ rev l → x ∈ l.
Proof. rewrite rev_alt. apply elem_of_reverse. Qed.

Lemma ascending_rev (l : list Log) : StronglySorted Z.lt (lg_Time <$> l) →
  StronglySorted (λ x y, lg_Time y <= lg_Time x) (rev l).
Proof.
  induction l as [|x l IH]; intros Hs; [constructor|]. rewrite fmap_cons in Hs. apply StronglySorted_inv in Hs as [Hs Hx]. cbn [rev].
  apply StronglySorted_app_2; [|by apply IH|by repeat constructor].
  intros y z Hy%elem_of_rev Hz%list_elem_of_singleton. subst z.
  rewrite Forall_fmap, Forall_forall in Hx. apply Hx in Hy. unfold compose in Hy. lia.
Qed.

Lemma log_time_inj (l : list Log) x y : StronglySorted Z.lt (lg_Time <$> l) → x ∈ l → y ∈ l → lg_Time x = lg_Time y → x = y.
Proof.
  induction l as [|z l IH]; intros Hs Hx Hy He; [by apply not_elem_of_nil in Hx|]. rewrite fmap_cons in Hs. apply StronglySorted_inv in Hs as [Hs Hz].
  rewrite Forall_fmap, Forall_forall in Hz. unfold compose in Hz.
  apply elem_of_cons in Hx as [->|Hx], Hy as [->|Hy]; [done|specialize (Hz _ Hy); lia|specialize (Hz _ Hx); lia|auto].
Qed.

(** Sorted by descending time, they come latest first. *)
Lemma log_sort_rev (l : list Log) : StronglySorted Z.lt (lg_Time <$> l) → log_sort l = rev l.
Proof.
  intros Hs. apply (StronglySorted_unique_strong (λ x y, lg_Time y <= lg_Time x)).
  - intros x y Hx Hy%elem_of_rev H1 H2.
   
    rewrite (log_sort_perm l) in Hx. apply (log_time_inj l); try done. lia.
  - apply log_sort_desc.
  - by apply ascending_rev.
  - rewrite log_sort_perm. apply Permutation_rev.
Qed.

Lemma filter_split (P : Log → Prop) `{!∀ x, Decision (P x)} l0 l : Forall (λ x, ¬ P x) l0 → Forall P l →
  filter P (l0 ++ l) = l ∧ filter (λ x, ¬ P x) (l0 ++ l) = l0.
Proof.
  intros H0 H1. induction H0 as [|x l0 Hx H0 [IH1 IH2]].
  - cbn [app]. induction H1 as [|x l Hx H1 [IH1 IH2]]; [done|].
    rewrite filter_cons_True, filter_cons_False by (try done; intros Hn; by apply Hn). by rewrite IH1, IH2.
  - cbn [app]. rewrite filter_cons_False, filter_cons_True by done. by rewrite IH1, IH2.
Qed.

Lemma edits_after name user v es ts : Forall (λ t, bson_time ts < t) (bson_time <$> es.*2) → Forall (after name ts) (logged name user v es).
Proof.
  rewrite <- (logged_times name user v es), Forall_fmap. intros Ht. pose proof (logged_file name user v es) as Hf.
  apply Forall_and. split; [exact Ht|exact Hf].
Qed.

Lemma find_all_ok {A} (docs : Mongo → list A) st : mg_faults (g_mongo st) = [] →
  find_all docs st = Some ((docs (g_mongo st), None), st).
Proof. destruct st as [s [fi lo fa] t]. cbn. intros ->. done. Qed.

Lemma UndoLogs_spec name user st a n ts log0 v es :
  ready name st a n → 0 <= n → n + 1 + Z.of_nat (length es) < 2 ^ 64 - 1 →
  mg_log (g_mongo st) = log0 ++ logged name user v es → Forall (λ l, ¬ after name ts l) log0 →
  Forall (edit_ok name v) es → StronglySorted Z.lt (bson_time <$> es.*2) → Forall (λ t, bson_time ts < t) (bson_time <$> es.*2) →
  ∃ st' a' n', UndoLogs name ts st = Some (None, st') ∧ ready name st' a' n'
    ∧ same_view (view a') (foldl (put_view name) (view a) (lg_Old <$> rev (logged name user v es)))
    ∧ g_mongo st' = mkMongo (mg_files (g_mongo st)) log0 [].
Proof.
  intros Hrd H0 Hn Hlog Hl0 Hes Hs Ht. set (L := logged name user v es) in *.
  destruct (filter_split (after name ts) log0 L Hl0 (edits_after _ _ _ _ _ Ht)) as [HL HL0].
  assert (log_sort L = rev L) as Hsort by (apply log_sort_rev; unfold L; by rewrite logged_times).
  assert (length (rev L) = length es) as Hlen.
  { rewrite length_rev, <- (length_fmap lg_Time). unfold L. by rewrite logged_times, !length_fmap. }
  destruct Hrd as [Hst Hl Hfa]. destruct (file_lock_pair name (g_locks st) Hl) as (t1 & t2 & Hlock & Hunlock & Hl2).
  set (st1 := mkGState (g_fs st) (g_mongo st) t1).
  destruct (api_open_spec name st1 a n Hst ltac:(lia)) as (f & s1 & E1 & Hfd & Hst1).
  destruct (undo_all_spec name f (rev L) (mkGState s1 (g_mongo st) t1) (fs_bind a name) (n + 1)) as (s2 & a2 & E2 & Hst2 & Hv2);
    [done|lia|rewrite Hlen; lia|done|by apply Forall_rev, logged_old_ok|].
  eexists (mkGState s2 (mkMongo (mg_files (g_mongo st)) log0 []) t2), a2, _. split_and!; [|split; try done|done|done].
  unfold UndoLogs. unfold mbind at 1, GoM_bind at 1. rewrite find_all_ok by done. cbn [fst].
  rewrite Hlog, HL, Hsort. unfold mbind at 1, GoM_bind at 1. unfold LockFile, on_locks. rewrite Hlock. fold st1.
  unfold mbind at 1, GoM_bind at 1. rewrite E1. unfold mbind at 1, GoM_bind at 1. cbn [g_mongo g_locks st1]. rewrite E2.
  unfold mongo_write, mongo_next, get_mongo, put_log, UnlockFile, on_locks, mbind, GoM_bind. cbn [g_mongo g_locks g_fs mg_faults mg_files mg_log].
  rewrite Hfa. cbn [head from_option tail mret GoM_ret g_mongo mg_log mg_files mg_faults g_locks g_fs].
  by rewrite Hlog, HL0, Hunlock.
Qed.

(** ** The common part *)

(** The JSON text of a sheet without its braces has room in the meta cell and is
    read back with blanks before the closing brace. *)
Definition meta_fits (sheet : Sheet) : Prop := ∃ b, jmarshal sheet = Ok (x7b :: b ++ [x7d]) ∧ (length b ≤ Z.to_nat 8192)%nat
  ∧ ∀ k, junmarshal (x7b :: b ++ replicate k blank ++ [x7d]) = (sheet, None).

Definition stored_common a (name : string) : Sheet * option string :=
  match fs_cells a !! (name, SheetMetaCellID) with
  | Some d => junmarshal (x7b :: d ++ [x7d])
  | None => (zero_Sheet, None)
  end.

Lemma meta_coords : is_u32 SheetMetaCellRow ∧ is_u32 SheetMetaCellCol ∧ GetCellID SheetMetaCellRow SheetMetaCellCol = SheetMetaCellID.
Proof. by split_and!. Qed.

Lemma copy_at_prefix (k : nat) (z : byte) data : length data = k →
  copy_at 0 (Datatypes.S k) (replicate (Datatypes.S k) z) data = data ++ [z].
Proof.
  intros <-. unfold copy_at, splice. rewrite Nat.sub_0_r, take_0, take_ge by lia.
  cbn [app]. f_equal. rewrite drop_replicate. by replace (Datatypes.S (length data) - (0 + length data))%nat with 1%nat by lia.
Qed.

Lemma close_brace (d : list byte) z : <[(length (x7b :: d ++ [z]) - 1)%nat := x7d]> (x7b :: d ++ [z]) = x7b :: d ++ [x7d].
Proof.
  cbn [length]. rewrite length_app. cbn [length]. replace (Datatypes.S (length d + 1) - 1)%nat with (Datatypes.S (length d)) by lia.
  change (x7b :: <[length d := x7d]> (d ++ [z]) = x7b :: d ++ [x7d]). rewrite insert_app_r_alt by lia. by rewrite Nat.sub_diag.
Qed.

Lemma slice_inner (x y : byte) b : slice_of 1 (length (x :: b ++ [y]) - 1) (x :: b ++ [y]) = Some b.
Proof.
  unfold slice_of. cbn [length]. rewrite length_app. cbn [length]. rewrite decide_True by lia. f_equal. rewrite skipn_cons, drop_0.
  rewrite take_app_le by lia. by rewrite take_ge by lia.
Qed.

Lemma decodeCommon_spec st a n f name :
  has_file name (g_fs st) a n → 0 <= n < 2 ^ 64 - 1 → fs_fds a !! file_fd f = Some name →
  ∃ s', decodeCommon f st
      = Some ((fst (stored_common a name), EJson <$> snd (stored_common a name)), mkGState s' (g_mongo st) (g_locks st))
    ∧ has_file name s' a (n + 1).
Proof.
  intros [HR Hs Hv Hk] Hn Hfd. destruct meta_coords as (Hr & Hc & Hm).
  destruct (sf_ReadAt_ok (g_fs st) a n f (replicate (Z.to_nat 8193) x00) _ _ HR Hn Hr Hc) as (r & s' & a' & E & Hst & HR').
  inversion Hst as [| | | | | | | | |? ? ? ? Hu|? ? ? ? nm Hfd'| |]; subst; [congruence|]. simplify_eq.
  exists s'. split; [|by split]. rewrite Hm in E.
  unfold decodeCommon, api_ReadMeta. change (replicate (Z.to_nat 8194) x00) with (x00 :: replicate (Z.to_nat 8193) x00).
  unfold mbind at 1, GoM_bind at 1. unfold stored_common.
  destruct (fs_cells a' !! (name, SheetMetaCellID)) as [d|] eqn:Ed; cbn [read_result] in E;
    (erewrite on_fs_eq; [|unfold mbind, GoM_bind; rewrite E; reflexivity]).
  - pose proof (Hs _ _ _ Ed) as Hd. rewrite length_replicate.
    change (Z.to_nat 8193) with (Datatypes.S (Z.to_nat (cell_size SheetMetaCellID))). rewrite copy_at_prefix by done.
    rewrite close_brace. by destruct (junmarshal (x7b :: d ++ [x7d])).
  - done.
Qed.

(** The text of a sheet has replaced the common part. *)
Definition meta_stored a a' (name : string) (sheet : Sheet) : Prop :=
  ∃ b, jmarshal sheet = Ok (x7b :: b ++ [x7d]) ∧ fs_cells a' = <[(name, SheetMetaCellID) := cell_bytes SheetMetaCellID b [blank]]> (fs_cells a).

Lemma encodeCommon_spec st a n f name sheet :
  has_file name (g_fs st) a n → 0 <= n < 2 ^ 64 - 1 → fs_fds a !! file_fd f = Some name → meta_fits sheet →
  ∃ s' a', encodeCommon f sheet st = Some (None, mkGState s' (g_mongo st) (g_locks st))
    ∧ has_file name s' a' (n + 1) ∧ stored_common a' name = (sheet, None) ∧ same_view (view a') (view a)
    ∧ meta_stored a a' name sheet.
Proof.
  intros [HR Hs Hv Hk] Hn Hfd (b & Hj & Hb & Hu). destruct meta_coords as (Hr & Hc & Hm).
  destruct (sf_WriteAt_ok (g_fs st) a n f b _ _ [blank] HR Hn Hr Hc eq_refl) as (r & s' & a' & E & Hst & HR').
  inversion Hst as [| | | | | | |? ? ? ? ? Hu'|? ? ? ? ? nm Hfd'| | | |]; subst; [congruence|]. simplify_eq. rewrite Hm in *.
  exists s', (fs_store a name SheetMetaCellID (cell_bytes SheetMetaCellID b [blank])). split_and!.
  - unfold encodeCommon, api_WriteMeta. rewrite Hj. unfold mbind at 1, GoM_bind at 1.
    erewrite on_fs_eq; [|rewrite slice_inner; unfold mbind, GoM_bind; cbn [go_deref mret GoM_ret]; rewrite E; reflexivity].
    done.
  - split; [done|by apply sized_store|done|done].
  - unfold stored_common. cbn [fs_store fs_cells]. rewrite lookup_insert_eq. unfold cell_bytes. rewrite take_ge by done.
    rewrite <- app_assoc. apply Hu.
  - intros nm row col (Hr' & Hc' & Hm'). unfold view, value_at, stored_cell. cbn [fst snd fs_store fs_cells].
    rewrite lookup_insert_ne; [done|]. intros [= _ Hid]. by apply Hm'.
  - by exists b.
Qed.

(** The three requests on the common part have one shape: [k] is [None] when
    nothing is to be written. *)
Definition meta_request (k : Sheet → option Sheet) (filename : string) : GoM (GState S) () :=
  r ← on_fs (api_Open filename);
  match r with
  | Err _ => mret ()
  | Ok f =>
      LockMeta filename;;
      r ← decodeCommon f;
      match k (fst r) with
      | None => UnlockMeta filename
      | Some sheet => _ ← encodeCommon f sheet; UnlockMeta filename
      end
  end.

Lemma meta_request_spec k name st a n : ready name st a n → 0 <= n < 2 ^ 64 - 3 →
  (∀ sheet, k (fst (stored_common a name)) = Some sheet → meta_fits sheet) →
  ∃ st' a' n', meta_request k name st = Some ((), st') ∧ ready name st' a' n' ∧ g_mongo st' = g_mongo st
    ∧ stored_common a' name = match k (fst (stored_common a name)) with Some sheet => (sheet, None) | None => stored_common a name end
    ∧ same_view (view a') (view a) ∧ n <= n' <= n + 3
    ∧ match k (fst (stored_common a name)) with Some sheet => meta_stored a a' name sheet | None => fs_cells a' = fs_cells a end.
Proof.
  intros [Hf Hl Hfa] Hn Hfit. destruct (api_open_spec name st a n Hf ltac:(lia)) as (f & s1 & E1 & Hfd & Hf1).
  destruct (cell_lock_pair name (key_of (2 ^ 32 - 1) (2 ^ 32 - 1)) (g_locks st) Hl) as (t1 & t2 & Hlock & Hunlock & Hl2).
  destruct (decodeCommon_spec (mkGState s1 (g_mongo st) t1) (fs_bind a name) (n + 1) f name Hf1 ltac:(lia) Hfd) as (s2 & E2 & Hf2).
  change (stored_common (fs_bind a name) name) with (stored_common a name) in E2.
  unfold meta_request. unfold mbind at 1, GoM_bind at 1. rewrite E1. unfold mbind at 1, GoM_bind at 1.
  unfold LockMeta, LockCell, on_locks. cbn [g_locks g_fs g_mongo]. rewrite Hlock. unfold mbind at 1, GoM_bind at 1. rewrite E2.
  cbn [fst g_mongo g_locks]. destruct (k (fst (stored_common a name))) as [sheet|] eqn:Ek.
  - destruct (encodeCommon_spec (mkGState s2 (g_mongo st) t1) (fs_bind a name) (n + 1 + 1) f name sheet Hf2 ltac:(lia) Hfd (Hfit _ eq_refl))
      as (s3 & a3 & E3 & Hf3 & Hc3 & Hv3 & Hm3).
    exists (mkGState s3 (g_mongo st) t2), a3, (n + 1 + 1 + 1). split_and!; [|by split|done|done|by rewrite Hv3|lia|lia|done].
    unfold mbind, GoM_bind. rewrite E3. unfold UnlockMeta, UnlockCell, on_locks. cbn [g_locks g_mongo g_fs]. by rewrite Hunlock.
  - exists (mkGState s2 (g_mongo st) t2), (fs_bind a name), (n + 1 + 1). split_and!; [|by split|done|done|done|lia|lia|done].
    unfold UnlockMeta, UnlockCell, on_locks. cbn [g_locks g_mongo g_fs]. by rewrite Hunlock.
Qed.

(** What a request does to the common part. *)
Definition config_change (req : UpdateCG) (sheet : Sheet) : option Sheet :=
  match jmarshal (cg_V req) with Err _ => None | Ok convert => config_case (cg_K req) convert sheet end.
Definition common_change (req : UpdateCommon) (sheet : Sheet) : CommonCase :=
  match jmarshal (uc_V req) with Err _ => CReturn | Ok convert => common_case (uc_K req) (uc_V req) convert sheet end.

#[export] Instance CPanic_dec (c : CommonCase) : Decision (c = CPanic).
Proof. destruct c; [by left|by right|by right]. Defined.

Lemma config_is_meta req name st : persistGridConfig req name st = meta_request (config_change req) name st.
Proof.
  unfold persistGridConfig, meta_request, config_change, mbind, GoM_bind.
  destruct (on_fs (api_Open name) st) as [[[f|e] st1]|]; try done. destruct (LockMeta name st1) as [[[] st2]|]; [|done].
  destruct (decodeCommon f st2) as [[[sheet e] st3]|]; [|done]. cbn [fst]. destruct (jmarshal (cg_V req)); [|done].
  by destruct (config_case _ _ _).
Qed.

Lemma common_is_meta req name st : (∀ sheet, common_change req sheet ≠ CPanic) →
  persistGridCommon req name st
  = meta_request (λ sheet, match common_change req sheet with CStore s => Some s | _ => None end) name st.
Proof.
  intros Hp. unfold persistGridCommon, meta_request, common_change, mbind, GoM_bind in *.
  destruct (on_fs (api_Open name) st) as [[[f|e] st1]|]; try done. destruct (LockMeta name st1) as [[[] st2]|]; [|done].
  destruct (decodeCommon f st2) as [[[sheet e] st3]|]; [|done]. cbn [fst]. specialize (Hp sheet). destruct (jmarshal (uc_V req)); [|done].
  by destruct (common_case _ _ _ _).
Qed.

(** Whether a request panics does not depend on the sheet. *)
Lemma common_panics req s1 s2 : common_change req s1 = CPanic → common_change req s2 = CPanic.
Proof.
  unfold common_change, common_case, stored_str, stored, decode_into. destruct (jmarshal (uc_V req)) as [b|e]; [|done].
  repeat (case_decide; [repeat case_match; done|]). done.
Qed.

Lemma persistGridCommon_panics req name st a n : ready name st a n → 0 <= n < 2 ^ 64 - 3 →
  common_change req (fst (stored_common a name)) = CPanic → persistGridCommon req name st = None.
Proof.
  intros [Hf Hl Hfa] Hn Hp. destruct (api_open_spec name st a n Hf ltac:(lia)) as (f & s1 & E1 & Hfd & Hf1).
  destruct (cell_lock_pair name (key_of (2 ^ 32 - 1) (2 ^ 32 - 1)) (g_locks st) Hl) as (t1 & t2 & Hlock & _ & _).
  destruct (decodeCommon_spec (mkGState s1 (g_mongo st) t1) (fs_bind a name) (n + 1) f name Hf1 ltac:(lia) Hfd) as (s2 & E2 & _).
  unfold persistGridCommon. unfold mbind at 1, GoM_bind at 1. rewrite E1. unfold mbind at 1, GoM_bind at 1.
  unfold LockMeta, LockCell, on_locks. cbn [g_locks g_fs g_mongo]. rewrite Hlock. unfold mbind at 1, GoM_bind at 1. rewrite E2.
  cbn [fst]. apply (common_panics _ _ (fst (stored_common (fs_bind a name) name))) in Hp. unfold common_change in Hp.
  destruct (jmarshal (uc_V req)); [|done]. by rewrite Hp.
Qed.

(** ** What users see *)


(** A user reads a cell. *)
Definition read_cell (name : string) (row col : Z) : GoM (GState S) (Cell * option GError) :=
  r ← on_fs (api_Open name);
  match r with Err e => mret (zero_Cell, Some (EFs e)) | Ok f => decodeCell f row col end.

(** A cell that is written is read back unchanged, the value of every other cell
    is as before, and the log has one entry more, with the value replaced. *)
Theorem edit_read_back name user req now st a n :
  ready name st a n → 0 <= n < 2 ^ 64 - 6 → pos_ok (c_R (uv_Cell req)) (c_C (uv_Cell req)) → fits (uv_Cell req) →
  ∃ st1 st2 a', persistGridValue req name user now st = Some ((), st1)
    ∧ read_cell name (c_R (uv_Cell req)) (c_C (uv_Cell req)) st1 = Some ((uv_Cell req, None), st2)
    ∧ same_view (view a') (put_view name (view a) (uv_Cell req)) ∧ sf_rel (g_fs st1) a' (n + 3)
    ∧ mg_log (g_mongo st1) = mg_log (g_mongo st) ++ [bson_log (mkLog name user (uv_Cell req) (old_cell name (view a) (uv_Cell req)) now)].
Proof.
  intros Hrd Hn Hp Hf. destruct (edit_spec name user st a n req now Hrd ltac:(lia) Hp Hf) as (st1 & a1 & E1 & Hrd1 & Hv1 & Hc1 & _ & _ & Hl1).
  destruct (api_open_spec name st1 a1 (n + 3) (rd_file _ _ _ _ Hrd1) ltac:(lia)) as (f & s2 & E2 & Hfd & Hf2).
  destruct (decodeCell_spec (mkGState s2 (g_mongo st1) (g_locks st1)) (fs_bind a1 name) (n + 3 + 1) f name (c_R (uv_Cell req)) (c_C (uv_Cell req)))
    as (s3 & E3 & _); [apply Hf2|lia|done|done|apply Hf2|].
  eexists st1, _, a1. split_and!; [done| |done|apply Hrd1|done]. unfold read_cell, mbind, GoM_bind. rewrite E2, E3.
  change (stored_cell (fs_bind a1 name) name) with (stored_cell a1 name). by rewrite Hc1.
Qed.

End props.
