(* ===== verification/GdocFiles.v ===== *)
(** GdocFiles: the table of files of the gDoc backend.

    Source: gDoc_backend/handler/service.go (CreateFile, DeleteFile, Recycle,
    DeleteForever).  The collection of file records is a list of documents; the
    result of this file is that it behaves as a map from titles to the mark of
    the recycle bin, whatever MongoDB answers. *)
From Stdlib Require Import ZArith Lia Strings.Byte.
From stdpp Require Import gmap strings list.
From S2P Require Import Prelude.
From S2P Require Import MasterData.
From S2P Require Import FsClient.
From S2P Require Import FileSystem.
From S2P Require Import Locks.
From S2P Require Import GdocModel.
From S2P Require Import GdocFs.
From S2P Require Import GdocHandler.
From S2P Require Import GdocLocks.
Open Scope Z_scope.

Create HintDb mongo.

(** ** The abstract table *)
Inductive FileOp :=
| FCreate (name : string)
| FDelete (name : string)
| FRecycle (name : string)
| FForever (name : string).

Abbreviation Table := (gmap string bool).
Definition table (l : list FileRecord) : Table := list_to_map ((λ r, (Title r, IsDeleted r)) <$> l).

(** What an operation does to the table.  [refused] are the errors with which the file
    system or the encoder can refuse a new file, [ans] the answers of MongoDB.  An error of
    MongoDB does not tell whether the operation was executed. *)
Inductive table_step (refused : string → GError → Prop) (ans : list MongoAnswer) (t : Table)
  : FileOp → option GError → Table → Prop :=
| ts_create name : t !! name = None → table_step refused ans t (FCreate name) None (<[name := false]> t)
| ts_duplicate name : is_Some (t !! name) → table_step refused ans t (FCreate name) (Some EDuplicate) t
| ts_refused name e : refused name e → table_step refused ans t (FCreate name) (Some e) t
| ts_delete name : table_step refused ans t (FDelete name) None (alter (λ _, true) name t)
| ts_recycle name : table_step refused ans t (FRecycle name) None (alter (λ _, false) name t)
| ts_forever name : table_step refused ans t (FForever name) None (delete name t)
| ts_lost op : Exists (λ r, r ≠ MOk) ans → table_step refused ans t op (Some EMongo) t
| ts_applied op t' : Exists (λ r, r ≠ MOk) ans → table_step refused ans t op None t' →
    table_step refused ans t op (Some EMongo) t'.

(** ** Lists of records *)
Lemma titles_mark name b l : Title <$> mark_first name b l = Title <$> l.
Proof. induction l as [|r l IH]; [done|]. cbn [mark_first]. case_decide; cbn; by rewrite ?IH. Qed.

Lemma titles_drop name l x : x ∈ Title <$> drop_first name l → x ∈ Title <$> l.
Proof.
  induction l as [|r l IH]; [done|]. cbn [drop_first]. case_decide; rewrite ?fmap_cons, ?elem_of_cons; [by right|]. intros [?|?]; auto.
Qed.

Lemma nodup_drop name l : NoDup (Title <$> l) → NoDup (Title <$> drop_first name l).
Proof.
  induction l as [|r l IH]; [done|]. cbn [drop_first]. rewrite fmap_cons, NoDup_cons. intros [Hr Hl]. case_decide; [done|].
  rewrite fmap_cons, NoDup_cons. split; [|auto]. contradict Hr. by apply (titles_drop name).
Qed.

Lemma table_cons r l : table (r :: l) = <[Title r := IsDeleted r]> (table l).
Proof. done. Qed.

Lemma table_None name l : name ∉ Title <$> l ↔ table l !! name = None.
Proof.
  induction l as [|r l IH]; [by split; [done|intros _ ?%elem_of_nil]|].
  rewrite fmap_cons, not_elem_of_cons, IH, table_cons, lookup_insert_None. split; intros [? ?]; split; congruence.
Qed.

Lemma table_mark name b l : table (mark_first name b l) = alter (λ _, b) name (table l).
Proof.
  induction l as [|r l IH]; [symmetry; apply alter_empty|]. cbn [mark_first]. case_decide as H; rewrite !table_cons; cbn.
  - subst. by rewrite alter_insert_eq.
  - by rewrite IH, alter_insert_ne.
Qed.

Lemma table_drop name l : NoDup (Title <$> l) → table (drop_first name l) = delete name (table l).
Proof.
  induction l as [|r l IH]; [symmetry; apply delete_empty|]. rewrite fmap_cons, NoDup_cons. intros [Hr Hl].
  cbn [drop_first]. case_decide as H; rewrite !table_cons.
  - subst. rewrite delete_insert_eq. symmetry. apply delete_id. by apply table_None.
  - rewrite IH by done. by rewrite delete_insert_ne.
Qed.

Lemma table_snoc name b l : name ∉ Title <$> l → table (l ++ [mkFileRecord name b]) = <[name := b]> (table l).
Proof.
  induction l as [|r l IH]; [done|]. rewrite fmap_cons, not_elem_of_cons. intros [Hne Hl]. cbn [app].
  rewrite !table_cons, IH by done. by rewrite insert_insert_ne.
Qed.

(** ** The operations *)
Section files.
Context {S : Type} {F : SheetFs S} {FL : SheetFsLaws S} {JS : GoJson}.

Definition run_file_op (op : FileOp) : GoM (GState S) (option GError) :=
  match op with
  | FCreate name => CreateFile name
  | FDelete name => DeleteFile name
  | FRecycle name => Recycle name
  | FForever name => DeleteForever name
  end.

(** Steps that do not touch the collections. *)
Definition keeps {A} (m : GoM (GState S) A) : Prop := ∀ st x st', m st = Some (x, st') → g_mongo st' = g_mongo st.

Lemma keeps_ret {A} (x : A) : keeps (mret x).
Proof. by intros st y st' [= <- <-]. Qed.
Lemma keeps_bind {A B} (m : GoM (GState S) A) (k : A → GoM (GState S) B) : keeps m → (∀ x, keeps (k x)) → keeps (m ≫= k).
Proof.
  intros Hm Hk st x st'. unfold mbind, GoM_bind. destruct (m st) as [[y st1]|] eqn:E; [|done]. intros Ek.
  by rewrite (Hk _ _ _ _ Ek), (Hm _ _ _ E).
Qed.
Lemma keeps_fs {A} (m : GoM S A) : keeps (on_fs m).
Proof. intros st x st'. unfold on_fs. destruct (m (g_fs st)) as [[y s]|]; [|done]. by intros [= <- <-]. Qed.
Lemma keeps_locks m : keeps (on_locks m).
Proof. intros st x st'. unfold on_locks. destruct (m (g_locks st)) as [t|]; [|done]. by intros [= <- <-]. Qed.
#[local] Hint Resolve keeps_ret keeps_bind keeps_fs keeps_locks : mongo.

Lemma keeps_write_new f name sheet : keeps (write_new_sheet f name sheet).
Proof. unfold write_new_sheet, LockMeta, LockCell, UnlockMeta, UnlockCell. destruct (jmarshal sheet); auto 10 with mongo. Qed.

Lemma keeps_initSheet name : keeps (initSheet name).
Proof.
  unfold initSheet. apply keeps_bind; [auto with mongo|]. intros [f|e]; [|auto with mongo].
  apply keeps_bind; [auto with mongo|]. intros _. apply keeps_write_new.
Qed.

(** The file system has served at most [n] calls and the locks are free. *)
Record answers (st : GState S) (n : Z) : Prop := {
  an_fs : ∃ a k, sf_rel (g_fs st) a k ∧ 0 <= k <= n;
  an_locks : locks_free (g_locks st);
  an_json : ∀ name b, jmarshal (new_Sheet name 1) = Ok b → (2 ≤ length b)%nat
}.

(** An operation of this file makes two calls at most. *)
Lemma answers_later st st' n : answers st n → g_fs st' = g_fs st → locks_free (g_locks st') → answers st' (n + 2).
Proof. intros [(a & k & HR & Hk) Hl Hj] Hf Hl'. split; [|done|done]. rewrite Hf. exists a, k. split; [done|lia]. Qed.

(** Why the creation of a file can be refused before MongoDB is asked. *)
Definition refused_by (st : GState S) (name : string) (e : GError) : Prop :=
  (∃ x s', sf_Create name (g_fs st) = Some (Err x, s') ∧ e = EFs x)
  ∨ ∃ m, jmarshal (new_Sheet name 1) = Err m ∧ e = EJson m.

(** The first write to a file that was just created succeeds. *)
Lemma first_write_ok a f name a' b row col padding r a2 : fs_step a (OCreate name) (ResFile (Ok f)) a' →
  fs_step a' (OWrite f b row col padding) (ResCount r) a2 → ∃ k, r = Ok k.
Proof.
  intros Hc Hw. inversion Hc; subst. inversion Hw; subst; [|by eexists].
  match goal with H : fs_fds (fs_bind _ _) !! _ = None |- _ => cbn in H; by rewrite lookup_insert_eq in H end.
Qed.

Lemma initSheet_returns name st n : answers st n → n < 2 ^ 64 - 3 → ∃ e st', initSheet name st = Some (e, st') ∧ answers st' (n + 2)
  ∧ (∀ x, e = Some x → refused_by st name x).
Proof.
  intros [(a & k & HR & Hk) Hl Hj] Hn. destruct (sf_Create_ok (g_fs st) a k name HR ltac:(lia)) as (r & s1 & a1 & E1 & Hs1 & HR1).
  unfold initSheet. unfold mbind at 1, GoM_bind at 1. unfold on_fs at 1. unfold api_Create. rewrite E1.
  destruct r as [f|e].
  2:{ eexists _, _. split_and!; [done|split; [exists a1, (k + 1); split; [done|lia]|done|done]|].
      intros x [= <-]. left. by eexists _, _. }
  unfold mbind at 1, GoM_bind at 1. unfold on_locks at 1. cbn [g_fs g_mongo g_locks].
  destruct (free_AddFileLock name (g_locks st) Hl) as [Hl1 _]. unfold write_new_sheet.
  destruct (jmarshal (new_Sheet name 1)) as [b|e] eqn:Ej.
  2:{ eexists _, _. split_and!; [done|split; [exists a1, (k + 1); split; [done|lia]|done|done]|].
      intros x [= <-]. right. by eexists. }
  specialize (Hj name b Ej) as Hb.
  destruct (cell_lock_pair name (key_of (2 ^ 32 - 1) (2 ^ 32 - 1)) _ Hl1) as (t1 & t2 & Hlock & Hunlock & Hl2).
  assert (∃ x s2 a2, on_fs (api_WriteMeta f b) (mkGState s1 (g_mongo st) t1) = Some ((x, None), mkGState s2 (g_mongo st) t1) ∧ sf_rel s2 a2 (k + 1 + 1))
    as (x & s2 & a2 & E2 & HR2).
  { unfold on_fs, api_WriteMeta, slice_of. rewrite decide_True by lia. unfold mbind, GoM_bind. cbn [go_deref mret GoM_ret g_fs].
    destruct (sf_WriteAt_ok s1 a1 (k + 1) f (take (length b - 1 - 1) (drop 1 b)) SheetMetaCellRow SheetMetaCellCol [blank] HR1)
      as (r & s2 & a2 & E2 & Hs2 & HR2); [lia|done|done|done|].
    destruct (first_write_ok a f name a1 _ _ _ _ r a2 Hs1 Hs2) as [c ->]. rewrite E2. by eexists _, _, _. }
  unfold LockMeta, LockCell. unfold mbind at 1, GoM_bind at 1. unfold on_locks at 1. cbn [g_locks g_fs g_mongo]. rewrite Hlock.
  unfold mbind at 1, GoM_bind at 1. rewrite E2. unfold UnlockMeta, UnlockCell, mbind, GoM_bind, on_locks. cbn [g_locks g_fs g_mongo].
  rewrite Hunlock. eexists _, _. split_and!; [done|split; [exists a2, (k + 1 + 1); split; [done|lia]|done|done]|done].
Qed.

Abbreviation files st := (mg_files (g_mongo st)).

(** The answers an operation on the table uses, and those that are left. *)
Definition next_answers (st : GState S) : list MongoAnswer := take 2 (mg_faults (g_mongo st)).
Definition answers_left (st st' : GState S) : Prop := ∃ k, (k ≤ 2)%nat ∧ mg_faults (g_mongo st') = drop k (mg_faults (g_mongo st)).

(** What an operation on the table guarantees. *)
Definition op_served (op : FileOp) (st : GState S) (n : Z) (e : option GError) (st' : GState S) : Prop :=
  answers st' (n + 2) ∧ NoDup (Title <$> files st') ∧ answers_left st st'
  ∧ table_step (refused_by st) (next_answers st) (table (files st)) op e (table (files st')).

(** The answer of one call. *)
Lemma next_cases (st : GState S) : let r := default MOk (head (mg_faults (g_mongo st))) in
  (r ≠ MOk → Exists (λ r, r ≠ MOk) (next_answers st))
  ∧ (default MOk (head (tail (mg_faults (g_mongo st)))) ≠ MOk → Exists (λ r, r ≠ MOk) (next_answers st)).
Proof. unfold next_answers. destruct (mg_faults (g_mongo st)) as [|x [|y l]]; cbn; split; intros H; try done; by repeat constructor. Qed.

Lemma tail_drop {A} (l : list A) : tail l = drop 1 l.
Proof. by destruct l. Qed.

Lemma create_refines name st n : answers st n → n < 2 ^ 64 - 3 → NoDup (Title <$> files st) →
  ∃ e st', CreateFile name st = Some (e, st') ∧ op_served (FCreate name) st n e st'.
Proof.
  intros Ha Hn Hnd. destruct (initSheet_returns name st n Ha Hn) as (e & st1 & E & Ha1 & Hrf). pose proof (keeps_initSheet name _ _ _ E) as Hk.
  destruct (next_cases st) as [Hc1 Hc2].
  unfold CreateFile. unfold mbind at 1, GoM_bind at 1. rewrite E. destruct e as [e|].
  { eexists _, st1. split; [done|]. split; [done|]. rewrite Hk. split_and!; [done|exists 0%nat; rewrite Hk; split; [lia|done]|by apply ts_refused, Hrf]. }
  destruct st1 as [s1 m1 t1]. cbn in Hk. subst m1. unfold mongo_ok, mongo_write, mongo_next, get_mongo, put_files, mbind, GoM_bind. cbn [g_mongo g_fs g_locks].
  destruct Ha1 as [Hf Hl Hj]. cbn in Hf, Hl.
  assert (∀ k l, (k ≤ 2)%nat → answers_left st (mkGState s1 (mkMongo l (mg_log (g_mongo st)) (drop k (mg_faults (g_mongo st)))) t1)) as Hleft
    by (intros k l Hk; by exists k).
  rewrite !tail_drop in *.
  destruct (default MOk (head (mg_faults (g_mongo st)))) eqn:Er1; cbn [mret GoM_ret];
    [|by eexists _, _; split; [done|]; split_and!; [split; done|done|by apply Hleft; lia|by apply ts_lost, Hc1]..].
  cbn [mg_files mg_faults g_mongo g_fs g_locks]. case_decide as Hin.
  { eexists _, _. split; [done|]. split_and!; [split; done|done|apply Hleft; lia|]. apply ts_duplicate. cbn [g_mongo mg_files].
    destruct (table _ !! name) eqn:Et; [by eexists|]. by apply table_None in Et. }
  assert (NoDup (Title <$> files st ++ [mkFileRecord name false])) as Hnd'.
  { rewrite fmap_app. apply NoDup_app. split_and!; [done| |apply NoDup_singleton]. intros x Hx Hx'%list_elem_of_singleton. by subst. }
  cbn [g_mongo mg_faults]. rewrite tail_drop, drop_drop. change (1 + 1)%nat with 2%nat.
  destruct (default MOk (head (drop 1 (mg_faults (g_mongo st))))) eqn:Er2; cbn [mret GoM_ret g_mongo g_fs g_locks mg_files mg_log mg_faults];
    eexists _, _; (split; [done|]); split_and!; try (split; done); try done; try (apply Hleft; lia); cbn [g_mongo mg_files].
  - rewrite table_snoc by done. constructor. by apply table_None.
  - by apply ts_lost, Hc2.
  - rewrite table_snoc by done. apply ts_applied; [by apply Hc2|]. constructor. by apply table_None.
Qed.

Lemma free_DeleteFileLock f t : locks_free t → locks_free (DeleteFileLock f t).
Proof.
  intros [[Hc Hd Hf Hfd] Hs].
  assert (∀ f' c m, find_cell_lock f' c (DeleteFileLock f t) = Some m → find_cell_lock f' c t = Some m) as Hfind.
  { intros f' c m. unfold find_cell_lock. cbn. rewrite !bind_Some. intros (cells & [_ H]%lookup_delete_Some & Hm). eauto. }
  split; [split|].
  - intros f' c m H. apply (Hc f' c m), Hfind, H.
  - intros f1 c1 f2 c2 m H1 H2. apply (Hd f1 c1 f2 c2 m); by apply Hfind.
  - intros f' r. cbn. intros [_ H]%lookup_delete_Some. by apply (Hf f').
  - intros f1 f2 r. cbn. intros [_ H1]%lookup_delete_Some [_ H2]%lookup_delete_Some. by apply (Hfd f1 f2 r).
  - intros f'. cbn. intros [r [Hne H]%lookup_delete_Some]. rewrite lookup_delete_ne by done. apply Hs. by eexists.
Qed.

(** The list of file records behaves as a map from titles to the mark of the
    recycle bin: an operation always returns, does what [table_step] says, and leaves
    the titles unique. *)
Lemma file_op_refines op st n : answers st n → n < 2 ^ 64 - 3 → NoDup (Title <$> files st) →
  ∃ e st', run_file_op op st = Some (e, st') ∧ op_served op st n e st'.
Proof.
  intros Ha Hn Hnd. destruct op as [name|name|name|name]; [by apply create_refines|..]; destruct (next_cases st) as [Hc1 Hc2].
  1,2: cbn [run_file_op]; unfold DeleteFile, Recycle, set_mark, mongo_write, mongo_next, get_mongo, put_files, mbind, GoM_bind;
    destruct (default MOk (head (mg_faults (g_mongo st)))) eqn:Er; cbn [mret GoM_ret g_mongo mg_files mg_log mg_faults g_fs g_locks];
    eexists _, _; (split; [reflexivity|]); (split_and!; [apply (answers_later st); [done|done|apply Ha]| | |]);
    cbn [g_mongo mg_files mg_faults]; rewrite ?titles_mark, ?table_mark; try done;
    try (exists 1%nat; split; [lia|]; by rewrite tail_drop);
    first [by constructor | by apply ts_lost, Hc1 | by apply ts_applied; [apply Hc1|constructor]].
  cbn [run_file_op]. unfold DeleteForever, mongo_write, mongo_next, get_mongo, put_files, put_log, on_locks, mbind, GoM_bind.
  destruct (default MOk (head (mg_faults (g_mongo st)))) eqn:Er1; cbn [mret GoM_ret g_mongo mg_files mg_log mg_faults g_fs g_locks].
  - destruct (default MOk (head (tail (mg_faults (g_mongo st))))) eqn:Er2; cbn [mret GoM_ret g_mongo mg_files mg_log mg_faults g_fs g_locks];
      eexists _, _; (split; [reflexivity|]); (split_and!; [apply (answers_later st); [done|done|apply free_DeleteFileLock, Ha]| | |]);
      cbn [g_mongo mg_files mg_faults]; rewrite ?table_drop by done; try (by apply nodup_drop);
      try (exists 2%nat; split; [lia|]; by rewrite !tail_drop, drop_drop);
      first [by constructor | by apply ts_applied; [apply Hc2|constructor]].
  - eexists _, _; split; [reflexivity|]. split_and!; [apply (answers_later st); [done|done|apply Ha]|done| |by apply ts_lost, Hc1].
    exists 1%nat. split; [lia|]. by rewrite <- tail_drop.
  - eexists _, _; split; [reflexivity|]. split_and!; [apply (answers_later st); [done|done|apply Ha]|by apply nodup_drop| |].
    + exists 1%nat. split; [lia|]. by rewrite <- tail_drop.
    + cbn [g_mongo mg_files]. rewrite table_drop by done. apply ts_applied; [by apply Hc1|constructor].
Qed.
End files.
