(* ===== verification/GdocDemo.v ===== *)
(** GdocDemo: concrete instances of the parameters of the gDoc backend.

    The specification of the file system executed as a store, a JSON codec for
    cells with a one-letter text and sheets with a one-letter name, and the sort
    of the log; the theorems of GdocProps.v applied to them. *)
From Stdlib Require Import ZArith Lia Strings.Byte.
From stdpp Require Import gmap strings list sorting.
From S2P Require Import Prelude.
From S2P Require Import DataNode.
From S2P Require Import MasterData.
From S2P Require Import MasterServer.
From S2P Require Import FsClient.
From S2P Require Import EndToEnd.
From S2P Require Import FsCalls.
From S2P Require Import SheetRead.
From S2P Require Import FileSystem.
From S2P Require Import Locks.
From S2P Require Import GdocModel.
From S2P Require Import GdocFs.
From S2P Require Import GdocHandler.
From S2P Require Import GdocLocks.
From S2P Require Import GdocProps.
From S2P Require Import GdocFiles.
Open Scope Z_scope.

(** ** The specification as a store *)
Definition mem_open (name : string) (a : Fs) : result ClientError File * Fs :=
  if bad_name name then (Err ErrInvalid, a)
  else if decide (name ∈ fs_names a) then (Ok (mkFile' (fs_next a) name), fs_bind a name) else (Err ErrNotExist, a).

Definition mem_create (name : string) (a : Fs) : result ClientError File * Fs :=
  if bad_name name then (Err ErrInvalid, a)
  else if decide (name ∈ fs_names a) then (Err ErrExist, a) else (Ok (mkFile' (fs_next a) name), fs_bind a name).

Definition mem_read (f : File) (b : list byte) (row col : Z) (a : Fs) : result ClientError (Z * list byte) * Fs :=
  match fs_fds a !! file_fd f with
  | None => (Err (UnexpectedStatusError Status_NotFound), a)
  | Some name => (read_result (GetCellID row col) b (fs_cells a !! (name, GetCellID row col)), a)
  end.

Definition mem_write (f : File) (b : list byte) (row col : Z) (padding : list byte) (a : Fs) : result ClientError Z * Fs :=
  match fs_fds a !! file_fd f with
  | None => (Err ErrNotExist, a)
  | Some name => (Ok (Z.of_nat (length b)), fs_store a name (GetCellID row col) (cell_bytes (GetCellID row col) b padding))
  end.

(** The cells of a file, one after the other. *)
Definition mem_cells (name : string) (a : Fs) : list (Z * list byte) :=
  omap (λ kd, if decide (kd.1.1 = name ∧ kd.1.2 ≠ SheetMetaCellID) then Some (kd.1.2, kd.2) else None) (map_to_list (fs_cells a)).

Definition mem_sheet (f : File) (a : Fs) : list byte * Z * option ClientError :=
  match fs_fds a !! file_fd f with
  | None => ([], -1, Some ErrNotExist)
  | Some name =>
      let res := connect (mjoin (mem_cells name a).*2) (default [] (fs_cells a !! (name, SheetMetaCellID))) in
      (res, Z.of_nat (length res), None)
  end.

Lemma elem_of_mem_cells name a id d : (id, d) ∈ mem_cells name a ↔ fs_cells a !! (name, id) = Some d ∧ id ≠ SheetMetaCellID.
Proof.
  unfold mem_cells. rewrite list_elem_of_omap. split.
  - intros ([[nm i] e] & Hin%elem_of_map_to_list & H). cbn in H. case_decide as Hd; [|done]. destruct Hd as [-> Hd]. by simplify_eq.
  - intros [Hin Hid]. exists ((name, id), d). split; [by apply elem_of_map_to_list|]. cbn. by rewrite decide_True.
Qed.

Lemma mem_cells_nodup name a : NoDup (mem_cells name a).*1.
Proof.
  unfold mem_cells. pose proof (NoDup_fst_map_to_list (fs_cells a)) as Hnd. induction (map_to_list (fs_cells a)) as [|[[nm i] e] l IH]; [constructor|].
  cbn [fmap list_fmap] in Hnd. apply NoDup_cons in Hnd as [Hni Hnd]. cbn [omap list_omap]. case_decide as Hd; [|by apply IH].
  cbn [fst snd] in *. destruct Hd as [-> _]. apply NoDup_cons. split; [|by apply IH].
  intros ([j d] & Hj & Hin)%list_elem_of_fmap_1. apply list_elem_of_omap in Hin as ([[nm' i'] e'] & Hin & Hx). cbn in Hj, Hx. subst j.
  case_decide as Hd'; [|done]. simplify_eq. destruct Hd' as [-> _]. apply Hni. by apply (list_elem_of_fmap_2 fst) in Hin.
Qed.

Lemma mem_sheet_text name a : sheet_text (fs_cells a) name (mjoin (mem_cells name a).*2).
Proof.
  assert (omap fst ((λ p : Z * list byte, (Some p.1, p.2)) <$> mem_cells name a) = (mem_cells name a).*1) as Hids.
  { induction (mem_cells name a) as [|x l IH]; [done|]. cbn. by rewrite <- IH. }
  exists ((λ p, (Some p.1, p.2)) <$> mem_cells name a). rewrite Hids, <- list_fmap_compose. split_and!; [done| |apply mem_cells_nodup|].
  - apply Forall_fmap, Forall_forall. intros [id d] [Hin _]%elem_of_mem_cells. done.
  - intros id. split.
    + intros ([id' d] & -> & [Hin Hne]%elem_of_mem_cells)%list_elem_of_fmap_1. split; [done|by exists d].
    + intros [Hne [d Hd]]. apply (list_elem_of_fmap_2' fst _ (id, d)); [|done]. by apply elem_of_mem_cells.
Qed.

#[export] Instance mem_fs : SheetFs Fs := {
  sf_Create name := λ a, Some (mem_create name a);
  sf_Open name := λ a, Some (mem_open name a);
  sf_Delete _ := go_panic;
  sf_ReadAt f b row col := λ a, Some (mem_read f b row col a);
  sf_WriteAt f b row col padding := λ a, Some (mem_write f b row col padding a);
  sf_Read f := λ a, Some (mem_sheet f a, a)
}.

#[export] Instance mem_fs_laws : SheetFsLaws Fs.
Proof.
  refine {| sf_rel := λ s a (_ : Z), s = a |}.
  - intros s a n name <- _. exists (fst (mem_create name s)), (snd (mem_create name s)), (snd (mem_create name s)).
    split_and!; [by cbn; destruct (mem_create name s)| |done]. unfold mem_create. destruct (bad_name name) eqn:E; [by constructor|].
    case_decide; by constructor.
  - intros s a n name <- _. exists (fst (mem_open name s)), (snd (mem_open name s)), (snd (mem_open name s)).
    split_and!; [by cbn; destruct (mem_open name s)| |done]. unfold mem_open. destruct (bad_name name) eqn:E; [by constructor|].
    case_decide; by constructor.
  - intros s a n f b row col <- _ _ _. exists (fst (mem_read f b row col s)), s, s. cbn. unfold mem_read.
    destruct (fs_fds s !! file_fd f) eqn:E; split_and!; try done; by constructor.
  - intros s a n f b row col padding <- _ _ _ _. exists (fst (mem_write f b row col padding s)), (snd (mem_write f b row col padding s)), (snd (mem_write f b row col padding s)).
    cbn. unfold mem_write. destruct (fs_fds s !! file_fd f) eqn:E; split_and!; try done; by constructor.
  - intros s a n f <- _. exists (mem_sheet f s), s, s. split_and!; [done| |done]. unfold mem_sheet.
    destruct (fs_fds s !! file_fd f) eqn:E; [|by constructor]. by apply (fs_sheet s f s0), mem_sheet_text.
Defined.

(** ** A codec *)
Definition byte_of_Z (z : Z) : byte := default x00 (Byte.of_nat (Z.to_nat z)).
Definition letter (s : string) : byte := match s with String c _ => Ascii.byte_of_ascii c | EmptyString => x00 end.
Definition unletter (b : byte) : string := if Byte.eqb b x00 then "" else String (Ascii.ascii_of_byte b) "".

(** A cell value that is nothing but a text. *)
Definition text_value (m : string) : CellValue :=
  mkCellValue "" 0 0 None "" "" "" ANil 0 m None "" ANil ANil ANil ANil ANil None.

Definition demo_cell_json : JsonT Cell := {|
  jmarshal c := Ok [x7b; byte_of_Z (c_R c); byte_of_Z (c_C c); letter (cv_M (c_V c))];
  junmarshal b := match b with
                  | _ :: r :: c :: m :: _ => (mkCell (Z.of_nat (Byte.to_nat c)) (Z.of_nat (Byte.to_nat r)) (text_value (unletter m)), None)
                  | _ => (zero_Cell, Some "unexpected end of JSON input")
                  end |}.

(** The cells of an array, and what follows it. *)
Fixpoint demo_cells (b : list byte) : list Cell * list byte :=
  match b with
  | [] => ([], [])
  | x :: rest =>
      if Byte.eqb x x5d then ([], rest)
      else if Byte.eqb x x7b then
        match rest with
        | _ :: _ :: _ :: rest' => let '(cs, l) := demo_cells rest' in (fst (junmarshal (JsonT := demo_cell_json) b) :: cs, l)
        | _ => ([], [])
        end
      else demo_cells rest
  end.

Definition demo_fields (f m : byte) : Sheet := set_Config (if Byte.eqb f x01 then Some zero_SheetConfig else None) (set_Name (unletter m) zero_Sheet).

Definition demo_read_sheet (r : list Cell * list byte) : Sheet * option string :=
  match r.2 with
  | _ :: f :: m :: _ => (set_Celldata r.1 (demo_fields f m), None)
  | _ => (zero_Sheet, Some "unexpected end of JSON input")
  end.

(** A text that starts with a member has an array of cells first. *)
Definition demo_sheet_json : JsonT Sheet := {|
  jmarshal s := Ok [x7b; match sh_Config s with Some _ => x01 | None => x00 end; letter (sh_Name s); x7d];
  junmarshal b := match b with
                  | _ :: x22 :: _ => demo_read_sheet (demo_cells (drop 14 b))
                  | _ :: f :: m :: _ => (demo_fields f m, None)
                  | _ => (zero_Sheet, Some "unexpected end of JSON input")
                  end |}.

Definition demo_edit (r c : Z) (m : string) : UpdateV := mkUpdateV (mkCell c r (text_value m)) "0" "v".
Definition demo_range : UpdateRV :=
  mkUpdateRV "0" (mkIntRange [5; 6] [3; 4]) "rv" [[text_value "p"; text_value "q"]; [text_value "r"; text_value "s"]].
Definition demo_cg : UpdateCG := mkUpdateCG "cg" "0" "rowlen" ANil.

(** Messages: the first byte is the kind; an edit has the position and a letter. *)
Definition demo_kind (b : list byte) : string :=
  match b with x76 :: _ => "v" | x72 :: _ => "rv" | x67 :: _ => "cg" | _ => "" end.
Definition demo_edit_json : JsonT UpdateV := {|
  jmarshal _ := Ok [];
  junmarshal b := match b with
                  | _ :: r :: c :: m :: _ => (demo_edit (Z.of_nat (Byte.to_nat r)) (Z.of_nat (Byte.to_nat c)) (unletter m), None)
                  | _ => (mkUpdateV zero_Cell "" "", Some "unexpected end of JSON input")
                  end |}.

(** A type of which only the value [z] occurs. *)
Definition only {T} (z : T) : JsonT T := {| jmarshal _ := Ok []; junmarshal _ := (z, None) |}.

#[export] Instance demo_json : GoJson := {
  json_Cell := demo_cell_json;
  json_Sheet := demo_sheet_json;
  json_Any := only ANil;
  json_Borders := only [];
  json_Floats := only ∅;
  json_Frozen := only (mkFrozen 0 0 "");
  json_SheetConfig := only zero_SheetConfig;
  json_FilterSelect := only (mkFilterSelect [] [] zero_float zero_float zero_float zero_float zero_float zero_float zero_float zero_float
    zero_float zero_float);
  json_Filters := only ∅;
  json_AlternateFormatSaves := only [];
  json_ConditionFormatSaves := only [];
  json_PivotTable := only (mkPivotTable [] false [] 0 [] [] (mkIntRange [] []) [] "" []);
  json_DynamicArrays := only [];
  json_CalcChain := only (mkCalcChain 0 "" [] "" ANil 0 0);
  json_UpdateV := demo_edit_json;
  json_UpdateRV := only demo_range;
  json_UpdateCG := only demo_cg;
  json_UpdateCommon := only (mkUpdateCommon "" "" "" ANil);
  json_UpdateCalcChain := only (mkUpdateCalcChain "" "" 0 "" "");
  json_T := demo_kind
}.

(** ** The sort of the log *)
Definition later (a b : Log) : Prop := lg_Time b <= lg_Time a.
#[export] Instance later_dec a b : Decision (later a b).
Proof. unfold later. apply _. Defined.
#[export] Instance later_total : Total later.
Proof. intros a b. unfold later. lia. Qed.
#[export] Instance later_trans : Transitive later.
Proof. intros a b c. unfold later. lia. Qed.

#[export] Instance demo_sort : LogSort.
Proof.
  refine {| log_sort := merge_sort later |}.
  - apply merge_sort_Permutation.
  - intros l. apply (StronglySorted_merge_sort later).
Defined.

(** ** BSON *)

(** An object comes back as a list of keys and values, which is an array in JSON. *)
Fixpoint bson_any (v : Any) : Any :=
  match v with
  | AArr l => AArr (map bson_any l)
  | AObj l => AArr (map (λ '(k, x), AObj [("Key", AStr k); ("Value", bson_any x)]) l)
  | _ => v
  end.

#[export] Instance demo_bson : Bson := λ c,
  let v := c_V c in
  mkCell (c_C c) (c_R c)
    (mkCellValue (cv_Bg v) (cv_Bl v) (cv_Cl v) (cv_Ct v) (cv_F v) (cv_Fc v) (cv_Ff v) (bson_any (cv_Fs v)) (cv_It v) (cv_M v) (cv_Mc v)
       (cv_Tb v) (bson_any (cv_Tr v)) (bson_any (cv_V v)) (bson_any (cv_Ht v)) (bson_any (cv_Vt v)) (bson_any (cv_Rt v)) (cv_Ps v)).

(** ** A file with two edits *)
Definition demo_fs : Fs := mkFs {["a"]} ∅ 0 ∅.
Definition demo_state : GState Fs := mkGState demo_fs (mkMongo [mkFileRecord "a" false] [] []) empty_tables.
Definition demo_edits : list (UpdateV * Z) := [(demo_edit 1 2 "x", 10000000); (demo_edit 3 4 "y", 11500000); (demo_edit 1 2 "z", 20000000)].

Lemma empty_free : locks_free empty_tables.
Proof. split; [split|]; try done. by intros f [r H]. Qed.

Lemma demo_ready : ready "a" demo_state demo_fs 0.
Proof.
  by split; [split|apply empty_free|].
Qed.

Lemma demo_edit_ok e : e ∈ demo_edits → edit_ok "a" (view demo_fs) e.
Proof.
  intros He. unfold demo_edits in He. repeat (apply elem_of_cons in He as [->|He]); try by apply not_elem_of_nil in He.
  all: split_and!; try done; (split; [eexists _, _; split_and!; [reflexivity|cbn; lia|reflexivity]|reflexivity]).
Qed.


(** Edits at the times [ts], an undo up to [t], and the text of the cell then. *)
Definition undo_text (es : list (UpdateV * Z)) (t : Z) : option string :=
  (λ r, cv_M (c_V (fst (fst r)))) <$> (edits "a" "me" es;; _ ← UndoLogs "a" t; read_cell "a" 1 2) demo_state.

(** An edit a microsecond after the point in time, but in its millisecond, stays. *)
Example same_millisecond_stays : undo_text [(demo_edit 1 2 "x", 5001000)] 5000000 = Some "x".
Proof. vm_compute. reflexivity. Qed.

(** Two edits of a cell in one millisecond: MongoDB may return the first one first,
    and the undo leaves its value. *)
Example tie_undone_wrongly : undo_text [(demo_edit 1 2 "x", 10000000); (demo_edit 1 2 "z", 10000500)] 5000000 = Some "x".
Proof. vm_compute. reflexivity. Qed.

(** The value of a cell that holds an object is replaced by an array in the log. *)
Definition object_cell : Cell :=
  mkCell 2 1 (mkCellValue "" 0 0 None "" "" "" ANil 0 "" None "" ANil (AObj [("a", ABool true)]) ANil ANil ANil None).

Example object_not_restored :
  (λ r, (λ l, cv_V (c_V (lg_Old l))) <$> mg_log (g_mongo r.2)) <$> logGridValue "a" "me" zero_Cell object_cell 0 demo_state
  = Some [AArr [AObj [("Key", AStr "a"); ("Value", ABool true)]]].
Proof. vm_compute. reflexivity. Qed.

Lemma edit_read_back_witness : ∃ st1 st2 a', persistGridValue (demo_edit 1 2 "x") "a" "me" 10000000 demo_state = Some ((), st1)
  ∧ read_cell "a" 1 2 st1 = Some ((mkCell 2 1 (text_value "x"), None), st2)
  ∧ same_view (view a') (put_view "a" (view demo_fs) (mkCell 2 1 (text_value "x"))) ∧ sf_rel (g_fs st1) a' (0 + 3)
  ∧ mg_log (g_mongo st1) = [bson_log (mkLog "a" "me" (mkCell 2 1 (text_value "x")) (mkCell 2 1 zero_CellValue) 10000000)].
Proof.
  apply (edit_read_back "a" "me" (demo_edit 1 2 "x") 10000000 demo_state demo_fs 0 demo_ready); [done|done|].
  eexists _, _. split_and!; [reflexivity|cbn; lia|reflexivity].
Defined.

Definition demo_rename : UpdateCommon := mkUpdateCommon "all" "0" "name" (AStr "b").


(** A title that was deleted for ever cannot be used again: the sheet file stays
    in the file system. *)
Example recreate_fails :
  fst <$> (_ ← CreateFile "b"; _ ← DeleteForever "b"; CreateFile "b") demo_state = Some (Some (EFs ErrExist)).
Proof. vm_compute. reflexivity. Qed.
