(* ===== verification/GdocRange.v ===== *)
(** GdocRange: requests on a range of cells and on the calculation chain.

    Source: gDoc_backend/handler/persist.go (persistGridMulti, persistCalcChain).
    Proved, like GdocProps.v, against the interface [SheetFs]. *)
From Stdlib Require Import ZArith Lia Strings.Byte.
From stdpp Require Import gmap strings list.
From S2P Require Import Prelude.
From S2P Require Import DataNode.
From S2P Require Import MasterData.
From S2P Require Import FsClient.
From S2P Require Import EndToEnd.
From S2P Require Import FileSystem.
From S2P Require Import Locks.
From S2P Require Import GdocModel.
From S2P Require Import GdocFs.
From S2P Require Import GdocHandler.
From S2P Require Import GdocLocks.
From S2P Require Import GdocFiles.
From S2P Require Import GdocProps.
From S2P Require Import GdocDemo.
Open Scope Z_scope.

(** ** Views after many writes *)
Section views.
Context (name : string) (k : string * Z * Z).
Implicit Types (v : View) (cs : list Cell).

Lemma foldl_put_other cs v : (∀ c, c ∈ cs → k ≠ (name, c_R c, c_C c)) → foldl (put_view name) v cs k = v k.
Proof.
  revert v. induction cs as [|c cs IH]; intros v Hne; [done|]. cbn. rewrite IH by (intros d Hd; apply Hne; by right).
  unfold put_view. by rewrite decide_False by (apply Hne; by left).
Qed.

Lemma foldl_put_at cs v x c : c ∈ cs → k = (name, c_R c, c_C c) →
  (∀ d, d ∈ cs → k = (name, c_R d, c_C d) → c_V d = x) → foldl (put_view name) v cs k = x.
Proof.
  revert v c. induction cs as [|d cs IH]; intros v c; [by intros ?%elem_of_nil|]. intros Hc Hk Hx. cbn.
  destruct (decide (Exists (λ e, k = (name, c_R e, c_C e)) cs)) as [He|Hn].
  - apply Exists_exists in He as (e & He & Hke). apply (IH _ e); [done|done|]. intros e' He'. apply Hx. by right.
  - assert (∀ e, e ∈ cs → k ≠ (name, c_R e, c_C e)) as Hn'. { intros e He Hke. apply Hn, Exists_exists. eauto. }
    rewrite foldl_put_other by done. apply elem_of_cons in Hc as [->|Hc]; [|by apply Hn' in Hc].
    unfold put_view. rewrite decide_True by done. apply Hx; [by left|done].
Qed.
End views.

Section range.
Context {S : Type} {F : SheetFs S} {FL : SheetFsLaws S} {JS : GoJson}.
Implicit Types (st : GState S) (a : Fs).

(** ** persistGridMulti *)

(** The value at an index of the request's matrix. *)
Definition value_of (req : UpdateRV) (i j : nat) : option CellValue := rv_V req !! i ≫= lookup j.

(** The cell that the request stores for an index, relative to its first cell. *)
Definition cell_of (req : UpdateRV) (row0 col0 : Z) (i j : nat) : Cell :=
  mkCell (col0 + Z.of_nat j) (row0 + Z.of_nat i) (default zero_CellValue (value_of req i j)).

(** The value is there, its cell is one of the grid and its text has room. *)
Definition cell_fits (req : UpdateRV) (row0 col0 : Z) (i j : nat) : Prop :=
  is_Some (value_of req i j) ∧ pos_ok (row0 + Z.of_nat i) (col0 + Z.of_nat j) ∧ fits (cell_of req row0 col0 i j).

(** What holds between two cells: nothing is locked, the file is open. *)
Record between (name : string) (f : File) st a (n : Z) : Prop := {
  bt_file : has_file name (g_fs st) a n;
  bt_locks : locks_free (g_locks st);
  bt_open : fs_fds a !! file_fd f = Some name
}.

Lemma is_u32_i64 z : is_u32 z → i64 z = z.
Proof. intros [? ?]. apply i64_small. unfold is_i64. lia. Qed.

Lemma multi_cell_spec name req f row0 col0 i j st a n : between name f st a n → 0 <= n < 2 ^ 64 - 1 → cell_fits req row0 col0 i j →
  ∃ st' a', multi_cell req f name row0 col0 i j st = Some ((), st') ∧ between name f st' a' (n + 1) ∧ g_mongo st' = g_mongo st
    ∧ same_view (view a') (put_view name (view a) (cell_of req row0 col0 i j)) ∧ texts_stored a a' name [cell_of req row0 col0 i j].
Proof.
  intros [Hf Hl Ho] Hn ([v Hv] & Hp & Hfit). pose proof Hp as (Hr & Hc & _). unfold multi_cell. rewrite !is_u32_i64 by done.
  destruct (cell_lock_pair name (key_of (row0 + Z.of_nat i) (col0 + Z.of_nat j)) (g_locks st) Hl) as (t1 & t2 & Hlock & Hunlock & Hl2).
  destruct (store_spec name (mkGState (g_fs st) (g_mongo st) t1) a n f (cell_of req row0 col0 i j)) as (s' & a' & E & Hf' & Hfd & Hview & _ & Ht); [done..|].
  exists (mkGState s' (g_mongo st) t2), a'. split_and!; [|split; [done|done|by rewrite Hfd]|done|done|by apply texts_stored_one].
  unfold mbind at 1, GoM_bind at 1. unfold LockCell, on_locks. rewrite Hlock. fold (value_of req i j). rewrite Hv.
  unfold mbind at 1, GoM_bind at 1. cbn [go_deref mret GoM_ret]. unfold mbind at 1, GoM_bind at 1.
  replace (mkCell (col0 + Z.of_nat j) (row0 + Z.of_nat i) v) with (cell_of req row0 col0 i j) by (unfold cell_of; by rewrite Hv).
  rewrite E. unfold UnlockCell, on_locks. cbn [g_locks g_fs g_mongo]. by rewrite Hunlock.
Qed.

(** A loop over things that each store some cells. *)
Lemma store_loop {A} name f (g : A → GoM (GState S) ()) (cells : A → list Cell) xs st a n :
  (∀ x st a n, x ∈ xs → between name f st a n → 0 <= n → n + Z.of_nat (length (cells x)) < 2 ^ 64 - 1 →
    ∃ st' a', g x st = Some ((), st') ∧ between name f st' a' (n + Z.of_nat (length (cells x))) ∧ g_mongo st' = g_mongo st
      ∧ same_view (view a') (foldl (put_view name) (view a) (cells x)) ∧ texts_stored a a' name (cells x)) →
  between name f st a n → 0 <= n → n + Z.of_nat (length (concat (cells <$> xs))) < 2 ^ 64 - 1 →
  ∃ st' a', go_for xs g st = Some ((), st') ∧ between name f st' a' (n + Z.of_nat (length (concat (cells <$> xs)))) ∧ g_mongo st' = g_mongo st
    ∧ same_view (view a') (foldl (put_view name) (view a) (concat (cells <$> xs))) ∧ texts_stored a a' name (concat (cells <$> xs)).
Proof.
  intros Hg. revert st a n. induction xs as [|x xs IH]; intros st a n Hb H0 Hn.
  - exists st, a. cbn. by rewrite Z.add_0_r.
  - cbn [fmap list_fmap concat] in *. rewrite length_app in *.
    destruct (Hg x st a n) as (st1 & a1 & E1 & Hb1 & Hm1 & Hv1 & Ht1); [by left|done|done|lia|].
    destruct (IH (λ y st a n Hy, Hg y st a n (list_elem_of_further _ _ _ Hy)) st1 a1 (n + Z.of_nat (length (cells x))) Hb1) as (st2 & a2 & E2 & Hb2 & Hm2 & Hv2 & Ht2);
      [lia|lia|].
    exists st2, a2. split_and!.
    + cbn [go_for]. unfold mbind, GoM_bind. by rewrite E1.
    + by replace (n + Z.of_nat (length (cells x) + length (concat (cells <$> xs)))) with (n + Z.of_nat (length (cells x)) + Z.of_nat (length (concat (cells <$> xs)))) by lia.
    + congruence.
    + intros nm r c Hp. rewrite Hv2 by done. rewrite foldl_app. by apply foldl_put_same.
    + by eapply texts_stored_app.
Qed.

(** The cells of a range, row by row. *)
Definition range_cells (req : UpdateRV) (row0 col0 : Z) (rows cols : nat) : list Cell :=
  concat ((λ i, cell_of req row0 col0 i <$> seq 0 cols) <$> seq 0 rows).

Lemma length_range req row0 col0 rows cols : length (range_cells req row0 col0 rows cols) = (rows * cols)%nat.
Proof.
  unfold range_cells. generalize 0%nat at 2. induction rows as [|rows IH]; intros k; [done|]. cbn [seq fmap list_fmap concat].
  rewrite length_app, length_fmap, length_seq. by rewrite IH.
Qed.

Lemma elem_range req row0 col0 rows cols c : c ∈ range_cells req row0 col0 rows cols ↔
  ∃ i j, (i < rows)%nat ∧ (j < cols)%nat ∧ c = cell_of req row0 col0 i j.
Proof.
  unfold range_cells. rewrite list_elem_of_In, in_concat. split.
  - intros (l & Hl & Hc). apply list_elem_of_In, list_elem_of_fmap in Hl as (i & -> & Hi%elem_of_seq).
    apply list_elem_of_In, list_elem_of_fmap in Hc as (j & -> & Hj%elem_of_seq). exists i, j. split_and!; [lia|lia|done].
  - intros (i & j & Hi & Hj & ->). exists (cell_of req row0 col0 i <$> seq 0 cols). split; apply list_elem_of_In, list_elem_of_fmap.
    + exists i. split; [done|]. apply elem_of_seq. lia.
    + exists j. split; [done|]. apply elem_of_seq. lia.
Qed.

(** What the cells hold after a request on a range. *)
Definition range_view (name : string) (req : UpdateRV) (row0 col0 : Z) (rows cols : nat) (v : View) : View := λ k,
  let i := k.1.2 - row0 in
  let j := k.2 - col0 in
  if decide (k.1.1 = name ∧ 0 <= i < Z.of_nat rows ∧ 0 <= j < Z.of_nat cols)
  then default zero_CellValue (value_of req (Z.to_nat i) (Z.to_nat j))
  else v k.

Lemma range_put name req row0 col0 rows cols v k :
  foldl (put_view name) v (range_cells req row0 col0 rows cols) k = range_view name req row0 col0 rows cols v k.
Proof.
  destruct k as [[nm r] c]. unfold range_view. cbn [fst snd]. case_decide as Hd.
  - destruct Hd as (-> & Hi & Hj).
    assert (r = row0 + Z.of_nat (Z.to_nat (r - row0)) ∧ c = col0 + Z.of_nat (Z.to_nat (c - col0))) as [Hr Hc] by lia.
    apply (foldl_put_at _ _ _ _ _ (cell_of req row0 col0 (Z.to_nat (r - row0)) (Z.to_nat (c - col0)))).
    + apply elem_range. exists (Z.to_nat (r - row0)), (Z.to_nat (c - col0)). split_and!; [lia|lia|done].
    + cbn. by rewrite <- Hr, <- Hc.
    + intros d (i & j & _ & _ & ->)%elem_range. cbn. intros [= -> ->].
      by replace (Z.to_nat (row0 + Z.of_nat i - row0)) with i by lia; replace (Z.to_nat (col0 + Z.of_nat j - col0)) with j by lia.
  - apply foldl_put_other. intros d (i & j & Hi & Hj & ->)%elem_range. cbn. intros [= -> -> ->]. apply Hd. split; [done|]. lia.
Qed.

(** One row of the range. *)
Lemma row_spec name req f row0 col0 cols i st a n : between name f st a n → 0 <= n → n + Z.of_nat cols < 2 ^ 64 - 1 →
  (∀ j, (j < cols)%nat → cell_fits req row0 col0 i j) →
  ∃ st' a', go_for (seq 0 cols) (multi_cell req f name row0 col0 i) st = Some ((), st')
    ∧ between name f st' a' (n + Z.of_nat cols) ∧ g_mongo st' = g_mongo st
    ∧ same_view (view a') (foldl (put_view name) (view a) (cell_of req row0 col0 i <$> seq 0 cols))
    ∧ texts_stored a a' name (cell_of req row0 col0 i <$> seq 0 cols).
Proof.
  intros Hb H0 Hn Hf. assert (concat ((λ j, [cell_of req row0 col0 i j]) <$> seq 0 cols) = cell_of req row0 col0 i <$> seq 0 cols) as E.
  { generalize (seq 0 cols) as l. induction l as [|x l IH]; [done|]. cbn. by f_equal. }
  assert (length (concat ((λ j, [cell_of req row0 col0 i j]) <$> seq 0 cols)) = cols) as El by (by rewrite E, length_fmap, length_seq).
  pose proof (store_loop name f (multi_cell req f name row0 col0 i) (λ j, [cell_of req row0 col0 i j]) (seq 0 cols) st a n) as H.
  rewrite El, E in H. apply H; try done. intros j st1 a1 n1 Hj%elem_of_seq Hb1 Hn1 Hn1'. apply multi_cell_spec; [done|cbn in Hn1'; lia|].
  apply Hf. lia.
Qed.

(** A request on a range, with the texts it stores. *)
Lemma range_spec name req row0 row1 col0 col1 st a n : ready name st a n →
  rv_Range req = mkIntRange [col0; col1] [row0; row1] →
  let rows := Z.to_nat (row1 - row0 + 1) in
  let cols := Z.to_nat (col1 - col0 + 1) in
  (∀ i j, (i < rows)%nat → (j < cols)%nat → cell_fits req row0 col0 i j) →
  0 <= n → n + 1 + Z.of_nat (rows * cols) < 2 ^ 64 - 1 →
  ∃ st' a', persistGridMulti req name st = Some ((), st') ∧ ready name st' a' (n + 1 + Z.of_nat (rows * cols)) ∧ g_mongo st' = g_mongo st
    ∧ same_view (view a') (range_view name req row0 col0 rows cols (view a)) ∧ texts_stored a a' name (range_cells req row0 col0 rows cols).
Proof.
  intros [Hf Hl Hfa] Hr rows cols Hfit H0 Hn. destruct (api_open_spec name st a n Hf ltac:(lia)) as (f & s1 & E1 & Hfd & Hf1).
  destruct (store_loop name f (λ i, go_for (seq 0 cols) (multi_cell req f name row0 col0 i)) (λ i, cell_of req row0 col0 i <$> seq 0 cols)
    (seq 0 rows) (mkGState s1 (g_mongo st) (g_locks st)) (fs_bind a name) (n + 1)) as (st' & a' & E & [Hb1 Hb2 _] & Hm & Hv & Ht).
  - intros i st1 a1 n1 Hi%elem_of_seq. rewrite length_fmap, length_seq. intros. apply row_spec; [done..|]. intros j Hj. apply Hfit; [lia|done].
  - by split.
  - lia.
  - fold (range_cells req row0 col0 rows cols). rewrite length_range. lia.
  - exists st', a'.
    fold (range_cells req row0 col0 rows cols) in Hb1, Hv, Ht. rewrite length_range in Hb1. split_and!; [|split; [done|done|by rewrite Hm]|done| |exact (texts_stored_app a (fs_bind a name) a' name [] _ eq_refl Ht)].
    + unfold persistGridMulti. unfold mbind at 1, GoM_bind at 1. rewrite E1, Hr. cbn [ir_Row ir_Column lookup list_lookup go_deref].
      rewrite <- E. reflexivity.
    + intros nm r c Hp. rewrite Hv by done. apply range_put.
Qed.

(** C10. A request on a range of cells stores every value of its matrix in the cell
    it stands for, and no other: whatever file and cell is read afterwards, the
    value is the one of the matrix when the cell lies in the range and the old
    one otherwise.  No lock stays held and the file records are as before.  The matrix
    covers the range, its cells are cells of the grid and their texts have room, and the
    file system behaves as the map of [SheetFsLaws].  The property says nothing of the log,
    to which such an edit should be added according to the documentation of the backend
    and is not ([range_not_logged]). *)
Theorem range_read_back name req row0 row1 col0 col1 st a n : ready name st a n →
  rv_Range req = mkIntRange [col0; col1] [row0; row1] →
  let rows := Z.to_nat (row1 - row0 + 1) in
  let cols := Z.to_nat (col1 - col0 + 1) in
  (∀ i j, (i < rows)%nat → (j < cols)%nat → cell_fits req row0 col0 i j) →
  0 <= n → n + 1 + Z.of_nat (rows * cols) < 2 ^ 64 - 1 →
  ∃ st' a' n', persistGridMulti req name st = Some ((), st') ∧ ready name st' a' n'
    ∧ mg_files (g_mongo st') = mg_files (g_mongo st)
    ∧ same_view (view a') (range_view name req row0 col0 rows cols (view a)).
Proof.
  intros Hrd Hr rows cols Hfit H0 Hn. destruct (range_spec name req row0 row1 col0 col1 st a n Hrd Hr Hfit H0 Hn) as (st' & a' & E & Hrd' & Hm & Hv & _).
  exists st', a', (n + 1 + Z.of_nat (rows * cols)). by rewrite Hm.
Qed.

(** Whatever the request, an edit of a range does not write to MongoDB: the log
    does not have it, and UndoLogs cannot undo it. *)
Theorem range_not_logged req name st x st' : persistGridMulti req name st = Some (x, st') → g_mongo st' = g_mongo st.
Proof.
  assert (∀ (l : list nat) (body : nat → GoM (GState S) ()), (∀ i, keeps (body i)) → keeps (go_for l body)) as Hfor.
  { intros l body Hb. induction l as [|i l IH]; [apply keeps_ret|]. cbn [go_for]. apply keeps_bind; [done|]. by intros []. }
  assert (∀ A (o : option A), keeps (S := S) (go_deref o)) as Hderef by (intros A [y|] st1 z st2; [by intros [= <- <-]|done]).
  revert st x st'. change (keeps (persistGridMulti req name)). unfold persistGridMulti.
  apply keeps_bind; [apply keeps_fs|]. intros [f|e]; [|apply keeps_ret].
  apply keeps_bind; [apply Hderef|]. intros row0. apply keeps_bind; [apply Hderef|]. intros row1. apply Hfor. intros i.
  apply keeps_bind; [apply Hderef|]. intros col0. apply keeps_bind; [apply Hderef|]. intros col1. apply Hfor. intros j.
  unfold multi_cell, LockCell, UnlockCell, encodeCell. apply keeps_bind; [apply keeps_locks|]. intros _.
  apply keeps_bind; [apply Hderef|]. intros v. apply keeps_bind; [|intros _; apply keeps_locks].
  destruct (jmarshal _); [|apply keeps_ret]. apply keeps_bind; [apply keeps_fs|]. intros r. apply keeps_ret.
Qed.

(** ** persistCalcChain *)

(** What the request does to the common part: [None] when it panics. *)
Definition chain_change (req : UpdateCalcChain) (stored : Sheet * option string) : option (option Sheet) :=
  match stored, junmarshal (T := CalcChain) (String.list_byte_of_string (ucc_V req)) with
  | (_, Some _), _ | _, (_, Some _) => Some None
  | (sheet, None), (c, None) =>
      (λ l, Some (set_CalcChain l sheet)) <$> chain_case (ucc_Op req) (ucc_Pos req) c (sh_CalcChain sheet)
  end.

(** A request on the calculation chain answers and stores the sheet with the
    entry added, replaced or deleted; it changes nothing when the stored sheet
    or the request's text cannot be parsed; and it panics when the position is
    not in the chain.  Every cell keeps its value. *)
Theorem calc_chain_requests name req st a n : ready name st a n → 0 <= n < 2 ^ 64 - 3 →
  (∀ sheet, chain_change req (stored_common a name) = Some (Some sheet) → meta_fits sheet) →
  match chain_change req (stored_common a name) with
  | None => persistCalcChain req name st = None
  | Some change => ∃ st' a' n', persistCalcChain req name st = Some ((), st') ∧ ready name st' a' n' ∧ g_mongo st' = g_mongo st
      ∧ stored_common a' name = match change with Some sheet => (sheet, None) | None => stored_common a name end
      ∧ same_view (view a') (view a) ∧ n <= n' <= n + 3
      ∧ match change with Some sheet => meta_stored a a' name sheet | None => fs_cells a' = fs_cells a end
  end.
Proof.
  intros [Hf Hl Hfa] Hn Hfit. destruct (api_open_spec name st a n Hf ltac:(lia)) as (f & s1 & E1 & Hfd & Hf1).
  destruct (cell_lock_pair name (key_of (2 ^ 32 - 1) (2 ^ 32 - 1)) (g_locks st) Hl) as (t1 & t2 & Hlock & Hunlock & Hl2).
  destruct (decodeCommon_spec (mkGState s1 (g_mongo st) t1) (fs_bind a name) (n + 1) f name Hf1 ltac:(lia) Hfd) as (s2 & E2 & Hf2).
  change (stored_common (fs_bind a name) name) with (stored_common a name) in E2.
  assert (∃ st' a' n', UnlockMeta name (mkGState s2 (g_mongo st) t1) = Some ((), st') ∧ ready name st' a' n' ∧ g_mongo st' = g_mongo st
    ∧ stored_common a' name = stored_common a name ∧ same_view (view a') (view a) ∧ n <= n' <= n + 3 ∧ fs_cells a' = fs_cells a) as Hsame.
  { exists (mkGState s2 (g_mongo st) t2), (fs_bind a name), (n + 1 + 1). split_and!; [|by split|reflexivity|reflexivity|by intros ???|lia|lia|done].
    unfold UnlockMeta, UnlockCell, on_locks. cbn [g_locks g_mongo g_fs]. by rewrite Hunlock. }
  set (st2 := mkGState s2 (g_mongo st) t1) in *.
  assert (persistCalcChain req name st = match stored_common a name, junmarshal (T := CalcChain) (String.list_byte_of_string (ucc_V req)) with
    | (_, Some _), _ | _, (_, Some _) => UnlockMeta name st2
    | (sheet, None), (c, None) => (l ← go_deref (chain_case (ucc_Op req) (ucc_Pos req) c (sh_CalcChain sheet));
              _ ← encodeCommon f (set_CalcChain l sheet); UnlockMeta name) st2 end) as Hex.
  { unfold persistCalcChain. unfold mbind at 1, GoM_bind at 1. rewrite E1. unfold mbind at 1, GoM_bind at 1.
    unfold LockMeta, LockCell, on_locks. cbn [g_locks g_fs g_mongo]. rewrite Hlock. unfold mbind at 1, GoM_bind at 1. rewrite E2.
    destruct (stored_common a name) as [? [?|]]; [done|]. by destruct (junmarshal _) as [? [?|]]. }
  rewrite Hex. unfold chain_change in *. destruct (stored_common a name) as [sheet [e|]] eqn:Es; [done|].
  destruct (junmarshal (String.list_byte_of_string (ucc_V req))) as [c [e|]]; [done|].
  destruct (chain_case (ucc_Op req) (ucc_Pos req) c (sh_CalcChain sheet)) as [l|]; [|done]. cbn [fmap option_fmap option_map] in *.
  destruct (encodeCommon_spec st2 (fs_bind a name) (n + 1 + 1) f name (set_CalcChain l sheet) Hf2 ltac:(lia) Hfd (Hfit _ eq_refl))
    as (s3 & a3 & E3 & Hf3 & Hc3 & Hv3 & Hm3).
  exists (mkGState s3 (g_mongo st) t2), a3, (n + 1 + 1 + 1). split_and!; [|by split|done|done|exact Hv3|lia|lia|exact Hm3].
  unfold mbind, GoM_bind. cbn [go_deref mret GoM_ret]. rewrite E3. unfold UnlockMeta, UnlockCell, on_locks, st2. cbn [g_locks g_mongo g_fs]. by rewrite Hunlock.
Qed.
End range.

(** ** A range of two by two cells *)
Lemma range_read_back_witness : ∃ st' a' n', persistGridMulti demo_range "a" demo_state = Some ((), st') ∧ ready "a" st' a' n'
  ∧ mg_files (g_mongo st') = [mkFileRecord "a" false] ∧ same_view (view a') (range_view "a" demo_range 3 5 2 2 (view demo_fs)).
Proof.
  apply (range_read_back "a" demo_range 3 4 5 6 demo_state demo_fs 0 demo_ready); [done| |done|done].
  intros i j Hi Hj. change (Z.to_nat (4 - 3 + 1)) with 2%nat in Hi. change (Z.to_nat (6 - 5 + 1)) with 2%nat in Hj.
  destruct i as [|[|i]]; [| |lia]; (destruct j as [|[|j]]; [| |lia]);
    (split_and!; [by eexists|done|eexists _, _; split_and!; [reflexivity|cbn; lia|reflexivity]]).
Defined.

(** A matrix that does not cover the range stops the server, and the cell's lock
    is never released. *)
Definition short_range : UpdateRV := mkUpdateRV "0" (mkIntRange [5; 6] [3; 4]) "rv" [[text_value "p"; text_value "q"]].
Example short_range_panics : persistGridMulti short_range "a" demo_state = None.
Proof. vm_compute. reflexivity. Qed.

(** ** A chain with one entry *)
Definition demo_entry : CalcChain := mkCalcChain 0 "" [] "" ANil 0 0.

(** A codec of sheets that are nothing but the number of their chain's entries. *)
Definition chain_sheet_json : JsonT Sheet := {|
  jmarshal s := Ok [x7b; byte_of_Z (Z.of_nat (length (sh_CalcChain s))); x7d];
  junmarshal b := match b with
                  | _ :: k :: _ => (set_CalcChain (replicate (Byte.to_nat k) demo_entry) zero_Sheet, None)
                  | _ => (zero_Sheet, Some "unexpected end of JSON input")
                  end |}.
Definition chain_json : GoJson := {|
  json_Cell := demo_cell_json; json_Sheet := chain_sheet_json; json_Any := only ANil; json_Borders := only []; json_Floats := only ∅;
  json_Frozen := json_Frozen; json_SheetConfig := json_SheetConfig; json_FilterSelect := json_FilterSelect; json_Filters := only ∅;
  json_AlternateFormatSaves := only []; json_ConditionFormatSaves := only []; json_PivotTable := json_PivotTable;
  json_DynamicArrays := only []; json_CalcChain := only demo_entry; json_UpdateV := json_UpdateV; json_UpdateRV := json_UpdateRV;
  json_UpdateCG := json_UpdateCG; json_UpdateCommon := json_UpdateCommon; json_UpdateCalcChain := json_UpdateCalcChain; json_T _ := "" |}.

Lemma calc_chain_requests_witness :
  (∃ st' a' n', persistCalcChain (JS := chain_json) (mkUpdateCalcChain "0" "add" 0 "fc" "") "a" demo_state = Some ((), st')
    ∧ ready "a" st' a' n' ∧ g_mongo st' = g_mongo demo_state
    ∧ stored_common (JS := chain_json) a' "a" = (set_CalcChain [demo_entry] zero_Sheet, None)
    ∧ same_view (view (JS := chain_json) a') (view (JS := chain_json) demo_fs))
  ∧ persistCalcChain (JS := chain_json) (mkUpdateCalcChain "0" "del" 0 "fc" "") "a" demo_state = None.
Proof.
  split.
  - destruct (calc_chain_requests (JS := chain_json) "a" (mkUpdateCalcChain "0" "add" 0 "fc" "") demo_state demo_fs 0 demo_ready)
      as (st' & a' & n' & H1 & H2 & H3 & H4 & H5 & _); [done| |by exists st', a', n'].
    intros s [= <-]. eexists [x01]. split_and!; [reflexivity|cbn; lia|reflexivity].
  - by apply (calc_chain_requests (JS := chain_json) "a" (mkUpdateCalcChain "0" "del" 0 "fc" "") demo_state demo_fs 0 demo_ready).
Defined.
