(* ===== verification/GdocLoad.v ===== *)
(** GdocLoad: loading a document.

    Source: gDoc_backend/handler/{persist.go, service.go}, fsclient/utils.go.

    A document is a file whose cells hold the JSON texts that [encodeCell] writes and
    whose MetaCell holds the common part.  [LoadSheet] reads the whole file as one
    JSON text and decodes it; the theorem says that the sheet it returns has the
    common part and exactly the cells that were stored. *)
From Stdlib Require Import ZArith Lia Strings.Byte.
From stdpp Require Import gmap strings list sorting.
From S2P Require Import Prelude.
From S2P Require Import DataNode.
From S2P Require Import MasterData.
From S2P Require Import SheetFileSpec.
From S2P Require Import DataNodeAlloc.
From S2P Require Import SheetFile.
From S2P Require Import JournalEntry.
From S2P Require Import CommonJournal.
From S2P Require Import FileMgr.
From S2P Require Import FileMgrProps.
From S2P Require Import FsClient.
From S2P Require Import EndToEnd.
From S2P Require Import FsCalls.
From S2P Require Import SheetRead.
From S2P Require Import FileSystem.
From S2P Require Import GoStd.
From S2P Require Import Locks.
From S2P Require Import GdocModel.
From S2P Require Import GdocFs.
From S2P Require Import GdocHandler.
From S2P Require Import GdocLocks.
From S2P Require Import GdocProps.
From S2P Require Import GdocFiles.
From S2P Require Import GdocDemo.
From S2P Require Import GdocRange.
Open Scope Z_scope.

(** ** The elements of a JSON array *)

(** The texts [ts], separated by commas, with blanks around them. *)
Inductive array_text : list (list byte) → list byte → Prop :=
| at_blank k : array_text [] (replicate k blank)
| at_last k t j : array_text [t] (replicate k blank ++ t ++ replicate j blank)
| at_more k t j ts rest : ts ≠ [] → array_text ts rest → array_text (t :: ts) (replicate k blank ++ t ++ replicate j blank ++ comma :: rest).

Lemma array_text_blanks m ts body : array_text ts body → array_text ts (replicate m blank ++ body).
Proof. destruct 1; rewrite ?app_assoc, <- replicate_add; rewrite <- ?app_assoc; by constructor. Qed.

(** ** The last comma *)
Lemma blank_first_app l1 l2 : comma ∈ l1 → blank_first_comma (l1 ++ l2) = blank_first_comma l1 ++ l2.
Proof.
  induction l1 as [|b l1 IH]; [by intros ?%elem_of_nil|]. intros Hin. cbn. destruct (Byte.eqb b x2c) eqn:E; [done|]. cbn. f_equal. apply IH.
  apply elem_of_cons in Hin as [<-|Hin]; [done|done].
Qed.

Lemma blank_last_comma_right l1 l2 : comma ∈ l2 → blank_last_comma (l1 ++ l2) = l1 ++ blank_last_comma l2.
Proof.
  intros Hin. unfold blank_last_comma. rewrite rev_app_distr, blank_first_app, rev_app_distr, rev_involutive; [done|].
  apply list_elem_of_In, in_rev. rewrite rev_involutive. by apply list_elem_of_In.
Qed.

Lemma blank_last_comma_blanks k : blank_last_comma (replicate k blank) = replicate k blank.
Proof.
  unfold blank_last_comma. assert (∀ l, comma ∉ l → blank_first_comma l = l) as H.
  { induction l as [|b l IH]; [done|]. rewrite not_elem_of_cons. intros [Hb Hl]. cbn. destruct (Byte.eqb b x2c) eqn:E.
    - apply Byte.byte_dec_bl in E. done.
    - by rewrite IH. }
  rewrite H; [apply rev_involutive|]. intros Hin%list_elem_of_In%in_rev. apply list_elem_of_In, elem_of_replicate in Hin as [Hin _]. done.
Qed.

(** What the pieces of a document look like: the text of a cell with its separator,
    or blanks. *)
Inductive piece_text : Piece → option (list byte) → Prop :=
| pt_cell id t k : piece_text (Some id, t ++ comma :: replicate k blank) (Some t)
| pt_blank k : piece_text (None, replicate k blank) None.

(** Without its last comma the data of a document are the elements of an array. *)
Lemma pieces_array ps os : Forall2 piece_text ps os → let ts : list (list byte) := omap (M := list) id os in
  array_text ts (blank_last_comma (pieces_text ps)) ∧ match ts with [] => ∃ k, pieces_text ps = replicate k blank | _ => comma ∈ pieces_text ps end.
Proof.
  induction 1 as [|p o ps os Hp Hps IH]; cbn zeta in *; [split; [apply (at_blank 0)|by exists 0%nat]|].
  destruct IH as [Ha Hc]. destruct Hp as [id0 t k|k].
  - change (pieces_text ((Some id0, t ++ comma :: replicate k blank) :: ps)) with ((t ++ comma :: replicate k blank) ++ pieces_text ps).
    change (omap id (Some t :: os)) with (t :: omap id os). split; [|set_solver]. destruct (omap id os) as [|t' ts] eqn:E.
    + destruct Hc as [m ->]. rewrite <- app_assoc. cbn [app]. rewrite <- replicate_add, blank_last_comma_app.
      rewrite <- replicate_S. apply (at_last 0).
    + rewrite blank_last_comma_right by done. rewrite <- app_assoc. cbn [app]. apply (at_more 0 t 0); [done|]. by apply array_text_blanks.
  - change (pieces_text ((None, replicate k blank) :: ps)) with (replicate k blank ++ pieces_text ps).
    change (omap id (None :: os)) with (omap id os). destruct (omap id os) as [|t' ts] eqn:E.
    + destruct Hc as [m Hm]. rewrite Hm in Ha |- *. rewrite <- replicate_add, blank_last_comma_blanks. split; [constructor|by eexists].
    + rewrite blank_last_comma_right by done. split; [by apply array_text_blanks|set_solver].
Qed.

Section load.
Context {S : Type} {F : SheetFs S} {FL : SheetFsLaws S} {JS : GoJson} {LS : LogSort} {BS : Bson}.
Implicit Types (st : GState S) (a : Fs) (c : Cell) (common : Sheet).

(** How encoding/json reads an object of the members of [common], whose text is
    [{ b }], after a member [celldata]: the elements of the array are decoded one
    by one and blanks are skipped. *)
Definition celldata_head : list byte := [x7b; x22; x63; x65; x6c; x6c; x64; x61; x74; x61; x22; x3a; x20; x5b].

Definition sheet_reads common : Prop := ∀ b cs ts body k,
  jmarshal common = Ok (x7b :: b ++ [x7d]) → Forall2 (λ c t, fits c ∧ jmarshal c = Ok t) cs ts → array_text ts body →
  junmarshal (celldata_head ++ body ++ [x5d; x2c] ++ b ++ replicate k blank ++ [x7d]) = (set_Celldata cs common, None).

(** ** Documents *)

(** The cells of the document by their identifiers. *)
Record document a (name : string) common (cells : gmap Z Cell) : Prop := {
  dc_fits : meta_fits common;
  dc_common : ∃ b, jmarshal common = Ok (x7b :: b ++ [x7d])
    ∧ fs_cells a !! (name, SheetMetaCellID) = Some (cell_bytes SheetMetaCellID b [blank]);
  dc_cells : ∀ id c, cells !! id = Some c → id = GetCellID (c_R c) (c_C c) ∧ pos_ok (c_R c) (c_C c) ∧ fits c
    ∧ ∃ t, jmarshal c = Ok t ∧ fs_cells a !! (name, id) = Some (text_bytes c t);
  dc_absent : ∀ id, id ≠ SheetMetaCellID → cells !! id = None → fs_cells a !! (name, id) = None
}.

Definition put_cell (cells : gmap Z Cell) c : gmap Z Cell := <[GetCellID (c_R c) (c_C c) := c]> cells.

Lemma document_put a a' name common cells c : document a name common cells → pos_ok (c_R c) (c_C c) → fits c → text_stored a a' name c →
  document a' name common (put_cell cells c).
Proof.
  intros [Hfit (b & Hb & Hm) Hc Ha] Hp Hf (t & Ht & Ea). pose proof Hp as (_ & _ & Hid). split; [done|..].
  - exists b. split; [done|]. rewrite Ea, lookup_insert_ne; [done|]. by intros [= ?].
  - intros i c'. unfold put_cell. rewrite lookup_insert_Some. intros [[<- <-]|[Hne Hi]].
    + split_and!; try done. exists t. rewrite Ea, lookup_insert_eq. done.
    + destruct (Hc i c' Hi) as (Hi' & Hp' & Hf' & t' & Ht' & Hs'). split_and!; try done. exists t'. split; [done|].
      rewrite Ea, lookup_insert_ne; [done|]. by intros [= ?].
  - intros i Hi. unfold put_cell. rewrite lookup_insert_None. intros [Hn Hne]. rewrite Ea, lookup_insert_ne; [by apply Ha|]. by intros [= ?].
Qed.

Lemma document_puts a a' name common cells cs : document a name common cells → Forall (λ c, pos_ok (c_R c) (c_C c) ∧ fits c) cs →
  texts_stored a a' name cs → document a' name common (foldl put_cell cells cs).
Proof.
  intros Hd Hcs. revert a cells Hd. induction Hcs as [|c cs [Hp Hf] _ IH]; intros a cells Hd Ht; cbn in *.
  - destruct Hd. split; rewrite ?Ht; try done.
  - destruct Ht as (a1 & H1 & Ht). apply (IH a1); [by eapply document_put|done].
Qed.

Lemma document_meta a a' name common cells sheet : document a name common cells → meta_fits sheet → meta_stored a a' name sheet →
  document a' name sheet cells.
Proof.
  intros [Hfit (b & Hb & Hm) Hc Ha] Hs (b' & Hb' & Ea). split; [done|..].
  - exists b'. split; [done|]. by rewrite Ea, lookup_insert_eq.
  - intros i c Hi. destruct (Hc i c Hi) as (Hi' & Hp' & Hf' & t' & Ht' & Hs'). split_and!; try done. exists t'. split; [done|].
    rewrite Ea, lookup_insert_ne; [done|]. destruct Hp' as (_ & _ & Hne). intros [= E]. congruence.
  - intros i Hi Hn. rewrite Ea, lookup_insert_ne; [by apply Ha|]. congruence.
Qed.

Lemma document_same a a' name common cells : document a name common cells → fs_cells a' = fs_cells a → document a' name common cells.
Proof. intros [] E. split; rewrite ?E; done. Qed.

(** The common part as the requests decode it. *)
Lemma document_common a name common cells : document a name common cells → stored_common a name = (common, None).
Proof.
  intros [(b & Hb & Hl & Hu) (b' & Hb' & Hm) _ _]. rewrite Hb in Hb'. injection Hb' as Hb'. apply app_inj_tail in Hb' as [<- _].
  unfold stored_common. rewrite Hm. unfold cell_bytes. cbv zeta. rewrite take_ge by exact Hl. rewrite <- app_assoc. apply Hu.
Qed.

(** The text of a cell that fits is stored whole. *)
Lemma text_bytes_shape c t : fits c → pos_ok (c_R c) (c_C c) → jmarshal c = Ok t → ∃ k, text_bytes c t = t ++ comma :: replicate k blank.
Proof.
  intros (x & b & Hj & Hb & _) Hp Ht. rewrite Hj in Ht. injection Ht as <-. unfold text_bytes, cell_bytes. rewrite plain_cell_size by done.
  eexists. rewrite take_ge by (rewrite length_app; cbn; lia). rewrite <- app_assoc. done.
Qed.

(** The data of a document: its cells, each once. *)
Section text.
Context (a : Fs) (name : string) (common : Sheet) (cells : gmap Z Cell) (Hd : document a name common cells).

(** A piece and the cell it holds. *)
Record piece_of (p : Piece) (o : option (Z * Cell * list byte)) : Prop := {
  po_text : piece_text p (snd <$> o);
  po_id : fst ∘ fst <$> o = p.1;
  po_cell : ∀ i c t, o = Some (i, c, t) → cells !! i = Some c ∧ fits c ∧ jmarshal c = Ok t
}.

Lemma piece_cell p : piece_ok (fs_cells a) name p → p.1 ≠ Some SheetMetaCellID → ∃ o, piece_of p o.
Proof using Hd.
  destruct Hd as [_ _ Hc Ha]. destruct p as [[i|] d]; intros Hp Hne; cbn in Hp, Hne.
  - destruct (cells !! i) as [c|] eqn:Ec; [|rewrite Ha in Hp; [done|congruence|done]].
    destruct (Hc i c Ec) as (_ & Hpos & Hf & t & Ht & Hb). destruct (text_bytes_shape c t Hf Hpos Ht) as [k Hk].
    exists (Some (i, c, t)). split; [|done|by intros ? ? ? [= <- <- <-]].
    replace d with (t ++ comma :: replicate k blank) by congruence. constructor.
  - destruct Hp as (k & b & Hpad & ->). exists None. unfold pad_ok, blank_pad in Hpad. subst b. split; [constructor|done|done].
Qed.

Lemma pieces_cells ps : Forall (piece_ok (fs_cells a) name) ps → SheetMetaCellID ∉ omap fst ps → ∃ os, Forall2 piece_of ps os.
Proof using Hd.
  induction 1 as [|p ps Hp _ IH]; intros Hn; [by exists []|]. destruct (piece_cell p Hp) as [o Ho].
  { intros E. apply Hn. apply list_elem_of_omap. exists p. split; [by left|done]. }
  destruct IH as [os Hos]; [|by exists (o :: os); constructor].
  intros Hin. apply Hn. apply list_elem_of_omap in Hin as (q & Hq & E). apply list_elem_of_omap. exists q. split; [by right|done].
Qed.

Lemma pieces_lists (ps : list Piece) (os : list (option (Z * Cell * list byte))) : Forall2 piece_of ps os →
  let l : list (Z * Cell * list byte) := omap (M := list) id os in
  let texts : list (option (list byte)) := fmap (M := list) (fmap (M := option) snd) os in
  Forall2 piece_text ps texts ∧ omap (M := list) id texts = l.*2 ∧ l.*1.*1 = omap (M := list) fst ps
  ∧ Forall (λ q, cells !! q.1.1 = Some q.1.2 ∧ fits q.1.2 ∧ jmarshal q.1.2 = Ok q.2) l.
Proof.
  induction 1 as [|p o ps os [Ht Hi Hc] _ (IH1 & IH2 & IH3 & IH4)]; [done|]. cbn zeta in *. split_and!.
  - by constructor.
  - destruct o as [q|]; [|exact IH2]. cbn. f_equal. exact IH2.
  - destruct o as [[[i c] t]|]; cbn in Hi |- *; rewrite <- Hi; [|exact IH3]. f_equal. exact IH3.
  - destruct o as [[[i c] t]|]; [|exact IH4]. apply (Forall_cons _ (i, c, t)). split; [by apply Hc|exact IH4].
Qed.

Lemma document_text data : sheet_text (fs_cells a) name data →
  ∃ cs ts, array_text ts (blank_last_comma data) ∧ Forall2 (λ c t, fits c ∧ jmarshal c = Ok t) cs ts ∧ cs ≡ₚ (map_to_list cells).*2.
Proof using Hd.
  intros (ps & -> & Hps & Hnd & Hids). destruct (pieces_cells ps Hps) as [os Hos]; [by intros [Hx _]%Hids|].
  destruct (pieces_lists ps os Hos) as (Hpt & Ets & Eid & Hl). set (l := omap (M := list) id os) in *.
  destruct (pieces_array _ _ Hpt) as [Harr _]. rewrite Ets in Harr. exists l.*1.*2, l.*2. split_and!; [done| |].
  - clear -Hl. induction Hl as [|[[i c] t] l (_ & Hf & Hj) _ IH]; [constructor|]. by constructor.
  - apply fmap_Permutation. apply NoDup_Permutation; [apply (NoDup_fmap_1 fst); by rewrite Eid|apply NoDup_map_to_list|]. intros [i c].
    rewrite elem_of_map_to_list, Forall_forall in *. split.
    + intros ([q t] & Eq & Hq)%list_elem_of_fmap_1. cbn in Eq. subst q. by destruct (Hl _ Hq).
    + intros Hi. destruct (dc_cells _ _ _ _ Hd i c Hi) as (Ei & (_ & _ & Hne) & _ & t & _ & Hs).
      assert (i ∈ l.*1.*1) as Hin. { rewrite Eid. apply Hids. split; [congruence|by eexists]. }
      apply list_elem_of_fmap_1 in Hin as ([i' c'] & -> & ([q t'] & Eq & Hq)%list_elem_of_fmap_1). cbn in Eq, Hi |- *. subst q.
      destruct (Hl _ Hq) as [Hc' _]. cbn in Hc'. simplify_eq. by apply (list_elem_of_fmap_2' fst _ _ _ Hq).
Qed.
End text.

(** ** Loading *)
Lemma connect_meta data meta : meta ≠ [] → connect data meta = celldata_head ++ blank_last_comma data ++ [x5d; x2c] ++ meta ++ [x7d].
Proof.
  intros Hm. unfold connect, celldata_head. destruct meta as [|m meta]; [done|].
  assert (match data with [] => data | _ => blank_last_comma data end = blank_last_comma data) as -> by (by destruct data).
  by rewrite <- !app_assoc.
Qed.

Lemma LoadSheet_spec name st a n common cells :
  ready name st a n → 0 <= n < 2 ^ 64 - 2 → document a name common cells → sheet_reads common →
  ∃ st' cs, LoadSheet name st = Some ((set_Celldata cs common, None), st') ∧ cs ≡ₚ (map_to_list cells).*2
    ∧ ready name st' (fs_bind a name) (n + 2) ∧ g_mongo st' = g_mongo st.
Proof.
  intros [Hst Hl Hfa] Hn Hd Hj. destruct (api_open_spec name st a n Hst ltac:(lia)) as (f & s1 & E1 & Hfd & Hst1).
  destruct (file_lock_pair name (g_locks st) Hl) as (t1 & t2 & Hlock & Hunlock & Hl2).
  destruct (sf_Read_ok s1 (fs_bind a name) (n + 1) f (sd_fs _ _ _ _ Hst1) ltac:(lia)) as (r & s2 & a2 & E2 & Hs & HR2).
  inversion Hs as [| | | | | | | | | | |? Hu|? nm data Hfd' Htext res]; subst; [congruence|]. rewrite Hfd in Hfd'. injection Hfd' as <-.
  destruct (document_text a name common cells Hd data Htext) as (cs & ts & Harr & Hcs & Hp).
  destruct (dc_common _ _ _ _ Hd) as (b & Hb & Hmeta). destruct (dc_fits _ _ _ _ Hd) as (b' & Hb' & Hlen & _).
  rewrite Hb in Hb'. injection Hb' as Hb'. apply app_inj_tail in Hb' as [<- _].
  exists (mkGState s2 (g_mongo st) t2), cs. split_and!; [|done| |done].
  - unfold LoadSheet, decodeFile. unfold mbind at 1, GoM_bind at 1. rewrite E1.
    unfold mbind at 1, GoM_bind at 1. unfold LockFile, on_locks. cbn [g_locks g_fs g_mongo]. rewrite Hlock.
    unfold mbind at 1, GoM_bind at 1. unfold on_fs, api_Read. unfold mbind at 1, GoM_bind at 1. cbn [g_fs g_mongo g_locks]. rewrite E2. cbn [mret GoM_ret fmap option_fmap option_map].
    unfold mbind at 1, GoM_bind at 1. unfold UnlockFile, on_locks. cbn [g_locks g_fs g_mongo]. rewrite Hunlock.
    rewrite decide_False by (by intros [? _]). rewrite decide_False by lia. rewrite Nat2Z.id, slice_of_all. unfold mbind, GoM_bind. cbn [go_deref mret GoM_ret].
    assert (junmarshal res = (set_Celldata cs common, None)) as ->; [|done].
    unfold res. cbn [fs_bind fs_cells]. rewrite Hmeta. cbn [from_option id]. unfold id, cell_bytes. cbv zeta. rewrite take_ge by exact Hlen.
    rewrite connect_meta, <- app_assoc; [by apply (Hj b cs ts)|]. intros Hx. apply (f_equal length) in Hx.
    rewrite length_app, length_replicate in Hx. change (Z.to_nat (cell_size SheetMetaCellID)) with (Z.to_nat 8192) in Hx. cbn in Hx. lia.
  - split; [|done|done]. destruct Hst1. split; try done. by replace (n + 2) with (n + 1 + 1) by lia.
Qed.

(** ** Creating *)

(** A new file is a document without cells. *)
Lemma initSheet_document name st a n : sf_rel (g_fs st) a n → 0 <= n < 2 ^ 64 - 2 → fs_sized a → (∀ id, fs_cells a !! (name, id) = None) →
  locks_free (g_locks st) → mg_faults (g_mongo st) = [] →
  meta_fits (new_Sheet name 1) →
  ∃ e st', initSheet name st = Some (e, st') ∧ g_mongo st' = g_mongo st
    ∧ (e = None → ∃ a', ready name st' a' (n + 2) ∧ document a' name (new_Sheet name 1) ∅).
Proof.
  intros HR Hn Hsz Hnone Hl Hfa Hfit. pose proof Hfit as (b & Hj & Hb & _). destruct (sf_Create_ok (g_fs st) a n name HR ltac:(lia)) as (r & s1 & a1 & E1 & Hs1 & HR1).
  unfold initSheet. unfold mbind at 1, GoM_bind at 1. unfold on_fs at 1. unfold api_Create. rewrite E1.
  destruct r as [f|e]; [|by eexists _, _].
  inversion Hs1 as [| |? Hbad Hnew| | | | | | | | | |]; subst.
  destruct (free_AddFileLock name (g_locks st) Hl) as [Hl1 _]. 
  destruct (cell_lock_pair name (key_of (2 ^ 32 - 1) (2 ^ 32 - 1)) _ Hl1) as (t1 & t2 & Hlock & Hunlock & Hl2).
  destruct meta_coords as (Hr & Hc & Hm).
  destruct (sf_WriteAt_ok s1 (fs_bind a name) (n + 1) (mkFile' (fs_next a) name) b SheetMetaCellRow SheetMetaCellCol [blank] HR1 ltac:(lia) Hr Hc eq_refl)
    as (r & s2 & a2 & E2 & Hs2 & HR2).
  inversion Hs2 as [| | | | | | |? ? ? ? ? Hu|? ? ? ? ? nm Hfd| | | |]; subst; cbn [fs_bind fs_fds file_fd] in *;
    rewrite lookup_insert_eq in *; [done|]. injection Hfd as <-. rewrite Hm in *.
  unfold write_new_sheet. rewrite Hj. unfold mbind at 1, GoM_bind at 1. unfold on_locks at 1. cbn [g_locks g_fs g_mongo].
  unfold LockMeta, LockCell. unfold mbind at 1, GoM_bind at 1. unfold on_locks at 1. cbn [g_locks g_fs g_mongo]. rewrite Hlock.
  unfold mbind at 1, GoM_bind at 1. erewrite on_fs_eq;
    [|unfold api_WriteMeta; rewrite slice_inner; unfold mbind, GoM_bind; cbn [go_deref mret GoM_ret g_fs]; rewrite E2; reflexivity].
  unfold UnlockMeta, UnlockCell, mbind, GoM_bind, on_locks. cbn [g_locks g_fs g_mongo]. rewrite Hunlock. eexists _, _. split; [done|].
  split; [done|]. intros _. eexists. split; [split; [split|done|done]|]; cbn [g_fs]; [by replace (n + 2) with (n + 1 + 1) by lia|by apply sized_store|done|cbn; set_solver|].
  split; [done| |done|].
  - exists b. split; [done|]. cbn. by rewrite lookup_insert_eq.
  - intros id Hid _. cbn. rewrite lookup_insert_ne; [apply Hnone|]. by intros [= ?].
Qed.

(** ** Sessions *)

(** The requests of a user that change a document. *)
Inductive Request :=
| RCell (req : UpdateV) (now : Z)
| RRange (req : UpdateRV)
| RConfig (req : UpdateCG)
| RCommon (req : UpdateCommon)
| RChain (req : UpdateCalcChain).

Definition run_request (name user : string) (q : Request) : GoM (GState S) () :=
  match q with
  | RCell req now => persistGridValue req name user now
  | RRange req => persistGridMulti req name
  | RConfig req => persistGridConfig req name
  | RCommon req => persistGridCommon req name
  | RChain req => persistCalcChain req name
  end.

(** The request of a message; [None] when it cannot be parsed or changes nothing. *)
Definition parsed {T} {J : JsonT T} (reqmsg : list byte) (k : T → Request) : option Request :=
  match junmarshal reqmsg with (_, Some _) => None | (req, None) => Some (k req) end.

Definition request_of (reqmsg : list byte) (now : Z) : option Request :=
  let t := json_T reqmsg in
  if decide (t = "v") then parsed reqmsg (λ req, RCell req now)
  else if decide (t = "rv") then parsed reqmsg RRange
  else if decide (t = "cg") then parsed reqmsg RConfig
  else if decide (t = "all") then parsed reqmsg RCommon
  else if decide (t = "fc") then parsed reqmsg RChain
  else None.

(** Messages of a user, each with the time it arrives. *)
Fixpoint session (name user : string) (ms : list (list byte * Z)) : GoM (GState S) (list Response) :=
  match ms with
  | [] => mret []
  | (reqmsg, now) :: ms' =>
      r ← HandleMsg reqmsg user name now;
      rs ← session name user ms';
      mret (r :: rs)
  end.

Definition response_to (user : string) (m : list byte * Z) : Response := mkResponse (rsp_type (json_T m.1)) user user m.1.

Lemma HandleMsg_request name user m st :
  HandleMsg m.1 user name m.2 st
  = (match request_of m.1 m.2 with Some q => run_request name user q | None => mret () end ≫= λ _, mret (response_to user m)) st.
Proof.
  unfold HandleMsg, request_of, dispatch, updateGrid, updateGridMulti, updateGridConfig, updateGridCommon, updateCalcChain, with_req, parsed.
  repeat case_decide; try done; by destruct (junmarshal m.1) as [? [?|]].
Qed.

(** What a request does to a document: its common part and its cells.  The new
    texts have room, the matrix of a range covers it and the position in the
    calculation chain exists. *)
Inductive doc_step : Sheet * gmap Z Cell → Request → Sheet * gmap Z Cell → Prop :=
| ds_cell common cells req now : pos_ok (c_R (uv_Cell req)) (c_C (uv_Cell req)) → fits (uv_Cell req) →
    doc_step (common, cells) (RCell req now) (common, put_cell cells (uv_Cell req))
| ds_range common cells req row0 row1 col0 col1 : rv_Range req = mkIntRange [col0; col1] [row0; row1] →
    let rows := Z.to_nat (row1 - row0 + 1) in
    let cols := Z.to_nat (col1 - col0 + 1) in
    (∀ i j, (i < rows)%nat → (j < cols)%nat → cell_fits req row0 col0 i j) →
    doc_step (common, cells) (RRange req) (common, foldl put_cell cells (range_cells req row0 col0 rows cols))
| ds_config common cells req : (∀ s, config_change req common = Some s → meta_fits s) →
    doc_step (common, cells) (RConfig req) (default common (config_change req common), cells)
| ds_common common cells req : (∀ s, common_change req s ≠ CPanic) → (∀ s, common_change req common = CStore s → meta_fits s) →
    doc_step (common, cells) (RCommon req) (match common_change req common with CStore s => s | _ => common end, cells)
| ds_chain common cells req change : chain_change req (common, None) = Some change → (∀ s, change = Some s → meta_fits s) →
    doc_step (common, cells) (RChain req) (default common change, cells).

Inductive doc_steps : Sheet * gmap Z Cell → list (list byte * Z) → Sheet * gmap Z Cell → Prop :=
| dss_nil d : doc_steps d [] d
| dss_skip d m ms d2 : request_of m.1 m.2 = None → doc_steps d ms d2 → doc_steps d (m :: ms) d2
| dss_cons d m q d1 ms d2 : request_of m.1 m.2 = Some q → doc_step d q d1 → doc_steps d1 ms d2 → doc_steps d (m :: ms) d2.

(** A bound on the calls of a request to the file system. *)
Definition request_calls (q : Request) : Z :=
  match q with
  | RRange req =>
      match rv_Range req with
      | mkIntRange [col0; col1] [row0; row1] => 1 + Z.of_nat (Z.to_nat (row1 - row0 + 1) * Z.to_nat (col1 - col0 + 1))
      | _ => 0
      end
  | _ => 3
  end.
Definition session_calls (ms : list (list byte * Z)) : Z :=
  foldr (λ m k, match request_of m.1 m.2 with Some q => request_calls q | None => 0 end + k) 0 ms.

Lemma request_calls_nonneg q : 0 <= request_calls q.
Proof. destruct q; cbn [request_calls]; try lia. repeat case_match; try lia. apply Z.add_nonneg_nonneg; [lia|apply Nat2Z.is_nonneg]. Qed.

Lemma session_calls_nonneg ms : 0 <= session_calls ms.
Proof.
  induction ms as [|m ms IH]; [done|]. cbn. unfold session_calls in IH. destruct (request_of m.1 m.2) as [q|]; [pose proof (request_calls_nonneg q)|]; lia.
Qed.

(** A request on the common part, given what it does to it. *)
Lemma meta_document a a' name common cells change : document a name common cells → (∀ s, change = Some s → meta_fits s) →
  match change with Some s => meta_stored a a' name s | None => fs_cells a' = fs_cells a end → document a' name (default common change) cells.
Proof. intros Hd Hf. destruct change as [s|]; cbn; intros H; [by eapply document_meta; eauto|by eapply document_same]. Qed.

Lemma request_spec name user q st a n common cells d :
  ready name st a n → 0 <= n → n + request_calls q < 2 ^ 64 - 1 → document a name common cells → doc_step (common, cells) q d →
  ∃ st' a' n', run_request name user q st = Some ((), st') ∧ ready name st' a' n' ∧ n <= n' <= n + request_calls q ∧ document a' name d.1 d.2.
Proof.
  intros Hrd H0 Hn Hd Hs. pose proof (document_common _ _ _ _ Hd) as Hcm.
  inversion Hs as [? ? req now Hp Hf|? ? req r0 r1 c0 c1 Hr rows cols Hfit|? ? req Hfit|? ? req Hpan Hfit|? ? req change Hch Hfit]; subst; cbn [run_request fst snd].
  - destruct (edit_spec name user st a n req now Hrd ltac:(cbn in Hn; lia) Hp Hf) as (st1 & a1 & E & Hrd1 & _ & _ & Ht & _).
    exists st1, a1, (n + 3). split_and!; [done|done|lia|cbn; lia|by eapply document_put].
  - assert (request_calls (RRange req) = 1 + Z.of_nat (rows * cols)) as Hk by (cbn; by rewrite Hr). rewrite Hk in *.
    destruct (range_spec name req r0 r1 c0 c1 st a n Hrd Hr Hfit H0 ltac:(fold rows cols; lia)) as (st1 & a1 & E & Hrd1 & _ & _ & Ht).
    eexists st1, a1, _. split_and!; [done|exact Hrd1|lia|fold rows cols; lia|]. eapply document_puts; [done| |exact Ht].
    apply Forall_forall. intros c (i & j & Hi & Hj & ->)%elem_range. by destruct (Hfit i j Hi Hj) as (_ & ? & ?).
  - rewrite config_is_meta. destruct (meta_request_spec (config_change req) name st a n Hrd ltac:(cbn in Hn; lia)) as (st1 & a1 & n1 & E & Hrd1 & _ & _ & _ & Hn1 & Hm);
      rewrite Hcm in *; [done|]. exists st1, a1, n1. split_and!; [done|done|lia|cbn; lia|by eapply meta_document].
  - rewrite common_is_meta by done.
    destruct (meta_request_spec (λ s, match common_change req s with CStore s' => Some s' | _ => None end) name st a n Hrd ltac:(cbn in Hn; lia))
      as (st1 & a1 & n1 & E & Hrd1 & _ & _ & _ & Hn1 & Hm); rewrite Hcm in *; cbn [fst] in *.
    { intros s. destruct (common_change req common) eqn:Ec; try done. intros [= <-]. by apply Hfit. }
    exists st1, a1, n1. split_and!; [done|done|lia|cbn; lia|].
    assert (document a1 name (default common (match common_change req common with CStore s => Some s | _ => None end)) cells) as Hdoc.
    { apply (meta_document a a1); try done. intros s. destruct (common_change req common) eqn:Ec; try done. intros [= <-]. by apply Hfit. }
    by destruct (common_change req common).
  - pose proof (calc_chain_requests name req st a n Hrd ltac:(cbn in Hn; lia)) as H. rewrite Hcm, Hch in H.
    destruct H as (st1 & a1 & n1 & E & Hrd1 & _ & _ & _ & Hn1 & Hm); [by intros s [= ->]; apply Hfit|].
    exists st1, a1, n1. split_and!; [done|done|lia|cbn; lia|by eapply meta_document].
Qed.

Lemma session_spec name user ms : ∀ st a n d d',
  ready name st a n → 0 <= n → n + session_calls ms < 2 ^ 64 - 1 → document a name d.1 d.2 → doc_steps d ms d' →
  ∃ st' a' n', session name user ms st = Some (response_to user <$> ms, st') ∧ ready name st' a' n' ∧ 0 <= n' <= n + session_calls ms
    ∧ document a' name d'.1 d'.2.
Proof.
  induction ms as [|[reqmsg now] ms IH]; intros st a n d d' Hrd H0 Hn Hd Hs; inversion Hs as [|? ? ? ? Hr H2|? ? q d1 ? ? Hr H1 H2]; subst.
  { exists st, a, n. split_and!; try done. cbn. lia. }
  all: cbn [session]; unfold mbind at 1, GoM_bind at 1; pose proof (HandleMsg_request name user (reqmsg, now) st) as Hh; rewrite Hr in Hh;
    pose proof (session_calls_nonneg ms) as Hq; cbn in Hn; cbn [fst snd] in *; rewrite Hr in Hn; fold (session_calls ms) in Hn.
  - destruct (IH st a n d d' Hrd) as (st2 & a2 & n2 & E2 & Hrd2 & Hn2 & Hd2); [lia|lia|done|done|].
    exists st2, a2, n2. split_and!; [|done|lia|cbn; rewrite Hr; fold (session_calls ms); lia|done].
    rewrite Hh. unfold mbind, GoM_bind. cbn [mret GoM_ret]. by rewrite E2.
  - destruct d as [common cells]. destruct (request_spec name user q st a n common cells d1 Hrd H0 ltac:(lia) Hd H1) as (st1 & a1 & n1 & E1 & Hrd1 & Hn1 & Hd1).
    destruct (IH st1 a1 n1 d1 d' Hrd1) as (st2 & a2 & n2 & E2 & Hrd2 & Hn2 & Hd2); [lia|lia|done|done|].
    exists st2, a2, n2. split_and!; [|done|lia|cbn; rewrite Hr; fold (session_calls ms); lia|done].
    rewrite Hh. unfold mbind, GoM_bind. rewrite E1. cbn [mret GoM_ret]. by rewrite E2.
Qed.

(** C9. A document is loaded as its users left it, when none of its messages makes the
    backend panic ([doc_steps]: the matrix of a range covers it, the position of a change of the
    calculation chain exists, a name or colour is a string, cells lie in the grid and texts fit
    their cells) and the file system behaves as the map of [SheetFsLaws].  After such messages
    on cells, ranges, the configuration, the common part and the calculation chain, [LoadSheet]
    returns the sheet with the common part as the messages changed it and, in some
    order, every cell that was stored, once, with its last value; a message that
    cannot be parsed or asks for anything else changes nothing, and every message is
    answered with its own text.  Encoding/json skips the blanks between the elements of an
    array.  A message outside of [doc_steps] can panic while a lock of the file is held
    (short_range_panics), and a later [LoadSheet] then blocks. *)
Theorem load_after_session name user ms st a n common cells common' cells' :
  ready name st a n → 0 <= n → n + session_calls ms < 2 ^ 64 - 2 → document a name common cells →
  doc_steps (common, cells) ms (common', cells') → sheet_reads common' →
  ∃ st1 st2 cs, session name user ms st = Some (response_to user <$> ms, st1)
    ∧ LoadSheet name st1 = Some ((set_Celldata cs common', None), st2)
    ∧ cs ≡ₚ (map_to_list cells').*2 ∧ g_mongo st2 = g_mongo st1 ∧ locks_free (g_locks st2).
Proof.
  intros Hrd H0 Hn Hd Hs Hj. destruct (session_spec name user ms st a n (common, cells) _ Hrd H0 ltac:(lia) Hd Hs) as (st1 & a1 & n1 & E1 & Hrd1 & Hn1 & Hd1).
  destruct (LoadSheet_spec name st1 a1 n1 common' cells' Hrd1 ltac:(lia) Hd1 Hj) as (st2 & cs & E2 & Hcs & Hrd2 & Hm).
  exists st1, st2, cs. split_and!; try done. apply Hrd2.
Qed.
End load.

(** ** A document with two cells *)
Definition demo_common : Sheet := set_Name "n" zero_Sheet.
Definition doc_fs : Fs := mkFs {["a"]} ∅ 0 {[("a", SheetMetaCellID) := cell_bytes SheetMetaCellID [x00; x6e] [blank]]}.
Definition doc_state : GState Fs := mkGState doc_fs (mkMongo [mkFileRecord "a" false] [] []) empty_tables.

(** An edit, a range, a message that is not known, a configuration, the edit of the
    same cell again. *)
Definition demo_session : list (list byte * Z) :=
  [([x76; x01; x02; x78], 10); ([x72], 11); ([x3f], 12); ([x67], 13); ([x76; x01; x02; x7a], 20)].

Lemma doc_ready : ready "a" doc_state doc_fs 0.
Proof.
  split; [split|apply empty_free|done]; try done. intros name id d Hd. cbn [fs_cells doc_fs] in Hd. apply lookup_singleton_Some in Hd as [[= <- <-] <-]. apply length_cell_bytes.
Qed.

Lemma doc_document : document doc_fs "a" demo_common ∅.
Proof.
  split; [| |done|].
  - exists [x00; x6e]. split_and!; [reflexivity|cbn; lia|reflexivity].
  - exists [x00; x6e]. split; [reflexivity|apply lookup_singleton_eq].
  - intros id Hid _. apply lookup_singleton_ne. by intros [= ?].
Qed.

Lemma demo_cells_blanks k l : demo_cells (replicate k blank ++ l) = demo_cells l.
Proof. induction k as [|k IH]; [done|]. exact IH. Qed.

Lemma demo_cells_array cs ts body l : array_text ts body → Forall2 (λ c t, fits c ∧ jmarshal c = Ok t) cs ts →
  demo_cells (body ++ x5d :: l) = (cs, l).
Proof.
  assert (∀ c t l, fits c ∧ jmarshal c = Ok t → demo_cells (t ++ l) = (c :: fst (demo_cells l), snd (demo_cells l))) as Hone.
  { intros c t l' [(x & b & Hj & _ & Hu) Ht]. cbn in Ht. injection Ht as <-. cbn in Hj. injection Hj as <- <-. specialize (Hu 0%nat). cbn in Hu |- *.
    injection Hu as ->. by destruct (demo_cells l'). }
  intros Harr. revert cs. induction Harr as [k|k t j|k t j ts rest Hne _ IH]; intros cs Hcs; rewrite <- ?app_assoc, demo_cells_blanks.
  - inversion Hcs; subst. done.
  - inversion Hcs as [|c ? ? ? Hc Hn]; subst. inversion Hn; subst. rewrite (Hone c) by done. by rewrite demo_cells_blanks.
  - inversion Hcs as [|c ? cs' ? Hc Hcs']; subst. rewrite (Hone c) by done. rewrite demo_cells_blanks. cbn [app].
    change (demo_cells (comma :: rest ++ x5d :: l)) with (demo_cells (rest ++ x5d :: l)). by rewrite (IH cs').
Qed.

Lemma demo_reads : sheet_reads (set_Config (Some zero_SheetConfig) demo_common).
Proof.
  intros b cs ts body k Hm Hcs Harr. cbn in Hm. injection Hm as Hm. change [x01; x6e; x7d] with ([x01; x6e] ++ [x7d]) in Hm.
  apply app_inj_tail in Hm as [<- _].
  change (junmarshal (celldata_head ++ body ++ [x5d; x2c] ++ [x01; x6e] ++ replicate k blank ++ [x7d])) with
    (demo_read_sheet (demo_cells (body ++ x5d :: x2c :: x01 :: x6e :: replicate k blank ++ [x7d]))).
  by rewrite (demo_cells_array cs ts).
Qed.

Lemma demo_steps : doc_steps (demo_common, ∅) demo_session
  (set_Config (Some zero_SheetConfig) demo_common, foldl put_cell ∅ (uv_Cell (demo_edit 1 2 "x") :: range_cells demo_range 3 5 2 2 ++ [uv_Cell (demo_edit 1 2 "z")])).
Proof.
  cbn [foldl]. rewrite foldl_app. eapply dss_cons; [reflexivity|apply ds_cell; [done|]|].
  2: eapply dss_cons; [reflexivity|apply (ds_range _ _ demo_range 3 4 5 6); [done|]|].
  3: eapply dss_skip; [reflexivity|]. 3: eapply dss_cons; [reflexivity|apply ds_config|].
  4: eapply dss_cons; [reflexivity|apply ds_cell; [done|]|constructor].
  - eexists _, _. split_and!; [reflexivity|cbn; lia|reflexivity].
  - intros i j Hi Hj. change (Z.to_nat (4 - 3 + 1)) with 2%nat in Hi. change (Z.to_nat (6 - 5 + 1)) with 2%nat in Hj.
    destruct i as [|[|i]]; [| |lia]; (destruct j as [|[|j]]; [| |lia]);
      (split_and!; [by eexists|done|eexists _, _; split_and!; [reflexivity|cbn; lia|reflexivity]]).
  - intros s [= <-]. eexists [x01; x6e]. split_and!; [reflexivity|cbn; lia|reflexivity].
  - eexists _, _. split_and!; [reflexivity|cbn; lia|reflexivity].
Qed.

Lemma load_after_session_witness : ∃ st1 st2 cs, session "a" "me" demo_session doc_state = Some (response_to "me" <$> demo_session, st1)
  ∧ LoadSheet "a" st1 = Some ((set_Celldata cs (set_Config (Some zero_SheetConfig) demo_common), None), st2)
  ∧ cs ≡ₚ [mkCell 5 3 (text_value "p"); mkCell 5 4 (text_value "r"); mkCell 6 3 (text_value "q"); mkCell 6 4 (text_value "s"); mkCell 2 1 (text_value "z")]
  ∧ g_mongo st2 = g_mongo st1 ∧ locks_free (g_locks st2).
Proof.
  destruct (load_after_session "a" "me" demo_session doc_state doc_fs 0 demo_common ∅ _ _ doc_ready ltac:(done) ltac:(vm_compute; reflexivity) doc_document
    demo_steps demo_reads) as (st1 & st2 & cs & H1 & H2 & H3 & H4 & H5).
  exists st1, st2, cs. refine (conj H1 (conj H2 (conj _ (conj H4 H5)))). rewrite H3. vm_compute. reflexivity.
Defined.

(** ** The same session on clients, master and data nodes *)
Definition whole_state : GState (Client * Sys MemDB MemTopic) := mkGState (demo_client, demo_sys) (mkMongo [] [] []) empty_tables.

#[local] Instance whole_fs : SheetFs (Client * Sys MemDB MemTopic) := sheetfs (ME := null_codec) (RO := source_order) (WX := calm_weather).

Definition whole_session : GoM (GState (Client * Sys MemDB MemTopic)) (Sheet * option GError) :=
  _ ← CreateFile "a";
  _ ← session "a" "me" demo_session;
  LoadSheet "a".

Example whole_session_loads :
  (λ r, (sh_Name r.1.1, (λ c, (c_R c, c_C c, cv_M (c_V c))) <$> sh_Celldata r.1.1, r.1.2)) <$> whole_session whole_state
  = Some ("a", [(4, 6, "s"); (1, 2, "z"); (3, 5, "p"); (3, 6, "q"); (4, 5, "r")], None).
Proof. vm_compute. reflexivity. Qed.
