(* ===== verification/GdocControllers.v ===== *)
(** GdocControllers: the HTTP and websocket end of the gDoc backend.

    Source: gDoc_backend/controllers/{server.go, client.go}.

    An HTTP request is answered with a status and a body.  The websocket part is
    a transition system: every connection is a goroutine that joins, sends
    requests and leaves through three buffered channels, and [broadcaster]
    serves the channels one message at a time, in any order. *)
From Stdlib Require Import ZArith Lia Strings.Byte.
From stdpp Require Import gmap strings list.
From S2P Require Import Prelude.
From S2P Require Import MasterData.
From S2P Require Import FsClient.
From S2P Require Import FileSystem.
From S2P Require Import GoStd.
From S2P Require Import Locks.
From S2P Require Import GdocModel.
From S2P Require Import GdocFs.
From S2P Require Import GdocHandler.
From S2P Require Import GdocLocks.
From S2P Require Import GdocFiles.
From S2P Require Import GdocDemo.
Open Scope Z_scope.

(** ** server.go: requests *)
Record RollbackRequest := mkRollbackRequest { rb_Filename : string; rb_Timestamp : Z }.

(** The decoders of request bodies ([FileRequest] is its file name) and the
    encoders of the sheets and of the answers on a websocket. *)
Class ReqJson := {
  #[global] json_FileRequest :: JsonT string;
  #[global] json_RollbackRequest :: JsonT RollbackRequest;
  #[global] json_Sheets :: JsonT (list Sheet);
  marshal_Response : Response → list byte
}.

(** ISO 8859-1, gzip and the escapes of URLs, each a function of the bytes. *)
Class WireFormat := {
  ISO8859_1_Bytes : list byte → result string (list byte);
  gzip_ReadAll : list byte → result string (list byte);
  QueryUnescape : list byte → result string (list byte)
}.

Inductive Body := BNone | BBool (b : bool) | BText (b : list byte) | BFiles (l : list FileRecord) | BLog (l : list Log).
Record Reply := mkReply { rp_Status : Z; rp_Body : Body }.

Section requests.
Context {S : Type} {F : SheetFs S} {JS : GoJson} {LS : LogSort} {BS : Bson} {RJ : ReqJson}.
Abbreviation GM := (GoM (GState S)).

Definition bad_request : Reply := mkReply 400 BNone.
Definition succeeded (e : option GError) : Reply := mkReply 200 (BBool match e with None => true | Some _ => false end).

Definition Load (filename : string) : GM Reply :=
  if decide (filename = "") then mret bad_request
  else
    r ← LoadSheet filename;
    match jmarshal [fst r] with
    | Err _ => mret (mkReply 200 BNone)
    | Ok jsonString => mret (mkReply 200 (BText jsonString))
    end.

Definition List : GM Reply :=
  r ← ListFiles;
  mret match snd r with Some _ => mkReply 500 BNone | None => mkReply 200 (BFiles (fst r)) end.

(** The body is a [FileRequest] with a name. *)
Definition with_file_name (body : list byte) (k : string → GM Reply) : GM Reply :=
  match junmarshal body with
  | (_, Some _) => mret bad_request
  | (fileName, None) => if decide (fileName = "") then mret bad_request else k fileName
  end.

Definition Create (body : list byte) : GM Reply := with_file_name body (λ n, e ← CreateFile n; mret (succeeded e)).
Definition Delete (body : list byte) : GM Reply := with_file_name body (λ n, e ← DeleteFile n; mret (succeeded e)).
Definition DeleteForever' (body : list byte) : GM Reply := with_file_name body (λ n, e ← DeleteForever n; mret (succeeded e)).
Definition Recycle' (body : list byte) : GM Reply := with_file_name body (λ n, e ← Recycle n; mret (succeeded e)).

Definition GetLog' (fileName : string) : GM Reply :=
  if decide (fileName = "") then mret bad_request
  else
    r ← GetLog fileName;
    mret match snd r with Some _ => bad_request | None => mkReply 200 (BLog (fst r)) end.

Definition Rollback (body : list byte) : GM Reply :=
  match junmarshal body with
  | (_, Some _) => mret bad_request
  | (request, None) =>
      if decide (rb_Filename request = "") then mret bad_request
      else e ← UndoLogs (rb_Filename request) (rb_Timestamp request); mret (succeeded e)
  end.
End requests.

(** ** Connect *)

(** unicode.IsSpace *)
Definition IsSpace (r : rune) : bool :=
  bool_decide (r ∈ [0x9; 0xA; 0xB; 0xC; 0xD; 0x20; 0x85; 0xA0; 0x1680; 0x2028; 0x2029; 0x202F; 0x205F; 0x3000])
  || bool_decide (0x2000 <= r <= 0x200A).

(** The length of the space that begins the bytes, 0 if none does. *)
Definition space_len (l : list byte) : nat :=
  match l with
  | [] => 0
  | _ => let '(r, n) := decode_rune (Ascii.ascii_of_byte <$> l) in if IsSpace r then n else 0
  end.

Fixpoint trim_space_left (fuel : nat) (l : list byte) : list byte :=
  match fuel with
  | O => l
  | Datatypes.S fuel' => match space_len l with O => l | n => trim_space_left fuel' (drop n l) end
  end.

(** A space at the end is one, two or three bytes that are its encoding. *)
Definition ends_with_space (k : nat) (l : list byte) : bool :=
  bool_decide (k ≤ length l)%nat && bool_decide (space_len (drop (length l - k) l) = k).

Fixpoint trim_space_right (fuel : nat) (l : list byte) : list byte :=
  match fuel with
  | O => l
  | Datatypes.S fuel' =>
      match filter (λ k, ends_with_space k l = true) [1; 2; 3]%nat with
      | k :: _ => trim_space_right fuel' (take (length l - k) l)
      | [] => l
      end
  end.

(** bytes.TrimSpace *)
Definition TrimSpace (l : list byte) : list byte :=
  let l' := trim_space_left (length l) l in trim_space_right (length l') l'.

Definition newline : byte := x0a.
Definition space : byte := x20.

(** bytes.Replace(reqmsg, newline, space, -1) *)
Definition replace_newlines (l : list byte) : list byte := (λ b, if decide (b = newline) then space else b) <$> l.

Definition ungzip `{WireFormat} (gzipmsg : list byte) : result string (list byte) :=
  if decide (gzipmsg = []) then Ok []
  else if decide (gzipmsg = [x72; x75; x62]) then Ok gzipmsg
  else
    match ISO8859_1_Bytes gzipmsg with
    | Err e => Err e
    | Ok encodeMsg => match gzip_ReadAll encodeMsg with Err e => Err e | Ok reqmsg => QueryUnescape reqmsg end
    end.

(** A connection with the name of its user. *)
Record Client := mkClient { cl_conn : nat; cl_name : string }.
#[export] Instance Client_eq_dec : EqDecision Client.
Proof. solve_decision. Defined.

Record Message := mkMessage { ms_EventType : byte; ms_Name : string; ms_Message : list byte }.

(** What the upgrade to a websocket gives. *)
Inductive Upgrade := UConn (conn : nat) | UHandshakeError | UError.

Definition Connect_open (name filename : string) (up : Upgrade) : Client + Reply :=
  if decide (name = "") then inr (mkReply 302 BNone)
  else if decide (filename = "") then inr (mkReply 302 BNone)
  else
    match up with
    | UHandshakeError => inr bad_request
    | UError => inr (mkReply 200 BNone)
    | UConn conn => inl (mkClient conn name)
    end.

(** One turn of the loop of Connect, up to the send to the channel. *)
Definition Connect_turn {S} `{SheetFs S, GoJson, LogSort, Bson, ReqJson, WireFormat} (name filename : string) (now : Z) (msgStr : list byte)
  : GoM (GState S) (option Message) :=
  match ungzip msgStr with
  | Err _ => mret None
  | Ok reqmsg =>
      response ← HandleMsg (TrimSpace (replace_newlines reqmsg)) name filename now;
      mret (Some (mkMessage x00 name (marshal_Response response)))
  end.

(** ** client.go *)

(** [known] and [closed] are the connections whose goroutines run and have left;
    [sent] are the calls of WriteMessage in order, each with its success (an error is
    logged and forgotten); [history] records the messages that were broadcast. *)
Record Hub := mkHub {
  hb_join : list Client;
  hb_leave : list Client;
  hb_message : list Message;
  hb_clients : list Client;
  hb_known : list Client;
  hb_closed : list Client;
  hb_sent : list (Client * list byte * bool);
  hb_history : list Message
}.

Definition empty_hub : Hub := mkHub [] [] [] [] [] [] [] [].

(** The capacity of the channels. *)
Definition chan_cap : nat := 10.

Inductive HLabel :=
| HConnect (c : Client)                 (* join <- client *)
| HRequest (c : Client) (msg : Message) (* a turn of the loop: message <- msg *)
| HClose (c : Client)                   (* leave <- client *)
| HMessage (broken : list Client)       (* the cases of broadcaster's select, with the *)
| HJoin (broken : bool)                 (* connections to which WriteMessage fails *)
| HLeave.

Section hub.
Context {RO : RangeOrder} {RJ : ReqJson}.

(** The answer to a client that joins. *)
Definition welcome (c : Client) : list byte := marshal_Response (mkResponse RSP_SUCCESS (cl_name c) (cl_name c) []).

(** The cases of broadcaster's select; [None] while the channel is empty. *)
Definition broadcaster (l : HLabel) (h : Hub) : option Hub :=
  match l with
  | HMessage broken =>
      match hb_message h with
      | [] => None
      | msg :: rest =>
          Some (mkHub (hb_join h) (hb_leave h) rest (hb_clients h) (hb_known h) (hb_closed h)
                 (hb_sent h ++ ((λ c, (c, ms_Message msg, bool_decide (c ∉ broken))) <$> range_order (hb_clients h))) (hb_history h ++ [msg]))
      end
  | HJoin broken =>
      match hb_join h with
      | [] => None
      | c :: rest =>
          Some (mkHub rest (hb_leave h) (hb_message h) (if decide (c ∈ hb_clients h) then hb_clients h else hb_clients h ++ [c])
                 (hb_known h) (hb_closed h) (hb_sent h ++ [(c, welcome c, negb broken)]) (hb_history h))
      end
  | HLeave =>
      match hb_leave h with
      | [] => None
      | c :: rest =>
          Some (mkHub (hb_join h) rest (hb_message h)
                 (if decide (c ∈ hb_clients h) then filter (λ d, d ≠ c) (hb_clients h) else hb_clients h)
                 (hb_known h) (hb_closed h) (hb_sent h) (hb_history h))
      end
  | _ => None
  end.

(** The sends of the goroutine of a connection: it joins once, sends messages and
    leaves; a send blocks ([None]) while the channel is full. *)
Definition connection (l : HLabel) (h : Hub) : option Hub :=
  match l with
  | HConnect c =>
      if decide (c ∈ hb_known h ∨ (chan_cap <= length (hb_join h))%nat) then None
      else Some (mkHub (hb_join h ++ [c]) (hb_leave h) (hb_message h) (hb_clients h) (hb_known h ++ [c]) (hb_closed h) (hb_sent h) (hb_history h))
  | HRequest c msg =>
      if decide (c ∉ hb_known h ∨ c ∈ hb_closed h ∨ (chan_cap <= length (hb_message h))%nat) then None
      else Some (mkHub (hb_join h) (hb_leave h) (hb_message h ++ [msg]) (hb_clients h) (hb_known h) (hb_closed h) (hb_sent h) (hb_history h))
  | HClose c =>
      if decide (c ∉ hb_known h ∨ c ∈ hb_closed h ∨ (chan_cap <= length (hb_leave h))%nat) then None
      else Some (mkHub (hb_join h) (hb_leave h ++ [c]) (hb_message h) (hb_clients h) (hb_known h) (hb_closed h ++ [c]) (hb_sent h) (hb_history h))
  | _ => None
  end.

Definition hstep (l : HLabel) (h : Hub) : option Hub :=
  match l with HMessage _ | HJoin _ | HLeave => broadcaster l h | _ => connection l h end.

Fixpoint hrun (ls : list HLabel) (h : Hub) : option Hub :=
  match ls with [] => Some h | l :: ls' => h' ← hstep l h; hrun ls' h' end.

(** What the broadcaster tried to write to a connection, what it wrote, and the
    messages that were sent to the channel. *)
Definition tried (c : Client) (h : Hub) : list (list byte) := (λ p, p.1.2) <$> filter (λ p, p.1.1 = c) (hb_sent h).
Definition received (c : Client) (h : Hub) : list (list byte) :=
  (λ p, p.1.2) <$> filter (λ p, p.2 = true) (filter (λ p, p.1.1 = c) (hb_sent h)).
Definition all_written (c : Client) (h : Hub) : Prop := Forall (λ p, p.1.1 = c → p.2 = true) (hb_sent h).
Definition posted (ls : list HLabel) : list Message := omap (λ l, match l with HRequest _ m => Some m | _ => None end) ls.
End hub.

(** ** The order of the messages *)
Section order.
Context {RO : RangeOrder} {RJ : ReqJson}.

(** The messages [j], ..., [j + k - 1] of a list. *)
Definition window (j k : nat) (l : list Message) : list (list byte) := ms_Message <$> take k (drop j l).

Lemma tried_app c h l : (λ p, p.1.2) <$> filter (λ p : Client * list byte * bool, p.1.1 = c) (hb_sent h ++ l) = tried c h ++ ((λ p, p.1.2) <$> filter (λ p : Client * list byte * bool, p.1.1 = c) l).
Proof. by rewrite filter_app, fmap_app. Qed.

Lemma to_all c m (ok : Client → bool) cs : NoDup cs →
  (λ p, p.1.2) <$> filter (λ p : Client * list byte * bool, p.1.1 = c) ((λ d, (d, m, ok d)) <$> cs) = if decide (c ∈ cs) then [m] else [].
Proof.
  induction cs as [|d cs IH]; [done|]. intros [Hd Hcs]%NoDup_cons. rewrite fmap_cons, filter_cons. cbn [fst].
  specialize (IH Hcs). destruct (decide (d = c)) as [->|Hne].
  - rewrite fmap_cons, IH, decide_False by done. by rewrite decide_True by set_solver.
  - rewrite IH. by apply decide_ext; set_solver.
Qed.

Record hub_ok (h : Hub) : Prop := {
  hk_nodup : NoDup (hb_join h ++ hb_clients h);
  hk_known : ∀ c, c ∈ hb_join h ++ hb_clients h → c ∈ hb_known h;
  hk_silent : ∀ c, c ∈ hb_join h ∨ c ∉ hb_known h → tried c h = [];
  hk_window : ∀ c, tried c h = [] ∨ ∃ j k, tried c h = welcome c :: window j k (hb_history h);
  hk_client : ∀ c, c ∈ hb_clients h → ∃ j, (j ≤ length (hb_history h))%nat
    ∧ tried c h = welcome c :: (ms_Message <$> drop j (hb_history h))
}.

Lemma window_snoc j k l m : ∃ k', window j k l = window j k' (l ++ [m]).
Proof.
  unfold window. destruct (decide (j ≤ length l)%nat).
  - exists (k `min` (length l - j))%nat. rewrite drop_app_le, take_app_le by (rewrite ?length_drop; lia). f_equal.
    rewrite <- (length_drop l j). rewrite <- take_take, (take_ge _ (length (drop j l))) by lia. done.
  - exists 0%nat. rewrite drop_ge by lia. by rewrite take_nil.
Qed.

Lemma ok_message broken h h' : hub_ok h → hstep (HMessage broken) h = Some h' → hub_ok h'.
Proof.
  intros [Hnd Hk Hs Hw Hc]. cbn. destruct (hb_message h) as [|msg rest]; [done|]. intros [= <-].
  assert (∀ c, tried c (mkHub (hb_join h) (hb_leave h) rest (hb_clients h) (hb_known h) (hb_closed h)
      (hb_sent h ++ ((λ c, (c, ms_Message msg, bool_decide (c ∉ broken))) <$> range_order (hb_clients h))) (hb_history h ++ [msg]))
    = tried c h ++ if decide (c ∈ hb_clients h) then [ms_Message msg] else []) as Hr.
  { intros c. unfold tried at 1. cbn [hb_sent]. rewrite tried_app, to_all.
    - f_equal. apply decide_ext. by rewrite range_order_perm.
    - rewrite range_order_perm. by apply NoDup_app in Hnd as (_ & _ & ?). }
  split; cbn [hb_join hb_clients hb_known hb_history]; [done|done|..].
  - intros c Hcj. rewrite Hr, (Hs c Hcj), decide_False; [done|]. intros Hin. destruct Hcj as [Hj|Hn].
    + apply NoDup_app in Hnd as (_ & Hd & _). by apply (Hd c).
    + apply Hn, Hk. set_solver.
  - intros c. rewrite Hr. case_decide as Hin.
    + destruct (Hc c Hin) as (j & Hj & ->). right. exists j, (length (hb_history h) + 1 - j)%nat. unfold window.
      rewrite drop_app_le by lia. rewrite take_ge by (rewrite length_app, length_drop; cbn; lia). by rewrite fmap_app.
    + rewrite app_nil_r. destruct (Hw c) as [?|(j & k & ->)]; [by left|]. right.
      destruct (window_snoc j k (hb_history h) msg) as [k' ->]. eauto.
  - intros c Hin. rewrite Hr, decide_True by done. destruct (Hc c Hin) as (j & Hj & ->). exists j. rewrite length_app. split; [lia|].
    rewrite drop_app_le by lia. by rewrite fmap_app.
Qed.

Lemma ok_join broken h h' : hub_ok h → hstep (HJoin broken) h = Some h' → hub_ok h'.
Proof.
  intros [Hnd Hk Hs Hw Hc]. cbn. destruct (hb_join h) as [|c rest] eqn:E; [done|]. intros [= <-].
  apply NoDup_cons in Hnd as [Hc0 Hnd]. rewrite decide_False by set_solver.
  assert (∀ d, (λ p, p.1.2) <$> filter (λ p : Client * list byte * bool, p.1.1 = d) (hb_sent h ++ [(c, welcome c, negb broken)])
    = tried d h ++ if decide (d = c) then [welcome c] else []) as Hr.
  { intros d. rewrite tried_app, filter_cons. cbn [fst]. by repeat case_decide; subst. }
  split; unfold tried; cbn [hb_join hb_clients hb_known hb_history hb_sent]; try setoid_rewrite Hr.
  - rewrite app_assoc. apply NoDup_app. split_and!; [done|set_solver|apply NoDup_singleton].
  - intros d Hd. apply Hk. set_solver.
  - intros d Hd. rewrite decide_False; [by rewrite app_nil_r; apply Hs; set_solver|]. intros ->. destruct Hd as [Hd|Hd]; [set_solver|].
    apply Hd, Hk. set_solver.
  - intros d. case_decide; [subst d|by rewrite app_nil_r; apply Hw]. right. exists 0%nat, 0%nat. rewrite Hs by set_solver. done.
  - intros d Hin. apply elem_of_app in Hin as [Hd|Hd]; [|apply list_elem_of_singleton in Hd; subst d].
    + rewrite decide_False by set_solver. rewrite app_nil_r. by apply Hc.
    + rewrite decide_True by done. exists (length (hb_history h)). split; [done|]. rewrite Hs by set_solver. by rewrite drop_all.
Qed.

Lemma hub_ok_step l h h' : hub_ok h → hstep l h = Some h' → hub_ok h'.
Proof.
  intros Hok. destruct l as [c|c m|c|broken|broken|]; [..|by apply ok_message|by apply ok_join|]; destruct Hok as [Hnd Hk Hs Hw Hc].
  - cbn. case_decide as Hd; [done|]. apply Decidable.not_or in Hd as [Hn _]. intros [= <-].
    split; cbn [hb_join hb_clients hb_known hb_history]; [|set_solver|..]; [|intros d Hd; apply (Hs d); set_solver|done|done].
    rewrite (Permutation_app_comm (hb_join h) [c]). cbn. apply NoDup_cons. split; [|done]. contradict Hn. by apply Hk.
  - cbn. case_decide; [done|]. by intros [= <-].
  - cbn. case_decide; [done|]. by intros [= <-].
  - cbn. destruct (hb_leave h) as [|c rest]; [done|]. intros [= <-]. case_decide; [|done].
    split; cbn [hb_join hb_clients hb_known hb_history]; [| |by apply Hs|by apply Hw|].
    + apply NoDup_app in Hnd as (? & Hd & ?). apply NoDup_app. split_and!; [done| |by apply NoDup_filter]. intros d Hj [_ ?]%list_elem_of_filter.
      by apply (Hd d).
    + intros d [?|[_ ?]%list_elem_of_filter]%elem_of_app; apply Hk, elem_of_app; auto.
    + intros d [_ ?]%list_elem_of_filter. by apply Hc.
Qed.

Lemma hrun_inv (P : Hub → Prop) ls h h' : (∀ l h h', P h → hstep l h = Some h' → P h') → P h → hrun ls h = Some h' → P h'.
Proof.
  intros Hstep. revert h. induction ls as [|l ls IH]; intros h Hh; [by intros [= <-]|]. cbn. intros (h1 & E1 & E2)%bind_Some. eauto.
Qed.

Lemma hub_ok_empty : hub_ok empty_hub.
Proof. split; try done; [constructor|by left|by intros c ?%elem_of_nil]. Qed.

(** Messages leave the channel in the order in which they were sent. *)
Lemma posted_step l h h' : hstep l h = Some h' →
  hb_history h' ++ hb_message h' = (hb_history h ++ hb_message h) ++ posted [l].
Proof.
  destruct l; cbn; intros H; repeat case_match; simplify_eq; cbn; by rewrite ?app_nil_r, <- ?app_assoc.
Qed.

Lemma posted_run ls h h' : hrun ls h = Some h' → hb_history h' ++ hb_message h' = (hb_history h ++ hb_message h) ++ posted ls.
Proof.
  revert h. induction ls as [|l ls IH]; intros h; cbn; [intros [= <-]; by rewrite app_nil_r|].
  intros (h1 & E1 & E2)%bind_Some. rewrite (IH _ E2), (posted_step _ _ _ E1), <- app_assoc. f_equal. unfold posted. cbn. by case_match.
Qed.

(** What was written is a part of what the broadcaster tried to write, in order. *)
Lemma received_tried c h : received c h `sublist_of` tried c h.
Proof. unfold received, tried. apply fmap_sublist, sublist_filter. Qed.

Lemma received_all c h : all_written c h → received c h = tried c h.
Proof.
  unfold all_written, received, tried. induction (hb_sent h) as [|[[d m] ok] l IH]; [done|]. intros [Hd Hl]%Forall_cons.
  rewrite filter_cons. case_decide as Hc; [|by apply IH]. rewrite filter_cons, decide_True by (by apply Hd).
  rewrite !fmap_cons. f_equal. by apply IH.
Qed.

(** C18. Whatever the interleaving of connections and of the broadcaster, and whatever calls
    of WriteMessage fail, messages are broadcast in the order in which they were sent to the
    channel, none is lost or repeated there, and what is written to a connection is, in that
    order, a part of its welcome and a consecutive piece of that one sequence - all of
    the piece when no write to the connection failed (a write that fails is skipped and not
    repeated).  For a client that is still connected the piece goes up to the last message,
    so that two clients are never written two messages in different orders.  Messages of
    all files are written to everyone, where the documentation of the backend speaks of
    the users of the file; it also allows for users who see different orders, which
    the server does not cause. *)
Theorem same_order ls h : hrun ls empty_hub = Some h →
  hb_history h ++ hb_message h = posted ls
  ∧ (∀ c, received c h `sublist_of` tried c h ∧ (all_written c h → received c h = tried c h))
  ∧ (∀ c, tried c h = [] ∨ ∃ j k, tried c h = welcome c :: window j k (hb_history h))
  ∧ (∀ c, c ∈ hb_clients h → ∃ j, (j ≤ length (hb_history h))%nat
      ∧ tried c h = welcome c :: (ms_Message <$> drop j (hb_history h))).
Proof.
  intros H. pose proof (hrun_inv hub_ok ls empty_hub h hub_ok_step hub_ok_empty H) as [_ _ _ Hw Hc].
  split; [apply (posted_run _ _ _ H)|]. split; [|done]. intros c. split; [apply received_tried|apply received_all].
Qed.
End order.

(** ** The requests on the table of files *)
Inductive FileRequestKind := KCreate | KDelete | KRecycle | KForever.

Definition op_of (k : FileRequestKind) (name : string) : FileOp :=
  match k with KCreate => FCreate name | KDelete => FDelete name | KRecycle => FRecycle name | KForever => FForever name end.

Section table.
Context {S : Type} {F : SheetFs S} {FL : SheetFsLaws S} {JS : GoJson} {LS : LogSort} {BS : Bson} {RJ : ReqJson}.
Abbreviation files st := (mg_files (g_mongo st)).

Definition serve_request (r : FileRequestKind * list byte) : GoM (GState S) Reply :=
  match r.1 with
  | KCreate => Create r.2
  | KDelete => Delete r.2
  | KRecycle => Recycle' r.2
  | KForever => DeleteForever' r.2
  end.

Fixpoint serve_requests (rs : list (FileRequestKind * list byte)) : GoM (GState S) (list Reply) :=
  match rs with
  | [] => mret []
  | r :: rs' => x ← serve_request r; xs ← serve_requests rs'; mret (x :: xs)
  end.

(** What a sequence of requests is answered and does to the table. *)
Inductive served : GState S → list (FileRequestKind * list byte) → list Reply → GState S → Prop :=
| served_nil st : served st [] [] st
| served_rejected st k body rs xs st' :
    (∀ name, junmarshal body = (name, None) → name = "") →
    served st rs xs st' → served st ((k, body) :: rs) (mkReply 400 BNone :: xs) st'
| served_done st k body name e st1 rs xs st' :
    junmarshal body = (name, None) → name ≠ "" →
    table_step (refused_by st) (next_answers st) (table (files st)) (op_of k name) e (table (files st1)) → answers_left st st1 →
    served st1 rs xs st' → served st ((k, body) :: rs) (mkReply 200 (BBool (bool_decide (e = None))) :: xs) st'.

Lemma serve_op k body : serve_request (k, body) = with_file_name body (λ n, e ← run_file_op (op_of k n); mret (succeeded e)).
Proof. by destruct k. Qed.

Lemma serve_one k body st n : answers st n → n < 2 ^ 64 - 3 → NoDup (Title <$> files st) →
  ∃ x st', serve_request (k, body) st = Some (x, st') ∧ answers st' (n + 2) ∧ NoDup (Title <$> files st')
    ∧ ∀ rs xs st2, served st' rs xs st2 → served st ((k, body) :: rs) (x :: xs) st2.
Proof.
  intros Ha Hn Hnd. rewrite serve_op. unfold with_file_name. destruct (junmarshal body) as [name [e|]] eqn:E.
  { exists bad_request, st. split_and!; [done| |done|]; [apply (answers_later st); [done|done|apply Ha]|].
    intros rs xs st2. apply served_rejected. intros name'. by rewrite E. }
  case_decide as Hname.
  { exists bad_request, st. split_and!; [done| |done|]; [apply (answers_later st); [done|done|apply Ha]|].
    intros rs xs st2. apply served_rejected. intros name'. rewrite E. by intros [= <-]. }
  destruct (file_op_refines (op_of k name) st n Ha Hn Hnd) as (e & st' & Er & Ha' & Hnd' & Hleft & Ht).
  exists (succeeded e), st'. unfold mbind, GoM_bind. rewrite Er. split_and!; [done..|]. intros rs xs st2.
  replace (succeeded e) with (mkReply 200 (BBool (bool_decide (e = None)))) by (by destruct e). by apply (served_done _ k body name e st').
Qed.

(** C35. Requests on files over HTTP: a request whose body is malformed or names no
    file is answered with 400 and changes nothing; every other one is answered
    with 200 and tells whether it succeeded.  The table of files is then a map
    from titles to the mark of the recycle bin: creating adds a title that is not there,
    deleting marks it, recycling removes the mark, deleting for ever removes the title.  A
    request fails for these reasons only: the title exists, the file system or the encoder
    refused the new file ([refused_by], the table is as before), or MongoDB answered one of its
    calls with an error - the table is then as before or as after a success, since the error
    does not tell whether the write was done, and a file can be gone while its log is not.
    Titles stay unique, and every sequence of requests is answered, whatever MongoDB answers.
    The requests are served one after the other, and the file system behaves as the map of
    [SheetFsLaws]. *)
Theorem http_file_requests rs st n : answers st n → n + 2 * Z.of_nat (length rs) < 2 ^ 64 - 3 → NoDup (Title <$> files st) →
  ∃ xs st', serve_requests rs st = Some (xs, st') ∧ NoDup (Title <$> files st') ∧ served st rs xs st'.
Proof.
  revert st n. induction rs as [|[k body] rs IH]; intros st n Ha Hn Hnd.
  { exists [], st. split_and!; [done|done|constructor]. }
  cbn [length] in Hn. destruct (serve_one k body st n Ha ltac:(lia) Hnd) as (x & st1 & E1 & Ha1 & Hnd1 & Hs).
  destruct (IH st1 (n + 2) Ha1 ltac:(lia) Hnd1) as (xs & st2 & E2 & Hnd2 & Ht). exists (x :: xs), st2.
  cbn [serve_requests]. unfold mbind, GoM_bind. rewrite E1, E2. split_and!; [done|done|by apply Hs].
Qed.
End table.

(** ** Instances *)
Definition demo_body_json : JsonT string := {|
  jmarshal s := Ok [letter s];
  junmarshal b := match b with [] => ("", Some "unexpected end of JSON input") | c :: _ => (unletter c, None) end |}.

#[export] Instance demo_req_json : ReqJson := {
  json_FileRequest := demo_body_json;
  json_RollbackRequest := only (mkRollbackRequest "a" 0);
  json_Sheets := only [];
  marshal_Response r := letter (rsp_UserName r) :: rsp_Data r
}.

#[export] Instance plain_wire : WireFormat := { ISO8859_1_Bytes := Ok; gzip_ReadAll := Ok; QueryUnescape := Ok }.
#[export] Instance plain_order : RangeOrder.
Proof. by refine {| range_order := λ A l, l |}. Defined.

Definition demo_requests : list (FileRequestKind * list byte) :=
  [(KCreate, [x62]); (KCreate, [x62]); (KDelete, []); (KDelete, [x62]); (KForever, [x61]); (KRecycle, [x00])].

Lemma http_file_requests_witness : ∃ xs st', serve_requests demo_requests demo_state = Some (xs, st')
  ∧ NoDup (Title <$> mg_files (g_mongo st')) ∧ served demo_state demo_requests xs st'
  ∧ xs = [mkReply 200 (BBool true); mkReply 200 (BBool false); bad_request; mkReply 200 (BBool true); mkReply 200 (BBool true); bad_request].
Proof.
  destruct (http_file_requests demo_requests demo_state 0) as (xs & st' & E & Hnd & Hs).
  - split; [by exists demo_fs, 0|apply empty_free|]. intros name b [= <-]. cbn. lia.
  - cbn. lia.
  - apply NoDup_singleton.
  - exists xs, st'. refine (conj E (conj Hnd (conj Hs _))).
    assert (fst <$> serve_requests demo_requests demo_state = Some [mkReply 200 (BBool true); mkReply 200 (BBool false); bad_request;
      mkReply 200 (BBool true); mkReply 200 (BBool true); bad_request]) as H by (vm_compute; reflexivity).
    rewrite E in H. by injection H as ->.
Defined.

(** A creation that MongoDB executes and reports as failed: the reply is false and the
    title is there. *)
Example create_applied : (λ r, (r.1, mg_files (g_mongo r.2))) <$>
    serve_requests [(KCreate, [x62])] (mkGState demo_fs (mkMongo [] [] [MOk; MApplied]) empty_tables)
  = Some ([mkReply 200 (BBool false)], [mkFileRecord "b" false]).
Proof. vm_compute. reflexivity. Qed.

(** A request on a websocket: newlines become spaces and the ends are trimmed. *)
Example demo_turn : (fst <$> Connect_turn "u" "a" 0 [x20; x7b; x0a; x7d; xc2; xa0; x0a] demo_state)
  = Some (Some (mkMessage x00 "u" [x75; x7b; x20; x7d])).
Proof. vm_compute. reflexivity. Qed.

Definition ann : Client := mkClient 1 "ann".
Definition bob : Client := mkClient 2 "bob".
Definition demo_msg (b : byte) : Message := mkMessage x00 "ann" [b].
Definition demo_hub_run : list HLabel :=
  [HConnect ann; HJoin false; HRequest ann (demo_msg x31); HMessage []; HConnect bob; HRequest ann (demo_msg x32); HJoin false; HMessage [];
   HRequest bob (demo_msg x33); HRequest ann (demo_msg x34); HMessage [ann]; HClose ann; HLeave].

Definition demo_hub : Hub := default empty_hub (hrun demo_hub_run empty_hub).

Lemma same_order_witness : hb_history demo_hub ++ hb_message demo_hub = posted demo_hub_run
  ∧ (∃ j, (j ≤ length (hb_history demo_hub))%nat ∧ received bob demo_hub = welcome bob :: (ms_Message <$> drop j (hb_history demo_hub)))
  ∧ received ann demo_hub `sublist_of` tried ann demo_hub ∧ received ann demo_hub ≠ tried ann demo_hub.
Proof.
  destruct (same_order demo_hub_run demo_hub) as (H1 & H2 & _ & H4); [vm_compute; reflexivity|]. split; [exact H1|]. split.
  - rewrite (proj2 (H2 bob)) by (unfold all_written; apply (bool_decide_unpack _); vm_compute; exact I).
    apply (H4 bob). apply (bool_decide_unpack _). vm_compute. exact I.
  - split; [apply H2|]. vm_compute. discriminate.
Defined.

(** select serves the channels in any order: a client whose leave is served before
    its join stays in the table for ever, and every later message is written to
    its closed connection. *)
Example ghost_client :
  (hb_clients <$> hrun [HConnect ann; HClose ann; HLeave; HJoin false] empty_hub) = Some [ann].
Proof. reflexivity. Qed.

(** Messages go to the clients of every file: the hub does not know the file of a
    connection. *)
Example other_files_served :
  (received bob <$> hrun [HConnect ann; HConnect bob; HJoin false; HJoin false; HRequest ann (demo_msg x31); HMessage []] empty_hub)
  = Some [welcome bob; [x31]].
Proof. reflexivity. Qed.
