(* ===== verification/RaftAgree.v ===== *)
(** RaftAgree: how the raft harness waits for agreement, and the raft server it is given.

    Source: lab4-mapreduce/src/raft/config.go (wait, one, begin, end) and
    raft/raft.go, which is an exercise: its functions are there without a body.

    Time passes and servers act between the harness' looks at the world: what it
    finds, look by look, is an argument.  The ten seconds of [one], the two
    seconds of each round and the thirty turns of [wait] are the lengths of
    these lists. *)
From Stdlib Require Import ZArith Lia Strings.Byte.
From stdpp Require Import gmap strings list.
From S2P Require Import Prelude.
From S2P Require Import LabRpc.
From S2P Require Import RaftConfig.
Open Scope Z_scope.

(** ** raft.go *)
Record Raft := mkRaft { rf_peers : list string; rf_persister : nat; rf_me : nat }.
Definition GetState (rf : Raft) : Z * bool := (0, false).
Definition Start (rf : Raft) (command : Z) : Z * Z * bool := (-1, -1, true).
Definition readPersist (data : list byte) (rf : Raft) : Raft := if decide (length data < 1)%nat then rf else rf.
Definition Make (peers : list string) (me persister : nat) (raftstate : list byte) : Raft := readPersist raftstate (mkRaft peers persister me).

(** ** Submitting *)
Inductive outcome := Returned (index : Z) | Fatal.

(** What the harness meets in one round of [one]: the configuration when it looks
    for the [si]th server, the answer of Start, and the configurations while it
    waits. *)
Record Round := mkRound { rd_view : nat → config; rd_start : nat → Z * bool; rd_polls : list config }.

(** [rf = cfg.rafts[starts]] if the server is connected *)
Definition live_raft (c : config) (i : nat) : option nat := if is_connected c i then mjoin (cf_rafts c !! i) else None.

Fixpoint submit (n : nat) (r : Round) (sis : list nat) (starts : nat) : Z * nat :=
  match sis with
  | [] => (-1, starts)
  | si :: sis =>
      let starts := ((starts + 1) mod n)%nat in
      match live_raft (rd_view r si) starts with
      | None => submit n r sis starts
      | Some _ => let '(index1, ok) := rd_start r starts in if ok : bool then (index1, starts) else submit n r sis starts
      end
  end.

(** The inner loop: [None] when its two seconds are over. *)
Fixpoint poll (cmd expected index : Z) (polls : list config) : option outcome :=
  match polls with
  | [] => None
  | c :: polls =>
      match nCommitted index c with
      | None => Some Fatal
      | Some (nd, cmd1) => if (0 <? nd) && (expected <=? nd) && (cmd1 =? cmd) then Some (Returned index) else poll cmd expected index polls
      end
  end.

(** do a complete agreement. *)
Fixpoint one (n : nat) (cmd expected : Z) (retry : bool) (rounds : list Round) (starts : nat) : outcome :=
  match rounds with
  | [] => Fatal
  | r :: rounds =>
      let '(index, starts) := submit n r (seq 0 n) starts in
      if index =? -1 then one n cmd expected retry rounds starts
      else match poll cmd expected index (rd_polls r) with
           | Some o => o
           | None => if retry then one n cmd expected retry rounds starts else Fatal
           end
  end.

(** ** Waiting *)

(** wait for at least n servers to commit.  A turn is the configuration that is
    found and the terms of the servers after the pause. *)
Fixpoint wait (index n startTerm : Z) (turns : list (config * list Z)) (last : config) : outcome :=
  let finish := match nCommitted index last with Some (nd, cmd) => if nd <? n then Fatal else Returned cmd | None => Fatal end in
  match turns with
  | [] => finish
  | (c, terms) :: turns =>
      match nCommitted index c with
      | None => Fatal
      | Some (nd, _) =>
          if n <=? nd then finish
          else if (-1 <? startTerm) && existsb (λ t, startTerm <? t) terms then Returned (-1)
          else wait index n startTerm turns last
      end
  end.

(** ** begin and end *)
Record Stats := mkStats { st_rpcs0 : Z; st_cmds0 : Z; st_maxIndex0 : Z }.
Definition begin (c : config) : Stats := mkStats (GetTotalCount (cf_net c)) 0 (cf_maxIndex c).

(** The numbers that are printed, if the test has not failed: peers, RPCs, agreements. *)
Definition end_ (failed : bool) (c : config) (st : Stats) : option (nat * Z * Z) :=
  if failed then None else Some (cf_n c, GetTotalCount (cf_net c) - st_rpcs0 st, cf_maxIndex c - st_maxIndex0 st).

(** ** What they find out *)

(** [k] servers have committed [cmd] at [index], and none anything else. *)
Definition decided (c : config) (index cmd : Z) (k : nat) : Prop :=
  length (filter (λ log, is_Some (log !! index)) (cf_logs c)) = k ∧ ∀ log v, log ∈ cf_logs c → log !! index = Some v → v = cmd.

Lemma blank_agreed n unreliable : agreed (blank_config n unreliable).
Proof.
  split; cbn.
  - intros i j li lj k v w [-> _]%lookup_replicate _. by rewrite lookup_empty.
  - intros i log k [-> _]%lookup_replicate. rewrite lookup_empty. by intros [? ?].
  - intros i log k [-> _]%lookup_replicate. rewrite lookup_empty. by intros [? ?].
Qed.

(** A configuration that the harness can meet. *)
Definition met (c : config) : Prop := ∃ n unreliable ls, crun ls (blank_config n unreliable) = Some c.

Lemma met_agreed c : met c → agreed c.
Proof. intros (n & u & ls & E). exact (for_each_inv agreed cstep ls _ c (λ l c c' _, cstep_agreed l c c') (blank_agreed n u) E). Qed.

Lemma nCommitted_decided c index : met c → ∃ k cmd, nCommitted index c = Some (Z.of_nat k, cmd) ∧ decided c index cmd k.
Proof.
  intros [H1 _ _]%met_agreed. destruct (count_committed_spec index (cf_logs c) 0 (-1)) as (cmd & Ec & Hcmd & _); [lia| |lia|].
  - intros l1 l2 v w (i & Hi)%list_elem_of_lookup (j & Hj)%list_elem_of_lookup. by apply (H1 i j).
  - exists (length (filter (λ log, is_Some (log !! index)) (cf_logs c))), cmd. split; [exact Ec|]. split; [done|]. intros log v Hl Hv. symmetry. by apply (Hcmd log).
Qed.

Lemma submit_accepted n r sis starts index starts' : submit n r sis starts = (index, starts') → index ≠ -1 →
  ∃ si i, is_Some (live_raft (rd_view r si) i) ∧ rd_start r i = (index, true).
Proof.
  revert starts. induction sis as [|si sis IH]; intros starts; cbn [submit]; [by intros [= <- <-]|].
  destruct (live_raft (rd_view r si) ((starts + 1) mod n)) as [rf|] eqn:El; [|apply IH].
  destruct (rd_start r ((starts + 1) mod n)) as [index1 [|]] eqn:Es; [|apply IH].
  intros [= <- <-] _. exists si, ((starts + 1) mod n)%nat. split; [by rewrite El|done].
Qed.

Lemma poll_found cmd expected index polls o : (∀ c, c ∈ polls → met c) → poll cmd expected index polls = Some o →
  o = Returned index ∧ ∃ c k, c ∈ polls ∧ decided c index cmd k ∧ (0 < k)%nat ∧ expected <= Z.of_nat k.
Proof.
  induction polls as [|c polls IH]; intros Hm; cbn [poll]; [done|]. destruct (nCommitted_decided c index) as (k & cmd1 & -> & Hd); [apply Hm; by left|].
  destruct ((0 <? Z.of_nat k) && (expected <=? Z.of_nat k) && (cmd1 =? cmd)) eqn:E.
  - intros [= <-]. apply andb_true_iff in E as [[E1 E2]%andb_true_iff E3]. apply Z.eqb_eq in E3 as ->. split; [done|]. exists c, k. split_and!; [by left|done|lia|lia].
  - intros Hp. destruct IH as (-> & c' & k' & ? & ?); [intros x Hx; apply Hm; by right|done|]. split; [done|]. exists c', k'. split; [by right|done].
Qed.

(** C29. When [one] returns an index, some connected server claimed to lead and took
    the command at that index; and at a moment while the harness waited for it,
    at least the expected number of servers, and one at least, had committed this
    very command there and no server had committed another. *)
Theorem one_agreement n cmd expected retry rounds starts index :
  (∀ r c, r ∈ rounds → c ∈ rd_polls r → met c) → one n cmd expected retry rounds starts = Returned index →
  ∃ r, r ∈ rounds ∧ (∃ si i, is_Some (live_raft (rd_view r si) i) ∧ rd_start r i = (index, true))
    ∧ ∃ c k, c ∈ rd_polls r ∧ decided c index cmd k ∧ (0 < k)%nat ∧ expected <= Z.of_nat k.
Proof.
  revert starts. induction rounds as [|r rounds IH]; intros starts Hm; cbn [one]; [done|].
  assert (∀ starts, one n cmd expected retry rounds starts = Returned index → ∃ r0, r0 ∈ r :: rounds
    ∧ (∃ si i, is_Some (live_raft (rd_view r0 si) i) ∧ rd_start r0 i = (index, true))
    ∧ ∃ c k, c ∈ rd_polls r0 ∧ decided c index cmd k ∧ (0 < k)%nat ∧ expected <= Z.of_nat k) as Hlater.
  { intros st Hr. destruct (IH st) as (r0 & Hin & H); [intros r1 c H1; apply Hm; by right|done|]. exists r0. split; [by right|done]. }
  destruct (submit n r (seq 0 n) starts) as [idx starts'] eqn:Es. destruct (Z.eqb_spec idx (-1)) as [->|Hne]; [apply Hlater|].
  destruct (poll cmd expected idx (rd_polls r)) as [o|] eqn:Ep.
  - intros ->. apply poll_found in Ep as ([= <-] & Hd); [|intros c Hc; by apply (Hm r c); [left|]].
    exists r. split; [by left|]. split; [by eapply submit_accepted|done].
  - destruct retry; [apply Hlater|done].
Qed.

(** [wait] returns the one command that at least [n] servers have committed at
    the index, and none another; -1 only if a server's term is past the one it
    was given.  Otherwise the test fails. *)
Theorem wait_returns index n startTerm turns last v : (∀ c ts, (c, ts) ∈ turns → met c) → met last →
  wait index n startTerm turns last = Returned v →
  (∃ k, decided last index v k ∧ n <= Z.of_nat k) ∨ (v = -1 ∧ -1 < startTerm ∧ ∃ c ts t, (c, ts) ∈ turns ∧ t ∈ ts ∧ startTerm < t).
Proof.
  intros Hm Hl. destruct (nCommitted_decided last index Hl) as (k0 & cmd0 & E0 & Hd0).
  assert ((match nCommitted index last with Some (nd, cmd) => if nd <? n then Fatal else Returned cmd | None => Fatal end) = Returned v →
    ∃ k, decided last index v k ∧ n <= Z.of_nat k) as Hfin.
  { rewrite E0. destruct (Z.ltb_spec (Z.of_nat k0) n); [done|]. intros [= <-]. by exists k0. }
  induction turns as [|[c ts] turns IH]; cbn [wait]; [intros H; left; by apply Hfin|].
  destruct (nCommitted_decided c index) as (k & cmd & -> & _); [by eapply Hm; left|].
  destruct (Z.leb_spec n (Z.of_nat k)); [intros H1; left; by apply Hfin|].
  destruct ((-1 <? startTerm) && existsb (λ t, startTerm <? t) ts) eqn:Et.
  - intros [= <-]. right. apply andb_true_iff in Et as [E1 (t & Ht & E2)%existsb_exists]. split_and!; [done|lia|]. exists c, ts, t.
    split_and!; [by left|by apply list_elem_of_In|lia].
  - intros Hw. destruct IH as [?|(? & ? & c' & ts' & t & Hc & ?)]; [intros c' ts' Hc; by eapply Hm; right|done|by left|].
    right. split_and!; [done|done|]. exists c', ts', t. split; [by right|done].
Qed.

(** ** Examples *)
Lemma met_pair : met (conf_after some_commits pair).
Proof. exists 2%nat, false, (pair_up ++ some_commits). vm_compute. reflexivity. Qed.

(** The second server leads; the first poll is too early for two servers. *)
Definition agreeing : Round := mkRound (λ _, pair) (λ i, if decide (i = 1%nat) then (1, true) else (-1, false)) [pair; committed].
Lemma met_pair0 : met pair.
Proof. exists 2%nat, false, pair_up. vm_compute. reflexivity. Qed.

Lemma one_agreement_witness : one 2 100 2 true [agreeing] 0 = Returned 1 ∧ ∃ c k, c ∈ rd_polls agreeing ∧ decided c 1 100 k ∧ (0 < k)%nat ∧ 2 <= Z.of_nat k.
Proof.
  assert (one 2 100 2 true [agreeing] 0 = Returned 1) as E by (vm_compute; reflexivity). split; [exact E|].
  destruct (one_agreement 2 100 2 true [agreeing] 0 1) as (r & Hr & _ & Hd); [|exact E|].
  - intros r c ->%list_elem_of_singleton [->|[->|[]%not_elem_of_nil]%elem_of_cons]%elem_of_cons; [apply met_pair0|apply met_pair].
  - apply list_elem_of_singleton in Hr as ->. exact Hd.
Defined.

Lemma wait_returns_witness : wait 1 2 (-1) [(pair, [])] committed = Returned 100 ∧ ∃ k, decided committed 1 100 k ∧ 2 <= Z.of_nat k.
Proof.
  assert (wait 1 2 (-1) [(pair, [])] committed = Returned 100) as E by (vm_compute; reflexivity). split; [exact E|].
  destruct (wait_returns 1 2 (-1) [(pair, [])] committed 100) as [Hd|(? & ? & _)]; [|apply met_pair|exact E|exact Hd|done].
  intros c ts Hc%list_elem_of_singleton. assert (c = pair) as -> by exact (f_equal fst Hc). apply met_pair0.
Defined.

(** With the server as it is, every [one] fails: Start accepts at index -1. *)
Definition exercise (r : Round) : Prop := ∀ i, rd_start r i = (let '(index, _, ok) := Start (mkRaft [] 0 i) 0 in (index, ok)).
Lemma exercise_fails n cmd expected retry rounds starts : Forall exercise rounds → one n cmd expected retry rounds starts = Fatal.
Proof.
  intros Hx. revert starts. induction Hx as [|r rounds Hr _ IH]; intros starts; cbn [one]; [done|].
  assert (∀ sis st, (submit n r sis st).1 = -1) as Hs.
  { induction sis as [|si sis IHs]; intros st; cbn [submit]; [done|]. destruct (live_raft _ _); [|apply IHs]. rewrite Hr. done. }
  specialize (Hs (seq 0 n) starts). destruct (submit n r (seq 0 n) starts) as [idx st]. cbn in Hs. subst idx. apply IH.
Qed.
