(* ===== verification/LabGob.v ===== *)
(** LabGob: the wrapper around encoding/gob that warns about types and variables
    that gob would silently lose.

    Source: labgob/labgob.go.  [checkType] walks over the types that a value can
    contain, [checkDefault1] over the value itself; both print warnings and
    count them in the package's variable [errorCount].

    Types refer to each other (a list type contains a pointer to itself), so a
    program's types are a finite graph: a [Types] maps an identity of
    reflect.Type to what reflect tells about it.  encoding/gob itself and the
    Unicode tables are parameters. *)
From Stdlib Require Import ZArith Lia Strings.Byte Floats.SpecFloat.
From stdpp Require Import gmap strings list relations.
From S2P Require Import Prelude.
From S2P Require Import GoStd.
Open Scope Z_scope.

(** ** unicode/utf8 and unicode *)
Definition in_range (lo hi : Z) (b : Z) : bool := (lo <=? b) && (b <=? hi).
Definition DecodeRuneInString (s : string) : Z := (decode_rune (String.list_ascii_of_string s)).1.

(** The table of upper-case letters, with what it says of ASCII. *)
Class Unicode : Type := {
  IsUpper : Z → bool;
  IsUpper_ascii : ∀ r, 0 <= r < 128 → IsUpper r = in_range 65 90 r
}.

(** ** Types, as reflect describes them *)
Abbreviation TypeId := nat.

Record StructField := mkStructField { sf_Name : string; sf_Type : TypeId }.

Inductive RType :=
| TStruct (name : string) (fields : list StructField)
| TSlice (elem : TypeId)
| TArray (elem : TypeId)
| TPtr (elem : TypeId)
| TMap (key elem : TypeId)
| TOther (name : string).

Abbreviation Types := (gmap TypeId RType).

(** A type that is not in the table has no components. *)
Definition type_of (G : Types) (t : TypeId) : RType := default (TOther "") (G !! t).

(** ** The variables of the package, and what it prints *)
Inductive Message :=
| LowerCase (field type : string)
| NonDefault (what : string).

Record GobState := mkGobState { gs_errorCount : Z; gs_checked : option (gset TypeId); gs_out : list Message }.
Definition init_gob : GobState := mkGobState 0 None [].

Definition print (m : Message) (st : GobState) : GobState := mkGobState (gs_errorCount st) (gs_checked st) (gs_out st ++ [m]).
Definition count_error (st : GobState) : GobState := mkGobState (i64 (gs_errorCount st + 1)) (gs_checked st) (gs_out st).

Section gob.
Context `{Unicode} (G : Types).

(** The first critical section of [checkType]: whether the type was checked. *)
Definition mark (t : TypeId) (st : GobState) : bool * GobState :=
  let checked := default ∅ (gs_checked st) in
  if decide (t ∈ checked) then (true, mkGobState (gs_errorCount st) (Some checked) (gs_out st))
  else (false, mkGobState (gs_errorCount st) (Some ({[t]} ∪ checked)) (gs_out st)).

(** A field that gob leaves out. *)
Definition lower (f : StructField) : bool := negb (IsUpper (DecodeRuneInString (sf_Name f))).

Definition complain (name : string) (f : StructField) (st : GobState) : GobState :=
  if lower f then count_error (print (LowerCase (sf_Name f) name) st) else st.

(** [fuel] bounds the depth of the recursion; [None] is out of fuel. *)
Fixpoint check_type (fuel : nat) (t : TypeId) : GoM GobState () := λ st,
  match fuel with
  | O => None
  | S fuel =>
      let '(seen, st) := mark t st in
      if (seen : bool) then Some ((), st)
      else match type_of G t with
           | TStruct name fields =>
               go_for fields (λ f, go_modify (complain name f);; check_type fuel (sf_Type f)) st
           | TSlice elem | TArray elem | TPtr elem => check_type fuel elem st
           | TMap key elem => (check_type fuel elem;; check_type fuel key) st
           | TOther _ => Some ((), st)
           end
  end.
Definition checkType : TypeId → GoM GobState () := check_type (S (size G)).

(** reflect.TypeOf(nil) is nil, and a call of its method panics. *)
Definition checkValue (t : option TypeId) : GoM GobState () := t ← go_deref t; checkType t.

(** ** Values *)
Inductive Basic :=
| VBool (b : bool)
| VInt (z : Z)
| VFloat (f : spec_float)
| VString (s : string).

(** reflect.DeepEqual of the zero value: floats are compared with ==. *)
Definition is_zero (v : Basic) : bool :=
  match v with
  | VBool b => negb b
  | VInt z => z =? 0
  | VFloat (S754_zero _) => true
  | VFloat _ => false
  | VString s => bool_decide (s = "")
  end.

(** A value with the names of its struct fields and whether they are embedded;
    [VOther] is a slice, an array, a map, an interface, a channel or a function,
    into which nobody looks. *)
Inductive GoValue :=
| VStruct (fields : list (string * bool * GoValue))
| VPtr (p : option GoValue)
| VBasic (type : string) (v : Basic)
| VOther.

(** The read-only flags of a reflect.Value that was reached through a field that
    is not exported: one that is inherited and one, of an embedded field, that
    is not. *)
Record RO := mkRO { ro_sticky : bool; ro_embed : bool }.
Definition field_ro (name : string) (embedded : bool) (ro : RO) : RO :=
  if IsUpper (DecodeRuneInString name) then mkRO (ro_sticky ro) false
  else if embedded then mkRO (ro_sticky ro) true else mkRO true false.

(** value.Interface() panics on a value with one of the flags. *)
Definition Interface_ok (ro : RO) : bool := negb (ro_sticky ro || ro_embed ro).

Definition path (name field : string) : string := if decide (name = "") then field else name +:+ "." +:+ field.

(** What is printed for a basic value. *)
Definition what (type name : string) : string := if decide (name = "") then type else name.
Definition warn (type name : string) (st : GobState) : GobState :=
  count_error (if gs_errorCount st <? 1 then print (NonDefault (what type name)) st else st).

Definition check_basic (ro : RO) (type : string) (v : Basic) (name : string) : GoM GobState () :=
  if Interface_ok ro then go_modify (if is_zero v then id else warn type name) else go_panic.

Fixpoint checkDefault1 (value : GoValue) (ro : RO) (depth : Z) (name : string) {struct value} : GoM GobState () :=
  if 3 <? depth then mret ()
  else match value with
       | VStruct fields =>
           (fix loop (fields : list (string * bool * GoValue)) : GoM GobState () :=
              match fields with
              | [] => mret ()
              | (f, embedded, vv) :: fields =>
                  checkDefault1 vv (field_ro f embedded ro) (depth + 1) (path name f);; loop fields
              end) fields
       | VPtr None => mret ()
       | VPtr (Some v) => checkDefault1 v ro (depth + 1) name
       | VBasic type v => check_basic ro type v name
       | VOther => mret ()
       end.

Definition checkDefault (value : option GoValue) : GoM GobState () :=
  match value with None => mret () | Some v => checkDefault1 v (mkRO false false) 1 "" end.
End gob.

(** ** Encoders and decoders *)

(** encoding/gob: a stream of bytes to which values are appended, and from which
    they are taken; a decoder stores through the pointer it is given. *)
Class Gob (W V E : Type) : Type := {
  gob_encode : V → W → option E * W;
  gob_decode : V → W → option E * V * W;
  gob_register : option string → V → GoM W ()
}.

(** A value that is passed as an interface: its type, none for nil, and what it is. *)
Class Reflect (V : Type) : Type := { TypeOf : V → option TypeId; ValueOf : V → option GoValue }.

Section wrapper.
Context `{Unicode} (G : Types) {W V E : Type} `{Gob W V E} `{Reflect V}.

Record LabEncoder := mkLabEncoder { enc_gob : W }.
Record LabDecoder := mkLabDecoder { dec_gob : W }.
Definition NewEncoder (w : W) : LabEncoder := mkLabEncoder w.
Definition NewDecoder (r : W) : LabDecoder := mkLabDecoder r.

Definition Encode (e : V) (enc : LabEncoder) : GoM GobState (option E * LabEncoder) :=
  checkValue G (TypeOf e);;
  let '(err, w) := gob_encode e (enc_gob enc) in mret (err, mkLabEncoder w).

(** [value] is a reflect.Value; its Interface() is the value itself. *)
Definition EncodeValue (value : V) (enc : LabEncoder) : GoM GobState (option E * LabEncoder) :=
  checkValue G (TypeOf value);;
  let '(err, w) := gob_encode value (enc_gob enc) in mret (err, mkLabEncoder w).

Definition Decode (e : V) (dec : LabDecoder) : GoM GobState (option E * V * LabDecoder) :=
  checkValue G (TypeOf e);;
  checkDefault (ValueOf e);;
  let '(err, v, w) := gob_decode e (dec_gob dec) in mret (err, v, mkLabDecoder w).

(** gob's registry [w] is one more variable; gob.Register may panic. *)
Definition Register (value : V) (w : W) : GoM GobState W :=
  checkValue G (TypeOf value);;
  go_deref (snd <$> gob_register None value w).
Definition RegisterName (name : string) (value : V) (w : W) : GoM GobState W :=
  checkValue G (TypeOf value);;
  go_deref (snd <$> gob_register (Some name) value w).
End wrapper.

(** ** What checkType does *)
Section types.
Context `{Unicode} (G : Types).
Implicit Types (t u : TypeId) (st : GobState) (V : gset TypeId).

Definition field_types (fs : list StructField) : list TypeId := sf_Type <$> fs.

(** The types a type is made of. *)
Definition components t : list TypeId :=
  match type_of G t with
  | TStruct _ fields => field_types fields
  | TSlice e | TArray e | TPtr e => [e]
  | TMap k e => [e; k]
  | TOther _ => []
  end.
Definition component t u : Prop := u ∈ components t.

(** The warnings a type deserves. *)
Definition lower_fields (name : string) (fs : list StructField) : list Message :=
  (λ f, LowerCase (sf_Name f) name) <$> filter (λ f, lower f = true) fs.
Definition warnings t : list Message :=
  match type_of G t with TStruct name fields => lower_fields name fields | _ => [] end.

Definition checked_set st : gset TypeId := default ∅ (gs_checked st).

(** [n] more errors. *)
Definition add_errors (n : nat) (c : Z) : Z := Nat.iter n (λ c, i64 (c + 1)) c.

(** From [st] to [st'] the types [new] were checked, all of them reachable from
    [roots]; their own components were checked too.  The messages printed are
    [own] and the warnings of [new], in some order. *)
Record visited (roots new : list TypeId) (own : list Message) st st' : Prop := {
  vs_set : ∀ u, u ∈ checked_set st' ↔ u ∈ new ∨ u ∈ checked_set st;
  vs_nodup : NoDup new;
  vs_new : ∀ u, u ∈ new → u ∉ checked_set st;
  vs_roots : ∀ u, u ∈ roots → u ∈ checked_set st';
  vs_closed : ∀ u v, u ∈ new → component u v → v ∈ checked_set st';
  vs_reach : ∀ u, u ∈ new → ∃ r, r ∈ roots ∧ rtc component r u;
  vs_out : ∃ ms, gs_out st' = gs_out st ++ ms ∧ gs_errorCount st' = add_errors (length ms) (gs_errorCount st)
    ∧ ms ≡ₚ own ++ concat (warnings <$> new)
}.

Lemma visited_refl roots st st' : (∀ u, u ∈ roots → u ∈ checked_set st) → checked_set st' = checked_set st →
  gs_out st' = gs_out st → gs_errorCount st' = gs_errorCount st → visited roots [] [] st st'.
Proof.
  intros Hr Hc Ho He. split; try by intros ? ?%elem_of_nil.
  - intros u. rewrite Hc. split; [by right|by intros [?%elem_of_nil|?]].
  - constructor.
  - intros u. rewrite Hc. apply Hr.
  - by intros ?? ?%elem_of_nil.
  - exists []. by rewrite app_nil_r, Ho, He.
Qed.

Lemma visited_app roots1 roots2 new1 new2 own1 own2 st1 st2 st3 :
  visited roots1 new1 own1 st1 st2 → visited roots2 new2 own2 st2 st3 →
  visited (roots1 ++ roots2) (new1 ++ new2) (own1 ++ own2) st1 st3.
Proof.
  intros [S1 D1 N1 R1 C1 P1 (m1 & O1 & E1 & M1)] [S2 D2 N2 R2 C2 P2 (m2 & O2 & E2 & M2)]. split.
  - intros u. rewrite S2, S1, elem_of_app. tauto.
  - apply NoDup_app. split_and!; [done| |done]. intros u Hu Hu2. apply (N2 u Hu2), S1. by left.
  - intros u [Hu|Hu]%elem_of_app; [by apply N1|]. intros Hs. apply (N2 u Hu), S1. by right.
  - intros u [Hu|Hu]%elem_of_app; [|by apply R2]. apply S2. right. by apply R1.
  - intros u v [Hu|Hu]%elem_of_app Hv; [|by eapply C2]. apply S2. right. by eapply C1.
  - intros u [Hu|Hu]%elem_of_app; [destruct (P1 u Hu) as (r & Hr & ?)|destruct (P2 u Hu) as (r & Hr & ?)];
      exists r; (split; [|done]); apply elem_of_app; [by left|by right].
  - exists (m1 ++ m2). split_and!.
    + by rewrite O2, O1, app_assoc.
    + rewrite E2, E1, length_app, Nat.add_comm. unfold add_errors. by rewrite Nat.iter_add.
    + rewrite M1, M2, fmap_app, concat_app. rewrite <- !app_assoc. apply Permutation_app_head.
      rewrite !app_assoc. apply Permutation_app_tail, Permutation_app_comm.
Qed.

(** A field that is complained about. *)
Lemma complain_visits name f st : visited [] [] (lower_fields name [f]) st (complain name f st).
Proof.
  unfold complain, lower_fields. rewrite filter_cons. destruct (lower f) eqn:E.
  - rewrite decide_True by done. split; try by intros ? ?%elem_of_nil.
    + intros u. split; [by right|by intros [?%elem_of_nil|?]].
    + constructor.
    + by intros ?? ?%elem_of_nil.
    + by exists [LowerCase (sf_Name f) name].
  - rewrite decide_False by done. by apply visited_refl; [intros ? ?%elem_of_nil|..].
Qed.

(** A type that is checked for the first time. *)
Lemma mark_spec t st st1 : mark t st = (false, st1) → (t ∉ checked_set st) ∧ checked_set st1 = {[t]} ∪ checked_set st
  ∧ gs_out st1 = gs_out st ∧ gs_errorCount st1 = gs_errorCount st.
Proof. unfold mark. fold (checked_set st). case_decide; [done|]. by intros [= <-]. Qed.

Lemma root_visits t new st st1 st' : mark t st = (false, st1) → visited (components t) new (warnings t) st1 st' →
  visited [t] (t :: new) [] st st'.
Proof.
  intros E [S1 D1 N1 R1 C1 P1 (ms & O1 & E1 & M1)]. destruct (mark_spec t st st1 E) as (Ht & Hc & Ho & He).
  rewrite Hc in *. rewrite Ho in *. rewrite He in *. split.
  - intros u. rewrite S1, elem_of_union, elem_of_singleton, elem_of_cons. tauto.
  - apply NoDup_cons. split; [|done]. intros Hn. apply (N1 t Hn), elem_of_union_l, elem_of_singleton. done.
  - intros u [->|Hu]%elem_of_cons; [done|]. intros Hs. apply (N1 u Hu), elem_of_union_r, Hs.
  - intros u ->%list_elem_of_singleton. apply S1. right. by apply elem_of_union_l, elem_of_singleton.
  - intros u v [->|Hu]%elem_of_cons Hv; [by apply R1|by eapply C1].
  - intros u [->|Hu]%elem_of_cons; [by exists t; split; [left|]|]. destruct (P1 u Hu) as (r & Hr & Hp). exists t. split; [by left|].
    by eapply rtc_l.
  - exists ms. split_and!; [done|done|]. cbn. by rewrite M1.
Qed.

(** The types that are left to check. *)
Definition left_over st : nat := size (dom G ∖ checked_set st).

Lemma left_over_mono roots new own st st' : visited roots new own st st' → (left_over st' ≤ left_over st)%nat.
Proof.
  intros Hv. unfold left_over. apply subseteq_size. intros u. rewrite !elem_of_difference. intros [Hu Hn]. split; [done|].
  intros Hs. apply Hn, (vs_set _ _ _ _ _ Hv). by right.
Qed.

Lemma left_over_mark t st st1 : t ∈ dom G → mark t st = (false, st1) → (left_over st1 < left_over st)%nat.
Proof.
  intros Ht (Hn & Hc & _)%mark_spec. unfold left_over. apply subset_size. rewrite Hc. split.
  - intros u. rewrite !elem_of_difference, elem_of_union. tauto.
  - intros Hs. assert (t ∈ dom G ∖ checked_set st) as Hin by (by apply elem_of_difference). apply Hs in Hin.
    apply elem_of_difference in Hin as [_ Hin]. apply Hin, elem_of_union_l, elem_of_singleton. done.
Qed.

(** What the recursion does for one type; the induction hypothesis of the loop. *)
Definition visits (fuel : nat) : Prop := ∀ t st, (left_over st < fuel)%nat →
  ∃ new st', check_type G fuel t st = Some ((), st') ∧ visited [t] new [] st st'.

Lemma fields_visit fuel name fs st : visits fuel → (left_over st < fuel)%nat →
  ∃ new st', go_for fs (λ f, go_modify (complain name f);; check_type G fuel (sf_Type f)) st = Some ((), st')
    ∧ visited (field_types fs) new (lower_fields name fs) st st'.
Proof.
  intros IH. revert st. induction fs as [|f fs IHfs]; intros st Hf.
  - exists [], st. split; [done|]. by apply visited_refl; [intros ? ?%elem_of_nil|..].
  - pose proof (complain_visits name f st) as H1.
    destruct (IH (sf_Type f) (complain name f st)) as (n2 & st2 & E2 & H2); [pose proof (left_over_mono _ _ _ _ _ H1); lia|].
    pose proof (visited_app _ _ _ _ _ _ _ _ _ H1 H2) as H12.
    destruct (IHfs st2) as (n3 & st3 & E3 & H3); [pose proof (left_over_mono _ _ _ _ _ H12); lia|].
    exists (n2 ++ n3), st3. split.
    + cbn [go_for]. unfold mbind, GoM_bind, go_modify. rewrite E2. exact E3.
    + pose proof (visited_app _ _ _ _ _ _ _ _ _ H12 H3) as Hv. cbn [app] in Hv. rewrite app_nil_r in Hv.
      change (field_types (f :: fs)) with (sf_Type f :: field_types fs).
      replace (lower_fields name (f :: fs)) with (lower_fields name [f] ++ lower_fields name fs); [exact Hv|].
      unfold lower_fields. rewrite <- fmap_app, <- filter_app. done.
Qed.

Lemma check_type_visits fuel : visits fuel.
Proof.
  induction fuel as [|fuel IH]; intros t st Hf; [lia|]. cbn [check_type]. destruct (mark t st) as [[|] st1] eqn:Em.
  - exists [], st1. split; [done|]. unfold mark in Em. case_decide as Hc; [|done]. injection Em as <-.
    apply visited_refl; [by intros u ->%list_elem_of_singleton|done..].
  - assert (∀ cs : list TypeId, components t = cs → cs ≠ [] → (left_over st1 < fuel)%nat) as Hlt.
    { intros cs Hcs Hne. pose proof (left_over_mark t st st1) as Hm. destruct (decide (t ∈ dom G)) as [Hd|Hd].
      - specialize (Hm Hd Em). lia.
      - apply not_elem_of_dom in Hd. unfold components, type_of in Hcs. by rewrite Hd in Hcs. }
    pose proof (root_visits t) as Hroot. unfold components, warnings in *. destruct (type_of G t) as [name fs|e|e|e|k e|name].
    1:{ destruct (decide (fs = [])) as [->|Hne].
        - exists [t], st1. split; [done|]. eapply Hroot; [done|]. by apply visited_refl; [intros ? ?%elem_of_nil|..].
        - destruct (fields_visit fuel name fs st1 IH) as (new & st' & E & Hv); [apply (Hlt _ eq_refl); by destruct fs|].
          eauto. }
    all: try (destruct (IH e st1 (Hlt _ eq_refl ltac:(done))) as (n1 & st2 & E1 & H1)).
    1-3: eauto.
    + destruct (IH k st2) as (n2 & st3 & E2 & H2); [pose proof (left_over_mono _ _ _ _ _ H1); pose proof (Hlt _ eq_refl ltac:(done)); lia|].
      exists (t :: n1 ++ n2), st3. split; [unfold mbind, GoM_bind; by rewrite E1|]. eapply Hroot; [done|].
      exact (visited_app _ _ _ _ _ _ _ _ _ H1 H2).
    + exists [t], st1. split; [done|]. eapply Hroot; [done|]. by apply visited_refl; [intros ? ?%elem_of_nil|..].
Qed.

Lemma checkType_visits t st : ∃ new st', checkType G t st = Some ((), st') ∧ visited [t] new [] st st'.
Proof.
  apply check_type_visits. unfold left_over. apply le_n_S. rewrite <- size_dom. apply subseteq_size. set_solver.
Qed.

Lemma types_visit ts st : ∃ new st', go_for ts (checkType G) st = Some ((), st') ∧ visited ts new [] st st'.
Proof.
  revert st. induction ts as [|t ts IH]; intros st.
  - exists [], st. split; [done|]. by apply visited_refl; [intros ? ?%elem_of_nil|..].
  - destruct (checkType_visits t st) as (n1 & st1 & E1 & H1). destruct (IH st1) as (n2 & st2 & E2 & H2).
    exists (n1 ++ n2), st2. split; [cbn [go_for]; unfold mbind, GoM_bind; by rewrite E1|]. exact (visited_app _ _ _ _ _ _ _ _ _ H1 H2).
Qed.

Lemma add_errors_i64 n c : is_i64 c → add_errors n c = i64 (c + Z.of_nat n).
Proof.
  intros Hc. induction n as [|n IH].
  - rewrite Z.add_0_r, i64_small by done. done.
  - change (add_errors (S n) c) with (i64 (add_errors n c + 1)). rewrite IH. unfold i64.
    replace ((c + Z.of_nat n + 2 ^ 63) mod 2 ^ 64 - 2 ^ 63 + 1 + 2 ^ 63) with ((c + Z.of_nat n + 2 ^ 63) mod 2 ^ 64 + 1) by lia.
    rewrite Zplus_mod_idemp_l. f_equal. f_equal. lia.
Qed.

(** C24. Checking the types of any values, in any order, ends; it prints the warnings
    of the types that can be reached from them, those of each type once, whether
    types refer to themselves or occur many times; and errorCount counts them. *)
Theorem check_types_once ts :
  ∃ st' all, go_for ts (checkType G) init_gob = Some ((), st') ∧ NoDup all
    ∧ (∀ u, u ∈ all ↔ ∃ t, t ∈ ts ∧ rtc component t u)
    ∧ gs_out st' ≡ₚ concat (warnings <$> all)
    ∧ gs_errorCount st' = i64 (Z.of_nat (length (gs_out st'))).
Proof.
  destruct (types_visit ts init_gob) as (new & st' & E & [S1 D1 _ R1 C1 P1 (ms & O1 & E1 & M1)]). cbn in O1, E1, M1. subst ms.
  assert (∀ u, u ∈ checked_set st' ↔ u ∈ new) as Hset by (intros u; rewrite S1; split; [by intros [?|?%not_elem_of_empty]|by left]).
  exists st', new. split_and!; try done.
  - intros u. split; [apply P1|]. intros (t & Ht & Hr). apply Hset. apply R1 in Ht. induction Hr as [|x y z Hxy _ IH]; [done|].
    apply IH, (C1 x); [by apply Hset|done].
  - rewrite E1. by apply add_errors_i64.
Qed.
End types.

(** ** What checkDefault does *)
Section defaults.
Context `{Unicode}.
Implicit Types (v : GoValue) (ro : RO) (st : GobState).

Lemma GoValue_ind' (P : GoValue → Prop) :
  (∀ fs, Forall (λ f, P f.2) fs → P (VStruct fs)) → P (VPtr None) → (∀ v, P v → P (VPtr (Some v))) →
  (∀ t b, P (VBasic t b)) → P VOther → ∀ v, P v.
Proof.
  intros H1 H2 H3 H4 H5. fix IH 1. intros [fs|[v|]|t b|]; [|by apply H3| |by apply H4|done]; [|done].
  apply H1. induction fs as [|[f v] fs IHfs]; constructor; [apply IH|exact IHfs].
Qed.

(** A basic value inside a value: how deep it lies, whether it may be looked at,
    the name of its type and of the variable. *)
Record Leaf := mkLeaf { lf_depth : Z; lf_ro : RO; lf_type : string; lf_name : string; lf_value : Basic }.

Fixpoint leaves v ro (depth : Z) (name : string) {struct v} : list Leaf :=
  match v with
  | VStruct fields =>
      (fix loop (fields : list (string * bool * GoValue)) : list Leaf :=
         match fields with
         | [] => []
         | (f, embedded, vv) :: fields => leaves vv (field_ro f embedded ro) (depth + 1) (path name f) ++ loop fields
         end) fields
  | VPtr None | VOther => []
  | VPtr (Some v) => leaves v ro (depth + 1) name
  | VBasic type b => [mkLeaf depth ro type name b]
  end.

(** The ones that are looked at. *)
Definition shallow (ls : list Leaf) : list Leaf := filter (λ l, lf_depth l <= 3) ls.
Definition check_leaf (l : Leaf) : GoM GobState () := check_basic (lf_ro l) (lf_type l) (lf_value l) (lf_name l).

Lemma leaves_deep v ro depth name : Forall (λ l, depth <= lf_depth l) (leaves v ro depth name).
Proof.
  revert ro depth name. induction v as [fs IH| |v IH|t b|] using GoValue_ind'; intros ro depth name; cbn [leaves].
  - induction IH as [|[[f e] vv] fs Hf _ IHfs]; [constructor|]. apply Forall_app. split; [|exact IHfs].
    eapply Forall_impl; [apply Hf|]. cbn. lia.
  - constructor.
  - eapply Forall_impl; [apply IH|]. cbn. lia.
  - repeat constructor. cbn. lia.
  - constructor.
Qed.

Lemma shallow_none v ro depth name : 3 < depth → shallow (leaves v ro depth name) = [].
Proof.
  intros Hd. unfold shallow. pose proof (leaves_deep v ro depth name) as Hl. induction Hl as [|l ls Hl _ IH]; [done|].
  rewrite filter_cons, decide_False by lia. exact IH.
Qed.

Lemma go_for_app {S A} (l1 l2 : list A) (f : A → GoM S ()) (s : S) : go_for (l1 ++ l2) f s = (go_for l1 f;; go_for l2 f) s.
Proof.
  revert s. induction l1 as [|x l1 IH]; intros s; [done|]. cbn [go_for app]. unfold mbind, GoM_bind in *. destruct (f x s) as [[[] s1]|]; [|done].
  rewrite IH. done.
Qed.

(** The walk that stops below depth 3 sees the leaves up to depth 3. *)
Lemma checkDefault1_leaves v ro depth name st :
  checkDefault1 v ro depth name st = go_for (shallow (leaves v ro depth name)) check_leaf st.
Proof.
  revert ro depth name st. induction v as [fs IH| |v IH|t b|] using GoValue_ind'; intros ro depth name st;
    (destruct (Z.ltb_spec 3 depth) as [Hd|Hd];
     [rewrite shallow_none by done; cbn [checkDefault1]; by rewrite (proj2 (Z.ltb_lt _ _)) by lia|]);
    cbn [checkDefault1 leaves]; rewrite (proj2 (Z.ltb_ge _ _)) by lia; try done.
  - revert st. induction IH as [|[[f e] vv] fs Hf _ IHfs]; intros st; [done|]. cbn [snd] in Hf.
    unfold shallow. rewrite filter_app, go_for_app. unfold mbind, GoM_bind. rewrite Hf. fold (shallow (leaves vv (field_ro f e ro) (depth + 1) (path name f))).
    destruct (go_for _ _ st) as [[[] s]|]; [|done]. apply IHfs.
  - unfold shallow. rewrite filter_cons, decide_True by (cbn; lia). cbn [go_for].
    unfold mbind, GoM_bind. change (check_leaf (mkLeaf depth ro t name b) st) with (check_basic ro t b name st). by destruct (check_basic ro t b name st) as [[[] ?]|].
Qed.

(** The leaves that are not default. *)
Definition non_default (ls : list Leaf) : list string :=
  (λ l, what (lf_type l) (lf_name l)) <$> filter (λ l, is_zero (lf_value l) = false) ls.

Lemma leaves_warn ls st : Forall (λ l, Interface_ok (lf_ro l) = true) ls → 0 <= gs_errorCount st →
  gs_errorCount st + Z.of_nat (length (non_default ls)) < 2 ^ 63 →
  go_for ls check_leaf st = Some ((), mkGobState (gs_errorCount st + Z.of_nat (length (non_default ls))) (gs_checked st)
    (gs_out st ++ if gs_errorCount st =? 0 then take 1 (NonDefault <$> non_default ls) else [])).
Proof.
  intros Hf. revert st. induction Hf as [|l ls Hl _ IH]; intros st H0 Hn.
  - cbn. rewrite Z.add_0_r. destruct st as [c s o]. cbn. by destruct (c =? 0); rewrite app_nil_r.
  - cbn [go_for]. unfold mbind, GoM_bind, check_leaf at 1, check_basic. rewrite Hl. unfold go_modify. unfold non_default in *. rewrite filter_cons in *.
    destruct (is_zero (lf_value l)) eqn:Ez.
    + rewrite decide_False in * by done. cbn [id]. rewrite IH by done. done.
    + rewrite decide_True in * by done. cbn [fmap list_fmap length] in *. fold (non_default ls) in *. unfold warn, count_error.
      assert (∀ st, gs_errorCount (print (NonDefault (what (lf_type l) (lf_name l))) st) = gs_errorCount st) as Hp by done.
      destruct (Z.ltb_spec (gs_errorCount st) 1).
      * assert (gs_errorCount st = 0) as E0 by lia. rewrite IH; cbn [gs_errorCount gs_checked gs_out print]; rewrite ?i64_small by (unfold is_i64; lia); [|lia|lia].
        rewrite E0. cbn [Z.eqb Z.add take]. rewrite app_nil_r. do 3 f_equal. lia.
      * rewrite IH; cbn [gs_errorCount gs_checked gs_out]; rewrite ?i64_small by (unfold is_i64; lia); [|lia|lia].
        rewrite (proj2 (Z.eqb_neq _ _)) by lia. rewrite (proj2 (Z.eqb_neq (gs_errorCount st) 0)) by lia. do 3 f_equal. lia.
Qed.

Lemma leaves_panic ls st : Exists (λ l, Interface_ok (lf_ro l) = false) ls → go_for ls check_leaf st = None.
Proof.
  intros He. revert st. induction He as [l ls Hl|l ls _ IH]; intros st; cbn [go_for]; unfold mbind, GoM_bind, check_leaf at 1, check_basic.
  - by rewrite Hl.
  - destruct (Interface_ok (lf_ro l)); [|done]. unfold go_modify. apply IH.
Qed.

(** C30. Before a value is decoded, every basic variable that is not zero and lies at most
    two steps through structs and pointers below the value (depth 3, the value itself being
    at depth 1) counts as an error; the
    first one is printed if there was no error before, nothing deeper and nothing
    in a slice, a map or an interface is looked at; and when one of those
    variables belongs to a field that is not exported, the check panics. *)
Theorem default_check v st :
  let ls := shallow (leaves v (mkRO false false) 1 "") in
  0 <= gs_errorCount st → gs_errorCount st + Z.of_nat (length (non_default ls)) < 2 ^ 63 →
  checkDefault (Some v) st =
    if decide (Forall (λ l, Interface_ok (lf_ro l) = true) ls)
    then Some ((), mkGobState (gs_errorCount st + Z.of_nat (length (non_default ls))) (gs_checked st)
           (gs_out st ++ if gs_errorCount st =? 0 then take 1 (NonDefault <$> non_default ls) else []))
    else None.
Proof.
  intros ls H0 Hn. cbn [checkDefault]. rewrite checkDefault1_leaves. fold ls. case_decide as Hf; [by apply leaves_warn|].
  apply leaves_panic. apply not_Forall_Exists in Hf; [|apply _]. eapply Exists_impl; [exact Hf|]. intros l Hl. cbn in Hl. by apply not_true_is_false.
Qed.
End defaults.

(** ** Examples: the package's own tests *)

(** The upper-case letters of ASCII and Latin-1. *)
#[export] Instance latin : Unicode.
Proof.
  refine {| IsUpper r := in_range 65 90 r || (in_range 0xC0 0xDE r && negb (r =? 0xD7)) |}.
  intros r Hr. replace (in_range 0xC0 0xDE r) with false; [by rewrite orb_false_r|]. unfold in_range.
  by rewrite (proj2 (Z.leb_gt _ _)) by lia.
Defined.

(** TestCapital: []map[*T4]int (type 0) is encoded, then []map[T4]int (type 5) decoded. *)
Definition capital_types : Types := {[
  0%nat := TSlice 1; 1%nat := TMap 2 3; 2%nat := TPtr 4; 3%nat := TOther "int";
  4%nat := TStruct "T4" [mkStructField "Yes" 3; mkStructField "no" 3];
  5%nat := TPtr 6; 6%nat := TSlice 7; 7%nat := TMap 4 3
]}.
Example TestCapital : (λ r, (gs_errorCount r.2, gs_out r.2)) <$> (checkType capital_types 0;; checkType capital_types 5) init_gob
  = Some (1, [LowerCase "no" "T4"]).
Proof. vm_compute. reflexivity. Qed.

(** A type that contains itself. *)
Definition list_types : Types := {[ 0%nat := TStruct "node" [mkStructField "Next" 1; mkStructField "v" 2]; 1%nat := TPtr 0 ]}.
Example recursive_type : (λ r, gs_out r.2) <$> checkType list_types 1 init_gob = Some [LowerCase "v" "node"].
Proof. vm_compute. reflexivity. Qed.

(** TestDefault: a reply that holds 99 already. *)
Definition reply99 : GoValue := VPtr (Some (VStruct [("X", false, VBasic "int" (VInt 99))])).
Lemma default_check_witness : checkDefault (Some reply99) init_gob = Some ((), mkGobState 1 None [NonDefault "X"]).
Proof. exact (default_check reply99 init_gob ltac:(done) ltac:(done)). Defined.

(** A shardmaster reply that was used before: the number of its configuration lies
    at depth 4 and its groups in a map, so there is no warning. *)
Definition used_reply : GoValue := VPtr (Some (VStruct [("WrongLeader", false, VBasic "bool" (VBool false));
  ("Err", false, VBasic "Err" (VString ""));
  ("Config", false, VStruct [("Num", false, VBasic "int" (VInt 7)); ("Shards", false, VOther); ("Groups", false, VOther)])])).
Example used_reply_unnoticed : checkDefault (Some used_reply) init_gob = Some ((), init_gob).
Proof. vm_compute. reflexivity. Qed.

(** A field that is not exported stops the program, even if it is zero. *)
Example unexported_panics : checkDefault (Some (VPtr (Some (VStruct [("no", false, VBasic "int" (VInt 0))])))) init_gob = None.
Proof. vm_compute. reflexivity. Qed.

(** gob discards a value when it is told to decode into nil; the wrapper panics. *)
Example decode_nil_panics `{Unicode} {W V E} `{Gob W V E} `{Reflect V} G (e : V) (dec : LabDecoder) st :
  TypeOf e = None → Decode (W := W) (E := E) G e dec st = None.
Proof. intros He. unfold Decode, checkValue. by rewrite He. Qed.
