(* ===== verification/RandString.v ===== *)
(** RandString: the random names of the lab harnesses.

    Source: randstring in lab4-mapreduce/src/raft/config.go (the harnesses of
    kvraft, shardmaster and shardkv repeat it): 2n random bytes in URL-safe
    base64, cut to n characters.  The random bytes are an argument. *)
From Stdlib Require Import ZArith Lia Strings.Byte Ascii.
From stdpp Require Import strings list.
From S2P Require Import Prelude.
Open Scope Z_scope.

(** ** encoding/base64 *)
Definition alphabet : list ascii := String.list_ascii_of_string "ABCDEFGHIJKLMNOPQRSTUVWXYZabcdefghijklmnopqrstuvwxyz0123456789-_".
Definition symbol (z : Z) : ascii := default "="%char (alphabet !! Z.to_nat z).

(** The four six-bit numbers of three bytes. *)
Definition sextets (a b c : Z) : list Z := [a / 4; (a mod 4) * 16 + b / 16; (b mod 16) * 4 + c / 64; c mod 64].

Fixpoint encode (l : list Z) : list ascii :=
  match l with
  | [] => []
  | [a] => (symbol <$> take 2 (sextets a 0 0)) ++ ["="; "="]%char
  | [a; b] => (symbol <$> take 3 (sextets a b 0)) ++ ["="]%char
  | a :: b :: c :: l => (symbol <$> sextets a b c) ++ encode l
  end.
Definition EncodeToString (b : list byte) : string := String.string_of_list_ascii (encode (Z_of_byte <$> b)).

(** ** randstring *)

(** [s[0:n]]; [None] is the panic of an index out of range. *)
Definition slice_to (n : nat) (s : string) : option string :=
  if decide (n ≤ String.length s)%nat then Some (String.substring 0 n s) else None.
Definition randstring (n : nat) (b : list byte) : option string := slice_to n (EncodeToString b).

(** ** Lists of threes *)
Lemma three_ind {A} (P : list A → Prop) : P [] → (∀ a, P [a]) → (∀ a b, P [a; b]) → (∀ a b c l, P l → P (a :: b :: c :: l)) → ∀ l, P l.
Proof.
  intros H0 H1 H2 H3. fix IH 1. intros [|a [|b [|c l]]]; [done|apply H1|apply H2|]. apply H3, IH.
Qed.

Lemma encode_length l : (length l ≤ length (encode l))%nat.
Proof. induction l as [| | |a b c l IH] using three_ind; cbn in *; lia. Qed.

Lemma symbol_inj x y : 0 <= x < 64 → 0 <= y < 64 → symbol x = symbol y → x = y.
Proof.
  intros Hx Hy. unfold symbol. assert (length alphabet = 64%nat) as Hl by done.
  destruct (lookup_lt_is_Some_2 alphabet (Z.to_nat x) ltac:(lia)) as [cx Ex]. destruct (lookup_lt_is_Some_2 alphabet (Z.to_nat y) ltac:(lia)) as [cy Ey].
  rewrite Ex, Ey. cbn. intros ->. assert (NoDup alphabet) as Hd by (apply (bool_decide_unpack _); vm_compute; exact I).
  pose proof (NoDup_lookup _ _ _ _ Hd Ex Ey). lia.
Qed.

Lemma sextets_range a b c : 0 <= a < 256 → 0 <= b < 256 → 0 <= c < 256 → Forall (λ s, 0 <= s < 64) (sextets a b c).
Proof. intros. unfold sextets. repeat constructor; Z.div_mod_to_equations; lia. Qed.

Lemma sextets_inj a b c a' b' c' : 0 <= a < 256 → 0 <= b < 256 → 0 <= c < 256 → 0 <= a' < 256 → 0 <= b' < 256 → 0 <= c' < 256 →
  symbol <$> sextets a b c = symbol <$> sextets a' b' c' → a = a' ∧ b = b' ∧ c = c'.
Proof.
  intros Ha Hb Hc Ha' Hb' Hc' E. pose proof (sextets_range a b c Ha Hb Hc) as R. pose proof (sextets_range a' b' c' Ha' Hb' Hc') as R'.
  assert (sextets a b c = sextets a' b' c') as Es.
  { revert E R R'. generalize (sextets a b c) (sextets a' b' c'). intros l. induction l as [|x l IH]; intros [|y l']; try done.
    cbn. intros [= E1 E2] [Hx Hl]%Forall_cons [Hy Hl']%Forall_cons. f_equal; [by apply symbol_inj|by apply IH]. }
  unfold sextets in Es. injection Es as E0 E1 E2 E3. Z.div_mod_to_equations. lia.
Qed.

Definition is_byte (z : Z) : Prop := 0 <= z < 256.

(** The first 4k characters determine the first 3k bytes. *)
Lemma encode_prefix k l l' : Forall is_byte l → Forall is_byte l' → (3 * k ≤ length l)%nat → (3 * k ≤ length l')%nat →
  take (4 * k) (encode l) = take (4 * k) (encode l') → take (3 * k) l = take (3 * k) l'.
Proof.
  revert l l'. induction k as [|k IH]; intros l l' Hl Hl' L L' E; [done|].
  destruct l as [|a [|b [|c l]]]; cbn in L; try lia. destruct l' as [|a' [|b' [|c' l']]]; cbn in L'; try lia.
  apply Forall_cons in Hl as [Ha Hl]. apply Forall_cons in Hl as [Hb Hl]. apply Forall_cons in Hl as [Hc Hl].
  apply Forall_cons in Hl' as [Ha' Hl']. apply Forall_cons in Hl' as [Hb' Hl']. apply Forall_cons in Hl' as [Hc' Hl'].
  replace (4 * S k)%nat with (4 + 4 * k)%nat in E by lia. cbn [encode] in E. rewrite !take_app_add' in E by done.
  apply app_inj_1 in E as [E1 E2]; [|done]. destruct (sextets_inj a b c a' b' c') as (<- & <- & <-); try done.
  replace (3 * S k)%nat with (S (S (S (3 * k)))) by lia. cbn [take]. do 3 f_equal. apply IH; [done|done|lia|lia|done].
Qed.

Lemma bytes_ok (b : list byte) : Forall is_byte (Z_of_byte <$> b).
Proof. apply Forall_fmap, Forall_forall. intros x _. apply Z_of_byte_range. Qed.

Lemma length_string (l : list ascii) : String.length (String.string_of_list_ascii l) = length l.
Proof. induction l as [|c l IH]; [done|]. cbn. by rewrite IH. Qed.

Lemma substring_take n (l : list ascii) :
  String.list_ascii_of_string (String.substring 0 n (String.string_of_list_ascii l)) = take n l.
Proof. revert n. induction l as [|c l IH]; intros [|n]; try done. cbn. by rewrite IH. Qed.

Lemma randstring_some n b : length b = (2 * n)%nat →
  ∃ s, randstring n b = Some s ∧ String.list_ascii_of_string s = take n (encode (Z_of_byte <$> b)).
Proof.
  intros Hb. unfold randstring, slice_to, EncodeToString. rewrite length_string.
  pose proof (encode_length (Z_of_byte <$> b)) as Hl. rewrite length_fmap in Hl. rewrite decide_True by lia. eexists. split; [done|]. apply substring_take.
Qed.

Lemma length_ascii s : length (String.list_ascii_of_string s) = String.length s.
Proof. induction s as [|c s IH]; [done|]. cbn. by rewrite IH. Qed.

#[export] Instance Z_of_byte_inj : Inj (=) (=) Z_of_byte.
Proof. intros x y E. rewrite <- (byte_of_Z_of_byte x), E. apply byte_of_Z_of_byte. Qed.

(** The name of [n] characters is always there: the cut is never out of range;
    and two names of 4k characters are equal only if the first 3k random bytes
    were, so that the twenty characters of an end carry fifteen random bytes. *)
Theorem randstring_spec k b b' : length b = (2 * (4 * k))%nat → length b' = (2 * (4 * k))%nat →
  ∃ s s', randstring (4 * k) b = Some s ∧ randstring (4 * k) b' = Some s' ∧ String.length s = (4 * k)%nat
    ∧ (s = s' → take (3 * k) b = take (3 * k) b').
Proof.
  intros Hb Hb'. destruct (randstring_some (4 * k) b Hb) as (s & Es & Hs). destruct (randstring_some (4 * k) b' Hb') as (s' & Es' & Hs').
  exists s, s'. split_and!; [done|done| |].
  - rewrite <- length_ascii, Hs, length_take. pose proof (encode_length (Z_of_byte <$> b)) as Hl. rewrite length_fmap in Hl. lia.
  - intros <-. rewrite Hs in Hs'. apply encode_prefix in Hs'; [|apply bytes_ok|apply bytes_ok|rewrite length_fmap; lia|rewrite length_fmap; lia].
    rewrite <- !fmap_take in Hs'. by apply (inj (fmap Z_of_byte)) in Hs'.
Qed.

Lemma randstring_spec_witness : ∃ s s', randstring 4 (replicate 8 x00) = Some s ∧ randstring 4 (replicate 8 xff) = Some s' ∧ String.length s = 4%nat
  ∧ (s = s' → take 3 (replicate 8 x00) = take 3 (replicate 8 xff)).
Proof. exact (randstring_spec 1 (replicate 8 x00) (replicate 8 xff) eq_refl eq_refl). Defined.

Example randstring_example : randstring 4 [x14; xfb; x9c; x03; xd9; x7e; x00; x00] = Some "FPuc".
Proof. vm_compute. reflexivity. Qed.
