(* ===== verification/ShardClerk.v ===== *)
(** ShardClerk: the clients of the sharded key-value service and of its master.

    Source: lab4-mapreduce/src/shardmaster/client.go, shardmaster/common.go,
    shardkv/client.go, shardkv/common.go.

    A clerk repeats its request until a server accepts it.  The network and the
    servers are an interface [ShardNet]: a call changes the world and may fail;
    nothing else is assumed of it, and theorems that need more say so.  A loop
    that may run for ever takes the number of its rounds as fuel; [None] is out
    of rounds. *)
From Stdlib Require Import ZArith Lia Strings.Byte.
From stdpp Require Import gmap strings list.
From S2P Require Import Prelude.
Open Scope Z_scope.

(** ** shardmaster/common.go *)
Definition NShards : Z := 10.
Record Config := mkConfig { cf_Num : Z; cf_Shards : list Z; cf_Groups : gmap Z (list string) }.
Definition zero_Config : Config := mkConfig 0 (replicate (Z.to_nat NShards) 0) ∅.

(** [Shards] is an array. *)
Definition Config_ok (c : Config) : Prop := length (cf_Shards c) = Z.to_nat NShards.

Record JoinArgs := mkJoinArgs { ja_Servers : gmap Z (list string) }.
Record LeaveArgs := mkLeaveArgs { la_GIDs : list Z }.
Record MoveArgs := mkMoveArgs { ma_Shard : Z; ma_GID : Z }.
Record QueryArgs := mkQueryArgs { qa_Num : Z }.

(** JoinReply, LeaveReply and MoveReply have the same fields. *)
Record MasterReply := mkMasterReply { mr_WrongLeader : bool; mr_Err : string }.
Record QueryReply := mkQueryReply { qr_WrongLeader : bool; qr_Err : string; qr_Config : Config }.

(** ** shardkv/common.go *)
Definition OK : string := "OK".
Definition ErrNoKey : string := "ErrNoKey".
Definition ErrWrongGroup : string := "ErrWrongGroup".

Record PutAppendArgs := mkPutAppendArgs { pa_Key : string; pa_Value : string; pa_Op : string }.
Record PutAppendReply := mkPutAppendReply { pr_WrongLeader : bool; pr_Err : string }.
Record GetArgs := mkGetArgs { ga_Key : string }.
Record GetReply := mkGetReply { gr_WrongLeader : bool; gr_Err : string; gr_Value : string }.

(** ** The network and the servers *)
Class ShardNet (W End : Type) : Type := {
  call_Query : End → QueryArgs → W → option QueryReply * W;
  call_Join : End → JoinArgs → W → option MasterReply * W;
  call_Leave : End → LeaveArgs → W → option MasterReply * W;
  call_Move : End → MoveArgs → W → option MasterReply * W;
  call_Get : End → GetArgs → W → option GetReply * W;
  call_PutAppend : End → PutAppendArgs → W → option PutAppendReply * W;
  make_end : string → W → End * W
}.

(** What a round of calls says: done, next round, or next server. *)
Inductive verdict (A : Type) := Accept (a : A) | Break | Next.
Arguments Accept {A} _.
Arguments Break {A}.
Arguments Next {A}.

Section clerks.
Context {W End : Type} `{!ShardNet W End}.

(** One pass over the servers. *)
Fixpoint try_servers {X R A} (call : X → W → option R * W) (judge : R → verdict A) (servers : list X) (w : W) : option A * W :=
  match servers with
  | [] => (None, w)
  | srv :: servers =>
      let '(reply, w) := call srv w in
      match default Next (judge <$> reply) with
      | Accept a => (Some a, w)
      | Break => (None, w)
      | Next => try_servers call judge servers w
      end
  end.

(** [for { round; time.Sleep }] *)
Fixpoint repeat_rounds {A} (fuel : nat) (round : W → option A * W) (w : W) : option (A * W) :=
  match fuel with
  | O => None
  | S fuel =>
      match round w with
      | (Some a, w) => Some (a, w)
      | (None, w) => repeat_rounds fuel round w
      end
  end.

(** ** shardmaster/client.go *)
Record MasterClerk := mkMasterClerk { mck_servers : list End }.
Definition MakeMasterClerk (servers : list End) : MasterClerk := mkMasterClerk servers.

Definition accept_unless {R A} (wrong : R → bool) (a : R → A) (r : R) : verdict A := if wrong r then Next else Accept (a r).

Definition Query (fuel : nat) (ck : MasterClerk) (num : Z) : W → option (Config * W) :=
  repeat_rounds fuel (try_servers (λ srv, call_Query srv (mkQueryArgs num)) (accept_unless qr_WrongLeader qr_Config) (mck_servers ck)).
Definition Join (fuel : nat) (ck : MasterClerk) (servers : gmap Z (list string)) : W → option (() * W) :=
  repeat_rounds fuel (try_servers (λ srv, call_Join srv (mkJoinArgs servers)) (accept_unless mr_WrongLeader (λ _, ())) (mck_servers ck)).
Definition Leave (fuel : nat) (ck : MasterClerk) (gids : list Z) : W → option (() * W) :=
  repeat_rounds fuel (try_servers (λ srv, call_Leave srv (mkLeaveArgs gids)) (accept_unless mr_WrongLeader (λ _, ())) (mck_servers ck)).
Definition Move (fuel : nat) (ck : MasterClerk) (shard gid : Z) : W → option (() * W) :=
  repeat_rounds fuel (try_servers (λ srv, call_Move srv (mkMoveArgs shard gid)) (accept_unless mr_WrongLeader (λ _, ())) (mck_servers ck)).

(** ** shardkv/client.go *)
Definition key2shard (key : string) : Z :=
  let shard := match String.list_byte_of_string key with [] => 0 | b :: _ => Z_of_byte b end in
  Z.rem shard NShards.

Record Clerk := mkClerk { ck_sm : MasterClerk; ck_config : Config }.
Definition MakeClerk (masters : list End) : Clerk := mkClerk (MakeMasterClerk masters) zero_Config.

(** The group of a key, and its servers; an index out of range panics. *)
Definition gid_of (c : Config) (key : string) : option Z := cf_Shards c !! Z.to_nat (key2shard key).
Definition servers_of (c : Config) (key : string) : option (list string) :=
  gid ← gid_of c key; Some (default [] (cf_Groups c !! gid)).

Definition ask_get (key name : string) (w : W) : option GetReply * W :=
  let '(srv, w) := make_end name w in call_Get srv (mkGetArgs key) w.
Definition ask_put (args : PutAppendArgs) (name : string) (w : W) : option PutAppendReply * W :=
  let '(srv, w) := make_end name w in call_PutAppend srv args w.

Definition judge_get (r : GetReply) : verdict string :=
  if negb (gr_WrongLeader r) && (bool_decide (gr_Err r = OK) || bool_decide (gr_Err r = ErrNoKey)) then Accept (gr_Value r)
  else if bool_decide (gr_Err r = ErrWrongGroup) then Break else Next.
Definition judge_put (r : PutAppendReply) : verdict () :=
  if negb (pr_WrongLeader r) && bool_decide (pr_Err r = OK) then Accept ()
  else if bool_decide (pr_Err r = ErrWrongGroup) then Break else Next.

(** The loop of Get and of PutAppend: a pass over the servers of the shard's
    group, then the latest configuration; [mfuel] is the fuel of Query.  The
    outer [None] is out of rounds or a panic. *)
Fixpoint clerk_loop {R A} (fuel mfuel : nat) (ask : string → W → option R * W) (judge : R → verdict A) (key : string) (ck : Clerk) (w : W) :
    option (A * Clerk * W) :=
  match fuel with
  | O => None
  | S fuel =>
      servers ← servers_of (ck_config ck) key;
      match try_servers ask judge servers w with
      | (Some a, w) => Some (a, ck, w)
      | (None, w) =>
          '(config, w) ← Query mfuel (ck_sm ck) (-1) w;
          clerk_loop fuel mfuel ask judge key (mkClerk (ck_sm ck) config) w
      end
  end.

Definition Get (fuel mfuel : nat) (key : string) : Clerk → W → option (string * Clerk * W) :=
  clerk_loop fuel mfuel (ask_get key) judge_get key.
Definition PutAppend (fuel mfuel : nat) (key value op : string) : Clerk → W → option (() * Clerk * W) :=
  clerk_loop fuel mfuel (ask_put (mkPutAppendArgs key value op)) judge_put key.
Definition Put (fuel mfuel : nat) (key value : string) : Clerk → W → option (() * Clerk * W) := PutAppend fuel mfuel key value "Put".
Definition Append (fuel mfuel : nat) (key value : string) : Clerk → W → option (() * Clerk * W) := PutAppend fuel mfuel key value "Append".

(** ** What is always true *)
Implicit Types (ck : Clerk) (w : W).

Lemma key2shard_range key : 0 <= key2shard key < NShards.
Proof.
  unfold key2shard, NShards. destruct (String.list_byte_of_string key) as [|b l]; [done|].
  rewrite Z.rem_mod_nonneg by (pose proof (Z_of_byte_range b); lia). apply Z.mod_pos_bound. lia.
Qed.

Lemma servers_of_ok c key : Config_ok c → ∃ servers, servers_of c key = Some servers.
Proof.
  intros Hc. unfold servers_of, gid_of. pose proof (key2shard_range key).
  destruct (lookup_lt_is_Some_2 (cf_Shards c) (Z.to_nat (key2shard key))) as [gid ->]; [unfold Config_ok in Hc; lia|]. by eexists.
Qed.

Lemma servers_of_in c key servers name : servers_of c key = Some servers → name ∈ servers →
  ∃ gid, gid_of c key = Some gid ∧ cf_Groups c !! gid = Some servers.
Proof.
  unfold servers_of. destruct (gid_of c key) as [gid|] eqn:Eg; [|done]. cbn. intros [= <-] Hn. exists gid. split; [done|].
  by destruct (cf_Groups c !! gid); [|apply not_elem_of_nil in Hn].
Qed.

(** An accepted request was accepted by one of the servers. *)
Lemma try_accepts {X R A} (call : X → W → option R * W) (judge : R → verdict A) servers w a w' :
  try_servers call judge servers w = (Some a, w') →
  ∃ srv w1 r, srv ∈ servers ∧ call srv w1 = (Some r, w') ∧ judge r = Accept a.
Proof.
  revert w. induction servers as [|srv servers IH]; intros w; cbn [try_servers]; [done|].
  destruct (call srv w) as [[r|] w1] eqn:Ec; cbn [fmap option_fmap option_map default].
  - destruct (judge r) as [b| |] eqn:Ej; cbn; [|done|].
    + intros [= -> ->]. exists srv, w, r. split_and!; [by left|done|done].
    + intros (s & w2 & r2 & ? & ? & ?)%IH. exists s, w2, r2. split_and!; [by right|done|done].
  - intros (s & w2 & r2 & ? & ? & ?)%IH. exists s, w2, r2. split_and!; [by right|done|done].
Qed.

Lemma rounds_return {A} fuel (round : W → option A * W) w a w' : repeat_rounds fuel round w = Some (a, w') → ∃ w1, round w1 = (Some a, w').
Proof.
  revert w. induction fuel as [|fuel IH]; intros w; cbn; [done|]. destruct (round w) as [[b|] w1] eqn:E; [|apply IH].
  intros [= -> ->]. by exists w.
Qed.

(** The configuration comes from a master that leads. *)
Definition from_master (sm : MasterClerk) (num : Z) (c : Config) : Prop :=
  ∃ srv w1 q w2, srv ∈ mck_servers sm ∧ call_Query srv (mkQueryArgs num) w1 = (Some q, w2) ∧ qr_WrongLeader q = false ∧ qr_Config q = c.

Lemma Query_from_master fuel sm num w c w' : Query fuel sm num w = Some (c, w') → from_master sm num c.
Proof.
  intros (w1 & (srv & w2 & q & Hs & Hc & Hj)%try_accepts)%rounds_return. unfold accept_unless in Hj.
  destruct (qr_WrongLeader q) eqn:Eq; [done|]. injection Hj as Hj. by exists srv, w2, q, w'.
Qed.

(** The answer of the loop: it came from a server of the group to which the
    clerk's configuration assigns the key. *)
Record answered {R A} (ask : string → W → option R * W) (judge : R → verdict A) (key : string) (ck ck' : Clerk) (a : A) (w' : W) : Prop := {
  an_owner : ∃ gid servers name w1 r, gid_of (ck_config ck') key = Some gid ∧ cf_Groups (ck_config ck') !! gid = Some servers
    ∧ name ∈ servers ∧ ask name w1 = (Some r, w') ∧ judge r = Accept a;
  an_config : ck_config ck' = ck_config ck ∨ from_master (ck_sm ck) (-1) (ck_config ck');
  an_sm : ck_sm ck' = ck_sm ck
}.

Lemma loop_answered {R A} fuel mfuel (ask : string → W → option R * W) (judge : R → verdict A) key ck w a ck' w' :
  clerk_loop fuel mfuel ask judge key ck w = Some (a, ck', w') → answered ask judge key ck ck' a w'.
Proof.
  revert ck w. induction fuel as [|fuel IH]; intros ck w; cbn [clerk_loop]; [done|].
  destruct (servers_of (ck_config ck) key) as [servers|] eqn:Es; [|done]. cbn.
  destruct (try_servers ask judge servers w) as [[b|] w1] eqn:Et.
  - intros [= -> -> ->]. apply try_accepts in Et as (name & w2 & r & Hn & Ha & Hj). split; [|by left|done].
    destruct (servers_of_in _ _ _ _ Es Hn) as (gid & Hg & Hs). exists gid, servers, name, w2, r. done.
  - destruct (Query mfuel (ck_sm ck) (-1) w1) as [[c w2]|] eqn:Eq; [|done]. cbn. intros [H1 H2 H3]%IH. cbn [ck_config ck_sm] in *.
    split; [done| |done]. right. destruct H2 as [->|H2]; [|done]. by eapply Query_from_master.
Qed.

Lemma judge_get_accept r v : judge_get r = Accept v ↔ gr_WrongLeader r = false ∧ (gr_Err r = OK ∨ gr_Err r = ErrNoKey) ∧ gr_Value r = v.
Proof.
  unfold judge_get. destruct (gr_WrongLeader r); cbn; [by case_bool_decide; naive_solver|]. repeat case_bool_decide; naive_solver.
Qed.
Lemma judge_put_accept r a : judge_put r = Accept a ↔ pr_WrongLeader r = false ∧ pr_Err r = OK.
Proof.
  unfold judge_put. destruct a, (pr_WrongLeader r); cbn; [by case_bool_decide; naive_solver|]. repeat case_bool_decide; naive_solver.
Qed.

(** ** Progress *)

(** The servers [owners] of the key, in a world that keeps [Inv]: masters that say
    anything say [cfg], and one of them always leads; only an owner accepts a request,
    and one owner always accepts it or says ErrWrongGroup.  A server may answer ErrWrongGroup; [lag] bounds how often
    owners that lag behind the configuration still do so. *)
Record shard_world {R A} (Inv : W → Prop) (lag : W → nat) (sm : MasterClerk) (cfg : Config) (key : string) (owners : list string)
    (ask : string → W → option R * W) (judge : R → verdict A) : Prop := {
  sw_ok : Config_ok cfg;
  sw_owners : servers_of cfg key = Some owners;
  sw_query : ∀ srv w, Inv w → let '(r, w') := call_Query srv (mkQueryArgs (-1)) w in
    Inv w' ∧ (lag w' <= lag w)%nat ∧ ∀ q, r = Some q → qr_WrongLeader q = false → qr_Config q = cfg;
  sw_master : ∃ srv, srv ∈ mck_servers sm ∧ ∀ w, Inv w → ∃ q, (call_Query srv (mkQueryArgs (-1)) w).1 = Some q ∧ qr_WrongLeader q = false;
  sw_ask : ∀ name w, Inv w → let '(r, w') := ask name w in Inv w' ∧ (lag w' <= lag w)%nat
    ∧ match default Next (judge <$> r) with
      | Accept _ => name ∈ owners
      | Break => name ∈ owners → (lag w' < lag w)%nat
      | Next => True
      end;
  sw_leader : ∃ name, name ∈ owners ∧ ∀ w, Inv w → ∃ r, (ask name w).1 = Some r ∧ judge r ≠ Next
}.

Section progress.
Context {R A : Type} {Inv : W → Prop} {lag : W → nat} {sm : MasterClerk} {cfg : Config} {key : string} {owners : list string}
  {ask : string → W → option R * W} {judge : R → verdict A} (HW : shard_world Inv lag sm cfg key owners ask judge).

(** An owner accepted the request, in a world of the invariant. *)
Definition by_owner (a : A) (w' : W) : Prop :=
  ∃ name w0 r, name ∈ owners ∧ Inv w0 ∧ Inv w' ∧ ask name w0 = (Some r, w') ∧ judge r = Accept a.

(** Any pass ends at an owner or keeps the world. *)
Lemma pass_inv servers w : Inv w →
  match try_servers ask judge servers w with (Some a, w') => by_owner a w' | (None, w') => Inv w' ∧ (lag w' <= lag w)%nat end.
Proof using HW.
  revert w. induction servers as [|name servers IH]; intros w Hw; cbn [try_servers]; [done|].
  pose proof (sw_ask _ _ _ _ _ _ _ _ HW name w Hw) as Ha. destruct (ask name w) as [r w1] eqn:E. destruct Ha as (Hw1 & Hl & Ha).
  destruct (default Next (judge <$> r)) as [a| |] eqn:Ej; [|done|].
  - destruct r as [r|]; [|done]. cbn in Ej. by exists name, w, r.
  - pose proof (IH w1 Hw1) as Hp. destruct (try_servers ask judge servers w1) as [[a|] w2]; [done|]. split; [apply Hp|]. destruct Hp. lia.
Qed.

(** A pass over owners that contains the leader ends at an owner, or an owner that
    lags has refused. *)
Lemma pass_owner servers w name : Inv w → (∀ n, n ∈ servers → n ∈ owners) → name ∈ servers →
  (∀ w, Inv w → ∃ r, (ask name w).1 = Some r ∧ judge r ≠ Next) →
  match try_servers ask judge servers w with (Some a, w') => by_owner a w' | (None, w') => Inv w' ∧ (lag w' < lag w)%nat end.
Proof using HW.
  intros Hw Hsub Hn Hl. revert w Hw. induction servers as [|n servers IH]; intros w Hw; [by apply not_elem_of_nil in Hn|]. cbn [try_servers].
  assert (n ∈ owners) as Hno by (apply Hsub; by left).
  pose proof (sw_ask _ _ _ _ _ _ _ _ HW n w Hw) as Ha. specialize (Hl w Hw) as Hlw.
  destruct (ask n w) as [r w1] eqn:E. destruct Ha as (Hw1 & Hle & Ha).
  destruct (default Next (judge <$> r)) as [a| |] eqn:Ej.
  - destruct r as [r|]; [|done]. cbn in Ej. by exists n, w, r.
  - split; [done|by apply Ha].
  - apply elem_of_cons in Hn as [->|Hn].
    + destruct Hlw as (r0 & Hr & Hj). rewrite E in Hr. cbn in Hr. subst r. by cbn in Ej.
    + assert (∀ m, m ∈ servers → m ∈ owners) as Hsub' by (intros m Hm; apply Hsub; by right).
      pose proof (IH Hsub' Hn w1 Hw1) as Hp. destruct (try_servers ask judge servers w1) as [[a|] w2]; [done|]. destruct Hp. split; [done|lia].
Qed.

(** The master is asked once. *)
Lemma query_once fuel w : Inv w → ∃ w', Query (S fuel) sm (-1) w = Some (cfg, w') ∧ Inv w' ∧ (lag w' <= lag w)%nat.
Proof using HW.
  intros Hw. destruct (sw_master _ _ _ _ _ _ _ _ HW) as (srv & Hs & Hl). unfold Query. cbn [repeat_rounds].
  assert (∃ w', try_servers (λ srv, call_Query srv (mkQueryArgs (-1))) (accept_unless qr_WrongLeader qr_Config) (mck_servers sm) w = (Some cfg, w')
    ∧ Inv w' ∧ (lag w' <= lag w)%nat) as (w' & -> & Hw'); [|by exists w'].
  revert w Hw. induction (mck_servers sm) as [|s servers IH]; intros w Hw; [by apply not_elem_of_nil in Hs|]. cbn [try_servers].
  pose proof (sw_query _ _ _ _ _ _ _ _ HW s w Hw) as Hq. specialize (Hl w Hw) as Hl'. apply elem_of_cons in Hs.
  destruct (call_Query s (mkQueryArgs (-1)) w) as [q w1] eqn:Eq. destruct Hq as (Hi & Hle & Hc). cbn [fst snd] in *.
  assert (srv ∈ servers → ∃ w', try_servers (λ srv, call_Query srv (mkQueryArgs (-1))) (accept_unless qr_WrongLeader qr_Config) servers w1 = (Some cfg, w')
    ∧ Inv w' ∧ (lag w' <= lag w)%nat) as Hnext.
  { intros Hin. destruct (IH Hin w1 Hi) as (w' & ? & ? & ?). exists w'. split_and!; [done|done|lia]. }
  destruct q as [q|]; cbn.
  - unfold accept_unless. destruct (qr_WrongLeader q) eqn:Ew.
    + apply Hnext. destruct Hs as [->|Hs]; [|done]. rewrite Eq in Hl'. destruct Hl' as (q' & [= <-] & ?). congruence.
    + exists w1. split; [|done]. by rewrite (Hc q).
  - apply Hnext. destruct Hs as [->|Hs]; [|done]. rewrite Eq in Hl'. by destruct Hl' as (q' & ? & _).
Qed.

(** With the configuration of the masters every refused pass uses up some lag. *)
Lemma owner_served n mfuel ck w fuel : ck_config ck = cfg → ck_sm ck = sm → Inv w → (lag w <= n)%nat →
  ∃ a ck' w', clerk_loop (n + S fuel) (S mfuel) ask judge key ck w = Some (a, ck', w') ∧ by_owner a w'.
Proof using HW.
  intros Hc Hsm. revert ck w Hc Hsm. induction n as [|n IH]; intros ck w Hc Hsm Hw Hn;
    cbn [Nat.add clerk_loop]; rewrite Hc, (sw_owners _ _ _ _ _ _ _ _ HW); cbn [mbind option_bind];
    destruct (sw_leader _ _ _ _ _ _ _ _ HW) as (name & Hno & Hl);
    pose proof (pass_owner owners w name Hw ltac:(done) Hno Hl) as Hp;
    destruct (try_servers ask judge owners w) as [[a|] w1]; [by exists a, ck, w1|lia|by exists a, ck, w1|].
  destruct Hp as [Hw1 Hlt]. rewrite Hsm. destruct (query_once mfuel w1 Hw1) as (w2 & -> & Hw2 & Hle). cbn [mbind option_bind].
  apply IH; [done|done|done|lia].
Qed.

Lemma clerk_served fuel mfuel ck w : Config_ok (ck_config ck) → ck_sm ck = sm → Inv w →
  ∃ a ck' w', clerk_loop (S (lag w + S fuel)) (S mfuel) ask judge key ck w = Some (a, ck', w') ∧ by_owner a w'.
Proof using HW.
  intros Hc Hsm Hw. destruct (servers_of_ok (ck_config ck) key Hc) as [servers Es]. cbn [clerk_loop]. rewrite Es. cbn [mbind option_bind].
  pose proof (pass_inv servers w Hw) as Hp. destruct (try_servers ask judge servers w) as [[a|] w1]; [by exists a, ck, w1|].
  destruct Hp as [Hw1 Hle]. rewrite Hsm. destruct (query_once mfuel w1 Hw1) as (w2 & -> & Hw2 & Hle2). cbn [mbind option_bind].
  apply owner_served; [done|done|done|lia].
Qed.
End progress.

(** C22. When Get or PutAppend returns, on whatever network and with whatever
    servers, a server accepted the request that is, by the configuration the
    clerk then holds, in the group of the key's shard; that configuration is the
    clerk's old one or a leading master's answer; and the value is the one in
    the server's reply. *)
Theorem clerk_asks_owner fuel mfuel key value op ck w ck' w' :
  (∀ v, Get fuel mfuel key ck w = Some (v, ck', w') →
     (∃ gid servers name w1 r, gid_of (ck_config ck') key = Some gid ∧ cf_Groups (ck_config ck') !! gid = Some servers ∧ name ∈ servers
       ∧ ask_get key name w1 = (Some r, w') ∧ gr_WrongLeader r = false ∧ (gr_Err r = OK ∨ gr_Err r = ErrNoKey) ∧ v = gr_Value r)
     ∧ (ck_config ck' = ck_config ck ∨ from_master (ck_sm ck) (-1) (ck_config ck')))
  ∧ (PutAppend fuel mfuel key value op ck w = Some ((), ck', w') →
     (∃ gid servers name w1 r, gid_of (ck_config ck') key = Some gid ∧ cf_Groups (ck_config ck') !! gid = Some servers ∧ name ∈ servers
       ∧ ask_put (mkPutAppendArgs key value op) name w1 = (Some r, w') ∧ pr_WrongLeader r = false ∧ pr_Err r = OK)
     ∧ (ck_config ck' = ck_config ck ∨ from_master (ck_sm ck) (-1) (ck_config ck'))).
Proof.
  split.
  - intros v [(gid & servers & name & w1 & r & Hg & Hs & Hn & Ha & Hj) Hc _]%loop_answered. split; [|done].
    apply judge_get_accept in Hj as (H1 & H2 & H3). exists gid, servers, name, w1, r. done.
  - intros [(gid & servers & name & w1 & r & Hg & Hs & Hn & Ha & Hj) Hc _]%loop_answered. split; [|done].
    apply judge_put_accept in Hj as (H1 & H2). exists gid, servers, name, w1, r. done.
Qed.

(** C23. While the configuration does not change ([shard_world]: leading masters all answer
    [cfg], one master and one server of the owning group always lead, only owners accept),
    Put, Append and Get of a clerk return, however old its own configuration is and however
    the other servers fail, refuse or are slow: after two passes over the servers, one round
    of questions to the masters between passes, and one pass more for every answer
    ErrWrongGroup of an owner that still lags behind ([lag]); and what they return is the
    answer of an owner.  An owner that lags for ever and is listed before the leader
    stops the clerk ([lagging_owner_blocks]). *)
Theorem clerk_reaches_owner fuel mfuel sm cfg key value op owners ck w (Inv : W → Prop) (lag : W → nat) :
  shard_world Inv lag sm cfg key owners (ask_put (mkPutAppendArgs key value op)) judge_put →
  shard_world Inv lag sm cfg key owners (ask_get key) judge_get →
  Config_ok (ck_config ck) → ck_sm ck = sm → Inv w →
  (∃ ck' w' name w0 r, PutAppend (S (lag w + S fuel)) (S mfuel) key value op ck w = Some ((), ck', w')
     ∧ name ∈ owners ∧ Inv w0 ∧ Inv w' ∧ ask_put (mkPutAppendArgs key value op) name w0 = (Some r, w')
     ∧ pr_WrongLeader r = false ∧ pr_Err r = OK)
  ∧ (∃ ck' w' name w0 r, Get (S (lag w + S fuel)) (S mfuel) key ck w = Some (gr_Value r, ck', w')
     ∧ name ∈ owners ∧ Inv w0 ∧ Inv w' ∧ ask_get key name w0 = (Some r, w')
     ∧ gr_WrongLeader r = false ∧ (gr_Err r = OK ∨ gr_Err r = ErrNoKey)).
Proof.
  intros H1 H2 Hc Hsm Hw. split.
  - destruct (clerk_served H1 fuel mfuel ck w Hc Hsm Hw) as ([] & ck' & w' & E & name & w0 & r & Hn & Hi & Hi' & Ha & [Hj1 Hj2]%judge_put_accept).
    by exists ck', w', name, w0, r.
  - destruct (clerk_served H2 fuel mfuel ck w Hc Hsm Hw) as (v & ck' & w' & E & name & w0 & r & Hn & Hi & Hi' & Ha & (Hj1 & Hj2 & <-)%judge_get_accept).
    by exists ck', w', name, w0, r.
Qed.
End clerks.

(** ** A service with three servers *)

(** Group 100 has one server, group 101 two; master 1 leads, and so does the second
    server of group 101, which owns every shard; the first one answers ErrWrongGroup
    as long as it lags.  The world is what is stored, and that lag. *)
Definition demo_cfg : Config := mkConfig 2 (replicate 10 101) {[ 100 := ["server-100-0"]; 101 := ["server-101-0"; "server-101-1"] ]}.
Definition old_cfg : Config := mkConfig 1 (replicate 10 100) {[ 100 := ["server-100-0"] ]}.
Abbreviation DemoWorld := (gmap string string * nat)%type.

(** A lagging server catches up by [step] per request. *)
Definition demo_net (step : nat) : ShardNet DemoWorld string := {|
  call_Query srv args w := (Some (mkQueryReply (negb (bool_decide (srv = "master1"))) OK demo_cfg), w);
  call_Join srv args w := (None, w);
  call_Leave srv args w := (None, w);
  call_Move srv args w := (None, w);
  call_Get srv args w :=
    if decide (srv = "server-101-1") then
      (Some match w.1 !! ga_Key args with Some v => mkGetReply false OK v | None => mkGetReply false ErrNoKey "" end, w)
    else if decide (srv = "server-100-0") then (Some (mkGetReply false ErrWrongGroup ""), w)
    else if decide (w.2 = 0%nat) then (None, w) else (Some (mkGetReply true ErrWrongGroup ""), (w.1, w.2 - step)%nat);
  call_PutAppend srv args w :=
    if decide (srv = "server-101-1") then (Some (mkPutAppendReply false OK), (<[pa_Key args := pa_Value args]> w.1, w.2))
    else if decide (srv = "server-100-0") then (Some (mkPutAppendReply false ErrWrongGroup), w)
    else if decide (w.2 = 0%nat) then (None, w) else (Some (mkPutAppendReply true ErrWrongGroup), (w.1, w.2 - step)%nat);
  make_end name w := (name, w)
|}.
Definition demo_sm : MasterClerk := mkMasterClerk ["master0"; "master1"].

Lemma demo_shard_world {R A} (ask : string → DemoWorld → option R * DemoWorld) (judge : R → verdict A) :
  (∀ name w, let '(r, w') := ask name w in (w'.2 <= w.2)%nat ∧ match default Next (judge <$> r) with
      | Accept _ => name = "server-101-1" | Break => name = "server-100-0" ∨ (w'.2 < w.2)%nat | Next => name ≠ "server-101-1" end) →
  (∀ w, is_Some (ask "server-101-1" w).1) →
  shard_world (ShardNet0 := demo_net 1) (λ _, True) snd demo_sm demo_cfg "a" ["server-101-0"; "server-101-1"] ask judge.
Proof.
  intros Hask Hok. split; [done|done| | | |].
  - intros srv w _. split_and!; [done|done|]. by intros q [= <-].
  - exists "master1". split; [by right; left|]. intros w _. by eexists.
  - intros name w _. pose proof (Hask name w) as Hn. destruct (ask name w) as [r w']. destruct Hn as [Hle Hn]. split_and!; [done|done|].
    destruct (default Next (judge <$> r)); [subst; by right; left| |done]. intros Ho. destruct Hn as [->|Hn]; [|done].
    by apply elem_of_cons in Ho as [?|[?|?%elem_of_nil]%elem_of_cons].
  - exists "server-101-1". split; [by right; left|]. intros w _. pose proof (Hask "server-101-1" w) as Hn. destruct (Hok w) as [r Hr].
    destruct (ask "server-101-1" w) as [r' w']. cbn in Hr. subst r'. exists r. split; [done|]. cbn in Hn. intros Hj. rewrite Hj in Hn. by apply Hn.
Qed.

(** Server 101-0 lags three requests behind. *)
Lemma clerk_reaches_owner_witness :
  (∃ ck' w' name w0 r, PutAppend (ShardNet0 := demo_net 1) 5 1 "a" "x" "Put" (mkClerk demo_sm old_cfg) (∅, 3%nat) = Some ((), ck', w')
     ∧ name ∈ ["server-101-0"; "server-101-1"] ∧ True ∧ True ∧ ask_put (ShardNet0 := demo_net 1) (mkPutAppendArgs "a" "x" "Put") name w0 = (Some r, w')
     ∧ pr_WrongLeader r = false ∧ pr_Err r = OK)
  ∧ (∃ ck' w' name w0 r, Get (ShardNet0 := demo_net 1) 5 1 "a" (mkClerk demo_sm old_cfg) (∅, 3%nat) = Some (gr_Value r, ck', w')
     ∧ name ∈ ["server-101-0"; "server-101-1"] ∧ True ∧ True ∧ ask_get (ShardNet0 := demo_net 1) "a" name w0 = (Some r, w')
     ∧ gr_WrongLeader r = false ∧ (gr_Err r = OK ∨ gr_Err r = ErrNoKey)).
Proof.
  apply (clerk_reaches_owner (ShardNet0 := demo_net 1) 0 0 demo_sm demo_cfg "a" "x" "Put" ["server-101-0"; "server-101-1"]
    (mkClerk demo_sm old_cfg) (∅, 3%nat) (λ _, True) snd); [| |done|done|done].
  - apply demo_shard_world; [|intros w; by eexists]. intros name w. unfold ask_put. cbn. repeat case_decide; cbn; naive_solver lia.
  - apply demo_shard_world; [|intros w; by eexists]. intros name w. unfold ask_get. cbn. destruct (w.1 !! "a"); repeat case_decide; cbn; naive_solver lia.
Defined.

(** The same run, evaluated. *)
Example lagging_owner_served :
  ((λ x, (x.1.2.(ck_config).(cf_Num), x.2.1 !! "a", x.2.2)) <$>
     PutAppend (ShardNet0 := demo_net 1) 5 1 "a" "x" "Put" (mkClerk demo_sm old_cfg) (∅, 3%nat)) = Some (2, Some "x", 0%nat).
Proof. vm_compute. reflexivity. Qed.

(** An owner that never catches up keeps the clerk from the leader listed after it. *)
Lemma lagging_owner_blocks fuel n : Get (ShardNet0 := demo_net 0) fuel 1 "a" (mkClerk demo_sm demo_cfg) (∅, S n) = None.
Proof.
  induction fuel as [|fuel IH]; [done|]. unfold Get in *. cbn [clerk_loop].
  change (servers_of (ck_config (mkClerk demo_sm demo_cfg)) "a") with (Some ["server-101-0"; "server-101-1"]). cbn [mbind option_bind].
  cbn [try_servers]. unfold ask_get at 1. cbn. exact IH.
Qed.

Lemma clerk_asks_owner_witness :
  ∃ ck' w', Get (ShardNet0 := demo_net 1) 2 1 "a" (mkClerk demo_sm old_cfg) ({["a" := "x"]}, 0%nat) = Some ("x", ck', w')
  ∧ ∃ gid servers name, gid_of (ck_config ck') "a" = Some gid ∧ cf_Groups (ck_config ck') !! gid = Some servers ∧ name ∈ servers.
Proof.
  exists (mkClerk demo_sm demo_cfg), ({["a" := "x"]}, 0%nat).
  assert (Get (ShardNet0 := demo_net 1) 2 1 "a" (mkClerk demo_sm old_cfg) ({["a" := "x"]}, 0%nat)
    = Some ("x", mkClerk demo_sm demo_cfg, ({["a" := "x"]}, 0%nat))) as E by (vm_compute; reflexivity). split; [exact E|].
  destruct (proj1 (clerk_asks_owner (ShardNet0 := demo_net 1) 2 1 "a" "x" "Put" (mkClerk demo_sm old_cfg) ({["a" := "x"]}, 0%nat)
    (mkClerk demo_sm demo_cfg) ({["a" := "x"]}, 0%nat)) "x" E) as [(gid & servers & name & _ & _ & H1 & H2 & H3 & _) _].
  by exists gid, servers, name.
Defined.
