(* ===== verification/ShardConfig.v ===== *)
(** ShardConfig: the harness of the sharded key-value lab.

    Source: lab4-mapreduce/src/shardkv/config.go.

    Three masters and three groups of servers on one simulated network, where a
    server is reached by its name.  The servers are exercises without an
    implementation; the harness starts and stops them and wires their ends.
    The names that randstring returns are arguments; [None] is a panic or the
    end of the process. *)
From Stdlib Require Import ZArith Lia Strings.Byte.
From stdpp Require Import gmap strings list.
From S2P Require Import Prelude.
From S2P Require Import GoStd.
From S2P Require Import MapReduceProps.
From S2P Require Import LabRpc.
From S2P Require Import RaftConfig.
From S2P Require Import ShardClerk.
Open Scope Z_scope.

Abbreviation ShardNetwork := (Network (EN := string) (SN := string)).

(** Servers and persisters are pointers; [sg_saved] points into the heap. *)
Record group := mkGroup {
  sg_gid : nat;
  sg_servers : list (option nat);
  sg_saved : list (option nat);
  sg_endnames : list (list string);
  sg_mendnames : list (list string)
}.

Record shconfig := mkShConfig {
  sh_net : ShardNetwork;
  sh_nmasters : nat;
  sh_masterservers : list (option nat);
  sh_mck : MasterClerk (End := string);
  sh_ngroups : nat;
  sh_n : nat;
  sh_groups : list (option group);
  sh_clerks : gmap nat (list string);
  sh_nextClientId : Z;
  sh_maxraftstate : Z;
  sh_heap : gmap nat Persister;
  sh_next : nat
}.

Definition sh_set_net (rn : ShardNetwork) (c : shconfig) : shconfig :=
  mkShConfig rn (sh_nmasters c) (sh_masterservers c) (sh_mck c) (sh_ngroups c) (sh_n c) (sh_groups c) (sh_clerks c) (sh_nextClientId c)
    (sh_maxraftstate c) (sh_heap c) (sh_next c).
Definition sh_set_groups (l : list (option group)) (c : shconfig) : shconfig :=
  mkShConfig (sh_net c) (sh_nmasters c) (sh_masterservers c) (sh_mck c) (sh_ngroups c) (sh_n c) l (sh_clerks c) (sh_nextClientId c)
    (sh_maxraftstate c) (sh_heap c) (sh_next c).
Definition sh_set_clerks (m : gmap nat (list string)) (next : nat) (c : shconfig) : shconfig :=
  mkShConfig (sh_net c) (sh_nmasters c) (sh_masterservers c) (sh_mck c) (sh_ngroups c) (sh_n c) (sh_groups c) m (sh_nextClientId c)
    (sh_maxraftstate c) (sh_heap c) next.

(** [&Persister] and other new objects *)
Definition sh_alloc (ps : Persister) (c : shconfig) : nat * shconfig :=
  (sh_next c, mkShConfig (sh_net c) (sh_nmasters c) (sh_masterservers c) (sh_mck c) (sh_ngroups c) (sh_n c) (sh_groups c) (sh_clerks c)
    (sh_nextClientId c) (sh_maxraftstate c) (<[sh_next c := ps]> (sh_heap c)) (S (sh_next c))).

Definition sh_group (gi : nat) (c : shconfig) : option group := mjoin (sh_groups c !! gi).
Definition put_group (gi : nat) (gg : group) (c : shconfig) : shconfig := sh_set_groups (<[gi := Some gg]> (sh_groups c)) c.

(** [l[i] = x] *)
Definition set_at {A} (i : nat) (x : A) (l : list A) : option (list A) := if decide (i < length l)%nat then Some (<[i := x]> l) else None.

(** master server name for labrpc. *)
Definition mastername (i : nat) : string := "master" +:+ Itoa i.

(** shard server name for labrpc. *)
Definition servername (gid i : nat) : string := "server-" +:+ Itoa gid +:+ "-" +:+ Itoa i.

(** MakeEnd, Connect and Enable, as every loop of the harness does. *)
Definition open_end (name sn : string) (rn : ShardNetwork) : option ShardNetwork :=
  rn ← MakeEnd name rn; Some (Enable name true (Connect name sn rn)).
Definition open_ends (sname : nat → string) (names : list string) (rn : ShardNetwork) : option ShardNetwork :=
  for_each (zip (seq 0 (length names)) names) (λ '(j, name), open_end name (sname j)) rn.

(** The function that a clerk or server is given to reach a server by its name. *)
Definition harness_make_end (name sn : string) (c : shconfig) : option shconfig :=
  rn ← open_end name sn (sh_net c); Some (sh_set_net rn c).

(** [endnames] has [cfg.n] entries, and the loop writes [cfg.nmasters] of them. *)
Definition makeClient (names : list string) (c : shconfig) : option (Clerk (End := string) * shconfig) :=
  rn ← open_ends mastername names (sh_net c);
  if decide (length names ≤ sh_n c)%nat then
    let endnames := names ++ replicate (sh_n c - length names) "" in
    Some (MakeClerk names,
      mkShConfig rn (sh_nmasters c) (sh_masterservers c) (sh_mck c) (sh_ngroups c) (sh_n c) (sh_groups c) (<[sh_next c := endnames]> (sh_clerks c))
        (i64 (sh_nextClientId c + 1)) (sh_maxraftstate c) (sh_heap c) (S (sh_next c)))
  else None.

(** The files of the name [os.Remove] takes do not exist. *)
Definition deleteClient (ck : nat) (c : shconfig) : shconfig := sh_set_clerks (delete ck (sh_clerks c)) (sh_next c) c.

Definition disable_all (names : list string) (rn : ShardNetwork) : ShardNetwork := foldl (λ rn name, Enable name false rn) rn names.

(** [gg.saved[i]] becomes a copy, if there is one. *)
Definition copy_persister (o : option nat) (c : shconfig) : option (option nat * shconfig) :=
  match o with
  | None => Some (None, c)
  | Some p => ps ← sh_heap c !! p; let '(p', c) := sh_alloc (Persister_Copy ps) c in Some (Some p', c)
  end.

(** Shutdown i'th server of gi'th group, by isolating it *)
Definition ShutdownServer (gi i : nat) (c : shconfig) : option shconfig :=
  gg ← sh_group gi c;
  names ← sg_endnames gg !! i;
  if decide (length (sg_servers gg) ≤ length names)%nat then
    mnames ← sg_mendnames gg !! i;
    let rn := disable_all mnames (disable_all (take (length (sg_servers gg)) names) (sh_net c)) in
    let c := sh_set_net (DeleteServer (servername (sg_gid gg) i) rn) c in
    saved ← sg_saved gg !! i;
    '(p, c) ← copy_persister saved c;
    if decide (i < length (sg_servers gg))%nat then
      Some (put_group gi (mkGroup (sg_gid gg) (<[i := None]> (sg_servers gg)) (<[i := p]> (sg_saved gg)) (sg_endnames gg) (sg_mendnames gg)) c)
    else None
  else None.

Definition ShutdownGroup (gi : nat) (c : shconfig) : option shconfig := for_each (seq 0 (sh_n c)) (ShutdownServer gi) c.

(** start i'th server in gi'th group; [names] and [mnames] are what randstring returned *)
Definition StartServer (gi i : nat) (names mnames : list string) (c : shconfig) : option shconfig :=
  gg ← sh_group gi c;
  endnames ← set_at i names (sg_endnames gg);
  rn ← open_ends (servername (sg_gid gg)) names (sh_net c);
  mendnames ← set_at i mnames (sg_mendnames gg);
  rn ← open_ends mastername mnames rn;
  saved ← sg_saved gg !! i;
  '(p, c) ← copy_persister saved (sh_set_net rn c);
  let '(p, c) := match p with Some p => (p, c) | None => sh_alloc MakePersister c end in
  let kv := sh_next c in
  servers ← set_at i (Some kv) (sg_servers gg);
  let gg := mkGroup (sg_gid gg) servers (<[i := Some p]> (sg_saved gg)) endnames mendnames in
  Some (put_group gi gg
    (mkShConfig (AddServer (servername (sg_gid gg) i) (S kv) (sh_net c)) (sh_nmasters c) (sh_masterservers c) (sh_mck c) (sh_ngroups c) (sh_n c)
      (sh_groups c) (sh_clerks c) (sh_nextClientId c) (sh_maxraftstate c) (sh_heap c) (S (S kv)))).

Definition StartGroup (gi : nat) (names mnames : nat → list string) (c : shconfig) : option shconfig :=
  for_each (seq 0 (sh_n c)) (λ i, StartServer gi i (names i) (mnames i)) c.

Definition StartMasterServer (i : nat) (names : list string) (c : shconfig) : option shconfig :=
  rn ← open_ends mastername names (sh_net c);
  let '(_, c) := sh_alloc MakePersister (sh_set_net rn c) in
  let sm := sh_next c in
  masters ← set_at i (Some sm) (sh_masterservers c);
  Some (mkShConfig (AddServer (mastername i) (S sm) (sh_net c)) (sh_nmasters c) masters (sh_mck c) (sh_ngroups c) (sh_n c) (sh_groups c) (sh_clerks c)
    (sh_nextClientId c) (sh_maxraftstate c) (sh_heap c) (S (S sm))).

Definition shardclerk (names : list string) (c : shconfig) : option (MasterClerk (End := string) * shconfig) :=
  rn ← open_ends mastername names (sh_net c); Some (MakeMasterClerk names, sh_set_net rn c).

(** check that no server's log is too big: [Some false] is a failed test *)
Definition checklog (maxraftstate : Z) (ps : Persister) : bool :=
  negb ((0 <=? maxraftstate) && (2 * maxraftstate <? RaftStateSize ps)) && negb ((maxraftstate <? 0) && (0 <? SnapshotSize ps)).
Definition checklogs (c : shconfig) : option bool :=
  for_each (seq 0 (sh_ngroups c)) (λ gi ok, for_each (seq 0 (sh_n c)) (λ i (ok : bool),
    if ok then gg ← sh_group gi c; p ← mjoin (sg_saved gg !! i); ps ← sh_heap c !! p; Some (checklog (sh_maxraftstate c) ps) else Some false) ok) true.

(** ** Joining and leaving *)
Definition join_args (gis : list nat) (c : shconfig) : option (gmap Z (list string)) :=
  for_each gis (λ g m, gg ← sh_group g c; Some (<[Z.of_nat (sg_gid gg) := servername (sg_gid gg) <$> seq 0 (sh_n c)]> m)) ∅.
Definition leave_args (gis : list nat) (c : shconfig) : option (list Z) :=
  for_each gis (λ g l, gg ← sh_group g c; Some (l ++ [Z.of_nat (sg_gid gg)])) [].

Section masters.
Context {W : Type} `{!ShardNet W string}.
Definition joinm (fuel : nat) (gis : list nat) (c : shconfig) (w : W) : option (() * W) := m ← join_args gis c; Join fuel (sh_mck c) m w.
Definition join (fuel : nat) (gi : nat) : shconfig → W → option (() * W) := joinm fuel [gi].
Definition leavem (fuel : nat) (gis : list nat) (c : shconfig) (w : W) : option (() * W) := gids ← leave_args gis c; Leave fuel (sh_mck c) gids w.
Definition leave (fuel : nat) (gi : nat) : shconfig → W → option (() * W) := leavem fuel [gi].
End masters.

(** ** make_config and cleanup *)
Definition sh_blank (maxraftstate : Z) : shconfig :=
  mkShConfig MakeNetwork 3 (replicate 3 None) (mkMasterClerk []) 0 0 [] ∅ 0 maxraftstate ∅ 0.
Definition new_group (n nmasters gi : nat) : group :=
  mkGroup (100 + gi) (replicate n None) (replicate n None) (replicate n []) (replicate nmasters []).

(** What randstring returns, by the place where it is called. *)
Record Names := mkNames {
  nm_master : nat → list string;
  nm_clerk : list string;
  nm_server : nat → nat → list string;
  nm_smaster : nat → nat → list string
}.

Definition sh_make_config (n : nat) (unreliable : bool) (maxraftstate : Z) (nm : Names) : option shconfig :=
  c ← for_each (seq 0 3) (λ i, StartMasterServer i (nm_master nm i)) (sh_blank maxraftstate);
  '(mck, c) ← shardclerk (nm_clerk nm) c;
  let c := mkShConfig (sh_net c) (sh_nmasters c) (sh_masterservers c) mck 3 n (replicate 3 None) ∅ 0 maxraftstate (sh_heap c) (sh_next c) in
  c ← for_each (seq 0 3) (λ gi c,
        let c := put_group gi (new_group n (sh_nmasters c) gi) c in
        for_each (seq 0 n) (λ i, StartServer gi i (nm_server nm gi i) (nm_smaster nm gi i)) c) c;
  Some (mkShConfig (Reliable (negb unreliable) (sh_net c)) (sh_nmasters c) (sh_masterservers c) (sh_mck c) (sh_ngroups c) (sh_n c) (sh_groups c) ∅
         (Z.of_nat n + 1000) (sh_maxraftstate c) (sh_heap c) (sh_next c)).

Definition cleanup (c : shconfig) : option shconfig :=
  c ← for_each (seq 0 (sh_ngroups c)) ShutdownGroup c;
  Some (sh_set_net (Cleanup (sh_net c)) c).

(** ** random_handles *)

(** [sa[i], sa[j] = sa[j], sa[i]] *)
Definition swap {A} (i j : nat) (l : list A) : option (list A) := x ← l !! i; y ← l !! j; Some (<[j := x]> (<[i := y]> l)).

(** [pick i] is what rand.Intn(i + 1) returns. *)
Definition random_handles {A} (pick : nat → nat) (kvh : list A) : option (list A) :=
  for_each (seq 0 (length kvh)) (λ i, swap i (pick i)) kvh.

(** ** Names *)
Lemma servername_inj gid i gid' i' : servername gid i = servername gid' i' → gid = gid' ∧ i = i'.
Proof.
  unfold servername. intros E. apply (inj (String.append _)) in E.
  destruct (digits_split _ _ _ _ (proj1 (Itoa_digits gid)) (proj1 (Itoa_digits gid')) E) as [H1 H2]. by apply (inj Itoa) in H1, H2.
Qed.
Lemma mastername_inj i j : mastername i = mastername j → i = j.
Proof. unfold mastername. intros E. apply (inj (String.append _)) in E. by apply (inj Itoa) in E. Qed.
Lemma server_not_master gid i j : servername gid i ≠ mastername j.
Proof. done. Qed.

(** ** Opening ends *)

(** The ends of [lk], a list of names and targets, were opened. *)
Record opened (lk : list (string * string)) (rn rn' : ShardNetwork) : Prop := {
  op_servers : nw_servers rn' = nw_servers rn;
  op_ends : ∀ e, e ∈ nw_ends rn' ↔ e ∈ lk.*1 ∨ e ∈ nw_ends rn;
  op_fresh : ∀ e, e ∈ lk.*1 → e ∉ nw_ends rn;
  op_link : ∀ e t, (e, t) ∈ lk → nw_connections rn' !! e = Some (Some t) ∧ is_enabled rn' e = true;
  op_other : ∀ e, e ∉ lk.*1 → nw_connections rn' !! e = nw_connections rn !! e ∧ is_enabled rn' e = is_enabled rn e
}.

Lemma opened_nil rn : opened [] rn rn.
Proof. split; try done; [intros e; split; [by right|by intros [?%elem_of_nil|?]]|by intros ? ?%elem_of_nil|by intros ?? ?%elem_of_nil]. Qed.

Lemma opened_reliable b rn : opened [] rn (Reliable b rn).
Proof. destruct (opened_nil rn). by split. Qed.

Lemma opened_app lk1 lk2 rn1 rn2 rn3 : opened lk1 rn1 rn2 → opened lk2 rn2 rn3 → opened (lk1 ++ lk2) rn1 rn3.
Proof.
  intros [S1 E1 F1 L1 O1] [S2 E2 F2 L2 O2].
  assert (∀ e, e ∈ lk1.*1 → e ∉ lk2.*1) as Hd. { intros e H1 H2. apply (F2 e H2), E1. by left. }
  split; rewrite ?fmap_app.
  - congruence.
  - intros e. rewrite E2, E1, elem_of_app. tauto.
  - intros e [He|He]%elem_of_app; [by apply F1|]. intros Hn. apply (F2 e He), E1. by right.
  - intros e t [He|He]%elem_of_app; [|by apply L2]. assert (e ∈ lk1.*1) as Hf by (by apply list_elem_of_fmap; exists (e, t)).
    destruct (O2 e (Hd e Hf)) as [-> ->]. by apply L1.
  - intros e [H1 H2]%not_elem_of_app. destruct (O2 e H2) as [-> ->]. by apply O1.
Qed.

Lemma is_enabled_insert (rn : ShardNetwork) e b e' : is_enabled (Enable e b rn) e' = if decide (e' = e) then b else is_enabled rn e'.
Proof.
  unfold is_enabled, Enable, set_enabled. cbn [nw_enabled]. case_decide as Hd; [subst; by rewrite lookup_insert_eq|].
  by rewrite lookup_insert_ne by done.
Qed.

Lemma open_end_opened e t rn rn' : open_end e t rn = Some rn' → opened [(e, t)] rn rn'.
Proof.
  unfold open_end, MakeEnd. case_decide as He; [done|]. cbn. intros [= <-]. split; try done.
  - intros x. cbn. rewrite elem_of_union, elem_of_singleton, list_elem_of_singleton. done.
  - by intros x ->%list_elem_of_singleton.
  - intros x y [= -> ->]%list_elem_of_singleton. split; [by cbn; rewrite lookup_insert_eq|]. rewrite is_enabled_insert. by rewrite decide_True.
  - intros x Hx%not_elem_of_cons. destruct Hx as [Hx _]. split; [cbn; by rewrite !lookup_insert_ne by done|].
    rewrite is_enabled_insert, decide_False by done. unfold is_enabled. cbn. by rewrite lookup_insert_ne by done.
Qed.

(** The links of the names from the [k]th target on. *)
Definition links_from (sname : nat → string) (k : nat) (names : list string) : list (string * string) :=
  (λ '(j, name), (name, sname j)) <$> zip (seq k (length names)) names.

Lemma open_ends_opened sname names rn rn' : open_ends sname names rn = Some rn' → opened (links_from sname 0 names) rn rn'.
Proof.
  unfold open_ends, links_from. generalize (zip (seq 0 (length names)) names) as xs. clear names. intros xs.
  revert rn. induction xs as [|[j name] xs IH]; intros rn; cbn [for_each].
  - intros [= ->]. apply opened_nil.
  - destruct (open_end name (sname j) rn) as [rn1|] eqn:E; [|done]. cbn. intros H2%IH. apply open_end_opened in E.
    exact (opened_app _ _ _ _ _ E H2).
Qed.

Lemma links_from_lookup sname k names j name : names !! j = Some name → (name, sname (k + j)%nat) ∈ links_from sname k names.
Proof.
  intros Hj. apply list_elem_of_fmap. exists ((k + j)%nat, name). split; [done|].
  apply (list_elem_of_lookup_2 _ j). apply lookup_zip_with_Some. exists (k + j)%nat, name. split_and!; [done| |done].
  apply lookup_seq. split; [done|]. by apply lookup_lt_Some in Hj.
Qed.

Lemma links_from_fst sname k names : (links_from sname k names).*1 = names.
Proof.
  unfold links_from. rewrite <- list_fmap_compose. transitivity (zip (seq k (length names)) names).*2.
  - apply list_fmap_ext. by intros ? [? ?] _.
  - apply snd_zip. by rewrite length_seq.
Qed.

Lemma disable_all_spec names rn : ∀ e,
  is_enabled (disable_all names rn) e = (if decide (e ∈ names) then false else is_enabled rn e).
Proof.
  unfold disable_all. revert rn. induction names as [|x names IH]; intros rn e; cbn [foldl].
  - by rewrite decide_False by apply not_elem_of_nil.
  - rewrite IH, is_enabled_insert. destruct (decide (e ∈ names)) as [Hin|Hin].
    + by rewrite decide_True by (by right).
    + destruct (decide (e = x)) as [->|Hne]; [by rewrite decide_True by (by left)|].
      rewrite decide_False; [done|]. by intros [?|?]%elem_of_cons.
Qed.
Lemma disable_all_same names rn : nw_servers (disable_all names rn) = nw_servers rn ∧ nw_ends (disable_all names rn) = nw_ends rn
  ∧ nw_connections (disable_all names rn) = nw_connections rn.
Proof. unfold disable_all. revert rn. induction names as [|x names IH]; intros rn; [done|]. cbn [foldl]. apply (IH (Enable x false rn)). Qed.

(** ** What the harness keeps true *)

(** The running server, if there is one. *)
Definition up (c : shconfig) (gi i : nat) : option nat := g ← sh_group gi c; mjoin (sg_servers g !! i).

(** The ends that the harness gave to a server of a group, with their targets. *)
Definition group_links (g : group) (i : nat) : list (string * string) :=
  links_from (servername (sg_gid g)) 0 (default [] (sg_endnames g !! i)) ++ links_from mastername 0 (default [] (sg_mendnames g !! i)).
Definition links (c : shconfig) (gi i : nat) : list (string * string) :=
  match sh_group gi c with Some g => group_links g i | None => [] end.

(** A group of [n] servers: a running server has an end for every other and for
    every master. *)
Record group_ok (n nmasters gi : nat) (g : group) : Prop := {
  go_gid : sg_gid g = (100 + gi)%nat;
  go_servers : length (sg_servers g) = n;
  go_ends : ∀ i, (length (default [] (sg_endnames g !! i)) ≤ n)%nat;
  go_up : ∀ i kv, sg_servers g !! i = Some (Some kv) →
    length (default [] (sg_endnames g !! i)) = n ∧ length (default [] (sg_mendnames g !! i)) = nmasters
}.

Record routes (c : shconfig) : Prop := {
  rt_group : ∀ gi g, sh_group gi c = Some g → group_ok (sh_n c) (sh_nmasters c) gi g;
  rt_master : ∀ i, server_of (sh_net c) (mastername i) = S <$> mjoin (sh_masterservers c !! i);
  rt_up : ∀ gi i, server_of (sh_net c) (servername (100 + gi) i) = S <$> up c gi i;
  rt_link : ∀ gi i e t, (e, t) ∈ links c gi i →
    e ∈ nw_ends (sh_net c) ∧ nw_connections (sh_net c) !! e = Some (Some t) ∧ is_enabled (sh_net c) e = bool_decide (is_Some (up c gi i));
  rt_own : ∀ gi i gi' i' e, e ∈ (links c gi i).*1 → e ∈ (links c gi' i').*1 → gi = gi' ∧ i = i'
}.

Lemma rt_known c gi i e : routes c → e ∈ (links c gi i).*1 → e ∈ nw_ends (sh_net c).
Proof. intros Hr ([e' t] & -> & He)%list_elem_of_fmap. by eapply rt_link. Qed.

(** Opening more ends changes nothing for the servers. *)
Lemma opened_routes lk rn c c' : routes c → opened lk (sh_net c) rn → sh_net c' = rn →
  sh_groups c' = sh_groups c → sh_n c' = sh_n c → sh_nmasters c' = sh_nmasters c → sh_masterservers c' = sh_masterservers c → routes c'.
Proof.
  intros Hr [S1 E1 F1 L1 O1] <- Hg Hn Hm Hms. assert (∀ gi, sh_group gi c' = sh_group gi c) as Hgr by (intros; unfold sh_group; by rewrite Hg).
  assert (∀ gi i, up c' gi i = up c gi i) as Hup by (intros; unfold up; by rewrite Hgr).
  assert (∀ gi i, links c' gi i = links c gi i) as Hl by (intros; unfold links; by rewrite Hgr).
  assert (∀ sn, server_of (sh_net c') sn = server_of (sh_net c) sn) as Hs by (intros; unfold server_of; by rewrite S1). split.
  - intros gi g. rewrite Hgr, Hn, Hm. apply Hr.
  - intros i. rewrite Hs, Hms. apply Hr.
  - intros gi i. rewrite Hs, Hup. apply Hr.
  - intros gi i e t. rewrite Hl, Hup. intros He. destruct (rt_link c Hr gi i e t He) as (H1 & H2 & H3).
    assert (e ∉ lk.*1) as Hn' by (intros Hn'; by apply (F1 e Hn')). destruct (O1 e Hn') as [-> ->]. split; [apply E1; by right|done].
  - intros gi i gi' i' e. rewrite !Hl. apply Hr.
Qed.

(** *** Replacing a group *)
Lemma sh_group_put gi g c gi' : (gi < length (sh_groups c))%nat →
  sh_group gi' (put_group gi g c) = if decide (gi' = gi) then Some g else sh_group gi' c.
Proof.
  intros Hlt. unfold sh_group, put_group. cbn [sh_set_groups sh_groups]. case_decide as Hd; [subst; by rewrite list_lookup_insert_eq|].
  by rewrite list_lookup_insert_ne.
Qed.

Lemma sh_group_lt gi g c : sh_group gi c = Some g → (gi < length (sh_groups c))%nat.
Proof. unfold sh_group. destruct (sh_groups c !! gi) as [o|] eqn:E; [intros _; by apply lookup_lt_Some in E|done]. Qed.

(** [c'] has the group [g'] at [gi] with server [i] and its ends replaced; the
    network [rn'] knows the new state of that server and nothing else changed. *)
Lemma replace_routes c c' gi i g g' (lk : list (string * string)) (kv : option nat) : routes c → sh_group gi c = Some g →
  (∀ gi', sh_group gi' c' = if decide (gi' = gi) then Some g' else sh_group gi' c) →
  sh_n c' = sh_n c → sh_nmasters c' = sh_nmasters c → sh_masterservers c' = sh_masterservers c →
  group_ok (sh_n c) (sh_nmasters c) gi g' →
  mjoin (sg_servers g' !! i) = kv → (∀ i', i' ≠ i → sg_servers g' !! i' = sg_servers g !! i') →
  group_links g' i = lk → (∀ i', i' ≠ i → group_links g' i' = group_links g i') →
  (∀ sn, server_of (sh_net c') sn = if decide (sn = servername (100 + gi) i) then S <$> kv else server_of (sh_net c) sn) →
  (∀ e t, (e, t) ∈ lk → e ∈ nw_ends (sh_net c') ∧ nw_connections (sh_net c') !! e = Some (Some t)
     ∧ is_enabled (sh_net c') e = bool_decide (is_Some kv)) →
  (∀ e, e ∈ lk.*1 → e ∈ (links c gi i).*1 ∨ e ∉ nw_ends (sh_net c)) →
  (∀ e, e ∈ nw_ends (sh_net c) → e ∉ (links c gi i).*1 → e ∈ nw_ends (sh_net c')
     ∧ nw_connections (sh_net c') !! e = nw_connections (sh_net c) !! e ∧ is_enabled (sh_net c') e = is_enabled (sh_net c) e) →
  routes c'.
Proof.
  intros Hr Hg Hgr Hn Hm Hms Hok Hkv Hsv Hlk Hlo Hs Hnew Hown Hold.
  assert (∀ gi' i', up c' gi' i' = if decide ((gi', i') = (gi, i)) then kv else up c gi' i') as Hup.
  { intros gi' i'. unfold up. rewrite Hgr. destruct (decide (gi' = gi)) as [->|Hne]; cbn.
    - case_decide as Hd; [by injection Hd as ->|]. rewrite Hg. cbn. by rewrite Hsv by congruence.
    - rewrite decide_False by congruence. done. }
  assert (∀ gi' i', links c' gi' i' = if decide ((gi', i') = (gi, i)) then lk else links c gi' i') as Hl.
  { intros gi' i'. unfold links. rewrite Hgr. destruct (decide (gi' = gi)) as [->|Hne].
    - case_decide as Hd; [by injection Hd as ->|]. rewrite Hg. apply Hlo. congruence.
    - rewrite decide_False by congruence. done. }
  assert (∀ gi' i' e, (gi', i') ≠ (gi, i) → e ∈ (links c gi' i').*1 → e ∉ (links c gi i).*1) as Hsep.
  { intros gi' i' e Hne He He'. destruct (rt_own c Hr _ _ _ _ _ He He') as [-> ->]. done. }
  split.
  - intros gi' g0. rewrite Hgr, Hn, Hm. case_decide as Hd; [subst; by intros [= <-]|apply Hr].
  - intros j. rewrite Hs, Hms. rewrite decide_False by (intros E; by apply (server_not_master (100 + gi) i j)). apply Hr.
  - intros gi' i'. rewrite Hs, Hup. destruct (decide (servername (100 + gi') i' = servername (100 + gi) i)) as [E|E].
    + apply servername_inj in E as [E ->]. rewrite decide_True by (f_equal; lia). done.
    + rewrite decide_False by (intros [= -> ->]; done). apply Hr.
  - intros gi' i' e t. rewrite Hl, Hup. case_decide as Hd; [apply Hnew|]. intros He.
    destruct (rt_link c Hr gi' i' e t He) as (H1 & H2 & H3).
    assert (e ∈ (links c gi' i').*1) as Hf by (by apply list_elem_of_fmap; exists (e, t)).
    destruct (Hold e H1 (Hsep _ _ _ Hd Hf)) as (O1 & O2 & O3). rewrite O2, O3. done.
  - assert (∀ gi' i' e, (gi', i') ≠ (gi, i) → e ∈ lk.*1 → e ∈ (links c gi' i').*1 → False) as Hx.
    { intros gi' i' e Hd He He'. destruct (Hown e He) as [Hi|Hi]; [by apply (Hsep gi' i' e Hd He')|]. by apply Hi, (rt_known c gi' i'). }
    intros gi1 i1 gi2 i2 e. rewrite !Hl. destruct (decide ((gi1, i1) = (gi, i))) as [H1|H1], (decide ((gi2, i2) = (gi, i))) as [H2|H2]; intros He1 He2.
    + by injection H1 as -> ->; injection H2 as -> ->.
    + by destruct (Hx gi2 i2 e H2 He1 He2).
    + by destruct (Hx gi1 i1 e H1 He2 He1).
    + by eapply Hr.
Qed.

Lemma set_at_Some {A} i (x : A) l l' : set_at i x l = Some l' → (i < length l)%nat ∧ l' = <[i := x]> l.
Proof. unfold set_at. case_decide; [|done]. by intros [= <-]. Qed.

(** The persister is copied without touching anything else. *)
Lemma copy_same o c p c' : copy_persister o c = Some (p, c') →
  sh_net c' = sh_net c ∧ sh_groups c' = sh_groups c ∧ sh_n c' = sh_n c ∧ sh_nmasters c' = sh_nmasters c ∧ sh_masterservers c' = sh_masterservers c.
Proof. unfold copy_persister. destruct o as [q|]; [|by intros [= <- <-]]. destruct (sh_heap c !! q); [|done]. cbn. by intros [= <- <-]. Qed.

Lemma server_of_set (rn : ShardNetwork) sn x sn' :
  server_of (set_servers (<[sn := x]> (nw_servers rn)) rn) sn' = if decide (sn' = sn) then x else server_of rn sn'.
Proof.
  unfold server_of, set_servers. cbn [nw_servers]. case_decide as Hd; [subst; by rewrite lookup_insert_eq|]. by rewrite lookup_insert_ne by done.
Qed.

Lemma insert_default_ne (l : list (list string)) i x i' : i' ≠ i → default [] (<[i := x]> l !! i') = default [] (l !! i').
Proof. intros Hne. by rewrite list_lookup_insert_ne. Qed.

Lemma start_routes gi i names mnames c c' : routes c → length names = sh_n c → length mnames = sh_nmasters c →
  StartServer gi i names mnames c = Some c' → routes c'.
Proof.
  intros Hr Hln Hlm. unfold StartServer. destruct (sh_group gi c) as [g|] eqn:Eg; [|done]. cbn.
  destruct (set_at i names (sg_endnames g)) as [ens|] eqn:Ee; [|done]. cbn. apply set_at_Some in Ee as [Hi1 ->].
  destruct (open_ends _ names (sh_net c)) as [rn1|] eqn:E1; [|done]. cbn. apply open_ends_opened in E1.
  destruct (set_at i mnames (sg_mendnames g)) as [mens|] eqn:Em; [|done]. cbn. apply set_at_Some in Em as [Hi2 ->].
  destruct (open_ends mastername mnames rn1) as [rn2|] eqn:E2; [|done]. cbn. apply open_ends_opened in E2.
  pose proof (opened_app _ _ _ _ _ E1 E2) as [Os Oe Of Ol Oo]. destruct (sg_saved g !! i) as [sv|]; [|done]. cbn.
  destruct (copy_persister sv (sh_set_net rn2 c)) as [[p c1]|] eqn:Ec; [|done]. cbn. apply copy_same in Ec as (C1 & C2 & C3 & C4 & C5).
  destruct (match p with Some p0 => (p0, c1) | None => sh_alloc MakePersister c1 end) as [p' c2] eqn:Ep.
  assert (sh_net c2 = rn2 ∧ sh_groups c2 = sh_groups c ∧ sh_n c2 = sh_n c ∧ sh_nmasters c2 = sh_nmasters c ∧ sh_masterservers c2 = sh_masterservers c)
    as (D1 & D2 & D3 & D4 & D5) by (destruct p; [|unfold sh_alloc in Ep]; injection Ep as <- <-; by rewrite ?C1, ?C2, ?C3, ?C4, ?C5).
  clear Ep C1 C2 C3 C4 C5. destruct (set_at i (Some (sh_next c2)) (sg_servers g)) as [svs|] eqn:Es; [|done]. cbn.
  apply set_at_Some in Es as [Hi3 ->]. intros [= <-]. pose proof (rt_group c Hr gi g Eg) as [G1 G2 G3 G4].
  eapply (replace_routes c _ gi i g _ _ (Some (sh_next c2)) Hr Eg).
  - intros gi'. rewrite sh_group_put by (cbn [sh_groups]; rewrite D2; by eapply sh_group_lt).
    case_decide; [done|]. unfold sh_group. cbn [sh_groups]. by rewrite D2.
  - done.
  - done.
  - done.
  - split; cbn; [done|by rewrite length_insert| |].
    + intros i'. destruct (decide (i' = i)) as [->|Hne]; [rewrite list_lookup_insert_eq by done; cbn; lia|by rewrite insert_default_ne].
    + intros i' kv. destruct (decide (i' = i)) as [->|Hne]; [by rewrite !list_lookup_insert_eq by done|].
      rewrite !insert_default_ne, list_lookup_insert_ne by done. apply G4.
  - cbn. by rewrite list_lookup_insert_eq.
  - intros i' Hne. cbn. by rewrite list_lookup_insert_ne.
  - unfold group_links. cbn. rewrite !list_lookup_insert_eq by done. reflexivity.
  - intros i' Hne. unfold group_links. cbn. by rewrite !insert_default_ne.
  - intros sn. cbn [put_group sh_set_groups sh_net sg_gid]. unfold AddServer. rewrite server_of_set, D1, G1. case_decide; [done|].
    unfold server_of. by rewrite Os.
  - intros e t He. cbn [put_group sh_set_groups sh_net]. cbn. rewrite D1. split; [|by apply Ol]. apply Oe. left.
    apply list_elem_of_fmap. by exists (e, t).
  - intros e He. right. by apply Of.
  - intros e He _. cbn. rewrite D1. split; [apply Oe; by right|]. apply Oo. intros Hn. by apply (Of e Hn).
Qed.

Lemma shutdown_routes gi i c c' : routes c → ShutdownServer gi i c = Some c' → routes c'.
Proof.
  intros Hr. unfold ShutdownServer. destruct (sh_group gi c) as [g|] eqn:Eg; [|done]. cbn.
  destruct (sg_endnames g !! i) as [names|] eqn:En; [|done]. cbn. case_decide as Hlen; [|done].
  destruct (sg_mendnames g !! i) as [mnames|] eqn:Em; [|done]. cbn. destruct (sg_saved g !! i) as [sv|]; [|done]. cbn.
  destruct (copy_persister sv _) as [[p c1]|] eqn:Ec; [|done]. cbn. apply copy_same in Ec as (C1 & C2 & C3 & C4 & C5). cbn in C1, C2, C3, C4, C5.
  case_decide as Hi; [|done]. intros [= <-]. pose proof (rt_group c Hr gi g Eg) as [G1 G2 G3 G4].
  assert (take (length (sg_servers g)) names = names) as Et. { apply take_ge. specialize (G3 i). rewrite En in G3. cbn in G3. lia. }
  rewrite Et in C1. set (rn := disable_all mnames (disable_all names (sh_net c))) in *.
  assert ((links c gi i).*1 = names ++ mnames) as Hlk.
  { unfold links, group_links. rewrite Eg, En, Em. cbn [default]. by rewrite fmap_app, !links_from_fst. }
  assert (∀ e, is_enabled rn e = if decide (e ∈ (links c gi i).*1) then false else is_enabled (sh_net c) e) as Hen.
  { intros e. unfold rn. rewrite !disable_all_spec, Hlk. destruct (decide (e ∈ mnames)) as [H1|H1].
    - by rewrite decide_True by (apply elem_of_app; by right).
    - destruct (decide (e ∈ names)) as [H2|H2]; [by rewrite decide_True by (apply elem_of_app; by left)|].
      rewrite decide_False; [done|]. by intros [?|?]%elem_of_app. }
  assert (nw_servers rn = nw_servers (sh_net c) ∧ nw_ends rn = nw_ends (sh_net c) ∧ nw_connections rn = nw_connections (sh_net c)) as (R1 & R2 & R3).
  { unfold rn. destruct (disable_all_same mnames (disable_all names (sh_net c))) as (-> & -> & ->). apply disable_all_same. }
  clearbody rn. eapply (replace_routes c _ gi i g _ (links c gi i) None Hr Eg).
  - intros gi'. rewrite sh_group_put by (rewrite C2; by eapply sh_group_lt). case_decide; [done|]. unfold sh_group. by rewrite C2.
  - done.
  - done.
  - done.
  - split; cbn; [done|by rewrite length_insert|done|]. intros i' kv.
    destruct (decide (i' = i)) as [->|Hne]; [by rewrite list_lookup_insert_eq|]. rewrite list_lookup_insert_ne by done. apply G4.
  - cbn. by rewrite list_lookup_insert_eq.
  - intros i' Hne. cbn. by rewrite list_lookup_insert_ne.
  - unfold links. by rewrite Eg.
  - done.
  - intros sn. cbn [put_group sh_set_groups sh_net]. rewrite C1, G1. unfold DeleteServer. rewrite server_of_set. case_decide; [done|].
    unfold server_of. by rewrite R1.
  - intros e t He. destruct (rt_link c Hr gi i e t He) as (H1 & H2 & _). cbn [put_group sh_set_groups sh_net]. rewrite C1. cbn.
    rewrite R2, R3. split_and!; [done|done|]. change (is_enabled rn e = false). rewrite Hen, decide_True; [done|].
    apply list_elem_of_fmap. by exists (e, t).
  - intros e He. by left.
  - intros e He Hne. cbn [put_group sh_set_groups sh_net]. rewrite C1. cbn. rewrite R2, R3. split_and!; [done|done|].
    change (is_enabled rn e = is_enabled (sh_net c) e). by rewrite Hen, decide_False.
Qed.

(** *** make_config *)
Lemma master_routes i names c c' : routes c → StartMasterServer i names c = Some c' → routes c'.
Proof.
  intros Hr. unfold StartMasterServer. destruct (open_ends mastername names (sh_net c)) as [rn|] eqn:E; [|done]. cbn.
  apply open_ends_opened in E. destruct (set_at i _ (sh_masterservers c)) as [ms|] eqn:Em; [|done]. cbn. intros [= <-].
  pose proof (opened_routes _ rn c (sh_set_net rn c) Hr E eq_refl eq_refl eq_refl eq_refl eq_refl) as [H1 H2 H3 H4 H5].
  apply set_at_Some in Em as [Hi ->]. cbn [sh_set_net sh_net sh_masterservers] in *. split; [exact H1| | |exact H4|exact H5].
  - intros j. cbn [sh_net sh_alloc snd]. unfold AddServer. rewrite server_of_set. destruct (decide (mastername j = mastername i)) as [->%mastername_inj|Hne].
    + cbn [sh_masterservers]. by rewrite list_lookup_insert_eq.
    + cbn [sh_masterservers]. rewrite list_lookup_insert_ne by (intros ->; done). apply H2.
  - intros gi j. cbn [sh_net sh_alloc snd]. unfold AddServer. rewrite server_of_set, decide_False by apply server_not_master. apply H3.
Qed.

Lemma blank_routes maxraftstate : routes (sh_blank maxraftstate).
Proof.
  split; [done| |done|by intros ???? ?%elem_of_nil|by intros ????? ?%elem_of_nil].
  intros i. cbn [sh_masterservers sh_blank]. destruct (replicate 3 None !! i) as [o|] eqn:E; [|done]. by apply lookup_replicate in E as [-> _].
Qed.

(** Groups that are not there, or have not been started, have no ends. *)
Lemma idle_routes c c' : routes c → sh_net c' = sh_net c → sh_masterservers c' = sh_masterservers c →
  (∀ gi g, sh_group gi c' = Some g → group_ok (sh_n c') (sh_nmasters c') gi g) →
  (∀ gi i, up c' gi i = up c gi i) → (∀ gi i, links c' gi i = links c gi i) → routes c'.
Proof.
  intros [H1 H2 H3 H4 H5] Hn Hm Hg Hu Hl. split; rewrite ?Hn, ?Hm; [done|done|..].
  - intros gi i. rewrite Hu. apply H3.
  - intros gi i e t. rewrite Hl, Hu. apply H4.
  - intros gi i gi' i' e. rewrite !Hl. apply H5.
Qed.

Lemma replicate_none {A} n (i : nat) : mjoin (replicate n (None : option A) !! i) = None.
Proof. destruct (replicate n None !! i) as [o|] eqn:E; [|done]. by apply lookup_replicate in E as [-> _]. Qed.
Lemma replicate_empty n (i : nat) : default [] (replicate n ([] : list string) !! i) = [].
Proof. destruct (replicate n [] !! i) as [o|] eqn:E; [|done]. by apply lookup_replicate in E as [-> _]. Qed.

Lemma new_group_routes gi c : routes c → sh_group gi c = None → (gi < length (sh_groups c))%nat →
  routes (put_group gi (new_group (sh_n c) (sh_nmasters c) gi) c).
Proof.
  intros Hr Hg Hlt. apply (idle_routes c); try done.
  - intros gi' g. rewrite sh_group_put by done. case_decide as Hd; [subst; intros [= <-]|apply Hr]. split; cbn.
    + done.
    + apply length_replicate.
    + intros i. rewrite replicate_empty. cbn. lia.
    + intros i kv E. by apply lookup_replicate in E as [[=] _].
  - intros gi' i. unfold up. rewrite sh_group_put by done. case_decide as Hd; [subst; rewrite Hg; cbn; apply replicate_none|done].
  - intros gi' i. unfold links. rewrite sh_group_put by done. case_decide as Hd; [subst; rewrite Hg|done].
    unfold group_links. cbn [new_group sg_endnames sg_mendnames sg_gid]. by rewrite !replicate_empty.
Qed.

(** What the operations on servers do not change. *)
Definition same_sizes (c c' : shconfig) : Prop :=
  sh_n c' = sh_n c ∧ sh_nmasters c' = sh_nmasters c ∧ length (sh_groups c') = length (sh_groups c)
  ∧ ∀ gi, sh_group gi c = None → sh_group gi c' = None.

Lemma put_sizes gi g c c' : sh_n c' = sh_n c → sh_nmasters c' = sh_nmasters c → sh_groups c' = sh_groups c → is_Some (sh_group gi c) →
  same_sizes c (put_group gi g c').
Proof.
  intros H1 H2 H3 [g0 Hg]. split_and!; [done|done|cbn; by rewrite length_insert, H3|]. intros gi' Hn.
  rewrite sh_group_put by (rewrite H3; by eapply sh_group_lt). case_decide; [congruence|]. unfold sh_group in *. by rewrite H3.
Qed.

Lemma start_sizes gi i names mnames c c' : StartServer gi i names mnames c = Some c' → same_sizes c c'.
Proof.
  unfold StartServer. destruct (sh_group gi c) as [g|] eqn:Eg; [|done]. cbn.
  destruct (set_at i names _); [|done]. cbn. destruct (open_ends _ names _) as [rn1|]; [|done]. cbn. destruct (set_at i mnames _); [|done]. cbn.
  destruct (open_ends mastername mnames rn1) as [rn2|]; [|done]. cbn. destruct (sg_saved g !! i) as [sv|]; [|done]. cbn.
  destruct (copy_persister sv (sh_set_net rn2 c)) as [[p c1]|] eqn:Ec; [|done]. cbn. apply copy_same in Ec as (_ & C2 & C3 & C4 & _).
  destruct p as [p|]; cbn; (destruct (set_at i _ (sg_servers g)); [|done]); cbn; intros [= <-]; by apply put_sizes.
Qed.

Lemma same_sizes_trans c1 c2 c3 : same_sizes c1 c2 → same_sizes c2 c3 → same_sizes c1 c3.
Proof. intros (A1 & A2 & A3 & A4) (B1 & B2 & B3 & B4). split_and!; [congruence|congruence|congruence|auto]. Qed.

Lemma start_loop gi xs (names mnames : nat → list string) c c' : routes c → (∀ i, length (names i) = sh_n c) → (∀ i, length (mnames i) = sh_nmasters c) →
  for_each xs (λ i, StartServer gi i (names i) (mnames i)) c = Some c' → routes c' ∧ same_sizes c c'.
Proof.
  revert c. induction xs as [|i xs IH]; intros c Hr Hn Hm; cbn [for_each]; [by intros [= <-]|].
  destruct (StartServer gi i (names i) (mnames i) c) as [c1|] eqn:E; [|done]. cbn. intros E'. pose proof (start_sizes _ _ _ _ _ _ E) as Hs.
  pose proof Hs as (S1 & S2 & _). destruct (IH c1) as [Hr' Hs'];
    [by eapply start_routes|intros; by rewrite Hn, S1|intros; by rewrite Hm, S2|done|]. split; [done|by eapply same_sizes_trans].
Qed.

Lemma group_loop n xs (nm : Names) c c' : routes c → sh_n c = n → (∀ gi i, length (nm_server nm gi i) = n) → (∀ gi i, length (nm_smaster nm gi i) = sh_nmasters c) →
  NoDup xs → (∀ gi, gi ∈ xs → sh_group gi c = None ∧ (gi < length (sh_groups c))%nat) →
  for_each xs (λ gi c, let c := put_group gi (new_group n (sh_nmasters c) gi) c in
    for_each (seq 0 n) (λ i, StartServer gi i (nm_server nm gi i) (nm_smaster nm gi i)) c) c = Some c' → routes c'.
Proof.
  revert c. induction xs as [|gi xs IH]; intros c Hr Hn H1 H2 Hnd Hx; cbn [for_each]; [by intros [= <-]|].
  destruct (Hx gi ltac:(by left)) as [Hg Hlt]. set (c0 := put_group gi (new_group n (sh_nmasters c) gi) c).
  assert (routes c0) as Hr0 by (unfold c0; rewrite <- Hn; by apply new_group_routes).
  destruct (for_each (seq 0 n) _ c0) as [c1|] eqn:E; [|done]. cbn. apply NoDup_cons in Hnd as [Hni Hnd].
  destruct (start_loop gi (seq 0 n) (nm_server nm gi) (nm_smaster nm gi) c0 c1 Hr0) as [Hr1 (S1 & S2 & S3 & S4)];
    [intros; by rewrite H1, <- Hn|intros; by rewrite H2|exact E|].
  apply IH; [done|by rewrite S1|done|intros; by rewrite H2, S2|done|]. intros gi' Hgi. destruct (Hx gi' ltac:(by right)) as [Hg' Hlt']. split.
  - apply S4. unfold c0. rewrite sh_group_put by done. rewrite decide_False by (intros ->; done). done.
  - rewrite S3. unfold c0. cbn. by rewrite length_insert.
Qed.

(** The names come in the numbers the loops ask for. *)
Record names_ok (n : nat) (nm : Names) : Prop := {
  no_server : ∀ gi i, length (nm_server nm gi i) = n;
  no_smaster : ∀ gi i, length (nm_smaster nm gi i) = 3%nat
}.

Lemma masters_loop xs (nm : Names) c c' : routes c → sh_nmasters c = 3%nat → sh_groups c = [] →
  for_each xs (λ i, StartMasterServer i (nm_master nm i)) c = Some c' → routes c' ∧ sh_nmasters c' = 3%nat ∧ sh_groups c' = [].
Proof.
  intros Hr Hm Hg. apply (for_each_inv (λ c, routes c ∧ sh_nmasters c = 3%nat ∧ sh_groups c = [])); [|done].
  intros i c1 c2 _ (Hr1 & Hm1 & Hg1) E. split; [by eapply master_routes|]. revert E. unfold StartMasterServer.
  destruct (open_ends _ _ _); [|done]. cbn. destruct (set_at _ _ _); [|done]. cbn. by intros [= <-].
Qed.

Lemma make_config_routes n unreliable maxraftstate nm c : names_ok n nm → sh_make_config n unreliable maxraftstate nm = Some c → routes c.
Proof.
  intros [N1 N2]. unfold sh_make_config. destruct (for_each (seq 0 3) _ (sh_blank maxraftstate)) as [c1|] eqn:E1; [|done]. cbn [mbind option_bind].
  apply masters_loop in E1 as (Hr1 & Hm1 & Hg1); [|apply blank_routes|done|done].
  unfold shardclerk. destruct (open_ends mastername (nm_clerk nm) (sh_net c1)) as [rn|] eqn:E2; [|done]. cbn [mbind option_bind]. apply open_ends_opened in E2.
  pose proof (opened_routes _ rn c1 (sh_set_net rn c1) Hr1 E2 eq_refl eq_refl eq_refl eq_refl eq_refl) as Hr2.
  cbn [sh_set_net sh_net sh_nmasters sh_masterservers sh_heap sh_next].
  set (c3 := mkShConfig _ _ _ _ _ _ _ _ _ _ _ _). assert (∀ gi, sh_group gi c3 = None) as Hg3 by (intros gi; apply replicate_none).
  assert (∀ gi, sh_group gi (sh_set_net rn c1) = None) as Hg2 by (intros gi; unfold sh_group; cbn; by rewrite Hg1).
  assert (routes c3) as Hr3.
  { apply (idle_routes (sh_set_net rn c1)); [done|done|done|intros gi g; by rewrite Hg3|..]; intros gi i; [unfold up|unfold links]; by rewrite Hg3, Hg2. }
  destruct (for_each (seq 0 3) _ c3) as [c4|] eqn:E4; [|done]. cbn [mbind option_bind]. intros [= <-].
  eapply (group_loop n (seq 0 3) nm c3 c4) in E4; [|done|done|done|intros; rewrite N2; by rewrite <- Hm1|apply NoDup_seq|].
  - by apply (opened_routes [] (Reliable (negb unreliable) (sh_net c4)) c4 _ E4 (opened_reliable _ _)).
  - intros gi Hgi%elem_of_seq. split; [apply Hg3|]. change (length (sh_groups c3)) with 3%nat. lia.
Qed.

(** ** Runs of the harness *)
Inductive SLabel :=
| SStart (gi i : nat) (names mnames : list string)
| SShutdown (gi i : nat)
| SMakeClient (names : list string)
| SDeleteClient (ck : nat)
| SMakeEnd (name sn : string).

Definition sstep (l : SLabel) (c : shconfig) : option shconfig :=
  match l with
  | SStart gi i names mnames =>
      if decide (length names = sh_n c ∧ length mnames = sh_nmasters c) then StartServer gi i names mnames c else None
  | SShutdown gi i => ShutdownServer gi i c
  | SMakeClient names => if decide (length names = sh_nmasters c) then snd <$> makeClient names c else None
  | SDeleteClient ck => Some (deleteClient ck c)
  | SMakeEnd name sn => harness_make_end name sn c
  end.
Definition srun (ls : list SLabel) (c : shconfig) : option shconfig := for_each ls sstep c.

Lemma sstep_routes l c c' : routes c → sstep l c = Some c' → routes c'.
Proof.
  intros Hr. destruct l as [gi i names mnames|gi i|names|ck|name sn]; cbn [sstep].
  - case_decide as Hd; [|done]. destruct Hd. by apply start_routes.
  - by apply shutdown_routes.
  - case_decide; [|done]. unfold makeClient. destruct (open_ends mastername names (sh_net c)) as [rn|] eqn:E; [|done]. cbn.
    case_decide; [|done]. cbn. intros [= <-]. apply open_ends_opened in E. by apply (opened_routes _ rn c _ Hr E).
  - intros [= <-]. by apply (opened_routes [] (sh_net c) c); [|apply opened_nil|..].
  - unfold harness_make_end. destruct (open_end name sn (sh_net c)) as [rn|] eqn:E; [|done]. cbn. intros [= <-].
    apply open_end_opened in E. by apply (opened_routes _ rn c _ Hr E).
Qed.

(** What a call on an end of the network would meet: [to] and its server. *)
Definition reaches (rn : ShardNetwork) (e sn : string) (server : option nat) : Prop :=
  ReadEndnameInfo rn e = (true, Some sn, server, nw_reliable rn, nw_longReordering rn).

Lemma link_reaches c gi i e t kv : routes c → (e, t) ∈ links c gi i → up c gi i = Some kv → reaches (sh_net c) e t (server_of (sh_net c) t).
Proof.
  intros Hr Hl Hu. destruct (rt_link c Hr gi i e t Hl) as (_ & H2 & H3). unfold reaches, ReadEndnameInfo. rewrite H3, Hu, H2. done.
Qed.

Lemma up_lookup c gi g i kv : sh_group gi c = Some g → up c gi i = Some kv → sg_servers g !! i = Some (Some kv).
Proof. unfold up. intros ->. cbn. destruct (sg_servers g !! i) as [[?|]|]; cbn; congruence. Qed.

(** C21. After make_config and any sequence of starts, shutdowns, new clients and new
    ends, the network is wired as the harness means it: a running server has an
    end to every server of its group and to every master, which reaches the
    instance that runs now; a server that was shut down is reached by no one and
    all the ends it was started with are disabled; and an end that a clerk makes
    for a server's name reaches the instance that runs under that name. *)
Theorem shard_routes n unreliable maxraftstate nm ls c0 c gi g i : names_ok n nm →
  sh_make_config n unreliable maxraftstate nm = Some c0 → srun ls c0 = Some c → sh_group gi c = Some g →
  match up c gi i with
  | Some _ => (∀ j, (j < sh_n c)%nat → ∃ names e, sg_endnames g !! i = Some names ∧ names !! j = Some e
                  ∧ reaches (sh_net c) e (servername (sg_gid g) j) (S <$> up c gi j))
              ∧ (∀ j, (j < sh_nmasters c)%nat → ∃ names e, sg_mendnames g !! i = Some names ∧ names !! j = Some e
                  ∧ reaches (sh_net c) e (mastername j) (S <$> mjoin (sh_masterservers c !! j)))
  | None => server_of (sh_net c) (servername (sg_gid g) i) = None ∧ ∀ e, e ∈ (group_links g i).*1 → is_enabled (sh_net c) e = false
  end
  ∧ ∀ name c', harness_make_end name (servername (sg_gid g) i) c = Some c' → reaches (sh_net c') name (servername (sg_gid g) i) (S <$> up c gi i).
Proof.
  intros Hnm Hmk Hrun Hg. assert (routes c) as Hr.
  { apply (for_each_inv routes sstep ls c0 c); [intros l c1 c2 _; apply sstep_routes|by eapply make_config_routes|done]. }
  pose proof (rt_group c Hr gi g Hg) as [G1 G2 G3 G4]. assert (links c gi i = group_links g i) as Hl by (unfold links; by rewrite Hg).
  split.
  - destruct (up c gi i) as [kv|] eqn:Eu.
    + destruct (G4 i kv (up_lookup _ _ _ _ _ Hg Eu)) as [L1 L2]. split; intros j Hj.
      * destruct (sg_endnames g !! i) as [names|] eqn:En; cbn in L1; [|lia]. destruct (lookup_lt_is_Some_2 names j ltac:(lia)) as [e He].
        exists names, e. split_and!; [done|done|]. rewrite <- (rt_up c Hr), <- G1. apply (link_reaches c gi i _ _ kv); [done| |done].
        rewrite Hl. apply elem_of_app. left. rewrite En. by apply (links_from_lookup _ 0).
      * destruct (sg_mendnames g !! i) as [names|] eqn:En; cbn in L2; [|lia]. destruct (lookup_lt_is_Some_2 names j ltac:(lia)) as [e He].
        exists names, e. split_and!; [done|done|]. rewrite <- (rt_master c Hr). apply (link_reaches c gi i _ _ kv); [done| |done].
        rewrite Hl. apply elem_of_app. right. rewrite En. by apply (links_from_lookup _ 0).
    + split; [by rewrite G1, (rt_up c Hr), Eu|]. intros e ([e' t] & -> & He)%list_elem_of_fmap. rewrite <- Hl in He.
      cbn [fst]. destruct (rt_link c Hr gi i e' t He) as (_ & _ & ->). by rewrite Eu.
  - intros name c'. unfold harness_make_end. destruct (open_end name _ (sh_net c)) as [rn|] eqn:E; [|done]. cbn. intros [= <-].
    apply open_end_opened in E as [Os _ _ Ol _]. cbn [sh_set_net sh_net]. destruct (Ol name (servername (sg_gid g) i) ltac:(by left)) as [O1 O2].
    unfold reaches, ReadEndnameInfo. rewrite O1, O2. cbn. unfold server_of at 1. rewrite Os. fold (server_of (sh_net c) (servername (sg_gid g) i)).
    rewrite G1. by rewrite (rt_up c Hr gi i).
Qed.

(** ** random_handles *)
Lemma swap_perm {A} i j (l l' : list A) : swap i j l = Some l' → l' ≡ₚ l.
Proof.
  unfold swap. destruct (l !! i) as [x|] eqn:Ei; [|done]. cbn. destruct (l !! j) as [y|] eqn:Ej; [|done]. cbn. intros [= <-].
  destruct (decide (i = j)) as [->|Hne].
  { assert (x = y) as -> by congruence. by rewrite !list_insert_id by (rewrite ?list_insert_id; done). }
  pose proof (lookup_lt_Some _ _ _ Ei). pose proof (lookup_lt_Some _ _ _ Ej).
  apply (Permutation_inj _ _). split; [by rewrite !length_insert|].
  exists (λ k, if decide (k = i) then j else if decide (k = j) then i else k). split.
  - intros a b. repeat case_decide; subst; congruence.
  - intros k. destruct (decide (k = j)) as [->|Hkj].
    + rewrite list_lookup_insert_eq by (by rewrite length_insert). by rewrite decide_False by done.
    + rewrite list_lookup_insert_ne by done. destruct (decide (k = i)) as [->|Hki]; [by rewrite list_lookup_insert_eq|].
      by rewrite list_lookup_insert_ne.
Qed.

(** The handles in another order: none is lost and the index is never out of range. *)
Lemma random_handles_perm {A} pick (kvh : list A) : (∀ i, (pick i ≤ i)%nat) → ∃ sa, random_handles pick kvh = Some sa ∧ sa ≡ₚ kvh.
Proof.
  intros Hp. unfold random_handles. assert (∀ xs (l : list A), (∀ i, i ∈ xs → (i < length l)%nat) → ∃ sa, for_each xs (λ i, swap i (pick i)) l = Some sa ∧ sa ≡ₚ l) as H.
  { induction xs as [|i xs IH]; intros l Hi; cbn [for_each]; [by exists l|].
    pose proof (Hi i ltac:(by left)) as Hlt. destruct (swap i (pick i) l) as [l1|] eqn:E.
    - apply swap_perm in E. destruct (IH l1) as (sa & Hsa & Hperm); [intros k Hk; rewrite E; apply Hi; by right|].
      exists sa. split; [done|]. by rewrite Hperm.
    - unfold swap in E. specialize (Hp i). destruct (lookup_lt_is_Some_2 l i Hlt) as [x Hx]. rewrite Hx in E. cbn in E.
      destruct (lookup_lt_is_Some_2 l (pick i) ltac:(lia)) as [y Hy]. by rewrite Hy in E. }
  apply H. intros i ?%elem_of_seq. lia.
Qed.

(** ** Examples *)
Definition named (prefix : string) (n : nat) : list string := (λ j, prefix +:+ Itoa j) <$> seq 0 n.
Definition demo_names (n : nat) : Names :=
  mkNames (λ i, named ("m" +:+ Itoa i +:+ "-") 3) (named "k" 3) (λ gi i, named ("s" +:+ Itoa gi +:+ "-" +:+ Itoa i +:+ "-") n)
    (λ gi i, named ("t" +:+ Itoa gi +:+ "-" +:+ Itoa i +:+ "-") 3).
Lemma demo_names_ok n : names_ok n (demo_names n).
Proof. split; intros; cbn [demo_names nm_server nm_smaster]; unfold named; by rewrite length_fmap, length_seq. Qed.

Definition present {A} (o : option A) : bool := match o with Some _ => true | None => false end.
Lemma present_default {A} (d : A) o : present o = true → o = Some (default d o).
Proof. by destruct o. Qed.

Definition conf_of (n : nat) : shconfig := default (sh_blank (-1)) (sh_make_config n false (-1) (demo_names n)).
Definition restart_one : list SLabel := [SShutdown 1 2; SMakeClient (named "c" 3); SStart 1 2 (named "r" 3) (named "q" 3); SShutdown 0 1].
Definition after_restart : shconfig := default (sh_blank (-1)) (srun restart_one (conf_of 3)).

Lemma shard_routes_witness :
  (∀ j, (j < 3)%nat → ∃ g names e, sh_group 1 after_restart = Some g ∧ sg_endnames g !! 2%nat = Some names ∧ names !! j = Some e
     ∧ reaches (sh_net after_restart) e (servername 101 j) (S <$> up after_restart 1 j))
  ∧ server_of (sh_net after_restart) (servername 100 1) = None.
Proof.
  assert (sh_make_config 3 false (-1) (demo_names 3) = Some (conf_of 3)) as E0 by (apply present_default; vm_compute; reflexivity).
  assert (srun restart_one (conf_of 3) = Some after_restart) as E1 by (apply present_default; vm_compute; reflexivity). split.
  - assert (∃ g, sh_group 1 after_restart = Some g ∧ sg_gid g = 101%nat) as (g & Hg & Hid) by (eexists; split; [vm_compute; reflexivity|reflexivity]).
    assert (∃ kv, up after_restart 1 2 = Some kv) as [kv Hu] by (eexists; vm_compute; reflexivity).
    pose proof (shard_routes 3 false (-1) (demo_names 3) restart_one _ _ 1 g 2 (demo_names_ok 3) E0 E1 Hg) as [H _]. rewrite Hu in H.
    intros j Hj. assert (sh_n after_restart = 3%nat) as Hn by (vm_compute; reflexivity). rewrite Hn in H. destruct (proj1 H j Hj) as (names & e & He).
    rewrite Hid in He. exists g, names, e. exact (conj Hg He).
  - assert (∃ g, sh_group 0 after_restart = Some g ∧ sg_gid g = 100%nat) as (g & Hg & Hid) by (eexists; split; [vm_compute; reflexivity|reflexivity]).
    assert (up after_restart 0 1 = None) as Hu by (vm_compute; reflexivity).
    pose proof (shard_routes 3 false (-1) (demo_names 3) restart_one _ _ 0 g 1 (demo_names_ok 3) E0 E1 Hg) as [H _]. rewrite Hu, Hid in H. exact (proj1 H).
Defined.

(** [mendnames] has an entry per master, not per server: a group of more than
    three servers cannot be started. *)
Example four_servers_panic : sh_make_config 4 false (-1) (demo_names 4) = None.
Proof. vm_compute. reflexivity. Qed.

(** [endnames] of a client has an entry per server, not per master: with fewer
    than three servers per group no client can be made. *)
Example two_servers_no_client : present (sh_make_config 2 false (-1) (demo_names 2)) = true ∧ makeClient (named "c" 3) (conf_of 2) = None.
Proof. split; vm_compute; reflexivity. Qed.

(** An end that a server made itself, to call another group, is still enabled
    after the server was shut down to prevent it from sending. *)
Example shutdown_still_sends :
  (λ c, is_enabled (sh_net c) "x") <$> srun [SMakeEnd "x" (servername 102 0); SShutdown 0 0] (conf_of 3) = Some true.
Proof. vm_compute. reflexivity. Qed.
