(* ===== verification/SmConfig.v ===== *)
(** SmConfig: the harness of the shard master, and that it is the one of kvraft.

    Source: lab4-mapreduce/src/shardmaster/config.go, with the counters that
    kvraft/config.go has besides.

    The two harnesses were written as copies of each other.  [as_kv] forgets the
    difference (a shard master has no bound on its log), and every run of the one
    is a run of the other, panics included; the theorems of KvConfig.v therefore
    hold of this harness. *)
From Stdlib Require Import ZArith Lia Strings.Byte.
From stdpp Require Import gmap strings list.
From S2P Require Import Prelude.
From S2P Require Import LabRpc.
From S2P Require Import RaftConfig.
From S2P Require Import KvConfig.
Open Scope Z_scope.

(** [sm_saved] holds pointers into [sm_heap]; [sm_next] is the next pointer,
    server and clerk. *)
Record smconfig := mkSmConfig {
  sm_net : RaftNet;
  sm_n : nat;
  sm_servers : list (option nat);
  sm_saved : list (option nat);
  sm_endnames : list (option (list string));
  sm_clerks : gmap nat (list string);
  sm_nextClientId : Z;
  sm_heap : gmap nat Persister;
  sm_next : nat
}.

Definition sm_set_net (rn : RaftNet) (c : smconfig) : smconfig :=
  mkSmConfig rn (sm_n c) (sm_servers c) (sm_saved c) (sm_endnames c) (sm_clerks c) (sm_nextClientId c) (sm_heap c) (sm_next c).

(** [cfg.saved[i] = p] for a new persister with the contents [ps] *)
Definition sm_save_new (i : nat) (ps : Persister) (c : smconfig) : smconfig :=
  mkSmConfig (sm_net c) (sm_n c) (sm_servers c) (<[i := Some (sm_next c)]> (sm_saved c)) (sm_endnames c) (sm_clerks c) (sm_nextClientId c)
    (<[sm_next c := ps]> (sm_heap c)) (S (sm_next c)).
Definition sm_set_server (i : nat) (sv : option nat) (c : smconfig) : smconfig :=
  mkSmConfig (sm_net c) (sm_n c) (<[i := sv]> (sm_servers c)) (sm_saved c) (sm_endnames c) (sm_clerks c) (sm_nextClientId c) (sm_heap c) (sm_next c).

Definition sm_persister (i : nat) (c : smconfig) : option Persister := p ← mjoin (sm_saved c !! i); sm_heap c !! p.

(** [cfg.net.Enable(cfg.endnames[i][j], b)] *)
Definition sm_switch (c : smconfig) (b : bool) (i j : nat) (rn : RaftNet) : option RaftNet :=
  l ← mjoin (sm_endnames c !! i); e ← l !! j; Some (Enable e b rn).

(** attach server i to servers listed in to *)
Definition sm_connectUnlocked (i : nat) (to : list nat) (c : smconfig) : option smconfig :=
  rn ← for_each to (λ j, sm_switch c true i j) (sm_net c);
  rn ← for_each to (λ j, sm_switch c true j i) rn;
  Some (sm_set_net rn c).

(** detach server i from the servers listed in from *)
Definition sm_disconnectUnlocked (i : nat) (from : list nat) (c : smconfig) : option smconfig :=
  rn ← for_each from (λ x rn, l ← sm_endnames c !! i; match l with None => Some rn | Some _ => sm_switch c false i x rn end) (sm_net c);
  rn ← for_each (zip (seq 0 (length from)) from)
         (λ '(j, x) rn, l ← sm_endnames c !! j; match l with None => Some rn | Some _ => sm_switch c false x i rn end) rn;
  Some (sm_set_net rn c).

Definition sm_All (c : smconfig) : list nat := seq 0 (sm_n c).
Definition sm_ConnectAll (c : smconfig) : option smconfig := for_each (sm_All c) (λ i c, sm_connectUnlocked i (sm_All c) c) c.

(** Sets up 2 partitions with connectivity between servers in each partition. *)
Definition sm_partition (p1 p2 : list nat) (c : smconfig) : option smconfig :=
  c ← for_each p1 (λ i c, c ← sm_disconnectUnlocked i p2 c; sm_connectUnlocked i p1 c) c;
  for_each p2 (λ i c, c ← sm_disconnectUnlocked i p1 c; sm_connectUnlocked i p2 c) c.

(** Both directions of a clerk's switch: [cfg.clerks[ck]] is empty for a clerk that
    was deleted, and an index out of range panics. *)
Definition sm_switch_client (b : bool) (ck : nat) (to : list nat) (c : smconfig) : option smconfig :=
  let endnames := default [] (sm_clerks c !! ck) in
  rn ← for_each to (λ j rn, s ← endnames !! j; Some (Enable s b rn)) (sm_net c);
  Some (sm_set_net rn c).
Definition sm_ConnectClient : nat → list nat → smconfig → option smconfig := sm_switch_client true.
Definition sm_DisconnectClient : nat → list nat → smconfig → option smconfig := sm_switch_client false.

(** [names] is what randstring returned; the new clerk is a pointer. *)
Definition sm_makeClient (names : list string) (to : list nat) (c : smconfig) : option (nat * smconfig) :=
  rn ← fresh_ends names (sm_net c);
  let ck := sm_next c in
  c ← sm_ConnectClient ck to
        (mkSmConfig rn (sm_n c) (sm_servers c) (sm_saved c) (sm_endnames c) (<[ck := names]> (sm_clerks c)) (i64 (sm_nextClientId c + 1)) (sm_heap c) (S ck));
  Some (ck, c).

Definition sm_deleteClient (ck : nat) (c : smconfig) : smconfig :=
  mkSmConfig (sm_net c) (sm_n c) (sm_servers c) (sm_saved c) (sm_endnames c) (delete ck (sm_clerks c)) (sm_nextClientId c) (sm_heap c) (sm_next c).

(** Shutdown a server by isolating it; Kill has no effect here. *)
Definition sm_ShutdownServer (i : nat) (c : smconfig) : option smconfig :=
  c ← sm_disconnectUnlocked i (sm_All c) c;
  let c := sm_set_net (DeleteServer i (sm_net c)) c in
  _ ← sm_saved c !! i;
  let c := match sm_persister i c with Some ps => sm_save_new i (Persister_Copy ps) c | None => c end in
  Some (sm_set_server i None c).

(** If restart servers, first call ShutdownServer *)
Definition sm_StartServer (i : nat) (names : list string) (c : smconfig) : option smconfig :=
  _ ← sm_endnames c !! i;
  rn ← fresh_ends names (sm_net c);
  let c := mkSmConfig rn (sm_n c) (sm_servers c) (sm_saved c) (<[i := Some names]> (sm_endnames c)) (sm_clerks c) (sm_nextClientId c) (sm_heap c) (sm_next c) in
  let c := match sm_persister i c with Some ps => sm_save_new i (Persister_Copy ps) c | None => sm_save_new i MakePersister c end in
  let sv := sm_next c in
  let c := sm_set_server i (Some sv) c in
  Some (mkSmConfig (AddServer i (S sv) (sm_net c)) (sm_n c) (sm_servers c) (sm_saved c) (sm_endnames c) (sm_clerks c) (sm_nextClientId c) (sm_heap c) (S (S sv))).

(** Maximum log size across all servers *)
Definition sm_LogSize (c : smconfig) : option Z :=
  for_each (sm_All c) (λ i logsize, ps ← sm_persister i c; let n := RaftStateSize ps in Some (if logsize <? n then n else logsize)) 0.

Definition sm_cleanup (c : smconfig) : smconfig := sm_set_net (Cleanup (sm_net c)) c.

(** [says sv] is what Raft of the server [sv] answers to GetState; a server that was
    shut down makes the harness panic. *)
Fixpoint sm_first_leader (says : nat → bool) (c : smconfig) (all : list nat) : option (bool * nat) :=
  match all with
  | [] => Some (false, 0%nat)
  | i :: all => sv ← mjoin (sm_servers c !! i); if says sv then Some (true, i) else sm_first_leader says c all
  end.
Definition sm_Leader (says : nat → bool) (c : smconfig) : option (bool * nat) := sm_first_leader says c (sm_All c).

(** Partition servers into 2 groups and put current leader in minority *)
Definition sm_make_partition (says : nat → bool) (c : smconfig) : option (list nat * list nat) :=
  '(_, l) ← sm_Leader says c;
  '(p1, p2, _) ← for_each (sm_All c) (place l) (replicate (sm_n c / 2 + 1) 0%nat, replicate (sm_n c / 2) 0%nat, 0%nat);
  match length p2 with
  | O => None
  | S k => p2' ← store_at k l p2; Some (p1, p2')
  end.

Definition sm_blank (n : nat) : smconfig :=
  mkSmConfig MakeNetwork n (replicate n None) (replicate n None) (replicate n None) ∅ (Z.of_nat n + 1000) ∅ 0.
Definition sm_make_config (n : nat) (unreliable : bool) (names : nat → list string) : option smconfig :=
  c ← for_each (seq 0 n) (λ i c, sm_StartServer i (names i) c) (sm_blank n);
  c ← sm_ConnectAll c;
  Some (sm_set_net (Reliable (negb unreliable) (sm_net c)) c).

(** ** Runs of the two harnesses *)
Inductive HLabel :=
| HConnect (i : nat) (to : list nat)
| HDisconnect (i : nat) (from : list nat)
| HConnectAll
| HPartition (p1 p2 : list nat)
| HMakeClient (names : list string) (to : list nat)
| HDeleteClient (ck : nat)
| HConnectClient (ck : nat) (to : list nat)
| HDisconnectClient (ck : nat) (from : list nat)
| HShutdown (i : nat)
| HStart (i : nat) (names : list string).

Definition sm_hstep (l : HLabel) (c : smconfig) : option smconfig :=
  match l with
  | HConnect i to => sm_connectUnlocked i to c
  | HDisconnect i from => sm_disconnectUnlocked i from c
  | HConnectAll => sm_ConnectAll c
  | HPartition p1 p2 => sm_partition p1 p2 c
  | HMakeClient names to => snd <$> sm_makeClient names to c
  | HDeleteClient ck => Some (sm_deleteClient ck c)
  | HConnectClient ck to => sm_ConnectClient ck to c
  | HDisconnectClient ck from => sm_DisconnectClient ck from c
  | HShutdown i => sm_ShutdownServer i c
  | HStart i names => sm_StartServer i names c
  end.
Definition kv_hstep (l : HLabel) (c : kvconfig) : option kvconfig :=
  match l with
  | HConnect i to => connectUnlocked i to c
  | HDisconnect i from => disconnectUnlocked i from c
  | HConnectAll => ConnectAll c
  | HPartition p1 p2 => partition p1 p2 c
  | HMakeClient names to => snd <$> makeClient names to c
  | HDeleteClient ck => Some (deleteClient ck c)
  | HConnectClient ck to => ConnectClientUnlocked ck to c
  | HDisconnectClient ck from => DisconnectClientUnlocked ck from c
  | HShutdown i => ShutdownServer i c
  | HStart i names => StartServer i names c
  end.

(** The servers are started with [n] names. *)
Definition label_ok (n : nat) (l : HLabel) : Prop := match l with HStart _ names => length names = n | _ => True end.

(** ** The simulation *)
Definition as_kv (c : smconfig) : kvconfig :=
  mkKvConfig (sm_net c) (sm_n c) (sm_servers c) (sm_saved c) (sm_endnames c) (sm_clerks c) (sm_nextClientId c) (-1) (sm_heap c) (sm_next c).

Lemma for_each_map {A S1 S2} (h : S1 → S2) (f : A → S1 → option S1) (g : A → S2 → option S2) xs s :
  (∀ x s, g x (h s) = h <$> f x s) → for_each xs g (h s) = h <$> for_each xs f s.
Proof.
  intros Hfg. revert s. induction xs as [|x xs IH]; intros s; [done|]. cbn [for_each]. rewrite Hfg. by destruct (f x s); cbn.
Qed.
Lemma for_each_ext {A St} (f g : A → St → option St) xs s : (∀ x s, f x s = g x s) → for_each xs f s = for_each xs g s.
Proof. intros Hfg. revert s. induction xs as [|x xs IH]; intros s; [done|]. cbn [for_each]. rewrite Hfg. by destruct (g x s); cbn. Qed.

Lemma switch_same c b i j rn : switch (as_kv c) b i j rn = sm_switch c b i j rn.
Proof. unfold switch, kv_end, sm_switch. cbn. by destruct (mjoin (sm_endnames c !! i)). Qed.

Lemma connect_same i to c : connectUnlocked i to (as_kv c) = as_kv <$> sm_connectUnlocked i to c.
Proof.
  unfold connectUnlocked, sm_connectUnlocked. cbn [kc_net as_kv]. rewrite (for_each_ext _ (λ j, sm_switch c true i j)) by (intros; apply switch_same).
  destruct (for_each to _ (sm_net c)) as [rn|]; [|done]. cbn. rewrite (for_each_ext _ (λ j, sm_switch c true j i)) by (intros; apply switch_same).
  by destruct (for_each to _ rn).
Qed.

Lemma disconnect_same i from c : disconnectUnlocked i from (as_kv c) = as_kv <$> sm_disconnectUnlocked i from c.
Proof.
  unfold disconnectUnlocked, sm_disconnectUnlocked. cbn [kc_net kc_endnames as_kv].
  rewrite (for_each_ext _ (λ x rn, l ← sm_endnames c !! i; match l with None => Some rn | Some _ => sm_switch c false i x rn end))
    by (intros x rn; destruct (sm_endnames c !! i) as [[|]|]; cbn; [apply switch_same|done|done]).
  destruct (for_each from _ (sm_net c)) as [rn|]; [|done]. cbn [mbind option_bind].
  rewrite (for_each_ext _ (λ '(j, x) rn, l ← sm_endnames c !! j; match l with None => Some rn | Some _ => sm_switch c false x i rn end))
    by (intros [j x] r; destruct (sm_endnames c !! j) as [[|]|]; cbn; [apply switch_same|done|done]).
  by destruct (for_each (zip _ from) _ rn).
Qed.

Lemma partition_half_same p q xs c :
  for_each xs (λ i c, c ← disconnectUnlocked i q c; connectUnlocked i p c) (as_kv c)
  = as_kv <$> for_each xs (λ i c, c ← sm_disconnectUnlocked i q c; sm_connectUnlocked i p c) c.
Proof. apply for_each_map. intros x s. rewrite disconnect_same. destruct (sm_disconnectUnlocked x q s); [|done]. cbn. apply connect_same. Qed.

Lemma connect_all_same c : ConnectAll (as_kv c) = as_kv <$> sm_ConnectAll c.
Proof. apply for_each_map. intros x s. apply connect_same. Qed.

Lemma client_same b ck to c :
  (if b : bool then ConnectClientUnlocked else DisconnectClientUnlocked) ck to (as_kv c) = as_kv <$> sm_switch_client b ck to c.
Proof. unfold sm_switch_client. destruct b; unfold ConnectClientUnlocked, DisconnectClientUnlocked; cbn; by destruct (for_each to _ (sm_net c)). Qed.

Lemma shutdown_same i c : ShutdownServer i (as_kv c) = as_kv <$> sm_ShutdownServer i c.
Proof.
  unfold ShutdownServer, sm_ShutdownServer. change (All (as_kv c)) with (sm_All c). rewrite disconnect_same.
  destruct (sm_disconnectUnlocked i (sm_All c) c) as [c1|]; [|done]. cbn. destruct (sm_saved c1 !! i) as [o|] eqn:Es; [|done].
  unfold kv_saved, sm_persister. cbn. rewrite Es. cbn. destruct o as [p|]; cbn; [|done]. by destruct (sm_heap c1 !! p).
Qed.

Lemma start_same i names c : StartServer i names (as_kv c) = as_kv <$> sm_StartServer i names c.
Proof.
  unfold StartServer, sm_StartServer. cbn. destruct (sm_endnames c !! i); [|done]. cbn. destruct (fresh_ends names (sm_net c)) as [rn|]; [|done]. cbn.
  unfold kv_saved, sm_persister. cbn. destruct (mjoin (sm_saved c !! i)) as [p|]; cbn; [|done]. by destruct (sm_heap c !! p).
Qed.

(** One step of the one harness is the same step of the other. *)
Lemma hstep_same l c : kv_hstep l (as_kv c) = as_kv <$> sm_hstep l c.
Proof.
  destruct l; cbn [kv_hstep sm_hstep].
  - apply connect_same.
  - apply disconnect_same.
  - apply connect_all_same.
  - unfold partition, sm_partition. rewrite partition_half_same. destruct (for_each p1 _ c); [|done]. cbn. apply partition_half_same.
  - unfold makeClient, sm_makeClient. cbn. destruct (fresh_ends names (sm_net c)) as [rn|]; [|done]. cbn.
    set (c1 := mkSmConfig _ _ _ _ _ _ _ _ _). change (mkKvConfig _ _ _ _ _ _ _ _ _ _) with (as_kv c1).
    rewrite (client_same true (sm_next c) to c1). unfold sm_ConnectClient. by destruct (sm_switch_client true (sm_next c) to c1).
  - done.
  - apply (client_same true).
  - apply (client_same false).
  - apply shutdown_same.
  - apply start_same.
Qed.

Lemma make_config_same n unreliable names : kv_make_config n unreliable (-1) names = as_kv <$> sm_make_config n unreliable names.
Proof.
  unfold kv_make_config, sm_make_config. change (kv_blank n (-1)) with (as_kv (sm_blank n)).
  rewrite (for_each_map as_kv (λ i c, sm_StartServer i (names i) c)) by (intros; apply start_same).
  destruct (for_each (seq 0 n) _ (sm_blank n)) as [c|]; [|done]. cbn [fmap option_fmap option_map mbind option_bind]. rewrite connect_all_same. by destruct (sm_ConnectAll c).
Qed.

(** ** What every run keeps *)

(** No name of an end is added or forgotten. *)
Definition names_kept (c c' : kvconfig) : Prop := kc_endnames c' = kc_endnames c ∧ kc_n c' = kc_n c ∧ nw_ends (kc_net c') = nw_ends (kc_net c).

(** Only ends are switched. *)
Definition keeps (c c' : kvconfig) : Prop :=
  kc_endnames c' = kc_endnames c ∧ kc_n c' = kc_n c ∧ kc_kvservers c' = kc_kvservers c ∧ same_links (kc_net c) (kc_net c').
#[export] Instance same_links_preorder : PreOrder same_links.
Proof. split; [by intros c|]. intros c1 c2 c3 (A1 & A2 & A3) (B1 & B2 & B3). unfold same_links. split_and!; congruence. Qed.
#[export] Instance keeps_preorder : PreOrder keeps.
Proof. split; [by intros c|]. intros c1 c2 c3 (A1 & A2 & A3 & A4) (B1 & B2 & B3 & B4). unfold keeps. split_and!; [congruence..|by etrans]. Qed.

Lemma keeps_names c c' : keeps c c' → names_kept c c'.
Proof. by intros (? & ? & _ & ? & _). Qed.

Lemma names_started k c c' : names_kept c c' → started k c → started k c'.
Proof.
  intros (E1 & E2 & E3) [H1 H2 H3 H4]. assert (∀ i j, kv_end c' i j = kv_end c i j) as Hk by (intros i j; unfold kv_end; by rewrite E1).
  split; [by rewrite E1, E2|by rewrite E1, E2|intros i j e; rewrite Hk, E3; apply H3|intros i j i' j' e; rewrite !Hk; apply H4].
Qed.

(** The end from [i] to [j] leads to [j], where the network has the server that was made
    for the running instance of [j]. *)
Record hosted (c : kvconfig) : Prop := {
  ho_conn : ∀ i j e, kv_end c i j = Some e → nw_connections (kc_net c) !! e = Some (Some j);
  ho_serv : ∀ i kv, kc_kvservers c !! i = Some (Some kv) → server_of (kc_net c) i = Some (S kv)
}.

Lemma keeps_hosted c c' : keeps c c' → hosted c → hosted c'.
Proof.
  intros (E1 & E2 & E3 & _ & E4 & E5) [H1 H2]. split.
  - intros i j e. unfold kv_end. rewrite E1, E4. apply H1.
  - intros i kv. unfold server_of. rewrite E3, E5. apply H2.
Qed.

Lemma calls_hosted c i j kv : hosted c → kc_kvservers c !! j = Some (Some kv) → calls c i j = if sees c i j then Some (S kv) else None.
Proof.
  intros [H1 H2] Hj. unfold calls, sees. destruct (kv_end c i j) as [e|] eqn:E; [|done]. cbn. rewrite (H1 i j e E). cbn. rewrite (H2 j kv Hj).
  by destruct (is_enabled (kc_net c) e).
Qed.

(** A loop that only switches ends. *)
Definition switching {A} (f : A → RaftNet → option RaftNet) : Prop := ∀ x rn rn', f x rn = Some rn' → same_links rn rn'.
Lemma switching_loop {A} (f : A → RaftNet → option RaftNet) xs rn rn' : switching f → for_each xs f rn = Some rn' → same_links rn rn'.
Proof. intros Hf. apply (for_each_inv (same_links rn)); [|done]. intros x r r' _ Hr E. etrans; [exact Hr|by eapply Hf]. Qed.
Lemma switch_switching c b i j rn rn' : switch c b i j rn = Some rn' → same_links rn rn'.
Proof. unfold switch. by intros (e & _ & [= <-])%bind_Some. Qed.

Lemma connect_keeps i to c c' : connectUnlocked i to c = Some c' → keeps c c'.
Proof.
  intros (r1 & E1 & (r2 & E2 & [= <-])%bind_Some)%bind_Some. split_and!; [done..|]. cbn.
  apply switching_loop in E1, E2; [by etrans| |]; intros x r r'; apply switch_switching.
Qed.

Lemma disconnect_keeps i from c c' : disconnectUnlocked i from c = Some c' → keeps c c'.
Proof.
  intros (r1 & E1 & (r2 & E2 & [= <-])%bind_Some)%bind_Some. split_and!; [done..|]. cbn.
  apply switching_loop in E1, E2; [by etrans| |].
  - intros [j x] r r' (l & _ & E)%bind_Some. destruct l; [by apply switch_switching in E|by injection E as <-].
  - intros x r r' (l & _ & E)%bind_Some. destruct l; [by apply switch_switching in E|by injection E as <-].
Qed.

Lemma loop_keeps {A} (f : A → kvconfig → option kvconfig) xs c c' :
  (∀ x c c', f x c = Some c' → keeps c c') → for_each xs f c = Some c' → keeps c c'.
Proof. intros Hf. apply (for_each_inv (keeps c)); [|done]. intros x s s' _ Hs E. etrans; [done|by eapply Hf]. Qed.

Lemma partition_half_keeps p q xs c c' :
  for_each xs (λ i c, c ← disconnectUnlocked i q c; connectUnlocked i p c) c = Some c' → keeps c c'.
Proof. apply loop_keeps. intros x s s' (s1 & E1%disconnect_keeps & E2%connect_keeps)%bind_Some. by etrans. Qed.

Lemma partition_keeps p1 p2 c c' : partition p1 p2 c = Some c' → keeps c c'.
Proof. intros (c1 & E1%partition_half_keeps & E2%partition_half_keeps)%bind_Some. by etrans. Qed.

Lemma client_keeps b ck to c c' : (if b : bool then ConnectClientUnlocked else DisconnectClientUnlocked) ck to c = Some c' → keeps c c'.
Proof.
  destruct b; intros (rn & E & [= <-])%bind_Some; (split_and!; [done..|]); cbn; eapply switching_loop; try done;
    by intros j r r' (s & _ & [= <-])%bind_Some.
Qed.

(** New ends change nothing for those that are known, nor the servers. *)
Lemma fresh_ends_servers names rn rn' : fresh_ends names rn = Some rn' → nw_servers rn' = nw_servers rn.
Proof.
  apply (for_each_inv (λ r, nw_servers r = nw_servers rn)); [|done]. intros [j name] r r' _ Hr (r1 & E & [= <-])%bind_Some.
  unfold MakeEnd in E. case_decide; [done|]. by injection E as <-.
Qed.

Lemma start_hosted k i names c c' : started k c → hosted c → StartServer i names c = Some c' → hosted c'.
Proof.
  intros Hs [H1 H2] E. destruct (StartServer_ends i names c c' E) as (rn & Ef & Een & _ & _).
  destruct (make_ends_loop 0 names (kc_net c) rn Ef) as (_ & Hnew & _ & _ & H5 & H6). pose proof (fresh_ends_servers names _ _ Ef) as Hsv.
  apply bind_Some in E as (o & Hi%lookup_lt_Some & E). rewrite Ef in E. cbn [mbind option_bind] in E. injection E as E.
  assert (nw_connections (kc_net c') = nw_connections rn) as Ec by (subst c'; by destruct (kv_saved i _)).
  assert (∃ kv, kc_kvservers c' = <[i := Some kv]> (kc_kvservers c) ∧ nw_servers (kc_net c') = <[i := Some (S kv)]> (nw_servers (kc_net c))) as (kv & Ek & En).
  { rewrite <- Hsv. subst c'. destruct (kv_saved i _); by eexists. }
  split.
  - intros a b e. unfold kv_end. rewrite Een, Ec. destruct (decide (a = i)) as [->|Hne].
    + rewrite list_lookup_insert_eq by done. cbn. intros Hb. by rewrite (H5 b e Hb).
    + rewrite list_lookup_insert_ne by done. intros He. rewrite H6; [by apply (H1 a)|]. intros Hin. by apply (Hnew e Hin), (sd_known _ _ Hs a b).
  - intros a kv'. unfold server_of. rewrite Ek, En. intros [(-> & [= ->] & _)|[Hne Ha]]%list_lookup_insert_Some; [by rewrite lookup_insert_eq|].
    rewrite lookup_insert_ne by done. by apply (H2 a).
Qed.

(** Any step leaves the harness with [n] names for each server, all different, and the
    servers in the network. *)
Lemma hstep_started l c c' : label_ok (kc_n c) l → started (kc_n c) c → hosted c → kv_hstep l c = Some c' →
  started (kc_n c) c' ∧ hosted c' ∧ kc_n c' = kc_n c.
Proof.
  intros Hl Hs Hh. assert (∀ c1, keeps c c1 → started (kc_n c) c1 ∧ hosted c1 ∧ kc_n c1 = kc_n c) as Hkeep.
  { intros c1 Hk. split_and!; [by apply (names_started _ c), Hs; apply keeps_names|by apply (keeps_hosted c)|apply Hk]. }
  destruct l; cbn [kv_hstep].
  - intros E. by apply Hkeep, (connect_keeps i to).
  - intros E. by apply Hkeep, (disconnect_keeps i from).
  - intros E. apply Hkeep. revert E. apply loop_keeps. intros x s s'. apply connect_keeps.
  - intros E. by apply Hkeep, (partition_keeps p1 p2).
  - intros ([ck c1] & E & [= <-])%fmap_Some. apply bind_Some in E as (rn & E & (c2 & E2 & [= <- <-])%bind_Some).
    apply (client_keeps true) in E2. destruct (make_ends_loop 0 names (kc_net c) rn E) as (_ & Hnew & Hends & _ & _ & Hcon).
    cbn [snd]. destruct Hs as [H1 H2 H3 H4], Hh as [G1 G2]. split_and!; [| |apply E2].
    + eapply names_started; [by apply keeps_names|]. split; [done|done| |done]. intros i j e He. apply Hends. right. by apply (H3 i j).
    + eapply keeps_hosted; [exact E2|]. split.
      * intros i j e He. change (kv_end c i j = Some e) in He. cbn. rewrite Hcon; [by apply (G1 i)|]. intros Hin. by apply (Hnew e Hin), (H3 i j).
      * intros i kv Hi. unfold server_of. cbn. rewrite (fresh_ends_servers names _ _ E). by apply (G2 i).
  - intros [= <-]. by apply Hkeep.
  - intros E. by apply Hkeep, (client_keeps true ck to).
  - intros E. by apply Hkeep, (client_keeps false ck from).
  - intros (c1 & E1%disconnect_keeps & (o & _ & [= <-])%bind_Some)%bind_Some. destruct (Hkeep c1 E1) as (Hs1 & [G1 G2] & Hn1). split_and!.
    + eapply names_started; [|exact Hs1]. by destruct (kv_saved i _).
    + split; [intros a b e He; destruct (kv_saved i _); by apply (G1 a b e)|]. intros a kv Ha.
      assert (<[i := None]> (kc_kvservers c1) !! a = Some (Some kv)) as [(_ & ? & _)|[Hne Ha']]%list_lookup_insert_Some by (by destruct (kv_saved i _)); [done|].
      specialize (G2 a kv Ha'). rewrite <- G2. unfold server_of. destruct (kv_saved i _); cbn; by rewrite lookup_insert_ne by done.
    + rewrite <- Hn1. by destruct (kv_saved i _).
  - intros E. assert (i < kc_n c)%nat as Hi.
    { apply bind_Some in E as (o & ?%lookup_lt_Some & _). by rewrite (sd_len _ _ Hs) in *. }
    destruct (start_started (kc_n c) i names c c' Hs) as [H1 H2]; [lia|done|done|done|]. rewrite Nat.max_l in H1 by lia.
    split_and!; [done|by apply (start_hosted (kc_n c) i names c)|done].
Qed.

(** What every run keeps. *)
Definition in_order (n : nat) (c : kvconfig) : Prop := started (kc_n c) c ∧ hosted c ∧ kc_n c = n.

Lemma hrun_started ls n c c' : Forall (label_ok n) ls → in_order n c → for_each ls kv_hstep c = Some c' → in_order n c'.
Proof.
  intros Hl Hs E. apply (for_each_inv (in_order n)) in E; [done| |done].
  intros l s s' Hin (H1 & H2 & H3) E1. rewrite Forall_forall in Hl. specialize (Hl l Hin). rewrite <- H3 in Hl.
  destruct (hstep_started l s s' Hl H1 H2 E1) as (G1 & G2 & G3). unfold in_order. by rewrite G3, H3 in *.
Qed.

Lemma start_all_hosted names m k c c' : started k c → hosted c → (k + m = kc_n c)%nat → (∀ i, length (names i) = kc_n c) →
  for_each (seq k m) (λ i c, StartServer i (names i) c) c = Some c' → hosted c'.
Proof.
  revert k c. induction m as [|m IH]; intros k c Hs Hh Hk Hn; cbn [seq for_each]; [by intros [= <-]|].
  intros (c1 & E1 & E2)%bind_Some. destruct (start_started k k (names k) c c1 Hs) as [Hs1 Hn1]; [lia|lia|done|done|]. rewrite Nat.max_r in Hs1 by lia.
  apply (IH (S k) c1); [done|by apply (start_hosted k k (names k) c)|lia|by rewrite Hn1|done].
Qed.

Lemma make_config_started n unreliable maxraftstate names c : (∀ i, length (names i) = n) →
  kv_make_config n unreliable maxraftstate names = Some c → in_order n c.
Proof.
  intros Hn (c1 & E1 & (c2 & E2 & [= <-])%bind_Some)%bind_Some. set (c0 := kv_blank n maxraftstate) in *.
  destruct (start_all names n 0 c0 c1) as [Hs1 Hn1]; [apply blank_started|done|done|done|].
  assert (hosted c1) as Hh1.
  { apply (start_all_hosted names n 0 c0); [apply blank_started| |done|done|done]. split.
    - intros i j e He. by apply (sd_known _ _ (blank_started n maxraftstate)) in He.
    - by intros i kv [? _]%lookup_replicate. }
  cbn in Hs1, Hn1. assert (keeps c1 c2) as Hk by (revert E2; apply loop_keeps; intros x s s'; apply connect_keeps).
  pose proof Hk as (_ & N2 & _). split_and!; cbn; [rewrite N2, Hn1| |congruence].
  - apply (names_started n c2); [done|]. by apply (names_started n c1), Hs1; apply keeps_names.
  - pose proof (keeps_hosted c1 c2 Hk Hh1) as [G1 G2]. by split.
Qed.

(** ** The leader is cut off *)
Definition sm_calls (c : smconfig) : nat → nat → option nat := calls (as_kv c).

(** [l] is in the minority of [2 k + 1] servers, and a call from one to another arrives, at
    the network's server of the instance [kv] that runs there, exactly if both are in
    one part. *)
Definition cut_off (k l : nat) (p1 p2 : list nat) (up : list (option nat)) (call : nat → nat → option nat) : Prop :=
  p1 ++ p2 ≡ₚ seq 0 (2 * k + 1) ∧ length p1 = (k + 1)%nat ∧ length p2 = k ∧ l ∈ p2
  ∧ ∀ i j, (i < 2 * k + 1)%nat → (j < 2 * k + 1)%nat →
      ∃ kv, up !! j = Some (Some kv) ∧ call i j = if decide (i ∈ p1 ↔ j ∈ p1) then Some (S kv) else None.

Definition all_up (n : nat) (servers : list (option nat)) : Prop := ∀ i, (i < n)%nat → ∃ sv, servers !! i = Some (Some sv).

Lemma two_parts n p1 p2 : p1 ++ p2 ≡ₚ seq 0 n →
  Forall (λ y, y < n)%nat p1 ∧ Forall (λ y, y < n)%nat p2 ∧ (∀ x, x ∈ p1 → x ∈ p2 → False) ∧ ∀ x, (x < n)%nat → x ∈ p1 ∨ x ∈ p2.
Proof.
  intros Hp. assert (NoDup (p1 ++ p2)) as (_ & Hd & _)%NoDup_app by (rewrite Hp; apply NoDup_seq).
  assert (∀ x, x ∈ p1 ++ p2 ↔ (x < n)%nat) as Hx by (intros x; rewrite Hp, elem_of_seq; lia).
  split_and!; [apply Forall_forall|apply Forall_forall|done|]; intros x; rewrite <- Hx, elem_of_app; auto.
Qed.

Lemma kv_cut_off k leads c : (1 ≤ k)%nat → in_order (2 * k + 1) c → all_up (2 * k + 1) (kc_kvservers c) → length leads = kc_n c →
  ∃ known l p1 p2 c', Leader (Some <$> leads) = Some (known, l) ∧ make_partition (kc_n c) (Some <$> leads) = Some (p1, p2)
    ∧ partition p1 p2 c = Some c' ∧ cut_off k l p1 p2 (kc_kvservers c) (calls c').
Proof.
  intros Hk (Hs & Hh & Hn) Hup Hl. rewrite Hn in Hl. destruct (make_partition_minority k leads Hk Hl) as (known & l & p1 & p2 & El & Em & Hp & L1 & L2 & Hin).
  destruct (two_parts _ _ _ Hp) as (F1 & F2 & Hd & Hall). rewrite <- Hn in F1, F2.
  destruct (partition_splits c p1 p2 (started_ready c Hs) F1 F2) as (c' & E & _ & Hsee); [lia|lia|done|].
  exists known, l, p1, p2, c'. rewrite Hn. split_and!; [done|done|done|]. split_and!; [done|done|done|done|]. intros i j Hi Hj.
  destruct (Hup j Hj) as [kv Hkv]. exists kv. split; [done|]. pose proof (partition_keeps _ _ _ _ E) as Hkeep.
  rewrite (calls_hosted c' i j kv); [|by apply (keeps_hosted c)|by destruct Hkeep as (_ & _ & -> & _)]. rewrite Hsee by lia.
  destruct (Hall i Hi), (Hall j Hj); repeat case_decide; naive_solver.
Qed.

Lemma leader_same says c k m leads : (∀ i, (k ≤ i < k + m)%nat → ∃ b, leads !! (i - k)%nat = Some b ∧ says <$> mjoin (sm_servers c !! i) = Some b) →
  length leads = m → sm_first_leader says c (seq k m) = find_leader k (Some <$> leads).
Proof.
  revert k m. induction leads as [|b leads IH]; intros k m Hs <-; [done|]. cbn [length seq sm_first_leader fmap list_fmap find_leader].
  destruct (Hs k) as (b' & Hb & Hk); [cbn; lia|]. rewrite Nat.sub_diag in Hb. injection Hb as <-. apply fmap_Some in Hk as (sv & -> & ->). cbn.
  destruct (says sv); [done|]. apply IH; [|done]. intros i Hi. destruct (Hs i) as (b' & Hb & E); [cbn; lia|]. exists b'.
  split; [|done]. rewrite <- Hb. by replace (i - k)%nat with (S (i - S k)) by lia.
Qed.

(** What the servers, all up, answer. *)
Lemma all_answer says c : all_up (sm_n c) (sm_servers c) →
  ∃ leads, length leads = sm_n c ∧ sm_Leader says c = Leader (Some <$> leads)
    ∧ sm_make_partition says c = make_partition (sm_n c) (Some <$> leads).
Proof.
  intros Hup. set (leads := (λ i, default false (says <$> mjoin (sm_servers c !! i))) <$> sm_All c). exists leads.
  assert (length leads = sm_n c) as Hlen by (unfold leads, sm_All; by rewrite length_fmap, length_seq).
  assert (sm_Leader says c = Leader (Some <$> leads)) as El.
  { apply leader_same; [|done]. intros i [_ Hi]. destruct (Hup i Hi) as [sv Esv]. exists (says sv). rewrite Esv, Nat.sub_0_r. split; [|done].
    unfold leads, sm_All. rewrite list_lookup_fmap, (lookup_seq_lt 0) by done. cbn. by rewrite Esv. }
  split_and!; [done|done|]. unfold sm_make_partition, make_partition. by rewrite El.
Qed.

(** C28. In both harnesses, after any sequence of operations that did not panic,
    make_partition and partition cut the leader off: with [2 k + 1] servers, at least
    three, that are all up, the leader is in a part of [k] servers, and a call from one
    server to another arrives, at the network's server of the instance that runs there,
    if and only if they are in the same part; no earlier partition, shutdown or
    restart shows through. *)
Theorem leader_cut_off k unreliable names ls : (1 ≤ k)%nat → (∀ i, length (names i) = (2 * k + 1)%nat) → Forall (label_ok (2 * k + 1)) ls →
  (∀ maxraftstate c0 c leads, kv_make_config (2 * k + 1) unreliable maxraftstate names = Some c0 → for_each ls kv_hstep c0 = Some c →
     all_up (2 * k + 1) (kc_kvservers c) → length leads = (2 * k + 1)%nat →
     ∃ known l p1 p2 c', Leader (Some <$> leads) = Some (known, l) ∧ make_partition (kc_n c) (Some <$> leads) = Some (p1, p2)
       ∧ partition p1 p2 c = Some c' ∧ cut_off k l p1 p2 (kc_kvservers c) (calls c'))
  ∧ (∀ c0 c says, sm_make_config (2 * k + 1) unreliable names = Some c0 → for_each ls sm_hstep c0 = Some c →
     all_up (2 * k + 1) (sm_servers c) →
     ∃ known l p1 p2 c', sm_Leader says c = Some (known, l) ∧ sm_make_partition says c = Some (p1, p2) ∧ sm_partition p1 p2 c = Some c'
       ∧ cut_off k l p1 p2 (sm_servers c) (sm_calls c')).
Proof.
  intros Hk Hn Hls.
  assert (∀ maxraftstate c0 c, kv_make_config (2 * k + 1) unreliable maxraftstate names = Some c0 → for_each ls kv_hstep c0 = Some c →
    in_order (2 * k + 1) c) as Hrun.
  { intros m c0 c E0 E. apply (hrun_started ls _ c0 c); [done|by eapply make_config_started|done]. }
  split.
  - intros m c0 c leads E0 E Hup Hl. pose proof (Hrun m c0 c E0 E) as Ho. apply kv_cut_off; [done|done|done|]. destruct Ho as (_ & _ & ->). done.
  - intros c0 c says E0 E Hup. assert (in_order (2 * k + 1) (as_kv c)) as Ho.
    { apply (Hrun (-1) (as_kv c0)); [by rewrite make_config_same, E0|].
      by rewrite (for_each_map as_kv sm_hstep) by (intros; apply hstep_same); rewrite E. }
    assert (sm_n c = (2 * k + 1)%nat) as Hc by apply Ho.
    destruct (all_answer says c) as (leads & Hl & El & Em); [by rewrite Hc|].
    destruct (kv_cut_off k leads (as_kv c) Hk Ho) as (known & l & p1 & p2 & c' & E0' & E1 & E2 & Hcut); [done|by rewrite Hl|].
    pose proof (hstep_same (HPartition p1 p2) c) as Hp. cbn [kv_hstep sm_hstep] in Hp. rewrite E2 in Hp. symmetry in Hp.
    apply fmap_Some in Hp as (c2 & E3 & ->).
    exists known, l, p1, p2, c2. by rewrite El, Em, E0'.
Qed.

(** ** Three shard masters *)
Definition odd_run : list HLabel :=
  [HPartition [0%nat] [1; 2]%nat; HShutdown 1; HMakeClient ["x"; "y"; "z"] [0; 2]%nat; HStart 1 ["j"; "k"; "l"]; HDisconnect 2 [0%nat]].
Definition sm_three : smconfig := default (sm_blank 3) (sm_make_config 3 false three_names).
Definition sm_ran : smconfig := default (sm_blank 3) (for_each odd_run sm_hstep sm_three).

Lemma sm_three_made : sm_make_config 3 false three_names = Some sm_three.
Proof. vm_compute. reflexivity. Qed.
Lemma sm_three_ran : for_each odd_run sm_hstep sm_three = Some sm_ran.
Proof. vm_compute. reflexivity. Qed.

Lemma leader_cut_off_witness : ∃ known l p1 p2 c',
  sm_Leader (Nat.eqb 7) sm_ran = Some (known, l)
  ∧ sm_make_partition (Nat.eqb 7) sm_ran = Some (p1, p2)
  ∧ sm_partition p1 p2 sm_ran = Some c' ∧ cut_off 1 l p1 p2 (sm_servers sm_ran) (sm_calls c').
Proof.
  refine (proj2 (leader_cut_off 1 false three_names odd_run _ _ _) sm_three sm_ran _ sm_three_made sm_three_ran _).
  - lia.
  - by intros [|[|i]].
  - by repeat constructor.
  - intros [|[|[|i]]] Hi; [vm_compute; by eexists..|lia].
Defined.

(** A server that was shut down makes Leader, and with it make_partition, panic. *)
Example leader_of_a_dead_server : sm_make_partition (λ _, false) (default sm_three (sm_ShutdownServer 0 sm_three)) = None.
Proof. vm_compute. reflexivity. Qed.

(** ** The counters of kvraft/config.go *)
Record KvStats := mkKvStats { ks_rpcs0 : Z; ks_ops : Z }.
Definition kv_rpcTotal (c : kvconfig) : Z := GetTotalCount (kc_net c).
Definition kv_begin (c : kvconfig) : KvStats := mkKvStats (kv_rpcTotal c) 0.
Definition kv_op (s : KvStats) : KvStats := mkKvStats (ks_rpcs0 s) (i32 (ks_ops s + 1)).
(** The numbers of peers, of calls and of operations that are printed. *)
Definition kv_finish (failed : bool) (c : kvconfig) (s : KvStats) : option (nat * Z * Z) :=
  if failed then None else Some (kc_n c, kv_rpcTotal c - ks_rpcs0 s, ks_ops s).

(** What end reports after [k] operations: the operations are counted in 32 bits. *)
Lemma ops_reported k c c' : kv_finish false c' (Nat.iter k kv_op (kv_begin c)) = Some (kc_n c', kv_rpcTotal c' - kv_rpcTotal c, i32 (Z.of_nat k)).
Proof.
  assert (Nat.iter k kv_op (kv_begin c) = mkKvStats (kv_rpcTotal c) (i32 (Z.of_nat k))) as ->; [|done].
  induction k as [|k IH]; [done|]. rewrite Nat.iter_succ, IH. unfold kv_op. cbn [ks_rpcs0 ks_ops]. rewrite i32_step. do 2 f_equal. lia.
Qed.
