(* ===== verification/RpcLoops.v ===== *)
(** RpcLoops: the accept loops of the map/reduce master and worker.

    Source: lab4-mapreduce/src/mapreduce/worker.go (RunWorker, Shutdown) and
    master_rpc.go (startRPCServer, Shutdown, stopRPCServer).

    Schedule.v treats a worker as a server that may refuse calls; here is the
    loop that decides when it does.  The loop and the handlers of connections
    are goroutines: a run is a list of labels, one per action between two
    critical sections. *)
From Stdlib Require Import ZArith Lia.
From stdpp Require Import list.
From S2P Require Import Prelude.
Open Scope Z_scope.

(** ** The worker *)
Module WorkerLoop.

Inductive pc := AtTest | AtAccept | Exited.
#[export] Instance pc_eq_dec : EqDecision pc.
Proof. solve_decision. Defined.

(** [served] counts the connections that were accepted. *)
Record state := mkState { nRPC : Z; at_pc : pc; served : nat; listening : bool }.

(** RunWorker up to its loop. *)
Definition start (nRPC : Z) : state := mkState nRPC AtTest 0 true.

Inductive label :=
| Test                (* if wk.nRPC == 0 { break } *)
| Accept (ok : bool)  (* a connection arrives, or Accept fails; wk.nRPC-- *)
| Shutdown.           (* the handler of the Shutdown RPC: wk.nRPC = 1 *)

Definition step (l : label) (s : state) : option state :=
  match l, at_pc s with
  | Test, AtTest =>
      Some (if nRPC s =? 0 then mkState (nRPC s) Exited (served s) false else mkState (nRPC s) AtAccept (served s) (listening s))
  | Accept true, AtAccept => Some (mkState (i64 (nRPC s - 1)) AtTest (S (served s)) (listening s))
  | Accept false, AtAccept => Some (mkState (nRPC s) Exited (served s) false)
  | Shutdown, _ => if decide (served s = 0)%nat then None else Some (mkState 1 (at_pc s) (served s) (listening s))
  | _, _ => None
  end.

Fixpoint run (ls : list label) (s : state) : option state :=
  match ls with [] => Some s | l :: ls => s ← step l s; run ls s end.

Definition undisturbed (l : label) : bool := match l with Shutdown | Accept false => false | _ => true end.
Definition accepts (l : label) : bool := match l with Accept true => true | _ => false end.

(** What a quota of [n] connections means. *)
Record quota_ok (n : nat) (s : state) : Prop := {
  q_left : nRPC s = Z.of_nat n - Z.of_nat (served s);
  q_most : (served s ≤ n)%nat;
  q_wait : at_pc s = AtAccept → (served s < n)%nat;
  q_exit : at_pc s = Exited → served s = n ∧ listening s = false;
  q_open : at_pc s ≠ Exited → listening s = true
}.

Lemma start_quota n : quota_ok n (start (Z.of_nat n)).
Proof. split; cbn; try done; lia. Qed.

Lemma step_quota n l s s' : Z.of_nat n < 2 ^ 63 → undisturbed l = true → quota_ok n s → step l s = Some s' → quota_ok n s'.
Proof.
  intros Hn Hu [H1 H2 H3 H4 H5]. destruct l as [|[|]|]; [..|done]; try done; cbn [step]; destruct (at_pc s) eqn:Ep; try done; intros [= <-].
  - destruct (Z.eqb_spec (nRPC s) 0) as [E|E].
    + split; cbn; [lia|lia|done|intros _; split; [lia|done]|done].
    + split; cbn; [lia|lia|intros _; lia|done|intros _; by apply H5].
  - specialize (H3 eq_refl). assert (i64 (nRPC s - 1) = nRPC s - 1) as Ei by (apply i64_small; unfold is_i64; lia).
    split; cbn; try done; try lia. intros _. by apply H5.
Qed.

(** A worker that is told to quit after [n] connections accepts exactly [n]: at
    any time it has accepted at most [n], it waits for another only while it has
    accepted fewer, and when its loop has ended it has accepted [n] and closed
    its socket; after [n] connections the loop ends with its next test. *)
Theorem worker_quota n ls s : Z.of_nat n < 2 ^ 63 → forallb undisturbed ls = true → run ls (start (Z.of_nat n)) = Some s →
  (served s ≤ n)%nat ∧ (at_pc s = AtAccept → (served s < n)%nat) ∧ (at_pc s = Exited → served s = n ∧ listening s = false)
  ∧ (served s = n → at_pc s = Exited ∨ ∃ s', step Test s = Some s' ∧ at_pc s' = Exited).
Proof.
  intros Hn Hu Hr. assert (quota_ok n s) as [H1 H2 H3 H4 H5].
  { revert Hr. generalize (start_quota n). generalize (start (Z.of_nat n)). revert Hu. induction ls as [|l ls IH]; cbn; intros Hu s0 Hq; [by intros [= <-]|].
    apply andb_true_iff in Hu as [Hl Hu]. intros (s1 & Hs & Hr)%bind_Some. apply (IH Hu s1); [by eapply step_quota|done]. }
  split_and!; [done|done|done|]. intros E. destruct (at_pc s) eqn:Ep; [|specialize (H3 eq_refl); lia|by left].
  right. assert (nRPC s = 0) as E0 by lia. eexists. cbn [step]. rewrite Ep, E0. cbn. split; reflexivity.
Qed.

Lemma worker_quota_witness : ∃ s, run [Test; Accept true; Test; Accept true; Test] (start 2) = Some s ∧ at_pc s = Exited ∧ served s = 2%nat.
Proof.
  eexists. split; [reflexivity|]. split; [reflexivity|].
  pose proof (worker_quota 2 [Test; Accept true; Test; Accept true; Test] _ ltac:(done) eq_refl eq_refl) as (_ & _ & H & _).
  by destruct (H eq_refl).
Defined.

(** A worker without a quota that is told to shut down is already waiting for the
    next connection: it does not end before another one comes. *)
Example shutdown_needs_another_call :
  at_pc <$> run [Test; Accept true; Test; Shutdown] (start (-1)) = Some AtAccept
  ∧ at_pc <$> run [Test; Accept true; Test; Shutdown; Accept true; Test] (start (-1)) = Some Exited.
Proof. split; reflexivity. Qed.

(** If the handler is faster than the loop, still one more is needed. *)
Example fast_shutdown_needs_another_call : at_pc <$> run [Test; Accept true; Shutdown; Test] (start (-1)) = Some AtAccept.
Proof. reflexivity. Qed.
End WorkerLoop.

(** ** The master *)
Module MasterLoop.

Inductive pc := AtSelect | AtAccept | Done.

(** [closed]: mr.shutdown; [handlers] serve accepted connections. *)
Record state := mkState { closed : bool; listening : bool; at_pc : pc; handlers : nat }.

(** startRPCServer; [listen_ok] is whether net.Listen succeeded, [None] is log.Fatal. *)
Definition startRPCServer (listen_ok : bool) : option state := if listen_ok then Some (mkState false true AtSelect 0) else None.

Inductive label :=
| Select
| Accept (ok : bool)  (* Accept can fail; it does when the listener is closed *)
| Shutdown.           (* the handler of the Shutdown RPC *)

(** [None] also stands for the panic of a second close. *)
Definition step (l : label) (s : state) : option state :=
  match l, at_pc s with
  | Select, AtSelect => Some (mkState (closed s) (listening s) (if closed s then Done else AtAccept) (handlers s))
  | Accept true, AtAccept => if listening s then Some (mkState (closed s) (listening s) AtSelect (S (handlers s))) else None
  | Accept false, AtAccept => Some (mkState (closed s) (listening s) Done (handlers s))
  | Shutdown, _ => if closed s then None else if decide (handlers s = 0)%nat then None else Some (mkState true false (at_pc s) (handlers s))
  | _, _ => None
  end.

Fixpoint run (ls : list label) (s : state) : option state :=
  match ls with [] => Some s | l :: ls => s ← step l s; run ls s end.

(** Connections go on being accepted until Shutdown; then none is. *)
Lemma after_shutdown ls s s' : closed s = true → listening s = false → run ls s = Some s' →
  closed s' = true ∧ listening s' = false ∧ handlers s' = handlers s.
Proof.
  revert s. induction ls as [|l ls IH]; intros s Hc Hl; cbn; [by intros [= <-]|]. intros (s1 & Hs & Hr)%bind_Some.
  assert (closed s1 = true ∧ listening s1 = false ∧ handlers s1 = handlers s) as (H1 & H2 & H3).
  { destruct l as [|[|]|]; cbn [step] in Hs; rewrite ?Hc, ?Hl in Hs; destruct (at_pc s); try done; by injection Hs as <-. }
  rewrite <- H3. by apply IH.
Qed.

(** Shutdown ends the loop: wherever it stands, at most one more step is possible,
    which is its last. *)
Lemma shutdown_ends s s1 : step Shutdown s = Some s1 →
  at_pc s1 = Done ∨ ∃ l s2, step l s1 = Some s2 ∧ at_pc s2 = Done ∧ handlers s2 = handlers s.
Proof.
  cbn [step]. destruct (closed s); [done|]. destruct (decide (handlers s = 0)%nat); [done|]. intros [= <-]. cbn. destruct (at_pc s) eqn:Ep.
  - right. exists Select. eexists. split; [reflexivity|]. done.
  - right. exists (Accept false). eexists. split; [reflexivity|]. done.
  - by left.
Qed.

(** A second Shutdown closes a closed channel. *)
Example second_shutdown_panics : (s ← startRPCServer true; run [Select; Accept true; Shutdown; Shutdown] s) = None.
Proof. reflexivity. Qed.
End MasterLoop.
