(* ===== verification/NodeRun.v ===== *)
(** NodeRun: the life of the nodes of a group, from their construction to serving.

    Source: sheetfs/master/node/node.go, datanode/node/node.go (constructors, Run,
    RunAsPrimary), master/journal/listener.go (NewListener), and
    common_journal/utils.go.

    A node creates its proposal, follows the journal until it is elected, catches
    up, opens its port, writes its address into the acknowledgement znode and
    serves.  [nstep] interleaves these steps of all nodes with the election
    (Election.v), crashes of processes and the end of sessions. *)
From Stdlib Require Import ZArith Lia.
From stdpp Require Import gmap strings list.
From S2P Require Import Prelude.
From S2P Require Import DataNode.
From S2P Require Import DataNodeAlloc.
From S2P Require Import MasterData.
From S2P Require Import CommonJournal.
From S2P Require Import FileMgr.
From S2P Require Import Election.
Open Scope Z_scope.

(** ** Construction *)

(** [kafka.TopicAlreadyExists] is the one error that is not passed on. *)
Definition ensureJournalTopicCreated {E} (err : option E) (already_exists : E → bool) : option E :=
  match err with Some e => if already_exists e then None else Some e | None => None end.

Inductive NodeError := NZk (e : ZkError) | NKafka (e : KafkaError) | NLogger.

Section construction.
Context {Zs : Type} {ZK : ZooKeeper Zs} {db : Type} {DB : MetaDB db} {K : Type} {KO : Kafka K}.

Record MasterNodeConfig := mkMasterNodeConfig {
  mc_NodeID : string; mc_Port : Z; mc_ForClientAddr : string; mc_ElectionZnode : string; mc_ElectionPrefix : string;
  mc_ElectionAck : string; mc_KafkaTopic : string; mc_DB : db; mc_CheckpointInterval : Z; mc_DataNodeGroups : list string
}.

(** The listener shares the elector and the file manager; its own part is the receiver. *)
Record MasterNode := mkMasterNode {
  mn_fm : FileManager db K; mn_jWriter : Writer; mn_receiver : Receiver; mn_elector : Elector; mn_port : Z; mn_cAddr : string;
  mn_alloc : DataNodeAllocator; mn_ckptInterval : Z
}.

(** What the calls answer that reach outside: the creation of the topic for the
    writer and the receiver, and the logger. *)
Definition NewListener (topic : string) (topic_err : option KafkaError) (logger_ok : bool) : result NodeError Receiver :=
  match NewReceiver topic topic_err with
  | Err e => Err (NKafka e)
  | Ok r => if logger_ok then Ok r else Err NLogger
  end.

Definition NewMasterNode (config : MasterNodeConfig) (w_err r_err : option KafkaError) (logger_ok : bool) (k : K) (z : Zs) : result NodeError MasterNode * Zs :=
  let '(r, z) := NewElector (mc_ElectionZnode config) (mc_ElectionPrefix config) (mc_ElectionAck config) z in
  match r with
  | Err e => (Err (NZk e), z)
  | Ok elector =>
      let alloc := NewDataNodeAllocatorWithGroups (mc_DataNodeGroups config) in
      match NewWriter (mc_KafkaTopic config) w_err with
      | Err e => (Err (NKafka e), z)
      | Ok jw =>
          let fm := LoadFileManager (mc_DB config) alloc (Some jw) k in
          match NewListener (mc_KafkaTopic config) r_err logger_ok with
          | Err e => (Err e, z)
          | Ok lis => (Ok (mkMasterNode fm jw lis elector (mc_Port config) (mc_ForClientAddr config) alloc (mc_CheckpointInterval config)), z)
          end
      end
  end.

Record DataNodeConfig := mkDataNodeConfig {
  dc_NodeID : string; dc_Port : Z; dc_ForClientAddr : string; dc_DataDirPath : string; dc_ElectionZnode : string; dc_ElectionPrefix : string;
  dc_ElectionAck : string; dc_KafkaTopic : string
}.
Record DataNode := mkDataNode { dn_jWriter : Writer; dn_receiver : Receiver; dn_elector : Elector; dn_port : Z; dn_cAddr : string; dn_dir : string }.

Definition NewDataNode (config : DataNodeConfig) (w_err r_err : option KafkaError) (z : Zs) : result NodeError DataNode * Zs :=
  let '(r, z) := NewElector (dc_ElectionZnode config) (dc_ElectionPrefix config) (dc_ElectionAck config) z in
  match r with
  | Err e => (Err (NZk e), z)
  | Ok elector =>
      match NewWriter (dc_KafkaTopic config) w_err with
      | Err e => (Err (NKafka e), z)
      | Ok jw =>
          match NewReceiver (dc_KafkaTopic config) r_err with
          | Err e => (Err (NKafka e), z)
          | Ok receiver =>
              (Ok (mkDataNode jw receiver elector (dc_Port config) (dc_ForClientAddr config) (dc_DataDirPath config +:+ dc_NodeID config)), z)
          end
      end
  end.
End construction.

(** ** Running *)

(** How far the process of a node has come. *)
Inductive Proc :=
| PrSecondary   (* in RunAsSecondary, not elected *)
| PrElected     (* in RunAsSecondary, fetching what is left *)
| PrReady       (* RunAsSecondary has returned nil *)
| PrListening   (* the port is open *)
| PrAcked       (* AckLeader has returned nil *)
| PrServing
| PrExited.
#[export] Instance Proc_eq_dec : EqDecision Proc.
Proof. solve_decision. Defined.

Section nodes.
Context {Zs : Type} {ZK : ZooKeeper Zs}.

(** [ng_ack] is the content of the acknowledgement znode, where clients look. *)
Record NState := mkNState { ng_elect : EState Zs; ng_procs : list Proc; ng_addrs : list string; ng_ack : option string }.

Inductive NLabel :=
| NElect (l : ELabel)                   (* a step of the election; EExpire: the session ends, the process goes on *)
| NCrash (i : nat)                      (* the process dies, its session with it *)
| NLookGone (i : nat)                   (* TryBeLeader of a node whose session has ended *)
| NCaughtUp (i : nat) (ok : bool)       (* RunAsSecondary returns *)
| NListen (i : nat) (ok : bool)         (* net.Listen, NewServer *)
| NAck (i : nat) (executed : bool)      (* AckLeader; [executed]: a call that fails may have been executed *)
| NServe (i : nat)
| NServeEnds (i : nat).

Definition set_proc (i : nat) (p : Proc) (s : NState) : NState := mkNState (ng_elect s) (<[i := p]> (ng_procs s)) (ng_addrs s) (ng_ack s).
Definition set_elect (e : EState Zs) (s : NState) : NState := mkNState e (ng_procs s) (ng_addrs s) (ng_ack s).

Definition node_of_label (l : ELabel) : option nat :=
  match l with EPropose i | ELook i | EWatch i | EWake i => Some i | EExpire _ | EVanish _ => None end.

(** What the loop of RunAsSecondary makes of the election's answer. *)
Definition follow (i : nat) (s : NState) : NState :=
  match en_phase <$> es_nodes (ng_elect s) !! i with
  | Some PLeader => set_proc i PrElected s
  | Some PFailed => set_proc i PrExited s
  | _ => s
  end.

(** [expect p] *)
Definition advance (i : nat) (p : Proc) (q : Proc) (s : NState) : option NState :=
  if decide (ng_procs s !! i = Some p) then Some (set_proc i q s) else None.

Definition nstep (l : NLabel) (s : NState) : option NState :=
  match l with
  | NElect l =>
      match node_of_label l with
      | Some i =>
          if decide (ng_procs s !! i = Some PrSecondary)
          then e ← estep l (ng_elect s); Some (follow i (set_elect e s)) else None
      | None => e ← estep l (ng_elect s); Some (set_elect e s)
      end
  | NCrash i =>
      if decide (i < length (ng_procs s))%nat
      then Some (set_proc i PrExited (set_elect (default (ng_elect s) (estep (EExpire i) (ng_elect s))) s)) else None
  | NLookGone i =>
      n ← es_nodes (ng_elect s) !! i;
      match en_phase n with
      | PGone =>
          if decide (ng_procs s !! i = Some PrSecondary) then
            let '(r, z) := TryBeLeader (en_elector n) (es_zk (ng_elect s)) in
            let s := set_elect (mkEState z (es_nodes (ng_elect s))) s in
            Some match r with
                 | Err _ => set_proc i PrExited s
                 | Ok (true, _) => set_proc i PrElected s
                 | Ok (false, _) => s
                 end
          else None
      | _ => None
      end
  | NCaughtUp i ok => advance i PrElected (if ok then PrReady else PrExited) s
  | NListen i ok => advance i PrReady (if ok then PrListening else PrExited) s
  | NAck i executed =>
      n ← es_nodes (ng_elect s) !! i;
      addr ← ng_addrs s !! i;
      s' ← advance i PrListening PrAcked s;
      let '(r, z) := AckLeader (en_elector n) addr (es_zk (ng_elect s)) in
      let s' := set_elect (mkEState z (es_nodes (ng_elect s))) s' in
      let acked := mkNState (ng_elect s') (ng_procs s') (ng_addrs s') (Some addr) in
      Some match r with
           | Ok _ => acked
           | Err _ => set_proc i PrExited (if executed then acked else s')
           end
  | NServe i => advance i PrAcked PrServing s
  | NServeEnds i => advance i PrServing PrExited s
  end.

(** A session that ends while its process goes on. *)
Definition lost (l : NLabel) (s : NState) : bool :=
  match l with
  | NElect (EExpire i) => negb (bool_decide (ng_procs s !! i = Some PrExited))
  | NLookGone _ => true
  | _ => false
  end.

Fixpoint run_nodes (ls : list NLabel) (s : NState) : option NState :=
  match ls with [] => Some s | l :: ls => s ← nstep l s; run_nodes ls s end.

(** The same without lost sessions. *)
Fixpoint steady_run (ls : list NLabel) (s : NState) : option NState :=
  match ls with [] => Some s | l :: ls => if lost l s then None else s ← nstep l s; steady_run ls s end.

Definition new_nodes (znode prefix ack : string) (addrs : list string) (z : Zs) : NState :=
  mkNState (group znode prefix ack (length addrs) z) (replicate (length addrs) PrSecondary) addrs None.
End nodes.
Arguments NState : clear implicits.

(** Writing a znode does not touch the proposals. *)
Class ZkSetLaw (Zs : Type) {ZK : ZooKeeper Zs} {ZL : ZooKeeperLaws Zs} : Prop :=
  zk_Set_ok : ∀ path info s r s' dir, zk_Set path info s = (r, s') → zk_live s' dir ≡ₚ zk_live s dir ∧ zk_next s' dir = zk_next s dir.

(** Elected, and not gone. *)
Definition is_primary (p : Proc) : bool := match p with PrElected | PrReady | PrListening | PrAcked | PrServing => true | _ => false end.
Definition is_known (p : Proc) : bool := match p with PrAcked | PrServing => true | _ => false end.

(** ** One primary *)
Section alone.
Context {Zs : Type} {ZK : ZooKeeper Zs} {ZL : ZooKeeperLaws Zs} {ZS : ZkSetLaw Zs} (znode prefix ack : string) (Hslash : no_slash prefix).
Implicit Types (s : NState Zs) (e : EState Zs).

Definition label_index (l : ELabel) : option nat :=
  match l with EPropose i | ELook i | EWatch i | EWake i | EExpire i => Some i | EVanish _ => None end.

(** A step of the election changes one node. *)
Lemma estep_others l e e' : estep l e = Some e' →
  length (es_nodes e') = length (es_nodes e) ∧ ∀ i, Some i ≠ label_index l → es_nodes e' !! i = es_nodes e !! i.
Proof.
  assert (∀ j x p z, length (es_nodes (set_node j x p z e)) = length (es_nodes e)
    ∧ ∀ i, Some i ≠ Some j → es_nodes (set_node j x p z e) !! i = es_nodes e !! i) as Hset.
  { intros j x p z. cbn. rewrite length_insert. split; [done|]. intros i Hi. by rewrite list_lookup_insert_ne by congruence. }
  intros Hs. destruct l as [j|j|j|j|j|name]; cbn [estep label_index] in *; apply bind_Some in Hs as (n & Hn & Hs).
  - destruct (en_phase n); try done. destruct (CreateProposal _ _) as [[x|x] z]; injection Hs as <-; apply Hset.
  - destruct (en_phase n); try done. destruct (look _ _) as [[x|x] z]; injection Hs as <-; apply Hset.
  - destruct (en_phase n); try done. destruct (watch _ _ _) as [[x|x] z]; injection Hs as <-; apply Hset.
  - destruct (en_phase n); try done. destruct (zk_fired _ _); [|done]. injection Hs as <-. apply Hset.
  - assert (e' = set_node j (en_elector n) PGone (zk_expire (electionZnode (en_elector n) +:+ "/" +:+ proposal (en_elector n)) (es_zk e)) e) as ->
      by (by destruct (en_phase n); simplify_eq). apply Hset.
  - case_decide; [done|]. by injection Hs as <-.
Qed.

Record ninv (s : NState Zs) : Prop := {
  ni_elect : einv znode prefix (ng_elect s);
  ni_next : 0 <= zk_next (es_zk (ng_elect s)) znode;
  ni_procs : length (ng_procs s) = length (es_nodes (ng_elect s));
  ni_primary : ∀ i p, ng_procs s !! i = Some p → is_primary p = true → en_phase <$> es_nodes (ng_elect s) !! i = Some PLeader;
  ni_known : ∀ i p, ng_procs s !! i = Some p → is_known p = true → ng_ack s = ng_addrs s !! i
}.

(** The election moves on; processes that are primaries keep their node. *)
Lemma ninv_elect s l e : ninv s → zk_next (es_zk (ng_elect s)) znode < seq_limit → estep l (ng_elect s) = Some e →
  (∀ i p, label_index l = Some i → ng_procs s !! i = Some p → is_primary p = false) →
  ninv (set_elect e s) ∧ zk_next (es_zk e) znode <= zk_next (es_zk (ng_elect s)) znode + 1.
Proof using Hslash ZL.
  intros [H1 H2 H3 H4 H5] Hb Hs Hq. destruct (estep_einv znode prefix Hslash l _ e H1 ltac:(lia) Hs) as [He Hx].
  destruct (estep_others l _ e Hs) as [Hl Ho]. split; [|lia]. split; cbn [set_elect ng_elect ng_procs ng_ack ng_addrs]; [done|lia|by rewrite Hl| |done].
  intros i p Hi Hp. rewrite Ho; [by apply (H4 i p)|]. intros E. by rewrite (Hq i p (eq_sym E) Hi) in Hp.
Qed.

(** A process moves on. *)
Lemma ninv_proc s i p : ninv s →
  (is_primary p = true → en_phase <$> es_nodes (ng_elect s) !! i = Some PLeader) → (is_known p = true → ng_ack s = ng_addrs s !! i) →
  ninv (set_proc i p s).
Proof.
  intros [H1 H2 H3 H4 H5] Hp Hk. split; cbn [set_proc ng_elect ng_procs ng_ack ng_addrs]; [done|done|by rewrite length_insert|..].
  - intros j q. rewrite list_lookup_insert_Some. intros [(<- & <- & _)|[_ Hj]]; [done|by apply H4].
  - intros j q. rewrite list_lookup_insert_Some. intros [(<- & <- & _)|[_ Hj]]; [done|by apply H5].
Qed.

Lemma ninv_follow s i : ninv s → ng_procs s !! i = Some PrSecondary → ninv (follow i s).
Proof.
  intros Hn Hi. unfold follow. destruct (en_phase <$> es_nodes (ng_elect s) !! i) as [[]|] eqn:E; try done; by apply ninv_proc.
Qed.

Lemma advance_spec i p q s s' : advance i p q s = Some s' → ng_procs s !! i = Some p ∧ s' = set_proc i q s.
Proof. unfold advance. case_decide; [|done]. by intros [= <-]. Qed.

(** A process that goes on being a primary, or stops. *)
Lemma ninv_advance i p q s s' : ninv s → advance i p q s = Some s' → (is_primary q = true → is_primary p = true) →
  (is_known q = true → is_known p = true) → ninv s' ∧ ng_elect s' = ng_elect s.
Proof.
  intros Hn (Hp & ->)%advance_spec H1 H2. split; [|done].
  apply ninv_proc; [done|intros Hq; apply (ni_primary s Hn i p); auto|intros Hq; apply (ni_known s Hn i p); auto].
Qed.

(** AckLeader: there is no other primary whose address it could overwrite. *)
Lemma ninv_ack s i n addr z : ninv s → zk_next (es_zk (ng_elect s)) znode <= seq_limit → es_nodes (ng_elect s) !! i = Some n → ng_addrs s !! i = Some addr →
  ng_procs s !! i = Some PrListening → zk_live z znode ≡ₚ zk_live (es_zk (ng_elect s)) znode → zk_next z znode = zk_next (es_zk (ng_elect s)) znode →
  let e := mkEState z (es_nodes (ng_elect s)) in
  (∀ p, is_primary p = true → ninv (mkNState e (<[i := p]> (ng_procs s)) (ng_addrs s) (Some addr))) ∧ ninv (set_elect e s)
  ∧ ninv (mkNState e (<[i := PrExited]> (ng_procs s)) (ng_addrs s) (Some addr)).
Proof using Hslash ZL.
  intros [H1 H2 H3 H4 H5] Hb Hn Ha Hp Hl Hx e. pose proof (H4 i PrListening Hp eq_refl) as Hlead. rewrite Hn in Hlead. injection Hlead as Hlead.
  assert (einv znode prefix e) as He.
  { replace e with (set_node i (en_elector n) (en_phase n) z (ng_elect s)).
    - apply einv_phase; try done; [intros Hpl; by apply (ei_leader _ _ _ H1 i n Hn)|]. intros w Hw. by eapply ei_watch.
    - unfold set_node, e. f_equal. destruct n. by apply list_insert_id. }
  assert (∀ j q, ng_procs s !! j = Some q → is_primary q = true → j = i) as Honly.
  { intros j q Hj Hq. specialize (H4 j q Hj Hq). destruct (es_nodes (ng_elect s) !! j) as [m|] eqn:Em; [|done]. injection H4 as H4.
    by apply (leader_unique znode prefix (ng_elect s) j i m n). }
  assert (∀ q, is_known q = true → is_primary q = true) as Hkp by (by intros []).
  assert (∀ p, ninv (mkNState e (<[i := p]> (ng_procs s)) (ng_addrs s) (Some addr))) as Hall.
  { intros p. split; cbn [ng_elect ng_procs ng_ack ng_addrs]; [done|cbn; lia|by rewrite length_insert|..].
    - intros j q. rewrite list_lookup_insert_Some. intros [(<- & <- & _)|[_ Hj]] Hq; cbn; [by rewrite Hn; cbn; rewrite Hlead|by apply (H4 j q)].
    - intros j q. rewrite list_lookup_insert_Some. intros [(<- & <- & _)|[Hne Hj]] Hq; [done|]. destruct (Honly j q Hj (Hkp q Hq)). done. }
  split_and!; [auto| |auto]. split; cbn [set_elect ng_elect ng_procs ng_ack ng_addrs]; [done|cbn; lia|done|done|done].
Qed.

(** One more step, and at most one more proposal. *)
Definition grows (k : Z) (s s' : NState Zs) : Prop := ninv s' ∧ zk_next (es_zk (ng_elect s')) znode <= zk_next (es_zk (ng_elect s)) znode + k.

Lemma advance_grows i p q s s' : ninv s → advance i p q s = Some s' → (is_primary q = true → is_primary p = true) →
  (is_known q = true → is_known p = true) → grows 1 s s'.
Proof. intros Hn Hs H1 H2. destruct (ninv_advance i p q s s' Hn Hs H1 H2) as [? E]. split; [done|rewrite E; lia]. Qed.

Lemma follow_elect i s : ng_elect (follow i s) = ng_elect s.
Proof. unfold follow. by destruct (en_phase <$> es_nodes (ng_elect s) !! i) as [[]|]. Qed.

Lemma elect_grows l s s' : ninv s → zk_next (es_zk (ng_elect s)) znode < seq_limit → lost (NElect l) s = false → nstep (NElect l) s = Some s' → grows 1 s s'.
Proof using Hslash ZL.
  intros Hn Hb Hl Hs. cbn [nstep] in Hs. destruct (node_of_label l) as [i|] eqn:Ei.
  - case_decide as Hp; [|done]. apply bind_Some in Hs as (e & He & [= <-]).
    assert (label_index l = Some i) as Eli by (destruct l; cbn in *; congruence).
    destruct (ninv_elect s l e Hn Hb He) as [Hn' Hx]; [intros j p; rewrite Eli; intros [= <-]; rewrite Hp; by intros [= <-]|].
    split; [by apply ninv_follow|]. by rewrite follow_elect.
  - apply bind_Some in Hs as (e & He & [= <-]). apply (ninv_elect s l e Hn Hb He). intros i p Hi Hp. destruct l; try done.
    cbn in Hi. injection Hi as ->. cbn [lost] in Hl. apply negb_false_iff, bool_decide_eq_true in Hl. rewrite Hl in Hp. by injection Hp as <-.
Qed.

Lemma nstep_grows l s s' : ninv s → zk_next (es_zk (ng_elect s)) znode < seq_limit → lost l s = false → nstep l s = Some s' → grows 1 s s'.
Proof using Hslash ZL ZS.
  intros Hn Hb Hl Hs. destruct l as [l|i|i|i ok|i ok|i executed|i|i]; [|unfold nstep in Hs..].
  - by eapply elect_grows.
  - case_decide as Hi; [|done]. assert (ninv (set_proc i PrExited s)) as Hn1 by (by apply ninv_proc).
    destruct (estep (EExpire i) (ng_elect s)) as [e|] eqn:Ee; injection Hs as <-.
    + destruct (ninv_elect (set_proc i PrExited s) (EExpire i) e Hn1 Hb Ee) as [Hn2 Hx]; [|exact (conj Hn2 Hx)].
      intros j p [= <-]. cbn. rewrite list_lookup_insert_eq by done. by intros [= <-].
    + split; [exact Hn1|cbn; lia].
  - done.
  - by eapply advance_grows; [| |destruct ok..].
  - by eapply advance_grows; [| |destruct ok..].
  - apply bind_Some in Hs as (n & En & Hs). apply bind_Some in Hs as (addr & Ea & Hs). apply bind_Some in Hs as (s1 & (Hp & ->)%advance_spec & Hs).
    unfold AckLeader in Hs. destruct (zk_Set (electionAck (en_elector n)) addr (es_zk (ng_elect s))) as [r z] eqn:Ez.
    destruct (zk_Set_ok _ _ _ _ _ znode Ez) as [Hlv Hnx]. destruct (ninv_ack s i n addr z Hn ltac:(lia) En Ea Hp Hlv Hnx) as (A1 & A2 & A3).
    injection Hs as <-. split; [|destruct r, executed; cbn; lia]. destruct r as [[]|err]; [by apply A1|].
    destruct executed; unfold set_proc; cbn [ng_elect ng_procs ng_addrs ng_ack set_elect]; rewrite list_insert_insert_eq; [apply A3|].
    by apply (ninv_proc _ i PrExited A2).
  - by eapply advance_grows.
  - by eapply advance_grows.
Qed.

Lemma steady_ninv ls s s' : ninv s → zk_next (es_zk (ng_elect s)) znode + Z.of_nat (length ls) <= seq_limit → steady_run ls s = Some s' →
  ninv s' ∧ zk_next (es_zk (ng_elect s')) znode <= seq_limit.
Proof using Hslash ZL ZS.
  revert s. induction ls as [|l ls IH]; intros s Hn Hb; cbn [steady_run length] in *; [intros [= <-]; split; [done|lia]|].
  destruct (lost l s) eqn:El; [done|]. intros (s1 & Hs & Hr)%bind_Some. destruct (nstep_grows l s s1 Hn ltac:(lia) El Hs) as [Hn1 Hx].
  apply (IH s1); [done|lia|done].
Qed.

Lemma new_nodes_ninv addrs z : zk_live z znode = [] → 0 <= zk_next z znode → ninv (new_nodes znode prefix ack addrs z).
Proof.
  intros Hl H0. split; cbn [new_nodes ng_elect ng_procs ng_ack ng_addrs]; [by apply group_einv|done|cbn; by rewrite !length_replicate|..].
  - by intros i p [-> _]%lookup_replicate.
  - by intros i p [-> _]%lookup_replicate.
Qed.

End alone.

(** ** Examples *)
#[export] Instance mem_set : ZkSetLaw MemZk.
Proof. intros path info s r s' dir [= <- <-]. done. Qed.

Definition two_nodes : NState MemZk := new_nodes "/e" "n_" "/ack" ["a"; "b"] ∅.

(** The first node serves, then it crashes and the second one takes over. *)
Definition becomes_primary (i : nat) : list NLabel := [NCaughtUp i true; NListen i true; NAck i true; NServe i].
Definition both_start : list NLabel := [NElect (EPropose 0); NElect (ELook 0); NElect (EPropose 1); NElect (ELook 1); NElect (EWatch 1)].
Definition takes_over : list NLabel := [NElect (EWake 1); NElect (ELook 1)] ++ becomes_primary 1.
Definition handover : list NLabel := both_start ++ becomes_primary 0 ++ NCrash 0 :: takes_over.
Definition after_handover : NState MemZk := default two_nodes (steady_run handover two_nodes).


Definition outcome (s : NState MemZk) : list Proc * option string := (ng_procs s, ng_ack s).

(** A primary whose session ends goes on serving beside its successor. *)
Example expired_primary_serves : outcome <$> run_nodes (both_start ++ becomes_primary 0 ++ NElect (EExpire 0) :: takes_over) two_nodes
  = Some ([PrServing; PrServing], Some "b").
Proof. vm_compute. reflexivity. Qed.

(** One that loses its session while it catches up overwrites the address of its
    successor: clients are sent to a node that is not the primary any more. *)
Example stale_acknowledgement : outcome <$> run_nodes (both_start ++ NElect (EExpire 0) :: takes_over ++ becomes_primary 0) two_nodes
  = Some ([PrServing; PrServing], Some "a").
Proof. vm_compute. reflexivity. Qed.

(** A secondary whose session has ended keeps its old proposal and is elected with it. *)
Example elected_without_proposal :
  ng_procs <$> run_nodes [NElect (EPropose 0); NElect (ELook 0); NElect (EPropose 1); NElect (ELook 1); NElect (EWatch 1);
    NElect (EExpire 1); NCrash 0; NLookGone 1] two_nodes = Some [PrExited; PrElected].
Proof. vm_compute. reflexivity. Qed.
