(* ===== verification/ZkLocks.v ===== *)
(** ZkLocks: the locks that the gDoc backend can take in ZooKeeper.

    Source: gDoc_backend/lock/zkConn.go (ZkLockFile, ZkLockCell, ZkUnlockFile and
    ZkUnlockCell); lock/lock.go is what the handlers use today.

    The recipe of the ZooKeeper client, zk.Lock, is the class [ZkMutex]: a lock per
    path with one holder, which later requests wait for.  Requests of several
    goroutines, or of several servers, are a transition system; each runs one
    lock-use-unlock sequence.  An error of Lock panics, so it ends the run; an error
    of Unlock is ignored by the code and appears as a choice of the label. *)
From Stdlib Require Import ZArith Lia.
From stdpp Require Import gmap strings list pretty.
From S2P Require Import Prelude.
Open Scope nat_scope.

(** ** The client of ZooKeeper *)
Class ZkMutex := {
  ZkTable : Type;
  zk_owner : ZkTable → string → option nat;
  zk_acquire : string → nat → ZkTable → option ZkTable; (* [None]: Lock waits *)
  zk_release : string → ZkTable → ZkTable;
  zk_empty : ZkTable;
  zk_acquire_free : ∀ p i t, zk_owner t p = None → is_Some (zk_acquire p i t);
  zk_acquired : ∀ p i t t', zk_acquire p i t = Some t' → zk_owner t p = None ∧ ∀ q, zk_owner t' q = if decide (q = p) then Some i else zk_owner t q;
  zk_released : ∀ p t q, zk_owner (zk_release p t) q = if decide (q = p) then None else zk_owner t q;
  zk_empty_free : ∀ p, zk_owner zk_empty p = None
}.

(** A table of holders. *)
Definition table_acquire (p : string) (i : nat) (t : gmap string nat) : option (gmap string nat) :=
  match t !! p with None => Some (<[p := i]> t) | Some _ => None end.
Lemma table_acquire_free p i t : t !! p = None → is_Some (table_acquire p i t).
Proof. unfold table_acquire. intros ->. by eexists. Qed.
Lemma table_acquired p i t t' : table_acquire p i t = Some t' → t !! p = None ∧ ∀ q, t' !! q = if decide (q = p) then Some i else t !! q.
Proof.
  unfold table_acquire. destruct (t !! p) eqn:E; [done|]. intros [= <-]. split; [done|]. intros q.
  case_decide; [subst; apply lookup_insert_eq|by rewrite lookup_insert_ne].
Qed.
Lemma table_released p (t : gmap string nat) q : delete p t !! q = if decide (q = p) then None else t !! q.
Proof. case_decide; [subst; apply lookup_delete_eq|by rewrite lookup_delete_ne]. Qed.
#[export] Instance zk_table : ZkMutex := {|
  ZkTable := gmap string nat;
  zk_owner t p := t !! p;
  zk_acquire := table_acquire;
  zk_release p t := delete p t;
  zk_empty := ∅;
  zk_acquire_free := table_acquire_free;
  zk_acquired := table_acquired;
  zk_released := table_released;
  zk_empty_free p := lookup_empty p
|}.

Definition zk_file_path (filename : string) : string := "/" +:+ filename.
Definition zk_cell_path (row column : Z) (filename : string) : string := "/" +:+ filename +:+ "-" +:+ pretty row +:+ "-" +:+ pretty column.

Lemma str_length_app (a b : string) : String.length (a +:+ b) = String.length a + String.length b.
Proof. induction a as [|x a IH]; [done|]. change (S (String.length (a +:+ b)) = S (String.length a + String.length b)). by rewrite IH. Qed.

(** ** Requests *)
Inductive ZkJob :=
| JFile (filename : string)
| JCell (row column : Z) (filename : string).
Inductive ZkPhase :=
| ZStart   (* before ZkLockFile *)
| ZFile    (* ZkLockFile has returned *)
| ZBoth    (* ZkLockCell has the lock of the cell, before ZkUnlockFile *)
| ZCell    (* ZkLockCell has returned *)
| ZDone.
#[export] Instance ZkPhase_dec : EqDecision ZkPhase.
Proof. solve_decision. Defined.

Definition job_file (j : ZkJob) : string := match j with JFile f | JCell _ _ f => zk_file_path f end.
Definition job_cell (j : ZkJob) : option string := match j with JFile _ => None | JCell row column f => Some (zk_cell_path row column f) end.

Section zk.
Context `{ZK : ZkMutex}.

Record ZkState := mkZkState { zs_jobs : list (ZkJob * ZkPhase); zs_table : ZkTable }.

(** What request [i] does next; [ok] is whether Unlock reaches ZooKeeper. *)
Definition zk_action (i : nat) (ok : bool) (j : ZkJob) (ph : ZkPhase) (t : ZkTable) : option (ZkPhase * ZkTable) :=
  let unlock p := if ok then zk_release p t else t in
  match ph with
  | ZStart => t ← zk_acquire (job_file j) i t; Some (ZFile, t)
  | ZFile => match job_cell j with
             | Some cellpath => t ← zk_acquire cellpath i t; Some (ZBoth, t)
             | None => Some (ZDone, unlock (job_file j))
             end
  | ZBoth => Some (ZCell, unlock (job_file j))
  | ZCell => match job_cell j with Some cellpath => Some (ZDone, unlock cellpath) | None => None end
  | ZDone => None
  end.

Definition zk_step (l : nat * bool) (s : ZkState) : option ZkState :=
  '(j, ph) ← zs_jobs s !! l.1;
  '(ph', t) ← zk_action l.1 l.2 j ph (zs_table s);
  Some (mkZkState (<[l.1 := (j, ph')]> (zs_jobs s)) t).
Fixpoint zk_run (ls : list (nat * bool)) (s : ZkState) : option ZkState :=
  match ls with [] => Some s | l :: ls => s ← zk_step l s; zk_run ls s end.
Definition zk_init (js : list ZkJob) : ZkState := mkZkState ((λ j, (j, ZStart)) <$> js) zk_empty.

(** ** Who holds what *)
Definition holds (j : ZkJob) (ph : ZkPhase) : list string :=
  match ph with
  | ZStart | ZDone => []
  | ZFile => [job_file j]
  | ZBoth => job_file j :: option_list (job_cell j)
  | ZCell => option_list (job_cell j)
  end.

(** The table knows at least the holders; a lock that could not be given back may
    stay in it. *)
Definition covers (s : ZkState) : Prop := ∀ i j ph p, zs_jobs s !! i = Some (j, ph) → p ∈ holds j ph → zk_owner (zs_table s) p = Some i.
(** ... and no one else. *)
Definition covered (s : ZkState) : Prop := ∀ i p, zk_owner (zs_table s) p = Some i → ∃ j ph, zs_jobs s !! i = Some (j, ph) ∧ p ∈ holds j ph.
(** A request for a file is never in the phases of a cell. *)
Definition phase_fits (s : ZkState) : Prop := ∀ i f ph, zs_jobs s !! i = Some (JFile f, ph) → ph ≠ ZBoth ∧ ph ≠ ZCell.
Record zk_inv (s : ZkState) : Prop := { zi_covers : covers s; zi_fits : phase_fits s }.

Lemma cell_path_longer row column f : String.length (zk_file_path f) < String.length (zk_cell_path row column f).
Proof. unfold zk_file_path, zk_cell_path. rewrite !str_length_app. cbn. lia. Qed.
Lemma job_paths_differ j p : job_cell j = Some p → p ≠ job_file j.
Proof. destruct j as [|row column f]; [done|]. intros [= <-] E. pose proof (cell_path_longer row column f) as H. rewrite E in H. cbn in H. lia. Qed.

Ltac set_holds := intros; cbn; rewrite ?elem_of_cons, ?elem_of_nil; naive_solver.

(** One action takes one lock, or gives one back. *)
Lemma zk_action_spec i ok j ph t ph' t' : zk_action i ok j ph t = Some (ph', t') →
  (∃ p, zk_owner t p = None ∧ (∀ q, zk_owner t' q = if decide (q = p) then Some i else zk_owner t q) ∧ ∀ q, q ∈ holds j ph' ↔ q = p ∨ q ∈ holds j ph)
  ∨ (∃ p, p ∈ holds j ph ∧ (∀ q, zk_owner t' q = if decide (ok = true ∧ q = p) then None else zk_owner t q)
       ∧ ∀ q, q ∈ holds j ph' ↔ q ∈ holds j ph ∧ q ≠ p).
Proof.
  assert (∀ p q, zk_owner (if ok then zk_release p t else t) q = if decide (ok = true ∧ q = p) then None else zk_owner t q) as Hu.
  { intros p q. destruct ok; [rewrite zk_released|]; repeat case_decide; naive_solver. }
  destruct ph; cbn.
  - intros (t1 & [E1 E2]%zk_acquired & [= <- <-])%bind_Some. left. exists (job_file j). split_and!; [done|done|set_holds].
  - destruct (job_cell j) as [p|] eqn:Ej.
    + intros (t1 & [E1 E2]%zk_acquired & [= <- <-])%bind_Some. left. exists p. cbn. split_and!; [done|done|]. rewrite Ej. set_holds.
    + intros [= <- <-]. right. exists (job_file j). split_and!; [set_holds|apply Hu|set_holds].
  - intros [= <- <-]. right. exists (job_file j). split_and!; [set_holds|apply Hu|]. intros q. unfold holds. destruct (job_cell j) as [p|] eqn:Ej; [|set_holds].
    pose proof (job_paths_differ j p Ej). set_holds.
  - destruct (job_cell j) as [p|] eqn:Ej; [|done]. intros [= <- <-]. right. exists p. unfold holds. rewrite ?Ej. split_and!; [set_holds|apply Hu|set_holds].
  - done.
Qed.

Lemma zk_step_Some l s s' : zk_step l s = Some s' → ∃ j ph ph' t', zs_jobs s !! l.1 = Some (j, ph) ∧ zk_action l.1 l.2 j ph (zs_table s) = Some (ph', t')
  ∧ s' = mkZkState (<[l.1 := (j, ph')]> (zs_jobs s)) t'.
Proof. intros ([j ph] & Hj & ([ph' t'] & Ha & [= <-])%bind_Some)%bind_Some. by exists j, ph, ph', t'. Qed.

(** The requests after request [i] has made a step. *)
Lemma jobs_after (i k : nat) (x y z : ZkJob * ZkPhase) (js : list (ZkJob * ZkPhase)) : js !! i = Some x → <[i := y]> js !! k = Some z → k = i ∧ z = y ∨ k ≠ i ∧ js !! k = Some z.
Proof.
  intros Hi. destruct (decide (k = i)) as [->|Hne]; [|rewrite list_lookup_insert_ne by done; auto].
  rewrite list_lookup_insert_eq by (by eapply lookup_lt_Some). intros [= <-]. by left.
Qed.

Lemma zk_step_inv l s s' : zk_inv s → zk_step l s = Some s' → zk_inv s'.
Proof.
  intros [Hc Hf] (j & ph & ph' & t' & Hj & Ha & ->)%zk_step_Some. split.
  - intros k j2 ph2 p Hk Hp. cbn in *. destruct (jobs_after _ _ _ _ _ _ Hj Hk) as [[-> [= -> ->]]|[Hne Hk']]; clear Hk.
    + destruct (zk_action_spec _ _ _ _ _ _ _ Ha) as [(q & Hq & Ho & Hh)|(q & Hq & Ho & Hh)]; rewrite Ho; apply Hh in Hp.
      * case_decide; [done|]. apply (Hc l.1 j ph); [done|naive_solver].
      * rewrite decide_False by naive_solver. apply (Hc l.1 j ph); naive_solver.
    + pose proof (Hc k j2 ph2 p Hk' Hp) as Hown.
      destruct (zk_action_spec _ _ _ _ _ _ _ Ha) as [(q & Hq & Ho & Hh)|(q & Hq & Ho & Hh)]; rewrite Ho, decide_False; try done; [by intros ->; congruence|].
      intros [_ ->]. rewrite (Hc l.1 j ph q Hj Hq) in Hown. congruence.
  - intros k f ph2 Hk. cbn in Hk. destruct (jobs_after _ _ _ _ _ _ Hj Hk) as [[-> [= <- ->]]|[Hne Hk']]; [|by apply (Hf k f)].
    destruct (Hf _ _ _ Hj). destruct ph; cbn in Ha; try done; [|by injection Ha as <- <-].
    by apply bind_Some in Ha as (t1 & _ & [= <- <-]).
Qed.

Lemma zk_step_covered i s s' : covers s → covered s → zk_step (i, true) s = Some s' → covered s'.
Proof.
  intros Hc Hd (j & ph & ph' & t' & Hj & Ha & ->)%zk_step_Some k p. cbn in *.
  assert (∀ k, zk_owner (zs_table s) p = Some k → (k = i → p ∈ holds j ph → p ∈ holds j ph') →
    ∃ j2 ph2, <[i := (j, ph')]> (zs_jobs s) !! k = Some (j2, ph2) ∧ p ∈ holds j2 ph2) as Hkeep.
  { intros m Hm Hi. destruct (Hd m p Hm) as (j2 & ph2 & Hj2 & Hp). destruct (decide (m = i)) as [->|Hne].
    - rewrite Hj in Hj2. injection Hj2 as <- <-. exists j, ph'. rewrite list_lookup_insert_eq by (by eapply lookup_lt_Some). auto.
    - exists j2, ph2. by rewrite list_lookup_insert_ne. }
  destruct (zk_action_spec _ _ _ _ _ _ _ Ha) as [(q & Hq & Ho & Hh)|(q & Hq & Ho & Hh)]; rewrite Ho; destruct (decide _) as [Hpq|Hpq]; intros Hown;
    [|apply Hkeep; [done|intros; apply Hh; by right]|done|apply Hkeep; [done|intros; apply Hh; naive_solver]].
  simplify_eq. exists j, ph'. rewrite list_lookup_insert_eq by (by eapply lookup_lt_Some). split; [done|]. apply Hh. by left.
Qed.

Lemma zk_init_jobs js i x : zs_jobs (zk_init js) !! i = Some x → x.2 = ZStart.
Proof. cbn. rewrite list_lookup_fmap. by intros (j & _ & ->)%fmap_Some. Qed.
Lemma zk_init_inv js : zk_inv (zk_init js).
Proof.
  split.
  - intros i j ph p E%zk_init_jobs. cbn in E. subst. by intros ?%elem_of_nil.
  - intros i f ph E%zk_init_jobs. cbn in E. by subst.
Qed.
Lemma zk_init_covered js : covered (zk_init js).
Proof. intros i p. cbn. by rewrite zk_empty_free. Qed.

Lemma zk_run_inv ls s s' : zk_inv s → zk_run ls s = Some s' → zk_inv s'.
Proof.
  revert s. induction ls as [|l ls IH]; intros s Hs; cbn; [by intros [= <-]|]. intros (s1 & E1 & E2)%bind_Some.
  apply (IH s1); [|done]. by apply (zk_step_inv l s).
Qed.
Lemma zk_run_covered js s s' : zk_inv s → covered s → zk_run ((λ i, (i, true)) <$> js) s = Some s' → covered s'.
Proof.
  revert s. induction js as [|i js IH]; intros s Hs Hd; cbn; [by intros [= <-]|]. intros (s1 & E1 & E2)%bind_Some.
  apply (IH s1); [by apply (zk_step_inv (i, true) s)|by apply (zk_step_covered i s); [apply Hs|..]|done].
Qed.

(** ** Exclusion *)

(** A lock of ZooKeeper belongs to one request: two requests never hold the same
    path at the same time, neither two cells nor two files, whatever unlocks are
    lost. *)
Theorem zk_exclusive js ls s i1 j1 ph1 i2 j2 ph2 p : zk_run ls (zk_init js) = Some s →
  zs_jobs s !! i1 = Some (j1, ph1) → zs_jobs s !! i2 = Some (j2, ph2) → i1 ≠ i2 → p ∈ holds j1 ph1 → p ∉ holds j2 ph2.
Proof.
  intros Hr H1 H2 Hne P1 P2. destruct (zk_run_inv ls _ s (zk_init_inv js) Hr) as [Hc _].
  pose proof (Hc _ _ _ _ H1 P1). pose proof (Hc _ _ _ _ H2 P2). congruence.
Qed.

(** ** No deadlock *)

(** A request that has a cell's lock to wait for. *)
Definition waiting (s : ZkState) (i n : nat) : Prop :=
  ∃ row column f, zs_jobs s !! i = Some (JCell row column f, ZFile) ∧ n ≤ String.length (zk_file_path f).

Definition stuck (s : ZkState) : Prop := ∀ i, zk_step (i, true) s = None.

Lemma stuck_action s i j ph : stuck s → zs_jobs s !! i = Some (j, ph) → zk_action i true j ph (zs_table s) = None.
Proof. intros Hs Hj. specialize (Hs i). unfold zk_step in Hs. cbn [fst snd] in Hs. rewrite Hj in Hs. cbn in Hs. by destruct (zk_action _ _ _ _ _) as [[??]|]. Qed.

(** When no one can move, a lock that is held is held by a request that waits for
    the lock of a cell, and it is the lock of its file. *)
Lemma stuck_holder s p i : zk_inv s → covered s → stuck s → zk_owner (zs_table s) p = Some i → waiting s i (String.length p).
Proof.
  intros [_ Hf] Hd Hs (j & ph & Hj & Hp)%Hd. pose proof (stuck_action s i j ph Hs Hj) as Ha. destruct j as [f|row column f].
  - destruct (Hf _ _ _ Hj), ph; cbn in Hp, Ha; try done; by apply elem_of_nil in Hp.
  - destruct ph; cbn in Hp, Ha; try done; try by apply elem_of_nil in Hp.
    apply list_elem_of_singleton in Hp as ->. by exists row, column, f.
Qed.

Lemma blocked s p i : zk_acquire p i (zs_table s) = None → ∃ k, zk_owner (zs_table s) p = Some k.
Proof. intros E. destruct (zk_owner (zs_table s) p) as [k|] eqn:Eo; [by exists k|]. destruct (zk_acquire_free p i _ Eo) as [t Et]. congruence. Qed.

(** It waits for a longer path than the one it holds. *)
Lemma stuck_longer s i n : zk_inv s → covered s → stuck s → waiting s i n → ∃ k, waiting s k (S n).
Proof.
  intros Hi Hd Hs (row & column & f & Hj & Hn). pose proof (stuck_action s i _ _ Hs Hj) as Ha. cbn in Ha.
  destruct (zk_acquire (zk_cell_path row column f) i (zs_table s)) as [t|] eqn:E; [done|]. apply blocked in E as [k Hk].
  apply (stuck_holder s _ k Hi Hd Hs) in Hk as (row' & column' & f' & Hj' & Hn'). exists k, row', column', f'.
  split; [done|]. pose proof (cell_path_longer row column f). lia.
Qed.

Lemma stuck_unbounded s i n : zk_inv s → covered s → stuck s → waiting s i 0 → ∃ k, waiting s k n.
Proof. intros Hi Hd Hs Hw. induction n as [|n [k IH]]; [by exists i|]. by apply (stuck_longer s k). Qed.

Lemma waiting_bounded s i n : waiting s i n → n ≤ sum_list_with (λ x, String.length (job_file x.1)) (zs_jobs s).
Proof.
  intros (row & column & f & Hj & Hn). etrans; [exact Hn|]. apply list_elem_of_lookup_2 in Hj. induction (zs_jobs s) as [|x l IH]; [by apply elem_of_nil in Hj|].
  apply elem_of_cons in Hj as [<-|Hj]; cbn; [lia|]. specialize (IH Hj). lia.
Qed.

Lemma stuck_done s : zk_inv s → covered s → stuck s → ∀ i j ph, zs_jobs s !! i = Some (j, ph) → ph = ZDone.
Proof.
  intros Hi Hd Hs. assert (∀ k, ¬ waiting s k 0) as Hnone.
  { intros k Hw. destruct (stuck_unbounded s k (S (sum_list_with (λ x, String.length (job_file x.1)) (zs_jobs s))) Hi Hd Hs Hw) as [k' H].
    apply waiting_bounded in H. lia. }
  intros i j ph Hj. pose proof (stuck_action s i j ph Hs Hj) as Ha. destruct ph; [|..|done].
  - exfalso. cbn in Ha. destruct (zk_acquire _ _ _) eqn:E; [done|]. apply blocked in E as [k Hk]. apply (Hnone k).
    destruct (stuck_holder s _ k Hi Hd Hs Hk) as (row & column & f & Hk' & _). exists row, column, f. split; [done|lia].
  - destruct j as [f|row column f]; [done|]. exfalso. apply (Hnone i). exists row, column, f. split; [done|lia].
  - done.
  - destruct j as [f|row column f]; [|done]. by destruct (zi_fits s Hi _ _ _ Hj).
Qed.

(** ** Every request finishes *)
Definition left_of (ph : ZkPhase) : nat := match ph with ZStart => 4 | ZFile => 3 | ZBoth => 2 | ZCell => 1 | ZDone => 0 end.
Definition work (s : ZkState) : nat := sum_list_with (λ x, left_of x.2) (zs_jobs s).

Lemma action_works i ok j ph t ph' t' : zk_action i ok j ph t = Some (ph', t') → left_of ph' < left_of ph.
Proof.
  destruct ph; cbn; try done.
  - intros (t1 & _ & [= <- <-])%bind_Some. cbn. lia.
  - destruct (job_cell j); [intros (t1 & _ & [= <- <-])%bind_Some|intros [= <- <-]]; cbn; lia.
  - intros [= <- <-]. cbn. lia.
  - destruct (job_cell j); [|done]. intros [= <- <-]. cbn. lia.
Qed.

Lemma work_insert (js : list (ZkJob * ZkPhase)) i x y : js !! i = Some x → left_of y.2 < left_of x.2 →
  sum_list_with (λ x, left_of x.2) (<[i := y]> js) < sum_list_with (λ x, left_of x.2) js.
Proof.
  revert i. induction js as [|z js IH]; intros [|i] Hi Hlt; try done.
  - injection Hi as <-. change (<[0 := y]> (z :: js)) with (y :: js). cbn [sum_list_with]. lia.
  - change (<[S i := y]> (z :: js)) with (z :: <[i := y]> js). cbn [sum_list_with]. specialize (IH i Hi Hlt). lia.
Qed.

Lemma step_works l s s' : zk_step l s = Some s' → work s' < work s.
Proof. intros (j & ph & ph' & t' & Hj & Ha & ->)%zk_step_Some. unfold work. cbn. eapply work_insert; [done|]. by eapply action_works. Qed.

(** [n] requests make [4 * n] steps at most. *)
Lemma run_bounded ls s s' : zk_run ls s = Some s' → length ls + work s' ≤ work s.
Proof.
  revert s. induction ls as [|l ls IH]; intros s; cbn; [intros [= <-]; lia|]. intros (s1 & E1%step_works & E2%IH)%bind_Some. lia.
Qed.

Lemma stuck_dec s : stuck s ∨ ∃ i s', zk_step (i, true) s = Some s'.
Proof.
  destruct (decide (Exists (λ i, is_Some (zk_step (i, true) s)) (seq 0 (length (zs_jobs s))))) as [(i & _ & [s' E])%Exists_exists|Hn]; [eauto|].
  left. intros i. destruct (zk_step (i, true) s) as [s'|] eqn:E; [|done]. destruct Hn. apply Exists_exists. exists i. split; [|by rewrite E].
  apply elem_of_seq. apply zk_step_Some in E as (j & ph & ph' & t' & ?%lookup_lt_Some & _). cbn in *. lia.
Qed.

Lemma zk_finish n s : work s ≤ n → zk_inv s → covered s →
  ∃ xs s', zk_run ((λ i, (i, true)) <$> xs) s = Some s' ∧ ∀ i j ph, zs_jobs s' !! i = Some (j, ph) → ph = ZDone.
Proof.
  revert s. induction n as [|n IH]; intros s Hn Hi Hd; (destruct (stuck_dec s) as [Hs|(i & s1 & E)]; [exists [], s; split; [done|by apply stuck_done]|]).
  - apply step_works in E. lia.
  - destruct (IH s1) as (xs & s' & Hr & Hdone); [apply step_works in E; lia|by apply (zk_step_inv (i, true) s)|by apply (zk_step_covered i s); [apply Hi|..]|].
    exists (i :: xs), s'. split; [|done]. cbn. by rewrite E.
Qed.

(** Requests never wait for each other in a circle, although ZkLockCell waits for a
    cell's lock while it holds the file's: wherever a run without lost unlocks has
    come to, one request can move unless all are done, and the run can be
    completed; [n] requests make at most [4 * n] steps, so it is completed after
    finitely many, in any order. *)
Theorem zk_no_deadlock js xs s : zk_run ((λ i, (i, true)) <$> xs) (zk_init js) = Some s →
  (stuck s → ∀ i j ph, zs_jobs s !! i = Some (j, ph) → ph = ZDone) ∧ length xs ≤ 4 * length js
  ∧ ∃ xs' s', zk_run ((λ i, (i, true)) <$> xs') s = Some s' ∧ ∀ i j ph, zs_jobs s' !! i = Some (j, ph) → ph = ZDone.
Proof.
  intros Hr. pose proof (zk_run_inv _ _ _ (zk_init_inv js) Hr) as Hi. pose proof (zk_run_covered _ _ _ (zk_init_inv js) (zk_init_covered js) Hr) as Hd.
  split_and!; [by apply stuck_done| |by apply (zk_finish (work s))].
  apply run_bounded in Hr. rewrite length_fmap in Hr. assert (work (zk_init js) = 4 * length js) as Hw; [|lia].
  unfold work. cbn. clear. induction js as [|j js IH]; cbn; [done|]. rewrite IH. lia.
Qed.
End zk.

(** ** Three requests *)
Definition zk_demo : list ZkJob := [JCell 1 2 "a"; JCell 1 2 "a"; JFile "a-1-2"].
Definition zk_after (ls : list (nat * bool)) (js : list ZkJob) : ZkState := default (zk_init js) (zk_run ls (zk_init js)).

Lemma zk_exclusive_witness : "/a-1-2" ∉ holds (JCell 1 2 "a") ZFile.
Proof.
  apply (zk_exclusive zk_demo [(0, true); (0, true); (0, true); (1, true)] (zk_after [(0, true); (0, true); (0, true); (1, true)] zk_demo)
           0 (JCell 1 2 "a") ZCell 1 (JCell 1 2 "a") ZFile "/a-1-2"); [vm_compute; reflexivity..|done|cbn; by left].
Defined.

Lemma zk_no_deadlock_witness : ∃ xs' s', zk_run ((λ i, (i, true)) <$> xs') (zk_after [(2, true); (0, true)] zk_demo) = Some s'
  ∧ ∀ i j ph, zs_jobs s' !! i = Some (j, ph) → ph = ZDone.
Proof. apply (zk_no_deadlock zk_demo [2; 0] (zk_after [(2, true); (0, true)] zk_demo)). vm_compute. reflexivity. Defined.

(** A file whose name looks like a cell of another file shares its lock. *)
Example shared_path : zk_file_path "a-1-2" = zk_cell_path 1 2 "a" ∧ zk_cell_path (-1) 2 "a" = zk_cell_path 1 2 "a-".
Proof. by vm_compute. Qed.

(** The error of Unlock is dropped: the lock stays, and the next request for the cell
    waits for ever, with the lock of the file in its hands. *)
Example lost_unlock : forallb (λ i, match zk_step (i, true) (zk_after [(0, true); (0, true); (0, true); (0, false); (1, true)] [JCell 1 2 "a"; JCell 1 2 "a"]) with None => true | Some _ => false end) (seq 0 2) = true.
Proof. vm_compute. reflexivity. Qed.
